(* ===== verification/_CoqProject ===== *)
-Q . S2P
Prelude.v
Effects.v
Regex.v
Values.v
Encodings.v
Readiness.v
Filesystem.v
Custody.v
Paths.v
Schema.v
Urls.v
Composition.v
Json.v
JsonFacts.v
Pipelines.v
Lock.v
Projection.v
Backend.v
Durable.v
Lifecycle.v
LifecycleFacts.v
Artifacts.v
StagedStore.v
StagedFacts.v
Docker.v
MaskTransform.v
MaskFacts.v
MaskSql.v
Capture.v
PostgresProvider.v
PostgresFacts.v
DockerBackend.v
DockerBackendFacts.v
Wiring.v
BackendCustody.v
Authority.v
AuthorityFacts.v
AuthorityLedger.v
ControlPlane.v
ControlPlaneFacts.v
Coordinator.v
CoordinatorFacts.v
Environments.v
EnvironmentFacts.v
Samples.v
LockFacts.v
RootFacts.v
ProjectionFacts.v
MountFacts.v
Workspace.v
WorkspaceFacts.v
Registry.v
RegistryFacts.v
LifecycleGateway.v
LifecycleWiring.v
Journal.v
LifecycleLedger.v
RemoteDeployment.v
VpsTransport.v
VpsMechanics.v
VpsProvider.v
VpsMechanicsFacts.v
VpsExitCodes.v
VpsProviderFacts.v
VpsWiring.v
ImageRegistry.v
Catalogs.v
Cli.v
GitSource.v
Identity.v
Credentials.v
ModuleDeps.v
ManifestCommands.v
CredentialFacts.v
ManifestCommandFacts.v
LockCommandFacts.v
BackendCommands.v
GitSourceFacts.v
SecretFiles.v
Migration.v
