(* ===== verification/Prelude.v ===== *)
(** * odoo-forge: a verification library

    odoo-forge provisions Odoo projects: it reads a manifest of code layers, locks their commits
    and images, plans a workspace and containers, runs them on Docker, and captures, masks,
    copies and restores their databases.  This library models its Python code as Rocq
    definitions and proves what its parts promise.  Source paths below are under [src/src/].

    ** How the code is represented

    - Pure functions are functions; a fallible one returns [result exn A], [Err] carrying the
      exception ([Values.exn] lists the classes; texts are kept where a theorem or caller uses
      them).
    - A method that talks to the outside is a program ([Effects.prog]) over the operations of its
      ports, in the order of the code, [try]/[finally] and [except] included.  [runs p tr o] lets
      every operation answer anything, a value or an exception, so a theorem over [runs] holds
      for every behaviour of the ports; [exec] and [leads] run a program against a concrete
      environment (a file system, a database, a disk), which the witnesses compute with;
      [interp] serves the operations of one component by the programs of another.  [guarded] has
      the rules for properties of the form: no operation happens before its justification.
    - Texts are ASCII or 8-bit [string]s, a Python [dict] is an association list in insertion
      order ([dset], [dict_of]) or a [gmap] where order is not observable, a [datetime] is an
      instant with an awareness flag, and [int] is [Z].
    - Code outside the repository is a parameter: SHA-256, Ed25519, pydantic's JSON writer and
      timestamp reader, YAML, RSA, the clock, Docker, git and PostgreSQL.  Hypotheses about them are
      named and documented behaviour (a signature verifies, a hash has hexadecimal digits), and
      the witnesses instantiate them.

    ** Parts, files and sources

    Foundations.  [Prelude] (results, dictionaries, sorting of texts), [Effects] (programs,
    their runs, and [guarded]), [Regex] (cutting texts, and the [re] patterns with a verified matcher), [Values] (shared domain values and
    validators of [odoo_forge/tenancy], [resource_ownership], [durable_operations],
    [instance_registry], [database]), [Encodings] (base 64 and
    UTF-8), [Json], [JsonFacts] (documents, [json.loads]
    and [json.dumps] with their round trip), [Paths] (pathlib), [Urls] (urlsplit), [Filesystem]
    (POSIX file calls with injected failures), [Custody] (private directories and
    atomic files, shared by the authority and the artifact store).

    Manifest and workspace.  [Schema] ([manifest/schema.py]) builds well-formed manifests;
    [Composition] ([composition.py], [refs.py]) and [Lock] ([lock.py], [lockfile.py], [drift.py])
    compose and lock them through the source and artifact ports; [Projection] ([projection.py],
    [state.py]) plans checkouts and mounts.  [LockFacts], [RootFacts], [ProjectionFacts] and
    [MountFacts] hold their theorems, [Samples] a sample project.  [Workspace], [WorkspaceFacts]:
    the git adapter [odoo_forge_workspace/provider.py] that checks repositories out.

    Durable operations and lifecycle.  [Durable] ([durable_operations/service.py]); [Lifecycle],
    [LifecycleFacts] ([resource_lifecycle/service.py]); [LifecycleGateway], [Journal] ([odoo_forge_postgres_docker/lifecycle.py]);
    [LifecycleWiring], [LifecycleLedger]: the service over that gateway, the production database
    provider and the authority's own ledger, as [odoo_forge_server/composition.py] wires them.

    Custody.  [Authority], [AuthorityFacts], [AuthorityLedger]
    ([odoo_forge_postgres_docker/authority.py]): the signed append-only ledger, as a transition
    system over file calls.  [ControlPlane], [ControlPlaneFacts] ([control_plane/]),
    [Registry], [RegistryFacts] ([odoo_forge_instances_postgres/adapter.py], [fakes.py]), with
    the control plane over the PostgreSQL registry; [Migration] ([migrate.py], [data_environment_registry.py], [raw_data_grant_authority.py]).

    Data.  [Artifacts] ([data_artifacts/types.py], [contracts.py], [anonymization/]);
    [StagedStore], [StagedFacts] ([staged_store.py]); [Docker] (what the adapters run and read);
    [Capture] ([capture.py], [restore.py]); [MaskTransform], [MaskFacts],
    [MaskSql] ([mask_transform.py]); [Coordinator], [CoordinatorFacts]
    ([data_artifacts/coordinator.py]); [Environments], [EnvironmentFacts]
    ([data_environments/service.py]), which runs the coordinator inside its own signature.

    Backends.  [Backend] ([backend/plan.py], [status.py]); [PostgresProvider],
    [PostgresFacts] ([odoo_forge_postgres_docker/provider.py]); [DockerBackend],
    [DockerBackendFacts] ([odoo_forge_docker/provider.py]) and [Wiring], the two together;
    [BackendCustody] ([odoo_forge_docker/ownership.py]), the custody file;
    [RemoteDeployment] ([remote_deployment.py]).

    VPS backend ([odoo_forge_docker/vps/]).  [VpsTransport]
    ([transport.py]): tokens, quoting and failure classes of [ssh] and [scp].  [VpsMechanics]
    ([provider.py], [RemoteDockerMechanics]): every method as a program over remote commands and
    the object's own state, which exceptions do not undo; [VpsMechanicsFacts] proves what may be
    created and removed, [VpsExitCodes] that exit codes are not seen.  [VpsProvider],
    [VpsProviderFacts] ([VpsBackendProvider]): the operation-bound provider over the store and
    any mechanics.  [VpsWiring]: the provider run on [RemoteDockerMechanics].

    Names and catalogs.  [ImageRegistry] ([image_registry/],
    [odoo_forge_registry/provider.py]); [Catalogs] ([project_catalog/],
    [provider_catalog/], [odoo_forge_catalog/provider.py]); [GitSource], [GitSourceFacts]
    ([odoo_forge_git/git_provider.py]); [Identity] ([identity/types.py],
    [odoo_forge_identity_github]), the GitHub identity provider and its HTTPS transport;
    [Pipelines] ([pipeline/types.py], [odoo_forge_pipeline_github]); [Readiness]
    ([database/readiness.py]), the evaluation of gate evidence.

    Credentials and the command line.  [Credentials], [CredentialFacts] ([credentials/],
    [odoo_forge_git/git_credential_injector.py], [odoo_forge_cli/enterprise_credential.py]);
    [SecretFiles] ([secret_injection.py],
    [credential_injection.py]); [ModuleDeps] ([manifest/module_deps.py]); [Cli], what a command
    asks of the world; [ManifestCommands] with [ManifestCommandFacts], [LockCommandFacts] ([commands/manifest.py], [_support.py]): lock, project, unlock, validate and
    onboard; [BackendCommands] ([commands/backend.py]): run, status, stop,
    destroy, logs and exec.  They run the programs of [GitSource], [Lock], [Projection],
    [Workspace] and [DockerBackend] inside their own signature.

    ** What the theorems show

    - Destruction is justified: containers, volumes and networks are removed only with live
      proof of ownership or after this call's own creation command ([PostgresFacts],
      [DockerBackendFacts], [VpsWiring]), databases only after a journaled quarantine
      ([LifecycleFacts]), files of an artifact only when no other manifest needs them
      ([StagedFacts]), checkouts only when clean and not a linked worktree ([WorkspaceFacts]).
    - Failure is accounted for: interrupted custody converges again on a well-formed ledger
      ([AuthorityLedger]), failed copies and captures compensate ([CoordinatorFacts], [Capture]),
      a run that ends in a backend error has removed what its commands made or names it
      ([DockerBackendFacts]), unknown outcomes are recorded ([EnvironmentFacts]),
      receipts say only what the operation store proves ([RemoteDeployment]), a VPS
      operation records success, failure or doubt only after the events that justify it
      ([VpsProviderFacts]).
    - Data stays private: raw dumps are only opened in a network-less scratch container that is
      removed, only masked bytes are staged, and a delivery passes every gate ([MaskFacts],
      [CoordinatorFacts]).
    - Credentials stay where they belong: git sees the Enterprise credential only for its own
      URL and host, askpass scripts and secret files do not outlive their blocks unless erasing
      them fails, failures do not tell a remote's user information, and redaction hides what it
      knows ([ManifestCommandFacts], [SecretFiles], [GitSourceFacts]).
    - Commands do what they report: a written lock pins what git and the registry answered
      ([LockCommandFacts]), a successful onboarding projected the plan, scanned and passed every
      check (there too), nothing is destroyed unconfirmed ([BackendCommands]), a project or
      provider resolves exactly when one entry fits ([Catalogs]), and an image reference is
      canonical ([ImageRegistry]).
    - A migration commits only tables it owns, as far as quoted names hold no separators
      ([Migration]); an identity is accepted exactly when its token is authentic, and nothing but
      the issuer and its key address is asked ([Identity]); logs of a run come from bounded, safe
      archives ([Pipelines]); a custody proof is handed out as recorded and survives failures
      ([BackendCustody]).
    - Contracts are met: the registry agrees with the in-memory one on what it stores and keeps
      receipts ([RegistryFacts]), the mount plan agrees with the lock and the reported drift is
      exactly what a scan shows against it ([ProjectionFacts], [MountFacts]), reading what was
      written gives it back ([JsonFacts], [LockFacts], [MaskSql], [Journal]).
    - Compositions are examined as they are wired; [RegistryFacts], [LifecycleWiring] and
      [LifecycleLedger] prove behaviour of the production wiring that the parts' own contracts do
      not intend (a retry is a conflict; the lifecycle sees and deletes nothing).

    ** Fuel and bounds

    Recursion that is not structural carries fuel equal to a length that decreases on every turn
    (JSON text, [write_all], statement readers) and the theorems show that it suffices, or is
    bounded by the code's own budget (clean-up attempts, readiness deadlines).  The polling loops
    of the PostgreSQL provider and of the VPS readiness check take fuel as an argument; their
    theorems hold for every amount.

    ** Not modelled, and why

    Printing, argument parsing, HTTP routes and HTML; YAML reading and dumping; process details
    (environment variables, file descriptors of child processes, chunked reads); time zones
    beyond awareness, [timedelta] overflow; concurrency between processes beyond what locks and
    single atomic operations give.  Left out whole: manifest
    authoring and the prompts of [configure], the commands not named above, the HTTP views and the documentation tools. *)

From Stdlib Require Export Ascii String.
From stdpp Require Export base tactics option list strings gmap sorting.
From Stdlib Require Export ZArith Lia.
#[export] Set Default Proof Using "Type".
Global Open Scope string_scope.
Global Open Scope list_scope.
Global Open Scope nat_scope.

(** ** Results: a value or an exception *)

Inductive result (E A : Type) : Type :=
| Ok (a : A)
| Err (e : E).
Arguments Ok {E A} a.
Arguments Err {E A} e.

Definition result_bind {E A B : Type} (m : result E A) (f : A -> result E B) : result E B :=
  match m with
  | Ok a => f a
  | Err e => Err e
  end.

Definition is_ok {E A : Type} (m : result E A) : bool :=
  match m with
  | Ok _ => true
  | Err _ => false
  end.

(** [ensure c e]: Python's [if not c: raise e]. *)
Definition ensure {E : Type} (c : bool) (e : E) : result E unit :=
  if c then Ok tt else Err e.

(** Python's [for x in l: body], the body may raise. *)
Fixpoint result_iter {E A : Type} (f : A -> result E unit) (l : list A) : result E unit :=
  match l with
  | [] => Ok tt
  | x :: l' => result_bind (f x) (fun _ => result_iter f l')
  end.

#[global] Arguments Nat.ltb : simpl never.
#[global] Arguments Nat.leb : simpl nomatch.

Declare Scope forge_scope.
Delimit Scope forge_scope with forge.
Notation "'let!' x := m 'in' k" := (result_bind m (fun x => k))
  (at level 10, x name, m at level 100, k at level 200) : forge_scope.
Notation "'let!' ' p := m 'in' k" := (result_bind m (fun x => match x with p => k end))
  (at level 10, p pattern, m at level 100, k at level 200) : forge_scope.
Notation "m ;! k" := (result_bind m (fun _ => k))
  (at level 199, k at level 200, right associativity) : forge_scope.
Global Open Scope forge_scope.

(** ** Text: Python [str] restricted to ASCII *)

Definition chars (s : string) : list ascii := list_ascii_of_string s.
Definition str (l : list ascii) : string := string_of_list_ascii l.

Definition code (c : ascii) : nat := nat_of_ascii c.

Definition in_range (lo hi c : ascii) : bool :=
  (code lo <=? code c) && (code c <=? code hi).

Definition is_digit (c : ascii) : bool := in_range "0"%char "9"%char c.
Definition is_lower (c : ascii) : bool := in_range "a"%char "z"%char c.
Definition is_upper (c : ascii) : bool := in_range "A"%char "Z"%char c.

(** [str.isspace] on one ASCII character: TAB..CR, FS..US and the space. *)
Definition is_space (c : ascii) : bool :=
  ((9 <=? code c) && (code c <=? 13)) || ((28 <=? code c) && (code c <=? 32)).

Definition newline : ascii := ascii_of_nat 10.

(** [str.lower] *)
Definition lower_char (c : ascii) : ascii :=
  if is_upper c then ascii_of_nat (code c + 32) else c.
Definition lower (s : string) : string := str (map lower_char (chars s)).

(** [str.lstrip]/[rstrip]/[strip] for a character predicate. *)
Fixpoint drop_while (f : ascii -> bool) (l : list ascii) : list ascii :=
  match l with
  | c :: l' => if f c then drop_while f l' else l
  | [] => []
  end.
Definition rdrop_while (f : ascii -> bool) (l : list ascii) : list ascii :=
  reverse (drop_while f (reverse l)).
Definition strip (s : string) : string := str (rdrop_while is_space (drop_while is_space (chars s))).

(** [s.split(c)] for a one-character separator: never the empty list. *)
Fixpoint split_chars (c : ascii) (l : list ascii) : list (list ascii) :=
  match l with
  | [] => [[]]
  | x :: l' =>
    if Ascii.eqb x c then [] :: split_chars c l'
    else match split_chars c l' with
         | w :: ws => (x :: w) :: ws
         | [] => [[x]]
         end
  end.
Definition split_on (c : ascii) (s : string) : list string := map str (split_chars c (chars s)).

(** [c.join(parts)] for a one-character separator. *)
Fixpoint join_chars (c : ascii) (ws : list (list ascii)) : list ascii :=
  match ws with
  | [] => []
  | [w] => w
  | w :: ws' => w ++ c :: join_chars c ws'
  end.

(** [sep.join(parts)] *)
Definition join (sep : string) (parts : list string) : string := String.concat sep parts.

(** [s.partition(c)]/[s.split(c, 1)] at the first occurrence: [None] when absent. *)
Fixpoint cut_first (c : ascii) (l : list ascii) : option (list ascii * list ascii) :=
  match l with
  | [] => None
  | x :: l' =>
    if Ascii.eqb x c then Some ([], l')
    else match cut_first c l' with
         | Some (a, b) => Some (x :: a, b)
         | None => None
         end
  end.

(** [s.rsplit(c, 1)] at the last occurrence: [None] when absent. *)
Definition cut_last (c : ascii) (l : list ascii) : option (list ascii * list ascii) :=
  match cut_first c (reverse l) with
  | Some (b, a) => Some (reverse a, reverse b)
  | None => None
  end.

(** [s.split(c, 1)[0]] *)
Definition before_first (c : ascii) (s : string) : string :=
  match cut_first c (chars s) with
  | Some (a, _) => str a
  | None => s
  end.

(** [s.rsplit(c, 1)[-1]] *)
Definition after_last (c : ascii) (s : string) : string :=
  match cut_last c (chars s) with
  | Some (_, b) => str b
  | None => s
  end.

(** [s.removesuffix(t)] *)
Definition removesuffix (t s : string) : string :=
  if decide (chars t `suffix_of` chars s)
  then str (take (String.length s - String.length t) (chars s))
  else s.

(** ** Insertion-ordered dictionaries (Python [dict])

    A key occurs at most once; assigning to a present key keeps its position,
    assigning to a new key appends. *)

Section Dict.
Context {K V : Type} `{EqDecision K}.

Fixpoint dget (k : K) (d : list (K * V)) : option V :=
  match d with
  | [] => None
  | (k', v) :: d' => if decide (k = k') then Some v else dget k d'
  end.

Fixpoint dset (k : K) (v : V) (d : list (K * V)) : list (K * V) :=
  match d with
  | [] => [(k, v)]
  | (k', v') :: d' => if decide (k = k') then (k, v) :: d' else (k', v') :: dset k v d'
  end.

(** [{k: v for ...}]: later pairs overwrite earlier ones. *)
Definition dict_of (l : list (K * V)) : list (K * V) :=
  foldl (fun d kv => dset kv.1 kv.2 d) [] l.
End Dict.

(** Python's [next((x for x in l if f x), None)]. *)
Fixpoint find_first {A : Type} (f : A -> bool) (l : list A) : option A :=
  match l with
  | [] => None
  | x :: l' => if f x then Some x else find_first f l'
  end.

(** ** Sorted strings: Python compares code points lexicographically. *)
Fixpoint chars_leb (a b : list ascii) : bool :=
  match a, b with
  | [], _ => true
  | _ :: _, [] => false
  | x :: a', y :: b' => (code x <? code y) || ((code x =? code y) && chars_leb a' b')
  end.
Definition str_le (a b : string) : Prop := chars_leb (chars a) (chars b) = true.
#[export] Instance str_le_dec : RelDecision str_le.
Proof. intros a b. unfold str_le. apply _. Defined.

(** [sorted(l)] on strings. *)
Definition sorted_str (l : list string) : list string := merge_sort str_le l.

(** [sorted(set(l))] on strings: without repetition. *)
Definition sorted_set (l : list string) : list string := sorted_str (remove_dups l).

(** [sorted(set(l))] on pairs of strings: lexicographic. *)
Definition pair_le (a b : string * string) : Prop :=
  if decide (a.1 = b.1) then str_le a.2 b.2 else str_le a.1 b.1.
#[export] Instance pair_le_dec : RelDecision pair_le.
Proof. intros a b. unfold pair_le. destruct (decide (a.1 = b.1)); apply _. Defined.
Definition sorted_pairs (l : list (string * string)) : list (string * string) :=
  merge_sort pair_le (remove_dups l).

(** ** Lemmas shared by the components *)

Lemma chars_str (l : list ascii) : chars (str l) = l.
Proof. apply list_ascii_of_string_of_list_ascii. Qed.

Lemma str_chars (s : string) : str (chars s) = s.
Proof. apply string_of_list_ascii_of_string. Qed.

Lemma chars_inj (a b : string) : chars a = chars b -> a = b.
Proof. intros H. by rewrite <- (str_chars a), <- (str_chars b), H. Qed.

Lemma str_inj (a b : list ascii) : str a = str b -> a = b.
Proof. intros H. by rewrite <- (chars_str a), <- (chars_str b), H. Qed.

Lemma chars_app (a b : string) : chars (a +:+ b) = chars a ++ chars b.
Proof.
  unfold chars. induction a as [|c a IH]; [done|].
  change (String c a +:+ b) with (String c (a +:+ b)). cbn. by rewrite IH.
Qed.

Lemma chars_length (s : string) : length (chars s) = String.length s.
Proof. unfold chars. induction s as [|c s IH]; [done|]. cbn. by rewrite IH. Qed.

Lemma str_app (a b : list ascii) : str (a ++ b) = str a +:+ str b.
Proof. apply chars_inj. by rewrite chars_app, !chars_str. Qed.

Lemma code_inj (a b : ascii) : code a = code b -> a = b.
Proof.
  intros H. rewrite <- (ascii_nat_embedding a), <- (ascii_nat_embedding b).
  by f_equal.
Qed.

Lemma chars_leb_refl (a : list ascii) : chars_leb a a = true.
Proof.
  induction a as [|x a IH]; [done|]. cbn. rewrite Nat.eqb_refl, IH. by rewrite orb_true_r.
Qed.

Lemma chars_leb_trans (a b c : list ascii) :
  chars_leb a b = true -> chars_leb b c = true -> chars_leb a c = true.
Proof.
  revert b c. induction a as [|x a IH]; intros [|y b] [|z c]; cbn; try done.
  rewrite !orb_true_iff, !andb_true_iff, !Nat.ltb_lt, !Nat.eqb_eq.
  intros [?|[? ?]] [?|[? ?]]; [left; lia..|]. right. split; [lia|]. by eapply IH.
Qed.

Lemma chars_leb_total (a b : list ascii) : chars_leb a b = true \/ chars_leb b a = true.
Proof.
  revert b. induction a as [|x a IH]; intros [|y b]; cbn; auto.
  rewrite !orb_true_iff, !andb_true_iff, !Nat.ltb_lt, !Nat.eqb_eq.
  destruct (lt_eq_lt_dec (code x) (code y)) as [[?|?]|?]; auto.
  destruct (IH b); auto.
Qed.

Lemma chars_leb_antisym (a b : list ascii) :
  chars_leb a b = true -> chars_leb b a = true -> a = b.
Proof.
  revert b. induction a as [|x a IH]; intros [|y b]; cbn; try done.
  rewrite !orb_true_iff, !andb_true_iff, !Nat.ltb_lt, !Nat.eqb_eq.
  intros [?|[E ?]] [?|[? ?]]; try lia. f_equal; [by apply code_inj | auto].
Qed.

#[export] Instance str_le_total : Total str_le.
Proof. intros a b. apply chars_leb_total. Qed.
#[export] Instance str_le_trans : Transitive str_le.
Proof. intros a b c. apply chars_leb_trans. Qed.
#[export] Instance str_le_antisym : AntiSymm (=) str_le.
Proof. intros a b H1 H2. apply chars_inj. by apply chars_leb_antisym. Qed.

Lemma sorted_str_perm (l : list string) : sorted_str l ≡ₚ l.
Proof. apply merge_sort_Permutation. Qed.

Lemma sorted_str_sorted (l : list string) : StronglySorted str_le (sorted_str l).
Proof. apply (StronglySorted_merge_sort _). Qed.

Lemma elem_of_sorted_set (l : list string) (x : string) : x ∈ sorted_set l <-> x ∈ l.
Proof. unfold sorted_set. rewrite sorted_str_perm. apply elem_of_remove_dups. Qed.

Lemma sorted_set_NoDup (l : list string) : NoDup (sorted_set l).
Proof. unfold sorted_set. rewrite sorted_str_perm. apply NoDup_remove_dups. Qed.

Lemma sorted_pairs_NoDup (l : list (string * string)) : NoDup (sorted_pairs l).
Proof. unfold sorted_pairs. rewrite merge_sort_Permutation. apply NoDup_remove_dups. Qed.

Lemma elem_of_sorted_pairs (l : list (string * string)) x : x ∈ sorted_pairs l <-> x ∈ l.
Proof. unfold sorted_pairs. rewrite merge_sort_Permutation. apply elem_of_remove_dups. Qed.

(** Two strongly sorted lists with the same elements are the same list. *)
Lemma sorted_set_ext (l k : list string) :
  (forall x, x ∈ l <-> x ∈ k) -> sorted_set l = sorted_set k.
Proof.
  intros H. apply (StronglySorted_unique str_le); [apply sorted_str_sorted..|].
  unfold sorted_set. rewrite !sorted_str_perm.
  apply NoDup_Permutation; [apply NoDup_remove_dups..|].
  intros x. rewrite !elem_of_remove_dups. apply H.
Qed.

Section DictLemmas.
Context {K V : Type} `{EqDecision K}.
Implicit Types (d : list (K * V)) (k : K) (v : V).

Lemma dget_dset_eq k v d : dget k (dset k v d) = Some v.
Proof.
  induction d as [|[k' v'] d IH]; cbn; [by rewrite decide_True|].
  case_decide; cbn; [by rewrite decide_True | by rewrite decide_False].
Qed.

Lemma dget_dset_ne k k' v d : k ≠ k' -> dget k (dset k' v d) = dget k d.
Proof.
  intros Hne. induction d as [|[k1 v1] d IH]; cbn.
  - by rewrite decide_False.
  - case_decide; cbn; repeat case_decide; congruence.
Qed.

Lemma dget_dset k k' v d : dget k (dset k' v d) = if decide (k = k') then Some v else dget k d.
Proof. case_decide; subst; [apply dget_dset_eq | by apply dget_dset_ne]. Qed.

Lemma dget_None k d : dget k d = None <-> k ∉ d.*1.
Proof.
  induction d as [|[k' v] d IH]; cbn.
  - split; [intros _; apply not_elem_of_nil | done].
  - rewrite not_elem_of_cons, <- IH. case_decide; intuition congruence.
Qed.

Lemma dget_Some_elem k v d : dget k d = Some v -> (k, v) ∈ d.
Proof.
  induction d as [|[k' v'] d IH]; cbn; [done|]. rewrite elem_of_cons.
  case_decide; naive_solver.
Qed.

Lemma dget_is_Some k d : is_Some (dget k d) <-> k ∈ d.*1.
Proof.
  rewrite <- not_eq_None_Some, dget_None. split; [|tauto].
  intros H. destruct (decide (k ∈ d.*1)); tauto.
Qed.

Lemma dget_elem_NoDup k v d : NoDup d.*1 -> (k, v) ∈ d -> dget k d = Some v.
Proof.
  induction d as [|[k' v'] d IH]; cbn; [intros _ H; by apply elem_of_nil in H|].
  rewrite NoDup_cons, elem_of_cons. intros [Hn Hd] [[= -> ->]|Hin].
  - by rewrite decide_True.
  - rewrite decide_False; [by apply IH|]. intros ->. apply Hn.
    change k' with (fst (k', v)). by apply list_elem_of_fmap_2.
Qed.

Lemma dset_keys_elem k k' v d : k' ∈ (dset k v d).*1 <-> k' = k \/ k' ∈ d.*1.
Proof.
  induction d as [|[k1 v1] d IH]; cbn.
  - rewrite list_elem_of_singleton, elem_of_nil. tauto.
  - case_decide as E; cbn; rewrite !elem_of_cons; [subst; tauto|]. rewrite IH. tauto.
Qed.

Lemma dset_NoDup k v d : NoDup d.*1 -> NoDup (dset k v d).*1.
Proof.
  induction d as [|[k1 v1] d IH]; cbn.
  - intros _. apply NoDup_singleton.
  - rewrite NoDup_cons. intros [Hn Hd]. case_decide as E; cbn; rewrite NoDup_cons.
    + by subst.
    + split; [|by apply IH]. rewrite dset_keys_elem. naive_solver.
Qed.

Lemma dict_of_snoc (l : list (K * V)) (kv : K * V) :
  dict_of (l ++ [kv]) = dset kv.1 kv.2 (dict_of l).
Proof. unfold dict_of. by rewrite foldl_app. Qed.

Lemma dict_of_NoDup (l : list (K * V)) : NoDup (dict_of l).*1.
Proof.
  induction l as [|kv l IH] using rev_ind; [apply NoDup_nil_2|].
  rewrite dict_of_snoc. by apply dset_NoDup.
Qed.

Lemma dict_of_keys (l : list (K * V)) k : k ∈ (dict_of l).*1 <-> k ∈ l.*1.
Proof.
  induction l as [|kv l IH] using rev_ind; [done|].
  rewrite dict_of_snoc, dset_keys_elem, IH, fmap_app, elem_of_app. cbn.
  rewrite list_elem_of_singleton. tauto.
Qed.

(** Every binding of the dictionary is one of the pairs it was built from. *)
Lemma dget_dict_of_elem (l : list (K * V)) k v : dget k (dict_of l) = Some v -> (k, v) ∈ l.
Proof.
  induction l as [|[k1 v1] l IH] using rev_ind; [done|].
  rewrite dict_of_snoc, dget_dset, elem_of_app, list_elem_of_singleton. cbn.
  case_decide; naive_solver.
Qed.

(** Without repeated keys the dictionary is the list itself. *)
Lemma dict_of_id (l : list (K * V)) : NoDup l.*1 -> dict_of l = l.
Proof.
  induction l as [|[k v] l IH] using rev_ind; [done|].
  rewrite dict_of_snoc, fmap_app, NoDup_app. intros (H1 & H2 & _). rewrite IH; [|done].
  assert (Hn : k ∉ l.*1). { intros Hk. eapply H2; [done|]. cbn. by left. }
  clear -Hn. cbn. induction l as [|[k' v'] l IH]; [done|]. cbn in *.
  rewrite not_elem_of_cons in Hn. rewrite decide_False by tauto. rewrite IH; tauto.
Qed.
End DictLemmas.

Lemma find_first_Some {A} (f : A -> bool) (l : list A) x :
  find_first f l = Some x -> x ∈ l /\ f x = true.
Proof.
  induction l as [|y l IH]; cbn; [done|]. rewrite elem_of_cons.
  destruct (f y) eqn:E; naive_solver.
Qed.

Lemma find_first_None {A} (f : A -> bool) (l : list A) :
  find_first f l = None <-> forall x, x ∈ l -> f x = false.
Proof.
  induction l as [|y l IH]; cbn.
  - split; [|done]. intros _ x Hx. by apply elem_of_nil in Hx.
  - destruct (f y) eqn:E.
    + split; [done|]. intros H. rewrite (H y) in E; [done | by left].
    + rewrite IH. setoid_rewrite elem_of_cons. naive_solver.
Qed.

Lemma forallb_elem {A} (f : A -> bool) (l : list A) :
  forallb f l = true <-> forall x, x ∈ l -> f x = true.
Proof. rewrite forallb_forall. by setoid_rewrite <- list_elem_of_In. Qed.

Lemma existsb_elem {A} (f : A -> bool) (l : list A) :
  existsb f l = true <-> exists x, x ∈ l /\ f x = true.
Proof. rewrite existsb_exists. by setoid_rewrite <- list_elem_of_In. Qed.

Lemma result_bind_Ok {E A B} (m : result E A) (f : A -> result E B) b :
  result_bind m f = Ok b <-> exists a, m = Ok a /\ f a = Ok b.
Proof. destruct m; cbn; naive_solver. Qed.

Lemma result_iter_Ok {E A} (f : A -> result E unit) (l : list A) :
  result_iter f l = Ok tt <-> forall x, x ∈ l -> f x = Ok tt.
Proof.
  induction l as [|y l IH]; cbn.
  - split; [|done]. intros _ x Hx. by apply elem_of_nil in Hx.
  - setoid_rewrite elem_of_cons. destruct (f y) as [[]|e] eqn:Hf; cbn.
    + rewrite IH. naive_solver.
    + split; [done|]. intros H. rewrite (H y) in Hf; [done | by left].
Qed.

Lemma ensure_Ok {E} (c : bool) (e : E) : ensure c e = Ok tt <-> c = true.
Proof. unfold ensure. destruct c; split; naive_solver. Qed.

Create Rewrite HintDb forge.
#[export] Hint Rewrite @result_bind_Ok @ensure_Ok @result_iter_Ok
  andb_true_iff orb_true_iff negb_true_iff bool_decide_eq_true : forge.

(** ** Tactics of the library *)

(** Case analysis on the scrutinee of the first [match]/[if] in the goal or a hypothesis. *)
Ltac case_match_in H :=
  match type of H with
  | context [match ?x with _ => _ end] =>
    lazymatch x with
    | context [match _ with _ => _ end] => fail
    | _ => let E := fresh "E" in destruct x eqn:E
    end
  end.

(** Split a [result] computation that succeeded into its successful steps. *)
Ltac inv_ok :=
  repeat match goal with
  | H : Ok _ = Ok _ |- _ => injection H as H
  | H : Err _ = Ok _ |- _ => discriminate H
  | H : Ok _ = Err _ |- _ => discriminate H
  | H : Err _ = Err _ |- _ => injection H as H
  | H : result_bind _ _ = Ok _ |- _ =>
    apply result_bind_Ok in H; destruct H as (? & ? & ?)
  | H : ensure ?c _ = Ok _ |- _ =>
    let E := fresh "E" in
    destruct c eqn:E; cbn [ensure] in H; [clear H | discriminate H]
  end; simplify_eq/=.
