(* ===== verification/Effects.v ===== *)
(** * Effectful services

    A service method talks to injected ports (registries, gateways, stores, the
    clock).  It is modelled as a program of a free monad: a [Call] performs one
    port operation of a signature [E] and continues with whatever the port
    answers, a value or an exception of type [X].  Every theorem about a service
    is stated over [runs], which lets each call be answered arbitrarily, so it
    holds for every behaviour of the ports; [exec] runs a program against a
    concrete handler, which is what the witnesses compute with. *)

From S2P Require Import Prelude.

Section Prog.
Context {E : Type -> Type} {X : Type}.

Inductive prog (A : Type) : Type :=
| Ret (a : A)
| Raise (x : X)
| Call {R : Type} (e : E R) (k : result X R -> prog A).

(** One port operation together with its answer. *)
Inductive event : Type :=
| Event {R : Type} (e : E R) (r : result X R).

End Prog.
Arguments prog E X A : clear implicits.
Arguments event E X : clear implicits.
Arguments Ret {E X A} a.
Arguments Raise {E X A} x.
Arguments Call {E X A R} e k.
Arguments Event {E X R} e r.

Section Ops.
Context {E : Type -> Type} {X : Type}.
Implicit Types (tr : list (event E X)).

Fixpoint bind {A B : Type} (p : prog E X A) (f : A -> prog E X B) : prog E X B :=
  match p with
  | Ret a => f a
  | Raise x => Raise x
  | Call e k => Call e (fun r => bind (k r) f)
  end.

(** Perform a port operation; an exception of the port propagates. *)
Definition call {R : Type} (e : E R) : prog E X R :=
  Call e (fun r => match r with Ok a => Ret a | Err x => Raise x end).

(** Turn an exception into a value: the basis of [try]. *)
Fixpoint attempt {A : Type} (p : prog E X A) : prog E X (result X A) :=
  match p with
  | Ret a => Ret (Ok a)
  | Raise x => Ret (Err x)
  | Call e k => Call e (fun r => attempt (k r))
  end.

(** [try: p except Exception as x: h x] *)
Definition catch {A : Type} (p : prog E X A) (h : X -> prog E X A) : prog E X A :=
  bind (attempt p) (fun r => match r with Ok a => Ret a | Err x => h x end).

Definition lift {A : Type} (r : result X A) : prog E X A :=
  match r with
  | Ok a => Ret a
  | Err x => Raise x
  end.

(** [for x in l: body x] *)
Fixpoint for_each {A : Type} (f : A -> prog E X unit) (l : list A) : prog E X unit :=
  match l with
  | [] => Ret tt
  | x :: l' => bind (f x) (fun _ => for_each f l')
  end.

(** [tuple(f x for x in l)] *)
Fixpoint map_each {A B : Type} (f : A -> prog E X B) (l : list A) : prog E X (list B) :=
  match l with
  | [] => Ret []
  | x :: l' => bind (f x) (fun y => bind (map_each f l') (fun ys => Ret (y :: ys)))
  end.

(** [runs p tr o]: with the answers recorded in [tr], [p] performs exactly the
    operations of [tr] and ends in [o].  The equations live in [run_of]; the wrapper keeps
    tactics from computing a program they only mean to look at. *)
Fixpoint run_of {A : Type} (p : prog E X A) tr (o : result X A) : Prop :=
  match p with
  | Ret a => tr = [] /\ o = Ok a
  | Raise x => tr = [] /\ o = Err x
  | Call e k => exists r tr', tr = Event e r :: tr' /\ run_of (k r) tr' o
  end.
Variant runs {A : Type} (p : prog E X A) tr (o : result X A) : Prop :=
| Runs (H : run_of p tr o).

(** A concrete environment with state [W]. *)
Definition handler (W : Type) : Type := forall R : Type, E R -> W -> result X R * W.

Fixpoint exec {W A : Type} (h : handler W) (p : prog E X A) (w : W)
    : result X A * list (event E X) * W :=
  match p with
  | Ret a => (Ok a, [], w)
  | Raise x => (Err x, [], w)
  | Call e k =>
    let '(r, w1) := h _ e w in
    let '(o, tr, w2) := exec h (k r) w1 in
    (o, Event e r :: tr, w2)
  end.

(** ** Laws *)

Lemma runs_Ret {A : Type} (a : A) tr (o : result X A) : runs (Ret a) tr o <-> tr = [] /\ o = Ok a.
Proof. by split; [intros []|]. Qed.

Lemma runs_Raise {A : Type} (x : X) tr (o : result X A) : runs (Raise x) tr o <-> tr = [] /\ o = Err x.
Proof. by split; [intros []|]. Qed.

Lemma runs_Call {R A : Type} (e : E R) (k : result X R -> prog E X A) tr o :
  runs (Call e k) tr o <-> exists r tr', tr = Event e r :: tr' /\ runs (k r) tr' o.
Proof. split; [intros [(r & tr' & -> & H)]; eauto using Runs|]. intros (r & tr' & -> & [H]). constructor. cbn. eauto. Qed.

Lemma exec_runs {W A : Type} (h : handler W) (p : prog E X A) (w : W) :
  runs p (exec h p w).1.2 (exec h p w).1.1.
Proof.
  revert w. induction p as [a|x|R e k IH]; intros w; [by apply runs_Ret|by apply runs_Raise|]. cbn.
  destruct (h R e w) as [r w1]. specialize (IH r w1).
  destruct (exec h (k r) w1) as [[o tr] w2]. apply runs_Call. cbn in *. eauto.
Qed.

Lemma runs_bind {A B : Type} (p : prog E X A) (f : A -> prog E X B) tr o :
  runs (bind p f) tr o <->
  (exists tr1 tr2 a, tr = tr1 ++ tr2 /\ runs p tr1 (Ok a) /\ runs (f a) tr2 o) \/
  (exists x, o = Err x /\ runs p tr (Err x)).
Proof.
  revert tr. induction p as [a|x|R e k IH]; intros tr; cbn [bind].
  - setoid_rewrite runs_Ret. split.
    + intros H. left. exists [], tr, a. done.
    + intros [(tr1 & tr2 & b & -> & [-> [= ->]] & Hf)|(x & _ & _ & [=])]. done.
  - setoid_rewrite runs_Raise. split.
    + intros [-> ->]. right. eauto.
    + intros [(tr1 & tr2 & b & _ & [_ [=]] & _)|(y & -> & -> & [= ->])]. done.
  - setoid_rewrite runs_Call. setoid_rewrite IH. split.
    + intros (r & tr' & -> & [(tr1 & tr2 & a & -> & H1 & H2)|(x & -> & H3)]).
      * left. exists (Event e r :: tr1), tr2, a. split_and!; [done| |done]. eauto.
      * right. eauto 10.
    + intros [(tr1 & tr2 & a & -> & (r & tr' & -> & H1) & H2)|(x & -> & r & tr' & -> & H)].
      * exists r, (tr' ++ tr2). split; [done|]. left. eauto 10.
      * exists r, tr'. split; [done|]. right. eauto.
Qed.

Lemma runs_attempt {A : Type} (p : prog E X A) tr (o : result X (result X A)) :
  runs (attempt p) tr o <-> exists r, o = Ok r /\ runs p tr r.
Proof.
  revert tr. induction p as [a|x|R e k IH]; intros tr; cbn [attempt].
  - setoid_rewrite runs_Ret. split; [intros [-> ->]; eauto|]. by intros (r & -> & -> & ->).
  - rewrite runs_Ret. setoid_rewrite runs_Raise. split; [intros [-> ->]; eauto|]. by intros (r & -> & -> & ->).
  - setoid_rewrite runs_Call. setoid_rewrite IH. split.
    + intros (r & tr' & -> & r' & -> & H). eauto 10.
    + intros (r & -> & r' & tr' & -> & H). eauto 10.
Qed.

Lemma runs_catch {A : Type} (p : prog E X A) h tr o :
  runs (catch p h) tr o <->
  (exists a, o = Ok a /\ runs p tr (Ok a)) \/
  (exists tr1 tr2 x, tr = tr1 ++ tr2 /\ runs p tr1 (Err x) /\ runs (h x) tr2 o).
Proof.
  unfold catch. rewrite runs_bind. setoid_rewrite runs_attempt. split.
  - intros [(tr1 & tr2 & r & -> & (r' & Hr & H1) & H2)|(x & -> & r & Hr & _)]; [|done].
    simplify_eq. destruct r' as [a|x].
    + apply runs_Ret in H2 as [-> ->]. left. exists a. by rewrite app_nil_r.
    + right. eauto 10.
  - intros [(a & -> & H)|(tr1 & tr2 & x & -> & H1 & H2)]; left.
    + exists tr, [], (Ok a). rewrite app_nil_r. split_and!; [done|eauto|by apply runs_Ret].
    + exists tr1, tr2, (Err x). split_and!; [done|eauto|done].
Qed.

Lemma runs_bind_call {R B : Type} (e : E R) (f : R -> prog E X B) tr o :
  runs (bind (call e) f) tr o <->
  exists r tr', tr = Event e r :: tr' /\
    match r with Ok a => runs (f a) tr' o | Err x => tr' = [] /\ o = Err x end.
Proof.
  unfold call. cbn [bind]. rewrite runs_Call. split.
  - intros ([a|x] & tr' & -> & H); [eauto|]. apply runs_Raise in H. eauto.
  - intros ([a|x] & tr' & -> & H); [by exists (Ok a), tr'|]. exists (Err x), tr'. split; [done|by apply runs_Raise].
Qed.

Lemma runs_lift {A : Type} (r o : result X A) tr : runs (lift r) tr o <-> tr = [] /\ o = r.
Proof. destruct r; [apply runs_Ret|apply runs_Raise]. Qed.

Lemma runs_call {R : Type} (e : E R) tr (o : result X R) :
  runs (call e) tr o <-> tr = [Event e o].
Proof.
  unfold call. rewrite runs_Call. split.
  - intros ([a|x] & tr' & -> & H); [apply runs_Ret in H as [-> ->]|apply runs_Raise in H as [-> ->]]; done.
  - intros ->. exists o, []. split; [done|]. destruct o; [by apply runs_Ret|by apply runs_Raise].
Qed.
End Ops.

Lemma bind_Ret {E : Type -> Type} {X A B : Type} (a : A) (f : A -> prog E X B) : bind (Ret a) f = f a.
Proof. reflexivity. Qed.

Lemma lift_bind_Ok {E : Type -> Type} {X A B : Type} (a : A) (f : A -> prog E X B) :
  bind (lift (Ok a)) f = f a.
Proof. reflexivity. Qed.

Lemma lift_bind_Err {E : Type -> Type} {X A B : Type} (x : X) (f : A -> prog E X B) :
  bind (lift (Err x)) f = Raise x.
Proof. reflexivity. Qed.

#[global] Arguments bind : simpl never.
#[global] Arguments call : simpl never.
#[global] Arguments attempt : simpl never.
#[global] Arguments lift : simpl never.

Notation "'let*' x := p 'in' k" := (bind p (fun x => k))
  (at level 10, x name, p at level 100, k at level 200) : forge_scope.
Notation "'let*' ' x := p 'in' k" := (bind p (fun y => match y with x => k end))
  (at level 10, x pattern, p at level 100, k at level 200) : forge_scope.
Notation "p ;* k" := (bind p (fun _ => k))
  (at level 199, k at level 200, right associativity) : forge_scope.

(** ** Questions about a trace *)

Section Traces.
Context {E : Type -> Type} {X : Type}.
Implicit Types (tr : list (event E X)).

(** The events whose operation satisfies [f]. *)
Definition op_is (f : forall R, E R -> bool) (ev : event E X) : bool :=
  match ev with Event e _ => f _ e end.

Definition calls (f : forall R, E R -> bool) tr : list (event E X) :=
  List.filter (op_is f) tr.

Definition silent (f : forall R, E R -> bool) tr : Prop := calls f tr = [].

Lemma calls_app f tr1 tr2 : calls f (tr1 ++ tr2) = calls f tr1 ++ calls f tr2.
Proof. apply List.filter_app. Qed.

Lemma silent_app f tr1 tr2 : silent f (tr1 ++ tr2) <-> silent f tr1 /\ silent f tr2.
Proof. unfold silent. rewrite calls_app. split; [apply app_nil|intros [-> ->]; done]. Qed.

Lemma silent_nil f : silent f [].
Proof. done. Qed.

Lemma silent_cons f ev tr : silent f (ev :: tr) <-> op_is f ev = false /\ silent f tr.
Proof. unfold silent, calls. cbn. destruct (op_is f ev); naive_solver. Qed.
End Traces.

#[export] Hint Resolve silent_nil : core.

(** Decompose a hypothesis [runs p tr o] for a concrete program [p]: one call at a
    time, each answer split into a value and an exception. *)
Ltac run_step :=
  match goal with
  | H : runs (Ret _) _ _ |- _ => apply runs_Ret in H; destruct H as [-> H]; simplify_eq/=
  | H : runs (Raise _) _ _ |- _ => apply runs_Raise in H; destruct H as [-> H]; simplify_eq/=
  | H : runs (lift _) _ _ |- _ => apply runs_lift in H; destruct H as [-> H]; simplify_eq/=
  | H : runs (call _) _ _ |- _ => apply runs_call in H; subst
  | H : runs (catch _ _) _ _ |- _ =>
    apply runs_catch in H;
    destruct H as [(? & H & ?)|(? & ? & ? & -> & ? & ?)]; simplify_eq/=
  | H : runs (attempt _) _ _ |- _ =>
    apply runs_attempt in H; destruct H as (? & H & ?); simplify_eq/=
  | H : runs (bind (call _) _) _ _ |- _ =>
    apply runs_bind_call in H; destruct H as ([?|?] & ? & -> & H);
    [|destruct H as [-> H]; simplify_eq/=]
  | H : runs (bind _ _) _ _ |- _ =>
    apply runs_bind in H;
    destruct H as [(? & ? & ? & -> & ? & ?)|(? & H & ?)]; simplify_eq/=
  end.
Ltac run_steps := repeat run_step.

(** ** Which operations a program may perform at all

    [only f p]: whatever the ports answer, every operation [p] performs satisfies [f]. *)

Section Only.
Context {E : Type -> Type} {X : Type}.
Implicit Types (f : forall R, E R -> Prop).

Fixpoint only {A : Type} f (p : prog E X A) : Prop :=
  match p with
  | Ret _ | Raise _ => True
  | Call e k => f _ e /\ forall r, only f (k r)
  end.

Definition event_sat f (ev : event E X) : Prop := match ev with Event e _ => f _ e end.

Lemma only_bind {A B : Type} f (p : prog E X A) (k : A -> prog E X B) :
  only f p -> (forall a, only f (k a)) -> only f (bind p k).
Proof.
  intros Hp Hk. induction p as [a|x|R e c IH]; [apply Hk|done|].
  change (f R e /\ forall r, only f (bind (c r) k)). destruct Hp. split; auto.
Qed.

Lemma only_attempt {A : Type} f (p : prog E X A) : only f p -> only f (attempt p).
Proof.
  induction p as [a|x|R e c IH]; [done..|]. intros [? ?].
  change (f R e /\ forall r, only f (attempt (c r))). split; auto.
Qed.

Lemma only_catch {A : Type} f (p : prog E X A) h :
  only f p -> (forall x, only f (h x)) -> only f (catch p h).
Proof. intros Hp Hh. apply only_bind; [by apply only_attempt|]. intros [a|x]; cbn; auto. Qed.

Lemma only_call {R : Type} f (e : E R) : f _ e -> only f (call e : prog E X R).
Proof. intros H. split; [done|]. by intros [a|x]. Qed.

Lemma only_lift {A : Type} f (r : result X A) : only f (lift r : prog E X A).
Proof. by destruct r. Qed.

Lemma only_for_each {A : Type} f (g : A -> prog E X unit) l :
  (forall x, x ∈ l -> only f (g x)) -> only f (for_each g l).
Proof.
  induction l as [|x l IH]; intros H; [done|]. apply only_bind; [apply H; by left|].
  intros _. apply IH. intros y Hy. apply H. by right.
Qed.

Lemma only_map_each {A B : Type} f (g : A -> prog E X B) l :
  (forall x, x ∈ l -> only f (g x)) -> only f (map_each g l).
Proof.
  induction l as [|x l IH]; intros H; [done|]. apply only_bind; [apply H; by left|].
  intros y. apply only_bind; [|done]. apply IH. intros z Hz. apply H. by right.
Qed.

Lemma only_impl {A : Type} f g (p : prog E X A) :
  (forall R e, f R e -> g R e) -> only f p -> only g p.
Proof. intros H. induction p as [a|x|R e c IH]; cbn; [done..|]. intros [? ?]. split; auto. Qed.

Lemma only_runs {A : Type} f (p : prog E X A) tr o : only f p -> runs p tr o -> Forall (event_sat f) tr.
Proof.
  revert tr. induction p as [a|x|R e c IH]; intros tr Hp H;
    [by apply runs_Ret in H as [-> _]|by apply runs_Raise in H as [-> _]|].
  destruct Hp as [He Hc]. apply runs_Call in H as (r & tr' & -> & H). constructor; [done|]. by eapply IH.
Qed.
End Only.

#[global] Arguments only : simpl never.

(** Walk through a program, leaving the side conditions on its calls. *)
Ltac only_step :=
  match goal with
  | |- only _ (Ret _) => exact I
  | |- only _ (Raise _) => exact I
  | |- only _ (lift _) => apply only_lift
  | |- only _ (call _) => apply only_call
  | |- only _ (bind _ _) => apply only_bind; [|intros ?]
  | |- only _ (attempt _) => apply only_attempt
  | |- only _ (catch _ _) => apply only_catch; [|intros ?]
  | |- only _ (match ?x with _ => _ end) => destruct x eqn:?
  | |- only _ (let _ := _ in _) => cbv zeta
  | |- only _ _ => solve [eauto with only]
  end.
Create HintDb only discriminated.
Ltac solve_only := repeat only_step; try done.

(** ** Locating an event in a trace made of segments *)

(** An event that cannot lie in the first segment lies in the second. *)
Lemma segment_skip {A : Type} (P : A -> Prop) (l1 : list A) x l2 a b :
  l1 ++ x :: l2 = a ++ b -> Forall P a -> ~ P x -> exists b1, l1 = a ++ b1 /\ b = b1 ++ x :: l2.
Proof.
  revert l1. induction a as [|y a IH]; intros l1 H Ha Hx; cbn in *; [eauto|].
  apply Forall_cons in Ha as [Hy Ha]. destruct l1 as [|z l1]; cbn in H; injection H as -> H; [done|].
  destruct (IH l1 H Ha Hx) as (b1 & -> & ->). eauto.
Qed.

(** An event that cannot lie in the second segment lies in the first. *)
Lemma segment_keep {A : Type} (P : A -> Prop) (l1 : list A) x l2 a b :
  l1 ++ x :: l2 = a ++ b -> Forall P b -> ~ P x -> exists a2, a = l1 ++ x :: a2.
Proof.
  revert l1. induction a as [|y a IH]; intros l1 H Hb Hx; cbn in *.
  - subst. apply Forall_app in Hb as [_ Hb]. by apply Forall_cons in Hb as [? _].
  - destruct l1 as [|z l1]; cbn in H; injection H as -> H; [by exists a|].
    destruct (IH l1 H Hb Hx) as (a2 & ->). by exists a2.
Qed.

(** ** How often a program may perform an operation

    [bounded f n p]: whatever the ports answer, at most [n] operations of [p] satisfy [f]. *)

Section Bounded.
Context {E : Type -> Type} {X : Type}.
Implicit Types (f : forall R, E R -> bool).

Fixpoint bounded {A : Type} f (n : nat) (p : prog E X A) : Prop :=
  match p with
  | Ret _ | Raise _ => True
  | Call e k => if f _ e then match n with O => False | S n' => forall r, bounded f n' (k r) end
                else forall r, bounded f n (k r)
  end.

Definition count f (tr : list (event E X)) : nat := length (calls f tr).

Lemma count_app f tr1 tr2 : count f (tr1 ++ tr2) = count f tr1 + count f tr2.
Proof. unfold count. by rewrite calls_app, length_app. Qed.

Lemma count_cons f {R} (e : E R) r tr :
  count f (Event e r :: tr) = (if f _ e then 1 else 0) + count f tr.
Proof. unfold count, calls. cbn. by destruct (f R e). Qed.

Lemma bounded_mono {A : Type} f n m (p : prog E X A) : n <= m -> bounded f n p -> bounded f m p.
Proof.
  revert n m. induction p as [a|x|R e k IH]; intros n m Hle; cbn; [done..|].
  destruct (f R e); [|eauto]. destruct n, m; try done; [lia|]. intros H r. eapply IH; [|done]. lia.
Qed.

Lemma bounded_bind {A B : Type} f n m (p : prog E X A) (k : A -> prog E X B) :
  bounded f n p -> (forall a, bounded f m (k a)) -> bounded f (n + m) (bind p k).
Proof.
  revert n. induction p as [a|x|R e c IH]; intros n Hp Hk; [|done|].
  - change (bounded f (n + m) (k a)). eapply bounded_mono; [|apply Hk]. lia.
  - change (bounded f (n + m) (Call e (fun r => bind (c r) k))). cbn in *. destruct (f R e).
    + destruct n; [done|]. cbn. intros r. by apply IH.
    + intros r. by apply IH.
Qed.

Lemma bounded_only {A : Type} f (p : prog E X A) : only (fun R e => f R e = false) p -> bounded f 0 p.
Proof.
  induction p as [a|x|R e c IH]; [done..|]. intros [He Hc]. cbn. rewrite He. intros r. by apply IH.
Qed.

Lemma bounded_call {R : Type} f (e : E R) : bounded f 1 (call e : prog E X R).
Proof. unfold call. cbn. destruct (f R e); intros [a|x]; done. Qed.

Lemma bounded_runs {A : Type} f n (p : prog E X A) tr o : bounded f n p -> runs p tr o -> count f tr <= n.
Proof.
  revert n tr. induction p as [a|x|R e c IH]; intros n tr Hp H.
  - apply runs_Ret in H as [-> _]. cbn. lia.
  - apply runs_Raise in H as [-> _]. cbn. lia.
  - apply runs_Call in H as (r & tr' & -> & H). rewrite count_cons. cbn in Hp. destruct (f R e).
    + destruct n; [done|]. specialize (IH r _ _ (Hp r) H). lia.
    + specialize (IH r _ _ (Hp r) H). lia.
Qed.
End Bounded.

#[global] Arguments bounded : simpl never.

(** To reach an operation the first part of a sequence cannot perform, the first part must
    have succeeded. *)
Lemma runs_bind_reach {E : Type -> Type} {X A B : Type} (f : forall R, E R -> Prop)
    (p : prog E X A) (k : A -> prog E X B) tr1 ev tr2 o :
  runs (bind p k) (tr1 ++ ev :: tr2) o -> only f p -> ~ event_sat f ev ->
  exists tra a tr1', tr1 = tra ++ tr1' /\ runs p tra (Ok a) /\ runs (k a) (tr1' ++ ev :: tr2) o.
Proof.
  intros H Hp Hev. apply runs_bind in H as [(tra & trb & a & E1 & H1 & H2)|(x & -> & H1)].
  - destruct (segment_skip (event_sat f) tr1 ev tr2 tra trb E1) as (tr1' & -> & ->); [by eapply only_runs|done|].
    eauto 6.
  - pose proof (only_runs _ _ _ _ Hp H1) as Hall. apply Forall_app in Hall as [_ Hall].
    by apply Forall_cons in Hall as [? _].
Qed.

(** The same through an [attempt]: the attempted part may have failed. *)
Lemma runs_attempt_reach {E : Type -> Type} {X A B : Type} (f : forall R, E R -> Prop)
    (p : prog E X A) (k : result X A -> prog E X B) tr1 ev tr2 o :
  runs (bind (attempt p) k) (tr1 ++ ev :: tr2) o -> only f p -> ~ event_sat f ev ->
  exists tra r tr1', tr1 = tra ++ tr1' /\ runs p tra r /\ runs (k r) (tr1' ++ ev :: tr2) o.
Proof.
  intros H Hp Hev. eapply runs_bind_reach in H as (tra & r & tr1' & -> & H1 & H2);
    [|by apply only_attempt|done].
  apply runs_attempt in H1 as (r' & [= ->] & H1). eauto 6.
Qed.

(** ** Running one component's program inside another's signature *)

Section Embed.
Context {E F : Type -> Type} {X : Type} (inj : forall R, E R -> F R).

Fixpoint embed {A : Type} (p : prog E X A) : prog F X A :=
  match p with
  | Ret a => Ret a
  | Raise x => Raise x
  | Call e k => Call (inj _ e) (fun r => embed (k r))
  end.

Definition embed_event (ev : event E X) : event F X :=
  match ev with Event e r => Event (inj _ e) r end.

Lemma runs_embed {A : Type} (p : prog E X A) tr o :
  runs (embed p) tr o <-> exists tr0, tr = map embed_event tr0 /\ runs p tr0 o.
Proof.
  revert tr. induction p as [a|x|R e k IH]; intros tr; cbn [embed].
  - rewrite runs_Ret. split; [intros [-> ->]; exists []; by rewrite runs_Ret|].
    intros (tr0 & -> & [-> ->]%runs_Ret). done.
  - rewrite runs_Raise. split; [intros [-> ->]; exists []; by rewrite runs_Raise|].
    intros (tr0 & -> & [-> ->]%runs_Raise). done.
  - rewrite runs_Call. setoid_rewrite IH. split.
    + intros (r & tr' & -> & tr0 & -> & H). exists (Event e r :: tr0). split; [done|]. apply runs_Call. eauto.
    + intros (tr0 & -> & (r & tr' & -> & H)%runs_Call). exists r, (map embed_event tr'). eauto.
Qed.

Lemma only_embed {A : Type} (f : forall R, F R -> Prop) (p : prog E X A) :
  only (fun R e => f R (inj R e)) p -> only f (embed p).
Proof.
  induction p as [a|x|R e k IH]; [done..|]. intros [He Hk].
  change (f R (inj R e) /\ forall r, only f (embed (k r))). split; [done|]. intros r. by apply IH.
Qed.
End Embed.

(** ** Answering the operations of one component by programs of another *)

Section Interp.
Context {E F : Type -> Type} {X : Type} (serve : forall R, E R -> prog F X R).

Fixpoint interp {A : Type} (p : prog E X A) : prog F X A :=
  match p with
  | Ret a => Ret a
  | Raise x => Raise x
  | Call e k => bind (attempt (serve _ e)) (fun r => interp (k r))
  end.

Lemma runs_interp_call {R A : Type} (e : E R) (k : R -> prog E X A) tr o :
  runs (interp (bind (call e) k)) tr o <->
  exists tr1 tr2 r, tr = tr1 ++ tr2 /\ runs (serve _ e) tr1 r /\
    match r with Ok a => runs (interp (k a)) tr2 o | Err x => tr2 = [] /\ o = Err x end.
Proof.
  change (interp (bind (call e) k)) with
    (bind (attempt (serve R e)) (fun r => interp (bind (match r with Ok a => Ret a | Err x => Raise x end) k))).
  rewrite runs_bind. setoid_rewrite runs_attempt. split.
  - intros [(tr1 & tr2 & r & -> & (r' & [= ->] & H1) & H2)|(x & -> & r' & [=] & _)]. exists tr1, tr2, r'.
    split; [done|]. split; [done|]. destruct r'; [done|]. by apply runs_Raise in H2.
  - intros (tr1 & tr2 & r & -> & H1 & H2). left. exists tr1, tr2, r. split; [done|]. split; [eauto|].
    destruct r; [done|]. by apply runs_Raise.
Qed.

Lemma interp_bind {A B : Type} (p : prog E X A) (k : A -> prog E X B) tr o :
  runs (interp (bind p k)) tr o <-> runs (bind (interp p) (fun a => interp (k a))) tr o.
Proof.
  revert tr. induction p as [a|x|R e c IH]; intros tr; [done..|].
  change (interp (bind (Call e c) k)) with (bind (attempt (serve R e)) (fun r => interp (bind (c r) k))).
  change (interp (Call e c)) with (bind (attempt (serve R e)) (fun r => interp (c r))).
  rewrite !runs_bind. setoid_rewrite runs_bind. setoid_rewrite IH. setoid_rewrite runs_bind. setoid_rewrite runs_attempt. split.
  - intros [(t1 & t2 & r & -> & (r' & [= ->] & H1) & [(t3 & t4 & a & -> & H2 & H3)|(x & -> & H2)])|(x & -> & r' & [=] & _)].
    + left. exists (t1 ++ t3), t4, a. rewrite app_assoc. split; [done|]. split; [|done]. left. eauto 10.
    + right. exists x. split; [done|]. left. eauto 10.
  - intros [(t1 & t2 & a & -> & [(t3 & t4 & r & -> & (r' & [= ->] & H1) & H2)|(x & [=] & _)] & H3)|(x & -> & [(t3 & t4 & r & -> & (r' & [= ->] & H1) & H2)|(y & [= ->] & r' & [=] & _)])].
    + left. exists t3, (t4 ++ t2), r'. rewrite app_assoc. split; [done|]. split; [eauto|]. left. eauto 10.
    + left. exists t3, t4, r'. split; [done|]. split; [eauto|]. right. eauto.
Qed.

(** A run of the composition is a run of the client, each of whose questions is answered by a
    run of the server: the trace is made of exactly those parts, in order. *)
Definition answered_by (ev : event E X) (part : list (event F X)) : Prop :=
  match ev with Event e r => runs (serve _ e) part r end.
Lemma runs_interp {A : Type} (p : prog E X A) tr o :
  runs (interp p) tr o -> exists client parts, runs p client o /\ tr = concat parts /\ Forall2 answered_by client parts.
Proof.
  revert tr. induction p as [a|x|R e k IH]; intros tr H.
  - apply runs_Ret in H as [-> ->]. exists [], []. split_and!; [by apply runs_Ret|done..].
  - apply runs_Raise in H as [-> ->]. exists [], []. split_and!; [by apply runs_Raise|done..].
  - change (interp (Call e k)) with (bind (attempt (serve R e)) (fun r => interp (k r))) in H.
    apply runs_bind in H as [(t1 & t2 & r & -> & H1 & H2)|(x & -> & H)]; [|by apply runs_attempt in H as (? & [=] & _)].
    apply runs_attempt in H1 as (r' & [= ->] & H1). apply IH in H2 as (client & parts & Hc & -> & Hparts).
    exists (Event e r' :: client), (t1 :: parts). split_and!; [apply runs_Call; eauto|done|by constructor].
Qed.

(** Every question of the client has its part, and every event of the run belongs to one. *)
Lemma part_of client parts R (e : E R) r :
  Forall2 answered_by client parts -> Event e r ∈ client ->
  exists part, runs (serve R e) part r /\ forall ev, ev ∈ part -> ev ∈ concat parts.
Proof.
  intros Hall Hin. apply list_elem_of_lookup in Hin as [i Hi].
  destruct (Forall2_lookup_l _ _ _ _ _ Hall Hi) as (part & Hp & Hev). exists part. split; [exact Hev|].
  intros ev Hin. apply list_elem_of_In, in_concat. exists part. split; [by apply list_elem_of_In, list_elem_of_lookup_2 with i|by apply list_elem_of_In].
Qed.
Lemma question_of client parts ev :
  Forall2 answered_by client parts -> ev ∈ concat parts ->
  exists question part, question ∈ client /\ answered_by question part /\ ev ∈ part.
Proof.
  intros Hall Hin. apply list_elem_of_In, in_concat in Hin as (part & Hp & Hin). apply list_elem_of_In, list_elem_of_lookup in Hp as [i Hi].
  destruct (Forall2_lookup_r _ _ _ _ _ Hall Hi) as (question & Hq & Ha). exists question, part.
  split_and!; [by apply list_elem_of_lookup_2 with i|done|by apply list_elem_of_In].
Qed.
End Interp.

(** ** Running against a concrete environment

    [leads h p w r w']: started in [w], the handler [h] drives [p] to the outcome [r] and
    the environment to [w'].  It is a function of [p] and [w]. *)

Section Leads.
Context {E : Type -> Type} {X W : Type} (h : handler (E:=E) (X:=X) W).

Variant leads {A : Type} (p : prog E X A) (w : W) (r : result X A) (w' : W) : Prop :=
| Leads (H : ((exec h p w).1.1, (exec h p w).2) = (r, w')).

Lemma leads_exec {A : Type} (p : prog E X A) w : leads p w (exec h p w).1.1 (exec h p w).2.
Proof. done. Qed.

Lemma leads_fun {A : Type} (p : prog E X A) w r1 w1 r2 w2 :
  leads p w r1 w1 -> leads p w r2 w2 -> r1 = r2 /\ w1 = w2.
Proof. intros [H1] [H2]. rewrite H1 in H2. by injection H2. Qed.

Lemma leads_Ret {A : Type} (a : A) w r w' : leads (Ret a) w r w' <-> r = Ok a /\ w' = w.
Proof. split; [intros [[= <- <-]]; done|intros [-> ->]; done]. Qed.

Lemma leads_Raise {A : Type} (x : X) w (r : result X A) w' : leads (Raise x) w r w' <-> r = Err x /\ w' = w.
Proof. split; [intros [[= <- <-]]; done|intros [-> ->]; done]. Qed.

Lemma leads_lift {A : Type} (r0 : result X A) w r w' : leads (lift r0) w r w' <-> r = r0 /\ w' = w.
Proof. destruct r0; [apply leads_Ret|apply leads_Raise]. Qed.

Lemma leads_Call {R A : Type} (e : E R) (k : result X R -> prog E X A) w r w' :
  leads (Call e k) w r w' <-> leads (k (h _ e w).1) (h _ e w).2 r w'.
Proof.
  split; intros [H]; constructor; revert H; cbn; destruct (h R e w) as [a w1]; cbn;
    by destruct (exec h (k a) w1) as [[o tr] w2].
Qed.

Lemma leads_call {R : Type} (e : E R) w r w' : leads (call e) w r w' <-> h _ e w = (r, w').
Proof.
  unfold call. rewrite leads_Call. destruct (h R e w) as [a w1]. cbn.
  destruct a; rewrite ?leads_Ret, ?leads_Raise; intuition congruence.
Qed.

Lemma leads_bind {A B : Type} (p : prog E X A) (k : A -> prog E X B) w r w' :
  leads (bind p k) w r w' <->
  (exists a w1, leads p w (Ok a) w1 /\ leads (k a) w1 r w') \/
  (exists x, r = Err x /\ leads p w (Err x) w').
Proof.
  revert w. induction p as [a|x|R e c IH]; intros w.
  - setoid_rewrite leads_Ret. split; [intros H; left; eauto|].
    intros [(b & w1 & [[= ->] ->] & Hk)|(x & -> & [=] & _)]. done.
  - change (bind (Raise x) k) with (@Raise E X B x). setoid_rewrite leads_Raise. split.
    + intros [-> ->]. right. eauto.
    + intros [(b & w1 & [[=] _] & _)|(y & -> & [= ->] & ->)]. done.
  - change (bind (Call e c) k) with (Call e (fun r => bind (c r) k)). setoid_rewrite leads_Call. apply IH.
Qed.

Lemma leads_attempt {A : Type} (p : prog E X A) w (o : result X (result X A)) w' :
  leads (attempt p) w o w' <-> exists r, o = Ok r /\ leads p w r w'.
Proof.
  revert w. induction p as [a|x|R e c IH]; intros w.
  - change (attempt (Ret a)) with (@Ret E X (result X A) (Ok a)). setoid_rewrite leads_Ret. naive_solver.
  - change (attempt (Raise x)) with (@Ret E X (result X A) (Err x)). rewrite leads_Ret. setoid_rewrite leads_Raise. naive_solver.
  - change (attempt (Call e c)) with (Call e (fun r => attempt (c r))). setoid_rewrite leads_Call. apply IH.
Qed.

Lemma leads_attempt_bind {A B : Type} (p : prog E X A) (k : result X A -> prog E X B) w r w' :
  leads (bind (attempt p) k) w r w' <-> exists a w1, leads p w a w1 /\ leads (k a) w1 r w'.
Proof.
  rewrite leads_bind. setoid_rewrite leads_attempt. split.
  - intros [(a & w1 & (r0 & [= ->] & H) & Hk)|(x & _ & r0 & [=] & _)]. eauto.
  - intros (a & w1 & H & Hk). left. eauto 10.
Qed.

Lemma leads_bind_call {R B : Type} (e : E R) (k : R -> prog E X B) w r w' :
  leads (bind (call e) k) w r w' <->
  match h _ e w with (Ok a, w1) => leads (k a) w1 r w' | (Err x, w1) => r = Err x /\ w' = w1 end.
Proof.
  rewrite leads_bind. setoid_rewrite leads_call. destruct (h R e w) as [[a|x] w1]; split.
  - intros [(b & w2 & [= <- <-] & Hk)|(x & _ & [=])]. done.
  - intros H. left. eauto.
  - intros [(b & w2 & [=] & _)|(y & -> & [= <- <-])]. done.
  - intros [-> ->]. right. eauto.
Qed.

(** A relation every permitted operation respects holds between the two leads. *)
Lemma only_leads {A : Type} (f : forall R, E R -> Prop) (I : W -> W -> Prop) (p : prog E X A) w r w' :
  Reflexive I -> Transitive I -> (forall R e w, f R e -> I w (h R e w).2) ->
  only f p -> leads p w r w' -> I w w'.
Proof.
  intros Hr Ht Hf. revert w. induction p as [a|x|R e c IH]; intros w Hp H.
  - apply leads_Ret in H as [_ ->]. apply Hr.
  - apply leads_Raise in H as [_ ->]. apply Hr.
  - destruct Hp as [He Hc]. apply leads_Call in H. etransitivity; [by apply Hf|]. by eapply IH.
Qed.
End Leads.

Lemma leads_catch {E : Type -> Type} {X W A : Type} (h : handler (E:=E) (X:=X) W) (p : prog E X A) f w r w' :
  leads h (catch p f) w r w' <->
  exists r0 w1, leads h p w r0 w1 /\ match r0 with Ok a => r = Ok a /\ w' = w1 | Err x => leads h (f x) w1 r w' end.
Proof.
  unfold catch. rewrite leads_attempt_bind.
  split; intros ([a|x] & w1 & H & Hk); [exists (Ok a), w1|exists (Err x), w1|exists (Ok a), w1|exists (Err x), w1];
    (split; [done|]); try done; by apply (leads_Ret h).
Qed.

(** * Guarded programs

    [guarded S past p Q]: whatever the ports answer, every operation [p] performs is allowed
    by [S] after the events that precede it, [past] included, and [p] ends in a history and a
    result that satisfy [Q].  The rules below follow the shape of a program, so that a proof
    that destructive operations are justified by earlier answers reads the code once. *)

Section Guarded.
Context {E : Type -> Type} {X : Type}.
Abbreviation history := (list (event E X)).
Variable S : history -> forall R, E R -> Prop.

Fixpoint guarded {A : Type} (past : history) (p : prog E X A) (Q : history -> result X A -> Prop) : Prop :=
  match p with
  | Ret a => Q past (Ok a)
  | Raise x => Q past (Err x)
  | Call e k => S past _ e /\ forall r, guarded (past ++ [Event e r]) (k r) Q
  end.

Lemma guarded_mono {A : Type} past (p : prog E X A) (Q Q' : history -> result X A -> Prop) :
  (forall new r, Q (past ++ new) r -> Q' (past ++ new) r) -> guarded past p Q -> guarded past p Q'.
Proof.
  revert past. induction p as [a|x|R e k IH]; intros past HQ; cbn.
  - intros H. specialize (HQ [] (Ok a)). rewrite app_nil_r in HQ. auto.
  - intros H. specialize (HQ [] (Err x)). rewrite app_nil_r in HQ. auto.
  - intros [He Hk]. split; [done|]. intros r. apply IH; [|done].
    intros new r'. rewrite <- app_assoc. apply HQ.
Qed.

Lemma guarded_bind {A B : Type} past (p : prog E X A) (k : A -> prog E X B) Q :
  guarded past p (fun past' r => match r with Ok a => guarded past' (k a) Q | Err x => Q past' (Err x) end) ->
  guarded past (bind p k) Q.
Proof.
  revert past. induction p as [a|x|R e c IH]; intros past; [done..|]. intros [He Hc].
  change (S past R e /\ forall r, guarded (past ++ [Event e r]) (bind (c r) k) Q). split; [done|]. intros r. by apply IH.
Qed.

Lemma guarded_attempt {A : Type} past (p : prog E X A) Q :
  guarded past p (fun past' r => Q past' (Ok r)) -> guarded past (attempt p) Q.
Proof.
  revert past. induction p as [a|x|R e c IH]; intros past; [done..|]. intros [He Hc].
  change (S past R e /\ forall r, guarded (past ++ [Event e r]) (attempt (c r)) Q). split; [done|]. intros r. by apply IH.
Qed.

Lemma guarded_catch {A : Type} past (p : prog E X A) h Q :
  guarded past p (fun past' r => match r with Ok a => Q past' (Ok a) | Err x => guarded past' (h x) Q end) ->
  guarded past (catch p h) Q.
Proof.
  intros H. apply guarded_bind, guarded_attempt. eapply guarded_mono; [|exact H]. by intros new [a|x].
Qed.

Lemma guarded_call {R : Type} past (e : E R) Q :
  S past R e -> (forall r, Q (past ++ [Event e r]) r) -> guarded past (call e) Q.
Proof. intros He HQ. split; [done|]. intros [a|x]; apply HQ. Qed.

Lemma guarded_lift {A : Type} past (r : result X A) Q : Q past r -> guarded past (lift r) Q.
Proof. by destruct r. Qed.

Lemma guarded_Ret {A : Type} past (a : A) (Q : history -> result X A -> Prop) : Q past (Ok a) -> guarded past (Ret a) Q.
Proof. done. Qed.
Lemma guarded_Raise {A : Type} past (x : X) (Q : history -> result X A -> Prop) : Q past (Err x) -> guarded past (Raise x) Q.
Proof. done. Qed.

(** One call, and what follows each of its answers. *)
Lemma guarded_bind_call {R A : Type} past (e : E R) (k : R -> prog E X A) Q :
  S past R e -> (forall a, guarded (past ++ [Event e (Ok a)]) (k a) Q) ->
  (forall x, Q (past ++ [Event e (Err x)]) (Err x)) -> guarded past (bind (call e) k) Q.
Proof. intros He Hk Hx. apply guarded_bind, guarded_call; [done|]. intros [a|x]; [apply Hk|apply Hx]. Qed.
Lemma guarded_attempt_call {R A : Type} past (e : E R) (k : result X R -> prog E X A) Q :
  S past R e -> (forall r, guarded (past ++ [Event e r]) (k r) Q) -> guarded past (bind (attempt (call e)) k) Q.
Proof. intros He Hk. apply guarded_bind, guarded_attempt, guarded_call; [done|]. intros r. apply Hk. Qed.

Lemma guarded_for_each {A : Type} past (f : A -> prog E X unit) l Q :
  (forall past' x, x ∈ l -> guarded past' (f x) (fun _ _ => True)) ->
  (forall past' r, Q past' r) -> guarded past (for_each f l) Q.
Proof.
  intros Hf HQ. revert past. induction l as [|x l IH]; intros past; [apply HQ|]. apply guarded_bind.
  eapply guarded_mono; [|apply Hf; by left]. intros new [a|e] _; [|apply HQ]. apply IH. intros past' y Hy. apply Hf. by right.
Qed.

(** A program of allowed operations may do anything else. *)
Lemma guarded_only {A : Type} (f : forall R, E R -> Prop) past (p : prog E X A) (Q : history -> result X A -> Prop) :
  (forall h R e, f R e -> S h R e) -> only f p -> (forall new r, runs p new r -> Q (past ++ new) r) -> guarded past p Q.
Proof.
  intros Hf. revert past. induction p as [a|x|R e k IH]; intros past Hp HQ.
  - specialize (HQ [] (Ok a)). rewrite app_nil_r in HQ. apply HQ. by apply runs_Ret.
  - specialize (HQ [] (Err x)). rewrite app_nil_r in HQ. apply HQ. by apply runs_Raise.
  - destruct Hp as [He Hk]. split; [auto|]. intros r. apply IH; [apply Hk|].
    intros new r' Hr. rewrite <- app_assoc. apply HQ. apply runs_Call. eauto.
Qed.

(** What a guarded program ends in may be read off its runs. *)
Lemma guarded_through {A : Type} past (p : prog E X A) (Q : history -> result X A -> Prop) :
  guarded past p (fun _ _ => True) -> (forall new r, runs p new r -> Q (past ++ new) r) -> guarded past p Q.
Proof.
  revert past. induction p as [a|x|R e k IH]; intros past Hp HQ.
  - specialize (HQ [] (Ok a)). rewrite app_nil_r in HQ. apply HQ. by apply runs_Ret.
  - specialize (HQ [] (Err x)). rewrite app_nil_r in HQ. apply HQ. by apply runs_Raise.
  - destruct Hp as [He Hk]. split; [done|]. intros r. apply IH; [apply Hk|].
    intros new r' Hr. rewrite <- app_assoc. apply HQ. apply runs_Call. eauto.
Qed.

Lemma guarded_runs {A : Type} past (p : prog E X A) Q tr o :
  guarded past p Q -> runs p tr o ->
  Q (past ++ tr) o /\ forall tr1 R (e : E R) r tr2, tr = tr1 ++ Event e r :: tr2 -> S (past ++ tr1) R e.
Proof.
  revert past tr. induction p as [a|x|R e k IH]; intros past tr Hp Hr.
  - apply runs_Ret in Hr as [-> ->]. rewrite app_nil_r. split; [done|]. by intros [] * [=].
  - apply runs_Raise in Hr as [-> ->]. rewrite app_nil_r. split; [done|]. by intros [] * [=].
  - destruct Hp as [He Hk]. apply runs_Call in Hr as (r & tr' & -> & Hr).
    destruct (IH r (past ++ [Event e r]) tr' (Hk r) Hr) as [HQ HS]. rewrite <- app_assoc in HQ. split; [done|].
    intros [|ev tr1] R' e' r' tr2 Heq.
    + rewrite app_nil_r.
      set (ok (ev : event E X) := match ev with Event e' _ => S past _ e' end).
      change (ok (Event e' r')). assert (Hev : Event e r = Event e' r') by (exact (f_equal (hd (Event e r)) Heq)). rewrite <- Hev. exact He.
    + cbn in Heq. assert (Hev : ev = Event e r /\ tr' = tr1 ++ Event e' r' :: tr2) 
        by (split; [exact (eq_sym (f_equal (hd ev) Heq))|exact (f_equal tl Heq)]).
      destruct Hev as [-> Htr]. specialize (HS tr1 R' e' r' tr2 Htr). by rewrite <- app_assoc in HS.
Qed.
End Guarded.


(** What is allowed by one rule is allowed by a weaker one. *)
Lemma guarded_weaken {E : Type -> Type} {X A : Type} (S S' : list (event E X) -> forall R, E R -> Prop) past (p : prog E X A) Q :
  (forall h R (e : E R), S h R e -> S' h R e) -> guarded S past p Q -> guarded S' past p Q.
Proof. intros HS. revert past. induction p as [a|x|R e k IH]; intros past; [done..|]. intros [He Hk]. split; [by apply HS|]. intros r. by apply IH. Qed.

#[global] Arguments guarded : simpl never.
