(* ===== verification/Regex.v ===== *)
(** * Regular expressions

    The validators of the program are Python [re] patterns.  This file gives the
    fragment they use (classes, alternation, repetition, anchors, word boundaries
    and one-character lookarounds): the relation [matches] says what a pattern
    means, the function [ends] computes all end positions of a match, and
    [ends_spec] proves that the two agree. *)

From S2P Require Import Prelude.

Inductive regex : Type :=
| REmpty
| RSet (f : ascii -> bool)
| RCat (r1 r2 : regex)
| RAlt (r1 r2 : regex)
| RStar (r : regex)
| RBol                             (* ^ *)
| REol                             (* $ : the end, or before a final newline *)
| RWordB                           (* \b *)
| RNotBehind (f : ascii -> bool)   (* (?<![...]) *)
| RNotAhead (f : ascii -> bool).   (* (?![...]) *)

(** ** Derived forms *)

Definition rchar (c : ascii) : regex := RSet (Ascii.eqb c).
Definition rplus (r : regex) : regex := RCat r (RStar r).
Definition ropt (r : regex) : regex := RAlt r REmpty.
Fixpoint rrep (n : nat) (r : regex) : regex :=
  match n with 0 => REmpty | S n' => RCat r (rrep n' r) end.
Fixpoint rupto (n : nat) (r : regex) : regex :=
  match n with 0 => REmpty | S n' => ropt (RCat r (rupto n' r)) end.
Fixpoint rlit (l : list ascii) : regex :=
  match l with [] => REmpty | c :: l' => RCat (rchar c) (rlit l') end.
Definition rword (s : string) : regex := rlit (chars s).
Fixpoint ralts (rs : list regex) : regex :=
  match rs with [] => RSet (fun _ => false) | [r] => r | r :: rs' => RAlt r (ralts rs') end.
Definition rcats (rs : list regex) : regex := foldr RCat REmpty rs.

(** [re.IGNORECASE]: a class also accepts the other case of its members. *)
Definition upper_char (c : ascii) : ascii :=
  if is_lower c then ascii_of_nat (code c - 32) else c.
Definition fold_case (f : ascii -> bool) (c : ascii) : bool :=
  f c || f (lower_char c) || f (upper_char c).
Fixpoint ignore_case (r : regex) : regex :=
  match r with
  | RSet f => RSet (fold_case f)
  | RCat r1 r2 => RCat (ignore_case r1) (ignore_case r2)
  | RAlt r1 r2 => RAlt (ignore_case r1) (ignore_case r2)
  | RStar r1 => RStar (ignore_case r1)
  | RNotBehind f => RNotBehind (fold_case f)
  | RNotAhead f => RNotAhead (fold_case f)
  | _ => r
  end.

(** ** Zero-width tests *)

(** [\w] on ASCII *)
Definition is_word (c : ascii) : bool :=
  is_lower c || is_upper c || is_digit c || Ascii.eqb c "_"%char.

Definition at_is (f : ascii -> bool) (t : list ascii) (i : nat) : bool :=
  match t !! i with Some c => f c | None => false end.

Definition before_is (f : ascii -> bool) (t : list ascii) (i : nat) : bool :=
  match i with 0 => false | S i' => at_is f t i' end.

Definition at_eol (t : list ascii) (i : nat) : bool :=
  (i =? length t) || ((S i =? length t) && at_is (Ascii.eqb newline) t i).

(** ** Meaning *)

Section Matching.
Variable t : list ascii.

Inductive matches : regex -> nat -> nat -> Prop :=
| MEmpty i : matches REmpty i i
| MSet f i : at_is f t i = true -> matches (RSet f) i (S i)
| MCat r1 r2 i j k : matches r1 i j -> matches r2 j k -> matches (RCat r1 r2) i k
| MAltL r1 r2 i j : matches r1 i j -> matches (RAlt r1 r2) i j
| MAltR r1 r2 i j : matches r2 i j -> matches (RAlt r1 r2) i j
| MStarNil r i : matches (RStar r) i i
| MStarCons r i j k : matches r i j -> matches (RStar r) j k -> matches (RStar r) i k
| MBol : matches RBol 0 0
| MEol i : at_eol t i = true -> matches REol i i
| MWordB i : xorb (before_is is_word t i) (at_is is_word t i) = true -> matches RWordB i i
| MNotBehind f i : before_is f t i = false -> matches (RNotBehind f) i i
| MNotAhead f i : at_is f t i = false -> matches (RNotAhead f) i i.

(** ** Matcher *)

(** Keep the positions of [js] beyond [i]. *)
Definition beyond (i : nat) (js : list nat) : list nat := List.filter (fun j => i <? j) js.

(** All positions reachable from [i] by repeating [step], each repetition making
    progress; [fuel] bounds the number of repetitions. *)
Fixpoint star_ends (step : nat -> list nat) (fuel : nat) (i : nat) : list nat :=
  match fuel with
  | 0 => [i]
  | S fuel' =>
    i :: remove_dups (concat (map (star_ends step fuel') (remove_dups (beyond i (step i)))))
  end.

Fixpoint ends (r : regex) (i : nat) : list nat :=
  match r with
  | REmpty => [i]
  | RSet f => if at_is f t i then [S i] else []
  | RCat r1 r2 => remove_dups (concat (map (ends r2) (ends r1 i)))
  | RAlt r1 r2 => remove_dups (ends r1 i ++ ends r2 i)
  | RStar r1 => star_ends (ends r1) (S (length t)) i
  | RBol => if i =? 0 then [i] else []
  | REol => if at_eol t i then [i] else []
  | RWordB => if xorb (before_is is_word t i) (at_is is_word t i) then [i] else []
  | RNotBehind f => if before_is f t i then [] else [i]
  | RNotAhead f => if at_is f t i then [] else [i]
  end.
End Matching.

(** [re.fullmatch(s) is not None], [re.match], [re.search]. *)
Definition fullmatch (r : regex) (s : string) : bool :=
  bool_decide (String.length s ∈ ends (chars s) r 0).
Definition match_start (r : regex) (s : string) : bool :=
  bool_decide (ends (chars s) r 0 ≠ []).
Definition search (r : regex) (s : string) : bool :=
  existsb (fun i => bool_decide (ends (chars s) r i ≠ [])) (seq 0 (S (String.length s))).

(** ** The matcher computes the meaning *)

Section MatchingLemmas.
Variable t : list ascii.

Lemma at_is_lt f i : at_is f t i = true -> i < length t.
Proof. unfold at_is. destruct (t !! i) eqn:E; [|done]. intros _. by eapply lookup_lt_Some. Qed.

Lemma matches_mono r i j : matches t r i j -> i <= j /\ (i <= length t -> j <= length t).
Proof.
  induction 1; try lia.
  pose proof (at_is_lt _ _ H). lia.
Qed.

Lemma elem_of_beyond i j js : j ∈ beyond i js <-> i < j /\ j ∈ js.
Proof.
  unfold beyond. rewrite list_elem_of_In, filter_In, Nat.ltb_lt, list_elem_of_In. tauto.
Qed.

Lemma elem_of_concat_map {A B} (f : A -> list B) (l : list A) (y : B) :
  y ∈ concat (map f l) <-> exists x, x ∈ l /\ y ∈ f x.
Proof.
  rewrite list_elem_of_In, in_concat. setoid_rewrite in_map_iff.
  setoid_rewrite list_elem_of_In. naive_solver.
Qed.

Lemma star_ends_sound r step fuel i j :
  (forall i j, j ∈ step i -> matches t r i j) ->
  j ∈ star_ends step fuel i -> matches t (RStar r) i j.
Proof.
  intros Hstep. revert i. induction fuel as [|fuel IH]; intros i; cbn.
  - rewrite list_elem_of_singleton. intros ->. constructor.
  - rewrite elem_of_cons, elem_of_remove_dups, elem_of_concat_map.
    intros [->|(k & Hk & Hj)]; [constructor|].
    rewrite elem_of_remove_dups, elem_of_beyond in Hk. econstructor; [apply Hstep, Hk|auto].
Qed.

Lemma star_ends_complete r step fuel i j :
  (forall i j, i <= length t -> matches t r i j -> j ∈ step i) ->
  i <= length t -> length t - i < fuel ->
  matches t (RStar r) i j -> j ∈ star_ends step fuel i.
Proof.
  intros Hstep Hi Hf H. remember (RStar r) as s eqn:Es.
  revert fuel Hi Hf. induction H; intros fuel Hi Hf; try discriminate; injection Es as ->.
  - destruct fuel; cbn; [by apply list_elem_of_singleton | by left].
  - clear IHmatches1. pose proof (matches_mono _ _ _ H) as [Hij Hj].
    destruct (decide (i = j)) as [->|Hne]; [by apply IHmatches2|].
    destruct fuel as [|fuel]; [lia|]. cbn.
    rewrite elem_of_cons, elem_of_remove_dups, elem_of_concat_map. right.
    exists j. split; [|apply IHmatches2; auto; lia].
    rewrite elem_of_remove_dups, elem_of_beyond. split; [lia|auto].
Qed.

(** The executable matcher returns exactly the end positions of the matches. *)
Lemma ends_sound r i j : j ∈ ends t r i -> matches t r i j.
Proof.
  revert i j. induction r; intros i j; cbn;
    rewrite ?elem_of_remove_dups, ?elem_of_app, ?elem_of_concat_map, ?list_elem_of_singleton.
  - intros ->. constructor.
  - destruct (at_is f t i) eqn:E; rewrite ?list_elem_of_singleton, ?elem_of_nil; [|done].
    intros ->. by constructor.
  - intros (k & H1 & H2). econstructor; eauto.
  - intros [H|H]; [apply MAltL | apply MAltR]; auto.
  - apply (star_ends_sound _ _ (S (length t))). auto.
  - destruct (i =? 0) eqn:E; rewrite ?list_elem_of_singleton, ?elem_of_nil; [|done].
    apply Nat.eqb_eq in E as ->. intros ->. constructor.
  - destruct (at_eol t i) eqn:E; rewrite ?list_elem_of_singleton, ?elem_of_nil; [|done].
    intros ->. by constructor.
  - destruct (xorb _ _) eqn:E; rewrite ?list_elem_of_singleton, ?elem_of_nil; [|done].
    intros ->. by constructor.
  - destruct (before_is f t i) eqn:E; rewrite ?list_elem_of_singleton, ?elem_of_nil; [done|].
    intros ->. by constructor.
  - destruct (at_is f t i) eqn:E; rewrite ?list_elem_of_singleton, ?elem_of_nil; [done|].
    intros ->. by constructor.
Qed.

Lemma ends_complete r i j : i <= length t -> matches t r i j -> j ∈ ends t r i.
Proof.
  revert i j. induction r; intros i j Hi H; cbn;
    rewrite ?elem_of_remove_dups, ?elem_of_app, ?elem_of_concat_map, ?list_elem_of_singleton;
    try (inversion H; subst; try done).
  all: try match goal with E : _ = _ |- _ => rewrite E end; try by apply list_elem_of_singleton.
  - match goal with H1 : matches t r1 _ ?k |- _ =>
      exists k; pose proof (matches_mono _ _ _ H1) end. naive_solver.
  - left. auto.
  - right. auto.
  - apply (star_ends_complete r _ (S (length t))); auto; lia.
  - apply (star_ends_complete r _ (S (length t))); auto; lia.
Qed.

Lemma ends_spec r i j : i <= length t -> j ∈ ends t r i <-> matches t r i j.
Proof. split; [apply ends_sound | by apply ends_complete]. Qed.
End MatchingLemmas.

Lemma fullmatch_spec r s : fullmatch r s = true <-> matches (chars s) r 0 (String.length s).
Proof. unfold fullmatch. rewrite bool_decide_eq_true. apply ends_spec. lia. Qed.

Lemma match_start_spec r s : match_start r s = true <-> exists j, matches (chars s) r 0 j.
Proof.
  unfold match_start. rewrite bool_decide_eq_true. split.
  - destruct (ends (chars s) r 0) as [|j l] eqn:E; [done|]. intros _. exists j.
    apply ends_sound. rewrite E. by left.
  - intros [j Hj] E. apply ends_complete in Hj; [|lia]. rewrite E in Hj. by apply elem_of_nil in Hj.
Qed.

Lemma search_spec r s :
  search r s = true <-> exists i j, i <= String.length s /\ matches (chars s) r i j.
Proof.
  unfold search. rewrite existsb_elem. split.
  - intros (i & Hi & H%bool_decide_eq_true). apply elem_of_seq in Hi.
    destruct (ends (chars s) r i) as [|j l] eqn:E; [done|].
    exists i, j. split; [lia|]. apply ends_sound. rewrite E. by left.
  - intros (i & j & Hi & Hj). exists i. rewrite elem_of_seq, bool_decide_eq_true. split; [lia|].
    intros E. apply ends_complete in Hj; [|by rewrite chars_length].
    rewrite E in Hj. by apply elem_of_nil in Hj.
Qed.

(** ** Reading a match back *)

Lemma matches_set_star t f i j :
  matches t (RStar (RSet f)) i j <->
  i <= j /\ forall k, i <= k < j -> at_is f t k = true.
Proof.
  split.
  - intros H. remember (RStar (RSet f)) as s eqn:Es.
    induction H; try discriminate; injection Es as ->; [split; [done|lia]|].
    inversion H; subst. destruct IHmatches2 as [? IH]; [done|]. split; [lia|].
    intros q Hq. destruct (decide (q = i)) as [->|]; [done|]. apply IH. lia.
  - intros [Hij H]. remember (j - i) as n eqn:En.
    revert i Hij H En. induction n as [|n IH]; intros i Hij H En.
    + replace j with i by lia. constructor.
    + econstructor; [constructor; apply H; lia|]. apply IH; [lia| |lia].
      intros k Hk. apply H. lia.
Qed.

Lemma matches_set t f i j : matches t (RSet f) i j <-> j = S i /\ at_is f t i = true.
Proof. split; [intros H; by inversion H | intros [-> H]; by constructor]. Qed.

Lemma matches_cat t r1 r2 i k :
  matches t (RCat r1 r2) i k <-> exists j, matches t r1 i j /\ matches t r2 j k.
Proof. split; [intros H; inversion H; eauto | intros (j & H1 & H2); by econstructor]. Qed.

Lemma matches_alt t r1 r2 i j :
  matches t (RAlt r1 r2) i j <-> matches t r1 i j \/ matches t r2 i j.
Proof. split; [intros H; inversion H; auto | intros [H|H]; by constructor]. Qed.

Lemma matches_empty t i j : matches t REmpty i j <-> j = i.
Proof. split; [intros H; by inversion H | intros ->; constructor]. Qed.

Lemma matches_set_plus t f i j :
  matches t (rplus (RSet f)) i j <->
  i < j /\ forall k, i <= k < j -> at_is f t k = true.
Proof.
  unfold rplus. rewrite matches_cat. setoid_rewrite matches_set. split.
  - intros (m & [-> Hi] & [? Hs]%matches_set_star). split; [lia|].
    intros k Hk. destruct (decide (k = i)) as [->|]; [done|]. apply Hs. lia.
  - intros [Hij H]. exists (S i). split; [split; [done|]; apply H; lia|].
    apply matches_set_star. split; [lia|]. intros k Hk. apply H. lia.
Qed.

Lemma matches_anchored t r i j :
  matches t (rcats [RBol; r; REol]) i j <->
  i = 0 /\ matches t r 0 j /\ at_eol t j = true.
Proof.
  split.
  - cbn. intros H.
    repeat match goal with
    | H : matches _ (RCat _ _) _ _ |- _ => inversion H; subst; clear H
    | H : matches _ RBol _ _ |- _ => inversion H; subst; clear H
    | H : matches _ REmpty _ _ |- _ => inversion H; subst; clear H
    | H : matches _ REol _ _ |- _ => inversion H; subst; clear H
    end. done.
  - intros (-> & H & E). cbn. econstructor; [constructor|]. econstructor; [exact H|].
    econstructor; [by constructor|constructor].
Qed.

Lemma forallb_at_is (f : ascii -> bool) (t : list ascii) :
  forallb f t = true <-> forall k, k < length t -> at_is f t k = true.
Proof.
  rewrite forallb_elem. unfold at_is. split.
  - intros H k Hk. destruct (lookup_lt_is_Some_2 t k Hk) as [c Hc]. rewrite Hc.
    apply H. by eapply list_elem_of_lookup_2.
  - intros H c [k Hk]%list_elem_of_lookup. specialize (H k). rewrite Hk in H.
    apply H. by eapply lookup_lt_Some.
Qed.

(** [^[f]+$] under [fullmatch]: a non-empty text of class [f] (the trailing-newline
    reading of [$] is excluded when [f] rejects a newline, and harmless otherwise). *)
Lemma fullmatch_class_plus f s :
  fullmatch (rcats [RBol; rplus (RSet f); REol]) s = true <->
  s ≠ "" /\ forallb f (chars s) = true.
Proof.
  rewrite fullmatch_spec, matches_anchored, matches_set_plus, forallb_at_is, chars_length.
  assert (at_eol (chars s) (String.length s) = true) as ->.
  { unfold at_eol. rewrite chars_length, Nat.eqb_refl. done. }
  split.
  - intros (_ & [Hlt H] & _). split; [intros ->; cbn in Hlt; lia|]. intros k Hk. apply H. lia.
  - intros [Hne H]. split_and!; try done; [destruct s; cbn; [congruence|lia]|].
    intros k [_ Hk]. by apply H.
Qed.

(** Anchors add nothing to [fullmatch]. *)
Lemma fullmatch_anchored r s : fullmatch (rcats [RBol; r; REol]) s = fullmatch r s.
Proof.
  apply eq_true_iff_eq. rewrite !fullmatch_spec, matches_anchored.
  assert (at_eol (chars s) (String.length s) = true) as ->.
  { unfold at_eol. by rewrite chars_length, Nat.eqb_refl. }
  naive_solver.
Qed.

(** * Cutting, splitting and matching texts

    Inversion lemmas of the text operations of [Prelude] and of regular expressions whose
    characters come from one class. *)

Lemma cut_first_spec c l a b : cut_first c l = Some (a, b) <-> l = a ++ c :: b /\ c ∉ a.
Proof.
  revert a b. induction l as [|x l IH]; intros a b; cbn.
  - split; [done|]. intros [H _]. by destruct a.
  - destruct (Ascii.eqb_spec x c) as [->|Hne].
    + split.
      * intros [= <- <-]. split; [done|apply not_elem_of_nil].
      * intros [H Ha]. destruct a as [|y a]; [by injection H as ->|]. injection H as <- _. destruct Ha. by left.
    + destruct (cut_first c l) as [[a' b']|] eqn:E.
      * split.
        -- intros [= <- <-]. destruct (proj1 (IH a' b') eq_refl) as [-> Ha]. split; [done|].
           intros [?|?]%elem_of_cons; [congruence|done].
        -- intros [H Ha]. destruct a as [|y a]; [by injection H as ->|]. injection H as <- H.
           assert (Some (a', b') = Some (a, b)) as [= -> ->]; [|done]. apply IH. split; [done|]. intros ?. apply Ha. by right.
      * split; [done|]. intros [H Ha]. destruct a as [|y a]; [by injection H as ->|]. injection H as <- H.
        assert (None = Some (a, b)) as [=]. apply IH. split; [done|]. intros ?. apply Ha. by right.
Qed.
Lemma cut_first_None c l : cut_first c l = None <-> c ∉ l.
Proof.
  induction l as [|x l IH]; cbn; [split; [intros _; apply not_elem_of_nil|done]|]. rewrite not_elem_of_cons.
  destruct (Ascii.eqb_spec x c) as [->|Hne]; [by split; [|intros [? _]]|].
  destruct (cut_first c l) as [[a b]|]; split; try done; [|intros _; split; [congruence|by apply IH]].
  intros [_ H]. by apply IH in H.
Qed.
Lemma cut_last_spec c l a b : cut_last c l = Some (a, b) <-> l = a ++ c :: b /\ c ∉ b.
Proof.
  unfold cut_last. destruct (cut_first c (reverse l)) as [[x y]|] eqn:E.
  - apply cut_first_spec in E as [E Hx]. assert (Hl : l = reverse y ++ c :: reverse x).
    { rewrite <- (reverse_involutive l), E, reverse_app, reverse_cons. by rewrite <- app_assoc. }
    split.
    + intros [= <- <-]. split; [done|]. by rewrite elem_of_reverse.
    + intros [-> Hb]. apply (f_equal (@reverse ascii)) in Hl. rewrite !reverse_app, !reverse_cons, !reverse_involutive in Hl.
      rewrite <- !app_assoc in Hl. cbn in Hl. rewrite <- elem_of_reverse in Hb.
      assert (H1 : cut_first c (reverse b ++ c :: reverse a) = Some (reverse b, reverse a)) by (by apply cut_first_spec).
      assert (H2 : cut_first c (x ++ c :: y) = Some (x, y)) by (by apply cut_first_spec).
      rewrite Hl, H2 in H1. injection H1 as -> ->. by rewrite !reverse_involutive.
  - apply cut_first_None in E. split; [done|]. intros [-> _]. destruct E. apply elem_of_reverse, elem_of_app. right. by left.
Qed.
Lemma cut_last_None c l : cut_last c l = None <-> c ∉ l.
Proof.
  unfold cut_last. rewrite <- elem_of_reverse, <- cut_first_None. destruct (cut_first c (reverse l)) as [[a b]|]; by split.
Qed.

(** ** Splitting and joining *)

Lemma split_chars_parts c l : Forall (fun w => c ∉ w) (split_chars c l).
Proof.
  induction l as [|x l IH]; cbn; [constructor; [apply not_elem_of_nil|constructor]|].
  destruct (Ascii.eqb_spec x c) as [->|Hne]; [constructor; [apply not_elem_of_nil|done]|].
  destruct (split_chars c l) as [|w ws]; [constructor; [apply not_elem_of_cons; split; [congruence|apply not_elem_of_nil]|done]|].
  apply Forall_cons in IH as [Hw IH]. constructor; [|done]. apply not_elem_of_cons. split; [congruence|done].
Qed.
Lemma split_chars_single c w : c ∉ w -> split_chars c w = [w].
Proof.
  induction w as [|x w IH]; [done|]. intros [Hx Hw]%not_elem_of_cons. cbn.
  destruct (Ascii.eqb_spec x c) as [->|Hne]; [congruence|]. by rewrite (IH Hw).
Qed.
Lemma split_chars_app c w l : c ∉ w -> split_chars c (w ++ c :: l) = w :: split_chars c l.
Proof.
  induction w as [|x w IH]; [cbn; by rewrite Ascii.eqb_refl|]. intros [Hx Hw]%not_elem_of_cons. cbn.
  destruct (Ascii.eqb_spec x c) as [->|Hne]; [congruence|]. by rewrite (IH Hw).
Qed.
Lemma join_cons c w ws : ws <> [] -> join (String c "") (w :: ws) = w +:+ String c "" +:+ join (String c "") ws.
Proof. by destruct ws. Qed.
Lemma split_on_join c parts :
  parts <> [] -> Forall (fun w => c ∉ chars w) parts -> split_on c (join (String c "") parts) = parts.
Proof.
  intros Hne Hp. unfold split_on. induction Hp as [|w ws Hw Hws IH]; [done|]. destruct (decide (ws = [])) as [->|Hne'].
  - cbn. rewrite split_chars_single by done. cbn. by rewrite str_chars.
  - rewrite join_cons by done. rewrite !chars_app. cbn [chars app]. change (chars (String c "")) with [c]. cbn [app].
    rewrite split_chars_app by done. cbn [map]. by rewrite str_chars, IH.
Qed.
Lemma join_split_on c s : join (String c "") (split_on c s) = s.
Proof.
  unfold split_on. rewrite <- (str_chars s) at 2. generalize (chars s). intros l. induction l as [|x l IH]; [done|]. cbn [split_chars].
  destruct (split_chars c l) as [|w ws] eqn:E; [by destruct l as [|y l]; [|cbn in E; destruct (Ascii.eqb y c), (split_chars c l)]|].
  destruct (Ascii.eqb_spec x c) as [->|Hne].
  - cbn [map]. rewrite join_cons by done. cbn [map] in IH. rewrite IH. done.
  - cbn [map] in IH |- *. destruct ws as [|w' ws].
    + change (str w = str l) in IH. by apply str_inj in IH as ->.
    + cbn [map] in IH |- *. rewrite join_cons in IH |- * by done. change (str (x :: l)) with (String x (str l)). by rewrite <- IH.
Qed.
Lemma split_on_parts c s : Forall (fun w => c ∉ chars w) (split_on c s).
Proof.
  unfold split_on. apply Forall_map. eapply Forall_impl; [apply split_chars_parts|]. intros w Hw. cbn. by rewrite chars_str.
Qed.

(** ** The characters of a match *)

Fixpoint within (f : ascii -> bool) (r : regex) : Prop :=
  match r with
  | RSet g => forall c, g c = true -> f c = true
  | RCat a b | RAlt a b => within f a /\ within f b
  | RStar a => within f a
  | _ => True
  end.
Lemma matches_within t f r i j k : within f r -> matches t r i j -> i <= k < j -> at_is f t k = true.
Proof.
  intros Hr H. revert k. induction H; intros q Hq; cbn in Hr; try lia.
  - assert (q = i) as -> by lia. unfold at_is in *. destruct (t !! i); [auto|done].
  - destruct Hr as [H1 H2]. destruct (decide (q < j)); [apply IHmatches1|apply IHmatches2]; try done; lia.
  - apply IHmatches; [apply Hr|done].
  - apply IHmatches; [apply Hr|done].
  - destruct (decide (q < j)); [apply IHmatches1|apply IHmatches2]; try done; lia.
Qed.
Lemma fullmatch_within f r s : within f r -> fullmatch r s = true -> forallb f (chars s) = true.
Proof.
  intros Hr H%fullmatch_spec. apply forallb_at_is. rewrite chars_length. intros k Hk. eapply matches_within; [done..|lia].
Qed.
Lemma within_lit f l : forallb f l = true -> within f (rlit l).
Proof.
  induction l as [|c l IH]; [done|]. intros [Hc Hl]%andb_true_iff. split; [|by apply IH]. intros c' <-%Ascii.eqb_eq. exact Hc.
Qed.
Lemma matches_lit t w i : (forall k c, w !! k = Some c -> t !! (i + k) = Some c) -> matches t (rlit w) i (i + length w).
Proof.
  revert i. induction w as [|c w IH]; intros i H; [rewrite Nat.add_0_r; constructor|]. econstructor.
  - constructor. unfold at_is. specialize (H 0 c eq_refl). rewrite Nat.add_0_r in H. rewrite H. apply Ascii.eqb_refl.
  - cbn [length]. rewrite <- Nat.add_succ_comm. apply IH. intros k c' Hk. rewrite Nat.add_succ_comm. by apply H.
Qed.
Lemma matches_rep t f n i : (forall k, i <= k < i + n -> at_is f t k = true) -> matches t (rrep n (RSet f)) i (i + n).
Proof.
  revert i. induction n as [|n IH]; intros i H; [rewrite Nat.add_0_r; constructor|]. econstructor; [constructor; apply H; lia|].
  rewrite <- Nat.add_succ_comm. apply IH. intros k Hk. apply H. lia.
Qed.
(** [^word[f]{n}$] *)
Lemma fullmatch_lit_rep w f n (l : list ascii) :
  length l = n -> forallb f l = true -> fullmatch (rcats [RBol; rword w; rrep n (RSet f); REol]) (w +:+ str l) = true.
Proof.
  intros Hn Hl. apply fullmatch_spec. econstructor; [constructor|]. econstructor; [apply (matches_lit _ (chars w) 0)|].
  { intros k c Hk. rewrite chars_app. by apply lookup_app_l_Some. }
  econstructor; [apply (matches_rep _ f n)|].
  { intros k Hk. rewrite chars_app, chars_str. unfold at_is. rewrite lookup_app_r by lia.
    destruct (lookup_lt_is_Some_2 l (k - length (chars w))) as [c Hc]; [lia|]. rewrite Hc. rewrite forallb_elem in Hl.
    apply Hl. by eapply list_elem_of_lookup_2. }
  assert (Hlen : 0 + length (chars w) + n = String.length (w +:+ str l)).
  { rewrite <- chars_length, chars_app, chars_str, length_app. lia. }
  rewrite Hlen. econstructor; [|constructor]. constructor. unfold at_eol. by rewrite chars_length, Nat.eqb_refl.
Qed.
(** Characters of a class that excludes [c]. *)
Lemma class_excludes (f : ascii -> bool) c l : f c = false -> forallb f l = true -> c ∉ l.
Proof. intros Hc Hl Hin. rewrite forallb_elem in Hl. specialize (Hl c Hin). congruence. Qed.
