(* ===== verification/Values.v ===== *)
(** * Shared domain values

    The immutable values the components exchange: tenancy, ownership, instance
    registry, database and durable-operation identities, with the validators that
    pydantic runs when one is constructed.  Sources: [odoo_forge/tenancy/types.py],
    [resource_ownership/types.py], [instance_registry/types.py],
    [durable_operations/types.py], [data_artifacts/types.py], [database/types.py]
    and [credentials/types.py]. *)

From S2P Require Import Prelude Regex.

(** ** Exceptions: the classes the modelled code raises or distinguishes *)

(** [errno] of an [OSError]: the two that the code tells apart, and all others. *)
Inductive os_error : Type := ENOENT | EEXIST | EIO.

(** The subclasses of [DatabaseProviderError] that the Docker adapters raise, those with a
    constructor of [exn] apart. *)
Inductive database_error : Type :=
| MaskBinaryUnavailableError | MaskTimeoutError | MaskCommandFailedError | InvalidMaskSelectorError
| MaskScratchUnavailableError | MaskPersistenceError | MaskSelectorNotFoundError | MaskColumnTypeUnsupportedError
| MaskUniqueColumnCollisionError | MaskNotNullColumnError | MaskScratchNotIsolatedError
| CaptureBinaryUnavailableError | CaptureTimeoutError | CaptureCommandFailedError | InvalidCaptureIdentifierError
| CapturePersistenceError | CaptureStagingSpaceError
| RestoreBinaryUnavailableError | RestoreTimeoutError | RestoreCommandFailedError | InvalidRestoreIdentifierError
| RestoreByteSourceUnavailableError | RestoreArtifactUnreadableError
| RestoreArtifactUnavailableError | RestoreArtifactIncoherentError | RestoreArtifactIntegrityError
| DockerCommandTimeoutError | DockerCommandFailedError | UnspecifiedDatabaseOperationError
| InvalidDatabaseRequestError | CredentialUnavailableError | ArtifactUnavailableError | ResourceUnavailableError
| DatabaseConflictError | DatabaseReadinessError | OwnershipRefusedError
| RollbackIncompleteError (operation : string) (owned residual_failures cleanup_failures : list string).

(** [odoo_forge.backend.errors] *)
Inductive backend_error : Type :=
| DockerUnavailableError | ImageNotFoundError | ImageAuthorizationError | PostgresReadinessError
| ContainerRunError | InstanceNotFoundError | InstanceExistsError.

Inductive exn : Type :=
| ValueError (why : string)
| TypeError (why : string)
| AssertionError
| KeyError (key : string)
| IndexError
| CompositionError (why : string)
| ProjectionError (why : string)
| ScanError (why : string)
| MountPlanningError (why : string)
| CheckoutError (why : string)
| PromotionError (why : string)
| AlreadyUnlockedError (why : string)
| MissingReceiptError
| ReceiptOverwriteRejectedError
| RuntimeError (why : string)
| AttributeError (name : string)
| ResolutionError (why : string)
| InstanceRecordNotFoundError
| InstanceRegistrationConflictError
| RegistrationValidationError
| ReplayConflictError
| RevisionConflictError
| InvalidLifecycleTransitionError (why : string)
| IncompleteTerminalCommitError (why : string)
| UnsafeCompensationError (why : string)
| CaptureIntegrityError
| CaptureNotReadyError (code : string)
| RawDeliveryRefusedError
| AnonymizationConsistencyError
| RemoteDeploymentIncompleteError (why : string)
| InvalidRemoteInputError (why : string)
| TransportFailure (unknown : bool)      (* [state]: unknown after mutation, or before it *)
| UnsupportedRegistryError (registry : string)
| MalformedImageReferenceError (why : string)
| StagedArtifactCustodyError
| StagedArtifactUnavailableError
| StagedArtifactIntegrityError
| StagedArtifactStateError
| AuthorityCustodyError
| AuthorityStateError
| CustodyTransitionConflictError
| CustodyUnverifiableError
| OSError (errno : os_error)
| TimeoutExpired                       (* subprocess.TimeoutExpired *)
| DatabaseProviderError (e : database_error)
| BackendError (e : backend_error) (detail : string)
| CredentialError                      (* odoo_forge.credentials.errors: material unavailable *)
| CredentialTargetRejectedError
| SecretInjectionError
| ManifestError (why : string)            (* the base class itself *)
| ManifestInputError (why : string)
| LockfileError (why : string)
| ModuleDependencyError (why : string)
| PortError (name : string).           (* any other exception of an adapter *)

#[export] Instance os_error_eq_dec : EqDecision os_error.
Proof. solve_decision. Defined.
#[export] Instance database_error_eq_dec : EqDecision database_error.
Proof. solve_decision. Defined.
#[export] Instance backend_error_eq_dec : EqDecision backend_error.
Proof. solve_decision. Defined.
#[export] Instance exn_eq_dec : EqDecision exn.
Proof. solve_decision. Defined.

#[export] Instance result_eq_dec {E A : Type} `{EqDecision E, EqDecision A} : EqDecision (result E A).
Proof. solve_decision. Defined.

(** ** Time

    A [datetime] counts microseconds; an aware one counts from the UTC epoch, a naive
    one has no zone.  Mixing the two raises [TypeError], as in Python.  A [timedelta]
    is a number of microseconds. *)

Record datetime : Type := DateTime { dt_us : Z; dt_aware : bool }.
#[export] Instance datetime_eq_dec : EqDecision datetime.
Proof. solve_decision. Defined.

Definition naive_aware_error : exn :=
  TypeError "can't compare or subtract offset-naive and offset-aware datetimes".

(** [a - b] *)
Definition dt_sub (a b : datetime) : result exn Z :=
  if eqb (dt_aware a) (dt_aware b) then Ok (dt_us a - dt_us b)%Z else Err naive_aware_error.

(** [a <= b] *)
Definition dt_le (a b : datetime) : result exn bool :=
  if eqb (dt_aware a) (dt_aware b) then Ok (dt_us a <=? dt_us b)%Z else Err naive_aware_error.

(** ** Tenancy and ownership *)

Record TenantId : Type := mkTenantId { tenant_value : string }.
Record ProjectScope : Type := mkProjectScope { tenant : TenantId; project_id : string }.

Inductive ResourceOwnership : Type := CREATED | ADOPTED | EXTERNAL.

Record OperationIdentity : Type := mkOperationIdentity { op_value : string }.
Record CreationReceipt : Type := mkCreationReceipt {
  cr_operation : OperationIdentity;
  cr_owned_resource_ids : list string }.

(** ** Durable-operation values *)

Record DurableOperationIdentity : Type := mkDurableOperationIdentity {
  operation_id : string;
  request_digest : string }.

Record OperationRevision : Type := mkOperationRevision { rev_value : nat }.

Record RedactedEvidence : Type := mkRedactedEvidence {
  ev_event : string;
  ev_summary : string;
  ev_references : list string }.

Record CompensationScope : Type := mkCompensationScope {
  cs_operation_id : string;
  cs_owned_resource_ids : list string }.

Record ResourceRef : Type := mkResourceRef {
  rr_identifier : string;
  rr_kind : string;
  rr_ownership : ResourceOwnership }.

Record OwnershipReceipt : Type := mkOwnershipReceipt {
  or_operation : DurableOperationIdentity;
  or_owned_resource_ids : list string;
  or_live_proof_expected : bool }.

Record OwnershipRecord : Type := mkOwnershipRecord {
  own_ref : ResourceRef;
  own_attribution : option (option string);
  own_receipt : option OwnershipReceipt }.

(** ** Instance registry and database values *)

Record InstanceId : Type := mkInstanceId { instance_value : string }.
Record InstancePointer : Type := mkInstancePointer {
  ptr_scope : ProjectScope;
  ptr_instance_id : InstanceId }.
Record InstanceRecord : Type := mkInstanceRecord {
  rec_pointer : InstancePointer;
  rec_resource : ResourceRef;
  rec_receipt : option OwnershipReceipt }.

Record DatabaseRef : Type := mkDatabaseRef {
  db_identifier : string;
  db_ownership : ResourceOwnership }.
Record DatabaseCreation : Type := mkDatabaseCreation {
  dc_ref : DatabaseRef;
  dc_receipt : CreationReceipt;
  dc_data_volume_ownership : ResourceOwnership }.
Record CleanupReport : Type := mkCleanupReport { residual_failures : list string }.
Record DatabaseSpec : Type := mkDatabaseSpec {
  ds_name : string;
  ds_network : option string;
  ds_data_volume : option string;
  ds_env : list (string * string);
  ds_labels : list (string * string) }.

Record TargetContext : Type := mkTargetContext { tc_kind : string; tc_target_id : string }.

#[export] Instance TenantId_eq_dec : EqDecision TenantId.
Proof. solve_decision. Defined.
#[export] Instance ProjectScope_eq_dec : EqDecision ProjectScope.
Proof. solve_decision. Defined.
#[export] Instance ResourceOwnership_eq_dec : EqDecision ResourceOwnership.
Proof. solve_decision. Defined.
#[export] Instance OperationIdentity_eq_dec : EqDecision OperationIdentity.
Proof. solve_decision. Defined.
#[export] Instance CreationReceipt_eq_dec : EqDecision CreationReceipt.
Proof. solve_decision. Defined.
#[export] Instance DurableOperationIdentity_eq_dec : EqDecision DurableOperationIdentity.
Proof. solve_decision. Defined.
#[export] Instance OperationRevision_eq_dec : EqDecision OperationRevision.
Proof. solve_decision. Defined.
#[export] Instance RedactedEvidence_eq_dec : EqDecision RedactedEvidence.
Proof. solve_decision. Defined.
#[export] Instance ResourceRef_eq_dec : EqDecision ResourceRef.
Proof. solve_decision. Defined.
#[export] Instance OwnershipReceipt_eq_dec : EqDecision OwnershipReceipt.
Proof. solve_decision. Defined.
#[export] Instance OwnershipRecord_eq_dec : EqDecision OwnershipRecord.
Proof. solve_decision. Defined.
#[export] Instance InstanceId_eq_dec : EqDecision InstanceId.
Proof. solve_decision. Defined.
#[export] Instance InstancePointer_eq_dec : EqDecision InstancePointer.
Proof. solve_decision. Defined.
#[export] Instance InstanceRecord_eq_dec : EqDecision InstanceRecord.
Proof. solve_decision. Defined.
#[export] Instance DatabaseRef_eq_dec : EqDecision DatabaseRef.
Proof. solve_decision. Defined.
#[export] Instance DatabaseCreation_eq_dec : EqDecision DatabaseCreation.
Proof. solve_decision. Defined.

(** ** Text validators *)

Definition is_alnum (c : ascii) : bool := is_lower c || is_upper c || is_digit c.
Definition one_of (s : string) (c : ascii) : bool := existsb (Ascii.eqb c) (chars s).

(** [[A-Za-z0-9_-]] *)
Definition identifier_char (c : ascii) : bool := is_alnum c || one_of "_-" c.

(** Pattern [^[A-Za-z0-9_-]+$], used with [fullmatch]. *)
Definition SAFE_IDENTIFIER : regex := rcats [RBol; rplus (RSet identifier_char); REol].

Definition opt_dash : regex := ropt (RSet (one_of "_-")).

Definition SENSITIVE_TEXT : regex := ignore_case (ralts [
  rcats [RWordB;
         ralts [rcats [rword "api"; opt_dash; rword "key"];
                rcats [rword "artifact"; opt_dash; rword "bytes"];
                rword "authorization"; rword "bearer"; rword "credential"; rword "password";
                rword "passwd"; rword "secret"; rword "token"];
         RWordB; RStar (RSet is_space); ropt (RSet (one_of "=:"))];
  rword "://"; rword "@"]).

Definition is_safe_identifier (value : string) : bool :=
  fullmatch SAFE_IDENTIFIER value && negb (search SENSITIVE_TEXT value).

(** [RedactedEvidence(event=..., summary=..., references=...)] with its validators. *)
Definition redacted_evidence (event summary : string) (references : list string)
    : result exn RedactedEvidence :=
  ensure (negb (bool_decide (event = "")) && negb (search SENSITIVE_TEXT event) &&
          negb (bool_decide (summary = "")) && negb (search SENSITIVE_TEXT summary))
    (ValueError "durable evidence must not contain sensitive or connection material") ;!
  ensure (forallb is_safe_identifier references)
    (ValueError "durable evidence references must be safe opaque identifiers") ;!
  Ok (mkRedactedEvidence event summary references).

(** [CompensationScope(...)] and [owns]. *)
Definition compensation_scope (operation_id : string) (owned : list string)
    : result exn CompensationScope :=
  ensure (forallb is_safe_identifier owned)
    (ValueError "owned resource IDs must be safe opaque identifiers") ;!
  Ok (mkCompensationScope operation_id owned).

Definition owns (s : CompensationScope) (resource_id : string) : bool :=
  bool_decide (resource_id ∈ cs_owned_resource_ids s).

Definition matches_request_digest (i : DurableOperationIdentity) (digest : string) : bool :=
  bool_decide (request_digest i = digest).

(** *** [data_artifacts/types.py] *)

Definition alnum_dash (c : ascii) : bool := is_alnum c || one_of "-" c.

Definition HOSTNAME_TEXT : regex :=
  rcats [RWordB;
         ralts [rword "localhost";
                rcats [rplus (rcats [rplus (RSet alnum_dash); rchar "."%char]);
                       rplus (RSet alnum_dash)];
                rcats [rplus (RSet alnum_dash); rchar ":"%char; rplus (RSet is_digit)]];
         RWordB].

Definition CREDENTIAL_SHAPED_TEXT : regex :=
  rcats [RWordB; ralts [rword "AKIA"; rword "ASIA"];
         rrep 16 (RSet (fun c => is_upper c || is_digit c)); RWordB].

Definition lower_alnum (c : ascii) : bool := is_lower c || is_digit c.

Definition SECRET_OR_CONNECTION_TEXT : regex := ignore_case (ralts [
  rcats [RNotBehind lower_alnum;
         RStar (rcats [rplus (RSet lower_alnum); rplus (RSet (one_of "_-"))]);
         ralts [rcats [rword "api"; opt_dash; ralts [rword "key"; rword "token"]];
                rword "authorization"; rword "bearer"; rword "credential"; rword "password";
                rword "passwd"; rword "secret"; rword "token"];
         RStar (rcats [rplus (RSet (one_of "_-")); rplus (RSet lower_alnum)]);
         RNotAhead lower_alnum; RStar (RSet is_space); ropt (RSet (one_of "=:"))];
  rword "://"; rword "@"]).

Definition safe_opaque_identifier (value : string) : bool :=
  negb (bool_decide (value = "")) && fullmatch SAFE_IDENTIFIER value &&
  negb (search SECRET_OR_CONNECTION_TEXT value) && negb (search HOSTNAME_TEXT value) &&
  negb (search CREDENTIAL_SHAPED_TEXT value).

Definition require_safe_opaque_identifier (value field_name : string) : result exn string :=
  if safe_opaque_identifier value then Ok value
  else Err (ValueError (field_name +:+ " must be a safe opaque identifier")).

(** [DataArtifactRef(value)] and [RecoveryPoint(value)] are validated strings. *)
Definition data_artifact_ref (value : string) : result exn string :=
  require_safe_opaque_identifier value "data artifact reference".
Definition recovery_point (value : string) : result exn string :=
  require_safe_opaque_identifier value "recovery point".

(** *** [database/types.py]: residual identifiers of a cleanup report *)

Definition RESIDUAL_FAILURE_IDENTIFIER : regex :=
  rcats [RBol; RSet is_lower; rupto 63 (RSet (fun c => lower_alnum c || one_of "-" c)); REol].

Definition SENSITIVE_RESIDUAL_TERMS : list string :=
  ["artifact"; "bytes"; "credential"; "dump"; "password"; "secret"; "token"].

Fixpoint is_prefix (a b : list ascii) : bool :=
  match a, b with
  | [], _ => true
  | x :: a', y :: b' => Ascii.eqb x y && is_prefix a' b'
  | _, [] => false
  end.

(** [term in text] *)
Fixpoint contains (a b : list ascii) : bool :=
  is_prefix a b || match b with [] => false | _ :: b' => contains a b' end.

Definition safe_residual (value : string) : bool :=
  fullmatch RESIDUAL_FAILURE_IDENTIFIER value &&
  negb (existsb (fun term => contains (chars term) (chars (lower value)))
    SENSITIVE_RESIDUAL_TERMS).

Definition cleanup_report (values : list string) : result exn CleanupReport :=
  ensure (forallb safe_residual values)
    (ValueError "cleanup residual failures must be safe opaque identifiers") ;!
  Ok (mkCleanupReport values).

(** ** What the validators guarantee *)

Lemma is_safe_identifier_chars value :
  is_safe_identifier value = true ->
  value ≠ "" /\ forallb identifier_char (chars value) = true.
Proof.
  unfold is_safe_identifier. rewrite andb_true_iff. intros [H _].
  by apply fullmatch_class_plus.
Qed.

Lemma safe_opaque_identifier_chars value :
  safe_opaque_identifier value = true ->
  value ≠ "" /\ forallb identifier_char (chars value) = true.
Proof.
  unfold safe_opaque_identifier. rewrite !andb_true_iff. intros ((((_ & H) & _) & _) & _).
  by apply fullmatch_class_plus.
Qed.

Lemma require_safe_opaque_identifier_Ok value field v :
  require_safe_opaque_identifier value field = Ok v <->
  v = value /\ safe_opaque_identifier value = true.
Proof. unfold require_safe_opaque_identifier. destruct (safe_opaque_identifier value); naive_solver. Qed.
