(* ===== verification/Encodings.v ===== *)
(** * Byte encodings

    [base64] with the URL-safe alphabet as [base64.urlsafe_b64encode], [urlsafe_b64decode] and
    [b64decode(..., altchars=b"-_", validate=True)] compute it, UTF-8 as [bytes.decode] reads
    it, and [int.from_bytes].  A byte is an [ascii]; a text that is encoded or decoded is held
    as the bytes of its UTF-8 form. *)

From Stdlib Require Import NArith.
From S2P Require Import Prelude Values.

Definition byte_value (c : ascii) : N := N_of_ascii c.
Definition byte_of (n : N) : ascii := ascii_of_N n.

(** ** Base 64 *)

(** The letter of six bits, [-] and [_] for 62 and 63. *)
Definition letter (n : N) : ascii :=
  if (n <? 26)%N then byte_of (65 + n)
  else if (n <? 52)%N then byte_of (71 + n)
  else if (n <? 62)%N then byte_of (n - 4)
  else if (n =? 62)%N then "-"%char else "_"%char.
(** The bits of a letter.  [altchars] only adds two letters: [+] and [/] keep their meaning. *)
Definition sextet (c : ascii) : option N :=
  if is_upper c then Some (byte_value c - 65)%N
  else if is_lower c then Some (byte_value c - 71)%N
  else if is_digit c then Some (byte_value c + 4)%N
  else if Ascii.eqb c "-"%char || Ascii.eqb c "+"%char then Some 62%N
  else if Ascii.eqb c "_"%char || Ascii.eqb c "/"%char then Some 63%N
  else None.
Definition equals_sign : ascii := "="%char.

(** [base64.urlsafe_b64encode] *)
Fixpoint b64encode (l : list ascii) : list ascii :=
  match l with
  | [] => []
  | [a] => let a := byte_value a in [letter (a / 4); letter (a mod 4 * 16); equals_sign; equals_sign]
  | [a; b] =>
    let a := byte_value a in let b := byte_value b in
    [letter (a / 4); letter (a mod 4 * 16 + b / 16); letter (b mod 16 * 4); equals_sign]
  | a :: b :: c :: l' =>
    let a := byte_value a in let b := byte_value b in let c := byte_value c in
    letter (a / 4) :: letter (a mod 4 * 16 + b / 16) :: letter (b mod 16 * 4 + c / 64) :: letter (c mod 64) :: b64encode l'
  end%N.

(** [binascii.a2b_base64(strict_mode=True)]: letters in fours, the last four padded with [=] and
    followed by nothing; [None] is [binascii.Error].  Unused bits are not looked at. *)
Fixpoint b64decode (l : list ascii) : option (list ascii) :=
  match l with
  | [] => Some []
  | p :: q :: r :: s :: l' =>
    match sextet p, sextet q with
    | Some a, Some b =>
      if Ascii.eqb r equals_sign then
        if Ascii.eqb s equals_sign && bool_decide (l' = []) then Some [byte_of (a * 4 + b / 16)] else None
      else
        match sextet r with
        | Some c =>
          if Ascii.eqb s equals_sign then
            if bool_decide (l' = []) then Some [byte_of (a * 4 + b / 16); byte_of (b mod 16 * 16 + c / 4)] else None
          else
            match sextet s, b64decode l' with
            | Some d, Some rest =>
              Some (byte_of (a * 4 + b / 16) :: byte_of (b mod 16 * 16 + c / 4) :: byte_of (c mod 4 * 64 + d) :: rest)
            | _, _ => None
            end
        | None => None
        end
    | _, _ => None
    end
  | _ => None
  end%N.

(** ["=" * (-len(text) % 4)] *)
Definition padding (l : list ascii) : list ascii := repeat equals_sign ((4 - length l mod 4) mod 4).
(** [text.rstrip("=")] *)
Definition unpadded (l : list ascii) : list ascii := rdrop_while (Ascii.eqb equals_sign) l.

(** ** UTF-8 *)

(** A continuation byte, and its six bits. *)
Definition tail_byte (c : ascii) : option N :=
  let n := byte_value c in if ((128 <=? n) && (n <? 192))%N then Some (n - 128)%N else None.
(** [bytes.decode("utf-8")]: the code points; [None] is [UnicodeDecodeError].  Overlong forms,
    surrogates and values above U+10FFFF are refused; [errors="surrogatepass"] lets the
    surrogates pass. *)
Fixpoint code_points (surrogatepass : bool) (l : list ascii) : option (list N) :=
  match l with
  | [] => Some []
  | a :: l1 =>
    let n := byte_value a in
    if (n <? 128)%N then option_map (cons n) (code_points surrogatepass l1)
    else match l1 with
    | b :: l2 =>
      match tail_byte b with
      | None => None
      | Some x =>
        if ((194 <=? n) && (n <? 224))%N then option_map (cons ((n - 192) * 64 + x)%N) (code_points surrogatepass l2)
        else match l2 with
        | c :: l3 =>
          match tail_byte c with
          | None => None
          | Some y =>
            if ((224 <=? n) && (n <? 240))%N then
              let p := ((n - 224) * 4096 + x * 64 + y)%N in
              if ((p <? 2048) || negb surrogatepass && (55296 <=? p) && (p <? 57344))%N then None
              else option_map (cons p) (code_points surrogatepass l3)
            else match l3 with
            | d :: l4 =>
              match tail_byte d with
              | None => None
              | Some z =>
                if ((240 <=? n) && (n <? 245))%N then
                  let p := ((n - 240) * 262144 + x * 4096 + y * 64 + z)%N in
                  if ((p <? 65536) || (1114111 <? p))%N then None
                  else option_map (cons p) (code_points surrogatepass l4)
                else None
              end
            | [] => None
            end
          end
        | [] => None
        end
      end
    | [] => None
    end
  end.
Definition utf8 (l : list ascii) : bool := match code_points false l with Some _ => true | None => false end.

(** [str.isspace] of one character. *)
Definition space_point (n : N) : bool :=
  ((9 <=? n) && (n <=? 13) || (28 <=? n) && (n <=? 32) || (n =? 133) || (n =? 160) || (n =? 5760) ||
   (8192 <=? n) && (n <=? 8202) || (n =? 8232) || (n =? 8233) || (n =? 8239) || (n =? 8287) || (n =? 12288))%N.
(** [not text.strip()] *)
Definition blank (text : string) : bool :=
  match code_points false (chars text) with Some ps => forallb space_point ps | None => false end.

(** [int.from_bytes(bytes, "big")] *)
Definition from_bytes_big (l : list ascii) : N := foldl (fun acc c => acc * 256 + byte_value c)%N 0%N l.

(** ** Round trips *)

Lemma byte_value_lt c : (byte_value c < 256)%N.
Proof. apply N_ascii_bounded. Qed.
Lemma byte_of_value c : byte_of (byte_value c) = c.
Proof. apply ascii_N_embedding. Qed.

(** The sixty-four letters, by computation. *)
Lemma all_letters : forallb (fun n => bool_decide (sextet (letter (N.of_nat n)) = Some (N.of_nat n)) &&
  identifier_char (letter (N.of_nat n))) (seq 0 64) = true.
Proof. by vm_compute. Qed.
Lemma letter_sound n : (n < 64)%N -> sextet (letter n) = Some n /\ identifier_char (letter n) = true.
Proof.
  intros Hn. pose proof (proj1 (forallb_forall _ _) all_letters (N.to_nat n)) as H.
  cbv beta in H. rewrite N2Nat.id in H. destruct (andb_prop _ _ (H ltac:(apply in_seq; lia))) as [H1 H2].
  split; [by apply bool_decide_eq_true in H1|done].
Qed.
Lemma sextet_letter n : (n < 64)%N -> sextet (letter n) = Some n.
Proof. apply letter_sound. Qed.
Lemma letter_identifier n : (n < 64)%N -> identifier_char (letter n) = true.
Proof. apply letter_sound. Qed.
Lemma identifier_no_pad c : identifier_char c = true -> Ascii.eqb c equals_sign = false.
Proof. intros H. by destruct (Ascii.eqb_spec c equals_sign) as [->|]. Qed.
Lemma letter_no_pad n : (n < 64)%N -> Ascii.eqb (letter n) equals_sign = false.
Proof. intros H. by apply identifier_no_pad, letter_identifier. Qed.

(** Lists taken three at a time. *)
Lemma by_threes (P : list ascii -> Prop) :
  P [] -> (forall a, P [a]) -> (forall a b, P [a; b]) -> (forall a b c l, P l -> P (a :: b :: c :: l)) -> forall l, P l.
Proof.
  intros H0 H1 H2 H3 l. enough (P l /\ (forall a, P (a :: l)) /\ (forall a b, P (a :: b :: l))) by tauto.
  induction l as [|x l (IH0 & IH1 & IH2)]; auto.
Qed.

(** Goals on the bytes of some characters: their ranges, then linear arithmetic. *)
Ltac bits := repeat match goal with
  | c : ascii |- _ => let n := fresh "n" in
    pose proof (byte_value_lt c); set (n := byte_value c) in *; clearbody n; clear c
  end; repeat split; zify; Z.to_euclidean_division_equations; lia.
Lemma first_byte a : (byte_value a / 4 < 64 /\ byte_value a mod 4 * 16 < 64 /\
  byte_value a / 4 * 4 + (byte_value a mod 4 * 16) / 16 = byte_value a)%N.
Proof. bits. Qed.
Lemma first_two a b : (byte_value a mod 4 * 16 + byte_value b / 16 < 64 /\ byte_value b mod 16 * 4 < 64 /\
  byte_value a / 4 * 4 + (byte_value a mod 4 * 16 + byte_value b / 16) / 16 = byte_value a /\
  (byte_value a mod 4 * 16 + byte_value b / 16) mod 16 * 16 + (byte_value b mod 16 * 4) / 4 = byte_value b)%N.
Proof. bits. Qed.
Lemma last_two a b c : (byte_value b mod 16 * 4 + byte_value c / 64 < 64 /\ byte_value c mod 64 < 64 /\
  (byte_value a mod 4 * 16 + byte_value b / 16) mod 16 * 16 + (byte_value b mod 16 * 4 + byte_value c / 64) / 4 = byte_value b /\
  (byte_value b mod 16 * 4 + byte_value c / 64) mod 4 * 64 + byte_value c mod 64 = byte_value c)%N.
Proof. bits. Qed.

Theorem b64decode_encode l : b64decode (b64encode l) = Some l.
Proof.
  induction l as [|a|a b|a b c l IH] using by_threes; [done|..].
  - destruct (first_byte a) as (? & ? & E). cbn [b64encode b64decode]. rewrite !sextet_letter by done.
    rewrite !Ascii.eqb_refl, bool_decide_eq_true_2 by done. cbn [andb]. by rewrite E, byte_of_value.
  - destruct (first_byte a) as (? & _ & _). destruct (first_two a b) as (? & ? & E1 & E2).
    cbn [b64encode b64decode]. rewrite !sextet_letter, letter_no_pad, Ascii.eqb_refl, bool_decide_eq_true_2 by done.
    by rewrite E1, E2, !byte_of_value.
  - destruct (first_byte a) as (? & _ & _). destruct (first_two a b) as (? & _ & E1 & _).
    destruct (last_two a b c) as (? & ? & E2 & E3).
    cbn [b64encode b64decode]. rewrite !sextet_letter, !letter_no_pad, IH by done.
    by rewrite E1, E2, E3, !byte_of_value.
Qed.

Lemma padding_four a b c d l : padding (a :: b :: c :: d :: l) = padding l.
Proof. unfold padding. cbn [length]. replace (S (S (S (S (length l))))) with (length l + 1 * 4) by lia. by rewrite Nat.Div0.mod_add. Qed.

(** The encoding without its padding, which is what [padding] restores. *)
Lemma b64encode_body l : exists body, b64encode l = body ++ padding body /\ Forall (fun c => identifier_char c = true) body.
Proof.
  induction l as [|a|a b|a b c l (body & E & Hb)] using by_threes; cbn [b64encode]; cbv zeta.
  - by exists [].
  - exists [letter (byte_value a / 4); letter (byte_value a mod 4 * 16)]. split; [done|].
    destruct (first_byte a) as (? & ? & _). repeat constructor; by apply letter_identifier.
  - eexists [_; _; _]. split; [done|]. destruct (first_byte a) as (? & _). destruct (first_two a b) as (? & ? & _).
    repeat constructor; by apply letter_identifier.
  - exists (letter (byte_value a / 4) :: letter (byte_value a mod 4 * 16 + byte_value b / 16)
      :: letter (byte_value b mod 16 * 4 + byte_value c / 64) :: letter (byte_value c mod 64) :: body).
    rewrite padding_four, E. split; [done|].
    destruct (first_byte a) as (? & _). destruct (first_two a b) as (? & _). destruct (last_two a b c) as (? & ? & _).
    repeat constructor; by first [done|apply letter_identifier].
Qed.

Lemma rdrop_while_app f l t : Forall (fun c => f c = false) l -> Forall (fun c => f c = true) t -> rdrop_while f (l ++ t) = l.
Proof.
  intros Hl Ht. unfold rdrop_while. rewrite reverse_app. replace (drop_while f (reverse t ++ reverse l)) with (reverse l); [by rewrite reverse_involutive|].
  apply Forall_reverse in Hl, Ht. induction Ht as [|x r Hx _ IH]; cbn; [|by rewrite Hx].
  destruct Hl as [|x r Hx _]; cbn; [done|by rewrite Hx].
Qed.

Lemma unpadded_body body : Forall (fun c => identifier_char c = true) body -> unpadded (body ++ padding body) = body.
Proof.
  intros Hb. apply rdrop_while_app.
  - eapply Forall_impl; [exact Hb|]. intros c Hc. rewrite Ascii.eqb_sym. by apply identifier_no_pad.
  - apply Forall_forall. intros x Hx. apply list_elem_of_In, repeat_spec in Hx as ->. apply Ascii.eqb_refl.
Qed.

(** What is left of an encoding without its padding: the padding can be restored. *)
Lemma unpadded_encode l : unpadded (b64encode l) ++ padding (unpadded (b64encode l)) = b64encode l /\
  forallb identifier_char (unpadded (b64encode l)) = true /\ (unpadded (b64encode l) = [] -> l = []).
Proof.
  destruct (b64encode_body l) as (body & E & Hb). rewrite E, (unpadded_body body Hb). split_and!; [done| |].
  - apply forallb_forall. intros x Hx. rewrite Forall_forall in Hb. by apply Hb, list_elem_of_In.
  - intros ->. by destruct l as [|? [|? [|? ?]]].
Qed.
