(* ===== verification/Readiness.v ===== *)
(** * Gate readiness ([odoo_forge/database/readiness.py])

    [evaluate_gate_readiness] lists what is missing before the database provider's gate opens;
    [ready_spec] says when nothing is. *)

From S2P Require Import Prelude.

Definition MAX_REVIEW_LINES : Z := 400.
Definition REQUIRED_ARCHIVED_EVIDENCE : list (string * string) :=
  [("wf_data_copy_closure_id", "#4406"); ("wf_data_copy_acceptance_id", "#4396"); ("wf_data_copy_verification_id", "#4398");
   ("control_plane_archive_id", "#4469"); ("control_plane_verification_id", "#4463"); ("approved_decision_id", "#4500")].

(** The opaque proof: code outside the adapters cannot make one, [__new__] raises. *)
Inductive RuntimeOwnershipEvidence : Type := MintedByAdapter.
Record DeliverySliceEvidence : Type := mkSlice {
  slice_id : string;
  parent_slice_id : option string;
  line_count : Z;
  verification_command : string;
  rollback_boundary : string
}.
Record GateReadinessEvidence : Type := mkEvidence {
  wf_data_copy_closure_id : option string;
  wf_data_copy_acceptance_id : option string;
  wf_data_copy_verification_id : option string;
  control_plane_archive_id : option string;
  control_plane_verification_id : option string;
  approved_decision_id : option string;
  current_evidence_ids : list string;                    (* a [frozenset] *)
  runtime_ownership_evidence : option RuntimeOwnershipEvidence;
  delivery_line_count : option Z;
  delivery_strategy : option string;
  chain_strategy : option string;
  delivery_slices : list DeliverySliceEvidence
}.
Record GateReadiness : Type := mkReadiness { is_ready : bool; missing_identifiers : list string }.

(** [getattr(evidence, field_name)] on the fields the loop names. *)
Definition getattr (e : GateReadinessEvidence) (field_name : string) : option string :=
  if bool_decide (field_name = "wf_data_copy_closure_id") then wf_data_copy_closure_id e
  else if bool_decide (field_name = "wf_data_copy_acceptance_id") then wf_data_copy_acceptance_id e
  else if bool_decide (field_name = "wf_data_copy_verification_id") then wf_data_copy_verification_id e
  else if bool_decide (field_name = "control_plane_archive_id") then control_plane_archive_id e
  else if bool_decide (field_name = "control_plane_verification_id") then control_plane_verification_id e
  else approved_decision_id e.
(** [missing.append(name)] when the condition holds. *)
Definition missing_if (c : bool) (name : string) : list string := if c then [name] else [].

Definition archived_missing (e : GateReadinessEvidence) : list string :=
  concat (map (fun f => missing_if (negb (bool_decide (getattr e f.1 = Some f.2))) f.1) REQUIRED_ARCHIVED_EVIDENCE) ++
  concat (map (fun f => missing_if (negb (bool_decide (f.2 ∈ current_evidence_ids e))) (f.1 +:+ "_current")) REQUIRED_ARCHIVED_EVIDENCE).

Definition in_review (n : Z) : bool := ((0 <? n) && (n <=? MAX_REVIEW_LINES))%Z.
Definition valid_counts (n : Z) (slices : list DeliverySliceEvidence) : bool :=
  negb (bool_decide (slices = [])) && (foldr Z.add 0 (map line_count slices) =? n)%Z && forallb (fun s => in_review (line_count s)) slices.
Definition bounded_slice (s : DeliverySliceEvidence) : bool :=
  negb (bool_decide (slice_id s = "")) && negb (bool_decide (verification_command s = "")) && negb (bool_decide (rollback_boundary s = "")).
(** Each slice after the first names the one before it. *)
Fixpoint follows (previous : string) (slices : list DeliverySliceEvidence) : bool :=
  match slices with
  | [] => true
  | s :: slices' => bool_decide (parent_slice_id s = Some previous) && follows (slice_id s) slices'
  end.
Definition linked (slices : list DeliverySliceEvidence) : bool :=
  match slices with
  | [] => false
  | s :: slices' =>
    bool_decide (NoDup (map slice_id slices)) && bool_decide (parent_slice_id s = None) && follows (slice_id s) slices'
  end.
Definition delivery_missing (e : GateReadinessEvidence) (n : Z) : list string :=
  let slices := delivery_slices e in
  missing_if (negb (valid_counts n slices)) (if (MAX_REVIEW_LINES <? n)%Z then "oversized_delivery" else "delivery_slices") ++
  (if forallb bounded_slice slices then [] else ["slice_verification_boundary"; "slice_rollback_boundary"]) ++
  (if (MAX_REVIEW_LINES <? n)%Z then
     missing_if (negb (bool_decide (delivery_strategy e = Some "auto-chain")) || negb (bool_decide (chain_strategy e = Some "stacked-to-main")))
       "autonomous_auto_chain" ++
     missing_if (negb (linked slices)) "auto_chain_linkage"
   else []).
Definition evaluate_gate_readiness (e : GateReadinessEvidence) : GateReadiness :=
  let missing :=
    archived_missing e ++
    missing_if (negb (bool_decide (is_Some (runtime_ownership_evidence e)))) "runtime_ownership_evidence" ++
    match delivery_line_count e with Some n => delivery_missing e n | None => [] end in
  mkReadiness (bool_decide (missing = [])) missing.

(** ** What readiness means *)

(** The archived decisions, by name. *)
Definition archived (e : GateReadinessEvidence) : Prop :=
  wf_data_copy_closure_id e = Some "#4406" /\ wf_data_copy_acceptance_id e = Some "#4396" /\
  wf_data_copy_verification_id e = Some "#4398" /\ control_plane_archive_id e = Some "#4469" /\
  control_plane_verification_id e = Some "#4463" /\ approved_decision_id e = Some "#4500" /\
  forall id, id ∈ ["#4406"; "#4396"; "#4398"; "#4469"; "#4463"; "#4500"] -> id ∈ current_evidence_ids e.
(** A delivery whose slices can be reviewed, verified and rolled back one by one. *)
Definition reviewable (n : Z) (slices : list DeliverySliceEvidence) : Prop :=
  slices <> [] /\ foldr Z.add 0%Z (map line_count slices) = n /\
  forall s, s ∈ slices -> (1 <= line_count s <= 400)%Z /\ slice_id s <> "" /\ verification_command s <> "" /\ rollback_boundary s <> "".
(** A chain: distinct slices, the first without a parent, every other one on its predecessor. *)
Definition chained (slices : list DeliverySliceEvidence) : Prop :=
  NoDup (map slice_id slices) /\ (forall s, slices !! 0 = Some s -> parent_slice_id s = None) /\
  forall i s s', slices !! i = Some s -> slices !! S i = Some s' -> parent_slice_id s' = Some (slice_id s).
Definition deliverable (e : GateReadinessEvidence) : Prop :=
  forall n, delivery_line_count e = Some n ->
    reviewable n (delivery_slices e) /\
    ((400 < n)%Z -> delivery_strategy e = Some "auto-chain" /\ chain_strategy e = Some "stacked-to-main" /\ chained (delivery_slices e)).

Lemma missing_if_nil c name : missing_if c name = [] <-> c = false.
Proof. by destruct c. Qed.
Lemma follows_spec previous slices : follows previous slices = true <->
  (forall s, slices !! 0 = Some s -> parent_slice_id s = Some previous) /\
  forall i s s', slices !! i = Some s -> slices !! S i = Some s' -> parent_slice_id s' = Some (slice_id s).
Proof.
  revert previous. induction slices as [|s slices IH]; intros previous; cbn [follows]; [by split|].
  rewrite andb_true_iff, bool_decide_eq_true, IH. split.
  - intros (Hp & H0 & Hs). split; [by intros ? [= <-]|]. intros [|i] a b Ha Hb; [injection Ha as <-; by apply H0|by apply (Hs i)].
  - intros [H0 Hs]. split; [by apply H0|]. split; [intros a Ha; by apply (Hs 0)|]. intros i a b Ha Hb. by apply (Hs (S i)).
Qed.
Lemma linked_spec slices : slices <> [] -> (linked slices = true <-> chained slices).
Proof.
  intros Hne. destruct slices as [|s slices]; [done|]. unfold linked, chained. rewrite !andb_true_iff, !bool_decide_eq_true, follows_spec. split.
  - intros [[Hnd Hp] [H0 Hs]]. split_and!; [done|by intros ? [= <-]|]. intros [|i] a b Ha Hb; [injection Ha as <-; by apply H0|by apply (Hs i)].
  - intros (Hnd & H0 & Hs). split_and!; [done|by apply H0|intros a Ha; by apply (Hs 0)|]. intros i a b Ha Hb. by apply (Hs (S i)).
Qed.
Lemma reviewable_spec n slices : valid_counts n slices = true /\ forallb bounded_slice slices = true <-> reviewable n slices.
Proof.
  unfold valid_counts, reviewable, bounded_slice, in_review, MAX_REVIEW_LINES.
  rewrite !andb_true_iff, negb_true_iff, bool_decide_eq_false, Z.eqb_eq, !forallb_elem.
  setoid_rewrite andb_true_iff. setoid_rewrite andb_true_iff. setoid_rewrite negb_true_iff. setoid_rewrite bool_decide_eq_false.
  setoid_rewrite Z.ltb_lt. setoid_rewrite Z.leb_le. split.
  - intros [[[Hne Hsum] Hc] Hb]. split_and!; [done..|]. intros s Hs. destruct (Hc s Hs), (Hb s Hs) as [[? ?] ?]. split_and!; [lia..|done|done|done].
  - intros (Hne & Hsum & H). split_and!; [done|done| |]; intros s Hs; destruct (H s Hs) as (? & ? & ? & ?); split_and!; try done; lia.
Qed.
Lemma app_nil_iff {A} (a b : list A) : a ++ b = [] <-> a = [] /\ b = [].
Proof. split; [apply app_nil|by intros [-> ->]]. Qed.
Lemma all_present {A} (c : A -> bool) (name : A -> string) l :
  concat (map (fun f => missing_if (negb (c f)) (name f)) l) = [] <-> Forall (fun f => c f = true) l.
Proof.
  induction l as [|f l IH]; [by split|]. cbn [map concat].
  by rewrite app_nil_iff, missing_if_nil, negb_false_iff, Forall_cons, IH.
Qed.
Lemma archived_missing_nil e : archived_missing e = [] <-> archived e.
Proof.
  unfold archived_missing, archived. rewrite app_nil_iff, !all_present. unfold REQUIRED_ARCHIVED_EVIDENCE.
  rewrite !Forall_cons, !bool_decide_eq_true. cbn [fst snd]. split.
  - intros ((H1 & H2 & H3 & H4 & H5 & H6 & _) & (? & ? & ? & ? & ? & ? & _)). split_and!; [exact H1|exact H2|exact H3|exact H4|exact H5|exact H6|].
    intros id. rewrite !elem_of_cons. intros [->|[->|[->|[->|[->|[->|?%not_elem_of_nil]]]]]]; done.
  - intros (H1 & H2 & H3 & H4 & H5 & H6 & Hc).
    split; [|split_and!; [apply Hc; set_solver..|done]]. split; [exact H1|]. split; [exact H2|]. split; [exact H3|]. split; [exact H4|].
    split; [exact H5|]. split; [exact H6|done].
Qed.

(** the gate is ready exactly when every archived decision is the required one and current, the
    adapters have minted runtime evidence, and the delivery, when its size is stated, is cut into
    slices that can be reviewed, verified and rolled back, chained when it is too large for one
    review; and whatever is missing is reported. *)
Theorem gate_is_ready e : is_ready (evaluate_gate_readiness e) = true <->
  archived e /\ is_Some (runtime_ownership_evidence e) /\ deliverable e.
Proof.
  unfold evaluate_gate_readiness. cbn [is_ready]. rewrite bool_decide_eq_true.
  rewrite !app_nil_iff, archived_missing_nil, missing_if_nil, negb_false_iff, bool_decide_eq_true.
  enough (match delivery_line_count e with Some n => delivery_missing e n | None => [] end = [] <-> deliverable e) as -> by done.
  unfold deliverable. destruct (delivery_line_count e) as [n|]; [|by split; [intros _ n [=]|]].
  unfold delivery_missing. rewrite !app_nil_iff, missing_if_nil, negb_false_iff.
  assert (Hb : (if forallb bounded_slice (delivery_slices e) then [] else ["slice_verification_boundary"; "slice_rollback_boundary"]) = [] <->
    forallb bounded_slice (delivery_slices e) = true) by by destruct (forallb _ _).
  rewrite Hb. clear Hb. unfold MAX_REVIEW_LINES. split.
  - intros (Hc & Hb & Hl) m [= <-]. assert (reviewable n (delivery_slices e)) as Hr by by apply reviewable_spec.
    split; [done|]. intros Hn%Z.ltb_lt. rewrite Hn in Hl. apply app_nil_iff in Hl as [Hs Hl].
    rewrite missing_if_nil, orb_false_iff, !negb_false_iff, !bool_decide_eq_true in Hs. rewrite missing_if_nil, negb_false_iff in Hl.
    destruct Hs. split_and!; [done..|]. apply linked_spec; [by destruct Hr|done].
  - intros H. destruct (H n eq_refl) as [Hr Hn]. pose proof (proj2 (reviewable_spec n _) Hr) as [Hc Hb]. split_and!; [done..|].
    destruct (400 <? n)%Z eqn:E; [|done]. apply Z.ltb_lt in E. destruct (Hn E) as (-> & -> & Hch). apply app_nil_iff.
    split; [done|]. rewrite missing_if_nil, negb_false_iff. apply linked_spec; [by destruct Hr|done].
Qed.

(** A delivery of 700 lines in two slices. *)
Definition sample_slices : list DeliverySliceEvidence :=
  [mkSlice "s1" None 400 "pytest -q" "revert s1"; mkSlice "s2" (Some "s1") 300 "pytest -q" "revert s2"].
Definition sample_evidence (strategy : string) : GateReadinessEvidence :=
  mkEvidence (Some "#4406") (Some "#4396") (Some "#4398") (Some "#4469") (Some "#4463") (Some "#4500")
    ["#4406"; "#4396"; "#4398"; "#4469"; "#4463"; "#4500"] (Some MintedByAdapter) (Some 700%Z) (Some strategy) (Some "stacked-to-main") sample_slices.
Example sample_is_ready : is_ready (evaluate_gate_readiness (sample_evidence "auto-chain")) = true.
Proof. by vm_compute. Qed.
Example sample_is_not_ready : missing_identifiers (evaluate_gate_readiness (sample_evidence "single")) = ["autonomous_auto_chain"].
Proof. by vm_compute. Qed.
