(* ===== verification/Filesystem.v ===== *)
(** * The operating system's file calls

    The calls of [os], [pathlib] and [shutil] the stores use, as a signature of effects,
    and a sequential POSIX file system that answers them.  A path is the list of its
    segments from the root; links are not followed except by [exists].  The handler
    injects failures: before each call it consults a schedule, and a scheduled failure
    raises [OSError] and changes nothing. *)

From S2P Require Import Prelude Effects Values.

Definition fpath : Type := list string.

Inductive node : Type := NDir | NFile (content : string) | NLink (target : fpath).
Inductive file_type : Type := TDir | TReg | TLnk.
#[export] Instance file_type_eq_dec : EqDecision file_type.
Proof. solve_decision. Defined.
#[export] Instance node_eq_dec : EqDecision node.
Proof. solve_decision. Defined.

(** What [lstat] reports: type, owner and permission bits. *)
Record file_stat : Type := mkStat { st_type : file_type; st_uid : nat; st_mode : Z }.
Record inode : Type := mkInode { i_node : node; i_uid : nat; i_mode : Z }.
#[export] Instance inode_eq_dec : EqDecision inode.
Proof. solve_decision. Defined.

Definition type_of (n : node) : file_type :=
  match n with NDir => TDir | NFile _ => TReg | NLink _ => TLnk end.
Definition stat_of (i : inode) : file_stat := mkStat (type_of (i_node i)) (i_uid i) (i_mode i).

Inductive fs_op : Type -> Type :=
| PathExists (p : fpath) : fs_op bool
| Lstat (p : fpath) : fs_op file_stat
| Mkdir (p : fpath) (mode : Z) : fs_op unit
| OpenRead (p : fpath) : fs_op unit                  (* O_RDONLY | O_NOFOLLOW *)
| OpenCreate (p : fpath) (mode : Z) : fs_op unit     (* O_WRONLY | O_CREAT | O_EXCL | O_NOFOLLOW *)
| Fstat (p : fpath) : fs_op file_stat                (* the descriptor opened at [p] *)
| Chmod (p : fpath) (mode : Z) : fs_op unit
| WriteFd (p : fpath) (data : string) : fs_op nat
| ReadFd (p : fpath) : fs_op string                  (* until the end of the file *)
| Fsync (p : fpath) : fs_op unit
| CloseFd (p : fpath) : fs_op unit
| Replace (src dst : fpath) : fs_op unit
| Move (src dst : fpath) : fs_op unit
| Unlink (p : fpath) : fs_op unit
| Glob (dir : fpath) (suffix : string) : fs_op (list string)
| OpenLock (p : fpath) (mode : Z) : fs_op unit       (* O_RDWR | O_CREAT | O_NOFOLLOW *)
| Flock (p : fpath) : fs_op unit                     (* LOCK_EX *)
| Funlock (p : fpath) : fs_op unit                   (* LOCK_UN *)
| TokenHex (n : nat) : fs_op string                  (* [secrets.token_hex] *)
| GenerateKey : fs_op string.                        (* a fresh private key, in base64 *)

Abbreviation fs := (gmap fpath inode).

Definition parent (p : fpath) : fpath := removelast p.
Definition is_dir (s : fs) (p : fpath) : bool :=
  match s !! p with Some i => bool_decide (i_node i = NDir) | None => false end.

(** The names directly under [dir] that end in [suffix]. *)
Definition names_under (s : fs) (dir : fpath) (suffix : string) : list string :=
  omap (M:=list) (fun kv => match last kv.1 with
    | Some n => if decide (parent kv.1 = dir /\ chars suffix `suffix_of` chars n) then Some n else None
    | None => None end) (map_to_list s).

Record world : Type := mkWorld { w_fs : fs; w_faults : list bool }.

(** The failure schedule: [None] when the next call fails. *)
Definition step_world (w : world) : option world :=
  match w_faults w with
  | true :: _ => None
  | false :: l => Some (mkWorld (w_fs w) l)
  | [] => Some w
  end.
Definition fail_world (w : world) : world := mkWorld (w_fs w) (tail (w_faults w)).

Section Posix.
(** The process's user, the bytes one [write] accepts, and the random token; locks are
    never contended. *)
Variable uid : nat.
Variable quantum : nat.
Variable token : string.

Definition rename (s : fs) (src dst : fpath) : result exn unit * fs :=
  match s !! src with
  | None => (Err (OSError ENOENT), s)
  | Some i =>
    if bool_decide (i_node i = NDir) || is_dir s dst || negb (is_dir s (parent dst)) then (Err (OSError EIO), s)
    else (Ok tt, <[dst := i]> (delete src s))
  end.

(** One call on the file system, no failure injected. *)
Definition fs_call (R : Type) (e : fs_op R) (s : fs) : result exn R * fs :=
  match e in fs_op R return result exn R * fs with
  | PathExists p => (Ok match s !! p with
                    | Some (mkInode (NLink t) _ _) => bool_decide (is_Some (s !! t))
                    | Some _ => true
                    | None => false end, s)
  | Lstat p | Fstat p => (match s !! p with Some i => Ok (stat_of i) | None => Err (OSError ENOENT) end, s)
  | Mkdir p mode =>
    match s !! p with
    | Some _ => (Err (OSError EEXIST), s)
    | None => if is_dir s (parent p) then (Ok tt, <[p := mkInode NDir uid mode]> s) else (Err (OSError ENOENT), s)
    end
  | OpenRead p =>
    (match s !! p with
     | None => Err (OSError ENOENT)
     | Some (mkInode (NLink _) _ _) => Err (OSError EIO)
     | Some _ => Ok tt end, s)
  | OpenCreate p mode =>
    match s !! p with
    | Some _ => (Err (OSError EEXIST), s)
    | None => if is_dir s (parent p) then (Ok tt, <[p := mkInode (NFile "") uid mode]> s) else (Err (OSError ENOENT), s)
    end
  | Chmod p mode =>
    match s !! p with
    | None => (Err (OSError ENOENT), s)
    | Some (mkInode (NLink _) _ _) => (Err (OSError EIO), s)
    | Some (mkInode n u _) => (Ok tt, <[p := mkInode n u mode]> s)
    end
  | WriteFd p data =>
    match s !! p with
    | Some (mkInode (NFile c) u m) =>
      let n := Nat.min quantum (String.length data) in
      (Ok n, <[p := mkInode (NFile (c +:+ str (take n (chars data)))) u m]> s)
    | _ => (Err (OSError EIO), s)
    end
  | ReadFd p =>
    (match s !! p with Some (mkInode (NFile c) _ _) => Ok c | _ => Err (OSError EIO) end, s)
  | Fsync _ | CloseFd _ | Flock _ | Funlock _ => (Ok tt, s)
  | OpenLock p mode =>
    match s !! p with
    | Some (mkInode (NFile _) _ _) => (Ok tt, s)
    | Some _ => (Err (OSError EIO), s)
    | None => if is_dir s (parent p) then (Ok tt, <[p := mkInode (NFile "") uid mode]> s) else (Err (OSError ENOENT), s)
    end
  | Replace src dst | Move src dst => rename s src dst
  | Unlink p =>
    match s !! p with
    | None => (Err (OSError ENOENT), s)
    | Some i => if bool_decide (i_node i = NDir) then (Err (OSError EIO), s) else (Ok tt, delete p s)
    end
  | Glob dir suffix => (Ok (names_under s dir suffix), s)
  | TokenHex _ => (Ok token, s)
  | GenerateKey => (Ok ("key-" +:+ token), s)
  end.

Definition posix : handler (E := fs_op) (X := exn) world :=
  fun R e w =>
    match e in fs_op R return result exn R * world with
    | TokenHex _ => (Ok token, w)
    | GenerateKey => (Ok ("key-" +:+ token), w)
    | e =>
      match step_world w with
      | None => (Err (OSError EIO), fail_world w)
      | Some w1 => let '(r, s) := fs_call _ e (w_fs w1) in (r, mkWorld s (w_faults w1))
      end
    end.
End Posix.

(** ** Frames: the paths a call may change *)

Definition writes (R : Type) (e : fs_op R) : list fpath :=
  match e with
  | Mkdir p _ | OpenCreate p _ | OpenLock p _ | Chmod p _ | WriteFd p _ | Unlink p => [p]
  | Replace a b | Move a b => [a; b]
  | _ => []
  end.

Definition leaves (q : fpath) (R : Type) (e : fs_op R) : Prop := q ∉ writes R e.

Lemma rename_frame s a b q : q ∉ [a; b] -> (rename s a b).2 !! q = s !! q.
Proof.
  rewrite !not_elem_of_cons. intros (? & ? & _). unfold rename. destruct (s !! a); [|done].
  destruct (_ || _); [done|]. simpl. rewrite lookup_insert_ne, lookup_delete_ne; done.
Qed.

Lemma fs_call_frame uid quantum token R (e : fs_op R) s q :
  leaves q R e -> (fs_call uid quantum token R e s).2 !! q = s !! q.
Proof.
  unfold leaves. destruct e; cbn [writes fs_call]; intros Hq; try done;
    try (by apply rename_frame);
    rewrite not_elem_of_cons in Hq; destruct Hq as [Hq _];
    repeat case_match; simpl; rewrite ?lookup_insert_ne, ?lookup_delete_ne; done.
Qed.

Lemma step_world_fs w w' : step_world w = Some w' -> w_fs w' = w_fs w.
Proof. unfold step_world. destruct (w_faults w) as [|[]]; naive_solver. Qed.

Lemma posix_frame uid quantum token R (e : fs_op R) w q :
  leaves q R e -> w_fs (posix uid quantum token R e w).2 !! q = w_fs w !! q.
Proof.
  intros Hq. assert (Hcall : forall w1, step_world w = Some w1 ->
    w_fs (let '(r, s) := fs_call uid quantum token R e (w_fs w1) in (r, mkWorld s (w_faults w1))).2 !! q = w_fs w !! q).
  { intros w1 <-%step_world_fs. pose proof (fs_call_frame uid quantum token R e (w_fs w1) q Hq) as H.
    by destruct (fs_call _ _ _ _ _ _). }
  unfold posix. destruct e; try done; (destruct (step_world w); [by apply Hcall|done]).
Qed.

(** A failed call changes nothing; a successful one is [fs_call]. *)
Lemma fs_call_Err uid quantum token R (e : fs_op R) s x :
  (fs_call uid quantum token R e s).1 = Err x -> (fs_call uid quantum token R e s).2 = s.
Proof.
  destruct e; cbn [fs_call]; try done; intros H; repeat case_match; try done; unfold rename in *;
    repeat case_match; done.
Qed.

Lemma posix_Err uid quantum token R (e : fs_op R) w x w' :
  posix uid quantum token R e w = (Err x, w') -> w_fs w' = w_fs w.
Proof.
  assert (Hcall : forall w1, step_world w = Some w1 ->
    (let '(r, s) := fs_call uid quantum token R e (w_fs w1) in (r, mkWorld s (w_faults w1))) = (Err x, w') ->
    w_fs w' = w_fs w).
  { intros w1 <-%step_world_fs. pose proof (fs_call_Err uid quantum token R e (w_fs w1) x) as He.
    destruct (fs_call _ _ _ _ _ _) as [r s]. intros [= -> <-]. by apply He. }
  unfold posix. destruct e; try done; (destruct (step_world w) as [w1|]; [by apply Hcall|by intros [= <- <-]]).
Qed.

Lemma posix_Ok uid quantum token R (e : fs_op R) w a w' :
  posix uid quantum token R e w = (Ok a, w') -> fs_call uid quantum token R e (w_fs w) = (Ok a, w_fs w').
Proof.
  assert (Hcall : forall w1, step_world w = Some w1 ->
    (let '(r, s) := fs_call uid quantum token R e (w_fs w1) in (r, mkWorld s (w_faults w1))) = (Ok a, w') ->
    fs_call uid quantum token R e (w_fs w) = (Ok a, w_fs w')).
  { intros w1 <-%step_world_fs. destruct (fs_call _ _ _ _ _ _) as [r s]. by intros [= -> <-]. }
  unfold posix. destruct e; try (by intros [= <- <-]);
    (destruct (step_world w) as [w1|]; [by apply Hcall|done]).
Qed.

(** The world in which nothing fails. *)
Definition quiet (s : fs) : world := mkWorld s [].

Lemma posix_quiet uid quantum token R (e : fs_op R) s :
  posix uid quantum token R e (quiet s) =
  ((fs_call uid quantum token R e s).1, quiet (fs_call uid quantum token R e s).2).
Proof. unfold posix, quiet. destruct e; try done; cbn [step_world w_faults w_fs]; by destruct (fs_call _ _ _ _ _ _). Qed.

(** A program that leaves a path alone. *)
Lemma frame {A : Type} uid quantum token (p : prog fs_op exn A) w r w' q :
  only (leaves q) p -> leads (posix uid quantum token) p w r w' -> w_fs w' !! q = w_fs w !! q.
Proof.
  intros Hp H.
  apply (only_leads (posix uid quantum token) (leaves q) (fun w1 w2 => w_fs w2 !! q = w_fs w1 !! q) p w r w');
    [by intros ?|by intros ???->| |done..].
  intros R e w0. apply posix_frame.
Qed.
