(* ===== verification/Custody.v ===== *)
(** * Private local custody

    The idioms both on-disk stores share ([staged_store.py] and [authority.py]): the checks
    that a path is a private entry of this user, and the write of a temporary file that is
    then moved over the destination.  The stores differ in the exceptions they raise, which
    are parameters here. *)

From S2P Require Import Prelude Effects Values Filesystem.

Definition store_prog := prog fs_op exn.

Definition DIRECTORY_MODE : Z := 448.          (* 0o700 *)
Definition FILE_MODE : Z := 384.               (* 0o600 *)
Definition is_os_error (e : exn) : bool := match e with OSError _ => true | _ => false end.

(** [try: p except OSError as exc: raise x from exc] *)
Definition or_raise {A : Type} (p : store_prog A) (x : exn) : store_prog A :=
  catch p (fun e => Raise (if is_os_error e then x else e)).

(** [with suppress(OSError): p] *)
Definition suppress_os (p : store_prog unit) : store_prog unit :=
  catch p (fun e => if is_os_error e then Ret tt else Raise e).

(** [path.unlink(missing_ok=True)] *)
Definition unlink_missing_ok (p : fpath) : store_prog unit :=
  catch (call (Unlink p)) (fun e => if bool_decide (e = OSError ENOENT) then Ret tt else Raise e).

(** [try: p finally: os.close(descriptor)]: an exception of the close wins. *)
Definition closing {A : Type} (p : store_prog A) (fd : fpath) : store_prog A :=
  let* r := attempt p in call (CloseFd fd) ;* lift r.

Section Custody.
(** The process's user, and the store's custody exception. *)
Variable getuid : nat.
Variable custody_error : exn.

Definition private_stat (st : file_stat) (mode : Z) (directory : bool) : bool :=
  bool_decide (st_type st = if directory then TDir else TReg) &&
  (st_uid st =? getuid) && (st_mode st =? mode)%Z.

Definition validate_private_path (p : fpath) (mode : Z) (directory : bool) : store_prog unit :=
  let* st := or_raise (call (Lstat p)) custody_error in
  if negb (private_stat st mode directory) then Raise custody_error else Ret tt.

(** [mkdir(mode)] that tolerates an existing entry, then the custody check. *)
Definition make_private_dir (p : fpath) : store_prog unit :=
  catch (call (Mkdir p DIRECTORY_MODE))
    (fun e => match e with
              | OSError EEXIST => Ret tt
              | OSError _ => Raise custody_error
              | _ => Raise e end) ;*
  validate_private_path p DIRECTORY_MODE true.
(** Open for reading without following links; absence is left to the caller. *)
Definition open_private_file (p : fpath) : store_prog fpath :=
  catch (call (OpenRead p))
    (fun e => match e with
              | OSError ENOENT => Raise e
              | OSError _ => Raise custody_error
              | _ => Raise e end) ;*
  let* checked := attempt (validate_private_path p FILE_MODE false) in
  match checked with
  | Ok _ => Ret p
  | Err e => call (CloseFd p) ;* Raise e
  end.

End Custody.

(** ** Writing a temporary file and moving it into place *)

(** [while remaining]: each [os.write] takes at least one byte, so the fuel
    [length remaining] suffices. *)
Fixpoint write_loop (fuel : nat) (fd : fpath) (remaining : list ascii) : store_prog unit :=
  match remaining, fuel with
  | [], _ => Ret tt
  | _, O => Ret tt
  | _, S fuel' =>
    let* written := call (WriteFd fd (str remaining)) in
    if written =? 0 then Raise (OSError EIO) else write_loop fuel' fd (drop written remaining)
  end.
Definition write_all (fd : fpath) (payload : string) : store_prog unit :=
  write_loop (String.length payload) fd (chars payload).

(** The body of the [try]; it returns or raises with the flag "a descriptor is still open". *)
Definition write_body (temporary path : fpath) (payload : string) : store_prog (result exn unit * bool) :=
  let* opened := attempt (call (OpenCreate temporary FILE_MODE)) in
  match opened with
  | Err e => Ret (Err e, false)
  | Ok _ =>
    let* written := attempt (call (Chmod temporary FILE_MODE) ;* write_all temporary payload ;*
                             call (Fsync temporary) ;* call (CloseFd temporary)) in
    match written with
    | Err e => Ret (Err e, true)
    | Ok _ => let* replaced := attempt (call (Replace temporary path)) in Ret (replaced, false)
    end
  end.

(** [_write_atomic] from the opening of the temporary file on, with its [finally]. *)
Definition commit_file (state_error : exn) (temporary path : fpath) (payload : string) : store_prog unit :=
  let* '(r, still_open) := write_body temporary path payload in
  (if still_open : bool then call (CloseFd temporary) else Ret tt) ;*
  catch (call (Unlink temporary))
    (fun e => match e with
              | OSError ENOENT => Ret tt
              | OSError _ => Raise state_error
              | _ => Raise e end) ;*
  match r with
  | Ok _ => Ret tt
  | Err e => Raise (if is_os_error e then state_error else e)
  end.

(** * Facts about private custody

    Stepping through programs in a world where nothing fails, which files count as private,
    and the atomic write under every schedule of failures. *)

Lemma leads_or_raise {W A : Type} (h : handler (E:=fs_op) (X:=exn) W) (p : store_prog A) x w r w' :
  leads h (or_raise p x) w r w' <->
  exists r0, leads h p w r0 w' /\ r = match r0 with Ok a => Ok a | Err e => Err (if is_os_error e then x else e) end.
Proof.
  unfold or_raise. rewrite leads_catch. split.
  - intros ([a|e] & w1 & H & Hk); [destruct Hk as [-> ->]|apply leads_Raise in Hk as [-> ->]]; eauto.
  - intros ([a|e] & H & ->); [exists (Ok a), w'|exists (Err e), w']; [done|]. split; [done|by apply (leads_Raise h)].
Qed.

Ltac leaves := solve_only; unfold leaves; cbn [writes]; rewrite ?not_elem_of_cons; auto using not_elem_of_nil.

Section Facts.
Context {uid quantum : nat} {token : string}.

Abbreviation posix := (posix uid quantum token).

(** ** Programs that only look, in a world where nothing fails *)

Definition looks {A : Type} (p : store_prog A) (s : fs) (r : result exn A) : Prop :=
  leads posix p (quiet s) r (quiet s).

Lemma looks_fun {A : Type} (p : store_prog A) s r1 r2 w :
  looks p s r1 -> leads posix p (quiet s) r2 w -> r2 = r1 /\ w = quiet s.
Proof. intros H1 H2. destruct (leads_fun _ _ _ _ _ _ _ H1 H2) as [-> ->]. done. Qed.

Lemma looks_call {R : Type} (e : fs_op R) s :
  (fs_call uid quantum token R e s).2 = s -> looks (call e) s (fs_call uid quantum token R e s).1.
Proof. intros H. apply leads_call. by rewrite posix_quiet, H. Qed.

Lemma looks_bind {A B : Type} (p : store_prog A) (k : A -> store_prog B) s r r' :
  looks p s r -> match r with Ok a => looks (k a) s r' | Err x => r' = Err x end -> looks (bind p k) s r'.
Proof. intros H Hk. apply leads_bind. destruct r as [a|x]; [left; eauto|right; eauto]. Qed.

Lemma looks_attempt {A B : Type} (p : store_prog A) (k : result exn A -> store_prog B) s r r' :
  looks p s r -> looks (k r) s r' -> looks (bind (attempt p) k) s r'.
Proof. intros H Hk. apply leads_attempt_bind. eauto. Qed.

Lemma looks_catch {A : Type} (p : store_prog A) f s r r' :
  looks p s r -> match r with Ok a => r' = Ok a | Err x => looks (f x) s r' end -> looks (catch p f) s r'.
Proof. intros H Hk. apply leads_catch. exists r, (quiet s). by destruct r. Qed.

Lemma looks_or_raise {A : Type} (p : store_prog A) x s r :
  looks p s r -> looks (or_raise p x) s (match r with Ok a => Ok a | Err e => Err (if is_os_error e then x else e) end).
Proof. intros H. apply leads_or_raise. eauto. Qed.

Lemma looks_Ret {A : Type} (a : A) s : looks (Ret a) s (Ok a).
Proof. by apply (leads_Ret posix). Qed.
Lemma looks_Raise {A : Type} x s : looks (Raise x : store_prog A) s (Err x).
Proof. by apply (leads_Raise posix). Qed.
Lemma looks_lift {A : Type} (r : result exn A) s : looks (lift r) s r.
Proof. by apply (leads_lift posix). Qed.

Lemma looks_validate e p mode dir s :
  looks (validate_private_path uid e p mode dir) s
    (match s !! p with
     | Some i => if private_stat uid (stat_of i) mode dir then Ok tt else Err e
     | None => Err e end).
Proof.
  eapply looks_bind; [apply looks_or_raise, looks_call; done|]. cbn [fs_call fst].
  destruct (s !! p) as [i|]; [|done]. destruct (private_stat _ _ _ _); [apply looks_Ret|apply looks_Raise].
Qed.

Lemma looks_closing {A : Type} (p : store_prog A) fd s r : looks p s r -> looks (closing p fd) s r.
Proof.
  intros H. eapply looks_attempt; [exact H|]. eapply looks_bind; [apply looks_call; done|]. apply looks_lift.
Qed.

(** A private regular file of this user. *)
Definition private_file (i : inode) : option string :=
  match i_node i with
  | NFile text => if (i_uid i =? uid) && (i_mode i =? FILE_MODE)%Z then Some text else None
  | _ => None
  end.

Lemma private_stat_file i :
  private_stat uid (stat_of i) FILE_MODE false = bool_decide (is_Some (private_file i)).
Proof.
  unfold private_stat, private_file, stat_of. destruct i as [n u m]; cbn [st_type st_uid st_mode i_node i_uid i_mode].
  destruct n; cbn [type_of]; [done| |done].
  rewrite bool_decide_true by done. cbn [andb]. destruct (_ && _) eqn:E; [by rewrite bool_decide_true by eauto|].
  symmetry. apply bool_decide_false. by intros [? ?].
Qed.

Lemma private_file_node i bytes : private_file i = Some bytes -> i_node i = NFile bytes.
Proof. unfold private_file. destruct (i_node i); try done. destruct (_ && _); [|done]. by intros [= ->]. Qed.

Lemma parent_snoc (d : fpath) n : parent (d ++ [n]) = d.
Proof. unfold parent. apply removelast_last. Qed.

Lemma string_app_inj_r (a b c : string) : a +:+ c = b +:+ c -> a = b.
Proof. intros H%(f_equal chars). rewrite !chars_app in H. apply app_inv_tail in H. by apply chars_inj. Qed.

(** ** Writing *)

Lemma write_loop_leaves q fd fuel l : q ≠ fd -> only (leaves q) (write_loop fuel fd l).
Proof.
  intros Hq. revert l. induction fuel as [|fuel IH]; intros [|c l]; cbn [write_loop]; solve_only.
  unfold leaves. cbn [writes]. by rewrite list_elem_of_singleton.
Qed.

Lemma write_loop_content fd l : forall fuel w w' c,
  length l <= fuel -> w_fs w !! fd = Some (mkInode (NFile c) uid FILE_MODE) ->
  leads posix (write_loop fuel fd l) w (Ok tt) w' ->
  w_fs w' !! fd = Some (mkInode (NFile (c +:+ str l)) uid FILE_MODE).
Proof.
  induction l as [l IH] using (induction_ltof1 _ length). intros fuel w w' c Hfuel Hfd H.
  destruct l as [|x l]; [destruct fuel|destruct fuel as [|fuel]; [cbn in Hfuel; lia|]].
  1,2: cbn [write_loop] in H; apply leads_Ret in H as [_ ->]; rewrite Hfd; do 3 f_equal;
    apply chars_inj; by rewrite chars_app, app_nil_r.
  cbn [write_loop] in H. apply leads_bind_call in H.
  destruct (posix nat (WriteFd fd (str (x :: l))) w) as [[n|e] w1] eqn:Ew; [|by destruct H].
  apply posix_Ok in Ew. cbn [fs_call] in Ew. rewrite Hfd in Ew. injection Ew as <- Ew.
  rewrite <- chars_length, chars_str in *. 
  change (S (length l)) with (length (x :: l)) in *. set (n := Nat.min quantum (length (x :: l))) in *.
  destruct (Nat.eqb_spec n 0) as [|Hn]; [by apply leads_Raise in H as [? _]|].
  apply (IH (drop n (x :: l))) with (c := c +:+ str (take n (x :: l))) in H.
  - rewrite H. do 3 f_equal. apply chars_inj. rewrite !chars_app, !chars_str, <- app_assoc. by rewrite take_drop.
  - unfold ltof. rewrite length_drop. cbn [length]. lia.
  - rewrite length_drop. lia.
  - rewrite <- Ew. by rewrite lookup_insert_eq.
Qed.

Lemma leads_call_frame {R : Type} (e : fs_op R) w r w' q :
  posix R e w = (r, w') -> leaves q R e -> w_fs w' !! q = w_fs w !! q.
Proof. intros E Hq. pose proof (posix_frame uid quantum token R e w q Hq) as H. by rewrite E in H. Qed.

(** A successful write: the descriptor's file holds the payload, privately. *)
Lemma written_content tmp payload w w' :
  leads posix (call (OpenCreate tmp FILE_MODE) ;* call (Chmod tmp FILE_MODE) ;* write_all tmp payload ;*
              call (Fsync tmp) ;* call (CloseFd tmp)) w (Ok tt) w' ->
  w_fs w' !! tmp = Some (mkInode (NFile payload) uid FILE_MODE).
Proof.
  intros H. apply leads_bind_call in H. destruct (posix unit (OpenCreate tmp FILE_MODE) w) as [[[]|e] w1] eqn:E1;
    [|by destruct H].
  apply posix_Ok in E1. cbn [fs_call] in E1.
  assert (H1 : w_fs w1 !! tmp = Some (mkInode (NFile "") uid FILE_MODE)).
  { destruct (w_fs w !! tmp); [done|]. destruct (is_dir _ _); [|done]. injection E1 as <-. apply lookup_insert_eq. }
  clear E1. apply leads_bind_call in H. destruct (posix unit (Chmod tmp FILE_MODE) w1) as [[[]|e] w2] eqn:E2;
    [|by destruct H].
  apply posix_Ok in E2. cbn [fs_call] in E2. rewrite H1 in E2. injection E2 as E2.
  assert (H2 : w_fs w2 !! tmp = Some (mkInode (NFile "") uid FILE_MODE)) by (rewrite <- E2; apply lookup_insert_eq).
  apply leads_bind in H as [([] & w3 & H3 & H)|(x & [=] & _)].
  eapply write_loop_content in H3; [|by rewrite chars_length|exact H2]. rewrite str_chars in H3.
  transitivity (w_fs w3 !! tmp); [|exact H3]. eapply (frame uid quantum token (call (Fsync tmp) ;* call (CloseFd tmp))); [|exact H].
  solve_only; unfold leaves; cbn; apply not_elem_of_nil.
Qed.

Lemma write_all_leaves q fd payload : q ≠ fd -> only (leaves q) (write_all fd payload).
Proof. apply write_loop_leaves. Qed.
Hint Resolve write_all_leaves : only.

Lemma write_body_leaves q tmp p payload :
  q ≠ tmp -> q ≠ p -> only (leaves q) (write_body tmp p payload).
Proof. intros. unfold write_body. leaves. Qed.

(** Until the final replacement, only the temporary file changes. *)
Lemma write_body_spec tmp p payload w r w' :
  p ≠ tmp -> leads posix (write_body tmp p payload) w r w' ->
  exists o still, r = Ok (o, still) /\
    match o with
    | Ok _ => still = false /\ w_fs w' !! p = Some (mkInode (NFile payload) uid FILE_MODE)
    | Err _ => w_fs w' !! p = w_fs w !! p
    end.
Proof.
  intros Hp H. unfold write_body in H. apply leads_attempt_bind in H as ([[]|e] & w1 & H1 & H).
  2:{ apply leads_Ret in H as [-> ->]. exists (Err e), false. split; [done|].
      apply leads_call in H1. by apply posix_Err in H1 as ->. }
  apply leads_attempt_bind in H as (written & w2 & H2 & H).
  assert (Hframe : w_fs w2 !! p = w_fs w !! p).
  { transitivity (w_fs w1 !! p).
    - eapply frame; [|exact H2]. leaves.
    - eapply frame; [|exact H1]. leaves. }
  destruct written as [[]|e]; [|apply leads_Ret in H as [-> ->]; by exists (Err e), true].
  assert (Hc : w_fs w2 !! tmp = Some (mkInode (NFile payload) uid FILE_MODE)).
  { apply (written_content tmp payload w). apply leads_bind. left. eauto. }
  apply leads_attempt_bind in H as (replaced & w3 & H3 & H). apply leads_Ret in H as [-> ->].
  exists replaced, false. split; [done|]. apply leads_call in H3.
  destruct replaced as [[]|e]; [|by apply posix_Err in H3 as ->].
  split; [done|]. apply posix_Ok in H3. cbn [fs_call] in H3. unfold rename in H3. rewrite Hc in H3.
  destruct (_ || _); [done|]. injection H3 as <-. apply lookup_insert_eq.
Qed.

Lemma leads_unlink_missing_ok p s r w' :
  leads posix (unlink_missing_ok p) (quiet s) r w' -> is_dir s p = false ->
  r = Ok tt /\ w' = quiet (delete p s).
Proof.
  intros H Hd. unfold unlink_missing_ok in H. apply leads_catch in H as (r0 & w1 & H & Hk).
  apply leads_call in H. rewrite posix_quiet in H. cbn [fs_call] in H. unfold is_dir in Hd.
  destruct (s !! p) as [i|] eqn:Ei; cbn [fst snd] in H.
  - rewrite Hd in H. injection H as <- <-. by destruct Hk as [-> ->].
  - injection H as <- <-. rewrite bool_decide_true in Hk by done. apply leads_Ret in Hk as [-> ->].
    by rewrite delete_id.
Qed.


(** Opening a private file for reading. *)
Lemma looks_open_private_file e p s :
  looks (open_private_file uid e p) s
    (match s !! p with
     | None => Err (OSError ENOENT)
     | Some i => match private_file i with Some _ => Ok p | None => Err e end
     end).
Proof.
  eapply looks_bind.
  - eapply looks_catch; [apply (looks_call (OpenRead p)); done|]. cbn [fs_call fst].
    instantiate (1 := match s !! p with None => Err (OSError ENOENT) | Some i =>
      match i_node i with NLink _ => Err e | _ => Ok tt end end).
    destruct (s !! p) as [[[] ? ?]|]; cbn [i_node]; try done; apply looks_Raise.
  - destruct (s !! p) as [i|] eqn:Ei; [|done].
    assert (Hlink : forall t, i_node i = NLink t -> private_file i = None) by (by unfold private_file; intros t ->).
    destruct (i_node i) as [|t|t] eqn:En; [| |by rewrite (Hlink t)].
    all: eapply looks_attempt; [apply looks_validate|]; rewrite Ei, private_stat_file;
      destruct (private_file i) as [x|]; cbn;
        [apply looks_Ret|eapply looks_bind; [apply looks_call; done|]; apply looks_Raise].
Qed.

(** Reading an opened private file to its end. *)
Lemma looks_read_private p i text s :
  s !! p = Some i -> private_file i = Some text -> looks (call (ReadFd p)) s (Ok text).
Proof.
  intros Hi Hf. pose proof (looks_call (ReadFd p) s eq_refl) as H. cbn [fs_call fst] in H. rewrite Hi in H.
  apply private_file_node in Hf. destruct i as [n u md]; cbn in Hf; subst n. exact H.
Qed.

Lemma commit_file_leaves q e tmp p payload :
  q ≠ tmp -> q ≠ p -> only (leaves q) (commit_file e tmp p payload).
Proof. intros Ht Hp. pose proof (write_body_leaves q). unfold commit_file. leaves. Qed.

(** The atomic write replaces the file or leaves it, whatever fails on the way. *)
Lemma commit_file_spec e tmp p payload w r w' :
  p ≠ tmp -> leads posix (commit_file e tmp p payload) w r w' ->
  w_fs w' !! p = Some (mkInode (NFile payload) uid FILE_MODE) \/ w_fs w' !! p = w_fs w !! p /\ r ≠ Ok tt.
Proof.
  intros Hp H. unfold commit_file in H. apply leads_bind in H as [(o & w2 & H2 & H)|(x & -> & H)].
  2:{ apply write_body_spec in H as (? & ? & [=] & _). done. }
  apply write_body_spec in H2 as (r2 & still & [= ->] & H2); [|done].
  assert (E2 : w_fs w' !! p = w_fs w2 !! p).
  { eapply frame; [|exact H]. leaves. }
  rewrite E2. destruct r2 as [[]|x]; [by left; destruct H2|]. right. split; [done|]. intros ->.
  apply leads_bind in H as [(? & w3 & _ & H)|(? & [=] & _)].
  apply leads_bind in H as [(? & w4 & _ & H)|(? & [=] & _)].
  by apply leads_Raise in H as [? _].
Qed.

Lemma make_private_dir_leaves q e d : q ≠ d -> only (leaves q) (make_private_dir uid e d).
Proof. intros. unfold make_private_dir, validate_private_path, or_raise. leaves. Qed.

(** ** What a successful check established, under any schedule of failures *)

Lemma validate_Ok e p mode dir w w' :
  leads posix (validate_private_path uid e p mode dir) w (Ok tt) w' ->
  exists i, w_fs w !! p = Some i /\ private_stat uid (stat_of i) mode dir = true.
Proof.
  intros H. unfold validate_private_path in H. apply leads_bind in H as [(st & w1 & H1 & H)|(x & [=] & _)].
  apply leads_or_raise in H1 as (r & H1 & E). destruct r as [st'|]; [injection E as ->|done].
  apply leads_call, posix_Ok in H1. cbn [fs_call] in H1. destruct (w_fs w !! p) as [i|]; [|done]. injection H1 as <- _.
  exists i. split; [done|]. destruct (private_stat _ _ _ _); [done|]. by apply leads_Raise in H as [? _].
Qed.

Lemma open_private_Ok e p w fd w' :
  leads posix (open_private_file uid e p) w (Ok fd) w' ->
  fd = p /\ exists i text, w_fs w !! p = Some i /\ private_file i = Some text.
Proof.
  intros H. unfold open_private_file in H. apply leads_bind in H as [([] & w1 & H1 & H)|(x & [=] & _)].
  assert (E1 : w_fs w1 !! p = w_fs w !! p) by (eapply frame; [|exact H1]; leaves).
  apply leads_attempt_bind in H as (checked & w2 & H2 & H). destruct checked as [[]|x].
  - apply leads_Ret in H as [[= ->] _]. split; [done|]. apply validate_Ok in H2 as (i & Hi & Hs).
    rewrite E1 in Hi. rewrite private_stat_file, bool_decide_eq_true in Hs. destruct Hs as [text Ht]. eauto.
  - apply leads_bind in H as [(? & ? & _ & [? _]%leads_Raise)|(? & [=] & _)]. done.
Qed.

Lemma closing_Ok {A : Type} (p : store_prog A) fd w a w' :
  leads posix (closing p fd) w (Ok a) w' -> exists w1, leads posix p w (Ok a) w1.
Proof.
  intros H. unfold closing in H. apply leads_attempt_bind in H as (r & w1 & H1 & H).
  apply leads_bind in H as [(? & w2 & _ & [-> _]%leads_lift)|(? & [=] & _)]. eauto.
Qed.

Lemma read_private_Ok p w text w' :
  leads posix (call (ReadFd p)) w (Ok text) w' -> exists i, w_fs w !! p = Some i /\ i_node i = NFile text.
Proof.
  intros H. apply leads_call, posix_Ok in H. cbn [fs_call] in H.
  destruct (w_fs w !! p) as [[[] u m]|]; try done. injection H as <- _. by eexists.
Qed.

(** ** Programs that run to their end in a world where nothing fails *)

Definition does {A : Type} (p : store_prog A) (s : fs) (r : result exn A) (s' : fs) : Prop :=
  leads posix p (quiet s) r (quiet s').

Lemma looks_does {A : Type} (p : store_prog A) s r : looks p s r -> does p s r s.
Proof. done. Qed.

Lemma does_call {R : Type} (e : fs_op R) s r s' : fs_call uid quantum token R e s = (r, s') -> does (call e) s r s'.
Proof. intros H. apply leads_call. by rewrite posix_quiet, H. Qed.

Lemma does_then {A B : Type} (p : store_prog A) (k : A -> store_prog B) s a s1 r s2 :
  does p s (Ok a) s1 -> does (k a) s1 r s2 -> does (bind p k) s r s2.
Proof. intros H Hk. apply leads_bind. left; eauto. Qed.

Lemma does_attempt {A B : Type} (p : store_prog A) (k : result exn A -> store_prog B) s r s1 r' s2 :
  does p s r s1 -> does (k r) s1 r' s2 -> does (bind (attempt p) k) s r' s2.
Proof. intros H Hk. apply leads_attempt_bind. eauto. Qed.

Lemma does_catch {A : Type} (p : store_prog A) f s r s1 r' s2 :
  does p s r s1 -> match r with Ok a => r' = Ok a /\ s2 = s1 | Err x => does (f x) s1 r' s2 end -> does (catch p f) s r' s2.
Proof. intros H Hk. apply leads_catch. exists r, (quiet s1). destruct r; [by destruct Hk as [-> ->]|done]. Qed.

Lemma does_or_raise {A : Type} (p : store_prog A) x s a s1 : does p s (Ok a) s1 -> does (or_raise p x) s (Ok a) s1.
Proof. intros H. apply leads_or_raise. by exists (Ok a). Qed.

Lemma does_write_loop fd l : forall fuel s c,
  quantum ≠ 0 -> length l <= fuel -> s !! fd = Some (mkInode (NFile c) uid FILE_MODE) ->
  does (write_loop fuel fd l) s (Ok tt) (<[fd := mkInode (NFile (c +:+ str l)) uid FILE_MODE]> s).
Proof.
  induction l as [l IH] using (induction_ltof1 _ length). intros fuel s c Hq Hfuel Hfd.
  destruct l as [|x l]; [destruct fuel|destruct fuel as [|fuel]; [cbn in Hfuel; lia|]].
  1,2: cbn [write_loop]; rewrite insert_id; [by apply (leads_Ret posix)|]; rewrite Hfd; do 3 f_equal; apply chars_inj;
    by rewrite chars_app, app_nil_r.
  cbn [write_loop]. set (n := Nat.min quantum (length (x :: l))).
  eapply (does_then _ _ _ n).
  { apply does_call. cbn [fs_call]. rewrite Hfd. rewrite <- chars_length, chars_str. reflexivity. }
  destruct (Nat.eqb_spec n 0) as [Hn|Hn]; [unfold n in Hn; cbn [length] in Hn; lia|].
  assert (E : c +:+ str (x :: l) = (c +:+ str (take n (x :: l))) +:+ str (drop n (x :: l))).
  { apply chars_inj. rewrite !chars_app, !chars_str, <- app_assoc. by rewrite take_drop. }
  rewrite E. eapply eq_ind_r with (P := fun s' => does _ _ _ s').
  - apply (IH (drop n (x :: l))); [|done| |by rewrite lookup_insert_eq].
    + unfold ltof. rewrite length_drop. cbn [length]. lia.
    + rewrite length_drop. cbn [length] in *. lia.
  - by rewrite insert_insert_eq.
Qed.

(** Without failures, the atomic write replaces the file and leaves nothing else behind. *)
Lemma does_commit_file e d tmp p payload s :
  quantum ≠ 0 -> tmp ≠ p -> is_dir s d = true -> parent tmp = d -> parent p = d ->
  s !! tmp = None -> is_dir s p = false ->
  does (commit_file e tmp p payload) s (Ok tt) (<[p := mkInode (NFile payload) uid FILE_MODE]> s).
Proof.
  intros Hq Htp Hd Ht Hp Hnone Hfile. set (file := mkInode (NFile payload) uid FILE_MODE).
  assert (Htd : tmp ≠ d) by (intros ->; unfold is_dir in Hd; by rewrite Hnone in Hd).
  unfold commit_file. eapply (does_then _ _ _ (Ok tt, false)).
  { unfold write_body. eapply does_attempt; [apply does_call; cbn [fs_call]; by rewrite Hnone, Ht, Hd|].
    eapply does_attempt.
    - eapply does_then; [apply does_call; cbn [fs_call]; by rewrite lookup_insert_eq|].
      rewrite insert_insert_eq. eapply does_then.
      + eapply does_write_loop; [done|by rewrite chars_length|apply lookup_insert_eq].
      + rewrite insert_insert_eq. eapply does_then; by apply does_call.
    - eapply does_attempt; [apply does_call; cbn [fs_call]; unfold rename; rewrite lookup_insert_eq|by apply (leads_Ret posix)].
      assert (E : forall q i, q ≠ tmp -> is_dir (<[tmp := i]> s) q = is_dir s q) by (intros q i Hne; unfold is_dir; by rewrite lookup_insert_ne).
      rewrite !E, Hp, Hd, Hfile by congruence. cbn [i_node orb negb].
      rewrite bool_decide_false by done. cbn [orb]. rewrite str_chars, delete_insert_id by done. reflexivity. }
  cbn beta iota. eapply does_then; [by apply (leads_Ret posix)|]. eapply does_then; [|by apply (leads_Ret posix)].
  eapply does_catch.
  - apply does_call. cbn [fs_call]. rewrite lookup_insert_ne, Hnone by done. reflexivity.
  - by apply (leads_Ret posix).
Qed.
End Facts.
#[export] Hint Resolve make_private_dir_leaves commit_file_leaves : only.
