(* ===== verification/Paths.v ===== *)
(** * POSIX paths

    The part of [pathlib.PurePosixPath] the program relies on: parsing, joining,
    [parts], [relative_to] and printing.  A path is its root (empty, "/" or the
    POSIX special case "//") and its segments; an absolute operand of [/] discards
    the left path, and ".." is never resolved. *)

From S2P Require Import Prelude.

Record path : Type := mkPath { p_root : string; p_segs : list string }.
#[export] Instance path_eq_dec : EqDecision path.
Proof. solve_decision. Defined.

Definition slash : ascii := "/"%char.

(** A segment kept by the parser: neither empty nor ".". *)
Definition kept_segment (s : string) : bool := negb (bool_decide (s = "")) && negb (bool_decide (s = ".")).

Definition root_of (l : list ascii) : string :=
  match l with
  | "/"%char :: "/"%char :: "/"%char :: _ => "/"
  | "/"%char :: "/"%char :: _ => "//"
  | "/"%char :: _ => "/"
  | _ => ""
  end.

(** [Path(s)] *)
Definition path_of (s : string) : path :=
  mkPath (root_of (chars s)) (List.filter kept_segment (split_on slash s)).

(** [p / q] for a parsed right operand, and [p / s] for a string. *)
Definition join_path (p q : path) : path :=
  if bool_decide (p_root q = "") then mkPath (p_root p) (p_segs p ++ p_segs q) else q.
Definition div (p : path) (s : string) : path := join_path p (path_of s).

(** [p.parts] *)
Definition parts (p : path) : list string :=
  if bool_decide (p_root p = "") then p_segs p else p_root p :: p_segs p.

(** [str(p)] *)
Definition path_str (p : path) : string :=
  match p_root p, p_segs p with
  | "", [] => "."
  | r, segs => r +:+ join "/" segs
  end.

Fixpoint strip_prefix (base l : list string) : option (list string) :=
  match base, l with
  | [], _ => Some l
  | x :: base', y :: l' => if decide (x = y) then strip_prefix base' l' else None
  | _ :: _, [] => None
  end.

(** [p.relative_to(base)]: [None] stands for the [ValueError]. *)
Definition relative_to (p base : path) : option path :=
  if decide (p_root p = p_root base)
  then mkPath "" <$> strip_prefix (p_segs base) (p_segs p)
  else None.

(** A name that is one plain path segment. *)
Definition plain_segment (s : string) : bool :=
  kept_segment s && negb (bool_decide (s = "..")) && forallb (fun c => negb (Ascii.eqb c slash)) (chars s).

(** ** Lemmas *)

Lemma split_chars_plain c (l : list ascii) :
  forallb (fun x => negb (Ascii.eqb x c)) l = true -> split_chars c l = [l].
Proof.
  induction l as [|x l IH]; [done|]. cbn. rewrite andb_true_iff, negb_true_iff.
  intros [-> Hl]. by rewrite IH.
Qed.

Lemma root_of_plain (l : list ascii) :
  forallb (fun x => negb (Ascii.eqb x slash)) l = true -> root_of l = "".
Proof.
  destruct l as [|x l]; [done|]. cbn. rewrite andb_true_iff, negb_true_iff, Ascii.eqb_neq.
  intros [H _]. unfold slash in H.
  destruct x as [[] [] [] [] [] [] [] []]; try done.
Qed.

Lemma path_of_plain s : plain_segment s = true -> path_of s = mkPath "" [s].
Proof.
  unfold plain_segment, path_of, split_on. rewrite !andb_true_iff. intros [[Hk _] Hs].
  rewrite root_of_plain, split_chars_plain by done. cbn. by rewrite str_chars, Hk.
Qed.

(** Joining a plain segment appends it. *)
Lemma div_plain p s : plain_segment s = true -> div p s = mkPath (p_root p) (p_segs p ++ [s]).
Proof. intros H. unfold div. by rewrite path_of_plain. Qed.

Lemma strip_prefix_app (base l : list string) : strip_prefix base (base ++ l) = Some l.
Proof. induction base as [|x base IH]; cbn; [done|]. by rewrite decide_True. Qed.

Lemma strip_prefix_Some (base l k : list string) : strip_prefix base l = Some k -> l = base ++ k.
Proof.
  revert l. induction base as [|x base IH]; intros [|y l]; cbn; try naive_solver.
  case_decide as E; [|done]. intros Hs. by rewrite (IH _ Hs), E.
Qed.

Lemma relative_to_Some p base q :
  relative_to p base = Some q <->
  p_root p = p_root base /\ p_root q = "" /\ p_segs p = p_segs base ++ p_segs q.
Proof.
  unfold relative_to. case_decide as Hr; [|naive_solver]. rewrite fmap_Some. split.
  - intros (k & Hk & ->). cbn. split_and!; [done..|]. by apply strip_prefix_Some.
  - intros (_ & Hq & ->). exists (p_segs q). rewrite strip_prefix_app. destruct q; cbn in *. by subst.
Qed.

Lemma path_eq p q : p_root p = p_root q -> p_segs p = p_segs q -> p = q.
Proof. destruct p, q. cbn. by intros -> ->. Qed.

#[export] Hint Rewrite div_plain using done : forge.
