(* ===== verification/Schema.v ===== *)
(** * The manifest ([odoo_forge/manifest/schema.py])

    The declarative project description and the validators pydantic runs on it.
    [raw] layers carry the category as the user wrote it; [Manifest] holds the
    validated values. *)

From S2P Require Import Prelude Regex Values Paths.

Record GitRepo : Type := mkGitRepo { repo_url : string; repo_ref : string }.
Record CoreLayer : Type := mkCoreLayer { core_url : string; core_ref : option string }.
Record EnterpriseLayer : Type := mkEnterpriseLayer { ent_url : string; ent_ref : option string }.

Definition ENTERPRISE_SOURCE_URL : string := "https://github.com/odoo/enterprise.git".
Definition default_core : CoreLayer := mkCoreLayer "https://github.com/odoo/odoo.git" None.
Definition default_enterprise : EnterpriseLayer := mkEnterpriseLayer ENTERPRISE_SOURCE_URL None.

Record PublishedLayer : Type := mkPublishedLayer {
  pub_name : string; pub_source : string; pub_version : string;
  pub_category : string; pub_requires_enterprise : bool }.
Record GitLayer : Type := mkGitLayer {
  git_name : string; git_repos : list GitRepo; git_category : string }.

(** The discriminated union of user-listed layers. *)
Inductive Layer : Type :=
| LPublished (l : PublishedLayer)
| LGit (l : GitLayer).

Record Client : Type := mkClient { addons_path : path; python_requirements : option path }.
Record Override : Type := mkOverride {
  ov_layer : string; ov_repo : string; ov_fork : string; ov_ref : string }.
Record Workspace : Type := mkWorkspace { checkout_timeout_seconds : option Z }.
Record OdooBackendConfig : Type := mkOdooBackendConfig { http_port : option Z; bind_host : string }.
Record BackendConfig : Type := mkBackendConfig { bc_odoo : option OdooBackendConfig }.

Inductive Edition : Type := Community | Enterprise.

Record Manifest : Type := mkManifest {
  m_name : string;
  m_odoo_version : string;
  m_edition : Edition;
  m_core : CoreLayer;
  m_enterprise : option EnterpriseLayer;
  m_layers : list Layer;
  m_client : Client;
  m_overrides : list Override;
  m_workspace : option Workspace;
  m_backend : option BackendConfig;
  m_mount_priority : list string }.

#[export] Instance GitRepo_eq_dec : EqDecision GitRepo.
Proof. solve_decision. Defined.
#[export] Instance Edition_eq_dec : EqDecision Edition.
Proof. solve_decision. Defined.

Definition layer_name (l : Layer) : string :=
  match l with LPublished p => pub_name p | LGit g => git_name g end.
Definition layer_category (l : Layer) : string :=
  match l with LPublished p => pub_category p | LGit g => git_category g end.

(** ** Field validators *)

Definition CATEGORY_MAX_LENGTH : nat := 63.

(** [^[a-z0-9]([a-z0-9-]*[a-z0-9])?$], tested with [match]. *)
Definition CATEGORY_PATTERN : regex :=
  rcats [RBol; RSet lower_alnum;
         ropt (RCat (RStar (RSet (fun c => lower_alnum c || one_of "-" c))) (RSet lower_alnum));
         REol].

Definition category_error : exn :=
  ValueError "category must be a lowercase alphanumeric slug (optionally hyphenated), at most 63 characters".

Definition normalize_category (value : option string) : result exn string :=
  let resolved := match value with None => "custom" | Some v => v end in
  if (CATEGORY_MAX_LENGTH <? String.length resolved) || negb (match_start CATEGORY_PATTERN resolved)
  then Err category_error
  else Ok resolved.

(** [ipaddress.IPv4Address(value)]: four dot-separated ASCII-digit octets, at most three
    digits, no leading zero, at most 255. *)
Fixpoint digits_value (acc : nat) (l : list ascii) : nat :=
  match l with
  | [] => acc
  | c :: l' => digits_value (10 * acc + (code c - 48)) l'
  end.

Definition ipv4_octet (s : string) : bool :=
  let l := chars s in
  negb (bool_decide (s = "")) && forallb is_digit l && (length l <=? 3) &&
  negb ((1 <? length l) && (Ascii.eqb (default "x"%char (head l)) "0"%char)) &&
  (digits_value 0 l <=? 255).

Definition is_ipv4 (s : string) : bool :=
  let octets := split_on "."%char s in
  (length octets =? 4) && forallb ipv4_octet octets.

Definition validate_bind_host (value : string) : result exn string :=
  if is_ipv4 value then Ok value else Err (ValueError "bind_host must be a valid IPv4 address").

Definition DEFAULT_ODOO_BIND_HOST : string := "127.0.0.1".

(** [Field(gt=0, le=65535)] and [Field(gt=0)] *)
Definition valid_http_port (p : Z) : bool := (0 <? p)%Z && (p <=? 65535)%Z.
Definition valid_checkout_timeout (t : Z) : bool := (0 <? t)%Z.

Definition odoo_backend_config (port : option Z) (host : option string)
    : result exn OdooBackendConfig :=
  ensure (match port with Some p => valid_http_port p | None => true end)
    (ValueError "http_port") ;!
  let! h := match host with
            | Some h => validate_bind_host h
            | None => Ok DEFAULT_ODOO_BIND_HOST
            end in
  Ok (mkOdooBackendConfig port h).

(** ** Mount-root keys *)

Definition SYSTEM_MOUNT_ROOTS : list string := ["worktrees"; "community"; "enterprise"].
Definition DEFAULT_CUSTOM_CATEGORY_DIR : string := "default".

Definition custom_category_folder (category : string) : string :=
  if decide (category = "custom") then DEFAULT_CUSTOM_CATEGORY_DIR else category.

Definition custom_root_key (category : string) : string :=
  "custom/" +:+ custom_category_folder category.

(** ** Model validators, in declaration order *)

Definition validate_enterprise_block (m : Manifest) : result exn Manifest :=
  match m_edition m, m_enterprise m with
  | Enterprise, None =>
    Ok (mkManifest (m_name m) (m_odoo_version m) (m_edition m) (m_core m)
          (Some default_enterprise) (m_layers m) (m_client m) (m_overrides m)
          (m_workspace m) (m_backend m) (m_mount_priority m))
  | Community, Some _ =>
    Err (ValueError "'enterprise:' block is only allowed when edition is 'enterprise'")
  | _, _ => Ok m
  end.

Definition valid_mount_roots (m : Manifest) : list string :=
  SYSTEM_MOUNT_ROOTS ++ map (fun l => custom_root_key (layer_category l)) (m_layers m).

Fixpoint check_mount_priority (valid seen keys : list string) : result exn unit :=
  match keys with
  | [] => Ok tt
  | key :: keys' =>
    ensure (bool_decide (key ∈ valid))
      (ValueError ("mount_priority entry is not a known mount root: " +:+ key)) ;!
    ensure (negb (bool_decide (key ∈ seen)))
      (ValueError ("mount_priority contains a duplicate entry: " +:+ key)) ;!
    check_mount_priority valid (key :: seen) keys'
  end.

Definition validate_mount_priority (m : Manifest) : result exn Manifest :=
  check_mount_priority (valid_mount_roots m) [] (m_mount_priority m) ;! Ok m.

(** Field validation of one layer: only the category needs more than its type. *)
Definition validate_layer (l : Layer) : result exn Layer :=
  let! c := normalize_category (Some (layer_category l)) in
  Ok match l with
     | LPublished p => LPublished (mkPublishedLayer (pub_name p) (pub_source p) (pub_version p)
                                     c (pub_requires_enterprise p))
     | LGit g => LGit (mkGitLayer (git_name g) (git_repos g) c)
     end.

Fixpoint validate_layers (ls : list Layer) : result exn (list Layer) :=
  match ls with
  | [] => Ok []
  | l :: ls' => let! l1 := validate_layer l in let! ls1 := validate_layers ls' in Ok (l1 :: ls1)
  end.

(** [Manifest.model_validate] on parsed values: fields first, then the two
    [mode="after"] validators. *)
Definition validate_manifest (m : Manifest) : result exn Manifest :=
  let! ls := validate_layers (m_layers m) in
  let m1 := mkManifest (m_name m) (m_odoo_version m) (m_edition m) (m_core m) (m_enterprise m)
              ls (m_client m) (m_overrides m) (m_workspace m) (m_backend m) (m_mount_priority m) in
  let! m2 := validate_enterprise_block m1 in
  validate_mount_priority m2.

(** The well-formedness every parsed manifest has. *)
Record wf_manifest (m : Manifest) : Prop := {
  wf_categories : forall l, l ∈ m_layers m -> normalize_category (Some (layer_category l)) = Ok (layer_category l);
  wf_enterprise : m_edition m = Enterprise <-> is_Some (m_enterprise m);
  wf_priority_known : forall k, k ∈ m_mount_priority m -> k ∈ valid_mount_roots m;
  wf_priority_unique : NoDup (m_mount_priority m) }.

(** The shape a category is documented to have. *)
Definition slug_char (c : ascii) : bool := lower_alnum c || one_of "-" c.
Definition slug (l : list ascii) : bool :=
  match l, last l with
  | c :: _, Some z => lower_alnum c && lower_alnum z && forallb slug_char l
  | _, _ => false
  end.

(** ** Lemmas *)

Lemma check_mount_priority_Ok valid seen keys :
  check_mount_priority valid seen keys = Ok tt <->
  (forall k, k ∈ keys -> k ∈ valid /\ k ∉ seen) /\ NoDup keys.
Proof.
  revert seen. induction keys as [|key keys IH]; intros seen; cbn.
  - split; [intros _; split; [intros k Hk; by apply elem_of_nil in Hk | apply NoDup_nil_2] | done].
  - rewrite NoDup_cons. setoid_rewrite elem_of_cons.
    unfold ensure. destruct (bool_decide_reflect (key ∈ valid)); cbn; [|naive_solver].
    destruct (bool_decide_reflect (key ∈ seen)); cbn; [naive_solver|].
    rewrite IH. setoid_rewrite not_elem_of_cons. split; [naive_solver|].
    intros [H1 [H2 H3]]. split; [|done]. intros k Hk.
    destruct (H1 k) as [? ?]; [by right|]. split; [done|]. split; [|done]. by intros ->.
Qed.

Lemma normalize_category_idem v c : normalize_category v = Ok c -> normalize_category (Some c) = Ok c.
Proof.
  unfold normalize_category. set (r := match v with None => "custom" | Some x => x end).
  destruct (_ || _) eqn:E; intros [= <-]. by rewrite E.
Qed.

Lemma validate_layers_Ok ls ls' :
  validate_layers ls = Ok ls' ->
  ls' = ls /\ forall l, l ∈ ls -> normalize_category (Some (layer_category l)) = Ok (layer_category l).
Proof.
  revert ls'. induction ls as [|l ls IH]; intros ls'; cbn.
  - intros [= <-]. split; [done|]. intros l Hl. by apply elem_of_nil in Hl.
  - intros (l1 & Hl1 & (ls1 & Hls & [= <-])%result_bind_Ok)%result_bind_Ok.
    apply IH in Hls as [-> Hall]. unfold validate_layer in Hl1.
    apply result_bind_Ok in Hl1 as (c & Hc & [= <-]).
    pose proof (normalize_category_idem _ _ Hc) as Hi.
    assert (c = layer_category l) as ->.
    { unfold normalize_category in Hc. by case_match; simplify_eq. }
    split; [by destruct l as [[]|[]]|]. intros l' [->|Hl']%elem_of_cons; auto.
Qed.

Lemma at_is_slug_char t k : at_is lower_alnum t k = true -> at_is slug_char t k = true.
Proof. unfold at_is, slug_char. destruct (t !! k); [|done]. by intros ->. Qed.

Lemma at_is_take f t j k : k < j -> at_is f (take j t) k = at_is f t k.
Proof. intros H. unfold at_is. by rewrite lookup_take_lt. Qed.

(** A slug, read positionally. *)
Lemma slug_spec l :
  slug l = true <->
  0 < length l /\ at_is lower_alnum l 0 = true /\ at_is lower_alnum l (length l - 1) = true /\
  forall k, k < length l -> at_is slug_char l k = true.
Proof.
  rewrite <- forallb_at_is. destruct l as [|c l]; [split; [done|cbn; lia]|].
  unfold slug. rewrite last_lookup. unfold at_is.
  replace (pred (length (c :: l))) with (length (c :: l) - 1) by lia.
  destruct ((c :: l) !! (length (c :: l) - 1)) eqn:E.
  - rewrite !andb_true_iff. cbn [lookup list_lookup length]. split; [|tauto].
    intros [[? ?] ?]. split_and!; try done. lia.
  - split; [done|]. intros (_ & _ & ? & _). done.
Qed.

Lemma slug_take t j :
  0 < j <= length t ->
  slug (take j t) = true <->
  at_is lower_alnum t 0 = true /\ at_is lower_alnum t (j - 1) = true /\
  forall k, k < j -> at_is slug_char t k = true.
Proof.
  intros Hj. rewrite slug_spec, length_take, Nat.min_l by lia.
  rewrite !at_is_take by lia. split.
  - intros (_ & H1 & H2 & H3). split_and!; try done.
    intros k Hk. rewrite <- (at_is_take _ _ j) by done. auto.
  - intros (H1 & H2 & H3). split_and!; try done; [lia|].
    intros k Hk. rewrite at_is_take by done. auto.
Qed.

Lemma at_eol_spec t j :
  (j = length t \/ exists l, t = l ++ [newline] /\ j = length l) <-> at_eol t j = true.
Proof.
  unfold at_eol. rewrite orb_true_iff, andb_true_iff, !Nat.eqb_eq. split.
  - intros [?|(l & -> & ->)]; [by left|right]. rewrite length_app. cbn. split; [lia|].
    unfold at_is. rewrite lookup_app_r, Nat.sub_diag by lia. done.
  - intros [?|[Hj Hn]]; [by left|right]. unfold at_is in Hn.
    destruct (t !! j) as [c|] eqn:Ec; [|done]. apply Ascii.eqb_eq in Hn as <-.
    exists (take j t). rewrite length_take. split; [|lia].
    pose proof (take_drop_middle t j newline Ec) as Et.
    by rewrite drop_ge in Et by lia.
Qed.

(** The pattern, read positionally: a slug up to [j], and [$] at [j]. *)
Lemma category_pattern_spec (t : list ascii) :
  (exists j, matches t CATEGORY_PATTERN 0 j) <->
  exists j, 0 < j <= length t /\ slug (take j t) = true /\ at_eol t j = true.
Proof.
  unfold CATEGORY_PATTERN. split.
  - intros [j H]. cbn in H.
    repeat first [rewrite matches_cat in H; destruct H as (? & ? & H)
                 | apply matches_empty in H; subst].
    match goal with HB : matches _ RBol 0 _ |- _ => inversion HB; subst; clear HB end.
    match goal with HE : matches _ REol _ _ |- _ => inversion HE; subst; clear HE end.
    match goal with HC : matches _ (RSet lower_alnum) 0 _ |- _ =>
      apply matches_set in HC as [-> Hfirst] end.
    match goal with HO : matches _ (ropt _) 1 ?j |- _ => exists j; rename HO into Hopt end.
    unfold ropt in Hopt. apply matches_alt in Hopt as [Hopt|Hopt%matches_empty].
    + apply matches_cat in Hopt as (m & [Hm Hs]%matches_set_star & [-> Hlast]%matches_set).
      pose proof (at_is_lt _ _ _ Hlast). split; [lia|]. split; [|done].
      apply slug_take; [lia|]. split; [done|]. split.
      * by replace (S m - 1) with m by lia.
      * intros k Hk. destruct (decide (k = 0)) as [->|]; [by apply at_is_slug_char|].
        destruct (decide (k = m)) as [->|]; [by apply at_is_slug_char|]. apply Hs. lia.
    + subst. pose proof (at_is_lt _ _ _ Hfirst). split; [lia|]. split; [|done].
      apply slug_take; [lia|]. split; [done|]. split; [done|]. intros k Hk. replace k with 0 by lia.
      by apply at_is_slug_char.
  - intros (j & Hj & Hslug & Heol). exists j. apply slug_take in Hslug as (Hf & Hl & Hs); [|lia].
    cbn. apply matches_cat. exists 0. split; [constructor|].
    apply matches_cat. exists 1. split; [by constructor|].
    apply matches_cat. exists j. split; [|apply matches_cat; exists j; split; by constructor].
    unfold ropt. apply matches_alt. destruct (decide (j = 1)) as [->|]; [right; constructor|left].
    apply matches_cat. exists (j - 1). split.
    + apply matches_set_star. split; [lia|]. intros k Hk. apply Hs. lia.
    + apply matches_set. split; [lia|done].
Qed.

(** What the category pattern really admits. *)
Definition admitted_category (s : string) : Prop :=
  String.length s <= 63 /\
  (slug (chars s) = true \/ exists l, chars s = l ++ [newline] /\ slug l = true).

Lemma category_accepted (s : string) :
  normalize_category (Some s) = Ok s <-> admitted_category s.
Proof.
  unfold admitted_category, normalize_category, CATEGORY_MAX_LENGTH.
  assert (match_start CATEGORY_PATTERN s = true <->
    slug (chars s) = true \/ exists l, chars s = l ++ [newline] /\ slug l = true) as Hm.
  { rewrite match_start_spec, category_pattern_spec. setoid_rewrite <- at_eol_spec. split.
    - intros (j & Hj & Hs & [->|(l & El & ->)]); [rewrite firstn_all in Hs; by left|].
      rewrite El, take_app_length in Hs. eauto.
    - intros [Hs|(l & El & Hs)].
      + exists (length (chars s)). rewrite firstn_all. split_and!; auto.
        apply slug_spec in Hs. lia.
      + exists (length l). rewrite El, take_app_length, length_app. cbn.
        split_and!; eauto; [apply slug_spec in Hs; lia|lia]. }
  destruct (63 <? String.length s) eqn:El; [apply Nat.ltb_lt in El; split; [done|lia]|].
  apply Nat.ltb_ge in El. destruct (match_start _ _); cbn; rewrite <- Hm; naive_solver.
Qed.

(** C40. Category validation defaults an absent category to [custom] and accepts a slug of at most 63 characters, and - because the
    pattern is tested with [match] and ends in [$] - also such a slug followed by one newline;
    everything else is a [ValueError]. *)
Theorem normalize_category_accepts (v : option string) :
  let s := default "custom" v in
  (normalize_category v = Ok s /\ admitted_category s) \/
  (normalize_category v = Err category_error /\ ~ admitted_category s).
Proof.
  intros s. pose proof (category_accepted s) as H.
  assert (normalize_category v = normalize_category (Some s)) as -> by by destruct v.
  rewrite <- H. unfold normalize_category. destruct (_ || _); [right|left]; naive_solver.
Qed.

Lemma validate_enterprise_block_Ok m m' :
  validate_enterprise_block m = Ok m' ->
  m_layers m' = m_layers m /\ m_mount_priority m' = m_mount_priority m /\
  (m_edition m' = Enterprise <-> is_Some (m_enterprise m')) /\
  validate_enterprise_block m' = Ok m'.
Proof.
  unfold validate_enterprise_block.
  destruct (m_edition m) eqn:Ed, (m_enterprise m) eqn:Ee; intros [= <-]; cbn; rewrite ?Ed, ?Ee;
    split_and!; try done; split; try done; eauto; by intros [? ?].
Qed.

(** C39. A manifest that validation accepts is well formed: slug categories, an enterprise
    block exactly in the enterprise edition (defaulted when absent), and duplicate-free
    mount priorities over known roots.  Validating it again changes nothing. *)
Theorem validate_manifest_wf (m m' : Manifest) :
  validate_manifest m = Ok m' -> wf_manifest m' /\ validate_manifest m' = Ok m'.
Proof.
  unfold validate_manifest. intros (ls & Hls & (m2 & Hm2 & H)%result_bind_Ok)%result_bind_Ok.
  apply validate_layers_Ok in Hls as [-> Hcat].
  apply validate_enterprise_block_Ok in Hm2 as (El & Ep & Hent & Hagain). cbn in El, Ep.
  unfold validate_mount_priority in H. apply result_bind_Ok in H as ([] & Hp & [= <-]).
  pose proof (proj1 (check_mount_priority_Ok _ _ _) Hp) as [Hk Hnd].
  split.
  - constructor; [by rewrite El|done| |done]. intros k Hin. by apply Hk.
  - rewrite El. assert (validate_layers (m_layers m) = Ok (m_layers m)) as ->.
    { clear -Hcat. induction (m_layers m) as [|l ls IH]; [done|]. cbn. unfold validate_layer.
      rewrite Hcat by (by left). cbn. rewrite IH by (intros; apply Hcat; by right). cbn.
      by destruct l as [[]|[]]. }
    cbn. rewrite <- El. replace (mkManifest _ _ _ _ _ _ _ _ _ _ _) with m2 by (by destruct m2).
    rewrite Hagain. cbn. unfold validate_mount_priority. by rewrite Hp.
Qed.
