(* ===== verification/Urls.v ===== *)
(** * URLs and repository names

    The part of [urllib.parse.urlsplit] that [manifest/projection.py] relies on (path,
    host name and the [ValueError] cases of a bracketed host, as in CPython 3.11), and
    [_repo_name], the credential-safe directory name derived from a repository URL. *)

From S2P Require Import Prelude Values Schema.

(** ** [ipaddress.ip_address] on a bracketed host *)

Definition is_hex (c : ascii) : bool :=
  is_digit c || in_range "a"%char "f"%char c || in_range "A"%char "F"%char c.

Definition hextet (s : string) : bool := forallb is_hex (chars s) && (String.length s <=? 4).

(** Indices of the empty inner parts, the [::] markers. *)
Definition inner_empty (ps : list string) : list nat :=
  List.filter (fun i => bool_decide (ps !! i = Some "")) (seq 1 (length ps - 2)).

(** [IPv6Address._ip_int_from_string] succeeds on the parts between colons. *)
Definition ipv6_parts (ps : list string) : bool :=
  let n := length ps in
  let first_empty := bool_decide (head ps = Some "") in
  let last_empty := bool_decide (last ps = Some "") in
  (3 <=? n) && (n <=? 9) &&
  match inner_empty ps with
  | [] => (n =? 8) && negb first_empty && negb last_empty && forallb hextet ps
  | [i] =>
    let hi := if first_empty then i - 1 else i in
    let lo := if last_empty then n - i - 2 else n - i - 1 in
    (negb first_empty || (hi =? 0)) && (negb last_empty || (lo =? 0)) && (hi + lo <? 8) &&
    forallb hextet ps
  | _ => false
  end.

(** A dotted-quad tail counts as two hextets. *)
Definition expand_ipv4_tail (ps : list string) : option (list string) :=
  match last ps with
  | Some t =>
    if existsb (Ascii.eqb "."%char) (chars t)
    then if is_ipv4 t then Some (take (length ps - 1) ps ++ ["0"; "0"]) else None
    else Some ps
  | None => Some ps
  end.

Definition is_ipv6 (s : string) : bool :=
  let '(addr, zone_ok) :=
    match cut_first "%"%char (chars s) with
    | Some (a, z) => (str a, negb (bool_decide (z = [])) && negb (existsb (Ascii.eqb "%"%char) z))
    | None => (s, true)
    end in
  let ps := split_on ":"%char addr in
  zone_ok && negb (existsb (Ascii.eqb "/"%char) (chars s)) && (3 <=? length ps) &&
  match expand_ipv4_tail ps with Some ps' => ipv6_parts ps' | None => false end.

(** [\Av[a-fA-F0-9]+\..+\Z] *)
Definition is_ipvfuture (l : list ascii) : bool :=
  match cut_first "."%char l with
  | Some (v :: h, rest) =>
    Ascii.eqb v "v"%char && negb (bool_decide (h = [])) && forallb is_hex h &&
    negb (bool_decide (rest = [])) && forallb (fun c => negb (Ascii.eqb c newline)) rest
  | _ => false
  end.

(** [_check_bracketed_host] *)
Definition bracketed_host_ok (host : list ascii) : bool :=
  match host with
  | "v"%char :: _ => is_ipvfuture host
  | _ => is_ipv6 (str host)
  end.

(** ** [urlsplit] *)

Definition has (c : ascii) (l : list ascii) : bool := existsb (Ascii.eqb c) l.

Definition is_scheme_char (c : ascii) : bool := is_alnum c || one_of "+-." c.

(** [url[i+1:]] after a well-formed scheme, else the whole text. *)
Definition drop_scheme (l : list ascii) : list ascii :=
  match cut_first ":"%char l with
  | Some (c :: s, rest) =>
    if (is_lower c || is_upper c) && forallb is_scheme_char (c :: s) then rest else l
  | _ => l
  end.

(** Up to the first of [/?#]. *)
Fixpoint split_netloc (l : list ascii) : list ascii * list ascii :=
  match l with
  | [] => ([], [])
  | c :: l' =>
    if one_of "/?#" c then ([], l)
    else let '(a, b) := split_netloc l' in (c :: a, b)
  end.

Definition c0_or_space (c : ascii) : bool := code c <=? 32.
Definition unsafe_byte (c : ascii) : bool := (code c =? 9) || (code c =? 10) || (code c =? 13).

(** Network location and path of a URL without query and fragment; [None] is [ValueError]. *)
Definition urlsplit (url : list ascii) : option (list ascii * list ascii) :=
  let l := List.filter (fun c => negb (unsafe_byte c)) (drop_while c0_or_space url) in
  let l := drop_scheme l in
  match l with
  | "/"%char :: "/"%char :: l' =>
    let '(netloc, rest) := split_netloc l' in
    if xorb (has "["%char netloc) (has "]"%char netloc) then None
    else if has "["%char netloc then
      match cut_first "["%char netloc with
      | Some (_, b) =>
        let host := match cut_first "]"%char b with Some (h, _) => h | None => b end in
        if bracketed_host_ok host then Some (netloc, rest) else None
      | None => None
      end
    else Some (netloc, rest)
  | _ => Some ([], l)
  end.

(** [SplitResult.hostname]; the empty list is [None]. *)
Definition hostname (netloc : list ascii) : list ascii :=
  let hostinfo := match cut_last "@"%char netloc with Some (_, h) => h | None => netloc end in
  let host :=
    match cut_first "["%char hostinfo with
    | Some (_, b) => match cut_first "]"%char b with Some (h, _) => h | None => b end
    | None => match cut_first ":"%char hostinfo with Some (h, _) => h | None => hostinfo end
    end in
  match cut_first "%"%char host with
  | Some (h, z) => map lower_char h ++ ["%"%char] ++ z
  | None => map lower_char host
  end.

(** ** [_repo_name] *)

Definition after_last_chars (c : ascii) (l : list ascii) : list ascii :=
  match cut_last c l with Some (_, b) => b | None => l end.
Definition before_first_chars (c : ascii) (l : list ascii) : list ascii :=
  match cut_first c l with Some (a, _) => a | None => l end.

Definition is_slash (c : ascii) : bool := Ascii.eqb c "/"%char.

Definition repo_candidate (clean_url : list ascii) : list ascii :=
  match urlsplit clean_url with
  | None => chars "repository"
  | Some (netloc, path) =>
    if negb (forallb is_slash path) then after_last_chars "/"%char (rdrop_while is_slash path)
    else if negb (bool_decide (hostname netloc = [])) then hostname netloc
    else after_last_chars "@"%char (after_last_chars ":"%char
           (after_last_chars "/"%char (rdrop_while is_slash clean_url)))
  end.

Definition repo_name (url : string) : string :=
  let clean_url := before_first_chars "?"%char (before_first_chars "#"%char (chars url)) in
  let name := removesuffix ".git" (str (repo_candidate clean_url)) in
  if bool_decide (name = "") then "repository" else name.
