(* ===== verification/Composition.v ===== *)
(** * Composition, references and locking
    ([manifest/composition.py], [manifest/resolution.py], [manifest/lockfile.py],
    [manifest/locking.py], [manifest/drift.py], [manifest/state.py]) *)

From S2P Require Import Prelude Effects Values Paths Schema.

(** ** [compose]: the ordered chain core -> enterprise -> layers -> client *)

Inductive ChainItem : Type :=
| CCore (c : CoreLayer)
| CEnterprise (e : EnterpriseLayer)
| CLayer (l : Layer)
| CClient (c : Client).

Definition check_reserved_layer_names (m : Manifest) : result exn unit :=
  ensure (negb (existsb (fun l => bool_decide (layer_name l = "core")) (m_layers m)))
    (CompositionError "layer name 'core' is reserved for the singleton core layer").

Definition check_published_layer_edition_coherence (m : Manifest) : result exn unit :=
  match m_edition m with
  | Enterprise => Ok tt
  | Community =>
    result_iter (fun l =>
      match l with
      | LPublished p =>
        ensure (negb (pub_requires_enterprise p))
          (CompositionError ("layer '" +:+ pub_name p +:+
             "' requires enterprise edition but manifest edition is 'community'"))
      | LGit _ => Ok tt
      end) (m_layers m)
  end.

Definition layers_by_name (m : Manifest) : list (string * Layer) :=
  dict_of (map (fun l => (layer_name l, l)) (m_layers m)).

(** One iteration of the override loop; [targets] is the set seen so far. *)
Definition check_override (m : Manifest) (targets : list (string * string)) (o : Override)
    : result exn unit :=
  ensure (negb (bool_decide (ov_layer o = "core")))
    (CompositionError "override cannot target the reserved core layer") ;!
  ensure (negb (bool_decide ((ov_layer o, ov_repo o) ∈ targets)))
    (CompositionError ("duplicate override for repo '" +:+ ov_repo o +:+ "' in layer '" +:+
       ov_layer o +:+ "'")) ;!
  match dget (ov_layer o) (layers_by_name m) with
  | None => Err (CompositionError ("override references unknown layer '" +:+ ov_layer o +:+ "'"))
  | Some (LGit g) =>
    ensure (bool_decide (ov_repo o ∈ map repo_url (git_repos g)))
      (CompositionError ("override references unknown repo '" +:+ ov_repo o +:+ "' in layer '" +:+
         ov_layer o +:+ "'"))
  | Some (LPublished _) =>
    Err (CompositionError ("override for layer '" +:+ ov_layer o +:+ "' specifies repo '" +:+
       ov_repo o +:+ "', but that layer has no repos (not a git layer)"))
  end.

Fixpoint check_overrides_from (m : Manifest) (targets : list (string * string))
    (os : list Override) : result exn unit :=
  match os with
  | [] => Ok tt
  | o :: os' =>
    check_override m targets o ;!
    check_overrides_from m ((ov_layer o, ov_repo o) :: targets) os'
  end.
Definition check_overrides (m : Manifest) : result exn unit :=
  check_overrides_from m [] (m_overrides m).

Definition compose (m : Manifest) : result exn (list ChainItem) :=
  check_reserved_layer_names m ;!
  check_published_layer_edition_coherence m ;!
  check_overrides m ;!
  Ok ([CCore (m_core m)] ++
      match m_enterprise m with Some e => [CEnterprise e] | None => [] end ++
      map CLayer (m_layers m) ++ [CClient (m_client m)]).

(** ** [resolve_default_ref] *)
Definition resolve_default_ref (ref : option string) (odoo_version : string) : string :=
  match ref with Some r => r | None => odoo_version end.

(** ** Lockfile values *)

Record ResolvedRepo : Type := mkResolvedRepo { rr_url : string; rr_ref : string; rr_commit : string }.
Record ResolvedGitLayer : Type := mkResolvedGitLayer { rl_name : string; rl_repos : list ResolvedRepo }.
Record ResolvedPublishedLayer : Type := mkResolvedPublishedLayer {
  rp_name : string; rp_source : string; rp_version : string; rp_digest : string }.
Record Lockfile : Type := mkLockfile {
  lk_schema_version : Z;
  lk_generated_from : string;
  lk_git_layers : list ResolvedGitLayer;
  lk_published_layers : list ResolvedPublishedLayer }.

#[export] Instance ResolvedRepo_eq_dec : EqDecision ResolvedRepo.
Proof. solve_decision. Defined.
#[export] Instance ResolvedGitLayer_eq_dec : EqDecision ResolvedGitLayer.
Proof. solve_decision. Defined.
#[export] Instance ResolvedPublishedLayer_eq_dec : EqDecision ResolvedPublishedLayer.
Proof. solve_decision. Defined.

(** [^sha256:[0-9a-f]{64}$]; pydantic's pattern engine reads [$] as the very end. *)
Definition lower_hex (c : ascii) : bool := is_digit c || in_range "a"%char "f"%char c.
Definition sha256_digest (s : string) : bool :=
  bool_decide (str (take 7 (chars s)) = "sha256:") &&
  (String.length s =? 71) && forallb lower_hex (drop 7 (chars s)).

(** [ResolvedPublishedLayer(...)] *)
Definition resolved_published_layer (name source version digest : string)
    : result exn ResolvedPublishedLayer :=
  ensure (sha256_digest digest) (ValueError "digest") ;!
  Ok (mkResolvedPublishedLayer name source version digest).

(** ** Materialized state *)
Record MaterializedRepo : Type := mkMaterializedRepo { mr_url : string; mr_commit : string }.
Record MaterializedLayer : Type := mkMaterializedLayer { ml_name : string; ml_repos : list MaterializedRepo }.
Record MaterializedState : Type := mkMaterializedState { ms_layers : list MaterializedLayer }.
