(* ===== verification/Json.v ===== *)
(** * JSON documents

    The values [json.loads] produces and [json.dumps(..., sort_keys=True)] prints,
    in the two layouts the program uses: compact separators (hashing) and
    [indent=2] (the lockfile on disk).  [ensure_ascii] escaping is included. *)

From stdpp Require Import pretty.
From S2P Require Import Prelude Values.

Inductive json : Type :=
| JNull
| JBool (b : bool)
| JInt (z : Z)
| JFloat (repr : string)
| JStr (s : string)
| JArr (l : list json)
| JObj (d : list (string * json)).

#[export] Instance json_eq_dec : EqDecision json.
Proof.
  refine (fix go j k : Decision (j = k) :=
    match j, k with
    | JNull, JNull => left _
    | JBool a, JBool b => cast_if (decide (a = b))
    | JInt a, JInt b => cast_if (decide (a = b))
    | JFloat a, JFloat b | JStr a, JStr b => cast_if (decide (a = b))
    | JArr a, JArr b => cast_if (@list_eq_dec _ go a b)
    | JObj a, JObj b => cast_if (@list_eq_dec _ (@prod_eq_dec _ _ _ go) a b)
    | _, _ => right _
    end); clear go; congruence.
Defined.

Definition jopt (o : option string) : json := match o with Some s => JStr s | None => JNull end.
Definition jopt_int (o : option Z) : json := match o with Some z => JInt z | None => JNull end.

(** ** Printing *)

Definition dquote : ascii := ascii_of_nat 34.
Definition backslash : ascii := ascii_of_nat 92.

Definition hex_digit (n : nat) : ascii :=
  if n <? 10 then ascii_of_nat (48 + n) else ascii_of_nat (87 + n).

(** One character under [ensure_ascii]. *)
Definition escape_char (c : ascii) : list ascii :=
  if Ascii.eqb c dquote then [backslash; dquote]
  else if Ascii.eqb c backslash then [backslash; backslash]
  else match code c with
       | 8 => [backslash; "b"%char]
       | 9 => [backslash; "t"%char]
       | 10 => [backslash; "n"%char]
       | 12 => [backslash; "f"%char]
       | 13 => [backslash; "r"%char]
       | n => if (n <? 32) || (126 <? n)
              then [backslash; "u"%char; "0"%char; "0"%char; hex_digit (n / 16); hex_digit (n mod 16)]
              else [c]
       end.

Definition quote (s : string) : list ascii :=
  [dquote] ++ concat (map escape_char (chars s)) ++ [dquote].

(** Separators of a layout at nesting depth [n]: [None] is [separators=(",", ":")],
    [Some k] is [indent=k]. *)
Definition pad (indent : option nat) (n : nat) : list ascii :=
  match indent with
  | None => []
  | Some k => newline :: repeat " "%char (k * n)
  end.
Definition colon (indent : option nat) : list ascii :=
  match indent with None => [":"%char] | Some _ => [":"%char; " "%char] end.

Definition bracket (indent : option nat) (n : nat) (o c : ascii) (items : list (list ascii))
    : list ascii :=
  match items with
  | [] => [o; c]
  | i :: rest =>
    [o] ++ pad indent (S n) ++ i ++
    concat (map (fun x => [","%char] ++ pad indent (S n) ++ x) rest) ++ pad indent n ++ [c]
  end.

Definition key_le (a b : string * list ascii) : Prop := str_le a.1 b.1.
#[export] Instance key_le_dec : RelDecision key_le.
Proof. intros a b. unfold key_le. apply _. Defined.

Fixpoint print (indent : option nat) (n : nat) (j : json) : list ascii :=
  match j with
  | JNull => chars "null"
  | JBool true => chars "true"
  | JBool false => chars "false"
  | JInt z => chars (pretty z)
  | JFloat r => chars r
  | JStr s => quote s
  | JArr l => bracket indent n "["%char "]"%char (map (print indent (S n)) l)
  | JObj d =>
    bracket indent n "{"%char "}"%char
      (map (fun kv => quote kv.1 ++ colon indent ++ kv.2)
        (merge_sort key_le (map (fun kv => (kv.1, print indent (S n) kv.2)) d)))
  end.

(** [json.dumps(j, sort_keys=True, separators=(",", ":"))] *)
Definition dumps_compact (j : json) : string := str (print None 0 j).
(** [json.dumps(j, sort_keys=True, indent=2)] *)
Definition dumps_indent (j : json) : string := str (print (Some 2) 0 j).

(** [json.dump(j, stream, separators=(",", ":"))]: members in the order of the dictionary. *)
Fixpoint print_ordered (j : json) : list ascii :=
  match j with
  | JArr l => bracket None 0 "["%char "]"%char (map print_ordered l)
  | JObj d => bracket None 0 "{"%char "}"%char (map (fun kv => quote kv.1 ++ colon None ++ print_ordered kv.2) d)
  | _ => print None 0 j
  end.
Definition dumps_ordered (j : json) : string := str (print_ordered j).

(** ** Decoding with pydantic *)

Definition invalid (what : string) : exn := ValueError what.

Definition get_str (d : list (string * json)) (k : string) : result exn string :=
  match dget k d with
  | Some (JStr s) => Ok s
  | _ => Err (invalid k)
  end.

(** A list field with [default_factory=list]. *)
Definition get_list {A : Type} (f : json -> result exn A) (d : list (string * json)) (k : string)
    : result exn (list A) :=
  match dget k d with
  | None => Ok []
  | Some (JArr l) =>
    (fix go l := match l with
                 | [] => Ok []
                 | x :: l' => let! y := f x in let! ys := go l' in Ok (y :: ys)
                 end) l
  | Some _ => Err (invalid k)
  end.

Definition as_object (j : json) : result exn (list (string * json)) :=
  match j with JObj d => Ok d | _ => Err (invalid "object") end.

(** [extra="forbid"] *)
Definition only_keys (allowed : list string) (d : list (string * json)) : result exn unit :=
  ensure (forallb (fun kv => bool_decide (kv.1 ∈ allowed)) d) (invalid "extra fields not permitted").

Lemma get_list_map {A} (f : json -> result exn A) (g : A -> json) (d : list (string * json)) k l :
  dget k d = Some (JArr (map g l)) -> (forall x, x ∈ l -> f (g x) = Ok x) ->
  get_list f d k = Ok l.
Proof.
  intros Hd Hf. unfold get_list. rewrite Hd. clear Hd.
  induction l as [|x l IH]; [done|]. cbn. rewrite Hf by (by left). cbn.
  rewrite IH by (intros; apply Hf; by right). done.
Qed.

(** * Reading JSON text

    [json.loads] on text whose characters are below U+0100: the decoder of CPython's [json]
    package, with its acceptance of [NaN] and [Infinity] and its treatment of repeated keys
    (the last one wins).  The number of nested calls is bounded by fuel; the length of the
    text suffices. *)

(** [WHITESPACE] *)
Definition is_ws (c : ascii) : bool := existsb (Ascii.eqb c) (map ascii_of_nat [32; 9; 10; 13]).
Fixpoint skip_ws (l : list ascii) : list ascii :=
  match l with
  | c :: l' => if is_ws c then skip_ws l' else l
  | [] => []
  end.

Definition from_hex (c : ascii) : option nat :=
  if is_digit c then Some (code c - 48)
  else if in_range "a"%char "f"%char c then Some (code c - 87)
  else if in_range "A"%char "F"%char c then Some (code c - 55)
  else None.

(** The escapes of one letter. *)
Definition unescape (c : ascii) : option ascii :=
  if Ascii.eqb c dquote || Ascii.eqb c backslash || Ascii.eqb c "/"%char then Some c
  else if Ascii.eqb c "b"%char then Some (ascii_of_nat 8)
  else if Ascii.eqb c "f"%char then Some (ascii_of_nat 12)
  else if Ascii.eqb c "n"%char then Some (ascii_of_nat 10)
  else if Ascii.eqb c "r"%char then Some (ascii_of_nat 13)
  else if Ascii.eqb c "t"%char then Some (ascii_of_nat 9)
  else None.

(** [\uXXXX]: the code point, when it is below U+0100. *)
Definition unicode (h1 h2 h3 h4 : ascii) : option ascii :=
  match from_hex h1, from_hex h2, from_hex h3, from_hex h4 with
  | Some 0, Some 0, Some a, Some b => Some (ascii_of_nat (16 * a + b))
  | _, _, _, _ => None
  end.

(** The rest of a string literal after its opening quote. *)
Fixpoint string_body (l : list ascii) : option (list ascii * list ascii) :=
  match l with
  | [] => None
  | c :: l' =>
    if Ascii.eqb c dquote then Some ([], l')
    else if Ascii.eqb c backslash then
      match l' with
      | e :: l1 =>
        if Ascii.eqb e "u"%char then
          match l1 with
          | h1 :: h2 :: h3 :: h4 :: l2 =>
            match unicode h1 h2 h3 h4, string_body l2 with
            | Some x, Some (s, r) => Some (x :: s, r)
            | _, _ => None
            end
          | _ => None
          end
        else
          match unescape e, string_body l1 with
          | Some x, Some (s, r) => Some (x :: s, r)
          | _, _ => None
          end
      | [] => None
      end
    else if code c <? 32 then None
    else match string_body l' with
         | Some (s, r) => Some (c :: s, r)
         | None => None
         end
  end.

(** ** Numbers *)

Fixpoint span_digits (l : list ascii) : list ascii * list ascii :=
  match l with
  | c :: l' => if is_digit c then let '(d, r) := span_digits l' in (c :: d, r) else ([], l)
  | [] => ([], [])
  end.

Definition digit_value (c : ascii) : Z := Z.of_nat (code c - 48).
Definition digits_value (l : list ascii) : Z := foldl (fun acc c => 10 * acc + digit_value c)%Z 0%Z l.

(** [\.\d+] *)
Definition fraction (l : list ascii) : list ascii * list ascii :=
  match l with
  | c :: l' =>
    if Ascii.eqb c "."%char
    then match span_digits l' with ([], _) => ([], l) | (d, r) => (c :: d, r) end
    else ([], l)
  | [] => ([], l)
  end.

(** [[eE][-+]?\d+] *)
Definition exponent (l : list ascii) : list ascii * list ascii :=
  match l with
  | c :: l' =>
    if Ascii.eqb c "e"%char || Ascii.eqb c "E"%char
    then let '(sign, l1) := match l' with
                            | s :: l1 => if Ascii.eqb s "-"%char || Ascii.eqb s "+"%char then ([s], l1) else ([], l')
                            | [] => ([], l') end in
         match span_digits l1 with ([], _) => ([], l) | (d, r) => (c :: sign ++ d, r) end
    else ([], l)
  | [] => ([], l)
  end.

(** Zero alone, or digits that do not start with it. *)
Definition integer_part (l : list ascii) : option (list ascii * list ascii) :=
  match l with
  | c :: l' =>
    if Ascii.eqb c "0"%char then Some ([c], l')
    else match span_digits l with ([], _) => None | (d, r) => Some (d, r) end
  | [] => None
  end.

Definition number (l : list ascii) : option (json * list ascii) :=
  let '(sign, l0) := match l with
                     | c :: l' => if Ascii.eqb c "-"%char then ([c], l') else ([], l)
                     | [] => ([], l) end in
  match integer_part l0 with
  | None => None
  | Some (digits, l1) =>
    let '(frac, l2) := fraction l1 in
    let '(exp, l3) := exponent l2 in
    match frac ++ exp with
    | [] => Some (JInt (match sign with [] => digits_value digits | _ => - digits_value digits end)%Z, l3)
    | _ => Some (JFloat (str (sign ++ digits ++ frac ++ exp)), l3)
    end
  end.

(** ** Values *)

(** A constant at the head of the text. *)
Definition constant (word : string) (l : list ascii) : option (list ascii) :=
  if is_prefix (chars word) l then Some (drop (String.length word) l) else None.

Definition constants : list (string * json) :=
  [("null", JNull); ("true", JBool true); ("false", JBool false);
   ("NaN", JFloat "NaN"); ("Infinity", JFloat "Infinity"); ("-Infinity", JFloat "-Infinity")].

Fixpoint match_constant (cs : list (string * json)) (l : list ascii) : option (json * list ascii) :=
  match cs with
  | [] => None
  | (w, j) :: cs' => match constant w l with Some r => Some (j, r) | None => match_constant cs' l end
  end.

Fixpoint scan_value (fuel : nat) (l : list ascii) {struct fuel} : option (json * list ascii) :=
  match fuel with
  | O => None
  | S fuel' =>
    match l with
    | [] => None
    | c :: l' =>
      if Ascii.eqb c dquote then
        match string_body l' with Some (s, r) => Some (JStr (str s), r) | None => None end
      else if Ascii.eqb c "{"%char then
        match skip_ws l' with
        | d :: r =>
          if Ascii.eqb d "}"%char then Some (JObj [], r)
          else match scan_members fuel' (d :: r) with
               | Some (kvs, r') => Some (JObj (dict_of kvs), r')
               | None => None
               end
        | [] => None
        end
      else if Ascii.eqb c "["%char then
        match skip_ws l' with
        | d :: r =>
          if Ascii.eqb d "]"%char then Some (JArr [], r)
          else match scan_elements fuel' (d :: r) with
               | Some (vs, r') => Some (JArr vs, r')
               | None => None
               end
        | [] => None
        end
      else match match_constant constants l with
           | Some x => Some x
           | None => number l
           end
    end
  end
with scan_members (fuel : nat) (l : list ascii) {struct fuel} : option (list (string * json) * list ascii) :=
  match fuel with
  | O => None
  | S fuel' =>
    match l with
    | q :: l0 =>
      if negb (Ascii.eqb q dquote) then None else
      match string_body l0 with
      | None => None
      | Some (k, l1) =>
        match skip_ws l1 with
        | s :: l2 =>
          if negb (Ascii.eqb s ":"%char) then None else
          match scan_value fuel' (skip_ws l2) with
          | None => None
          | Some (v, l3) =>
            match skip_ws l3 with
            | e :: l4 =>
              if Ascii.eqb e "}"%char then Some ([(str k, v)], l4)
              else if Ascii.eqb e ","%char then
                match scan_members fuel' (skip_ws l4) with
                | Some (kvs, r) => Some ((str k, v) :: kvs, r)
                | None => None
                end
              else None
            | [] => None
            end
          end
        | [] => None
        end
      end
    | [] => None
    end
  end
with scan_elements (fuel : nat) (l : list ascii) {struct fuel} : option (list json * list ascii) :=
  match fuel with
  | O => None
  | S fuel' =>
    match scan_value fuel' l with
    | None => None
    | Some (v, l1) =>
      match skip_ws l1 with
      | e :: l2 =>
        if Ascii.eqb e "]"%char then Some ([v], l2)
        else if Ascii.eqb e ","%char then
          match scan_elements fuel' (skip_ws l2) with
          | Some (vs, r) => Some (v :: vs, r)
          | None => None
          end
        else None
      | [] => None
      end
    end
  end.

(** [json.loads(text)]: [None] stands for [JSONDecodeError]. *)
Definition loads (text : string) : option json :=
  let l := skip_ws (chars text) in
  match scan_value (2 * String.length text + 1) l with
  | Some (j, r) => match skip_ws r with [] => Some j | _ => None end
  | None => None
  end.

(** What a reader of sorted text sees: keys in order, at every level. *)
Definition json_key_le (a b : string * json) : Prop := str_le a.1 b.1.
#[export] Instance json_key_le_dec : RelDecision json_key_le.
Proof. intros a b. unfold json_key_le. apply _. Defined.
Fixpoint canon (j : json) : json :=
  match j with
  | JArr l => JArr (map canon l)
  | JObj d => JObj (merge_sort json_key_le (map (fun kv => (kv.1, canon kv.2)) d))
  | _ => j
  end.

(** Documents the program prints: keys are not repeated and no floats occur. *)
Fixpoint printable (j : json) : bool :=
  match j with
  | JFloat _ => false
  | JArr l => forallb printable l
  | JObj d => bool_decide (NoDup (map fst d)) && forallb (fun kv => printable kv.2) d
  | _ => true
  end.
