(* ===== verification/JsonFacts.v ===== *)
(** * Printing and reading JSON text

    [loads] reads back what [json.dumps(..., sort_keys=True)] prints, in both layouts. *)

From S2P Require Import Prelude Values Json.
From stdpp Require Import pretty.

(** ** Induction on documents *)

Section JsonInd.
Variable P : json -> Prop.
Hypothesis HNull : P JNull.
Hypothesis HBool : forall b, P (JBool b).
Hypothesis HInt : forall z, P (JInt z).
Hypothesis HFloat : forall r, P (JFloat r).
Hypothesis HStr : forall s, P (JStr s).
Hypothesis HArr : forall l, Forall P l -> P (JArr l).
Hypothesis HObj : forall d, Forall (fun kv => P kv.2) d -> P (JObj d).

Fixpoint json_ind' (j : json) : P j :=
  match j with
  | JNull => HNull | JBool b => HBool b | JInt z => HInt z | JFloat r => HFloat r | JStr s => HStr s
  | JArr l => HArr l ((fix go l : Forall P l :=
      match l with [] => Forall_nil_2 _ | x :: l' => Forall_cons_2 _ _ _ (json_ind' x) (go l') end) l)
  | JObj d => HObj d ((fix go d : Forall (fun kv => P kv.2) d :=
      match d with [] => Forall_nil_2 _ | x :: d' => Forall_cons_2 _ _ _ (json_ind' x.2) (go d') end) d)
  end.
End JsonInd.

(** ** Numbers *)

(** No character of a number can follow. *)
Definition ends_number (l : list ascii) : bool :=
  match l with
  | [] => true
  | c :: _ => negb (is_digit c || one_of ".eE" c)
  end.

Lemma pretty_char_digit x : (x < 10)%N ->
  is_digit (pretty_N_char x) = true /\ digit_value (pretty_N_char x) = Z.of_N x.
Proof.
  intros Hx. assert (x ∈ [0; 1; 2; 3; 4; 5; 6; 7; 8; 9])%N as H.
  { rewrite !elem_of_cons. lia. }
  rewrite !elem_of_cons, elem_of_nil in H. by repeat (destruct H as [->|H]; [done|]).
Qed.

Lemma pretty_N_go_digits x : forall s, exists d,
  chars (pretty_N_go x s) = d ++ chars s /\ forallb is_digit d = true /\ digits_value d = Z.of_N x /\
  (head d = Some "0"%char -> False) /\ ((0 < x)%N -> d ≠ []).
Proof.
  induction (N.lt_wf_0 x) as [x _ IH]; intros s. destruct (decide (0 < x)%N) as [Hx|Hx].
  - rewrite pretty_N_go_step by done.
    destruct (IH (x / 10)%N (N.div_lt x 10 Hx eq_refl) (String (pretty_N_char (x mod 10)) s)) as (d & E & Hd & Hv & Hz & Hne).
    destruct (pretty_char_digit (x mod 10)%N) as [Hc Hcv]; [by apply N.mod_lt|].
    exists (d ++ [pretty_N_char (x mod 10)]). rewrite E, <- app_assoc. split_and!.
    + done.
    + by rewrite forallb_app, Hd; cbn; rewrite Hc.
    + unfold digits_value in *. rewrite foldl_app. cbn. rewrite Hv, Hcv.
      pose proof (N.div_mod x 10 ltac:(done)) as Hdm. set (q := (x / 10)%N) in *. set (r := (x mod 10)%N) in *. lia.
    + destruct d as [|c d]; [|done]. cbn. intros [= H0].
      destruct (decide (0 < x / 10)%N) as [Hp|Hp]; [by apply Hne|].
      destruct (N.lt_ge_cases x 10) as [Hx10|Hx10]; [|by destruct Hp; apply N.div_str_pos].
      rewrite N.mod_small in H0 by done.
      assert (x ∈ [1; 2; 3; 4; 5; 6; 7; 8; 9])%N as H by (rewrite !elem_of_cons; lia).
      rewrite !elem_of_cons, elem_of_nil in H. by repeat (destruct H as [->|H]; [done|]).
    + intros _. by destruct d.
  - exists []. assert (x = 0%N) as -> by lia. by rewrite pretty_N_go_0.
Qed.

Lemma span_digits_app d l :
  forallb is_digit d = true -> ends_number l = true -> span_digits (d ++ l) = (d, l).
Proof.
  intros Hd Hl. induction d as [|c d IH]; cbn.
  - destruct l as [|c l]; [done|]. cbn in Hl. apply negb_true_iff, orb_false_iff in Hl as [H _]. cbn. by rewrite H.
  - cbn in Hd. apply andb_true_iff in Hd as [Hc Hd]. by rewrite Hc, IH.
Qed.

Lemma no_fraction l : ends_number l = true -> fraction l = ([], l) /\ exponent l = ([], l).
Proof.
  destruct l as [|c l]; [done|]. cbn [ends_number]. rewrite negb_true_iff, orb_false_iff. intros [_ H].
  unfold one_of in H. cbn in H. rewrite !orb_false_iff in H. destruct H as (H1 & H2 & H3 & _).
  unfold fraction, exponent. by rewrite H1, H2, H3.
Qed.

Lemma integer_part_N x l : ends_number l = true ->
  exists d, chars (pretty x) = d /\ d ≠ [] /\ forallb is_digit d = true /\ digits_value d = Z.of_N x /\
    integer_part (d ++ l) = Some (d, l).
Proof.
  intros Hl. unfold pretty, pretty_N. case_decide as Hx; [subst; by exists ["0"%char]|].
  destruct (pretty_N_go_digits x "") as (d & -> & Hd & Hv & Hz & Hne). cbn [chars list_ascii_of_string].
  rewrite app_nil_r. exists d. assert (Hnn : d ≠ []) by (apply Hne; lia). split_and!; try done.
  destruct d as [|c d]; [done|]. cbn [integer_part app]. destruct (Ascii.eqb_spec c "0") as [->|_]; [by destruct Hz|].
  change (c :: d ++ l) with ((c :: d) ++ l). by rewrite span_digits_app.
Qed.

Lemma digit_not_constant c l : is_digit c = true -> match_constant constants (c :: l) = None.
Proof.
  intros Hc. unfold constants, match_constant, constant.
  assert (H : forall w x, head (chars w) = Some x -> is_digit x = false -> is_prefix (chars w) (c :: l) = false).
  { intros w x Hw Hx. destruct (chars w) as [|y ys]; [done|]. injection Hw as ->. cbn.
    destruct (Ascii.eqb_spec x c) as [->|]; [|done]. by rewrite Hc in Hx. }
  by rewrite (H _ "n"%char), (H _ "t"%char), (H _ "f"%char), (H _ "N"%char), (H _ "I"%char), (H _ "-"%char).
Qed.

Lemma number_print z l : ends_number l = true -> number (chars (pretty z) ++ l) = Some (JInt z, l).
Proof.
  intros Hl. destruct (no_fraction l Hl) as [Hf He].
  assert (Hpos : forall n, number (chars (pretty n) ++ l) = Some (JInt (Z.of_N n), l)).
  { intros n. destruct (integer_part_N n l Hl) as (d & -> & Hne & Hd & Hv & Hi). unfold number.
    destruct d as [|c d]; [done|]. cbn [app]. destruct (Ascii.eqb_spec c "-") as [->|_]; [done|].
    change (c :: d ++ l) with ((c :: d) ++ l). rewrite Hi, Hf, He. cbn [app]. by rewrite Hv. }
  destruct z as [|p|p].
  - apply (Hpos 0%N).
  - apply (Hpos (N.pos p)).
  - change (chars (pretty (Z.neg p))) with ("-"%char :: chars (pretty (N.pos p))). destruct (integer_part_N (N.pos p) l Hl) as (d & E & Hne & Hd & Hv & Hi).
    rewrite E. unfold number. cbn [app]. rewrite Ascii.eqb_refl, Hi, Hf, He. cbn [app].
    by rewrite Hv.
Qed.

(** ** Strings *)

Lemma hex_digit_from n : n < 16 -> from_hex (hex_digit n) = Some n.
Proof. intros H. do 16 (destruct n as [|n]; [done|]). lia. Qed.

Lemma unicode_hex (c : ascii) :
  unicode "0"%char "0"%char (hex_digit (code c / 16)) (hex_digit (code c mod 16)) = Some c.
Proof. destruct c as [[] [] [] [] [] [] [] []]; reflexivity. Qed.

(** One printed character is read back. *)
Lemma string_body_char c l :
  string_body (escape_char c ++ l) =
  match string_body l with Some (s, r) => Some (c :: s, r) | None => None end.
Proof. destruct c as [[] [] [] [] [] [] [] []]; reflexivity. Qed.

Lemma string_body_quote s l : exists l', quote s ++ l = dquote :: l' /\ string_body l' = Some (chars s, l).
Proof.
  unfold quote. rewrite <- app_assoc. cbn [app]. eexists. split; [done|]. rewrite <- app_assoc. cbn [app].
  induction (chars s) as [|c cs IH]; [done|]. cbn [map concat]. by rewrite <- app_assoc, string_body_char, IH.
Qed.

(** ** White space *)

Definition not_ws (l : list ascii) : Prop := match l with c :: _ => is_ws c = false | [] => True end.
Lemma skip_ws_id l : not_ws l -> skip_ws l = l.
Proof. destruct l as [|c l]; [done|]. cbn. by intros ->. Qed.

Lemma skip_ws_app a l : forallb is_ws a = true -> skip_ws (a ++ l) = skip_ws l.
Proof. induction a as [|c a IH]; [done|]. cbn. intros [-> H]%andb_true_iff. by apply IH. Qed.

Lemma pad_ws indent n : forallb is_ws (pad indent n) = true.
Proof.
  destruct indent as [k|]; [|done]. cbn [pad forallb]. change (is_ws newline) with true. cbn [andb].
  induction (k * n) as [|m IH]; [done|]. cbn. exact IH.
Qed.

Lemma skip_pad indent n l : not_ws l -> skip_ws (pad indent n ++ l) = l.
Proof. intros H. rewrite skip_ws_app by apply pad_ws. by apply skip_ws_id. Qed.

(** ** The shape of printed text *)

Lemma digit_not_ws c : is_digit c = true -> is_ws c = false.
Proof. destruct c as [[] [] [] [] [] [] [] []]; by intros. Qed.

Lemma print_head indent n j l : printable j = true -> exists c r,
  print indent n j ++ l = c :: r /\ is_ws c = false /\ Ascii.eqb c "]"%char = false /\ Ascii.eqb c "}"%char = false.
Proof.
  assert (Hb : forall o cl items, exists r, bracket indent n o cl items ++ l = o :: r).
  { intros o cl [|i items]; unfold bracket; cbn [app]; eauto. }
  destruct j as [|[]|z|r|s|js|d]; cbn [print]; intros Hp; try done; try (by do 2 eexists).
  - assert (Hpos : forall x, exists c r, chars (pretty (x : N)) ++ l = c :: r /\ is_digit c = true).
    { intros x. destruct (integer_part_N x [] eq_refl) as (e & -> & Hne & Hd & _). destruct e as [|c e]; [done|].
      cbn in Hd. apply andb_true_iff in Hd as [? _]. by eexists c, _. }
    assert (Hdig : forall c, is_digit c = true -> is_ws c = false /\ Ascii.eqb c "]"%char = false /\ Ascii.eqb c "}"%char = false).
    { intros c. destruct c as [[] [] [] [] [] [] [] []]; by intros. }
    destruct z as [|p|p]; [destruct (Hpos 0%N) as (c & r & E & H)|destruct (Hpos (N.pos p)) as (c & r & E & H)|by do 2 eexists];
      exists c, r; (split; [exact E|]); by apply Hdig.
  - edestruct Hb as [r ->]. by do 2 eexists.
  - edestruct Hb as [r ->]. by do 2 eexists.
Qed.

Lemma print_not_ws indent n j l : printable j = true -> not_ws (print indent n j ++ l).
Proof. intros H. by destruct (print_head indent n j l H) as (c & r & -> & ? & _). Qed.

Lemma print_length indent n j : printable j = true -> 1 <= length (print indent n j).
Proof.
  intros H. destruct (print_head indent n j [] H) as (c & r & E & _). rewrite app_nil_r in E. rewrite E. cbn. lia.
Qed.

(** ** Sorting by key *)

Lemma merge_sort_by_key {A B : Type} (R1 : relation (string * A)) (R2 : relation (string * B))
    `{!RelDecision R1, !RelDecision R2} (g : string * A -> string * B) (d : list (string * A)) :
  (forall a b, R1 a b <-> str_le a.1 b.1) -> (forall a b, R2 a b <-> str_le a.1 b.1) ->
  (forall a, (g a).1 = a.1) -> NoDup (map fst d) ->
  merge_sort R2 (map g d) = map g (merge_sort R1 d).
Proof.
  intros H1 H2 Hg Hnd.
  assert (T1 : Transitive R1) by (intros ???; rewrite !H1; apply str_le_trans).
  assert (T2 : Transitive R2) by (intros ???; rewrite !H2; apply str_le_trans).
  assert (O1 : Total R1) by (intros a b; rewrite !H1; apply str_le_total).
  assert (O2 : Total R2) by (intros a b; rewrite !H2; apply str_le_total).
  assert (P1 : merge_sort R1 d ≡ₚ d) by apply merge_sort_Permutation.
  apply (StronglySorted_unique_strong R2).
  - intros x y Hx Hy. rewrite !H2. intros Hxy Hyx. assert (Hk : x.1 = y.1) by by apply str_le_antisym.
    rewrite merge_sort_Permutation in Hx. apply list_elem_of_fmap in Hx as (a & -> & Ha).
    apply list_elem_of_fmap in Hy as (b & -> & Hb). rewrite P1 in Hb. rewrite !Hg in Hk. f_equal.
    apply list_elem_of_lookup in Ha as [i Hi]. apply list_elem_of_lookup in Hb as [k Hb].
    assert (i = k) as <-; [|congruence].
    eapply (NoDup_lookup _ i k a.1 Hnd); apply list_lookup_fmap_Some; [by exists a|by exists b].
  - apply (StronglySorted_merge_sort R2).
  - assert (Hs : StronglySorted R1 (merge_sort R1 d)) by apply (StronglySorted_merge_sort R1).
    clear P1. induction Hs as [|a l _ IH Hall]; [constructor|]. cbn. constructor; [done|].
    apply Forall_fmap. eapply Forall_impl; [exact Hall|]. intros b Hb. cbn. by rewrite H2, !Hg, <- H1.
  - rewrite merge_sort_Permutation. apply Permutation_map. by symmetry.
Qed.

(** ** Reading back *)

(** Both printers write scalars the same way, arrays item by item, and the members of an object
    in some order; the reader sees the members in that order. *)
Definition scalar (j : json) : bool := match j with JArr _ | JObj _ => false | _ => true end.

Section ReadBack.
Variable indent : option nat.
Variable order : list (string * json) -> list (string * json).
Variable pr : nat -> json -> list ascii.
Variable image : json -> json.
(** The printed member of an object. *)
Definition member (n : nat) (kv : string * json) : list ascii :=
  quote kv.1 ++ colon indent ++ pr (S n) kv.2.
Hypothesis order_perm : forall d, order d ≡ₚ d.
Hypothesis pr_scalar : forall n j, scalar j = true -> pr n j = print indent n j.
Hypothesis pr_array : forall n l, pr n (JArr l) = bracket indent n "["%char "]"%char (map (pr (S n)) l).
Hypothesis pr_object : forall n d, NoDup (map fst d) -> pr n (JObj d) = bracket indent n "{"%char "}"%char (map (member n) (order d)).
Hypothesis image_scalar : forall j, scalar j = true -> image j = j.
Hypothesis image_array : forall l, image (JArr l) = JArr (map image l).
Hypothesis image_object : forall d, NoDup (map fst d) -> image (JObj d) = JObj (map (fun kv => (kv.1, image kv.2)) (order d)).

Lemma pr_head n j l : printable j = true -> exists c r,
  pr n j ++ l = c :: r /\ is_ws c = false /\ Ascii.eqb c "]"%char = false /\ Ascii.eqb c "}"%char = false.
Proof using All.
  intros Hp. destruct j as [| | | | |js|d]; try (rewrite pr_scalar by done; by apply print_head).
  - rewrite pr_array. destruct js; by do 2 eexists.
  - cbn in Hp. apply andb_true_iff in Hp as [Hnd%bool_decide_eq_true _]. rewrite pr_object by done.
    destruct (order d); by do 2 eexists.
Qed.
Lemma pr_not_ws n j l : printable j = true -> not_ws (pr n j ++ l).
Proof using All. intros H. by destruct (pr_head n j l H) as (c & r & -> & ? & _). Qed.
Lemma pr_length n j : printable j = true -> 1 <= length (pr n j).
Proof using All.
  intros H. destruct (pr_head n j [] H) as (c & r & E & _). rewrite app_nil_r in E. rewrite E. cbn. lia.
Qed.

(** [j] is read back from its printed form, given enough fuel. *)
Definition reads_back (j : json) : Prop := forall n l fuel,
  printable j = true -> ends_number l = true -> 2 * length (pr n j) <= fuel ->
  scan_value fuel (pr n j ++ l) = Some (image j, l).

(** The items of a bracket after the first one, and the closing. *)
Definition rest_of (n : nat) (items : list (list ascii)) (close : ascii) (l : list ascii) : list ascii :=
  concat (map (fun x => [","%char] ++ pad indent (S n) ++ x) items) ++ pad indent n ++ close :: l.

Lemma bracket_cons n o c i items l :
  bracket indent n o c (i :: items) ++ l = o :: pad indent (S n) ++ i ++ rest_of n items c l.
Proof. unfold bracket, rest_of. by rewrite <- !app_assoc. Qed.

Lemma rest_of_ends n items c l :
  negb (is_digit c || one_of ".eE" c) = true -> ends_number (rest_of n items c l) = true.
Proof.
  clear order_perm pr_scalar pr_array pr_object image_scalar image_array image_object.
  intros Hc. destruct items; [|done]. unfold rest_of. cbn [map concat app]. destruct indent; done.
Qed.

Lemma rest_of_cons n i items c l :
  rest_of n (i :: items) c l = ","%char :: pad indent (S n) ++ i ++ rest_of n items c l.
Proof. unfold rest_of. cbn [map concat]. by rewrite <- !app_assoc. Qed.

Definition weight (items : list (list ascii)) : nat := sum_list_with (fun i => 2 * length i + 1) items.

Lemma elements_print js n : Forall reads_back js -> forall j l fuel,
  reads_back j -> forallb printable (j :: js) = true ->
  1 + weight (map (pr (S n)) (j :: js)) <= fuel ->
  scan_elements fuel (pr (S n) j ++ rest_of n (map (pr (S n)) js) "]"%char l) =
  Some (map image (j :: js), l).
Proof using All.
  induction 1 as [|j' js Hj' _ IH]; intros j l fuel Hj Hp Hf;
    (destruct fuel as [|fuel]; [cbn in Hf; lia|]); cbn [scan_elements]; cbn [forallb] in Hp;
    apply andb_true_iff in Hp as [Hp0 Hp]; unfold weight in Hf; cbn [map sum_list_with] in Hf;
    (rewrite Hj; [|done|by apply rest_of_ends|lia]).
  - unfold rest_of. cbn [map concat app]. by rewrite skip_pad.
  - cbn [map]. rewrite rest_of_cons. rewrite skip_ws_id by done. cbn [Ascii.eqb].
    pose proof Hp as [Hp1 _]%andb_true_iff. rewrite skip_pad by by apply pr_not_ws.
    rewrite (IH j' l fuel Hj' Hp); [done|]. unfold weight. cbn [map sum_list_with]. lia.
Qed.

Lemma scan_key k l : exists l', quote k ++ colon indent ++ l = dquote :: l' /\
  exists l1, string_body l' = Some (chars k, l1) /\ exists l2, skip_ws l1 = ":"%char :: l2 /\ (not_ws l -> skip_ws l2 = l).
Proof.
  clear order_perm pr_scalar pr_array pr_object image_scalar image_array image_object.
  destruct (string_body_quote k (colon indent ++ l)) as (l' & E & Hb). exists l'. split; [done|].
  eexists. split; [exact Hb|]. destruct indent; cbn; eexists; (split; [done|]); intros H; exact (skip_ws_id l H).
Qed.

Lemma members_print d n : Forall (fun kv => reads_back kv.2) d -> forall kv l fuel,
  reads_back kv.2 -> forallb (fun kv => printable kv.2) (kv :: d) = true ->
  1 + weight (map (member n) (kv :: d)) <= fuel ->
  scan_members fuel (member n kv ++ rest_of n (map (member n) d) "}"%char l) =
  Some (map (fun kv => (kv.1, image kv.2)) (kv :: d), l).
Proof using All.
  induction 1 as [|kv' d Hkv' _ IH]; intros [k v] l fuel Hv Hp Hf;
    (destruct fuel as [|fuel]; [cbn in Hf; lia|]); cbn [forallb fst snd] in *;
    apply andb_true_iff in Hp as [Hp0 Hp]; unfold weight in Hf; cbn [map sum_list_with] in Hf;
    unfold member at 1; cbn [fst snd]; rewrite <- !app_assoc;
    match goal with |- context [pr (S n) v ++ ?r] =>
      destruct (scan_key k (pr (S n) v ++ r)) as (l' & -> & l1 & Hb & l2 & Hc & Hs);
      assert (Hr : ends_number r = true) by (by apply rest_of_ends);
      pose proof (pr_not_ws (S n) v r Hp0) as Hnw end;
    cbn [scan_members]; change (Ascii.eqb dquote dquote) with true; cbn [negb]; rewrite Hb, Hc; cbn [Ascii.eqb negb];
    rewrite (Hs Hnw);
    (rewrite Hv; [|done|exact Hr|unfold member in Hf; cbn [fst snd] in Hf; rewrite !length_app in Hf; lia]).
  - unfold rest_of. cbn [map concat app]. rewrite skip_pad by done. cbn. by rewrite str_chars.
  - cbn [map]. rewrite rest_of_cons. rewrite skip_ws_id by done. cbn [Ascii.eqb].
    rewrite skip_pad by (unfold member, quote; done).
    rewrite (IH kv' l fuel Hkv' Hp); [cbn; by rewrite str_chars|]. unfold weight. cbn [map sum_list_with]. lia.
Qed.

Lemma bracket_length n o c items : length (bracket indent n o c items) >= 2 + sum_list_with length items + (length items - 1).
Proof.
  destruct items as [|i items]; [cbn; lia|]. unfold bracket. rewrite !length_app. cbn [length sum_list_with].
  assert (H : length (concat (map (fun x => [","%char] ++ pad indent (S n) ++ x) items)) >=
              sum_list_with length items + length items); [|lia].
  induction items as [|x items IH]; cbn [map concat sum_list_with length]; [lia|]. rewrite !length_app. cbn [length]. lia.
Qed.

Lemma weight_bound n o c i items :
  2 * length (bracket indent n o c (i :: items)) >= 3 + weight (i :: items).
Proof.
  pose proof (bracket_length n o c (i :: items)) as H. cbn [length] in H.
  assert (E : weight (i :: items) = 2 * sum_list_with length (i :: items) + length (i :: items)); [|cbn [length] in E; lia].
  unfold weight. generalize (i :: items). intros l. induction l as [|x l IH]; [done|]. cbn [sum_list_with length]. lia.
Qed.

Lemma forallb_perm {A} (f : A -> bool) l k : l ≡ₚ k -> forallb f l = true -> forallb f k = true.
Proof. rewrite !forallb_elem. intros Hp H x Hx. apply H. by rewrite Hp. Qed.

Lemma read_items n o c (items : list (list ascii)) l :
  exists r, bracket indent n o c items ++ l = o :: r /\
    match items with [] => r = c :: l | i :: rest => r = pad indent (S n) ++ i ++ rest_of n rest c l end.
Proof. destruct items as [|i items]; [by eexists|]. rewrite bracket_cons. eauto. Qed.

Lemma scan_int fuel z l : ends_number l = true ->
  scan_value (S fuel) (chars (pretty z) ++ l) = Some (JInt z, l).
Proof.
  intros Hl. pose proof (number_print z l Hl) as Hn.
  assert (Hh : exists c r, chars (pretty z) ++ l = c :: r /\ (is_digit c = true \/ c = "-"%char /\ exists d r', r = d :: r' /\ is_digit d = true)).
  { assert (Hpos : forall x : N, exists c r, chars (pretty x) ++ l = c :: r /\ is_digit c = true).
    { intros x. destruct (integer_part_N x l Hl) as (e & -> & Hne & Hd & _). destruct e as [|c e]; [done|].
      cbn in Hd. apply andb_true_iff in Hd as [? _]. by eexists c, _. }
    destruct z as [|p|p]; [destruct (Hpos 0%N) as (c & r & E & H)|destruct (Hpos (N.pos p)) as (c & r & E & H)|];
      [exists c, r; split; [exact E|by left]|exists c, r; split; [exact E|by left]|].
    destruct (Hpos (N.pos p)) as (c & r & E & H). exists "-"%char, (c :: r). split; [by rewrite <- E|]. right. eauto. }
  destruct Hh as (c & r & E & Hc). rewrite E in *. cbn [scan_value].
  assert (Hm : match_constant constants (c :: r) = None).
  { destruct Hc as [Hc|(-> & d & r' & -> & Hd)]; [by apply digit_not_constant|].
    clear -Hd. by destruct d as [[] [] [] [] [] [] [] []]. }
  assert (Hs : Ascii.eqb c dquote = false /\ Ascii.eqb c "{"%char = false /\ Ascii.eqb c "["%char = false).
  { destruct Hc as [Hc|(-> & _)]; [|done]. by destruct c as [[] [] [] [] [] [] [] []]. }
  destruct Hs as (-> & -> & ->). by rewrite Hm.
Qed.

(** Everything printable is read back, at any depth and with any text after it. *)
Lemma read_pr j : reads_back j.
Proof using All.
  induction j as [|b|z|r|s|js IH|d IH] using json_ind'; intros n l fuel Hp Hl Hf;
    pose proof (pr_length n _ Hp) as Hlen; (destruct fuel as [|fuel]; [lia|]).
  - rewrite pr_scalar, image_scalar by done. done.
  - rewrite pr_scalar, image_scalar by done. by destruct b.
  - rewrite pr_scalar, image_scalar by done. by apply scan_int.
  - done.
  - rewrite pr_scalar, image_scalar by done. cbn [print]. destruct (string_body_quote s l) as (l' & -> & Hs). cbn [scan_value].
    change (Ascii.eqb dquote dquote) with true. cbv iota. by rewrite Hs, str_chars.
  - rewrite image_array. rewrite pr_array in *. cbn [printable] in Hp. destruct js as [|j js]; [done|]. cbn [map] in *.
    destruct (read_items n "["%char "]"%char (pr (S n) j :: map (pr (S n)) js) l) as (r & -> & ->).
    cbn [scan_value Ascii.eqb]. pose proof Hp as [Hp0 _]%andb_true_iff.
    destruct (pr_head (S n) j (rest_of n (map (pr (S n)) js) "]"%char l) Hp0) as (c & r & E & Hws & Hb & _).
    change (Ascii.eqb "[" dquote) with false. change (Ascii.eqb "[" "{") with false. change (Ascii.eqb "[" "[") with true.
    cbv iota. rewrite skip_pad by by rewrite E. rewrite E, Hb, <- E. inversion IH as [|? ? Hj Hjs]; subst.
    pose proof (weight_bound n "["%char "]"%char (pr (S n) j) (map (pr (S n)) js)) as Hw.
    rewrite (elements_print js n Hjs j l fuel Hj Hp); [done|]. cbn [map]. lia.
  - cbn [printable] in Hp. apply andb_true_iff in Hp as [Hnd%bool_decide_eq_true Hp].
    rewrite (image_object _ Hnd). rewrite (pr_object _ _ Hnd) in *.
    assert (HP : d ≡ₚ order d) by by rewrite order_perm.
    assert (IH' : Forall (fun kv => reads_back kv.2) (order d)) by (by rewrite <- HP).
    apply (forallb_perm _ _ _ HP) in Hp. assert (Hnd' : NoDup (map fst (order d))) by (by rewrite <- HP). clear IH Hnd HP.
    destruct (order d) as [|kv d']; [done|]. cbn [map] in *.
    destruct (read_items n "{"%char "}"%char (member n kv :: map (member n) d') l) as (r & -> & ->).
    cbn [scan_value]. change (Ascii.eqb "{" dquote) with false. change (Ascii.eqb "{" "{") with true. cbv iota.
    rewrite skip_pad by done. inversion IH' as [|? ? Hkv Hkvs]; subst.
    pose proof (weight_bound n "{"%char "}"%char (member n kv) (map (member n) d')) as Hw.
    assert (Hq : exists r', member n kv ++ rest_of n (map (member n) d') "}"%char l = dquote :: r') by by eexists.
    destruct Hq as [r' E]. rewrite E. change (Ascii.eqb dquote "}"%char) with false. cbv iota. rewrite <- E.
    rewrite (members_print d' n Hkvs kv l fuel Hkv Hp) by (cbn [map]; lia). cbn [map]. rewrite dict_of_id; [done|].
    change (NoDup (map fst (map (fun kv => (kv.1, image kv.2)) (kv :: d')))). by rewrite map_map.
Qed.
End ReadBack.

(** The sorted printer, and the one that keeps the order. *)
Lemma read_print indent j : reads_back (print indent) canon j.
Proof.
  apply (read_pr indent (merge_sort json_key_le)); try done; [intros; apply merge_sort_Permutation|by intros n []..| | |].
  - intros n d Hnd. cbn [print]. rewrite (merge_sort_by_key json_key_le key_le (fun kv => (kv.1, print indent (S n) kv.2)) d) by done.
    by rewrite map_map.
  - by intros [].
  - intros d Hnd. cbn [canon]. by rewrite (merge_sort_by_key json_key_le json_key_le (fun kv => (kv.1, canon kv.2)) d).
Qed.
Lemma read_print_ordered j : reads_back (fun _ => print_ordered) id j.
Proof.
  apply (read_pr None id); try done; [by intros n []|intros l; by rewrite map_id|].
  intros d _. unfold id. f_equal. induction d as [|[k v] d IH]; [done|]. cbn. by rewrite <- IH.
Qed.

Lemma print_ordered_not_ws j : printable j = true -> not_ws (print_ordered j).
Proof.
  intros Hp. destruct j as [| | | | |js|d]; cbn [print_ordered].
  1-5: rewrite <- (app_nil_r (print _ _ _)); by apply print_not_ws.
  - by destruct js.
  - by destruct d.
Qed.

Lemma loads_print indent j w :
  printable j = true -> forallb is_ws w = true -> loads (str (print indent 0 j ++ w)) = Some (canon j).
Proof.
  intros Hp Hw. unfold loads. rewrite chars_str, skip_ws_id by by apply print_not_ws.
  rewrite read_print; [| done | |].
  - assert (skip_ws w = []) as ->; [|done]. rewrite <- (app_nil_r w). by rewrite skip_ws_app.
  - destruct w as [|c w]; [done|]. cbn in Hw |- *. apply andb_true_iff in Hw as [Hc _]. clear -Hc.
    by destruct c as [[] [] [] [] [] [] [] []].
  - rewrite <- chars_length, chars_str, length_app. lia.
Qed.

(** [json.loads(json.dumps(j, sort_keys=True, ...))], also with a final newline. *)
Lemma loads_dumps_compact j : printable j = true -> loads (dumps_compact j) = Some (canon j).
Proof. intros Hp. rewrite <- (loads_print None j [] Hp eq_refl). by rewrite app_nil_r. Qed.
Lemma loads_dumps_line j : printable j = true -> loads (dumps_indent j +:+ str [newline]) = Some (canon j).
Proof. intros Hp. unfold dumps_indent. rewrite <- str_app. by apply loads_print. Qed.

Lemma loads_dumps_ordered j : printable j = true -> loads (dumps_ordered j) = Some j.
Proof.
  intros Hp. unfold loads, dumps_ordered. rewrite chars_str.
  assert (H : scan_value (2 * String.length (str (print_ordered j)) + 1) (print_ordered j ++ []) = Some (j, [])).
  { apply (read_print_ordered j 0 [] _ Hp eq_refl). rewrite <- chars_length, chars_str. lia. }
  rewrite app_nil_r in H. rewrite skip_ws_id; [by rewrite H|].
  pose proof (print_ordered_not_ws j Hp) as Hn. exact Hn.
Qed.

(** ** Documents built member by member *)

Lemma printable_JObj d : printable (JObj d) = true <-> NoDup (map fst d) /\ forallb (fun kv => printable kv.2) d = true.
Proof. cbn. by rewrite andb_true_iff, bool_decide_eq_true. Qed.
Lemma printable_dget k d v : printable (JObj d) = true -> dget k d = Some v -> printable v = true.
Proof. intros [_ H]%printable_JObj Hk%dget_Some_elem. rewrite forallb_elem in H. by apply (H (k, v)). Qed.
Lemma printable_dset k v d : printable (JObj d) = true -> printable v = true -> printable (JObj (dset k v d)) = true.
Proof.
  intros [Hnd H]%printable_JObj Hv. apply printable_JObj. split; [by apply dset_NoDup|]. clear Hnd.
  induction d as [|[k' v'] d IH]; cbn in *; [by rewrite Hv|]. apply andb_true_iff in H as [H1 H2].
  destruct (decide (k = k')); cbn; [by rewrite Hv, H2|by rewrite H1, IH].
Qed.

(** A list of documents that are read back one by one. *)
Lemma get_list_canon {A} (f : json -> result exn A) (g : A -> json) d k l :
  dget k d = Some (JArr (map canon (map g l))) -> (forall x, x ∈ l -> f (canon (g x)) = Ok x) -> get_list f d k = Ok l.
Proof. rewrite map_map. apply get_list_map. Qed.

Lemma printable_map {A} (g : A -> json) l : (forall x, printable (g x) = true) -> forallb printable (map g l) = true.
Proof. intros H. apply forallb_elem. intros j (x & -> & _)%list_elem_of_fmap. apply H. Qed.
