(* ===== verification/Pipelines.v ===== *)
(** * CI pipelines ([odoo_forge/pipeline/types.py], [odoo_forge_pipeline_github])

    The neutral pipeline provider over the GitHub Actions transport, and the REST transport over
    HTTP requests and zip archives, both of which may answer anything. *)

From stdpp Require Import pretty.
From S2P Require Import Prelude Effects Values Json.

(** ** [odoo_forge/pipeline/types.py] *)

Inductive PipelineRunState : Type := pending | running | succeeded | failed | canceled | unknown.
Record PipelineRunSpec : Type := mkPipelineRunSpec { prs_definition : string; prs_parameters : list (string * string) }.
Record PipelineRunRef : Type := mkPipelineRunRef { prr_run_id : string }.
Record PipelineRunStatus : Type := mkPipelineRunStatus { prs_state : PipelineRunState }.

(** ** The provider ([provider.py]) *)

(** The transport's vocabulary: what GitHub reports of a run is any JSON value. *)
Inductive actions_op : Type -> Type :=
| DispatchWorkflow (workflow ref : string) (inputs : list (string * string)) : actions_op string
| GetRunState (run_id : string) : actions_op (json * option json)
| GetRunLogs (run_id : string) : actions_op string.
Definition actions_prog := prog actions_op exn.

Definition PENDING_STATUSES : list string := ["queued"; "requested"; "waiting"; "pending"].
Definition FAILURE_CONCLUSIONS : list string := ["failure"; "timed_out"; "startup_failure"].
(** [value in names]; a list or dictionary has no hash. *)
Definition among (value : json) (names : list string) : result exn bool :=
  match value with
  | JStr s => Ok (bool_decide (s ∈ names))
  | JArr _ | JObj _ => Err (TypeError "unhashable type")
  | _ => Ok false
  end.
Definition is_text (value : json) (s : string) : bool := bool_decide (value = JStr s).
(** [_map_state]; an absent conclusion is [None], JSON's [null]. *)
Definition map_state (status : json) (conclusion : option json) : result exn PipelineRunState :=
  let conclusion := default JNull conclusion in
  let! is_pending := among status PENDING_STATUSES in
  if is_pending : bool then Ok pending
  else if is_text status "in_progress" then Ok running
  else if is_text status "completed" then
    if is_text conclusion "success" then Ok succeeded
    else
      let! is_failure := among conclusion FAILURE_CONCLUSIONS in
      if is_failure : bool then Ok failed
      else if is_text conclusion "cancelled" then Ok canceled
      else Ok unknown
  else Ok unknown.

Definition trigger (ref : string) (spec : PipelineRunSpec) : actions_prog PipelineRunRef :=
  let* run_id := call (DispatchWorkflow (prs_definition spec) ref (prs_parameters spec)) in Ret (mkPipelineRunRef run_id).
Definition status (r : PipelineRunRef) : actions_prog PipelineRunStatus :=
  let* '(status, conclusion) := call (GetRunState (prr_run_id r)) in
  let* state := lift (map_state status conclusion) in
  Ret (mkPipelineRunStatus state).
Definition logs (r : PipelineRunRef) : actions_prog string := call (GetRunLogs (prr_run_id r)).

(** ** The REST transport ([transport.py]) *)

(** What [zipfile] tells of an entry. *)
Record ZipInfo : Type := mkZipInfo { zi_filename : string; zi_is_dir : bool; zi_file_size : N; zi_flag_bits : N }.
Inductive rest_op : Type -> Type :=
| Request (url method : string) (body : option json) : rest_op string      (* [_request]; the body as [json.dumps] prints it *)
| OpenArchive (bytes : string) : rest_op (list ZipInfo)                    (* [ZipFile(...).infolist()] *)
| ReadEntry (bytes : string) (entry : ZipInfo) : rest_op string
| CloseArchive (bytes : string) : rest_op unit.
Definition rest_prog := prog rest_op exn.

Definition MAX_LOG_ARCHIVE_BYTES : N := 20 * 1024 * 1024.
Definition MAX_LOG_BYTES : N := 100 * 1024 * 1024.
Definition MAX_LOG_ENTRIES : N := 1000.

Record GitHubActionsRestTransport : Type := mkRest { rt_base_url : string; rt_owner : string; rt_repo : string }.
(** [__init__]: the base address without its final slashes. *)
Definition rest_transport (owner repo base_url : string) : GitHubActionsRestTransport :=
  mkRest (str (rdrop_while (Ascii.eqb "/"%char) (chars base_url))) owner repo.
Definition actions_url (t : GitHubActionsRestTransport) (tail : string) : string :=
  rt_base_url t +:+ "/repos/" +:+ rt_owner t +:+ "/" +:+ rt_repo t +:+ "/actions/" +:+ tail.

Definition no_run_id : exn := RuntimeError "workflow dispatch response has no workflow run id".
Definition dispatch_workflow (t : GitHubActionsRestTransport) (workflow ref : string) (inputs : list (string * string)) : rest_prog string :=
  let body := JObj [("ref", JStr ref); ("inputs", JObj (map (fun kv => (kv.1, JStr kv.2)) inputs))] in
  let* answer := call (Request (actions_url t ("workflows/" +:+ workflow +:+ "/dispatches")) "POST" (Some body)) in
  match loads answer with
  | Some (JObj d) =>
    match dget "workflow_run_id" d with
    | Some (JStr s) => if bool_decide (s = "") then Raise no_run_id else Ret s
    | Some (JInt z) => Ret (pretty z)
    | _ => Raise no_run_id
    end
  | _ => Raise no_run_id
  end.
Definition get_run_state (t : GitHubActionsRestTransport) (run_id : string) : rest_prog (json * option json) :=
  let* answer := call (Request (actions_url t ("runs/" +:+ run_id)) "GET" None) in
  match loads answer with
  | Some (JObj d) => match dget "status" d with Some s => Ret (s, dget "conclusion" d) | None => Raise (KeyError "status") end
  | Some _ => Raise (TypeError "string indices")
  | None => Raise (ValueError "JSONDecodeError")
  end.

Definition entry_le (a b : ZipInfo) : Prop := str_le (zi_filename a) (zi_filename b).
#[export] Instance entry_le_dec : RelDecision entry_le.
Proof. intros a b. unfold entry_le. apply _. Defined.
(** [filename.replace("\\", "/")], an absolute path, a [..] among its parts, or an encrypted entry. *)
Definition normalized (filename : string) : list ascii := map (fun c => if Ascii.eqb c backslash then "/"%char else c) (chars filename).
Definition unsafe_entry (e : ZipInfo) : bool :=
  match normalized (zi_filename e) with "/"%char :: _ => true | _ => false end ||
  bool_decide (chars ".." ∈ split_chars "/"%char (normalized (zi_filename e))) ||
  N.testbit (zi_flag_bits e) 0.
Definition total_size (entries : list ZipInfo) : N := foldr N.add 0%N (map zi_file_size entries).
(** The exceptions of [archive.read] that mean a bad archive, and those of the whole block. *)
Definition read_failures : list exn := map PortError ["BadZipFile"; "EOFError"; "NotImplementedError"; "zlib.error"].
Definition invalid_archive : exn := RuntimeError "invalid log archive".
Definition is_bad_archive (e : exn) : bool := bool_decide (e = PortError "BadZipFile") || bool_decide (e = PortError "UnicodeDecodeError").

Section Logs.
(** [bytes.decode("utf-8", errors="replace")] *)
Variable decode_replacing : string -> string.

Definition read_entry (bytes : string) (e : ZipInfo) : rest_prog string :=
  if unsafe_entry e then Raise (RuntimeError "log archive contains an unsafe entry") else
  let* content := catch (call (ReadEntry bytes e)) (fun x => Raise (if bool_decide (x ∈ read_failures) then invalid_archive else x)) in
  Ret (decode_replacing content).
Definition read_archive (bytes : string) (infos : list ZipInfo) : rest_prog string :=
  let entries := List.filter (fun e => negb (zi_is_dir e)) infos in
  if (MAX_LOG_ENTRIES <? N.of_nat (length entries))%N then Raise (RuntimeError "log archive contains too many entries") else
  if (MAX_LOG_BYTES <? total_size entries)%N then Raise (RuntimeError "log archive exceeds the uncompressed size limit") else
  let* output := map_each (read_entry bytes) (merge_sort entry_le entries) in
  Ret (String.concat "" output).
Definition get_run_logs (t : GitHubActionsRestTransport) (run_id : string) : rest_prog string :=
  let* bytes := call (Request (actions_url t ("runs/" +:+ run_id +:+ "/logs")) "GET" None) in
  if (MAX_LOG_ARCHIVE_BYTES <? N.of_nat (String.length bytes))%N then Raise (RuntimeError "log archive exceeds the compressed size limit") else
  catch
    (let* infos := call (OpenArchive bytes) in
     let* r := attempt (read_archive bytes infos) in
     call (CloseArchive bytes) ;*
     lift r)
    (fun e => Raise (if is_bad_archive e then invalid_archive else e)).
End Logs.

Definition serve_actions (decode_replacing : string -> string) (t : GitHubActionsRestTransport) (R : Type) (e : actions_op R) : rest_prog R :=
  match e with
  | DispatchWorkflow workflow ref inputs => dispatch_workflow t workflow ref inputs
  | GetRunState run_id => get_run_state t run_id
  | GetRunLogs run_id => get_run_logs decode_replacing t run_id
  end.

(** ** Facts *)

(** Equivalences between a computed state and facts on texts that are known. *)
Ltac decide_states := split_and!; (split; [intros ?; simplify_eq; eauto|
  let H := fresh in intros H; repeat match type of H with exists _, _ => destruct H as [? H] | _ /\ _ => let H1 := fresh in destruct H as [H1 H]; simplify_eq end; simplify_eq; try done]).

(** a run counts as succeeded exactly when GitHub reports it completed with success, as failed
    exactly on the three failing conclusions of a completed run, and as canceled exactly on
    GitHub's [cancelled]; whatever GitHub reports that the provider does not know is [unknown]. *)
Theorem run_states status conclusion :
  (map_state status conclusion = Ok succeeded <-> status = JStr "completed" /\ conclusion = Some (JStr "success")) /\
  (map_state status conclusion = Ok failed <->
     status = JStr "completed" /\ exists c, conclusion = Some (JStr c) /\ c ∈ FAILURE_CONCLUSIONS) /\
  (map_state status conclusion = Ok canceled <-> status = JStr "completed" /\ conclusion = Some (JStr "cancelled")) /\
  (map_state status conclusion = Ok running <-> (status = JStr "in_progress")) /\
  (map_state status conclusion = Ok pending <-> (exists s, status = JStr s /\ s ∈ PENDING_STATUSES)).
Proof.
  assert (("in_progress" ∉ PENDING_STATUSES) /\ ("completed" ∉ PENDING_STATUSES)) as [? ?] by (unfold PENDING_STATUSES; set_solver).
  assert (("success" ∉ FAILURE_CONCLUSIONS) /\ ("cancelled" ∉ FAILURE_CONCLUSIONS)) as [? ?] by (unfold FAILURE_CONCLUSIONS; set_solver).
  unfold map_state, is_text. generalize dependent PENDING_STATUSES. generalize dependent FAILURE_CONCLUSIONS.
  intros failures ? ? pendings ? ?. destruct status as [| | | |s| |], conclusion as [[| | | |c| |]|];
    cbn [default among result_bind]; repeat (case_bool_decide; simplify_eq/=); by decide_states.
Qed.

(** The entries that a read of the logs goes through: bounded, and safe each one. *)
Definition acceptable (entries : list ZipInfo) : Prop :=
  (N.of_nat (length entries) <= MAX_LOG_ENTRIES)%N /\ (total_size entries <= MAX_LOG_BYTES)%N /\
  forall e, e ∈ entries -> unsafe_entry e = false.

Lemma total_size_perm l k : l ≡ₚ k -> total_size l = total_size k.
Proof. unfold total_size. induction 1; cbn in *; lia. Qed.

Section LogFacts.
Variable decode_replacing : string -> string.

(** Every entry read once, in order. *)
Definition reads (bytes : string) (entries : list ZipInfo) (contents : list string) : list (event rest_op exn) :=
  zip_with (fun e c => Event (ReadEntry bytes e) (Ok c)) entries contents.
Lemma read_entries bytes l tr out : runs (map_each (read_entry decode_replacing bytes) l) tr (Ok out) ->
  (forall e, e ∈ l -> unsafe_entry e = false) /\
  exists contents, length contents = length l /\ tr = reads bytes l contents /\ out = map decode_replacing contents.
Proof.
  revert tr out. induction l as [|e l IH]; intros tr out H; cbn [map_each] in H.
  - apply runs_Ret in H as [-> [= ->]]. split; [by intros e ?%not_elem_of_nil|]. by exists [].
  - apply runs_bind in H as [(tr1 & tr2 & y & -> & H1 & H)|(x & [=] & _)].
    apply runs_bind in H as [(tr3 & tr4 & ys & -> & H2 & [-> [= ->]]%runs_Ret)|(x & [=] & _)].
    apply IH in H2 as (Hs & contents & Hlen & -> & ->). unfold read_entry in H1.
    destruct (unsafe_entry e) eqn:He; [by apply runs_Raise in H1 as [_ [=]]|].
    apply runs_bind in H1 as [(t1 & t2 & c & -> & H1 & [-> [= ->]]%runs_Ret)|(x & [=] & _)].
    apply runs_catch in H1 as [(a & [= <-] & ->%runs_call)|(t3 & t4 & x & _ & _ & [_ [=]]%runs_Raise)].
    split; [intros a [->|Ha]%elem_of_cons; [done|by apply Hs]|]. exists (c :: contents). rewrite !app_nil_r. cbn. by rewrite Hlen.
Qed.

(** the text of a run's logs is made of the archive's files alone, each read once, in the order
    of their names, after the archive and its stated contents were found within the limits and
    every name safe; the archive is closed. *)
Theorem logs_are_bounded t run_id tr text : runs (get_run_logs decode_replacing t run_id) tr (Ok text) ->
  exists bytes infos contents,
    let entries := merge_sort entry_le (List.filter (fun e => negb (zi_is_dir e)) infos) in
    (N.of_nat (String.length bytes) <= MAX_LOG_ARCHIVE_BYTES)%N /\ acceptable entries /\ length contents = length entries /\
    tr = [Event (Request (actions_url t ("runs/" +:+ run_id +:+ "/logs")) "GET" None) (Ok bytes); Event (OpenArchive bytes) (Ok infos)] ++
         reads bytes entries contents ++ [Event (CloseArchive bytes) (Ok tt)] /\
    text = String.concat "" (map decode_replacing contents).
Proof.
  unfold get_run_logs. intros ([bytes|x] & tr1 & -> & H)%runs_bind_call; [|by destruct H].
  destruct (_ <? _)%N eqn:Eb; [by apply runs_Raise in H as [_ [=]]|]. apply N.ltb_ge in Eb.
  apply runs_catch in H as [(a & [= <-] & H)|(t3 & t4 & x & _ & _ & [_ [=]]%runs_Raise)].
  apply runs_bind_call in H as ([infos|x] & tr2 & -> & H); [|by destruct H].
  apply runs_bind in H as [(tr3 & tr4 & r & -> & (r' & [= ->] & Hr)%runs_attempt & H)|(x & [=] & _)].
  apply runs_bind_call in H as ([[]|x] & tr5 & -> & H); [|by destruct H]. apply runs_lift in H as [-> <-].
  unfold read_archive in Hr. set (entries := List.filter _ infos) in *.
  destruct (_ <? _)%N eqn:En; [by apply runs_Raise in Hr as [_ [=]]|]. apply N.ltb_ge in En.
  destruct (MAX_LOG_BYTES <? _)%N eqn:Et; [by apply runs_Raise in Hr as [_ [=]]|]. apply N.ltb_ge in Et.
  apply runs_bind in Hr as [(tr6 & tr7 & out & -> & Hr & [-> [= ->]]%runs_Ret)|(x & [=] & _)].
  apply read_entries in Hr as (Hs & contents & Hlen & -> & ->). exists bytes, infos, contents. rewrite app_nil_r. cbv zeta. fold entries.
  assert (merge_sort entry_le entries ≡ₚ entries) as HP by apply merge_sort_Permutation.
  split; [done|]. split; [split_and!|by split_and!]; [by rewrite HP| |done].
  by rewrite (total_size_perm _ _ HP).
Qed.
End LogFacts.

Module Sample.
Definition transport : GitHubActionsRestTransport := rest_transport "acme" "shop" "https://api.github.com/".
Definition infos : list ZipInfo := [mkZipInfo "2_test.txt" false 5 0; mkZipInfo "1_build.txt" false 6 0; mkZipInfo "logs/" true 0 0].
Definition network : handler (E:=rest_op) (X:=exn) unit := fun R e w =>
  match e with
  | Request _ _ _ => (Ok "zip", w)
  | OpenArchive _ => (Ok infos, w)
  | ReadEntry _ i => (Ok (zi_filename i +:+ ";"), w)
  | CloseArchive _ => (Ok tt, w)
  end.
End Sample.
Lemma logs_are_bounded_witness :
  (exec Sample.network (get_run_logs id Sample.transport "7") tt).1.1 = Ok "1_build.txt;2_test.txt;" /\
  exists bytes, (N.of_nat (String.length bytes) <= MAX_LOG_ARCHIVE_BYTES)%N.
Proof.
  split; [vm_compute; reflexivity|].
  destruct (logs_are_bounded id Sample.transport "7" _ "1_build.txt;2_test.txt;" (exec_runs Sample.network (get_run_logs id Sample.transport "7") tt))
    as (bytes & infos & contents & H & _).
  exists bytes. exact H.
Defined.
