(* ===== verification/Lock.v ===== *)
(** * Locking and drift

    [build_lock] pins every declared reference through the source and artifact
    ports; the lockfile is serialised and read back in two schema versions; and
    drift compares manifest, lock and materialised workspace.  Sources:
    [manifest/lockfile.py], [manifest/locking.py], [manifest/drift.py],
    [manifest/artifacts.py] and the two resolver ports. *)

From S2P Require Import Prelude Effects Values Paths Schema Composition Json.

(** ** The canonical document of a manifest: [manifest.model_dump(mode="json")] *)

Definition git_repo_document (r : GitRepo) : json :=
  JObj [("url", JStr (repo_url r)); ("ref", JStr (repo_ref r))].

Definition layer_document (l : Layer) : json :=
  match l with
  | LPublished p => JObj [("type", JStr "published"); ("name", JStr (pub_name p));
      ("source", JStr (pub_source p)); ("version", JStr (pub_version p));
      ("category", JStr (pub_category p)); ("requires_enterprise", JBool (pub_requires_enterprise p))]
  | LGit g => JObj [("type", JStr "git"); ("name", JStr (git_name g));
      ("repos", JArr (map git_repo_document (git_repos g))); ("category", JStr (git_category g))]
  end.

Definition override_document (o : Override) : json :=
  JObj [("layer", JStr (ov_layer o)); ("repo", JStr (ov_repo o)); ("fork", JStr (ov_fork o));
        ("ref", JStr (ov_ref o))].

Definition odoo_backend_document (c : OdooBackendConfig) : json :=
  JObj [("http_port", jopt_int (http_port c)); ("bind_host", JStr (bind_host c))].

Definition manifest_document (m : Manifest) : json :=
  JObj [("name", JStr (m_name m));
        ("odoo_version", JStr (m_odoo_version m));
        ("edition", JStr match m_edition m with Community => "community" | Enterprise => "enterprise" end);
        ("core", JObj [("type", JStr "core"); ("url", JStr (core_url (m_core m)));
                       ("ref", jopt (core_ref (m_core m)))]);
        ("enterprise", match m_enterprise m with
                       | Some e => JObj [("type", JStr "enterprise"); ("url", JStr (ent_url e));
                                         ("ref", jopt (ent_ref e))]
                       | None => JNull
                       end);
        ("layers", JArr (map layer_document (m_layers m)));
        ("client", JObj [("type", JStr "client");
                         ("addons_path", JStr (path_str (addons_path (m_client m))));
                         ("python_requirements", jopt (path_str <$> python_requirements (m_client m)))]);
        ("overrides", JArr (map override_document (m_overrides m)));
        ("workspace", match m_workspace m with
                      | Some w => JObj [("checkout_timeout_seconds", jopt_int (checkout_timeout_seconds w))]
                      | None => JNull
                      end);
        ("backend", match m_backend m with
                    | Some b => JObj [("odoo", match bc_odoo b with
                                               | Some c => odoo_backend_document c
                                               | None => JNull
                                               end)]
                    | None => JNull
                    end);
        ("mount_priority", JArr (map JStr (m_mount_priority m)))].

(** The text that is hashed. *)
Definition canonical_manifest (m : Manifest) : string := dumps_compact (manifest_document m).

(** ** Lockfile serialisation *)

Definition resolved_repo_document (r : ResolvedRepo) : json :=
  JObj [("url", JStr (rr_url r)); ("ref", JStr (rr_ref r)); ("commit", JStr (rr_commit r))].
Definition resolved_git_layer_document (l : ResolvedGitLayer) : json :=
  JObj [("name", JStr (rl_name l)); ("repos", JArr (map resolved_repo_document (rl_repos l)))].
Definition resolved_published_layer_document (l : ResolvedPublishedLayer) : json :=
  JObj [("name", JStr (rp_name l)); ("source", JStr (rp_source l)); ("version", JStr (rp_version l));
        ("digest", JStr (rp_digest l))].

(** The document [to_canonical_json] prints. *)
Definition lockfile_document (lk : Lockfile) : result exn json :=
  if (lk_schema_version lk =? 1)%Z then
    ensure (bool_decide (lk_published_layers lk = []))
      (ValueError "lockfile schema version 1 cannot contain published layers") ;!
    Ok (JObj [("schema_version", JInt 1); ("generated_from", JStr (lk_generated_from lk));
              ("layers", JArr (map resolved_git_layer_document (lk_git_layers lk)))])
  else
    Ok (JObj [("schema_version", JInt 2); ("generated_from", JStr (lk_generated_from lk));
              ("git_layers", JArr (map resolved_git_layer_document (lk_git_layers lk)));
              ("published_layers", JArr (map resolved_published_layer_document (lk_published_layers lk)))]).

Definition to_canonical_json (lk : Lockfile) : result exn string :=
  let! d := lockfile_document lk in Ok (dumps_indent d +:+ str [newline]).

Definition read_resolved_repo (j : json) : result exn ResolvedRepo :=
  let! d := as_object j in
  let! url := get_str d "url" in
  let! ref := get_str d "ref" in
  let! commit := get_str d "commit" in
  Ok (mkResolvedRepo url ref commit).

Definition read_git_layer (j : json) : result exn ResolvedGitLayer :=
  let! d := as_object j in
  let! name := get_str d "name" in
  let! repos := get_list read_resolved_repo d "repos" in
  Ok (mkResolvedGitLayer name repos).

Definition read_published_layer (j : json) : result exn ResolvedPublishedLayer :=
  let! d := as_object j in
  let! name := get_str d "name" in
  let! source := get_str d "source" in
  let! version := get_str d "version" in
  let! digest := get_str d "digest" in
  resolved_published_layer name source version digest.

(** [LockfileV1.model_validate] and [LockfileV2.model_validate]; the version literal has
    been checked by the caller. *)
Definition read_v1 (d : list (string * json)) : result exn Lockfile :=
  only_keys ["schema_version"; "generated_from"; "layers"] d ;!
  let! gf := get_str d "generated_from" in
  let! layers := get_list read_git_layer d "layers" in
  Ok (mkLockfile 1 gf layers []).

Definition read_v2 (d : list (string * json)) : result exn Lockfile :=
  only_keys ["schema_version"; "generated_from"; "git_layers"; "published_layers"] d ;!
  let! gf := get_str d "generated_from" in
  let! git := get_list read_git_layer d "git_layers" in
  let! pub := get_list read_published_layer d "published_layers" in
  Ok (mkLockfile 2 gf git pub).

(** The dispatch of [Lockfile.from_json] on the decoded document. *)
Definition lockfile_of_document (j : json) : result exn Lockfile :=
  match j with
  | JObj d =>
    match default (JInt 1) (dget "schema_version" d) with
    | JInt 1 => read_v1 d
    | JInt 2 => read_v2 d
    | JInt _ => Err (ValueError "unsupported lockfile schema version")
    | _ => Err (ValueError "lockfile schema_version must be an integer")
    end
  | _ => Err (ValueError "lockfile document must be a JSON object")
  end.

(** [Lockfile.from_json]; a [JSONDecodeError] is a [ValueError]. *)
Definition from_json (raw : string) : result exn Lockfile :=
  match loads raw with
  | Some j => lockfile_of_document j
  | None => Err (ValueError "malformed JSON")
  end.

(** ** [build_lock] *)

Record PublishedArtifactResolution : Type := mkResolution {
  res_source : string; res_version : string; res_digest : string }.

(** The two ports of locking. *)
Inductive lock_op : Type -> Type :=
| ResolveRef (url ref : string) : lock_op string
| ResolveArtifact (source version : string) : lock_op PublishedArtifactResolution.

Definition lock_prog := prog lock_op exn.

Section Locking.
(** [hashlib.sha256(...).hexdigest()] *)
Variable sha256 : string -> string.

Definition compute_manifest_hash (m : Manifest) : string := sha256 (canonical_manifest m).

Definition overrides_by_target (m : Manifest) : list ((string * string) * Override) :=
  dict_of (map (fun o => ((ov_layer o, ov_repo o), o)) (m_overrides m)).

Definition resolve_core (m : Manifest) : lock_prog ResolvedGitLayer :=
  let ref := resolve_default_ref (core_ref (m_core m)) (m_odoo_version m) in
  let* commit := call (ResolveRef (core_url (m_core m)) ref) in
  Ret (mkResolvedGitLayer "core" [mkResolvedRepo (core_url (m_core m)) ref commit]).

Definition resolve_enterprise (m : Manifest) (e : EnterpriseLayer) : lock_prog ResolvedGitLayer :=
  let ref := resolve_default_ref (ent_ref e) (m_odoo_version m) in
  let* commit := call (ResolveRef (ent_url e) ref) in
  Ret (mkResolvedGitLayer "enterprise" [mkResolvedRepo (ent_url e) ref commit]).

(** The repository an override redirects to, or the declared one. *)
Definition effective_repo (overrides : list ((string * string) * Override)) (layer : string)
    (r : GitRepo) : string * string :=
  match dget (layer, repo_url r) overrides with
  | Some o => (ov_fork o, ov_ref o)
  | None => (repo_url r, repo_ref r)
  end.

Definition resolve_repo (overrides : list ((string * string) * Override)) (layer : string)
    (r : GitRepo) : lock_prog ResolvedRepo :=
  let '(url, ref) := effective_repo overrides layer r in
  let* commit := call (ResolveRef url ref) in
  Ret (mkResolvedRepo url ref commit).

Definition resolve_git_layer (overrides : list ((string * string) * Override)) (g : GitLayer)
    : lock_prog ResolvedGitLayer :=
  let* repos := map_each (resolve_repo overrides (git_name g)) (git_repos g) in
  Ret (mkResolvedGitLayer (git_name g) repos).

(** The loop over [manifest.layers], accumulating both lists. *)
Fixpoint resolve_layers (overrides : list ((string * string) * Override)) (ls : list Layer)
    (git : list ResolvedGitLayer) (pub : list ResolvedPublishedLayer)
    : lock_prog (list ResolvedGitLayer * list ResolvedPublishedLayer) :=
  match ls with
  | [] => Ret (git, pub)
  | LGit g :: ls' =>
    let* l := resolve_git_layer overrides g in
    resolve_layers overrides ls' (git ++ [l]) pub
  | LPublished p :: ls' =>
    let* r := call (ResolveArtifact (pub_source p) (pub_version p)) in
    let* l := lift (resolved_published_layer (pub_name p) (res_source r) (res_version r) (res_digest r)) in
    resolve_layers overrides ls' git (pub ++ [l])
  end.

Definition build_lock (m : Manifest) : lock_prog Lockfile :=
  let* _ := lift (compose m) in
  let* core := resolve_core m in
  let* ent := match m_enterprise m with
              | Some e => let* l := resolve_enterprise m e in Ret [l]
              | None => Ret []
              end in
  let* ' (git, pub) := resolve_layers (overrides_by_target m) (m_layers m) (core :: ent) [] in
  Ret (mkLockfile 2 (compute_manifest_hash m) git pub).

(** ** Drift *)

Inductive DriftKind : Type := manifest_lock_hash | missing_lock | not_materialized | commit_mismatch.
Record DriftEntry : Type := mkDriftEntry {
  de_kind : DriftKind; de_layer : option string; de_repo : option string;
  de_expected : option string; de_actual : option string }.
Record DriftReport : Type := mkDriftReport {
  manifest_lock_drift : list DriftEntry; lock_state_drift : list DriftEntry }.

Definition is_clean (r : DriftReport) : bool :=
  match manifest_lock_drift r, lock_state_drift r with [], [] => true | _, _ => false end.

Definition compute_manifest_lock_drift (m : Manifest) (lock : option Lockfile) : list DriftEntry :=
  match lock with
  | None => [mkDriftEntry missing_lock None None None None]
  | Some lk =>
    let current_hash := compute_manifest_hash m in
    if bool_decide (lk_generated_from lk = current_hash) then []
    else [mkDriftEntry manifest_lock_hash None None (Some current_hash) (Some (lk_generated_from lk))]
  end.

Definition repo_drift (layer : string) (by_url : list (string * MaterializedRepo)) (r : ResolvedRepo)
    : list DriftEntry :=
  match dget (rr_url r) by_url with
  | None => [mkDriftEntry not_materialized (Some layer) (Some (rr_url r)) None None]
  | Some mr =>
    if bool_decide (mr_commit mr = rr_commit r) then []
    else [mkDriftEntry commit_mismatch (Some layer) (Some (rr_url r)) (Some (rr_commit r))
            (Some (mr_commit mr))]
  end.

Definition layer_drift (by_name : list (string * MaterializedLayer)) (l : ResolvedGitLayer)
    : list DriftEntry :=
  match dget (rl_name l) by_name with
  | None => [mkDriftEntry not_materialized (Some (rl_name l)) None None None]
  | Some ml =>
    let by_url := dict_of (map (fun r => (mr_url r, r)) (ml_repos ml)) in
    concat (map (repo_drift (rl_name l) by_url) (rl_repos l))
  end.

Definition compute_lock_state_drift (lock : option Lockfile) (st : option MaterializedState)
    : list DriftEntry :=
  match lock, st with
  | Some lk, Some s =>
    let by_name := dict_of (map (fun l => (ml_name l, l)) (ms_layers s)) in
    concat (map (layer_drift by_name) (lk_git_layers lk))
  | _, _ => []
  end.

Definition detect_drift (m : Manifest) (lock : option Lockfile) (st : option MaterializedState)
    : DriftReport :=
  mkDriftReport (compute_manifest_lock_drift m lock) (compute_lock_state_drift lock st).
End Locking.
