(* ===== verification/Projection.v ===== *)
(** * Workspace projection ([manifest/projection.py])

    Planning of the on-disk layout from manifest and lock, promotion of a checkout,
    mapping a scan back to a materialised state, and the selection of one
    authoritative bind mount per locked repository. *)

From S2P Require Import Prelude Effects Values Paths Schema Urls Composition Json Lock.

(** ** Mount roots *)

Definition CONTAINER_MOUNT_BASE : path := path_of "/mnt".

Definition add_custom_root (base : path) (roots : list (string * path)) (category : string)
    : list (string * path) :=
  let folder := custom_category_folder category in
  dset ("custom/" +:+ folder) (div (div base "custom") folder) roots.

Definition build_mount_roots (base : path) (manifest : option Manifest) : list (string * path) :=
  let roots := [("community", div base "community"); ("enterprise", div base "enterprise");
                ("worktrees", div base "worktrees")] in
  match manifest with
  | None => dset "custom" (div base "custom") roots
  | Some m => foldl (add_custom_root base) roots (sorted_set (map layer_category (m_layers m)))
  end.

Definition default_container_roots (m : Manifest) : list (string * path) :=
  build_mount_roots CONTAINER_MOUNT_BASE (Some m).

(** [d[k]] *)
Definition dget_or_raise (k : string) (d : list (string * path)) : result exn path :=
  match dget k d with Some p => Ok p | None => Err (KeyError k) end.

Definition starts_with (prefix s : string) : bool := is_prefix (chars prefix) (chars s).

Fixpoint result_map {A B : Type} (f : A -> result exn B) (l : list A) : result exn (list B) :=
  match l with
  | [] => Ok []
  | x :: l' => let! y := f x in let! ys := result_map f l' in Ok (y :: ys)
  end.

(** The key order of the runtime [addons_path]. *)
Definition addons_root_order (m : Manifest) (roots : list (string * path)) : list string :=
  let default_order :=
    List.filter (fun k => bool_decide (k ∈ roots.*1)) ["worktrees"; "community"; "enterprise"] ++
    sorted_str (List.filter (starts_with "custom/") roots.*1) in
  m_mount_priority m ++
  List.filter (fun k => negb (bool_decide (k ∈ m_mount_priority m))) default_order.

Definition ordered_addons_roots (m : Manifest) (base : path) : result exn (list path) :=
  let roots := build_mount_roots base (Some m) in
  result_map (fun k => dget_or_raise k roots) (addons_root_order m roots).

(** ** Plans *)

Record ScannedRepo : Type := mkScannedRepo { sc_path : path; sc_url : string; sc_commit : string }.
Record WorkspacePlanEntry : Type := mkWorkspacePlanEntry {
  we_mount_root : string; we_layer : string; we_url : string; we_commit : string;
  we_target_path : path }.
Record MountEvidence : Type := mkMountEvidence {
  me_layer : string; me_url : string; me_source_path : path; me_container_path : path;
  me_read_only : bool }.
Record UnlockPlan : Type := mkUnlockPlan { up_source : path; up_dest : path; up_branch : string }.

(** What a locked layer name may denote in the manifest. *)
Inductive AnyLayer : Type :=
| ACore (c : CoreLayer)
| AEnterprise (e : EnterpriseLayer)
| ALayer (l : Layer).

Definition classify_root (l : AnyLayer) : string :=
  match l with
  | ACore _ => "community"
  | AEnterprise _ => "enterprise"
  | ALayer l => custom_root_key (layer_category l)
  end.

Definition manifest_layers_by_name (m : Manifest) : list (string * AnyLayer) :=
  let d := [("core", ACore (m_core m))] in
  let d := match m_enterprise m with Some e => dset "enterprise" (AEnterprise e) d | None => d end in
  foldl (fun d l => dset (layer_name l) (ALayer l) d) d (m_layers m).

Definition plan_layer (by_name : list (string * AnyLayer)) (roots : list (string * path))
    (l : ResolvedGitLayer) : result exn (list WorkspacePlanEntry) :=
  match dget (rl_name l) by_name with
  | None => Err (ProjectionError ("locked layer '" +:+ rl_name l +:+ "' has no matching manifest layer"))
  | Some matched =>
    let mount_root := classify_root matched in
    result_map (fun r =>
      let! base := dget_or_raise mount_root roots in
      Ok (mkWorkspacePlanEntry mount_root (rl_name l) (rr_url r) (rr_commit r)
            (div (div base (rl_name l)) (repo_name (rr_url r))))) (rl_repos l)
  end.

Definition plan_projection (m : Manifest) (lk : Lockfile) (roots : option (list (string * path)))
    : result exn (list WorkspacePlanEntry) :=
  let roots := default (default_container_roots m) roots in
  let! steps := result_map (plan_layer (manifest_layers_by_name m) roots) (lk_git_layers lk) in
  Ok (concat steps).

Definition declared_urls (l : AnyLayer) : list string :=
  match l with
  | ACore c => [core_url c]
  | AEnterprise e => [ent_url e]
  | ALayer (LGit g) => map repo_url (git_repos g)
  | ALayer (LPublished _) => []
  end.

Definition plan_unlock (m : Manifest) (layer repo : string) (roots : option (list (string * path)))
    : result exn UnlockPlan :=
  let roots := default (default_container_roots m) roots in
  match dget layer (manifest_layers_by_name m) with
  | None => Err (ProjectionError ("layer '" +:+ layer +:+ "' has no matching manifest layer"))
  | Some matched =>
    ensure (bool_decide (repo ∈ declared_urls matched))
      (ProjectionError ("repo does not belong to layer '" +:+ layer +:+ "'")) ;!
    let effective_url :=
      match find_first (fun o => bool_decide (ov_layer o = layer) && bool_decide (ov_repo o = repo))
              (m_overrides m) with
      | Some o => ov_fork o
      | None => repo
      end in
    let name := repo_name effective_url in
    let! source_root := dget_or_raise (classify_root matched) roots in
    let! worktrees := dget_or_raise "worktrees" roots in
    Ok (mkUnlockPlan (div (div source_root layer) name) (div (div worktrees layer) name)
          ("unlock/" +:+ layer +:+ "/" +:+ name))
  end.

(** ** [project_workspace] over the workspace port *)

Inductive workspace_op : Type -> Type :=
| Checkout (url commit : string) (dest : path) : workspace_op unit.

Definition project_workspace (plan : list WorkspacePlanEntry) : prog workspace_op exn unit :=
  for_each (fun s => call (Checkout (we_url s) (we_commit s) (we_target_path s))) plan.

(** ** From a scan to a materialised state *)

Fixpoint match_root_and_layer (p : path) (roots : list (string * path)) : option (string * string) :=
  match roots with
  | [] => None
  | (root_name, base) :: roots' =>
    match relative_to p base with
    | None => match_root_and_layer p roots'
    | Some rel =>
      match parts rel with
      | layer :: _ :: _ => Some (root_name, layer)
      | _ => None
      end
    end
  end.

Definition scan_error (p : path) : exn :=
  ScanError ("scanned path does not match the /mnt/<root>/<layer>/... layout: " +:+ path_str p).

Definition layer_table := list (string * list (string * MaterializedRepo)).

(** [layers.setdefault(layer, {})[repo.url] = MaterializedRepo(...)] *)
Definition record_repo (layers : layer_table) (layer : string) (r : ScannedRepo) : layer_table :=
  dset layer (dset (sc_url r) (mkMaterializedRepo (sc_url r) (sc_commit r))
               (default [] (dget layer layers))) layers.

Fixpoint classify_scan (roots : list (string * path)) (scanned : list ScannedRepo)
    (layers : layer_table) (worktree_entries : list (string * ScannedRepo))
    : result exn (layer_table * list (string * ScannedRepo)) :=
  match scanned with
  | [] => Ok (layers, worktree_entries)
  | r :: rest =>
    match match_root_and_layer (sc_path r) roots with
    | None => Err (scan_error (sc_path r))
    | Some (root_name, layer) =>
      if bool_decide (root_name = "worktrees")
      then classify_scan roots rest layers (worktree_entries ++ [(layer, r)])
      else classify_scan roots rest (record_repo layers layer r) worktree_entries
    end
  end.

Definition materialize_state (scanned : list ScannedRepo) (roots : list (string * path))
    : result exn MaterializedState :=
  let! ' (layers, worktree_entries) := classify_scan roots scanned [] [] in
  let layers := foldl (fun d e => record_repo d e.1 e.2) layers worktree_entries in
  Ok (mkMaterializedState (map (fun l => mkMaterializedLayer l.1 (map snd l.2)) layers)).

(** ** Lock validation against the manifest *)

Definition expected_git_repo (overrides : list ((string * string) * Override)) (layer : string)
    (r : GitRepo) : string * string :=
  match dget (layer, repo_url r) overrides with
  | Some o => (ov_fork o, ov_ref o)
  | None => (repo_url r, repo_ref r)
  end.

Definition expected_git (m : Manifest) : list (string * list (string * string)) :=
  let overrides := overrides_by_target m in
  [("core", [(core_url (m_core m), resolve_default_ref (core_ref (m_core m)) (m_odoo_version m))])] ++
  match m_enterprise m with
  | Some e => [("enterprise", [(ent_url e, resolve_default_ref (ent_ref e) (m_odoo_version m))])]
  | None => []
  end ++
  omap (fun l => match l with
                 | LGit g => Some (git_name g, map (expected_git_repo overrides (git_name g)) (git_repos g))
                 | LPublished _ => None
                 end) (m_layers m).

Definition expected_published (m : Manifest) : list (string * (string * string)) :=
  omap (fun l => match l with
                 | LGit _ => None
                 | LPublished p => Some (pub_name p, (pub_source p, pub_version p))
                 end) (m_layers m).

Definition actual_git (lk : Lockfile) : list (string * list (string * string)) :=
  map (fun l => (rl_name l, map (fun r => (rr_url r, rr_ref r)) (rl_repos l))) (lk_git_layers lk).
Definition actual_published (lk : Lockfile) : list (string * (string * string)) :=
  map (fun l => (rp_name l, (rp_source l, rp_version l))) (lk_published_layers lk).

Definition validate_lock_structure (m : Manifest) (lk : Lockfile) : result exn unit :=
  let! _ := compose m in
  ensure (bool_decide (expected_git m = actual_git lk) &&
          bool_decide (expected_published m = actual_published lk))
    (MountPlanningError "manifest/lock structural mismatch").

(** ** Validation of the materialised state *)

Definition identity : Type := string * string.

Definition evidence_name (i : identity) : string :=
  "'" +:+ i.1 +:+ "' / '" +:+ repo_name i.2 +:+ "'".

Fixpoint collect_actual (actual : list (identity * string)) (facts : list (identity * string))
    : result exn (list (identity * string)) :=
  match facts with
  | [] => Ok actual
  | (i, commit) :: facts' =>
    match dget i actual with
    | Some _ => Err (MountPlanningError ("duplicate materialized evidence for " +:+ evidence_name i))
    | None => collect_actual (dset i commit actual) facts'
    end
  end.

Definition state_facts (st : MaterializedState) : list (identity * string) :=
  concat (map (fun l => map (fun r => ((ml_name l, mr_url r), mr_commit r)) (ml_repos l)) (ms_layers st)).

Definition same_keys (a b : list (identity * string)) : bool :=
  forallb (fun k => bool_decide (k ∈ b.*1)) a.*1 && forallb (fun k => bool_decide (k ∈ a.*1)) b.*1.

Definition validate_materialized_state (st : MaterializedState) (expected : list (identity * string))
    : result exn unit :=
  let! actual := collect_actual [] (state_facts st) in
  ensure (same_keys actual expected)
    (MountPlanningError "materialized evidence does not match required mount evidence") ;!
  result_iter (fun e : identity * string =>
    ensure (bool_decide (dget e.1 actual = Some e.2))
      (MountPlanningError ("materialized commit drift for " +:+ evidence_name e.1))) expected.

(** ** Mount planning *)

Definition step_identity (s : WorkspacePlanEntry) : identity := (we_layer s, we_url s).

Definition container_path_of (container_roots : list (string * path)) (s : WorkspacePlanEntry)
    : result exn path :=
  let! base := dget_or_raise (we_mount_root s) container_roots in
  Ok (div (div base (we_layer s)) (repo_name (we_url s))).

(** The two evidences a repository may have. *)
Record Sources : Type := mkSources { src_worktree : option ScannedRepo; src_read_only : option ScannedRepo }.
Definition no_sources : Sources := mkSources None None.

Definition scan_one (expected : list (identity * WorkspacePlanEntry)) (roots : list (string * path))
    (sources : list (identity * Sources)) (r : ScannedRepo) : result exn (list (identity * Sources)) :=
  match match_root_and_layer (sc_path r) roots with
  | None => Err (scan_error (sc_path r))
  | Some (root_name, layer) =>
    let i := (layer, sc_url r) in
    match dget i expected with
    | None => Err (MountPlanningError ("unexpected scanned evidence for " +:+ evidence_name i))
    | Some step =>
      let worktree := bool_decide (root_name = "worktrees") in
      let! base := dget_or_raise (if worktree then "worktrees" else we_mount_root step) roots in
      ensure (bool_decide (sc_path r = div (div base layer) (repo_name (sc_url r))))
        (MountPlanningError ("incoherent path for " +:+ evidence_name i)) ;!
      let s := default no_sources (dget i sources) in
      match (if worktree then src_worktree s else src_read_only s) with
      | Some _ => Err (MountPlanningError ("duplicate " +:+ (if worktree then "worktree" else "read_only")
                         +:+ " evidence for " +:+ evidence_name i))
      | None =>
        Ok (dset i (if worktree then mkSources (Some r) (src_read_only s)
                    else mkSources (src_worktree s) (Some r)) sources)
      end
    end
  end.

Fixpoint scan_sources (expected : list (identity * WorkspacePlanEntry)) (roots : list (string * path))
    (sources : list (identity * Sources)) (scanned : list ScannedRepo)
    : result exn (list (identity * Sources)) :=
  match scanned with
  | [] => Ok sources
  | r :: rest => let! s := scan_one expected roots sources r in scan_sources expected roots s rest
  end.

(** The worktree wins over the read-only checkout. *)
Definition selected (s : Sources) : option ScannedRepo :=
  match src_worktree s with Some r => Some r | None => src_read_only s end.

Definition check_commit (expected : list (identity * WorkspacePlanEntry)) (e : identity * Sources)
    : result exn unit :=
  match selected e.2, dget e.1 expected with
  | Some r, Some step =>
    ensure (bool_decide (sc_commit r = we_commit step))
      (MountPlanningError ("commit drift for " +:+ evidence_name (step_identity step)))
  | _, _ => Err (KeyError "read_only")
  end.

Definition identity_le (a b : identity * WorkspacePlanEntry) : Prop :=
  chars_leb (chars a.1.1) (chars b.1.1) = true /\
  (a.1.1 = b.1.1 -> chars_leb (chars a.1.2) (chars b.1.2) = true).
#[export] Instance identity_le_dec : RelDecision identity_le.
Proof.
  intros a b. unfold identity_le.
  destruct (decide (a.1.1 = b.1.1)) as [E|E].
  - destruct (decide (chars_leb (chars a.1.1) (chars b.1.1) = true /\
                      chars_leb (chars a.1.2) (chars b.1.2) = true)); [left|right]; tauto.
  - destruct (decide (chars_leb (chars a.1.1) (chars b.1.1) = true)); [left|right]; tauto.
Defined.

Definition mount_of (container_roots : list (string * path)) (sources : list (identity * Sources))
    (e : identity * WorkspacePlanEntry) : result exn MountEvidence :=
  let s := default no_sources (dget e.1 sources) in
  match selected s with
  | None => Err (MountPlanningError ("missing required evidence for " +:+ evidence_name (step_identity e.2)))
  | Some r =>
    let! cp := container_path_of container_roots e.2 in
    Ok (mkMountEvidence (we_layer e.2) (we_url e.2) (sc_path r) cp
          (match src_worktree s with Some _ => false | None => true end))
  end.

Section MountPlanning.
Variable sha256 : string -> string.

Definition build_mount_planning_view (m : Manifest) (lock : option Lockfile)
    (scanned : list ScannedRepo) (state : MaterializedState) (roots : list (string * path))
    (container_roots : option (list (string * path))) : result exn (list MountEvidence) :=
  let container_roots := default (default_container_roots m) container_roots in
  match lock with
  | None => Err (MountPlanningError "mount planning requires a project lock")
  | Some lk =>
    ensure (bool_decide (length (manifest_lock_drift (detect_drift sha256 m (Some lk) None)) = 0))
      (MountPlanningError "manifest/lock drift") ;!
    validate_lock_structure m lk ;!
    let! plan := plan_projection m lk None in
    let expected := dict_of (map (fun s => (step_identity s, s)) plan) in
    ensure (length expected =? length plan)
      (MountPlanningError "lock contains duplicate repository identities") ;!
    let! container_paths := result_map (container_path_of container_roots) plan in
    ensure (length (remove_dups container_paths) =? length container_paths)
      (MountPlanningError "lock contains conflicting projected container paths") ;!
    let! sources := scan_sources expected roots [] scanned in
    result_iter (check_commit expected) sources ;!
    let! mounts := result_map (mount_of container_roots sources) (merge_sort identity_le expected) in
    validate_materialized_state state (map (fun e => (e.1, we_commit e.2)) expected) ;!
    Ok mounts
  end.
End MountPlanning.
