(* ===== verification/Backend.v ===== *)
(** * Backend planning and status ([odoo_forge/backend/status.py], [backend/plan.py])

    Docker-safe names, the plan computed from a manifest and its mounts, and the reading of
    [docker inspect] answers.  Both modules are pure; SHA-256 is a parameter. *)

From S2P Require Import Prelude Values Paths Schema Json Projection.

(** ** Names *)

Definition HASH_LEN : nat := 8.
Definition is_valid_char (c : ascii) : bool := is_lower c || is_digit c || one_of "_.-" c.
Definition is_valid_first_char (c : ascii) : bool := is_lower c || is_digit c.

Record InstanceRef : Type := mkInstanceRef {
  ir_project : string; ir_instance : string; ir_network : string; ir_postgres_container : string; ir_odoo_container : string }.

Inductive RoleState : Type := Exited | Starting | Unhealthy | Healthy | NoHealthcheck | UnknownState.
Record RoleStatus : Type := mkRoleStatus { rs_running : bool; rs_state : RoleState; rs_ready : bool }.
Record InstanceStatus : Type := mkInstanceStatus { is_odoo : RoleStatus; is_postgres : RoleStatus }.

#[export] Instance InstanceRef_eq_dec : EqDecision InstanceRef.
Proof. solve_decision. Defined.
#[export] Instance RoleState_eq_dec : EqDecision RoleState.
Proof. solve_decision. Defined.
#[export] Instance RoleStatus_eq_dec : EqDecision RoleStatus.
Proof. solve_decision. Defined.
#[export] Instance InstanceStatus_eq_dec : EqDecision InstanceStatus.
Proof. solve_decision. Defined.

Section Names.
(** [hashlib.sha256(text).hexdigest()] *)
Variable sha256 : string -> string.

Definition sanitize_name (raw : string) : string :=
  let lowered := chars (lower raw) in
  let cleaned := List.filter is_valid_char lowered in
  let lossy := negb (bool_decide (str lowered = raw)) || negb (forallb is_valid_char lowered) in
  let '(cleaned, lossy) :=
    match cleaned with
    | [] => (cleaned, true)
    | c :: _ => if is_valid_first_char c then (cleaned, lossy) else ("x"%char :: cleaned, true)
    end in
  if negb lossy then str cleaned
  else str (match cleaned with [] => ["x"%char] | _ => cleaned end) +:+ "-" +:+
       str (take HASH_LEN (chars (sha256 raw))).

Definition derive_instance_ref (m : Manifest) (instance : string) : InstanceRef :=
  let project := sanitize_name (m_name m) in
  let normalized_instance := sanitize_name instance in
  let network := "odoo-forge-" +:+ project +:+ "-" +:+ normalized_instance in
  mkInstanceRef project normalized_instance network (network +:+ "-db") (network +:+ "-odoo").

(** ** The plan *)

Record Mount : Type := mkMount { mt_root : string; mt_host_path : string; mt_container_path : string; mt_read_only : bool }.
Record NetworkSpec : Type := mkNetworkSpec { ns_name : string; ns_labels : list (string * string) }.
Record VolumeSpec : Type := mkVolumeSpec { vs_name : string; vs_labels : list (string * string) }.
Record ContainerSpec : Type := mkContainerSpec {
  ctr_name : string; ctr_image : string; ctr_role : string; ctr_network : string; ctr_env : list (string * string);
  ctr_secret_env : list (string * string); ctr_mounts : list Mount; ctr_labels : list (string * string);
  ctr_volumes : list VolumeSpec; ctr_bind_host : string; ctr_ports : list (string * option Z) }.
Record BackendPlan : Type := mkBackendPlan {
  bp_network : NetworkSpec; bp_volumes : list VolumeSpec; bp_postgres : ContainerSpec; bp_odoo : ContainerSpec;
  bp_postgres_credentials : option string }.

Definition DB_USER : string := "odoo".
Definition POSTGRES_PORT : string := "5432".
Definition POSTGRES_IMAGE : string := "postgres:16".

Definition labels (project instance : string) (role : option string) : list (string * string) :=
  [("com.odoo-forge.project", project); ("com.odoo-forge.instance", instance); ("com.odoo-forge.managed", "true")] ++
  match role with Some r => [("com.odoo-forge.role", r)] | None => [] end.

(** [container_path.parts[2]] *)
Definition mount_of_evidence (e : MountEvidence) : result exn Mount :=
  match parts (me_container_path e) !! 2 with
  | Some root => Ok (mkMount root (path_str (me_source_path e)) (path_str (me_container_path e)) (me_read_only e))
  | None => Err IndexError
  end.

Definition odoo_settings (m : Manifest) : option Z * string :=
  match m_backend m with
  | Some (mkBackendConfig (Some o)) => (http_port o, bind_host o)
  | _ => (None, DEFAULT_ODOO_BIND_HOST)
  end.

(** [credentials] is the bound [odoo_db_password] handle. *)
Definition plan_backend (m : Manifest) (mounts : list MountEvidence) (instance : string) (odoo_image : option string)
    (credentials postgres_credentials : option string) : result exn BackendPlan :=
  let '(odoo_http_port, odoo_bind_host) := odoo_settings m in
  let! mounts := result_map mount_of_evidence mounts in
  let ref := derive_instance_ref m instance in
  let project := ir_project ref in
  let instance := ir_instance ref in
  let network_name := ir_network ref in
  let pgdata := mkVolumeSpec (network_name +:+ "-pgdata") (labels project instance (Some "postgres")) in
  let filestore := mkVolumeSpec (network_name +:+ "-filestore") (labels project instance (Some "odoo")) in
  let! roots := ordered_addons_roots m CONTAINER_MOUNT_BASE in
  let postgres := mkContainerSpec (ir_postgres_container ref) POSTGRES_IMAGE "postgres" network_name
    [("POSTGRES_USER", DB_USER); ("POSTGRES_DB", project)] [] [] (labels project instance (Some "postgres"))
    [pgdata] DEFAULT_ODOO_BIND_HOST [] in
  let odoo := mkContainerSpec (ir_odoo_container ref)
    (default ("odoo-forge-odoo:" +:+ m_odoo_version m) odoo_image) "odoo" network_name
    [("DB_HOST", ir_postgres_container ref); ("DB_PORT", POSTGRES_PORT); ("DB_USER", DB_USER); ("POSTGRES_DB", project);
     ("FORGE_ADDONS_PATH_ORDER", join "," (map path_str roots))]
    (match credentials with Some h => [("DB_PASSWORD", h)] | None => [] end) mounts
    (labels project instance (Some "odoo")) [filestore] odoo_bind_host [("8069", odoo_http_port); ("8072", None)] in
  Ok (mkBackendPlan (mkNetworkSpec network_name (labels project instance None)) [pgdata; filestore] postgres odoo
        postgres_credentials).
End Names.

(** [instance_ref(plan)] *)
Definition instance_ref (p : BackendPlan) : result exn InstanceRef :=
  match dget "com.odoo-forge.project" (ns_labels (bp_network p)), dget "com.odoo-forge.instance" (ns_labels (bp_network p)) with
  | Some project, Some instance =>
    Ok (mkInstanceRef project instance (ns_name (bp_network p)) (ctr_name (bp_postgres p)) (ctr_name (bp_odoo p)))
  | _, _ => Err (KeyError "com.odoo-forge.project")
  end.

(** ** Status *)

Definition NOT_RUNNING : RoleStatus := mkRoleStatus false Exited false.

(** Python truthiness of a JSON value; a number is zero when its mantissa has no other digit. *)
Definition truthy (j : json) : bool :=
  match j with
  | JNull | JBool false | JStr "" | JArr [] | JObj [] => false
  | JInt z => negb (z =? 0)%Z
  | JFloat r => existsb (fun c => negb (one_of "+-0." c)) (chars (before_first "e"%char (lower r)))
  | _ => true
  end.
(** [value.get(key)] on anything but a dict is an [AttributeError]. *)
Definition attribute_error : exn := PortError "AttributeError".
Definition jget (key : string) (j : json) : result exn json :=
  match j with JObj d => Ok (default JNull (dget key d)) | _ => Err attribute_error end.
(** [value.get(key, {})] *)
Definition jget_dict (key : string) (j : json) : result exn json :=
  match j with JObj d => Ok (default (JObj []) (dget key d)) | _ => Err attribute_error end.

Definition role_status (role : string) (container : option json) : result exn RoleStatus :=
  match container with
  | None => Ok NOT_RUNNING
  | Some c =>
    let! state := jget "State" c in
    let state := if truthy state then state else JObj [] in
    let! running := jget "Running" state in
    if negb (truthy running) then Ok NOT_RUNNING else
    let! health := jget "Health" state in
    let health_status := match health with JObj d => default JNull (dget "Status" d) | _ => JNull end in
    Ok (if bool_decide (health_status = JStr "healthy") then mkRoleStatus true Healthy true
        else if bool_decide (health_status = JStr "starting") then mkRoleStatus true Starting false
        else if bool_decide (health_status = JStr "unhealthy") then mkRoleStatus true Unhealthy false
        else if bool_decide (role = "postgres") then mkRoleStatus true NoHealthcheck false
        else mkRoleStatus true UnknownState false)
  end.

(** The containers by their role label; a label that is not a text is no role asked for. *)
Fixpoint by_role (containers : list json) (d : list (string * json)) : result exn (list (string * json)) :=
  match containers with
  | [] => Ok d
  | c :: cs =>
    let! config := jget_dict "Config" c in
    let! lbls := jget_dict "Labels" config in
    let! role := jget "com.odoo-forge.role" lbls in
    match role with
    | JStr r => by_role cs (if bool_decide (r = "") then d else dset r c d)
    | JArr (_ :: _) | JObj (_ :: _) => Err (TypeError "unhashable")
    | _ => by_role cs d
    end
  end.

Definition parse_status (inspect_json : json) : result exn InstanceStatus :=
  let containers := match inspect_json with JNull => [] | JArr l => l | j => [j] end in
  let! roles := by_role containers [] in
  let! odoo := role_status "odoo" (dget "odoo" roles) in
  let! postgres := role_status "postgres" (dget "postgres" roles) in
  Ok (mkInstanceStatus odoo postgres).

(** * Properties of the backend plan

    Names are safe for Docker and stable under renaming, and the identity read back from a
    plan is the identity derived without one. *)

Section Names.
Variable sha256 : string -> string.
(** A hexadecimal digest: at least eight digits, in lower case. *)
Hypothesis sha256_hex : forall t, 8 <= String.length (sha256 t) /\
  forallb (fun c => is_digit c || in_range "a"%char "f"%char c) (chars (sha256 t)) = true.

Abbreviation sanitize_name := (sanitize_name sha256).
Abbreviation derive_instance_ref := (derive_instance_ref sha256).

(** [[a-z0-9][a-z0-9_.-]*] *)
Definition docker_name (s : string) : bool :=
  match chars s with c :: l => is_valid_first_char c && forallb is_valid_char l | [] => false end.

Lemma first_is_valid c : is_valid_first_char c = true -> is_valid_char c = true.
Proof. unfold is_valid_first_char, is_valid_char. by intros ->. Qed.

Lemma valid_is_lower c : is_valid_char c = true -> lower_char c = c.
Proof. destruct c as [[] [] [] [] [] [] [] []]; vm_compute; congruence. Qed.

Lemma hex_is_valid c : is_digit c || in_range "a"%char "f"%char c = true -> is_valid_char c = true.
Proof. destruct c as [[] [] [] [] [] [] [] []]; vm_compute; congruence. Qed.

Lemma docker_name_chars s : docker_name s = true -> forallb is_valid_char (chars s) = true.
Proof.
  unfold docker_name. destruct (chars s) as [|c l]; [done|]. rewrite andb_true_iff. intros [Hc%first_is_valid Hl].
  cbn. by rewrite Hc, Hl.
Qed.

Lemma forallb_filter {A} (f : A -> bool) l : forallb f (List.filter f l) = true.
Proof. apply forallb_elem. intros x Hx%list_elem_of_In. by apply List.filter_In in Hx as [_ ?]. Qed.

Lemma filter_all {A} (f : A -> bool) l : forallb f l = true -> List.filter f l = l.
Proof. induction l as [|x l IH]; [done|]. cbn. rewrite andb_true_iff. intros [-> H]. by rewrite IH. Qed.

Lemma docker_name_app s t : docker_name s = true -> forallb is_valid_char (chars t) = true -> docker_name (s +:+ t) = true.
Proof.
  unfold docker_name. rewrite chars_app. destruct (chars s) as [|c l]; [done|]. cbn. rewrite !andb_true_iff.
  intros [-> Hl] Ht. split; [done|]. by rewrite forallb_app, Hl, Ht.
Qed.

Lemma suffix_valid raw : forallb is_valid_char (chars ("-" +:+ str (take HASH_LEN (chars (sha256 raw))))) = true.
Proof using sha256_hex.
  rewrite chars_app, chars_str, forallb_app. apply andb_true_iff. split; [done|]. apply forallb_elem.
  intros c Hc. destruct (sha256_hex raw) as [_ H]. rewrite forallb_elem in H. apply hex_is_valid, H.
  by apply (subseteq_take HASH_LEN).
Qed.

(** What [sanitize_name] returns is a Docker name. *)
Lemma sanitize_name_safe raw : docker_name (sanitize_name raw) = true.
Proof using sha256_hex.
  unfold Backend.sanitize_name. set (cleaned := List.filter is_valid_char (chars (lower raw))).
  pose proof (forallb_filter is_valid_char (chars (lower raw))) as Hall. fold cleaned in Hall.
  set (lossy := negb _ || _). pose proof (suffix_valid raw) as Hsuffix.
  destruct cleaned as [|c l] eqn:Ec.
  - cbn [negb]. by apply docker_name_app.
  - cbn in Hall. apply andb_true_iff in Hall as [Hc Hl]. destruct (is_valid_first_char c) eqn:Ef.
    + assert (Hd : docker_name (str (c :: l)) = true) by (unfold docker_name; by rewrite chars_str, Ef, Hl).
      destruct (negb lossy); [done|]. by apply docker_name_app.
    + cbn [negb]. apply docker_name_app; [|done]. unfold docker_name. rewrite chars_str. cbn. by rewrite Hc, Hl.
Qed.

(** A Docker name is its own sanitized form. *)
Lemma sanitize_name_id s : docker_name s = true -> sanitize_name s = s.
Proof.
  intros Hs. pose proof (docker_name_chars s Hs) as Hv.
  assert (Hlow : lower s = s).
  { unfold lower. apply chars_inj. rewrite chars_str. clear Hs. induction (chars s) as [|c l IH]; [done|].
    cbn in Hv. apply andb_true_iff in Hv as [Hc Hl]. cbn. by rewrite (valid_is_lower c Hc), (IH Hl). }
  unfold Backend.sanitize_name. rewrite Hlow, str_chars, bool_decide_true, Hv by done. cbn [negb orb].
  rewrite filter_all by done. unfold docker_name in Hs. destruct (chars s) as [|c l] eqn:Ec; [done|].
  apply andb_true_iff in Hs as [-> _]. cbn [negb]. rewrite <- Ec. apply str_chars.
Qed.

Definition all_names (r : InstanceRef) : list string :=
  [ir_project r; ir_instance r; ir_network r; ir_postgres_container r; ir_odoo_container r].

Lemma derived_names_safe m instance : forallb docker_name (all_names (derive_instance_ref m instance)) = true.
Proof using sha256_hex.
  assert (Hnet : docker_name (ir_network (derive_instance_ref m instance)) = true).
  { cbn [Backend.derive_instance_ref ir_network]. apply docker_name_app; [done|]. rewrite chars_app, forallb_app.
    rewrite (docker_name_chars _ (sanitize_name_safe _)). rewrite chars_app, forallb_app.
    by rewrite (docker_name_chars _ (sanitize_name_safe _)). }
  unfold all_names. cbn [forallb]. rewrite Hnet, !andb_true_iff. split_and!; try done; try apply sanitize_name_safe;
    by apply docker_name_app.
Qed.

(** A plan's identity.  The handle read back from a plan is the handle derived from the
    manifest without a plan; each of its five names is a valid Docker name, and sanitizing
    the project and instance again changes nothing, so a stored handle derives itself.  In
    the plan both containers join that network, mount the two planned volumes, agree on the
    database name, and the application reaches the database container by its name. *)
Theorem plan_identity m mounts instance image credentials postgres_credentials p :
  plan_backend sha256 m mounts instance image credentials postgres_credentials = Ok p ->
  let ref := derive_instance_ref m instance in
  instance_ref p = Ok ref /\ forallb docker_name (all_names ref) = true /\
  sanitize_name (ir_project ref) = ir_project ref /\ sanitize_name (ir_instance ref) = ir_instance ref /\
  ctr_network (bp_postgres p) = ir_network ref /\ ctr_network (bp_odoo p) = ir_network ref /\
  bp_volumes p = ctr_volumes (bp_postgres p) ++ ctr_volumes (bp_odoo p) /\
  dget "POSTGRES_DB" (ctr_env (bp_postgres p)) = dget "POSTGRES_DB" (ctr_env (bp_odoo p)) /\
  dget "DB_HOST" (ctr_env (bp_odoo p)) = Some (ctr_name (bp_postgres p)) /\
  dget "DB_USER" (ctr_env (bp_odoo p)) = dget "POSTGRES_USER" (ctr_env (bp_postgres p)) /\
  (map fst (ctr_secret_env (bp_odoo p)) ⊆ ["DB_PASSWORD"]) /\ ctr_secret_env (bp_postgres p) = [].
Proof using sha256_hex.
  intros H ref. unfold plan_backend in H. destruct (odoo_settings m) as [port bind].
  apply result_bind_Ok in H as (mts & _ & H). apply result_bind_Ok in H as (roots & _ & H). injection H as <-.
  split_and!; try done.
  - apply derived_names_safe.
  - apply sanitize_name_id, sanitize_name_safe.
  - apply sanitize_name_id, sanitize_name_safe.
  - cbn. destruct credentials; cbn; [done|]. apply list_subseteq_nil.
Qed.
End Names.

Lemma plan_identity_witness :
  let sha256 := fun _ : string => "0123456789abcdef" in
  let m := mkManifest "My Shop" "17.0" Community default_core None [] (mkClient (path_of "addons") None) [] None None [] in
  exists p, plan_backend sha256 m [] "default" None (Some "db-password") (Some "pg") = Ok p /\
    ctr_name (bp_odoo p) = "odoo-forge-myshop-01234567-default-odoo" /\
    instance_ref p = Ok (derive_instance_ref sha256 m "default").
Proof.
  intros sha256 m. destruct (plan_backend sha256 m [] "default" None (Some "db-password") (Some "pg")) as [p|x] eqn:E.
  - assert (Hhex : forall t, 8 <= String.length (sha256 t) /\
      forallb (fun c => is_digit c || in_range "a"%char "f"%char c) (chars (sha256 t)) = true).
    { intros t. split; [cbn; lia|reflexivity]. }
    destruct (plan_identity sha256 Hhex m [] "default" None (Some "db-password") (Some "pg") p E) as [H _].
    exists p. split_and!; [reflexivity| |exact H]. vm_compute in E. injection E as <-. reflexivity.
  - vm_compute in E. discriminate E.
Defined.
