(* ===== verification/Durable.v ===== *)
(** * Durable operations ([durable_operations/service.py], [ports/durable_operation_store.py])

    Replay identities, the lifecycle of an operation, checkpoints, recovery planning, the
    terminal commit bundle and the record invariant every store returns. *)

From S2P Require Import Prelude Values.

(** ** Lifecycle *)

Inductive LifecycleState : Type :=
| ACCEPTED | IN_PROGRESS | RECONCILIATION_REQUIRED | TERMINAL_PENDING
| SUCCEEDED | FAILED | CLEANUP_REQUIRED | CLOSED.
#[export] Instance LifecycleState_eq_dec : EqDecision LifecycleState.
Proof. solve_decision. Defined.

(** [str(state)], as it appears in messages. *)
Definition state_text (s : LifecycleState) : string :=
  match s with
  | ACCEPTED => "accepted" | IN_PROGRESS => "in_progress"
  | RECONCILIATION_REQUIRED => "reconciliation_required" | TERMINAL_PENDING => "terminal_pending"
  | SUCCEEDED => "succeeded" | FAILED => "failed"
  | CLEANUP_REQUIRED => "cleanup_required" | CLOSED => "closed"
  end.

Definition LIFECYCLE_ORDER (s : LifecycleState) : nat :=
  match s with
  | ACCEPTED => 0 | IN_PROGRESS => 1 | RECONCILIATION_REQUIRED => 2 | TERMINAL_PENDING => 3
  | SUCCEEDED => 4 | FAILED => 4 | CLEANUP_REQUIRED => 5 | CLOSED => 6
  end.

Definition TERMINAL_OUTCOMES : list LifecycleState := [SUCCEEDED; FAILED].
Definition RESOLVED_STATES : list LifecycleState := TERMINAL_OUTCOMES ++ [CLOSED].
Definition POST_COMMIT_STATES : list LifecycleState := TERMINAL_OUTCOMES ++ [CLEANUP_REQUIRED; CLOSED].

Definition in_states (s : LifecycleState) (l : list LifecycleState) : bool := bool_decide (s ∈ l).

Definition next_revision (r : OperationRevision) : OperationRevision := mkOperationRevision (rev_value r + 1).

Definition replay_or_conflict (recorded : DurableOperationIdentity) (submitted : string)
    : result exn DurableOperationIdentity :=
  if negb (matches_request_digest recorded submitted) then Err ReplayConflictError else Ok recorded.

Definition advance_lifecycle (current : LifecycleState) (revision : OperationRevision)
    (target : LifecycleState) : result exn (LifecycleState * OperationRevision) :=
  if LIFECYCLE_ORDER target <? LIFECYCLE_ORDER current then
    Err (InvalidLifecycleTransitionError ("cannot regress from " +:+ state_text current +:+ " to " +:+ state_text target))
  else if in_states current TERMINAL_OUTCOMES && in_states target TERMINAL_OUTCOMES &&
          negb (bool_decide (target = current)) then
    Err (InvalidLifecycleTransitionError ("cannot overwrite authoritative terminal outcome " +:+
           state_text current +:+ " with " +:+ state_text target))
  else if in_states target POST_COMMIT_STATES && negb (in_states current POST_COMMIT_STATES) then
    Err (InvalidLifecycleTransitionError ("cannot reach " +:+ state_text target +:+
           " without an authoritative terminal commit"))
  else Ok (target, next_revision revision).

(** ** Checkpoints and recovery *)

Record DurableCheckpoint : Type := mkDurableCheckpoint {
  cp_revision : OperationRevision; cp_phase : string; cp_evidence : RedactedEvidence }.

Definition save_checkpoint (revision : OperationRevision) (phase : string) (evidence : RedactedEvidence)
    : result exn DurableCheckpoint :=
  ensure (negb (bool_decide (phase = ""))) (ValueError "checkpoint phase must not be empty") ;!
  Ok (mkDurableCheckpoint revision phase evidence).

Inductive RecoveryAction : Type := RESUME | RECONCILE | SURFACE_RESIDUAL | NO_RECOVERY_REQUIRED.
#[export] Instance RecoveryAction_eq_dec : EqDecision RecoveryAction.
Proof. solve_decision. Defined.

Record RecoveryPlan : Type := mkRecoveryPlan {
  rp_action : RecoveryAction; rp_revision : OperationRevision;
  rp_checkpoint : option DurableCheckpoint; rp_reason : string }.

Definition UNKNOWN_OUTCOME_REASON : string := "mutation outcome is unknown without a durable checkpoint".

Definition plan_recovery (state : LifecycleState) (revision : OperationRevision)
    (checkpoint : option DurableCheckpoint) (mutation_attempted : bool) : RecoveryPlan :=
  if in_states state RESOLVED_STATES then
    mkRecoveryPlan NO_RECOVERY_REQUIRED revision checkpoint "operation is already resolved"
  else if bool_decide (state = CLEANUP_REQUIRED) then
    mkRecoveryPlan SURFACE_RESIDUAL revision checkpoint "residual cleanup remains open"
  else if bool_decide (state = RECONCILIATION_REQUIRED) then
    mkRecoveryPlan RECONCILE revision checkpoint "mutation outcome requires reconciliation"
  else match checkpoint with
       | None =>
         if mutation_attempted then mkRecoveryPlan RECONCILE revision None UNKNOWN_OUTCOME_REASON
         else mkRecoveryPlan RESUME revision None "no mutation has been attempted"
       | Some cp =>
         mkRecoveryPlan RESUME (next_revision (cp_revision cp)) (Some cp) "resume from durable checkpoint"
       end.

(** ** Terminal commits *)

Record TerminalCommitBundle : Type := mkTerminalCommitBundle {
  tc_expected_revision : OperationRevision; tc_outcome : LifecycleState;
  tc_evidence : list RedactedEvidence; tc_residual_cleanup : list RedactedEvidence }.

Definition build_terminal_commit (expected_revision : OperationRevision) (outcome : LifecycleState)
    (evidence residual_cleanup : list RedactedEvidence) : result exn TerminalCommitBundle :=
  ensure (in_states outcome TERMINAL_OUTCOMES)
    (IncompleteTerminalCommitError "terminal outcome must be succeeded or failed") ;!
  ensure (match evidence with [] => false | _ => true end)
    (IncompleteTerminalCommitError "terminal commit requires durable evidence") ;!
  Ok (mkTerminalCommitBundle expected_revision outcome evidence residual_cleanup).

Definition ensure_compensation_target (scope : CompensationScope) (resource_id : string)
    : result exn string :=
  if negb (owns scope resource_id)
  then Err (UnsafeCompensationError ("resource '" +:+ resource_id +:+ "' is not owned by operation '" +:+
              cs_operation_id scope +:+ "'"))
  else Ok resource_id.

(** ** The durable record and its invariant *)

Definition RESIDUAL_LIFECYCLES : list LifecycleState := [CLEANUP_REQUIRED; CLOSED].

Record DurableOperationRecord : Type := mkDurableOperationRecord {
  do_identity : DurableOperationIdentity; do_revision : OperationRevision;
  do_lifecycle : LifecycleState; do_checkpoint : option DurableCheckpoint;
  do_terminal_commit : option TerminalCommitBundle; do_recovery_evidence : list RedactedEvidence }.

(** [DurableOperationRecord.__post_init__] *)
Definition post_init (r : DurableOperationRecord) : result exn DurableOperationRecord :=
  match do_terminal_commit r with
  | None => Ok r
  | Some tc =>
    match tc_residual_cleanup tc with
    | _ :: _ =>
      ensure (in_states (do_lifecycle r) RESIDUAL_LIFECYCLES)
        (ValueError "terminal commits with residual cleanup must surface cleanup_required lifecycle until the obligation is resolved as closed") ;!
      Ok r
    | [] =>
      ensure (bool_decide (do_lifecycle r = tc_outcome tc))
        (ValueError "terminal commits without residual cleanup must expose their terminal outcome lifecycle") ;!
      Ok r
    end
  end.

(** ** Sequences of transitions *)

Inductive advances : LifecycleState * OperationRevision -> list LifecycleState ->
    LifecycleState * OperationRevision -> Prop :=
| advances_nil c : advances c [] c
| advances_cons s r t c ts c' :
    advance_lifecycle s r t = Ok c -> advances c ts c' -> advances (s, r) (t :: ts) c'.

(** Executable: attempt each target in turn, a rejected one leaves the state as it was. *)
Fixpoint attempt_all (c : LifecycleState * OperationRevision) (ts : list LifecycleState)
    : LifecycleState * OperationRevision :=
  match ts with
  | [] => c
  | t :: ts' =>
    match advance_lifecycle c.1 c.2 t with
    | Ok c' => attempt_all c' ts'
    | Err _ => attempt_all c ts'
    end
  end.

Definition committed (s : LifecycleState) : bool := in_states s POST_COMMIT_STATES.

(** ** Lemmas *)

Lemma in_states_spec s l : in_states s l = true <-> s ∈ l.
Proof. apply bool_decide_eq_true. Qed.

(** One accepted transition, read as a relation. *)
Lemma advance_lifecycle_Ok s r t c :
  advance_lifecycle s r t = Ok c <->
  c = (t, next_revision r) /\ LIFECYCLE_ORDER s <= LIFECYCLE_ORDER t /\
  (committed s = committed t) /\ (LIFECYCLE_ORDER s = 4 -> LIFECYCLE_ORDER t = 4 -> s = t).
Proof.
  unfold advance_lifecycle, committed.
  destruct s, t; lazy -[next_revision];
    (split; [intros H; try discriminate H; injection H as <-; split_and!; try done; lia
            |intros (-> & H1 & H2 & H3); try lia; try discriminate H2; try (by specialize (H3 eq_refl eq_refl)); done]).
Qed.

Lemma terminal_order s : s ∈ TERMINAL_OUTCOMES <-> LIFECYCLE_ORDER s = 4.
Proof. rewrite <- in_states_spec. by destruct s; lazy; split. Qed.

Lemma advances_invariant c ts c' :
  advances c ts c' ->
  rev_value c'.2 = rev_value c.2 + length ts /\ LIFECYCLE_ORDER c.1 <= LIFECYCLE_ORDER c'.1 /\
  committed c.1 = committed c'.1 /\ (c.1 ∈ TERMINAL_OUTCOMES -> c'.1 ∈ TERMINAL_OUTCOMES -> c'.1 = c.1).
Proof.
  induction 1 as [c|s r t c ts c' H _ (IH1 & IH2 & IH3 & IH4)]; cbn; [split_and!; (done || lia)|].
  apply advance_lifecycle_Ok in H as (-> & Ho & Hc & Hf). cbn in *.
  split_and!; [lia|lia|congruence|]. intros Hs Hc'.
  pose proof (proj1 (terminal_order _) Hs). pose proof (proj1 (terminal_order _) Hc').
  assert (s = t) as <- by (apply Hf; lia). by apply IH4.
Qed.

Lemma attempt_all_advances c ts : exists ts', ts' `sublist_of` ts /\ advances c ts' (attempt_all c ts).
Proof.
  revert c. induction ts as [|t ts IH]; intros [s r]; cbn; [exists []; split; constructor|].
  destruct (advance_lifecycle s r t) as [c'|e] eqn:E.
  - destruct (IH c') as (ts' & Hs & Ha). exists (t :: ts'). split; [by constructor|by econstructor].
  - destruct (IH (s, r)) as (ts' & Hs & Ha). exists ts'. split; [by constructor|done].
Qed.

(** ** Theorems *)

(** Whatever targets a caller attempts, in any order, from a freshly accepted operation:
    the lifecycle never reaches a post-commit state (an authoritative outcome can only be
    published by the terminal commit), it never regresses, and the revision grows by exactly
    one per accepted transition. *)
Theorem advance_never_mints_outcome r ts :
  let c := attempt_all (ACCEPTED, r) ts in
  committed c.1 = false /\
  exists ts', ts' `sublist_of` ts /\ advances (ACCEPTED, r) ts' c /\
              rev_value c.2 = rev_value r + length ts'.
Proof.
  destruct (attempt_all_advances (ACCEPTED, r) ts) as (ts' & Hs & Ha).
  pose proof (advances_invariant _ _ _ Ha) as (Hr & _ & Hc & _). cbn in Hr, Hc. cbn. eauto.
Qed.

(** A published outcome is final: no sequence of attempts moves an operation from
    [succeeded] to [failed] or back, nor to any state before the terminal commit. *)
Theorem outcome_is_final s r ts :
  s ∈ TERMINAL_OUTCOMES ->
  let c := attempt_all (s, r) ts in
  committed c.1 = true /\ (c.1 ∈ TERMINAL_OUTCOMES -> c.1 = s).
Proof.
  intros Hs. destruct (attempt_all_advances (s, r) ts) as (ts' & _ & Ha).
  pose proof (advances_invariant _ _ _ Ha) as (_ & _ & Hc & Hf). cbn in *. split; [|auto].
  rewrite <- Hc. unfold committed, POST_COMMIT_STATES. apply in_states_spec. rewrite elem_of_app. auto.
Qed.

Lemma outcome_is_final_witness :
  SUCCEEDED ∈ TERMINAL_OUTCOMES /\
  committed (attempt_all (SUCCEEDED, mkOperationRevision 3) [FAILED; ACCEPTED; CLEANUP_REQUIRED; SUCCEEDED]).1 = true /\
  attempt_all (SUCCEEDED, mkOperationRevision 3) [FAILED; ACCEPTED; CLEANUP_REQUIRED; SUCCEEDED] =
    (CLEANUP_REQUIRED, mkOperationRevision 4).
Proof.
  assert (H : SUCCEEDED ∈ TERMINAL_OUTCOMES) by (apply in_states_spec; reflexivity).
  split; [exact H|]. split; [|reflexivity].
  exact (proj1 (outcome_is_final SUCCEEDED (mkOperationRevision 3)
    [FAILED; ACCEPTED; CLEANUP_REQUIRED; SUCCEEDED] H)).
Defined.

(** Recovery planning classifies every durable fact: it resumes exactly when the state is
    open and not already awaiting reconciliation, and either nothing was attempted or a
    checkpoint is at hand - then from the revision after the checkpoint; an attempted
    mutation without a checkpoint is reconciled, never resumed; a resolved operation is left
    alone and an open residual is surfaced. *)
Theorem plan_recovery_cases state revision checkpoint attempted :
  let p := plan_recovery state revision checkpoint attempted in
  (rp_action p = NO_RECOVERY_REQUIRED <-> state ∈ RESOLVED_STATES) /\
  (rp_action p = SURFACE_RESIDUAL <-> state = CLEANUP_REQUIRED) /\
  (rp_action p = RESUME <->
     LIFECYCLE_ORDER state < 4 /\ state ≠ RECONCILIATION_REQUIRED /\
     (attempted = false \/ checkpoint ≠ None)) /\
  (rp_action p = RECONCILE <->
     state = RECONCILIATION_REQUIRED \/
     (LIFECYCLE_ORDER state < 4 /\ attempted = true /\ checkpoint = None)) /\
  rp_revision p =
    match rp_action p, checkpoint with
    | RESUME, Some cp => next_revision (cp_revision cp)
    | _, _ => revision
    end /\
  rp_checkpoint p = checkpoint.
Proof.
  intros p. rewrite <- (in_states_spec state RESOLVED_STATES). subst p.
  destruct state, checkpoint as [cp|], attempted; lazy -[lt next_revision];
    split_and!; try done; intros; try done; try lia; intuition (try lia; try done).
Qed.

(** A terminal commit is built exactly for a terminal outcome with evidence, and a record
    carrying the bundle is accepted exactly when its lifecycle shows the outcome - or, with
    residual cleanup, the open or closed obligation. *)
Theorem terminal_commit_record rev outcome evidence residual tc id r cp rec :
  build_terminal_commit rev outcome evidence residual = Ok tc ->
  outcome ∈ TERMINAL_OUTCOMES /\ evidence ≠ [] /\
  forall s, post_init (mkDurableOperationRecord id r s cp (Some tc) rec) =
            Ok (mkDurableOperationRecord id r s cp (Some tc) rec) <->
            match residual with
            | [] => s = outcome
            | _ => s = CLEANUP_REQUIRED \/ s = CLOSED
            end.
Proof.
  unfold build_terminal_commit. intros ([] & Ho & ([] & He & [= <-])%result_bind_Ok)%result_bind_Ok.
  rewrite ensure_Ok in Ho, He. apply in_states_spec in Ho.
  split_and!; [done|by intros ->|]. intros s. unfold post_init. cbn.
  destruct residual as [|x residual]; cbn; unfold ensure.
  - destruct (bool_decide_reflect (s = outcome)); cbn; split; done.
  - destruct (in_states s RESIDUAL_LIFECYCLES) eqn:E; cbn.
    + apply in_states_spec in E. unfold RESIDUAL_LIFECYCLES in E. rewrite !elem_of_cons, elem_of_nil in E.
      split; [tauto|done].
    + split; [done|]. intros H. by destruct H as [-> | ->].
Qed.

Lemma terminal_commit_record_witness :
  let ev := mkRedactedEvidence "done" "finished" [] in
  let rev := mkOperationRevision 2 in
  let tc := mkTerminalCommitBundle rev FAILED [ev] [ev] in
  build_terminal_commit rev FAILED [ev] [ev] = Ok tc /\ FAILED ∈ TERMINAL_OUTCOMES.
Proof.
  intros ev rev tc. assert (H : build_terminal_commit rev FAILED [ev] [ev] = Ok tc) by reflexivity.
  split; [exact H|].
  exact (proj1 (terminal_commit_record rev FAILED [ev] [ev] tc (mkDurableOperationIdentity "op" "d")
    rev None [] H)).
Defined.
