(* ===== verification/Lifecycle.v ===== *)
(** * Resource lifecycle ([resource_lifecycle/types.py], [resource_lifecycle/service.py])

    Expiration decisions and the recovery service: every known database of a project is
    compared across registry, provider and quarantine history, and either mutated through
    the provider gateway under the documented evidence or handed to a human. *)

From S2P Require Import Prelude Effects Values.

(** ** Types *)

Inductive ResourceClass : Type := DEV | QA | PROD.
Inductive ExpirationAction : Type := EXPIRE | ALERT_AUDIT_ONLY.
Inductive LifecycleOutcome : Type :=
| EXPIRED | ALERTED | QUARANTINED | ADOPTED_OUTCOME | RECONCILED | DELETED | CANCELLED | HUMAN_INTERVENTION.
Inductive ProviderPresence : Type := ABSENT | INVALID | PRESENT | UNVERIFIABLE.

#[export] Instance ResourceClass_eq_dec : EqDecision ResourceClass.
Proof. solve_decision. Defined.
#[export] Instance LifecycleOutcome_eq_dec : EqDecision LifecycleOutcome.
Proof. solve_decision. Defined.
#[export] Instance ProviderPresence_eq_dec : EqDecision ProviderPresence.
Proof. solve_decision. Defined.

(** Durations are microseconds. *)
Record ResourceOverride : Type := mkResourceOverride { ro_resource_id : string; ro_ttl : Z }.
Record LifecyclePolicy : Type := mkLifecyclePolicy {
  lp_ttl : Z; lp_grace : Z; lp_approved_classes : list ResourceClass; lp_overrides : list ResourceOverride }.

Definition is_approved (p : LifecyclePolicy) (c : ResourceClass) : bool :=
  bool_decide (c ∈ lp_approved_classes p).

Definition ttl_for (p : LifecyclePolicy) (resource_id : string) : Z :=
  match find_first (fun o => bool_decide (ro_resource_id o = resource_id)) (lp_overrides p) with
  | Some o => ro_ttl o
  | None => lp_ttl p
  end.

Record LifecycleResource : Type := mkLifecycleResource {
  lr_resource_id : string; lr_resource_class : ResourceClass; lr_last_activity : datetime }.
Record ExpirationDecision : Type := mkExpirationDecision {
  ed_action : ExpirationAction; ed_eligible : bool; ed_mutation_allowed : bool }.

Definition evaluate_expiration (r : LifecycleResource) (now : datetime) (p : LifecyclePolicy)
    : result exn ExpirationDecision :=
  if bool_decide (lr_resource_class r = PROD) || negb (is_approved p (lr_resource_class r))
  then Ok (mkExpirationDecision ALERT_AUDIT_ONLY false false)
  else
    let! elapsed := dt_sub now (lr_last_activity r) in
    let eligible := (ttl_for p (lr_resource_id r) + lp_grace p <=? elapsed)%Z in
    Ok (mkExpirationDecision (if eligible then EXPIRE else ALERT_AUDIT_ONLY) eligible eligible).

Definition reset_activity_baseline (r : LifecycleResource) (occurred_at : datetime) : LifecycleResource :=
  mkLifecycleResource (lr_resource_id r) (lr_resource_class r) occurred_at.

Record LifecycleAuthorization : Type := mkLifecycleAuthorization {
  la_actor : string; la_reason : string; la_approved : bool }.
Record LifecycleResidual : Type := mkLifecycleResidual { lres_code : string; lres_detail : string }.
Record QuarantineHistory : Type := mkQuarantineHistory {
  qh_pointer : InstancePointer; qh_scope : ProjectScope; qh_resource : DatabaseRef;
  qh_operation : DurableOperationIdentity; qh_evidence_digest : string;
  qh_resource_class : ResourceClass; qh_quarantined_at : datetime; qh_last_activity : option datetime }.
Record LifecycleJournalEvent : Type := mkLifecycleJournalEvent {
  je_policy : LifecyclePolicy; je_digest : string; je_authorization : LifecycleAuthorization;
  je_outcome : LifecycleOutcome; je_residuals : list LifecycleResidual;
  je_history : option QuarantineHistory; je_kind : string }.
Record DatabaseObservation : Type := mkDatabaseObservation {
  obs_ref : DatabaseRef; obs_scope : ProjectScope; obs_evidence_digest : string;
  obs_ownership_valid : bool; obs_resource_class : ResourceClass;
  obs_last_activity : option datetime; obs_receipt : option OwnershipReceipt;
  obs_presence : ProviderPresence }.
Record RecoveryResult : Type := mkRecoveryResult {
  rres_outcome : LifecycleOutcome; rres_residuals : list LifecycleResidual }.

(** [history.model_copy(update={'resource': ref})] *)
Definition with_resource (h : QuarantineHistory) (ref : DatabaseRef) : QuarantineHistory :=
  mkQuarantineHistory (qh_pointer h) (qh_scope h) ref (qh_operation h) (qh_evidence_digest h)
    (qh_resource_class h) (qh_quarantined_at h) (qh_last_activity h).

(** ** The ports: registry, gateway, journal and the clock *)

Inductive lc_op : Type -> Type :=
| RegistryList (scope : ProjectScope) : lc_op (list InstanceRecord)
| RegistryGet (pointer : InstancePointer) : lc_op InstanceRecord
| Observe (scope : ProjectScope) : lc_op (list DatabaseObservation)
| Quarantine (ref : DatabaseRef) : lc_op DatabaseRef
| Adopt (ref : DatabaseRef) : lc_op DatabaseRef
| Reconcile (operation : OperationIdentity) : lc_op DatabaseCreation
| Delete (creation : DatabaseCreation) : lc_op unit
| Cleanup (receipt : CreationReceipt) : lc_op CleanupReport
| JournalEvents : lc_op (list LifecycleJournalEvent)
| JournalAppend (event : LifecycleJournalEvent) : lc_op LifecycleJournalEvent
| ClockNow : lc_op datetime.

Definition lc_prog := prog lc_op exn.

(** [now or datetime.now(UTC)] *)
Definition now_or_clock (now : option datetime) : lc_prog datetime :=
  match now with Some t => Ret t | None => call ClockNow end.

(** ** Pure helpers of the service *)

Definition operation_of (r : InstanceRecord) : OperationIdentity :=
  mkOperationIdentity
    match rec_receipt r with
    | Some rc => operation_id (or_operation rc)
    | None => instance_value (ptr_instance_id (rec_pointer r))
    end.

Definition lineage_matches (r : InstanceRecord) (o : DatabaseObservation) : bool :=
  match rec_receipt r, obs_receipt o with
  | Some rr, Some ro =>
    bool_decide (or_operation rr = or_operation ro) &&
    bool_decide (db_identifier (obs_ref o) ∈ or_owned_resource_ids rr) &&
    bool_decide (db_identifier (obs_ref o) ∈ or_owned_resource_ids ro)
  | _, _ => false
  end.

Definition record_matches_history (r : InstanceRecord) (h : QuarantineHistory) : bool :=
  bool_decide (rec_pointer r = qh_pointer h) &&
  bool_decide (rr_kind (rec_resource r) = "database") &&
  bool_decide (rr_identifier (rec_resource r) = db_identifier (qh_resource h)) &&
  bool_decide (rr_ownership (rec_resource r) = db_ownership (qh_resource h)) &&
  match rec_receipt r with
  | Some rc => bool_decide (or_operation rc = qh_operation h)
  | None => false
  end.

Definition confirmed_zombie (scope : ProjectScope) (p : LifecyclePolicy) (h : QuarantineHistory)
    (o : option DatabaseObservation) : bool :=
  if negb (bool_decide (qh_scope h = scope)) || negb (bool_decide (ptr_scope (qh_pointer h) = scope)) ||
     negb (bool_decide (qh_resource_class h ∈ [DEV; QA])) || negb (is_approved p (qh_resource_class h))
  then false
  else match o with
       | None => true
       | Some o =>
         bool_decide (obs_scope o = scope) && bool_decide (obs_ref o = qh_resource h) &&
         bool_decide (obs_resource_class o = qh_resource_class h) &&
         bool_decide (obs_evidence_digest o = qh_evidence_digest h) &&
         obs_ownership_valid o && bool_decide (obs_presence o ∈ [ABSENT; INVALID]) &&
         match obs_receipt o with
         | None => true
         | Some rc => bool_decide (or_operation rc = qh_operation h)
         end
       end.

Definition matching (os : list DatabaseObservation) (expected : DatabaseObservation)
    : option DatabaseObservation :=
  match List.filter (fun o => bool_decide (db_identifier (obs_ref o) = db_identifier (obs_ref expected))) os with
  | [o] => Some o
  | _ => None
  end.

(** ** Service methods *)

Definition eligible (o : DatabaseObservation) (p : LifecyclePolicy) (now : option datetime) : lc_prog bool :=
  match obs_last_activity o with
  | None => Ret false
  | Some last =>
    let* t := now_or_clock now in
    let* d := lift (evaluate_expiration
                (mkLifecycleResource (db_identifier (obs_ref o)) (obs_resource_class o) last) t p) in
    Ret (ed_eligible d && ed_mutation_allowed d)
  end.

Definition quarantine_wait_elapsed (h : QuarantineHistory) (wait : Z) (now : option datetime) : lc_prog bool :=
  let* current := now_or_clock now in
  if negb (dt_aware (qh_quarantined_at h)) || negb (dt_aware current) then Ret false
  else
    let* le := lift (dt_le (qh_quarantined_at h) current) in
    if le then let* d := lift (dt_sub current (qh_quarantined_at h)) in Ret (wait <=? d)%Z
    else Ret false.

Definition quarantine_history (r : InstanceRecord) (o : DatabaseObservation) (resource : DatabaseRef)
    (now : option datetime) : lc_prog QuarantineHistory :=
  match rec_receipt r with
  | None => Raise AssertionError
  | Some rc =>
    let* t := now_or_clock now in
    (* [quarantined_at] is an [AwareDatetime] *)
    let* _ := lift (ensure (dt_aware t) (ValueError "quarantined_at")) in
    Ret (mkQuarantineHistory (rec_pointer r) (obs_scope o) resource (or_operation rc)
           (obs_evidence_digest o) (obs_resource_class o) t (obs_last_activity o))
  end.

Section Service.
(** [LifecycleService.max_cleanup_retries], checked non-negative by the constructor. *)
Variable max_cleanup_retries : nat.

Definition append_action (p : LifecyclePolicy) (a : LifecycleAuthorization) (outcome : LifecycleOutcome)
    (digest : string) (history : option QuarantineHistory) (residuals : list LifecycleResidual)
    (kind : string) : lc_prog unit :=
  let* _ := call (JournalAppend (mkLifecycleJournalEvent p digest a outcome residuals history kind)) in
  Ret tt.

(** [_append_action] with its default [residuals=()] and [kind='action']. *)
Definition journal_action (p : LifecyclePolicy) (a : LifecycleAuthorization) (outcome : LifecycleOutcome)
    (digest : string) (history : option QuarantineHistory) : lc_prog unit :=
  append_action p a outcome digest history [] "action".

Definition quiet_codes : list string := ["adopted"; "quarantined"; "registry-only"; "deleted"].

Definition finish (p : LifecyclePolicy) (a : LifecycleAuthorization) (code : string)
    (outcome : LifecycleOutcome) (digest : string) (residuals : list string) : lc_prog RecoveryResult :=
  let values := map (mkLifecycleResidual code) residuals in
  let values :=
    match values with
    | [] => if bool_decide (code ∈ quiet_codes) then [] else [mkLifecycleResidual code code]
    | _ => values
    end in
  let* _ := call (JournalAppend (mkLifecycleJournalEvent p digest a outcome values None "action")) in
  Ret (mkRecoveryResult outcome values).

Definition human (p : LifecyclePolicy) (a : LifecycleAuthorization) (code digest : string)
    : lc_prog RecoveryResult := finish p a code HUMAN_INTERVENTION digest [].

(** At most [n] attempts; the last residuals when none of them came back empty. *)
Fixpoint cleanup_attempts (n : nat) (receipt : CreationReceipt) (residuals : list string)
    : lc_prog (list string) :=
  match n with
  | O => Ret residuals
  | S n' =>
    let* report := call (Cleanup receipt) in
    match residual_failures report with
    | [] => Ret []
    | rs => cleanup_attempts n' receipt rs
    end
  end.
Definition cleanup (receipt : CreationReceipt) : lc_prog (list string) :=
  cleanup_attempts (max_cleanup_retries + 1) receipt [].

Definition registry_matches (r : InstanceRecord) : lc_prog bool :=
  catch (let* found := call (RegistryGet (rec_pointer r)) in Ret (bool_decide (found = r)))
    (fun e => if bool_decide (e = InstanceRecordNotFoundError) then Ret false else Raise e).

(** [None] when the evidence still holds, else the failure code and digest. *)
Definition revalidate (scope : ProjectScope) (p : LifecyclePolicy) (r : option InstanceRecord)
    (expected : DatabaseObservation) (now : option datetime) : lc_prog (option (string * string)) :=
  let* registered := match r with None => Ret true | Some rc => registry_matches rc end in
  if negb registered then Ret (Some ("registry-drift", obs_evidence_digest expected)) else
  let* os := call (Observe scope) in
  match matching os expected with
  | None => Ret (Some ("evidence-drift", "missing"))
  | Some current =>
    let digest := obs_evidence_digest current in
    if negb (bool_decide (obs_scope current = scope)) then Ret (Some ("scope-mismatch", digest)) else
    let* ok := eligible current p now in
    if negb ok then Ret (Some ("ineligible", digest)) else
    if negb (obs_ownership_valid current) then Ret (Some ("invalid-ownership", digest)) else
    if match r with Some rc => negb (lineage_matches rc current) | None => false end
    then Ret (Some ("lineage-mismatch", digest)) else
    if match r with
       | None => negb (bool_decide (obs_receipt current = obs_receipt expected))
       | Some _ => false
       end
    then Ret (Some ("lineage-mismatch", digest)) else
    if negb (bool_decide (digest = obs_evidence_digest expected))
    then Ret (Some ("evidence-drift", digest)) else
    Ret None
  end.

Definition revalidate_zombie (scope : ProjectScope) (p : LifecyclePolicy) (h : QuarantineHistory)
    : lc_prog bool :=
  let* found := attempt (call (RegistryGet (qh_pointer h))) in
  match found with
  | Ok _ => Ret false
  | Err e =>
    if bool_decide (e = InstanceRecordNotFoundError) then
      let* os := call (Observe scope) in
      match List.filter (fun o => bool_decide (obs_ref o = qh_resource h)) os with
      | [] => Ret true
      | [o] => Ret (confirmed_zombie scope p h (Some o))
      | _ => Ret false
      end
    else Raise e
  end.

(** [None] is the contradiction. *)
Definition record_from_history (h : QuarantineHistory) (current : option InstanceRecord)
    : lc_prog (option (option InstanceRecord)) :=
  let contradicts r := negb (record_matches_history r h) in
  let current_contradicts := match current with Some c => contradicts c | None => false end in
  let* found := attempt (call (RegistryGet (qh_pointer h))) in
  match found with
  | Err e =>
    if bool_decide (e = InstanceRecordNotFoundError)
    then Ret (if current_contradicts then None else Some current)
    else Ret None
  | Ok r =>
    if contradicts r then Ret None
    else if current_contradicts then Ret None
    else match current with
         | Some c => if negb (bool_decide (r = c)) then Ret (Some (Some c)) else Ret (Some (Some r))
         | None => Ret (Some (Some r))
         end
  end.

Definition creation_for (ref : DatabaseRef) (op : OperationIdentity) : DatabaseCreation :=
  mkDatabaseCreation ref (mkCreationReceipt op [db_identifier ref]) CREATED.

(** Delete, journal, clean up: the tail both deletion paths share in the source. *)
Definition delete_and_clean (p : LifecyclePolicy) (a : LifecycleAuthorization) (digest : string)
    (h : QuarantineHistory) (creation : DatabaseCreation) : lc_prog RecoveryResult :=
  let* _ := call (Delete creation) in
  let* _ := journal_action p a DELETED digest (Some h) in
  let* residuals := cleanup (dc_receipt creation) in
  match residuals with
  | _ :: _ => finish p a "partial-cleanup" HUMAN_INTERVENTION "registry" residuals
  | [] => finish p a "deleted" DELETED "registry" []
  end.

(** [_recover], lines 126-179: quarantine history without a registry record. *)
Definition recover_zombie (scope : ProjectScope) (p : LifecyclePolicy) (a : LifecycleAuthorization)
    (o : option DatabaseObservation) (delete : bool) (wait : Z) (now : option datetime)
    (h : QuarantineHistory) : lc_prog RecoveryResult :=
  if negb (confirmed_zombie scope p h o) then human p a "not-confirmed-zombie" "registry" else
  let* elapsed := if delete then quarantine_wait_elapsed h wait now else Ret true in
  if negb elapsed then human p a "quarantine-wait" "registry" else
  if negb delete && negb (dt_aware (qh_quarantined_at h))
  then human p a "invalid-quarantine-history" "registry" else
  let* quarantined := call (Quarantine (qh_resource h)) in
  let qh := with_resource h quarantined in
  let* _ := journal_action p a QUARANTINED "registry" (Some qh) in
  if delete then
    let* still := revalidate_zombie scope p qh in
    if negb still then human p a "not-confirmed-zombie" "registry" else
    delete_and_clean p a "registry" qh
      (creation_for quarantined (mkOperationIdentity (operation_id (qh_operation h))))
  else finish p a "confirmed-zombie" QUARANTINED "registry" [].

(** Lines 183-197: an observed database that is not registered. *)
Definition recover_unregistered (scope : ProjectScope) (p : LifecyclePolicy) (a : LifecycleAuthorization)
    (o : option DatabaseObservation) (now : option datetime) : lc_prog RecoveryResult :=
  match o with
  | None => human p a "invalid-ownership" "registry"
  | Some o =>
    if negb (obs_ownership_valid o) then human p a "invalid-ownership" "registry" else
    let* failure := revalidate scope p None o now in
    match failure with
    | Some (code, digest) => human p a code digest
    | None =>
      let* quarantined := call (Quarantine (obs_ref o)) in
      let* _ := call (Adopt quarantined) in
      let* _ := journal_action p a QUARANTINED "registry" None in
      let* _ := journal_action p a ADOPTED_OUTCOME "registry" None in
      finish p a "adopted" ADOPTED_OUTCOME (obs_evidence_digest o) []
    end
  end.

(** Lines 204-245: a registered and observed database. *)
Definition recover_registered (scope : ProjectScope) (p : LifecyclePolicy) (a : LifecycleAuthorization)
    (r : InstanceRecord) (o : DatabaseObservation) (delete : bool) (wait : Z) (now : option datetime)
    : lc_prog RecoveryResult :=
  let digest := obs_evidence_digest o in
  if negb (obs_ownership_valid o) then human p a "invalid-ownership" digest else
  if negb (lineage_matches r o) then human p a "lineage-mismatch" digest else
  let* failure := revalidate scope p (Some r) o now in
  match failure with
  | Some (code, d) => human p a code d
  | None =>
    let* quarantined := call (Quarantine (obs_ref o)) in
    let* qh := quarantine_history r o quarantined now in
    let* _ := journal_action p a QUARANTINED digest (Some qh) in
    if negb delete then finish p a "quarantined" QUARANTINED "registry" [] else
    if (0 <? wait)%Z then finish p a "quarantine-wait" QUARANTINED "registry" ["wait"] else
    let* failure := revalidate scope p (Some r) o now in
    match failure with
    | Some (code, d) =>
      if bool_decide (code = "evidence-drift") then finish p a "evidence-changed" CANCELLED d []
      else human p a code d
    | None => delete_and_clean p a digest qh (creation_for quarantined (operation_of r))
    end
  end.

Definition recover (scope : ProjectScope) (p : LifecyclePolicy) (a : LifecycleAuthorization)
    (r : option InstanceRecord) (o : option DatabaseObservation) (delete : bool) (wait : Z)
    (now : option datetime) (h : option QuarantineHistory) : lc_prog RecoveryResult :=
  if negb (la_approved a) then human p a "unauthorized" "registry" else
  match h, r with
  | Some h, None => recover_zombie scope p a o delete wait now h
  | _, _ =>
    let* refused :=
      match o with
      | Some o =>
        if negb (bool_decide (obs_scope o = scope)) then Ret (Some ("scope-mismatch", "registry")) else
        let* ok := eligible o p now in
        Ret (if negb ok then Some ("ineligible", obs_evidence_digest o) else None)
      | None => Ret None
      end in
    match refused with
    | Some (code, digest) => human p a code digest
    | None =>
      match r, o with
      | None, _ => recover_unregistered scope p a o now
      | Some r, None =>
        let* registered := registry_matches r in
        if negb registered then human p a "registry-drift" "registry" else
        let* _ := call (Reconcile (operation_of r)) in
        let* _ := journal_action p a RECONCILED "registry" None in
        finish p a "registry-only" RECONCILED "registry" []
      | Some r, Some o => recover_registered scope p a r o delete wait now
      end
    end
  end.

(** ** [run] *)

Definition resource_key := (string * string)%type.
Definition record_key (r : InstanceRecord) : resource_key :=
  (rr_kind (rec_resource r), rr_identifier (rec_resource r)).
Definition observation_key (o : DatabaseObservation) : resource_key := ("database", db_identifier (obs_ref o)).
Definition history_key (h : QuarantineHistory) : resource_key := ("database", db_identifier (qh_resource h)).

Definition with_key {A : Type} (f : A -> resource_key) (key : resource_key) (l : list A) : list A :=
  List.filter (fun x => bool_decide (f x = key)) l.

(** One iteration of the loop over the keys. *)
Definition run_key (scope : ProjectScope) (p : LifecyclePolicy) (a : LifecycleAuthorization)
    (delete : bool) (wait : Z) (now : option datetime)
    (records : list InstanceRecord) (observations : list DatabaseObservation)
    (histories : list QuarantineHistory) (key : resource_key) : lc_prog RecoveryResult :=
  if (1 <? length (with_key record_key key records)) ||
     (1 <? length (with_key observation_key key observations))
  then human p a "duplicate-evidence" "registry" else
  let record := head (with_key record_key key records) in
  let observation := head (with_key observation_key key observations) in
  match with_key history_key key histories with
  | _ :: _ :: _ => human p a "duplicate-history" "registry"
  | [h] =>
    let* r := record_from_history h record in
    match r with
    | None => human p a "history-mismatch" "registry"
    | Some record => recover scope p a record observation delete wait now (Some h)
    end
  | [] => recover scope p a record observation delete wait now None
  end.

Definition run_keys (records : list InstanceRecord) (observations : list DatabaseObservation)
    (histories : list QuarantineHistory) : list resource_key :=
  sorted_pairs (map record_key records ++ map observation_key observations ++ map history_key histories).

Definition run (scope : ProjectScope) (p : LifecyclePolicy) (a : LifecycleAuthorization)
    (delete : bool) (wait : Z) (now : option datetime) : lc_prog (list RecoveryResult) :=
  if (wait <? 0)%Z then Raise (ValueError "wait must not be negative") else
  let* records := call (RegistryList scope) in
  let* observations := call (Observe scope) in
  let* events := call JournalEvents in
  let histories := omap (M:=list) je_history events in
  let keys := run_keys records observations histories in
  let* _ := append_action p a ALERTED "run" None
              (match keys with [] => [mkLifecycleResidual "empty-run" "empty-run"] | _ => [] end) "run" in
  map_each (run_key scope p a delete wait now records observations histories) keys.
End Service.

(** The constructor of the service. *)
Definition init_service (retries : Z) : result exn nat :=
  if (retries <? 0)%Z then Err (ValueError "max_cleanup_retries must not be negative")
  else Ok (Z.to_nat retries).
