(* ===== verification/LifecycleFacts.v ===== *)
(** * Properties of the lifecycle service

    All theorems hold for every behaviour of the registry, the provider gateway, the
    journal and the clock. *)

From S2P Require Import Prelude Effects Values Lifecycle.

(** ** What an operation may do *)

Definition is_mutation (R : Type) (e : lc_op R) : bool :=
  match e with Quarantine _ | Adopt _ | Reconcile _ | Delete _ | Cleanup _ => true | _ => false end.
Definition is_delete (R : Type) (e : lc_op R) : bool := match e with Delete _ => true | _ => false end.
Definition is_cleanup (R : Type) (e : lc_op R) : bool := match e with Cleanup _ => true | _ => false end.

Definition reads : forall R, lc_op R -> Prop := fun R e => is_mutation R e = false.
Definition no_delete : forall R, lc_op R -> Prop := fun R e => is_delete R e = false.
Definition no_cleanup : forall R, lc_op R -> Prop := fun R e => is_cleanup R e = false.

Lemma reads_no_delete R (e : lc_op R) : reads R e -> no_delete R e.
Proof. by destruct e. Qed.
Lemma reads_no_cleanup R (e : lc_op R) : reads R e -> no_cleanup R e.
Proof. by destruct e. Qed.

(** ** Methods that only read and journal *)

Lemma finish_reads p a code outcome digest rs : only reads (finish p a code outcome digest rs).
Proof. unfold finish. solve_only. Qed.
Lemma append_action_reads p a outcome digest h rs k : only reads (append_action p a outcome digest h rs k).
Proof. unfold append_action. solve_only. Qed.
Lemma now_or_clock_reads now : only reads (now_or_clock now).
Proof. unfold now_or_clock. solve_only. Qed.
#[export] Hint Resolve finish_reads append_action_reads now_or_clock_reads : only.

Lemma human_reads p a code digest : only reads (human p a code digest).
Proof. unfold human. solve_only. Qed.
Lemma journal_action_reads p a outcome digest h : only reads (journal_action p a outcome digest h).
Proof. unfold journal_action. solve_only. Qed.
Lemma eligible_reads o p now : only reads (eligible o p now).
Proof. unfold eligible. solve_only. Qed.
Lemma wait_reads h w now : only reads (quarantine_wait_elapsed h w now).
Proof. unfold quarantine_wait_elapsed. solve_only. Qed.
Lemma quarantine_history_reads r o ref now : only reads (quarantine_history r o ref now).
Proof. unfold quarantine_history. solve_only. Qed.
Lemma registry_matches_reads r : only reads (registry_matches r).
Proof. unfold registry_matches. solve_only. Qed.
Lemma record_from_history_reads h c : only reads (record_from_history h c).
Proof. unfold record_from_history. solve_only. Qed.
#[export] Hint Resolve human_reads journal_action_reads eligible_reads wait_reads quarantine_history_reads
  registry_matches_reads record_from_history_reads : only.
Lemma revalidate_reads s p r o now : only reads (revalidate s p r o now).
Proof. unfold revalidate. solve_only. Qed.
Lemma revalidate_zombie_reads s p h : only reads (revalidate_zombie s p h).
Proof. unfold revalidate_zombie. solve_only. Qed.
#[export] Hint Resolve revalidate_reads revalidate_zombie_reads : only.

(** ** Authorization *)

Section Facts.
Context (n : nat).

Lemma unapproved_reads s p a r o d w now h :
  la_approved a = false -> only reads (recover n s p a r o d w now h).
Proof. intros H. unfold recover. rewrite H. solve_only. Qed.

Lemma run_key_reads s p a d w now rs os hs key :
  (forall r o h, only reads (recover n s p a r o d w now h)) ->
  only reads (run_key n s p a d w now rs os hs key).
Proof. intros H. unfold run_key. solve_only. Qed.

Lemma unapproved_run_reads s p a d w now :
  la_approved a = false -> only reads (run n s p a d w now).
Proof.
  intros H. unfold run. solve_only. apply only_map_each. intros key _.
  apply run_key_reads. intros. by apply unapproved_reads.
Qed.

Lemma finish_outcome p a code outcome digest rs tr res :
  runs (finish p a code outcome digest rs) tr (Ok res) -> rres_outcome res = outcome.
Proof. unfold finish. intros H. run_steps. done. Qed.

(** *** Eligibility *)

Lemma eligible_true o p now tr :
  runs (eligible o p now) tr (Ok true) ->
  obs_resource_class o ≠ PROD /\ is_approved p (obs_resource_class o) = true.
Proof.
  unfold eligible, evaluate_expiration. destruct (obs_last_activity o) as [last|]; [|intros H; run_steps].
  intros H. run_step. run_step.
  match goal with H : runs (lift _) _ _ |- _ => apply runs_lift in H as [-> Hd] end.
  run_steps. cbn in *. destruct (bool_decide_reflect (obs_resource_class o = PROD)); cbn in *; [by simplify_eq|].
  destruct (is_approved p (obs_resource_class o)); cbn in *; [done|by simplify_eq].
Qed.

(** A refusal of the entry checks, or the evidence that they passed. *)
Lemma prod_ineligible o p now tr b :
  obs_resource_class o = PROD -> runs (eligible o p now) tr (Ok b) -> b = false.
Proof.
  intros Hp H. destruct b; [|done]. by apply eligible_true in H as [? _].
Qed.

(** *** Cleanup *)

Lemma reads_bounded {A} (p : lc_prog A) : only reads p -> bounded is_cleanup 0 p.
Proof. intros H. apply bounded_only. eapply only_impl; [|exact H]. apply reads_no_cleanup. Qed.

Lemma cleanup_attempts_bounded k receipt rs : bounded is_cleanup k (cleanup_attempts k receipt rs).
Proof.
  revert rs. induction k as [|k IH]; intros rs; [done|].
  apply (bounded_bind is_cleanup 1 k); [apply bounded_call|].
  intros rep. destruct (residual_failures rep); [done|apply IH].
Qed.

(** A silent prefix does not change the bound. *)
Lemma bounded_reads_bind {A B} m (p : lc_prog A) (k : A -> lc_prog B) :
  only reads p -> (forall a, bounded is_cleanup m (k a)) -> bounded is_cleanup m (bind p k).
Proof. intros Hp Hk. apply (bounded_bind is_cleanup 0 m); [by apply reads_bounded|done]. Qed.

Lemma bounded_of_reads {A} m (p : lc_prog A) : only reads p -> bounded is_cleanup m p.
Proof. intros H. eapply bounded_mono; [|by apply reads_bounded]. lia. Qed.

Lemma bounded_quiet_call {R B} m (e : lc_op R) (k : R -> lc_prog B) :
  is_cleanup R e = false -> (forall a, bounded is_cleanup m (k a)) -> bounded is_cleanup m (bind (call e) k).
Proof.
  intros He Hk. apply (bounded_bind is_cleanup 0 m); [|done]. apply bounded_only. by apply only_call.
Qed.

Ltac bounded_step :=
  first [ apply bounded_of_reads; solve [solve_only]
        | apply bounded_reads_bind; [solve [solve_only]|intros ?]
        | apply bounded_quiet_call; [reflexivity|intros ?]
        | match goal with |- bounded _ _ (match ?x with _ => _ end) => destruct x eqn:? end ].

Lemma delete_and_clean_bounded p a d h c : bounded is_cleanup (n + 1) (delete_and_clean n p a d h c).
Proof.
  unfold delete_and_clean. do 2 bounded_step. replace (n + 1) with (n + 1 + 0) by lia.
  apply bounded_bind; [apply cleanup_attempts_bounded|]. intros rs. repeat bounded_step.
Qed.

Lemma recover_bounded s p a r o d w now h : bounded is_cleanup (n + 1) (recover n s p a r o d w now h).
Proof.
  unfold recover, recover_zombie, recover_unregistered, recover_registered.
  repeat first [apply delete_and_clean_bounded | bounded_step].
Qed.
(** *** Production databases *)

Lemma recover_prod_reads s p a r o d w now h tr out :
  obs_resource_class o = PROD ->
  runs (recover n s p a r (Some o) d w now h) tr out -> Forall (event_sat reads) tr.
Proof.
  intros Hp. unfold recover. destruct (negb (la_approved a)).
  { intros H. eapply only_runs; [|exact H]. apply human_reads. }
  assert (Hz : forall hh, confirmed_zombie s p hh (Some o) = false).
  { intros hh. unfold confirmed_zombie. rewrite Hp.
    destruct (bool_decide_reflect (qh_resource_class hh ∈ [DEV; QA])) as [Hc|]; [|by rewrite !orb_true_r].
    destruct (_ || _); [done|]. rewrite (bool_decide_false (PROD = qh_resource_class hh)).
    - by rewrite andb_false_r.
    - intros Heq. rewrite <- Heq, !elem_of_cons, elem_of_nil in Hc. by destruct Hc as [?|[?|?]]. }
  assert (Hmain : forall (k : lc_prog RecoveryResult) tr out,
    runs (let* refused :=
            (if negb (bool_decide (obs_scope o = s)) then Ret (Some ("scope-mismatch", "registry")) else
             let* ok := eligible o p now in
             Ret (if negb ok then Some ("ineligible", obs_evidence_digest o) else None)) in
          match refused with Some (code, digest) => human p a code digest | None => k end) tr out ->
    Forall (event_sat reads) tr).
  { clear tr out. intros k tr out H. apply runs_bind in H as [(tr1 & tr2 & v & -> & H1 & H2)|(x & -> & H1)].
    - assert (v ≠ None).
      { destruct (negb _); [run_steps; done|]. run_step.
        match goal with H : runs (eligible _ _ _) _ _ |- _ => apply prod_ineligible in H; [|done] end.
        subst. run_steps. done. }
      apply Forall_app. split; [eapply only_runs; [|exact H1]; solve_only|].
      destruct v as [[code digest]|]; [|done]. eapply only_runs; [|exact H2]. apply human_reads.
    - eapply only_runs; [|exact H1]. solve_only. }
  destruct h as [hh|], r as [rr|]; [apply Hmain| |apply Hmain|apply Hmain].
  unfold recover_zombie. rewrite Hz. intros H. eapply only_runs; [|exact H]. apply human_reads.
Qed.

(** *** Deletion *)

Definition delete_of (ev : event lc_op exn) : option DatabaseCreation :=
  match ev with Event e _ => match e with Delete c => Some c | _ => None end end.
(** The reference a successful quarantine returned. *)
Definition quarantined_of (ev : event lc_op exn) : option DatabaseRef :=
  match ev with
  | Event e r =>
    match e in lc_op R return result exn R -> option DatabaseRef with
    | Quarantine _ => fun r => match r with Ok ref => Some ref | Err _ => None end
    | _ => fun _ => None
    end r
  end.
(** A journal entry that was acknowledged. *)
Definition journaled_of (ev : event lc_op exn) : option LifecycleJournalEvent :=
  match ev with
  | Event e r =>
    match e in lc_op R return result exn R -> option LifecycleJournalEvent with
    | JournalAppend je => fun r => match r with Ok _ => Some je | Err _ => None end
    | _ => fun _ => None
    end r
  end.

(** What must have happened before a database is deleted. *)
Definition deletion_evidence (p : LifecyclePolicy) (tr : list (event lc_op exn)) (c : DatabaseCreation) : Prop :=
  cr_owned_resource_ids (dc_receipt c) = [db_identifier (dc_ref c)] /\
  (exists ev, ev ∈ tr /\ quarantined_of ev = Some (dc_ref c)) /\
  exists ev je h, ev ∈ tr /\ journaled_of ev = Some je /\ je_outcome je = QUARANTINED /\
    je_history je = Some h /\ qh_resource h = dc_ref c /\
    qh_resource_class h ≠ PROD /\ is_approved p (qh_resource_class h) = true.

Definition deletion_guarded (p : LifecyclePolicy) (delete : bool) (pre tr : list (event lc_op exn)) : Prop :=
  forall tr1 ev tr2 c, tr = tr1 ++ ev :: tr2 -> delete_of ev = Some c ->
    delete = true /\ deletion_evidence p (pre ++ tr1) c.

Lemma no_delete_of ev : event_sat no_delete ev <-> delete_of ev = None.
Proof. destruct ev as [R e r]. cbn. unfold no_delete. by destruct e. Qed.

Lemma guarded_no_delete p d pre tr : Forall (event_sat no_delete) tr -> deletion_guarded p d pre tr.
Proof.
  intros H tr1 ev tr2 c -> Hc. apply Forall_app in H as [_ H]. apply Forall_cons in H as [H _].
  apply no_delete_of in H. by rewrite H in Hc.
Qed.

Lemma guarded_app p d pre tr tr' :
  deletion_guarded p d pre tr -> deletion_guarded p d (pre ++ tr) tr' -> deletion_guarded p d pre (tr ++ tr').
Proof.
  intros H1 H2 tr1 ev tr2 c E Hc.
  apply app_eq_app in E as (l & [[-> E]|[-> E]]).
  - destruct l as [|ev' l]; cbn in E.
    + subst. rewrite app_nil_r in *. destruct (H2 [] ev tr2 c eq_refl Hc) as [? He]. split; [done|].
      by rewrite app_nil_r in He.
    + injection E as <- ->. by apply (H1 tr1 ev l c).
  - destruct (H2 l ev tr2 c E Hc) as [? He]. split; [done|]. by rewrite <- app_assoc in He.
Qed.

Lemma deletion_evidence_mono p tr tr' c : tr ⊆ tr' -> deletion_evidence p tr c -> deletion_evidence p tr' c.
Proof.
  intros Hs (H1 & (ev & H2 & H3) & (ev' & je & h & H4 & H5)). split; [done|].
  split; [exists ev; split; [by apply Hs|done]|]. exists ev', je, h. split; [by apply Hs|done].
Qed.

Lemma deletion_guarded_mono p d pre pre' tr : pre ⊆ pre' -> deletion_guarded p d pre tr -> deletion_guarded p d pre' tr.
Proof.
  intros Hs H tr1 ev tr2 c E Hc. destruct (H tr1 ev tr2 c E Hc) as [? He]. split; [done|].
  eapply deletion_evidence_mono; [|exact He]. intros x. rewrite !elem_of_app. set_solver.
Qed.

Lemma guarded_reads {A} p d pre (q : lc_prog A) tr o : only reads q -> runs q tr o -> deletion_guarded p d pre tr.
Proof.
  intros Hq H. apply guarded_no_delete. eapply only_runs; [|exact H].
  eapply only_impl; [|exact Hq]. apply reads_no_delete.
Qed.

Lemma delete_and_clean_guarded p a digest h c pre tr o :
  deletion_evidence p pre c -> runs (delete_and_clean n p a digest h c) tr o -> deletion_guarded p true pre tr.
Proof.
  intros He. unfold delete_and_clean. intros (r & tr' & -> & H)%runs_bind_call.
  assert (Forall (event_sat no_delete) tr') as Hno.
  { destruct r as [u|x]; [|by destruct H as [-> _]]. eapply only_runs; [|exact H].
    assert (Hr : forall k rs, only no_delete (cleanup_attempts k (dc_receipt c) rs)).
    { clear. intros k. induction k as [|k IH]; intros rs; cbn [cleanup_attempts]; [done|].
      apply only_bind; [by apply only_call|]. intros rep. destruct (residual_failures rep); [done|apply IH]. }
    apply only_bind.
    { eapply only_impl; [apply reads_no_delete|apply journal_action_reads]. }
    intros _. apply only_bind; [apply Hr|]. intros [|x rs];
      (eapply only_impl; [apply reads_no_delete|apply finish_reads]). }
  intros tr1 ev tr2 c' E Hc. destruct tr1 as [|ev' tr1]; cbn in E; injection E as <- ->.
  - cbn in Hc. injection Hc as <-. by rewrite app_nil_r.
  - apply Forall_app in Hno as [_ Hno]. apply Forall_cons in Hno as [Hno _].
    apply no_delete_of in Hno. by rewrite Hno in Hc.
Qed.
Lemma deletion_guarded_bind {A B} p d pre (q : lc_prog A) (k : A -> lc_prog B) tr o :
  runs (bind q k) tr o -> only reads q ->
  (forall tr1 a tr2, runs q tr1 (Ok a) -> runs (k a) tr2 o -> deletion_guarded p d (pre ++ tr1) tr2) ->
  deletion_guarded p d pre tr.
Proof.
  intros H Hq Hk. apply runs_bind in H as [(tr1 & tr2 & a & -> & H1 & H2)|(x & -> & H1)].
  - apply guarded_app; [by eapply guarded_reads|by eapply Hk].
  - by eapply guarded_reads.
Qed.

Lemma deletion_guarded_call {R B} p d pre (e : lc_op R) (k : R -> lc_prog B) tr o :
  runs (bind (call e) k) tr o -> is_delete R e = false ->
  (forall a tr2, runs (k a) tr2 o -> deletion_guarded p d (pre ++ [Event e (Ok a)]) tr2) ->
  deletion_guarded p d pre tr.
Proof.
  intros (r & tr' & -> & H)%runs_bind_call He Hk.
  apply (guarded_app p d pre [Event e r]).
  - apply guarded_no_delete. by repeat constructor.
  - destruct r as [a|x]; [by apply Hk|]. destruct H as [-> _]. apply guarded_no_delete. constructor.
Qed.

Lemma journal_action_runs p a outcome digest h tr :
  runs (journal_action p a outcome digest h) tr (Ok tt) ->
  exists ev, tr = [ev] /\ journaled_of ev = Some (mkLifecycleJournalEvent p digest a outcome [] h "action").
Proof.
  unfold journal_action, append_action. intros H. run_steps. eexists. done.
Qed.

Lemma quarantine_history_runs r o q now tr qh :
  runs (quarantine_history r o q now) tr (Ok qh) ->
  qh_resource qh = q /\ qh_resource_class qh = obs_resource_class o.
Proof.
  unfold quarantine_history. destruct (rec_receipt r); [|intros [_ ?]%runs_Raise; done].
  intros H. run_step. run_steps. done.
Qed.

(** The evidence gathered by quarantining and journaling. *)
Lemma quarantine_evidence p pre ref q tr ev je h op mid :
  ev ∈ tr -> journaled_of ev = Some je -> je_outcome je = QUARANTINED -> je_history je = Some h ->
  qh_resource h = q -> qh_resource_class h ≠ PROD -> is_approved p (qh_resource_class h) = true ->
  deletion_evidence p ((((pre ++ [Event (Quarantine ref) (Ok q)]) ++ mid) ++ tr)) (creation_for q op).
Proof.
  intros Hev Hje Ho Hh Hr Hc Ha. split; [done|]. split.
  - exists (Event (Quarantine ref) (Ok q)). split; [|done]. rewrite !elem_of_app, list_elem_of_singleton. auto.
  - exists ev, je, h. split; [|done]. rewrite !elem_of_app. auto.
Qed.

Lemma confirmed_zombie_class s p h o :
  confirmed_zombie s p h o = true -> qh_resource_class h ≠ PROD /\ is_approved p (qh_resource_class h) = true.
Proof.
  unfold confirmed_zombie. destruct (bool_decide_reflect (qh_resource_class h ∈ [DEV; QA])) as [Hc|];
    [|by rewrite !orb_true_r].
  destruct (is_approved p (qh_resource_class h)); [|by rewrite !orb_true_r].
  intros _. split; [|done]. intros E. rewrite E, !elem_of_cons, elem_of_nil in Hc. by destruct Hc as [?|[?|?]].
Qed.

Lemma recover_zombie_guarded s p a o d w now h pre tr out :
  runs (recover_zombie n s p a o d w now h) tr out -> deletion_guarded p d pre tr.
Proof.
  unfold recover_zombie. destruct (confirmed_zombie s p h o) eqn:Ez; cbn [negb];
    [|apply guarded_reads, human_reads]. apply confirmed_zombie_class in Ez as [Hc Ha].
  intros H. eapply deletion_guarded_bind; [exact H|solve_only|]. clear tr H. intros tr1 [] tr _ H; cbn [negb] in H;
    [|eapply guarded_reads; [|exact H]; apply human_reads].
  destruct (negb d && _); [eapply guarded_reads; [|exact H]; apply human_reads|].
  eapply deletion_guarded_call; [exact H|done|]. clear tr H. intros q tr H.
  eapply deletion_guarded_bind; [exact H|apply journal_action_reads|]. clear tr H.
  intros trj [] tr (ev & -> & Hje)%journal_action_runs H.
  destruct d; [|eapply guarded_reads; [|exact H]; apply finish_reads].
  eapply deletion_guarded_bind; [exact H|apply revalidate_zombie_reads|]. clear tr H.
  intros trz [] tr _ H; cbn [negb] in H; [|eapply guarded_reads; [|exact H]; apply human_reads].
  eapply delete_and_clean_guarded; [|exact H].
  eapply deletion_evidence_mono;
    [|eapply (quarantine_evidence p (pre ++ tr1) (qh_resource h) q [ev] ev _ (with_resource h q) _ []);
      [by left|exact Hje|done..]].
  rewrite app_nil_r. intros x. rewrite !elem_of_app. tauto.
Qed.

Lemma recover_registered_guarded s p a r o d w now pre tr out :
  obs_resource_class o ≠ PROD -> is_approved p (obs_resource_class o) = true ->
  runs (recover_registered n s p a r o d w now) tr out -> deletion_guarded p d pre tr.
Proof.
  intros Hc Ha H. unfold recover_registered in H.
  destruct (negb (obs_ownership_valid o)); [eapply guarded_reads; [|exact H]; apply human_reads|].
  destruct (negb (lineage_matches r o)); [eapply guarded_reads; [|exact H]; apply human_reads|].
  eapply deletion_guarded_bind; [exact H|apply revalidate_reads|]. clear tr H.
  intros tr1 [[code dg]|] tr _ H; [eapply guarded_reads; [|exact H]; apply human_reads|].
  eapply deletion_guarded_call; [exact H|done|]. clear tr H. intros q tr H.
  eapply deletion_guarded_bind; [exact H|apply quarantine_history_reads|]. clear tr H. intros trh qh tr Hqh H.
  assert (qh_resource qh = q /\ qh_resource_class qh = obs_resource_class o) as [Hq1 Hq2].
  { by eapply quarantine_history_runs. }
  eapply deletion_guarded_bind; [exact H|apply journal_action_reads|]. clear tr H.
  intros trj [] tr (ev & -> & Hje)%journal_action_runs H.
  destruct d; cbn [negb] in H; [|eapply guarded_reads; [|exact H]; apply finish_reads].
  destruct (0 <? w)%Z; [eapply guarded_reads; [|exact H]; apply finish_reads|].
  eapply deletion_guarded_bind; [exact H|apply revalidate_reads|]. clear tr H.
  intros trv [[code dg]|] tr _ H; [eapply guarded_reads; [|exact H]; solve_only|].
  eapply delete_and_clean_guarded; [|exact H].
  eapply deletion_evidence_mono;
    [|eapply (quarantine_evidence p (pre ++ tr1) (obs_ref o) q [ev] ev _ qh _ trh);
      [by left|exact Hje|done|done|done|by rewrite Hq2|by rewrite Hq2]].
  intros x. rewrite !elem_of_app. tauto.
Qed.

Lemma recover_guarded s p a r o d w now h pre tr out :
  runs (recover n s p a r o d w now h) tr out -> deletion_guarded p d pre tr.
Proof.
  unfold recover. destruct (negb (la_approved a)); [apply guarded_reads, human_reads|].
  assert (Hmain : forall tr,
    runs (let* refused :=
      match o with
      | Some o =>
        if negb (bool_decide (obs_scope o = s)) then Ret (Some ("scope-mismatch", "registry")) else
        let* ok := eligible o p now in
        Ret (if negb ok then Some ("ineligible", obs_evidence_digest o) else None)
      | None => Ret None
      end in
    match refused with
    | Some (code, digest) => human p a code digest
    | None =>
      match r, o with
      | None, _ => recover_unregistered s p a o now
      | Some r, None =>
        let* registered := registry_matches r in
        if negb registered then human p a "registry-drift" "registry" else
        let* _ := call (Reconcile (operation_of r)) in
        let* _ := journal_action p a RECONCILED "registry" None in
        finish p a "registry-only" RECONCILED "registry" []
      | Some r, Some o => recover_registered n s p a r o d w now
      end
    end) tr out -> deletion_guarded p d pre tr).
  { clear tr. intros tr H. eapply deletion_guarded_bind; [exact H|solve_only|]. clear tr H.
    intros tr1 [[code digest]|] tr H1 H; [eapply guarded_reads; [|exact H]; apply human_reads|].
    destruct r as [r|], o as [o|].
    - destruct (negb (bool_decide (obs_scope o = s))); [by run_steps|]. run_step.
      match goal with H : runs (eligible _ _ _) _ (Ok ?b) |- _ => destruct b; [apply eligible_true in H as [Hc Ha]|] end;
        [|run_steps; done].
      by eapply recover_registered_guarded.
    - eapply deletion_guarded_bind; [exact H|apply registry_matches_reads|]. intros ? [] ? _ H'; cbn in H';
        [|eapply guarded_reads; [|exact H']; apply human_reads].
      eapply deletion_guarded_call; [exact H'|done|]. intros ? ? H''. eapply guarded_reads; [|exact H'']. solve_only.
    - unfold recover_unregistered in H. destruct (negb (obs_ownership_valid o));
        [eapply guarded_reads; [|exact H]; apply human_reads|].
      eapply deletion_guarded_bind; [exact H|apply revalidate_reads|]. intros ? [[? ?]|] ? _ H';
        [eapply guarded_reads; [|exact H']; apply human_reads|].
      eapply deletion_guarded_call; [exact H'|done|]. intros ? ? H''.
      eapply deletion_guarded_call; [exact H''|done|]. intros ? ? H3. eapply guarded_reads; [|exact H3]. solve_only.
    - eapply guarded_reads; [|exact H]. apply human_reads. }
  destruct h as [h|], r as [r|]; [apply Hmain| |apply Hmain|apply Hmain].
  intros H. by eapply recover_zombie_guarded.
Qed.

Lemma run_key_guarded s p a d w now rs os hs key pre tr out :
  runs (run_key n s p a d w now rs os hs key) tr out -> deletion_guarded p d pre tr.
Proof.
  unfold run_key. destruct (_ || _); [apply guarded_reads, human_reads|].
  destruct (with_key history_key key hs) as [|h [|h' l]]; [apply recover_guarded| |apply guarded_reads, human_reads].
  intros H. eapply deletion_guarded_bind; [exact H|apply record_from_history_reads|].
  intros tr1 [rec|] tr2 _ H2; [by eapply recover_guarded|]. eapply guarded_reads; [|exact H2]. apply human_reads.
Qed.

Lemma map_each_guarded {A B} p d pre (f : A -> lc_prog B) l tr out :
  (forall x pre tr out, runs (f x) tr out -> deletion_guarded p d pre tr) ->
  runs (map_each f l) tr out -> deletion_guarded p d pre tr.
Proof.
  intros Hf. revert pre tr out. induction l as [|x l IH]; intros pre tr out.
  - intros [-> _]%runs_Ret. apply guarded_no_delete. constructor.
  - cbn [map_each]. intros [(tr1 & tr2 & b & -> & H1 & H2)|(e & -> & H1)]%runs_bind; [|by eapply Hf].
    apply guarded_app; [by eapply Hf|].
    apply runs_bind in H2 as [(tr3 & tr4 & bs & -> & H3 & [-> _]%runs_Ret)|(e & -> & H3)]; [|by eapply IH].
    rewrite app_nil_r. by eapply IH.
Qed.

Lemma run_guarded s p a d w now tr out : runs (run n s p a d w now) tr out -> deletion_guarded p d [] tr.
Proof.
  unfold run. destruct (w <? 0)%Z; [apply guarded_reads; done|].
  intros H. eapply deletion_guarded_call; [exact H|done|]. clear tr H. intros rs tr H.
  eapply deletion_guarded_call; [exact H|done|]. clear tr H. intros os tr H.
  eapply deletion_guarded_call; [exact H|done|]. clear tr H. intros evs tr H.
  eapply deletion_guarded_bind; [exact H|apply append_action_reads|]. clear tr H. intros tr1 u tr _ H.
  eapply map_each_guarded; [|exact H]. intros. by eapply run_key_guarded.
Qed.
End Facts.

(** ** A sample environment *)

Definition sample_scope : ProjectScope := mkProjectScope (mkTenantId "t") "p".
Definition sample_op : DurableOperationIdentity := mkDurableOperationIdentity "op-1" "digest".
Definition sample_receipt : OwnershipReceipt := mkOwnershipReceipt sample_op ["db-1"] true.
Definition sample_record : InstanceRecord :=
  mkInstanceRecord (mkInstancePointer sample_scope (mkInstanceId "i-1"))
    (mkResourceRef "db-1" "database" CREATED) (Some sample_receipt).
Definition sample_observation (c : ResourceClass) : DatabaseObservation :=
  mkDatabaseObservation (mkDatabaseRef "db-1" CREATED) sample_scope "e" true c
    (Some (DateTime 0 true)) (Some sample_receipt) PRESENT.
Definition sample_policy : LifecyclePolicy := mkLifecyclePolicy 10 5 [DEV; QA] [].
Definition sample_authorization (b : bool) : LifecycleAuthorization := mkLifecycleAuthorization "ops" "ttl" b.

(** One registered database of class [c]; the first cleanup leaves a residual. *)
Definition sample_ports (c : ResourceClass) : handler (E := lc_op) (X := exn) nat :=
  fun R e w =>
    match e in lc_op R return result exn R * nat with
    | RegistryList _ => (Ok [sample_record], w)
    | RegistryGet _ => (Ok sample_record, w)
    | Observe _ => (Ok [sample_observation c], w)
    | Quarantine ref => (Ok ref, w)
    | Adopt ref => (Ok ref, w)
    | Reconcile op => (Ok (creation_for (mkDatabaseRef "db-1" CREATED) op), w)
    | Delete _ => (Ok tt, w)
    | Cleanup _ => (Ok (mkCleanupReport (if w =? 0 then ["volume"] else [])), S w)
    | JournalEvents => (Ok [], w)
    | JournalAppend e => (Ok e, w)
    | ClockNow => (Ok (DateTime 100 true), w)
    end.

Definition sample_run (c : ResourceClass) (approved : bool) :=
  exec (sample_ports c) (run 2 sample_scope sample_policy (sample_authorization approved) true 0 None) 0.

Lemma sample_run_runs c b :
  runs (run 2 sample_scope sample_policy (sample_authorization b) true 0 None)
    (sample_run c b).1.2 (sample_run c b).1.1.
Proof. apply exec_runs. Qed.

(** ** Theorems *)

(** Without an approved authorization a run performs no provider mutation at all - no
    quarantine, adoption, reconciliation, deletion or cleanup - whatever it observes. *)
Theorem unauthorized_run_is_read_only n s p a d w now tr o :
  la_approved a = false -> runs (run n s p a d w now) tr o -> Forall (event_sat reads) tr.
Proof. intros Ha H. eapply only_runs; [by apply unapproved_run_reads|exact H]. Qed.

Lemma unauthorized_run_is_read_only_witness :
  Forall (event_sat reads) (sample_run DEV false).1.2 /\ length (sample_run DEV false).1.2 = 5.
Proof.
  split; [|vm_compute; reflexivity].
  apply (unauthorized_run_is_read_only 2 sample_scope sample_policy (sample_authorization false) true 0 None
    _ (sample_run DEV false).1.1); [reflexivity|apply sample_run_runs].
Defined.

(** C15. A database is deleted only in a deleting, approved run, and only after that very
    database was quarantined and the quarantine was journaled with a history of its class,
    which is an approved class and never production; the deletion receipt owns exactly that
    database. *)
Theorem run_deletes_only_quarantined n s p a d w now tr o tr1 ev tr2 c :
  runs (run n s p a d w now) tr o -> tr = tr1 ++ ev :: tr2 -> delete_of ev = Some c ->
  d = true /\ la_approved a = true /\ deletion_evidence p tr1 c.
Proof.
  intros H E Hc. destruct (run_guarded n s p a d w now tr o H tr1 ev tr2 c E Hc) as [Hd He].
  split_and!; [done| |done]. destruct (la_approved a) eqn:Ha; [done|].
  pose proof (only_runs _ _ _ _ (unapproved_run_reads n s p a d w now Ha) H) as Hr. subst tr.
  apply Forall_app in Hr as [_ Hr]. apply Forall_cons in Hr as [Hr _].
  destruct ev as [R e r]. cbn in *. by destruct e.
Qed.

Lemma run_deletes_only_quarantined_witness :
  exists tr1 ev tr2 c, (sample_run DEV true).1.2 = tr1 ++ ev :: tr2 /\ delete_of ev = Some c /\
    deletion_evidence sample_policy tr1 c.
Proof.
  pose (tr := (sample_run DEV true).1.2).
  pose (k := length (List.filter (fun ev => negb (op_is is_cleanup ev)) tr) - 3).
  exists (take k tr), (default (Event ClockNow (Err IndexError)) (nth_error tr k)), (drop (S k) tr),
    (creation_for (mkDatabaseRef "db-1" CREATED) (mkOperationIdentity "op-1")).
  assert (E : tr = take k tr ++ default (Event ClockNow (Err IndexError)) (nth_error tr k) :: drop (S k) tr)
    by (vm_compute; reflexivity).
  assert (Hd : delete_of (default (Event ClockNow (Err IndexError)) (nth_error tr k)) =
    Some (creation_for (mkDatabaseRef "db-1" CREATED) (mkOperationIdentity "op-1"))) by (vm_compute; reflexivity).
  split; [exact E|]. split; [exact Hd|].
  exact (proj2 (proj2 (run_deletes_only_quarantined 2 sample_scope sample_policy (sample_authorization true)
    true 0 None tr _ _ _ _ _ (sample_run_runs DEV true) E Hd))).
Defined.

(** A database observed as production is never mutated, whatever the registry, the
    quarantine history and the policy say. *)
Theorem production_is_never_mutated n s p a r o d w now h tr out :
  obs_resource_class o = PROD -> runs (recover n s p a r (Some o) d w now h) tr out ->
  Forall (event_sat reads) tr.
Proof. apply recover_prod_reads. Qed.

Lemma production_is_never_mutated_witness :
  Forall (event_sat reads) (exec (sample_ports PROD) (recover 2 sample_scope
    (mkLifecyclePolicy 0 0 [DEV; QA; PROD] []) (sample_authorization true) (Some sample_record)
    (Some (sample_observation PROD)) true 0 None None) 0).1.2.
Proof. eapply production_is_never_mutated; [|apply exec_runs]. reflexivity. Defined.

(** C38. Cleanup is retried a bounded number of times: a service configured with [retries]
    makes at most [retries + 1] cleanup calls for one resource, on every path. *)
Theorem cleanup_is_bounded retries n s p a r o d w now h tr out :
  init_service retries = Ok n -> runs (recover n s p a r o d w now h) tr out ->
  (Z.of_nat (count is_cleanup tr) <= retries + 1)%Z.
Proof.
  unfold init_service. destruct (retries <? 0)%Z eqn:E; [done|]. intros [= <-] H. apply Z.ltb_ge in E.
  apply (bounded_runs is_cleanup (Z.to_nat retries + 1)) in H; [lia|apply recover_bounded].
Qed.

Lemma cleanup_is_bounded_witness :
  let q := recover 2 sample_scope sample_policy (sample_authorization true) (Some sample_record)
             (Some (sample_observation DEV)) true 0 None None in
  (Z.of_nat (count is_cleanup (exec (sample_ports DEV) q 0%nat).1.2) <= 3)%Z /\
  count is_cleanup (exec (sample_ports DEV) q 0).1.2 = 2.
Proof.
  intros q. split; [|vm_compute; reflexivity].
  apply (cleanup_is_bounded 2 2 sample_scope sample_policy (sample_authorization true) (Some sample_record)
    (Some (sample_observation DEV)) true 0 None None _ (exec (sample_ports DEV) q 0).1.1);
    [reflexivity|apply exec_runs].
Defined.

(** ** Coverage of a run *)

Lemma human_runs p a code digest tr res :
  runs (human p a code digest) tr (Ok res) -> rres_outcome res = HUMAN_INTERVENTION.
Proof. unfold human, finish. intros H. run_steps. done. Qed.

Lemma map_each_Forall2 {E : Type -> Type} {A B} (f : A -> prog E exn B) l tr ys :
  runs (map_each f l) tr (Ok ys) -> Forall2 (fun x y => exists tr', runs (f x) tr' (Ok y)) l ys.
Proof.
  revert tr ys. induction l as [|x l IH]; intros tr ys.
  - intros [_ [= ->]]%runs_Ret. constructor.
  - cbn [map_each]. intros [(tr1 & tr2 & y & -> & H1 & H2)|(e & [=] & _)]%runs_bind.
    apply runs_bind in H2 as [(tr3 & tr4 & ys' & -> & H3 & [_ [= ->]]%runs_Ret)|(e & [=] & _)].
    constructor; [eauto|]. by eapply IH.
Qed.

(** A run returns exactly one result for every resource known to the registry, the
    provider or the quarantine journal, each resource once; contradictory evidence -
    duplicate records, observations or histories - always goes to a human. *)
Theorem run_covers_every_resource n s p a d w now tr results :
  runs (run n s p a d w now) tr (Ok results) ->
  exists records observations events rest,
    tr = Event (RegistryList s) (Ok records) :: Event (Observe s) (Ok observations) ::
         Event JournalEvents (Ok events) :: rest /\
    let histories := omap (M:=list) je_history events in
    let keys := run_keys records observations histories in
    NoDup keys /\
    (forall key, key ∈ keys <-> (exists r, r ∈ records /\ record_key r = key) \/
       (exists o, o ∈ observations /\ observation_key o = key) \/
       (exists h, h ∈ histories /\ history_key h = key)) /\
    Forall2 (fun key res =>
      1 < length (with_key record_key key records) \/
      1 < length (with_key observation_key key observations) \/
      1 < length (with_key history_key key histories) ->
      rres_outcome res = HUMAN_INTERVENTION) keys results.
Proof.
  unfold run. destruct (w <? 0)%Z; [intros [_ ?]%runs_Raise; done|].
  intros ([rs|] & ? & -> & H)%runs_bind_call; [|by destruct H].
  apply runs_bind_call in H as ([os|] & ? & -> & H); [|by destruct H].
  apply runs_bind_call in H as ([evs|] & ? & -> & H); [|by destruct H].
  exists rs, os, evs. eexists. split; [done|]. cbv zeta.
  apply runs_bind in H as [(tr1 & tr2 & u & -> & _ & H)|(xerr & [=] & _)].
  split_and!; [apply sorted_pairs_NoDup| |].
  - intros key. unfold run_keys. rewrite elem_of_sorted_pairs, !elem_of_app, !list_elem_of_fmap. naive_solver.
  - eapply Forall2_impl; [by eapply map_each_Forall2|]. cbn. intros key res (tr' & Hr) Hdup.
    revert Hr. unfold run_key.
    destruct (1 <? length (with_key record_key key rs)) eqn:E1; [apply human_runs|].
    destruct (1 <? length (with_key observation_key key os)) eqn:E2; [apply human_runs|].
    apply Nat.ltb_ge in E1, E2. cbn [orb]. destruct Hdup as [?|[?|Hh]]; [lia..|].
    destruct (with_key history_key key _) as [|h [|h' l]]; [cbn in Hh; lia..|apply human_runs].
Qed.

Lemma run_covers_every_resource_witness :
  exists records observations events rest,
    (sample_run QA true).1.2 = Event (RegistryList sample_scope) (Ok records) ::
      Event (Observe sample_scope) (Ok observations) :: Event JournalEvents (Ok events) :: rest.
Proof.
  destruct (run_covers_every_resource 2 sample_scope sample_policy (sample_authorization true) true 0 None
    (sample_run QA true).1.2 [mkRecoveryResult DELETED []] (sample_run_runs QA true))
    as (rs & os & evs & rest & H & _).
  exists rs, os, evs, rest. exact H.
Defined.
