(* ===== verification/Artifacts.v ===== *)
(** * Data artifacts and anonymization policies
    ([data_artifacts/contracts.py], [data_artifacts/capture.py], [anonymization/policy.py],
    [anonymization/apply.py])

    Restore sets, readiness and discard outcomes with their validators, the anonymization
    policy, and the pure anonymization step over an injected mask transform. *)

From S2P Require Import Prelude Effects Regex Values.

(** ** Text rules *)

Definition BEARER_TOKEN_TEXT : regex := ignore_case (rcats [
  RWordB; rword "authorization"; RWordB; RStar (RSet is_space); ropt (rchar ":"%char);
  RStar (RSet is_space); rword "bearer"; rplus (RSet is_space);
  rplus (RSet (fun c => is_alnum c || one_of "._-" c))]).

Definition hex_or_colon (c : ascii) : bool :=
  is_digit c || in_range "a"%char "f"%char c || in_range "A"%char "F"%char c || Ascii.eqb c ":"%char.

(** The anonymous pattern of [_require_redacted_detail]. *)
Definition HOST_OR_BRACKET_TEXT : regex := ralts [HOSTNAME_TEXT;
  rcats [rchar "["%char; rplus (RSet hex_or_colon); rchar "]"%char; rchar ":"%char; rplus (RSet is_digit)]].

Definition require_opaque_identifier (value field_name : string) : result exn string :=
  if existsb is_space (chars value) then Err (ValueError (field_name +:+ " must be a safe opaque identifier"))
  else require_safe_opaque_identifier value field_name.

Definition redacted_detail_ok (value : option string) : bool :=
  match value with
  | None => true
  | Some v => negb (search SECRET_OR_CONNECTION_TEXT v || search BEARER_TOKEN_TEXT v || search HOST_OR_BRACKET_TEXT v)
  end.
Definition require_redacted_detail (value : option string) : result exn unit :=
  ensure (redacted_detail_ok value)
    (ValueError "redacted detail must not contain secret-bearing or connection text").

(** ** Contracts *)

Inductive ArtifactComponentKind : Type := DATABASE | FILESTORE.
Inductive ValidationFailureCode : Type :=
| UNAVAILABLE | INTEGRITY_FAILED | COHERENCE_FAILED | INCOMPLETE | UNSUPPORTED_FORMAT.
Inductive DiscardOutcomeCode : Type := COMPLETED | REFUSED | RESIDUAL_FAILURE.

#[export] Instance ArtifactComponentKind_eq_dec : EqDecision ArtifactComponentKind.
Proof. solve_decision. Defined.
#[export] Instance ValidationFailureCode_eq_dec : EqDecision ValidationFailureCode.
Proof. solve_decision. Defined.
#[export] Instance DiscardOutcomeCode_eq_dec : EqDecision DiscardOutcomeCode.
Proof. solve_decision. Defined.

Definition failure_text (c : ValidationFailureCode) : string :=
  match c with
  | UNAVAILABLE => "unavailable" | INTEGRITY_FAILED => "integrity_failed"
  | COHERENCE_FAILED => "coherence_failed" | INCOMPLETE => "incomplete"
  | UNSUPPORTED_FORMAT => "unsupported_format"
  end.

Record ArtifactDigest : Type := mkArtifactDigest { ad_algorithm : string; ad_value : string }.
Record RestoreSetComponent : Type := mkRestoreSetComponent {
  rsc_kind : ArtifactComponentKind; rsc_ref : string; rsc_format_version : string; rsc_digest : ArtifactDigest }.
Record RestoreSetManifest : Type := mkRestoreSetManifest {
  rsm_restore_set_id : string; rsm_lineage_id : string; rsm_components : list RestoreSetComponent }.
Record RestoreReadiness : Type := mkRestoreReadiness {
  rd_ready : bool; rd_manifest : option RestoreSetManifest;
  rd_failure_code : option ValidationFailureCode; rd_redacted_detail : option string }.
Record DiscardOutcome : Type := mkDiscardOutcome {
  dis_code : DiscardOutcomeCode; dis_residual_ids : list string; dis_redacted_detail : option string }.

#[export] Instance ArtifactDigest_eq_dec : EqDecision ArtifactDigest.
Proof. solve_decision. Defined.
#[export] Instance RestoreSetComponent_eq_dec : EqDecision RestoreSetComponent.
Proof. solve_decision. Defined.
#[export] Instance RestoreSetManifest_eq_dec : EqDecision RestoreSetManifest.
Proof. solve_decision. Defined.

Definition DIGEST_LENGTHS : list (string * nat) := [("sha256", 64); ("sha512", 128)].

Definition is_hex_digit (c : ascii) : bool :=
  is_digit c || in_range "a"%char "f"%char c || in_range "A"%char "F"%char c.

Definition artifact_digest (algorithm value : string) : result exn ArtifactDigest :=
  let valid_hex := fullmatch (rplus (RSet is_hex_digit)) value in
  match dget algorithm DIGEST_LENGTHS with
  | Some n =>
    if negb valid_hex || negb (String.length value =? n)
    then Err (ValueError "digest must use a supported algorithm and valid hexadecimal value")
    else Ok (mkArtifactDigest algorithm value)
  | None => Err (ValueError "digest must use a supported algorithm and valid hexadecimal value")
  end.

Definition restore_set_component (kind : ArtifactComponentKind) (ref format_version : string)
    (digest : ArtifactDigest) : result exn RestoreSetComponent :=
  let! _ := require_opaque_identifier ref "component reference" in
  ensure (negb (bool_decide (format_version = "")) && negb (search SECRET_OR_CONNECTION_TEXT format_version))
    (ValueError "format version must be present and safe") ;!
  Ok (mkRestoreSetComponent kind ref format_version digest).

(** Two components, one of each kind. *)
Definition complete_kinds (cs : list RestoreSetComponent) : bool :=
  (length cs =? 2) && bool_decide (DATABASE ∈ map rsc_kind cs) && bool_decide (FILESTORE ∈ map rsc_kind cs).

Definition restore_set_manifest (restore_set_id lineage_id : string) (components : list RestoreSetComponent)
    : result exn RestoreSetManifest :=
  let! _ := require_opaque_identifier restore_set_id "restore set id" in
  let! _ := require_opaque_identifier lineage_id "lineage id" in
  ensure (complete_kinds components)
    (ValueError "restore set must contain one database and one filestore component") ;!
  Ok (mkRestoreSetManifest restore_set_id lineage_id components).

Definition restore_readiness (ready : bool) (manifest : option RestoreSetManifest)
    (failure_code : option ValidationFailureCode) (detail : option string) : result exn RestoreReadiness :=
  require_redacted_detail detail ;!
  match ready, manifest, failure_code with
  | true, Some _, None | false, None, Some _ => Ok (mkRestoreReadiness ready manifest failure_code detail)
  | true, _, _ => Err (ValueError "ready restore inputs require a manifest and no failure code")
  | false, _, _ => Err (ValueError "unready restore inputs require a failure code and no manifest")
  end.

Definition discard_outcome (code : DiscardOutcomeCode) (residual_ids : list string) (detail : option string)
    : result exn DiscardOutcome :=
  result_iter (fun v => let! _ := require_opaque_identifier v "residual id" in Ok tt) residual_ids ;!
  require_redacted_detail detail ;!
  match code, residual_ids with
  | COMPLETED, _ :: _ => Err (ValueError "completed discard outcomes cannot have residual ids")
  | RESIDUAL_FAILURE, [] => Err (ValueError "residual discard failures require residual ids")
  | _, _ => Ok (mkDiscardOutcome code residual_ids detail)
  end.

(** ** [CaptureSource] *)
Record CaptureSource : Type := mkCaptureSource { cs_credentials : string; cs_target : TargetContext }.
Definition capture_source (credentials : string) (target : TargetContext) : result exn CaptureSource :=
  ensure (bool_decide (tc_kind target = "source")) (ValueError "capture source target must be kind='source'") ;!
  Ok (mkCaptureSource credentials target).

(** ** Anonymization policy *)

Inductive MaskStrategy : Type := REDACT | HASH | NULLIFY | STATIC_REPLACE.
#[export] Instance MaskStrategy_eq_dec : EqDecision MaskStrategy.
Proof. solve_decision. Defined.

Record AnonymizationRule : Type := mkAnonymizationRule {
  ar_table : string; ar_column : string; ar_mask_strategy : MaskStrategy; ar_static_value : option string }.
Record AnonymizationPolicy : Type := mkAnonymizationPolicy { ap_rules : list AnonymizationRule }.

Definition anonymization_rule (table column : string) (strategy : MaskStrategy) (static : option string)
    : result exn AnonymizationRule :=
  let! _ := require_safe_opaque_identifier table "anonymization selector" in
  let! _ := require_safe_opaque_identifier column "anonymization selector" in
  match strategy, static with
  | STATIC_REPLACE, (None | Some "") => Err (ValueError "static_replace rules require a static_value")
  | STATIC_REPLACE, Some _ | _, None => Ok (mkAnonymizationRule table column strategy static)
  | _, Some _ => Err (ValueError "static_value is only allowed for static_replace rules")
  end.

Fixpoint unique_selectors (seen : list (string * string)) (rules : list AnonymizationRule) : result exn unit :=
  match rules with
  | [] => Ok tt
  | r :: rules' =>
    let key := (ar_table r, ar_column r) in
    if bool_decide (key ∈ seen)
    then Err (ValueError ("duplicate anonymization rule for " +:+ ar_table r +:+ "." +:+ ar_column r))
    else unique_selectors (key :: seen) rules'
  end.
Definition anonymization_policy (rules : list AnonymizationRule) : result exn AnonymizationPolicy :=
  unique_selectors [] rules ;! Ok (mkAnonymizationPolicy rules).

Definition rule_for (p : AnonymizationPolicy) (table column : string) : option AnonymizationRule :=
  find_first (fun r => bool_decide (ar_table r = table) && bool_decide (ar_column r = column)) (ap_rules p).

(** ** The anonymization step *)

Record AnonymizationOutcome : Type := mkAnonymizationOutcome {
  ao_manifest : RestoreSetManifest; ao_evidence : RedactedEvidence }.

Section Apply.
Context {E : Type -> Type}.
(** The injected [MaskTransform], a port. *)
Variable mask_transform : RestoreSetComponent -> list AnonymizationRule -> prog E exn RestoreSetComponent.

Definition mask_component (rules : list AnonymizationRule) (c : RestoreSetComponent)
    : prog E exn RestoreSetComponent :=
  if bool_decide (rsc_kind c = DATABASE) then mask_transform c rules else Ret c.

Definition apply_anonymization (m : RestoreSetManifest) (p : AnonymizationPolicy)
    : prog E exn AnonymizationOutcome :=
  let* components := map_each (mask_component (ap_rules p)) (rsm_components m) in
  let* masked := lift (restore_set_manifest (rsm_restore_set_id m) (rsm_lineage_id m) components) in
  let* evidence := lift (redacted_evidence "anonymization_applied"
                           "anonymization policy applied before delivery" [rsm_lineage_id m]) in
  Ret (mkAnonymizationOutcome masked evidence).
End Apply.

Definition record_anonymization_exception (m : RestoreSetManifest) (reason : string)
    : result exn AnonymizationOutcome :=
  let! evidence := redacted_evidence "anonymization_exception" reason [rsm_lineage_id m] in
  Ok (mkAnonymizationOutcome m evidence).

(** ** Lemmas *)

Lemma unique_selectors_Ok seen rules :
  unique_selectors seen rules = Ok tt <->
  NoDup (map (fun r => (ar_table r, ar_column r)) rules) /\
  forall r, r ∈ rules -> (ar_table r, ar_column r) ∉ seen.
Proof.
  revert seen. induction rules as [|r rules IH]; intros seen; cbn.
  - split; [|done]. intros _. split; [apply NoDup_nil_2|]. intros r Hr. by apply elem_of_nil in Hr.
  - rewrite NoDup_cons. setoid_rewrite elem_of_cons. case_bool_decide as Hs.
    + split; [done|]. intros [_ H]. by destruct (H r (or_introl eq_refl)).
    + rewrite IH. setoid_rewrite not_elem_of_cons. split.
      * intros [Hnd H]. split_and!; [|done|].
        { intros Hin. apply list_elem_of_fmap in Hin as (r' & E & Hr'). destruct (H r' Hr') as [Hne _].
          by rewrite E in Hne. }
        intros r' [->|Hr']; [done|by apply H].
      * intros ([Hn Hnd] & H). split; [done|]. intros r' Hr'. split; [|auto]. intros E. apply Hn.
        rewrite <- E. by apply (list_elem_of_fmap_2 (fun r => (ar_table r, ar_column r))).
Qed.

(** A policy that validation accepts selects each column by at most one rule, and
    [rule_for] finds exactly the rules it lists: lookup order does not matter. *)
Theorem rule_for_unique rules p :
  anonymization_policy rules = Ok p ->
  forall r, rule_for p (ar_table r) (ar_column r) = Some r <-> r ∈ rules.
Proof.
  unfold anonymization_policy. intros ([] & Hu & [= <-])%result_bind_Ok r.
  apply unique_selectors_Ok in Hu as [Hnd _]. unfold rule_for. cbn [ap_rules]. split.
  - by intros [? _]%find_first_Some.
  - intros Hr. destruct (find_first _ rules) as [r'|] eqn:Ef.
    + apply find_first_Some in Ef as [Hr' Hm]. rewrite andb_true_iff, !bool_decide_eq_true in Hm.
      destruct Hm as [Ht Hc]. apply list_elem_of_lookup in Hr as [i Hi]. apply list_elem_of_lookup in Hr' as [j Hj].
      f_equal. assert (i = j) as ->; [|congruence].
      eapply (NoDup_lookup _ i j (ar_table r, ar_column r) Hnd); apply list_lookup_fmap_Some; [by exists r|].
      exists r'. split; [|done]. congruence.
    + rewrite find_first_None in Ef. specialize (Ef r Hr). by rewrite !bool_decide_true in Ef.
Qed.

Lemma rule_for_unique_witness :
  let rules := [mkAnonymizationRule "res_partner" "email" HASH None;
                mkAnonymizationRule "res_partner" "phone" STATIC_REPLACE (Some "0")] in
  anonymization_policy rules = Ok (mkAnonymizationPolicy rules) /\
  rule_for (mkAnonymizationPolicy rules) "res_partner" "phone" =
    Some (mkAnonymizationRule "res_partner" "phone" STATIC_REPLACE (Some "0")).
Proof.
  intros rules. assert (H : anonymization_policy rules = Ok (mkAnonymizationPolicy rules)) by reflexivity.
  split; [exact H|].
  apply (rule_for_unique rules _ H (mkAnonymizationRule "res_partner" "phone" STATIC_REPLACE (Some "0"))).
  right. left.
Defined.
