(* ===== verification/StagedStore.v ===== *)
(** * The staged artifact store
    ([odoo_forge_postgres_docker/staged_store.py], [staged_capability.py])

    A content-addressed store on disk: blobs named by digest, one manifest file per
    reference.  Every method is a program over the file calls of [Filesystem]; hashing
    and the JSON text pydantic writes are parameters. *)

From S2P Require Import Prelude Effects Regex Values Json Artifacts Filesystem Custody.

Definition DIGEST_HEX_LENGTHS : list (string * nat) := [("sha256", 64); ("sha512", 128)].
Definition HEX_TEXT : regex := rcats [RBol; rplus (RSet is_hex_digit); REol].

(** [except StagedArtifactError] *)
Definition is_staged_error (e : exn) : bool :=
  match e with
  | StagedArtifactCustodyError | StagedArtifactUnavailableError
  | StagedArtifactIntegrityError | StagedArtifactStateError => true
  | _ => false
  end.
(** ** The documents in the manifest files *)

Definition kind_text (k : ArtifactComponentKind) : string :=
  match k with DATABASE => "database" | FILESTORE => "filestore" end.

Definition digest_document (d : ArtifactDigest) : json :=
  JObj [("algorithm", JStr (ad_algorithm d)); ("value", JStr (ad_value d))].
Definition component_document (c : RestoreSetComponent) : json :=
  JObj [("kind", JStr (kind_text (rsc_kind c))); ("opaque_component_ref", JStr (rsc_ref c));
        ("format_version", JStr (rsc_format_version c)); ("digest", digest_document (rsc_digest c))].
Definition restore_set_document (m : RestoreSetManifest) : json :=
  JObj [("restore_set_id", JStr (rsm_restore_set_id m)); ("lineage_id", JStr (rsm_lineage_id m));
        ("components", JArr (map component_document (rsm_components m)))].

(** [RestoreSetManifest.model_validate(payload)]; pydantic's errors are [ValueError]s. *)
Definition read_kind (s : string) : result exn ArtifactComponentKind :=
  if bool_decide (s = "database") then Ok DATABASE
  else if bool_decide (s = "filestore") then Ok FILESTORE else Err (invalid "kind").

Definition get_field (d : list (string * json)) (k : string) : result exn json :=
  match dget k d with Some j => Ok j | None => Err (invalid k) end.

Definition read_digest (j : json) : result exn ArtifactDigest :=
  let! d := as_object j in
  only_keys ["algorithm"; "value"] d ;!
  let! a := get_str d "algorithm" in
  let! v := get_str d "value" in
  artifact_digest a v.

Definition read_component (j : json) : result exn RestoreSetComponent :=
  let! d := as_object j in
  only_keys ["kind"; "opaque_component_ref"; "format_version"; "digest"] d ;!
  let! kind := get_str d "kind" in
  let! kind := read_kind kind in
  let! ref := get_str d "opaque_component_ref" in
  let! format := get_str d "format_version" in
  let! j := get_field d "digest" in
  let! digest := read_digest j in
  restore_set_component kind ref format digest.

Definition read_restore_set (j : json) : result exn RestoreSetManifest :=
  let! d := as_object j in
  only_keys ["restore_set_id"; "lineage_id"; "components"] d ;!
  let! id := get_str d "restore_set_id" in
  let! lineage := get_str d "lineage_id" in
  let! _ := get_field d "components" in
  let! components := get_list read_component d "components" in
  restore_set_manifest id lineage components.

Section Store.
(** The store's root, the process's user id, the hash, and pydantic's JSON writer. *)
Variable root : fpath.
Variable getuid : nat.
Variable hexdigest : string -> string -> string.
Variable model_dump_json : json -> string.

Definition blobs_dir : fpath := root ++ ["blobs"].
Definition manifests_dir : fpath := root ++ ["manifests"].

Definition digest_key (d : ArtifactDigest) : string * string := (ad_algorithm d, lower (ad_value d)).

(** ** Paths and custody *)

Abbreviation validate_private_path := (validate_private_path getuid StagedArtifactCustodyError).
Abbreviation make_private_dir := (make_private_dir getuid StagedArtifactCustodyError).
Abbreviation private_stat := (private_stat getuid).
Abbreviation open_private_file := (open_private_file getuid StagedArtifactCustodyError).

Definition blob_path (d : ArtifactDigest) : result exn fpath :=
  match dget (ad_algorithm d) DIGEST_HEX_LENGTHS with
  | Some n =>
    if negb (String.length (ad_value d) =? n) || negb (fullmatch HEX_TEXT (ad_value d))
    then Err StagedArtifactCustodyError
    else Ok (blobs_dir ++ [ad_algorithm d +:+ "-" +:+ lower (ad_value d) +:+ ".bin"])
  | None => Err StagedArtifactCustodyError
  end.

Definition manifest_path (ref : string) : result exn fpath :=
  match require_safe_opaque_identifier ref "staged artifact reference" with
  | Ok safe_ref => Ok (manifests_dir ++ [safe_ref +:+ ".json"])
  | Err _ => Err StagedArtifactCustodyError
  end.

Definition ensure_root : store_prog unit := make_private_dir root.
Definition ensure_dir (p : fpath) : store_prog unit := ensure_root ;* make_private_dir p.

Definition temporary_of (p : fpath) (token : string) : fpath :=
  parent p ++ ["." +:+ default "" (last p) +:+ "." +:+ token +:+ ".tmp"].

(** ** Writing *)

Definition move_into_custody (source_path blob : fpath) : store_prog unit :=
  let* st := or_raise (call (Lstat source_path)) StagedArtifactCustodyError in
  if bool_decide (st_type st = TLnk) then Raise StagedArtifactCustodyError else
  let* token := call (TokenHex 8) in
  let temporary := temporary_of blob token in
  catch (call (Move source_path temporary) ;*
         call (Chmod temporary FILE_MODE) ;*
         call (Replace temporary blob))
    (fun e => if is_os_error e
              then suppress_os (call (Unlink temporary)) ;* Raise StagedArtifactCustodyError
              else Raise e) ;*
  validate_private_path blob FILE_MODE false.

Definition write_atomic (path : fpath) (payload : string) : store_prog unit :=
  let* token := call (TokenHex 8) in
  commit_file StagedArtifactStateError (temporary_of path token) path payload.

Definition stage (digest : ArtifactDigest) (source_path : fpath) : store_prog unit :=
  let* blob := lift (blob_path digest) in
  ensure_dir blobs_dir ;*
  let* present := call (PathExists blob) in
  if present : bool
  then validate_private_path blob FILE_MODE false ;* suppress_os (call (Unlink source_path))
  else move_into_custody source_path blob.

Definition put (ref : string) (m : RestoreSetManifest) : store_prog unit :=
  ensure_dir manifests_dir ;*
  let* path := lift (manifest_path ref) in
  write_atomic path (model_dump_json (restore_set_document m)).

(** ** Reading *)

Definition resolve (ref : string) : store_prog RestoreSetManifest :=
  let* path := lift (manifest_path ref) in
  let* fd := catch (open_private_file path)
               (fun e => Raise (if bool_decide (e = OSError ENOENT) then StagedArtifactUnavailableError else e)) in
  let* text := or_raise (closing (call (ReadFd fd)) fd) StagedArtifactStateError in
  match loads text with
  | None => Raise StagedArtifactStateError
  | Some payload =>
    match read_restore_set payload with
    | Ok m => Ret m
    | Err _ => Raise StagedArtifactStateError
    end
  end.

Definition hash_file (p : fpath) (algorithm : string) : store_prog string :=
  catch (call (OpenRead p))
    (fun e => match e with
              | OSError ENOENT => Raise StagedArtifactUnavailableError
              | OSError _ => Raise StagedArtifactCustodyError
              | _ => Raise e end) ;*
  let* bytes := closing (or_raise (let* st := call (Fstat p) in
                                   if negb (private_stat st FILE_MODE false)
                                   then Raise StagedArtifactCustodyError
                                   else call (ReadFd p)) StagedArtifactUnavailableError) p in
  Ret (hexdigest algorithm bytes).

Definition open_component (c : RestoreSetComponent) : store_prog fpath :=
  let* blob := lift (blob_path (rsc_digest c)) in
  let* present := call (PathExists blob) in
  if negb present then Raise StagedArtifactUnavailableError else
  validate_private_path blob FILE_MODE false ;*
  let* recomputed := hash_file blob (ad_algorithm (rsc_digest c)) in
  if negb (bool_decide (recomputed = lower (ad_value (rsc_digest c))))
  then Raise StagedArtifactIntegrityError
  else Ret blob.

(** ** Discarding *)

(** [PurePath.stem] *)
Definition stem (name : string) : string :=
  match cut_last "."%char (chars name) with
  | Some (((_ :: _) as a), _ :: _) => str a
  | _ => name
  end.

Fixpoint collect_references (excluded_ref : string) (names : list string) (referenced : list (string * string))
    : store_prog (list (string * string)) :=
  match names with
  | [] => Ret referenced
  | name :: names' =>
    if bool_decide (stem name = excluded_ref) then collect_references excluded_ref names' referenced else
    let* other := attempt (let* ref := lift (data_artifact_ref (stem name)) in resolve ref) in
    match other with
    | Ok m => collect_references excluded_ref names'
                (referenced ++ map (fun c => digest_key (rsc_digest c)) (rsm_components m))
    | Err e => if is_staged_error e then collect_references excluded_ref names' referenced else Raise e
    end
  end.
Definition referenced_digests_excluding (excluded_ref : string) : store_prog (list (string * string)) :=
  let* present := call (PathExists manifests_dir) in
  if negb present then Ret [] else
  let* names := call (Glob manifests_dir ".json") in
  collect_references excluded_ref names [].

Definition discard_manifest_file (ref : string) (residual_ids : list string) : store_prog DiscardOutcome :=
  let* removed := attempt (let* path := lift (manifest_path ref) in unlink_missing_ok path) in
  let* residual := match removed with
                   | Ok _ => Ret residual_ids
                   | Err e => if is_os_error e then Ret (residual_ids ++ [ref]) else Raise e
                   end in
  match residual with
  | [] => lift (discard_outcome COMPLETED [] None)
  | _ => lift (discard_outcome RESIDUAL_FAILURE residual None)
  end.

Fixpoint discard_blobs (referenced : list (string * string)) (cs : list RestoreSetComponent)
    (residual_ids : list string) : store_prog (list string) :=
  match cs with
  | [] => Ret residual_ids
  | c :: cs' =>
    if bool_decide (digest_key (rsc_digest c) ∈ referenced) then discard_blobs referenced cs' residual_ids else
    let* removed := attempt (let* blob := lift (blob_path (rsc_digest c)) in unlink_missing_ok blob) in
    match removed with
    | Ok _ => discard_blobs referenced cs' residual_ids
    | Err e => if is_os_error e then discard_blobs referenced cs' (residual_ids ++ [rsc_ref c]) else Raise e
    end
  end.

Definition discard (ref : string) : store_prog DiscardOutcome :=
  let* found := attempt (resolve ref) in
  match found with
  | Ok m =>
    let* referenced := referenced_digests_excluding ref in
    let* residual_ids := discard_blobs referenced (rsm_components m) [] in
    discard_manifest_file ref residual_ids
  | Err StagedArtifactUnavailableError => lift (discard_outcome COMPLETED [] None)
  | Err StagedArtifactStateError => discard_manifest_file ref []
  | Err e => Raise e
  end.

(** ** The capability over the store ([StagedArtifactCapability.validate_for_restore]) *)

Definition unready (code : ValidationFailureCode) : store_prog RestoreReadiness :=
  lift (restore_readiness false None (Some code) None).

Fixpoint verify_databases (m : RestoreSetManifest) (cs : list RestoreSetComponent) : store_prog RestoreReadiness :=
  match cs with
  | [] => lift (restore_readiness true (Some m) None None)
  | c :: cs' =>
    if negb (bool_decide (rsc_kind c = DATABASE)) then verify_databases m cs' else
    let* opened := attempt (open_component c) in
    match opened with
    | Ok _ => verify_databases m cs'
    | Err StagedArtifactIntegrityError => unready INTEGRITY_FAILED
    | Err (StagedArtifactUnavailableError | StagedArtifactCustodyError) => unready UNAVAILABLE
    | Err e => Raise e
    end
  end.

Definition validate_for_restore (ref : string) : store_prog RestoreReadiness :=
  let* found := attempt (resolve ref) in
  match found with
  | Ok m => verify_databases m (rsm_components m)
  | Err (StagedArtifactUnavailableError | StagedArtifactStateError) => unready UNAVAILABLE
  | Err e => Raise e
  end.
End Store.
