(* ===== verification/StagedFacts.v ===== *)
(** * Properties of the staged artifact store

    The abstract contract is [served]: the manifest each reference resolves to, as a
    function of the files.  [put], [resolve] and [discard] refine it, [put] under every
    schedule of I/O failures. *)

From S2P Require Import Prelude Effects Regex Values Json Artifacts Filesystem Custody StagedStore.

(* Only the witnesses evaluate the text validators. *)
#[local] Opaque safe_opaque_identifier fullmatch search.

(** ** Programs that only look, in a world where nothing fails *)

Section Facts.
Variable root : fpath.
Variable uid quantum : nat.
Variable token : string.
Variable hexdigest : string -> string -> string.
Variable model_dump_json : json -> string.

Abbreviation posix := (posix uid quantum token).
Abbreviation looks := (@looks uid quantum token _).
Abbreviation private_file := (@private_file uid).
Abbreviation resolve := (resolve root uid).
Abbreviation put := (put root uid model_dump_json).
Abbreviation discard := (discard root uid).
Abbreviation open_component := (open_component root uid hexdigest).
Abbreviation manifest_path := (manifest_path root).
Abbreviation blob_path := (blob_path root).

(** ** The abstract contract *)

Definition decode (text : string) : result exn RestoreSetManifest :=
  match loads text with
  | Some payload => match read_restore_set payload with Ok m => Ok m | Err _ => Err StagedArtifactStateError end
  | None => Err StagedArtifactStateError
  end.

(** What a manifest file serves. *)
Definition serves (o : option inode) : result exn RestoreSetManifest :=
  match o with
  | None => Err StagedArtifactUnavailableError
  | Some i => match private_file i with Some text => decode text | None => Err StagedArtifactCustodyError end
  end.
Definition served (s : fs) (ref : string) : result exn RestoreSetManifest :=
  match manifest_path ref with Ok p => serves (s !! p) | Err e => Err e end.

Lemma looks_resolve s ref : looks (resolve ref) s (served s ref).
Proof.
  unfold resolve, served. eapply looks_bind; [apply looks_lift|]. destruct (manifest_path ref) as [p|e]; [|done].
  eapply looks_bind.
  - eapply looks_catch; [apply looks_open_private_file|].
    instantiate (1 := match s !! p with None => Err StagedArtifactUnavailableError | Some i =>
      match private_file i with Some _ => Ok p | None => Err StagedArtifactCustodyError end end).
    destruct (s !! p) as [i|]; [|apply looks_Raise]. destruct (private_file i); [done|apply looks_Raise].
  - unfold serves. destruct (s !! p) as [i|] eqn:Ei; [|done]. destruct (private_file i) as [text|] eqn:Ef; [|done].
    eapply looks_bind; [by eapply looks_or_raise, looks_closing, looks_read_private|]. unfold decode. cbv beta iota.
    destruct (loads text) as [j|]; [|apply looks_Raise].
    destruct (read_restore_set j); [apply looks_Ret|apply looks_Raise].
Qed.

(** ** Paths *)

Lemma manifest_path_Ok ref p :
  manifest_path ref = Ok p <-> p = manifests_dir root ++ [ref +:+ ".json"] /\ safe_opaque_identifier ref = true.
Proof.
  unfold manifest_path, require_safe_opaque_identifier. destruct (safe_opaque_identifier ref).
  - split; [by intros [= <-]|by intros [-> _]].
  - split; [by intros [=]|by intros [_ [=]]].
Qed.

Lemma manifest_path_inj ref ref' p : manifest_path ref = Ok p -> manifest_path ref' = Ok p -> ref = ref'.
Proof.
  intros [-> _]%manifest_path_Ok [H _]%manifest_path_Ok. apply app_inj_tail in H as [_ H]. by apply string_app_inj_r in H.
Qed.

Lemma manifest_path_deep ref p : manifest_path ref = Ok p -> p ≠ root /\ p ≠ manifests_dir root.
Proof.
  intros [-> _]%manifest_path_Ok. unfold manifests_dir.
  split; intros H%(f_equal length); rewrite !length_app in H; cbn in H; lia.
Qed.

(** Temporary files start with a dot, served files never do. *)
Lemma manifest_path_not_temporary ref p tok d n :
  manifest_path ref = Ok p -> p ≠ temporary_of (d ++ [n]) tok.
Proof.
  intros [-> Hs]%manifest_path_Ok. unfold temporary_of. rewrite parent_snoc, last_snoc. intros H%app_inj_tail.
  destruct H as [_ H]. apply safe_opaque_identifier_chars in Hs as [Hne Hc]. apply (f_equal chars) in H.
  destruct ref as [|c ref]; [done|]. cbn in H. injection H as -> _. by cbn in Hc.
Qed.

(** ** Writing *)

Lemma write_atomic_leaves q p payload :
  (forall tok, q ≠ temporary_of p tok) -> q ≠ p -> only (leaves q) (write_atomic p payload).
Proof. intros Hq Hp. unfold write_atomic. leaves. Qed.

(** [_write_atomic] replaces the file or leaves it, whatever fails on the way. *)
Lemma write_atomic_spec p payload w r w' :
  (forall tok, p ≠ temporary_of p tok) -> leads posix (write_atomic p payload) w r w' ->
  w_fs w' !! p = Some (mkInode (NFile payload) uid FILE_MODE) \/ w_fs w' !! p = w_fs w !! p /\ r ≠ Ok tt.
Proof.
  intros Hp H. unfold write_atomic in H. apply leads_bind in H as [(tok & w1 & H1 & H)|(x & -> & H)].
  - assert (E1 : w_fs w1 !! p = w_fs w !! p) by (eapply frame; [|exact H1]; leaves). rewrite <- E1.
    by eapply commit_file_spec.
  - right. apply leads_call in H. by apply posix_Err in H as ->.
Qed.

Lemma ensure_dir_leaves q d : q ≠ root -> q ≠ d -> only (leaves q) (ensure_dir root uid d).
Proof. intros. unfold ensure_dir, ensure_root. leaves. Qed.

(** ** Documents *)

Ltac decide_keys := repeat first [rewrite decide_False by done | rewrite decide_True by done]; cbn [result_bind].

Record valid_restore_set (m : RestoreSetManifest) : Prop := {
  vr_set : restore_set_manifest (rsm_restore_set_id m) (rsm_lineage_id m) (rsm_components m) = Ok m;
  vr_components : forall c, c ∈ rsm_components m ->
    restore_set_component (rsc_kind c) (rsc_ref c) (rsc_format_version c) (rsc_digest c) = Ok c /\
    artifact_digest (ad_algorithm (rsc_digest c)) (ad_value (rsc_digest c)) = Ok (rsc_digest c) }.

Lemma read_restore_set_document m : valid_restore_set m -> read_restore_set (restore_set_document m) = Ok m.
Proof.
  intros [Hm Hc]. unfold read_restore_set, restore_set_document. cbn [as_object result_bind].
  replace (only_keys _ _) with (@Ok exn unit tt) by reflexivity.
  cbn [result_bind]. unfold get_str, get_field. cbn [dget]. decide_keys.
  erewrite (get_list_map read_component component_document _ _ (rsm_components m));
    [done|by cbn [dget]; decide_keys|].
  intros c [Hcomp Hd]%Hc. unfold read_component, component_document. cbn [as_object result_bind].
  replace (only_keys _ _) with (@Ok exn unit tt) by reflexivity. cbn [result_bind].
  unfold get_str, get_field. cbn [dget]. decide_keys.
  assert (Hk : read_kind (kind_text (rsc_kind c)) = Ok (rsc_kind c)) by (by destruct (rsc_kind c)).
  rewrite Hk. cbn [result_bind]. unfold digest_document, read_digest. cbn [as_object result_bind].
  replace (only_keys _ _) with (@Ok exn unit tt) by reflexivity. cbn [result_bind].
  unfold get_str. cbn [dget]. decide_keys. by rewrite Hd.
Qed.

(** A path apart from everything [put ref] touches. *)
Definition put_apart (ref : string) (q : fpath) : Prop :=
  q ≠ root /\ q ≠ manifests_dir root /\
  forall p, manifest_path ref = Ok p -> q ≠ p /\ forall tok, q ≠ temporary_of p tok.

Lemma put_frame ref m w r w' q : put_apart ref q -> leads posix (put ref m) w r w' -> w_fs w' !! q = w_fs w !! q.
Proof.
  intros (H1 & H2 & H3) H. eapply frame; [|exact H]. unfold put. apply only_bind; [by apply ensure_dir_leaves|].
  intros _. destruct (manifest_path ref) as [p|] eqn:E; [|done]. destruct (H3 _ eq_refl). by apply write_atomic_leaves.
Qed.

Lemma other_manifest_apart ref ref' q : ref' ≠ ref -> manifest_path ref' = Ok q -> put_apart ref q.
Proof.
  intros Hne Hq. split_and!; [by eapply manifest_path_deep..|]. intros p Hp.
  split; [intros ->; apply Hne; by eapply manifest_path_inj|]. intros tok.
  apply manifest_path_Ok in Hp as [-> _]. by eapply manifest_path_not_temporary.
Qed.

Lemma blob_not_in_manifests n x : blobs_dir root ++ [n] ≠ manifests_dir root ++ [x].
Proof. unfold blobs_dir, manifests_dir. rewrite <- !app_assoc. intros E%app_inv_head. done. Qed.

Lemma blob_apart ref n : put_apart ref (blobs_dir root ++ [n]).
Proof.
  split_and!; try (unfold blobs_dir, manifests_dir; intros E%(f_equal length); rewrite !length_app in E; cbn in E; lia).
  intros p [-> _]%manifest_path_Ok. split; [apply blob_not_in_manifests|]. intros tok. unfold temporary_of.
  rewrite parent_snoc. apply blob_not_in_manifests.
Qed.

Lemma serves_new ref m p s :
  valid_restore_set m ->
  loads (model_dump_json (restore_set_document m)) = Some (restore_set_document m) ->
  manifest_path ref = Ok p ->
  s !! p = Some (mkInode (NFile (model_dump_json (restore_set_document m))) uid FILE_MODE) ->
  served s ref = Ok m.
Proof.
  intros Hm Hjson Ep Hp. unfold served. rewrite Ep, Hp. cbn. unfold private_file. cbn [i_node i_uid i_mode].
  rewrite Nat.eqb_refl. cbn [andb]. unfold decode. by rewrite Hjson, read_restore_set_document.
Qed.

(** C13. Persisting a manifest is atomic under every schedule of I/O failures: afterwards the
    reference serves either the new manifest, or what it served before and then [put]
    raised; every other reference serves what it served before; and no blob changed.  After
    a successful [put], [resolve] returns the manifest. *)
Theorem put_is_atomic ref m w r w' :
  valid_restore_set m ->
  loads (model_dump_json (restore_set_document m)) = Some (restore_set_document m) ->
  leads posix (put ref m) w r w' ->
  (served (w_fs w') ref = Ok m \/ served (w_fs w') ref = served (w_fs w) ref /\ r ≠ Ok tt) /\
  (forall ref', ref' ≠ ref -> served (w_fs w') ref' = served (w_fs w) ref') /\
  (forall n, w_fs w' !! (blobs_dir root ++ [n]) = w_fs w !! (blobs_dir root ++ [n])) /\
  (r = Ok tt -> leads posix (resolve ref) (quiet (w_fs w')) (Ok m) (quiet (w_fs w'))).
Proof.
  intros Hm Hjson H.
  enough (Hserved : served (w_fs w') ref = Ok m \/ served (w_fs w') ref = served (w_fs w) ref /\ r ≠ Ok tt).
  { split_and!; [done| | |].
    - intros ref' Hne. unfold served. destruct (manifest_path ref') as [q|] eqn:Eq; [|done]. f_equal.
      by eapply put_frame; [eapply other_manifest_apart|].
    - intros n. eapply put_frame; [apply blob_apart|done].
    - intros ->. destruct Hserved as [Hs|[_ ?]]; [|done]. rewrite <- Hs. apply looks_resolve. }
  assert (Hdir : forall w1 r1, leads posix (ensure_dir root uid (manifests_dir root)) w r1 w1 ->
    forall p, manifest_path ref = Ok p -> w_fs w1 !! p = w_fs w !! p).
  { intros w1 r1 H1 p Ep. eapply frame; [|exact H1]. apply ensure_dir_leaves; by eapply manifest_path_deep. }
  unfold put in H. apply leads_bind in H as [([] & w1 & H1 & H)|(x & -> & H1)].
  2:{ right. split; [|done]. unfold served. destruct (manifest_path ref) as [p|e] eqn:Ep; [|done].
      f_equal. by eapply Hdir. }
  apply leads_bind in H as [(p & w2 & [Ep ->]%leads_lift & H)|(x & -> & [Ep ->]%leads_lift)].
  2:{ right. split; [|done]. unfold served. by rewrite <- Ep. }
  symmetry in Ep. apply write_atomic_spec in H as [H|[H Hr]].
  - left. by eapply serves_new.
  - right. split; [|done]. unfold served. rewrite Ep, H. f_equal. by eapply Hdir.
  - intros tok. pose proof Ep as [E _]%manifest_path_Ok. rewrite E at 2. by eapply manifest_path_not_temporary.
Qed.

(** ** Which blobs other manifests still need *)

Lemma elem_of_names_under s d suffix n :
  n ∈ names_under s d suffix <-> is_Some (s !! (d ++ [n])) /\ chars suffix `suffix_of` chars n.
Proof.
  unfold names_under. rewrite list_elem_of_omap. split.
  - intros ([k i] & Hk & Hf). cbn [fst snd] in Hf. apply elem_of_map_to_list in Hk.
    destruct (last k) as [x|] eqn:El; [|done]. case_decide as Hd; [|done]. injection Hf as ->. destruct Hd as [<- Hs].
    apply last_Some in El as [k' ->]. by rewrite parent_snoc; eauto.
  - intros [[i Hi] Hs]. exists (d ++ [n], i). rewrite elem_of_map_to_list. split; [done|]. cbn [fst snd].
    rewrite last_snoc, decide_True; [done|]. by rewrite parent_snoc.
Qed.

Lemma stem_json ref : ref ≠ "" -> stem (ref +:+ ".json") = ref.
Proof.
  intros Hne. unfold stem, cut_last. rewrite chars_app, reverse_app.
  change (reverse (chars ".json")) with (chars "nosj."). cbn.
  change (rev_append (reverse (chars ref)) []) with (reverse (reverse (chars ref))).
  rewrite reverse_involutive. destruct ref as [|c ref]; [done|]. apply (str_chars (String c ref)).
Qed.

Lemma served_Err s ref e : served s ref = Err e -> is_staged_error e = true.
Proof.
  unfold served, manifest_path, serves, decode. intros H. repeat case_match; by simplify_eq.
Qed.

Definition keys_of (m : RestoreSetManifest) : list (string * string) :=
  map (fun c => digest_key (rsc_digest c)) (rsm_components m).

Definition keys_of_name (s : fs) (excluded name : string) : list (string * string) :=
  if decide (stem name = excluded) then []
  else match served s (stem name) with Ok m => keys_of m | Err _ => [] end.

Lemma looks_collect s excluded names acc :
  (forall n, n ∈ names -> safe_opaque_identifier (stem n) = true) ->
  looks (collect_references root uid excluded names acc) s
    (Ok (acc ++ concat (map (keys_of_name s excluded) names))).
Proof.
  revert acc. induction names as [|n names IH]; intros acc Hn; cbn [collect_references map concat].
  - rewrite app_nil_r. apply looks_Ret.
  - assert (IH' := fun acc => IH acc (fun x Hx => Hn x (list_elem_of_further _ _ _ Hx))).
    unfold keys_of_name at 1. case_bool_decide as Hs.
    + rewrite decide_True by done. apply IH'.
    + rewrite decide_False by done. eapply looks_attempt.
      * eapply looks_bind; [apply looks_lift|]. unfold data_artifact_ref, require_safe_opaque_identifier.
        rewrite Hn by (by left). apply looks_resolve.
      * destruct (served s (stem n)) as [m|e] eqn:Es; [rewrite app_assoc; apply IH'|].
        rewrite (served_Err _ _ _ Es). apply IH'.
Qed.

(** A store directory: the manifests live in a directory whose names are references, and
    no blob is a directory. *)
Record store_layout (s : fs) : Prop := {
  sl_dir : is_dir s (manifests_dir root) = true;
  sl_names : forall n, n ∈ names_under s (manifests_dir root) ".json" -> safe_opaque_identifier (stem n) = true;
  sl_blobs : forall n, is_dir s (blobs_dir root ++ [n]) = false }.

Definition referenced (s : fs) (excluded : string) : list (string * string) :=
  concat (map (keys_of_name s excluded) (names_under s (manifests_dir root) ".json")).

Lemma looks_referenced s ref :
  store_layout s -> looks (referenced_digests_excluding root uid ref) s (Ok (referenced s ref)).
Proof.
  intros [Hd Hn _]. unfold referenced_digests_excluding.
  eapply looks_bind; [apply (looks_call (PathExists (manifests_dir root))); done|]. cbn [fs_call fst].
  unfold is_dir in Hd. destruct (s !! manifests_dir root) as [[[] u m]|]; try done. cbn [negb].
  eapply looks_bind; [apply looks_call; done|]. cbn [fs_call fst]. by apply (looks_collect s ref _ []).
Qed.

Lemma elem_of_referenced s ref k :
  store_layout s ->
  (k ∈ referenced s ref <-> exists ref' m, ref' ≠ ref /\ served s ref' = Ok m /\ k ∈ keys_of m).
Proof.
  intros Hl. unfold referenced. rewrite <- flat_map_concat_map, list_elem_of_In, in_flat_map.
  setoid_rewrite <- list_elem_of_In. split.
  - intros (n & Hn & Hk). unfold keys_of_name in Hk. case_decide; [by apply elem_of_nil in Hk|].
    destruct (served s (stem n)) as [m|] eqn:Es; [|by apply elem_of_nil in Hk]. eauto.
  - intros (ref' & m & Hne & Hs & Hk). exists (ref' +:+ ".json").
    assert (Hp : exists p, manifest_path ref' = Ok p /\ is_Some (s !! p)).
    { unfold served in Hs. destruct (manifest_path ref') as [p|]; [|done]. exists p. split; [done|].
      destruct (s !! p); [eauto|done]. }
    destruct Hp as (p & [-> Hsafe]%manifest_path_Ok & Hi). apply safe_opaque_identifier_chars in Hsafe as [Hne' _].
    unfold keys_of_name. rewrite stem_json, decide_False by done. rewrite Hs. split; [|done].
    apply elem_of_names_under. split; [done|]. rewrite chars_app. by apply suffix_app_r.
Qed.

(** ** What the readers accept is valid *)

Lemma get_list_Ok {A} (f : json -> result exn A) d k l :
  get_list f d k = Ok l -> forall x, x ∈ l -> exists j, f j = Ok x.
Proof.
  unfold get_list. destruct (dget k d) as [[| | | | |js|]|]; try done.
  2:{ intros [= <-] x Hx. by apply elem_of_nil in Hx. }
  revert l. induction js as [|j js IH]; intros l H x Hx; cbn in H; inv_ok; [by apply elem_of_nil in Hx|].
  apply elem_of_cons in Hx as [->|Hx]; [eauto|]. by eapply IH.
Qed.

Lemma artifact_digest_Ok a v d : artifact_digest a v = Ok d -> d = mkArtifactDigest a v.
Proof. unfold artifact_digest. intros H. repeat case_match; by simplify_eq. Qed.
Lemma restore_set_component_Ok k r f d c :
  restore_set_component k r f d = Ok c -> c = mkRestoreSetComponent k r f d /\ safe_opaque_identifier r = true.
Proof.
  unfold restore_set_component, require_opaque_identifier, require_safe_opaque_identifier.
  intros (x & Hx & (? & _ & H)%result_bind_Ok)%result_bind_Ok. injection H as <-. repeat case_match; by simplify_eq.
Qed.
Lemma restore_set_manifest_Ok i l cs m : restore_set_manifest i l cs = Ok m -> m = mkRestoreSetManifest i l cs.
Proof. unfold restore_set_manifest. intros H. inv_ok. done. Qed.

Lemma read_component_valid j c :
  read_component j = Ok c ->
  restore_set_component (rsc_kind c) (rsc_ref c) (rsc_format_version c) (rsc_digest c) = Ok c /\
  artifact_digest (ad_algorithm (rsc_digest c)) (ad_value (rsc_digest c)) = Ok (rsc_digest c).
Proof.
  unfold read_component, read_digest. intros H.
  repeat match goal with H : result_bind _ _ = Ok _ |- _ => apply result_bind_Ok in H as (? & ? & H) end.
  pose proof H as [-> _]%restore_set_component_Ok. split; [done|]. cbn [rsc_digest].
  match goal with Hd : artifact_digest _ _ = Ok _ |- _ => pose proof Hd as ->%artifact_digest_Ok; done end.
Qed.

Lemma read_restore_set_valid j m : read_restore_set j = Ok m -> valid_restore_set m.
Proof.
  unfold read_restore_set. intros H.
  repeat match goal with H : result_bind _ _ = Ok _ |- _ => apply result_bind_Ok in H as (? & ? & H) end.
  pose proof H as ->%restore_set_manifest_Ok. constructor; [done|]. cbn [rsm_components].
  match goal with H : get_list _ _ _ = Ok _ |- _ => pose proof (get_list_Ok _ _ _ _ H) as Hl end.
  intros c (j' & Hc)%Hl. by eapply read_component_valid.
Qed.

Lemma served_valid s ref m : served s ref = Ok m -> valid_restore_set m.
Proof.
  unfold served, serves, decode. intros H. repeat case_match; simplify_eq. by eapply read_restore_set_valid.
Qed.

Lemma blob_path_valid d :
  artifact_digest (ad_algorithm d) (ad_value d) = Ok d -> exists n, blob_path d = Ok (blobs_dir root ++ [n]).
Proof.
  unfold artifact_digest, blob_path. change DIGEST_HEX_LENGTHS with DIGEST_LENGTHS.
  destruct (dget (ad_algorithm d) DIGEST_LENGTHS) as [n|]; [|done]. unfold HEX_TEXT.
  rewrite fullmatch_anchored, orb_comm. destruct (_ || _); [done|]. eauto.
Qed.

Lemma blob_path_inj d1 d2 p : blob_path d1 = Ok p -> blob_path d2 = Ok p -> digest_key d1 = digest_key d2.
Proof.
  assert (Halg : forall d p, blob_path d = Ok p ->
    p = blobs_dir root ++ [ad_algorithm d +:+ "-" +:+ lower (ad_value d) +:+ ".bin"] /\
    length (chars (ad_algorithm d)) = 6).
  { intros d q. unfold blob_path. destruct (dget _ _) as [n|] eqn:E; [|done].
    destruct (_ || _); [done|]. intros [= <-]. split; [done|].
    apply dget_Some_elem in E. unfold DIGEST_HEX_LENGTHS in E. rewrite !elem_of_cons, elem_of_nil in E.
    by destruct E as [[= -> _]|[[= -> _]|[]]]. }
  intros (E1 & L1)%Halg (E2 & L2)%Halg. rewrite E1 in E2. apply app_inj_tail in E2 as [_ E2].
  apply (f_equal chars) in E2. rewrite !chars_app in E2. apply app_inj_1 in E2 as [Ea E2]; [|by rewrite L1, L2].
  apply app_inv_head in E2. apply app_inv_tail in E2. unfold digest_key. f_equal; by apply chars_inj.
Qed.

(** ** Discarding *)

(** The blobs [discard_blobs] removes. *)
Definition removes (refs : list (string * string)) (cs : list RestoreSetComponent) (p : fpath) : Prop :=
  exists c, c ∈ cs /\ (digest_key (rsc_digest c) ∉ refs) /\ blob_path (rsc_digest c) = Ok p.

#[local] Instance removes_dec refs cs p : Decision (removes refs cs p).
Proof.
  refine (cast_if (decide (Exists (fun c => (digest_key (rsc_digest c) ∉ refs) /\ (blob_path (rsc_digest c) = Ok p)) cs)));
    by rewrite Exists_exists in *.
Defined.

Lemma leads_discard_blobs refs cs acc s r w' :
  (forall c, c ∈ cs -> exists n, blob_path (rsc_digest c) = Ok (blobs_dir root ++ [n])) ->
  (forall n, is_dir s (blobs_dir root ++ [n]) = false) ->
  leads posix (discard_blobs root refs cs acc) (quiet s) r w' ->
  r = Ok acc /\ exists s', w' = quiet s' /\
    (forall p, removes refs cs p -> s' !! p = None) /\ (forall p, ~ removes refs cs p -> s' !! p = s !! p).
Proof.
  revert s. induction cs as [|c cs IH]; intros s Hcs Hd H; cbn [discard_blobs] in H.
  - apply leads_Ret in H as [-> ->]. split; [done|]. exists s. split_and!; [done| |done].
    intros p (c & Hc & _). by apply elem_of_nil in Hc.
  - assert (Hcs' : forall x, x ∈ cs -> exists n, blob_path (rsc_digest x) = Ok (blobs_dir root ++ [n])).
    { intros x Hx. apply Hcs. by right. }
    case_bool_decide as Href.
    + apply IH in H as (-> & s' & -> & H1 & H2); [|done..]. split; [done|]. exists s'. split_and!; [done|..].
      * intros p (x & [->|Hx]%elem_of_cons & Hn & Hp); [done|]. apply H1. by exists x.
      * intros p Hp. apply H2. intros (x & Hx & Hn & E). apply Hp. exists x. split; [by right|done].
    + apply leads_attempt_bind in H as (o & w1 & H1 & H). destruct (Hcs c) as [n Hn]; [by left|].
      rewrite Hn, lift_bind_Ok in H1. apply leads_unlink_missing_ok in H1 as [-> ->]; [|apply Hd].
      apply IH in H as (-> & s' & -> & H1 & H2); [|done|].
      2:{ intros k. unfold is_dir. destruct (decide (n = k)) as [->|Hk]; [by rewrite lookup_delete_eq|].
          rewrite lookup_delete_ne by (intros [_ ?]%app_inj_tail; done). apply Hd. }
      split; [done|]. exists s'. split_and!; [done|..].
      * intros p (x & [->|Hx]%elem_of_cons & Hnr & Hp); [|apply H1; by exists x].
        rewrite Hn in Hp. injection Hp as <-. destruct (decide (removes refs cs (blobs_dir root ++ [n]))) as [Hr|Hr];
          [by apply H1|]. rewrite H2 by done. apply lookup_delete_eq.
      * intros p Hp. rewrite H2.
        { apply lookup_delete_ne. intros <-. apply Hp. exists c. split; [by left|done]. }
        intros (x & Hx & Hnr & E). apply Hp. exists x. split; [by right|done].
Qed.

Lemma leads_discard_manifest_file ref p s r w' :
  manifest_path ref = Ok p -> is_dir s p = false ->
  leads posix (discard_manifest_file root ref []) (quiet s) r w' ->
  r = Ok (mkDiscardOutcome COMPLETED [] None) /\ w' = quiet (delete p s).
Proof.
  intros Hp Hd H. unfold discard_manifest_file in H. apply leads_attempt_bind in H as (o & w1 & H1 & H).
  rewrite Hp, lift_bind_Ok in H1. apply leads_unlink_missing_ok in H1 as [-> ->]; [|done].
  rewrite bind_Ret in H. by apply leads_lift in H as [-> ->].
Qed.

(** Discarding an absent reference completes and touches nothing. *)
Lemma discard_absent s ref r w' :
  served s ref = Err StagedArtifactUnavailableError -> leads posix (discard ref) (quiet s) r w' ->
  r = Ok (mkDiscardOutcome COMPLETED [] None) /\ w' = quiet s.
Proof.
  intros Hs H. apply (looks_fun _ _ (Ok (mkDiscardOutcome COMPLETED [] None))) in H; [done|].
  eapply looks_attempt; [apply looks_resolve|]. rewrite Hs. apply looks_lift.
Qed.

Lemma served_present s ref m :
  served s ref = Ok m -> exists p, manifest_path ref = Ok p /\ is_dir s p = false /\ is_Some (s !! p).
Proof.
  unfold served. destruct (manifest_path ref) as [p|]; [|done]. intros H. exists p. split; [done|].
  unfold serves, private_file in H. unfold is_dir. destruct (s !! p) as [[[] u md]|]; (done || (split; [done|eauto])).
Qed.

Lemma discard_effect s ref m r w' :
  store_layout s -> served s ref = Ok m -> leads posix (discard ref) (quiet s) r w' ->
  r = Ok (mkDiscardOutcome COMPLETED [] None) /\
  exists s' p, w' = quiet s' /\ manifest_path ref = Ok p /\ s' !! p = None /\
    (forall q, removes (referenced s ref) (rsm_components m) q -> s' !! q = None) /\
    (forall q, q ≠ p -> ~ removes (referenced s ref) (rsm_components m) q -> s' !! q = s !! q).
Proof.
  intros Hl Hs H. destruct (served_present _ _ _ Hs) as (p & Hp & Hd & _).
  assert (Hblob : forall c, c ∈ rsm_components m -> exists n, blob_path (rsc_digest c) = Ok (blobs_dir root ++ [n])).
  { intros c Hc. apply blob_path_valid. by apply (vr_components m (served_valid _ _ _ Hs)). }
  assert (Hpb : ~ removes (referenced s ref) (rsm_components m) p).
  { intros (c & Hc & _ & E). destruct (Hblob c Hc) as [n En]. rewrite En in E. injection E as <-.
    apply manifest_path_Ok in Hp as [E _]. by apply blob_not_in_manifests in E. }
  unfold discard in H. apply leads_attempt_bind in H as (o & w1 & H1 & H).
  apply (looks_fun _ _ _ _ _ (looks_resolve s ref)) in H1 as [-> ->]. rewrite Hs in H.
  apply leads_bind in H as [(refs & w2 & H2 & H)|(x & -> & H2)];
    apply (looks_fun _ _ _ _ _ (looks_referenced s ref Hl)) in H2 as [E ->]; [|done]. injection E as ->.
  apply leads_bind in H as [(l & w3 & H3 & H)|(x & -> & H3)];
    (apply leads_discard_blobs in H3 as (E & s1 & -> & H1 & H2); [|done|apply (sl_blobs _ Hl)]); [|done].
  injection E as ->. eapply leads_discard_manifest_file in H as [-> ->]; [|exact Hp|].
  2:{ unfold is_dir. by rewrite H2. }
  split; [done|]. exists (delete p s1), p. split_and!; [done|done|apply lookup_delete_eq|..].
  - intros q Hq. rewrite lookup_delete_ne; [by apply H1|]. by intros <-.
  - intros q Hne Hq. rewrite lookup_delete_ne; [by apply H2|]. by intros <-.
Qed.

(** Discarding keeps shared bytes: when nothing fails, discarding a served reference
    completes, the reference is then unavailable and discarding it again changes nothing;
    a blob of it is gone when no other reference that still resolves has its digest; and
    every other reference serves what it served, with its blobs intact. *)
Theorem discard_keeps_shared s ref m r w' :
  store_layout s -> served s ref = Ok m -> leads posix (discard ref) (quiet s) r w' ->
  r = Ok (mkDiscardOutcome COMPLETED [] None) /\
  exists s', w' = quiet s' /\
    served s' ref = Err StagedArtifactUnavailableError /\
    leads posix (discard ref) (quiet s') (Ok (mkDiscardOutcome COMPLETED [] None)) (quiet s') /\
    (forall c q, c ∈ rsm_components m -> blob_path (rsc_digest c) = Ok q ->
       (forall ref' m', ref' ≠ ref -> served s ref' = Ok m' -> digest_key (rsc_digest c) ∉ keys_of m') ->
       s' !! q = None) /\
    (forall ref' m', ref' ≠ ref -> served s ref' = Ok m' ->
       served s' ref' = Ok m' /\
       forall c q, c ∈ rsm_components m' -> blob_path (rsc_digest c) = Ok q -> s' !! q = s !! q).
Proof.
  intros Hl Hs H. destruct (discard_effect s ref m r w' Hl Hs H) as (-> & s' & p & -> & Hp & Hnone & Hgone & Hkept).
  assert (Hun : served s' ref = Err StagedArtifactUnavailableError).
  { unfold served. by rewrite Hp, Hnone. }
  assert (Hblob : forall ref' m' c q, served s ref' = Ok m' -> c ∈ rsm_components m' -> blob_path (rsc_digest c) = Ok q ->
    forall ref0 p0, manifest_path ref0 = Ok p0 -> q ≠ p0).
  { intros ref' m' c q Hm' Hc Hq ref0 p0 [-> _]%manifest_path_Ok.
    destruct (blob_path_valid (rsc_digest c)) as [n En]; [by apply (vr_components m' (served_valid _ _ _ Hm'))|].
    rewrite En in Hq. injection Hq as <-. apply blob_not_in_manifests. }
  assert (Hshared : forall c q, blob_path (rsc_digest c) = Ok q -> digest_key (rsc_digest c) ∈ referenced s ref ->
    ~ removes (referenced s ref) (rsm_components m) q).
  { intros c q Hq Hk (c' & _ & Hn & E). apply Hn. by rewrite (blob_path_inj _ _ _ E Hq). }
  split; [done|]. exists s'. split_and!; [done|done| | |].
  - eapply looks_attempt; [apply looks_resolve|]. rewrite Hun. apply looks_lift.
  - intros c q Hc Hq Hk. apply Hgone. exists c. split_and!; [done| |done].
    rewrite elem_of_referenced by done. intros (ref' & m' & Hne & Hm' & Hin). by apply (Hk ref' m').
  - intros ref' m' Hne Hm'. split.
    + unfold served. unfold served in Hm'. destruct (manifest_path ref') as [p'|] eqn:Ep'; [|done].
      rewrite Hkept; [done|intros ->; apply Hne; by eapply manifest_path_inj|].
      intros (c & Hc & _ & E). by eapply (Hblob ref m c p' Hs Hc E ref' p').
    + intros c q Hc Hq. apply Hkept; [by eapply Hblob|]. eapply Hshared; [done|].
      apply elem_of_referenced; [done|]. exists ref', m'. split_and!; [done..|].
      by apply (list_elem_of_fmap_2 (fun c => digest_key (rsc_digest c))).
Qed.

(** ** Readiness *)

Definition dangling (s : fs) (i : inode) : bool :=
  match i_node i with NLink t => bool_decide (s !! t = None) | _ => false end.

(** What [open_component] finds. *)
Definition opened (s : fs) (c : RestoreSetComponent) : result exn fpath :=
  let! p := blob_path (rsc_digest c) in
  match s !! p with
  | None => Err StagedArtifactUnavailableError
  | Some i =>
    if dangling s i then Err StagedArtifactUnavailableError else
    match private_file i with
    | None => Err StagedArtifactCustodyError
    | Some bytes =>
      if decide (hexdigest (ad_algorithm (rsc_digest c)) bytes = lower (ad_value (rsc_digest c)))
      then Ok p else Err StagedArtifactIntegrityError
    end
  end.

Lemma looks_hash_file s p i bytes alg :
  s !! p = Some i -> private_file i = Some bytes -> looks (hash_file uid hexdigest p alg) s (Ok (hexdigest alg bytes)).
Proof.
  intros Hi Hf. pose proof (private_file_node _ _ Hf) as Hn. unfold hash_file. eapply looks_bind.
  { eapply looks_catch; [apply (looks_call (OpenRead p)); done|]. cbn [fs_call fst]. rewrite Hi.
    destruct i as [n u md]; cbn in Hn; subst n. done. }
  eapply (looks_bind _ _ _ (Ok bytes)); [|apply looks_Ret].
  apply looks_closing, (looks_or_raise _ _ _ (Ok bytes)). eapply looks_bind; [apply (looks_call (Fstat p)); done|]. cbn [fs_call fst].
  rewrite Hi, private_stat_file, Hf. cbn [negb].
  replace (bool_decide _) with true by (symmetry; apply bool_decide_true; eauto). cbn [negb].
  by eapply looks_read_private.
Qed.

Lemma looks_open_component s c : looks (open_component c) s (opened s c).
Proof.
  unfold open_component, opened. eapply looks_bind; [apply looks_lift|].
  destruct (blob_path (rsc_digest c)) as [p|e]; [|done]. cbn [result_bind].
  eapply looks_bind; [apply (looks_call (PathExists p)); done|]. cbn [fs_call fst].
  destruct (s !! p) as [i|] eqn:Ei; [|apply looks_Raise].
  replace (match i with mkInode (NLink t) _ _ => bool_decide (is_Some (s !! t)) | _ => true end) with (negb (dangling s i)).
  2:{ unfold dangling. destruct i as [[| |t] ? ?]; cbn [i_node]; [done..|].
      destruct (s !! t); [rewrite bool_decide_false by done; by rewrite bool_decide_true by eauto|].
      rewrite bool_decide_true by done. rewrite bool_decide_false; [done|]. by intros [? ?]. }
  rewrite negb_involutive. destruct (dangling s i); [apply looks_Raise|].
  eapply looks_bind; [apply looks_validate|]. rewrite Ei, private_stat_file.
  destruct (private_file i) as [bytes|] eqn:Ef; [|done].
  replace (bool_decide _) with true by (symmetry; apply bool_decide_true; eauto).
  eapply looks_bind; [by eapply looks_hash_file|]. cbv beta iota.
  case_decide as Hh; [rewrite bool_decide_true by done; apply looks_Ret|rewrite bool_decide_false by done; apply looks_Raise].
Qed.

(** The database bytes are there, private, and hash to the recorded digest. *)
Definition intact (s : fs) (c : RestoreSetComponent) : Prop :=
  exists p i bytes, blob_path (rsc_digest c) = Ok p /\ s !! p = Some i /\ private_file i = Some bytes /\
    hexdigest (ad_algorithm (rsc_digest c)) bytes = lower (ad_value (rsc_digest c)).

Lemma opened_intact s c p : opened s c = Ok p -> intact s c.
Proof.
  unfold opened, intact. intros (q & Hq & H)%result_bind_Ok. destruct (s !! q) as [i|] eqn:Ei; [|done].
  destruct (dangling s i); [done|]. destruct (private_file i) as [bytes|] eqn:Ef; [|done].
  case_decide as Hh; [|done]. by exists q, i, bytes.
Qed.

Lemma intact_opened s c : intact s c -> is_ok (opened s c) = true.
Proof.
  intros (p & i & bytes & Hp & Hi & Hf & Hh). unfold opened. rewrite Hp. cbn [result_bind]. rewrite Hi.
  unfold dangling. rewrite (private_file_node _ _ Hf), Hf. by rewrite decide_True.
Qed.

Lemma opened_Err s c e : opened s c = Err e ->
  e ∈ [StagedArtifactUnavailableError; StagedArtifactCustodyError; StagedArtifactIntegrityError].
Proof.
  unfold opened. destruct (blob_path (rsc_digest c)) as [p|x] eqn:Ep; cbn [result_bind].
  - intros H. rewrite !elem_of_cons. repeat case_match; simplify_eq; auto.
  - intros [= <-]. unfold blob_path in Ep. rewrite !elem_of_cons. repeat case_match; simplify_eq; auto.
Qed.

(** The outcome of a validation, as a function of the files. *)
Fixpoint verdict (s : fs) (m : RestoreSetManifest) (cs : list RestoreSetComponent) : RestoreReadiness :=
  match cs with
  | [] => mkRestoreReadiness true (Some m) None None
  | c :: cs' =>
    if decide (rsc_kind c = DATABASE)
    then match opened s c with
         | Ok _ => verdict s m cs'
         | Err StagedArtifactIntegrityError => mkRestoreReadiness false None (Some INTEGRITY_FAILED) None
         | Err _ => mkRestoreReadiness false None (Some UNAVAILABLE) None
         end
    else verdict s m cs'
  end.

Lemma looks_verify_databases s m cs :
  looks (verify_databases root uid hexdigest m cs) s (Ok (verdict s m cs)).
Proof.
  induction cs as [|c cs IH]; cbn [verify_databases verdict]; [apply looks_lift|].
  case_decide as Hk; [rewrite bool_decide_true by done|rewrite bool_decide_false by done; exact IH]. cbn [negb].
  eapply looks_attempt; [apply looks_open_component|]. destruct (opened s c) as [p|e] eqn:Eo; [exact IH|].
  apply opened_Err in Eo. rewrite !elem_of_cons, elem_of_nil in Eo. destruct Eo as [->|[->|[->|[]]]]; apply looks_lift.
Qed.

Lemma verdict_ready s m cs :
  rd_ready (verdict s m cs) = true <->
  forall c, c ∈ cs -> rsc_kind c = DATABASE -> intact s c.
Proof.
  induction cs as [|c cs IH]; cbn [verdict].
  - split; [|done]. intros _ c Hc. by apply elem_of_nil in Hc.
  - setoid_rewrite elem_of_cons. case_decide as Hk.
    + destruct (opened s c) as [p|e] eqn:Eo.
      * rewrite IH. split; [|auto]. intros H x [->|Hx] Hx'; [by eapply opened_intact|auto].
      * split; [by destruct e|]. intros H. specialize (H c (or_introl eq_refl) Hk). apply intact_opened in H. by rewrite Eo in H.
    + rewrite IH. split; [|auto]. intros H x [->|Hx] Hx'; [done|auto].
Qed.

Lemma verdict_not_ready s m cs :
  rd_ready (verdict s m cs) = false -> exists c, c ∈ cs /\ rsc_kind c = DATABASE /\ ~ intact s c.
Proof.
  induction cs as [|c cs IH]; cbn [verdict]; [done|]. setoid_rewrite elem_of_cons.
  case_decide as Hk; [destruct (opened s c) as [p|e] eqn:Eo|].
  1,3: by intros (x & ? & ?)%IH; eauto.
  intros _. exists c. split_and!; [by left|done|]. intros H%intact_opened. by rewrite Eo in H.
Qed.

Lemma verdict_manifest s m cs : rd_ready (verdict s m cs) = true -> rd_manifest (verdict s m cs) = Some m.
Proof.
  induction cs as [|c cs IH]; cbn [verdict]; [done|]. case_decide; [|done]. destruct (opened s c) as [|e]; [done|]. by destruct e.
Qed.

(** A restore set is declared ready exactly when its manifest resolves and the bytes of its
    database component are present, private and hash to the recorded digest; nothing is
    changed by asking; and the only exception is a custody violation of the manifest file. *)
Theorem readiness_is_verified s ref r w' :
  leads posix (validate_for_restore root uid hexdigest ref) (quiet s) r w' ->
  w' = quiet s /\
  match r with
  | Ok rd =>
    if rd_ready rd
    then exists m, served s ref = Ok m /\ rd_manifest rd = Some m /\
           forall c, c ∈ rsm_components m -> rsc_kind c = DATABASE -> intact s c
    else forall m, served s ref = Ok m -> exists c, c ∈ rsm_components m /\ rsc_kind c = DATABASE /\ ~ intact s c
  | Err e => e = StagedArtifactCustodyError /\ served s ref = Err e
  end.
Proof.
  intros H. eapply looks_fun in H as [-> ->].
  2:{ eapply looks_attempt; [apply looks_resolve|].
      instantiate (1 := match served s ref with
        | Ok m => Ok (verdict s m (rsm_components m))
        | Err StagedArtifactCustodyError => Err StagedArtifactCustodyError
        | Err _ => Ok (mkRestoreReadiness false None (Some UNAVAILABLE) None) end).
      destruct (served s ref) as [m|e] eqn:Es; [apply looks_verify_databases|].
      unfold served, manifest_path, serves, decode in Es.
      repeat case_match; simplify_eq; (apply looks_lift || apply looks_Raise). }
  split; [done|]. destruct (served s ref) as [m|e] eqn:Es; [|by destruct e].
  destruct (rd_ready (verdict s m (rsm_components m))) eqn:Er.
  - exists m. split_and!; [done|by apply verdict_manifest|by apply (verdict_ready s m)].
  - intros ? [= <-]. by apply verdict_not_ready in Er.
Qed.
End Facts.

(** ** A sample store *)

Definition sample_root : fpath := ["state"; "artifact-store"].
Definition hex64 (c : string) : string := String.concat "" (repeat c 64).
Definition sample_set (id : string) (database : string) : RestoreSetManifest :=
  mkRestoreSetManifest id "lineage-1"
    [mkRestoreSetComponent DATABASE "db-1" "pg_dump-17" (mkArtifactDigest "sha256" database);
     mkRestoreSetComponent FILESTORE "fs-1" "tar-1" (mkArtifactDigest "sha256" (hex64 "f"))].
(** A writer that keeps the order of the fields, as pydantic's does. *)
Fixpoint plain (j : json) : list ascii :=
  match j with
  | JArr l => bracket None 0 "["%char "]"%char (map plain l)
  | JObj d => bracket None 0 "{"%char "}"%char (map (fun kv => quote kv.1 ++ [":"%char] ++ plain kv.2) d)
  | j => print None 0 j
  end.
Definition sample_dump (j : json) : string := str (plain j).
(** A stand-in for the hash: files contain their own digest. *)
Definition sample_hash (algorithm bytes : string) : string := bytes.

Definition private (n : node) : inode := mkInode n 1000 (match n with NDir => DIRECTORY_MODE | _ => FILE_MODE end).
Definition sample_manifest_inode (id : string) : inode :=
  private (NFile (sample_dump (restore_set_document (sample_set id (hex64 "a"))))).
Definition sample_blob : fpath := sample_root ++ ["blobs"; "sha256-" +:+ hex64 "a" +:+ ".bin"].

(** Two manifests that share one database blob; the second one with the given mode. *)
Definition sample_fs (mode2 : Z) : fs := list_to_map
  [(["state"], private NDir); (sample_root, private NDir);
   (sample_root ++ ["blobs"], private NDir); (sample_root ++ ["manifests"], private NDir);
   (sample_blob, private (NFile (hex64 "a")));
   (sample_root ++ ["manifests"; "set-1.json"], sample_manifest_inode "set-1");
   (sample_root ++ ["manifests"; "set-2.json"],
    mkInode (i_node (sample_manifest_inode "set-2")) 1000 mode2)].

Definition sample_store {A : Type} (p : store_prog A) (w : world) : result exn A * world :=
  let '(r, _, w') := exec (posix 1000 100 "00") p w in (r, w').

Lemma sample_store_leads {A : Type} (p : store_prog A) w :
  leads (posix 1000 100 "00") p w (sample_store p w).1 (sample_store p w).2.
Proof. unfold sample_store. pose proof (leads_exec (posix 1000 100 "00") p w) as H. by destruct (exec _ p w) as [[r tr] w']. Qed.

Lemma sample_set_valid id : id = "set-1" \/ id = "set-2" -> valid_restore_set (sample_set id (hex64 "a")).
Proof.
  intros Hid. constructor; [destruct Hid as [->| ->]; vm_compute; reflexivity|].
  intros c Hc. cbn [rsm_components sample_set] in Hc. rewrite !elem_of_cons, elem_of_nil in Hc.
  destruct Hc as [->|[->|[]]]; vm_compute; by split.
Qed.

Lemma sample_layout : store_layout sample_root (sample_fs FILE_MODE).
Proof.
  constructor; [vm_compute; reflexivity| |].
  - assert (H : forallb (fun n => safe_opaque_identifier (stem n))
      (names_under (sample_fs FILE_MODE) (manifests_dir sample_root) ".json") = true) by (vm_compute; reflexivity).
    by apply forallb_elem.
  - intros n. unfold is_dir. destruct (_ !! _) as [i|] eqn:E; [|done].
    unfold sample_fs in E. apply elem_of_list_to_map_2 in E. rewrite !elem_of_cons, elem_of_nil in E.
    destruct E as [E|[E|[E|[E|[E|[E|[E|[]]]]]]]]; injection E as E1 E2; subst i; try done;
      apply (f_equal length) in E1; vm_compute in E1; discriminate E1.
Qed.

Lemma put_is_atomic_witness :
  let m := sample_set "set-1" (hex64 "a") in
  let o := sample_store (put sample_root 1000 sample_dump "set-1" m) (quiet {[["state"] := private NDir]}) in
  o.1 = Ok tt /\
  leads (posix 1000 100 "00") (resolve sample_root 1000 "set-1") (quiet (w_fs o.2)) (Ok m) (quiet (w_fs o.2)).
Proof.
  intros m o. assert (Ho : o.1 = Ok tt) by (vm_compute; reflexivity). split; [exact Ho|].
  apply (put_is_atomic sample_root 1000 100 "00" sample_dump "set-1" m
           (quiet {[["state"] := private NDir]}) o.1 o.2);
    [apply sample_set_valid; by left|vm_compute; reflexivity|apply sample_store_leads|exact Ho].
Defined.

Lemma discard_keeps_shared_witness :
  let p := discard sample_root 1000 "set-1" in
  let w := quiet (sample_fs FILE_MODE) in
  served sample_root 1000 (sample_fs FILE_MODE) "set-1" = Ok (sample_set "set-1" (hex64 "a")) /\
  (sample_store p w).1 = Ok (mkDiscardOutcome COMPLETED [] None).
Proof.
  intros p w. assert (Hs : served sample_root 1000 (sample_fs FILE_MODE) "set-1" =
    Ok (sample_set "set-1" (hex64 "a"))) by (vm_compute; reflexivity). split; [exact Hs|].
  destruct (discard_keeps_shared sample_root 1000 100 "00" (sample_fs FILE_MODE) "set-1"
    (sample_set "set-1" (hex64 "a")) (sample_store p w).1 (sample_store p w).2
    sample_layout Hs (sample_store_leads p w)) as [H _]. exact H.
Defined.

(** The sharing check only sees manifests it can read: with the second manifest unreadable
    the shared bytes are destroyed. *)
Example unreadable_manifest_loses_its_bytes :
  (w_fs (sample_store (discard sample_root 1000 "set-1") (quiet (sample_fs FILE_MODE))).2 !! sample_blob,
   w_fs (sample_store (discard sample_root 1000 "set-1") (quiet (sample_fs 420))).2 !! sample_blob) =
  (Some (private (NFile (hex64 "a"))), None).
Proof. vm_compute. reflexivity. Qed.

Lemma readiness_is_verified_witness :
  let p := validate_for_restore sample_root 1000 sample_hash "set-1" in
  let w := quiet (sample_fs FILE_MODE) in
  (sample_store p w).1 = Ok (mkRestoreReadiness true (Some (sample_set "set-1" (hex64 "a"))) None None) /\
  (sample_store p w).2 = w.
Proof.
  intros p w. split; [vm_compute; reflexivity|].
  destruct (readiness_is_verified sample_root 1000 100 "00" sample_hash (sample_fs FILE_MODE) "set-1"
    (sample_store p w).1 (sample_store p w).2 (sample_store_leads p w)) as [H _]. exact H.
Defined.
