(* ===== verification/Docker.v ===== *)
(** * Effects of the PostgreSQL-on-Docker adapters

    What the adapters ask of the world: child processes with their exit status, clocks,
    temporary files, and the staged artifact store they are given.  A program of these calls
    is judged by its traces, so nothing is assumed about the answers.  Durations are
    integers; a call may raise ([OSError ENOENT] when the binary is missing,
    [TimeoutExpired] when the child is killed). *)

From S2P Require Import Prelude Effects Values Artifacts.

Inductive docker_op : Type -> Type :=
(* [subprocess.run(argv, stdin=, stdout=, timeout=)]: the exit status *)
| Run (argv : list string) (stdin stdout : option string) (timeout : Z) : docker_op Z
(* the same with [capture_output]: exit status, stdout and stderr when text *)
| Query (argv : list string) (timeout : Z) : docker_op (Z * option string * option string)
| Sleep (seconds : Z) : docker_op unit
| Monotonic : docker_op Z
| WallTime : docker_op Z
| Uuid4 : docker_op string
(* [tempfile.NamedTemporaryFile(prefix=)] and the end of its [with] block *)
| NamedTemporary (prefix : string) : docker_op string
| CloseTemporary (path : string) (delete : bool) : docker_op unit
| TempGlob (pattern : string) : docker_op (list string)
| IsFile (path : string) : docker_op bool
| ModifiedAt (path : string) : docker_op Z
| DiskFree : docker_op Z
| OpenStream (path : string) : docker_op unit
| CloseStream (path : string) : docker_op unit
| ReadText (path : string) : docker_op string
| ReadBytes (path : string) : docker_op string
| UnlinkMissingOk (path : string) : docker_op unit
(* the injected [StagedArtifactStore] and [RestoreByteSource] *)
| OpenComponent (c : RestoreSetComponent) : docker_op string
| Stage (digest : ArtifactDigest) (path : string) : docker_op unit
| Put (ref : string) (m : RestoreSetManifest) : docker_op unit
| Discard (ref : string) : docker_op unit
| ByteSource (c : RestoreSetComponent) : docker_op string.

Definition docker_prog := prog docker_op exn.

(** [try: p finally: cleanup]: an exception of the cleanup wins. *)
Definition finally {E : Type -> Type} {X A : Type} (p : prog E X A) (cleanup : prog E X unit) : prog E X A :=
  let* r := attempt p in cleanup ;* lift r.

(** [with suppress(Exception): p] *)
Definition suppress (p : docker_prog unit) : docker_prog unit :=
  let* _ := attempt p in Ret tt.

(** [with path.open("rb") as stream: p] *)
Definition with_stream {A : Type} (path : string) (p : docker_prog A) : docker_prog A :=
  call (OpenStream path) ;* finally p (call (CloseStream path)).

(** The bytes of a file, read to the end in bounded chunks. *)
Definition read_back (path : string) : docker_prog string := with_stream path (call (ReadBytes path)).

Definition is_missing (e : exn) : bool := bool_decide (e = OSError ENOENT).
Definition is_expired (e : exn) : bool := bool_decide (e = TimeoutExpired).

(** ** Text *)

(** The line boundaries of [str.splitlines] among the 8-bit characters. *)
Definition is_linebreak (c : ascii) : bool :=
  existsb (Nat.eqb (code c)) [10; 11; 12; 13; 28; 29; 30; 133].
Fixpoint lines_from (current : list ascii) (l : list ascii) : list (list ascii) :=
  match l with
  | [] => match current with [] => [] | _ => [reverse current] end
  | c :: l' =>
    if is_linebreak c then
      reverse current ::
      match l' with
      | c2 :: l'' => if (code c =? 13) && (code c2 =? 10) then lines_from [] l'' else lines_from [] l'
      | [] => []
      end
    else lines_from (c :: current) l'
  end.
Definition splitlines (s : string) : list string := map str (lines_from [] (chars s)).

(** [str.split()] *)
Fixpoint words_from (current : list ascii) (l : list ascii) : list (list ascii) :=
  let flush := match current with [] => [] | _ => [reverse current] end in
  match l with
  | [] => flush
  | c :: l' => if is_space c then flush ++ words_from [] l' else words_from (c :: current) l'
  end.
Definition words (s : string) : list string := map str (words_from [] (chars s)).

(** [value.replace(c, by)] for a one-character [c] *)
Definition replace_char (c : ascii) (by_ : list ascii) (s : string) : string :=
  str (concat (map (fun x => if Ascii.eqb x c then by_ else [x]) (chars s))).

(** ** Lemmas on traces *)

Lemma runs_finally {E : Type -> Type} {X A : Type} (p : prog E X A) (c : prog E X unit) tr (o : result X A) :
  runs (finally p c) tr o <->
  exists tr1 tr2 r rc, tr = tr1 ++ tr2 /\ runs p tr1 r /\ runs c tr2 rc /\
    o = match rc with Ok _ => r | Err x => Err x end.
Proof.
  unfold finally. split.
  - intros [(tr1 & tr2 & r & -> & (r' & [= ->] & H1)%runs_attempt & H2)|(x & -> & (r' & [=] & _)%runs_attempt)]%runs_bind.
    apply runs_bind in H2 as [(tr3 & tr4 & [] & -> & H2 & [-> ->]%runs_lift)|(x & -> & H2)].
    + exists tr1, tr3, r', (Ok tt). by rewrite app_nil_r.
    + by exists tr1, tr2, r', (Err x).
  - intros (tr1 & tr2 & r & rc & -> & H1 & H2 & ->). apply runs_bind. left. exists tr1, tr2, r.
    split_and!; [done|apply runs_attempt; eauto|]. destruct rc as [[]|x]; apply runs_bind; [left|right; eauto].
    exists tr2, [], tt. rewrite app_nil_r. split_and!; [done..|by apply runs_lift].
Qed.

Lemma leads_finally {E : Type -> Type} {X W A : Type} (h : handler (E:=E) (X:=X) W) (p : prog E X A) c v (r : result X A) v' :
  leads h (finally p c) v r v' <->
  exists r0 v1 rc, leads h p v r0 v1 /\ leads h c v1 rc v' /\ r = match rc with Ok _ => r0 | Err e => Err e end.
Proof.
  unfold finally. rewrite leads_attempt_bind. split.
  - intros (r0 & v1 & Hp & [([] & v2 & Hc & [-> ->]%leads_lift)|(e & -> & Hc)]%leads_bind); [by exists r0, v1, (Ok tt)|].
    by exists r0, v1, (Err e).
  - intros (r0 & v1 & [[]|e] & Hp & Hc & ->); exists r0, v1; (split; [done|]); apply leads_bind; [left|right; by exists e].
    exists tt, v'. split; [done|]. by apply leads_lift.
Qed.

Lemma finally_Ok {E : Type -> Type} {X A : Type} (p : prog E X A) (c : prog E X unit) tr a :
  runs (finally p c) tr (Ok a) -> exists tr1 tr2, tr = tr1 ++ tr2 /\ runs p tr1 (Ok a) /\ runs c tr2 (Ok tt).
Proof. intros (tr1 & tr2 & r & [[]|x] & -> & H1 & H2 & Eo)%runs_finally; [|done]. subst. eauto. Qed.

Lemma only_finally {E : Type -> Type} {X A : Type} f (p : prog E X A) (c : prog E X unit) : only f p -> only f c -> only f (finally p c).
Proof. intros Hp Hc. unfold finally. solve_only. Qed.
Lemma only_with_stream {A : Type} (f : forall R, docker_op R -> Prop) path (p : docker_prog A) :
  f _ (OpenStream path) -> f _ (CloseStream path) -> only f p -> only f (with_stream path p).
Proof. intros Ho Hc Hp. unfold with_stream. apply only_bind; [by apply only_call|intros _]. apply only_finally; [done|by apply only_call]. Qed.

(** The commands that exited with status 0, in order. *)
Definition exited_zero (tr : list (event docker_op exn)) : list (list string) :=
  omap (M:=list) (fun ev => match ev with
    | Event e r =>
      match e in docker_op R return result exn R -> option (list string) with
      | Run argv _ _ _ => fun r => if bool_decide (r = Ok 0%Z) then Some argv else None
      | _ => fun _ => None
      end r end) tr.

Lemma exited_zero_app tr1 tr2 : exited_zero (tr1 ++ tr2) = exited_zero tr1 ++ exited_zero tr2.
Proof. unfold exited_zero. induction tr1 as [|ev tr1 IH]; [done|]. cbn. rewrite IH. by destruct ev as [R e r], (match e with Run _ _ _ _ => _ | _ => _ end r). Qed.

(** Calls that start no child process. *)
Definition no_child (R : Type) (e : docker_op R) : Prop :=
  match e with Run _ _ _ _ | Query _ _ => False | _ => True end.

Lemma exited_zero_no_child tr : Forall (event_sat no_child) tr -> exited_zero tr = [].
Proof. induction 1 as [|ev tr He _ IH]; [done|]. destruct ev as [R e r]. cbn. destruct e; try done; exact IH. Qed.

(** ** An environment for examples: every command succeeds and the clock stands still *)

Definition obliging (stdout text bytes : string) (R : Type) (e : docker_op R) (w : unit) : result exn R * unit :=
  (match e in docker_op R return result exn R with
   | Run _ _ _ _ => Ok 0%Z
   | Query _ _ => Ok (0%Z, Some stdout, None)
   | Monotonic | WallTime | ModifiedAt _ => Ok 100%Z
   | DiskFree => Ok 1073741824%Z
   | Uuid4 => Ok "ab"
   | NamedTemporary prefix => Ok (prefix +:+ "1")
   | TempGlob _ => Ok []
   | IsFile _ => Ok true
   | ReadText _ => Ok text
   | ReadBytes _ => Ok bytes
   | OpenComponent _ | ByteSource _ => Ok "raw.dump"
   | Sleep _ | CloseTemporary _ _ | OpenStream _ | CloseStream _ | UnlinkMissingOk _ | Stage _ _ | Put _ _ | Discard _ => Ok tt
   end, w).
