(* ===== verification/MaskTransform.v ===== *)
(** * The masking round trip ([odoo_forge_postgres_docker/mask_transform.py])

    A captured dump is restored into a throwaway, network-less container, every rule's
    [UPDATE] is applied there, and the re-dumped bytes are staged under their own digest. *)

From S2P Require Import Prelude Effects Regex Values Artifacts Docker.

Definition STAGED_FILE_PREFIX : string := "odoo-forge-mask-dump-".
Definition SCRATCH_NAME_PREFIX : string := "odoo-forge-mask-scratch-".
Definition DEFAULT_SCRATCH_IMAGE : string := "postgres:16".
Definition DEFAULT_SCRATCH_DATABASE : string := "maskdb".
Definition READINESS_ATTEMPTS : nat := 60.
Definition READINESS_INTERVAL_SECONDS : Z := 1.
Definition SCRATCH_COMMAND_TIMEOUT : Z := 120.
Definition REDACTED_MARKER : string := "[REDACTED]".

Definition fail (e : database_error) : exn := DatabaseProviderError e.

(** ** SQL text *)

Definition SQL_IDENTIFIER : regex := rcats [RBol; rplus (RSet identifier_char); REol].

Definition dquote : string := str [ascii_of_nat 34].

Definition quote_identifier (value : string) : result exn string :=
  if fullmatch SQL_IDENTIFIER value then Ok (dquote +:+ value +:+ dquote) else Err (fail InvalidMaskSelectorError).

Definition quote_literal (value : string) : string := "'" +:+ replace_char "'"%char ["'"%char; "'"%char] value +:+ "'".

Definition mask_expression (r : AnonymizationRule) (column : string) : string :=
  match ar_mask_strategy r with
  | HASH => "md5(" +:+ column +:+ "::text)"
  | NULLIFY => "NULL"
  | REDACT => quote_literal REDACTED_MARKER
  | STATIC_REPLACE => quote_literal (default "" (ar_static_value r))
  end.

Definition update_statement (r : AnonymizationRule) : result exn string :=
  let! table := quote_identifier (ar_table r) in
  let! column := quote_identifier (ar_column r) in
  Ok ("UPDATE " +:+ table +:+ " SET " +:+ column +:+ " = " +:+ mask_expression r column).

Fixpoint update_statements (rules : list AnonymizationRule) : result exn (list string) :=
  match rules with
  | [] => Ok []
  | r :: rules' => let! s := update_statement r in let! ss := update_statements rules' in Ok (s :: ss)
  end.

(** ** What the scratch database says about the columns *)

Record ColumnFacts : Type := mkColumnFacts { data_type : string; is_unique : bool; is_nullable : bool }.

Definition TEXT_ASSIGNABLE_TYPES : list string := ["text"; "character varying"; "character"].

Definition INTROSPECTION_SQL (pairs : string) : string := "
SELECT c.table_name, c.column_name, c.data_type, c.is_nullable,
  EXISTS (
    SELECT 1
    FROM information_schema.table_constraints tc
    JOIN information_schema.key_column_usage kcu
      ON tc.constraint_name = kcu.constraint_name
     AND tc.table_schema = kcu.table_schema
    WHERE tc.table_name = c.table_name
      AND kcu.column_name = c.column_name
      AND tc.constraint_type IN ('UNIQUE', 'PRIMARY KEY')
  ) AS is_unique
FROM information_schema.columns c
WHERE (c.table_name, c.column_name) IN (" +:+ pairs +:+ ")
".

Definition facts_table := list ((string * string) * ColumnFacts).

(** One row; unpacking another number of fields is a [ValueError]. *)
Definition read_row (line : string) : result exn ((string * string) * ColumnFacts) :=
  match split_on "|"%char line with
  | [table; column; type; nullable; unique] =>
    Ok ((table, column), mkColumnFacts type (bool_decide (unique = "t")) (bool_decide (nullable = "YES")))
  | _ => Err (ValueError "unpack")
  end.
Fixpoint read_rows (lines : list string) (facts : facts_table) : result exn facts_table :=
  match lines with
  | [] => Ok facts
  | line :: lines' =>
    if bool_decide (strip line = "") then read_rows lines' facts
    else let! '(k, f) := read_row line in read_rows lines' (dset k f facts)
  end.

(** What one rule demands of its column, in the order of the checks. *)
Definition rule_maskable (facts : facts_table) (r : AnonymizationRule) : result exn unit :=
  match dget (ar_table r, ar_column r) facts with
  | None => Err (fail MaskSelectorNotFoundError)
  | Some column =>
    let s := ar_mask_strategy r in
    if bool_decide (s ∈ [HASH; REDACT; STATIC_REPLACE]) && negb (bool_decide (data_type column ∈ TEXT_ASSIGNABLE_TYPES))
    then Err (fail MaskColumnTypeUnsupportedError)
    else if bool_decide (s ∈ [REDACT; STATIC_REPLACE]) && is_unique column
    then Err (fail MaskUniqueColumnCollisionError)
    else if bool_decide (s = NULLIFY) && negb (is_nullable column)
    then Err (fail MaskNotNullColumnError)
    else Ok tt
  end.
Definition require_maskable (rules : list AnonymizationRule) (facts : facts_table) : result exn unit :=
  result_iter (rule_maskable facts) rules.

(** ** Commands *)

Record ScratchDatabase : Type := mkScratchDatabase { container : string; database : string }.

Definition run_argv (c database image : string) : list string :=
  ["docker"; "run"; "--detach"; "--name"; c; "--network"; "none"; "--env"; "POSTGRES_HOST_AUTH_METHOD=trust";
   "--env"; "POSTGRES_DB=" +:+ database; image].
Definition rm_argv (c : string) : list string := ["docker"; "rm"; "-f"; c].
Definition inspect_argv (c : string) : list string :=
  ["docker"; "inspect"; "-f"; "{{range $network, $_ := .NetworkSettings.Networks}}{{$network}} {{end}}"; c].
Definition probe_argv (c database : string) : list string :=
  ["docker"; "exec"; c; "psql"; "-U"; "postgres"; "-d"; database; "-tAc"; "SELECT 1"].
Definition introspect_argv (s : ScratchDatabase) (sql : string) : list string :=
  ["docker"; "exec"; container s; "psql"; "-U"; "postgres"; "-d"; database s; "-v"; "ON_ERROR_STOP=1"; "-tAc"; sql].
Definition restore_argv (s : ScratchDatabase) : list string :=
  ["docker"; "exec"; "-i"; container s; "pg_restore"; "-U"; "postgres"; "-d"; database s; "--no-owner"; "--clean"; "--if-exists"].
Definition update_argv (s : ScratchDatabase) (statement : string) : list string :=
  ["docker"; "exec"; container s; "psql"; "-U"; "postgres"; "-d"; database s; "-v"; "ON_ERROR_STOP=1"; "-c"; statement].
Definition dump_argv (s : ScratchDatabase) : list string :=
  ["docker"; "exec"; container s; "pg_dump"; "-U"; "postgres"; "--format=custom"; database s].

(** [_invoke]: every outcome of the child mapped to the taxonomy. *)
Definition invoke (argv : list string) (stdin stdout : option string) (timeout : Z) (failure : database_error)
    : docker_prog unit :=
  let* returncode := catch (call (Run argv stdin stdout timeout))
    (fun e => Raise (if is_missing e then fail MaskBinaryUnavailableError
                     else if is_expired e then fail MaskTimeoutError else e)) in
  if (returncode =? 0)%Z then Ret tt else Raise (fail failure).

(** [_Deadline.remaining()] for a budget that expires at [expires_at]. *)
Definition remaining (expires_at : Z) : docker_prog Z :=
  let* now := call Monotonic in
  let left := (expires_at - now)%Z in
  if (left <=? 0)%Z then Raise (fail MaskTimeoutError) else Ret left.

(** [_invoke(..., timeout=deadline.remaining())] *)
Definition invoke_within (expires_at : Z) (argv : list string) (stdin stdout : option string) : docker_prog unit :=
  let* timeout := remaining expires_at in invoke argv stdin stdout timeout MaskCommandFailedError.

(** ** The scratch database *)

Fixpoint await_scratch_readiness (c database : string) (attempts : nat) : docker_prog unit :=
  match attempts with
  | O => Raise (fail MaskScratchUnavailableError)
  | S attempts' =>
    let* returncode := call (Run (probe_argv c database) None None SCRATCH_COMMAND_TIMEOUT) in
    if (returncode =? 0)%Z then Ret tt
    else (if attempts' =? 0 then Ret tt else call (Sleep READINESS_INTERVAL_SECONDS)) ;*
         await_scratch_readiness c database attempts'
  end.

Definition isolated (networks : string) : bool :=
  bool_decide (words networks = []) || bool_decide (words networks = ["none"]).
Definition require_network_isolation (c : string) : docker_prog unit :=
  let* '(returncode, stdout, _) := call (Query (inspect_argv c) SCRATCH_COMMAND_TIMEOUT) in
  match stdout with
  | Some networks => if (returncode =? 0)%Z && isolated networks then Ret tt else Raise (fail MaskScratchNotIsolatedError)
  | None => Raise (fail MaskScratchNotIsolatedError)
  end.

(** What [docker_scratch_database] does before it yields. *)
Definition enter_scratch (c : string) : docker_prog unit :=
  invoke (run_argv c DEFAULT_SCRATCH_DATABASE DEFAULT_SCRATCH_IMAGE) None None SCRATCH_COMMAND_TIMEOUT
    MaskScratchUnavailableError ;*
  await_scratch_readiness c DEFAULT_SCRATCH_DATABASE READINESS_ATTEMPTS ;*
  require_network_isolation c.

(** [with docker_scratch_database() as scratch: body]: what the body assigned before the
    container was removed, and how the [with] statement ended. *)
Definition with_scratch {A : Type} (body : ScratchDatabase -> docker_prog A) : docker_prog (option A * result exn unit) :=
  let* hex := call Uuid4 in
  let c := SCRATCH_NAME_PREFIX +:+ hex in
  let* r := attempt (enter_scratch c ;* body (mkScratchDatabase c DEFAULT_SCRATCH_DATABASE)) in
  let* removed := attempt (call (Run (rm_argv c) None None SCRATCH_COMMAND_TIMEOUT)) in
  Ret (match r with Ok a => Some a | Err _ => None end,
       match removed, r with
       | Err x, _ => Err x
       | Ok _, Err x => Err x
       | Ok _, Ok _ => Ok tt
       end).

(** ** The round trip *)

Definition open_staged_bytes (c : RestoreSetComponent) : docker_prog string :=
  catch (call (OpenComponent c)) (fun _ => Raise (fail MaskPersistenceError)).
Definition stage_masked_bytes (digest : ArtifactDigest) (masked_path : string) : docker_prog unit :=
  catch (call (Stage digest masked_path)) (fun _ => Raise (fail MaskPersistenceError)).

Definition restore_into_scratch (expires_at : Z) (s : ScratchDatabase) (raw_path : string) : docker_prog unit :=
  with_stream raw_path (invoke_within expires_at (restore_argv s) (Some raw_path) None).

Definition selector_pairs (rules : list AnonymizationRule) : string :=
  join ", " (map (fun r => "(" +:+ quote_literal (ar_table r) +:+ ", " +:+ quote_literal (ar_column r) +:+ ")") rules).
Definition introspect_columns (expires_at : Z) (s : ScratchDatabase) (rules : list AnonymizationRule)
    : docker_prog facts_table :=
  let* sink := call (NamedTemporary STAGED_FILE_PREFIX) in
  let* rows := finally (
      invoke_within expires_at (introspect_argv s (INTROSPECTION_SQL (selector_pairs rules))) None (Some sink) ;*
      call (ReadText sink)) (call (CloseTemporary sink true)) in
  lift (read_rows (splitlines rows) []).

Definition apply_statements (expires_at : Z) (s : ScratchDatabase) (statements : list string) : docker_prog unit :=
  for_each (fun statement => invoke_within expires_at (update_argv s statement) None None) statements.

Section Mask.
(** [hashlib.sha256(...).hexdigest()] *)
Variable sha256 : string -> string.

Definition redump_from_scratch (expires_at : Z) (s : ScratchDatabase) : docker_prog (string * ArtifactDigest) :=
  let* staged := call (NamedTemporary STAGED_FILE_PREFIX) in
  let* bytes := catch (finally (invoke_within expires_at (dump_argv s) None (Some staged)) (call (CloseTemporary staged false)) ;*
                       read_back staged)
                  (fun x => call (UnlinkMissingOk staged) ;* Raise x) in
  let* digest := lift (artifact_digest "sha256" (sha256 bytes)) in
  Ret (staged, digest).

(** The body of [with scratch_factory() as scratch]. *)
Definition masked_dump (expires_at : Z) (rules : list AnonymizationRule) (statements : list string) (raw_path : string)
    (s : ScratchDatabase) : docker_prog (string * ArtifactDigest) :=
  restore_into_scratch expires_at s raw_path ;*
  let* facts := introspect_columns expires_at s rules in
  lift (require_maskable rules facts) ;*
  apply_statements expires_at s statements ;*
  redump_from_scratch expires_at s.

(** [make_docker_mask_transform(timeout=)(component, rules)] *)
Definition mask (timeout : Z) (component : RestoreSetComponent) (rules : list AnonymizationRule)
    : docker_prog RestoreSetComponent :=
  if bool_decide (rules = []) || negb (bool_decide (rsc_kind component = DATABASE)) then Ret component else
  let* statements := lift (update_statements rules) in
  let* raw_path := open_staged_bytes component in
  let* started := call Monotonic in
  let* '(masked, ended) := with_scratch (masked_dump (started + timeout) rules statements raw_path) in
  let* digest := finally (
      lift ended ;*
      match masked with
      | Some (masked_path, digest) => stage_masked_bytes digest masked_path ;* Ret digest
      | None => Raise AssertionError       (* the [with] ended normally, so the dump exists *)
      end)
    (match masked with Some (masked_path, _) => call (UnlinkMissingOk masked_path) | None => Ret tt end) in
  lift (restore_set_component (rsc_kind component) (rsc_ref component) (rsc_format_version component) digest).
End Mask.
