(* ===== verification/MaskFacts.v ===== *)
(** * Properties of the masking round trip

    What every trace of [mask] satisfies, whatever Docker, the clock, the file system and
    the artifact store answer: the raw dump stays inside a removed, network-less container,
    and only fully masked bytes are staged; and the SQL text means what the rules say. *)

From S2P Require Import Prelude Effects Regex Values Artifacts Docker MaskTransform.

(** ** Success of the pieces *)

Lemma invoke_Ok argv i o t f tr : runs (invoke argv i o t f) tr (Ok tt) -> tr = [Event (Run argv i o t) (Ok 0%Z)].
Proof.
  unfold invoke. intros [(tr1 & tr2 & rc & -> & H1 & H2)|(x & [=] & _)]%runs_bind.
  apply runs_catch in H1 as [(a & E & H1)|(? & ? & x & _ & _ & [_ [=]]%runs_Raise)].
  injection E as E; subst a. apply runs_call in H1 as ->. destruct (Z.eqb_spec rc 0) as [Hrc|Hrc]; [subst rc|by apply runs_Raise in H2 as [_ ?]].
  by apply runs_Ret in H2 as [-> _].
Qed.

Lemma remaining_Ok expires_at left tr :
  runs (remaining expires_at) tr (Ok left) ->
  exists now, tr = [Event Monotonic (Ok now)] /\ left = (expires_at - now)%Z /\ (0 < left)%Z.
Proof.
  unfold remaining. intros ([now|x] & tr' & -> & H)%runs_bind_call; [|by destruct H]. cbv zeta in H.
  destruct (Z.leb_spec (expires_at - now) 0); [by apply runs_Raise in H as [_ ?]|].
  apply runs_Ret in H as [-> [= ->]]. exists now. split_and!; [done..|lia].
Qed.

Lemma invoke_within_Ok expires_at argv i o tr :
  runs (invoke_within expires_at argv i o) tr (Ok tt) ->
  exists now, tr = [Event Monotonic (Ok now); Event (Run argv i o (expires_at - now)) (Ok 0%Z)] /\ (now < expires_at)%Z.
Proof.
  unfold invoke_within. intros [(tr1 & tr2 & t & -> & (now & -> & -> & Hlt)%remaining_Ok & ->%invoke_Ok)|(x & [=] & _)]%runs_bind.
  exists now. split; [done|lia].
Qed.

Lemma await_Ok c db n : forall tr, runs (await_scratch_readiness c db n) tr (Ok tt) -> exited_zero tr = [probe_argv c db].
Proof.
  induction n as [|n IH]; intros tr; cbn [await_scratch_readiness]; [by intros [_ [=]]%runs_Raise|].
  intros ([rc|x] & tr' & -> & H)%runs_bind_call; [|by destruct H].
  destruct (Z.eqb_spec rc 0) as [Hrc|Hrc]; [subst rc; by apply runs_Ret in H as [-> _]|].
  apply runs_bind in H as [(tr1 & tr2 & [] & -> & H1 & H2)|(x & [=] & _)].
  assert (E : exited_zero tr1 = []).
  { destruct (n =? 0); [by apply runs_Ret in H1 as [-> _]|]. by apply runs_call in H1 as ->. }
  change (exited_zero (?e :: ?l)) with (exited_zero ([e] ++ l)). rewrite !exited_zero_app, E, (IH _ H2). cbn.
  by destruct rc.
Qed.

Lemma isolation_Ok c tr :
  runs (require_network_isolation c) tr (Ok tt) ->
  exists networks err, tr = [Event (Query (inspect_argv c) SCRATCH_COMMAND_TIMEOUT) (Ok (0%Z, Some networks, err))] /\
    isolated networks = true.
Proof.
  unfold require_network_isolation. intros ([[[rc out] err]|x] & tr' & -> & H)%runs_bind_call; [|by destruct H].
  destruct out as [networks|]; [|by apply runs_Raise in H as [_ ?]].
  destruct (Z.eqb_spec rc 0) as [Hrc|Hrc]; [subst rc|by apply runs_Raise in H as [_ ?]].
  destruct (isolated networks) eqn:Ei; [|by apply runs_Raise in H as [_ ?]].
  apply runs_Ret in H as [-> _]. eauto.
Qed.

(** ** Containment of the raw dump *)

(** Calls that are about the container [c] and stage nothing. *)
Definition inside (c : string) (R : Type) (e : docker_op R) : Prop :=
  match e with
  | Run argv _ _ _ | Query argv _ => c ∈ argv
  | Stage _ _ | Put _ _ | Discard _ => False
  | _ => True
  end.
(** Calls that hand no bytes to a child. *)
Definition no_input (R : Type) (e : docker_op R) : Prop :=
  match e with Run _ (Some _) _ _ => False | _ => True end.

Lemma only_invoke (f : forall R, docker_op R -> Prop) argv i o t e :
  f _ (Run argv i o t) -> only f (invoke argv i o t e).
Proof. intros H. unfold invoke. solve_only. Qed.
Lemma only_invoke_within (f : forall R, docker_op R -> Prop) expires_at argv i o :
  f _ Monotonic -> (forall t, f _ (Run argv i o t)) -> only f (invoke_within expires_at argv i o).
Proof.
  intros Hm Hr. unfold invoke_within, remaining. apply only_bind; [|intros; by apply only_invoke]. solve_only.
Qed.
Lemma only_await (f : forall R, docker_op R -> Prop) c db n :
  f _ (Run (probe_argv c db) None None SCRATCH_COMMAND_TIMEOUT) -> (forall s, f _ (Sleep s)) ->
  only f (await_scratch_readiness c db n).
Proof. intros Hr Hs. induction n as [|n IH]; cbn [await_scratch_readiness]; solve_only. Qed.

Lemma enter_scratch_inside c : only (inside c) (enter_scratch c).
Proof.
  unfold enter_scratch. apply only_bind; [|intros _; apply only_bind; [|intros _]].
  - apply only_invoke. cbn. unfold run_argv. rewrite !elem_of_cons. tauto.
  - apply only_await; [|done]. cbn. unfold probe_argv. rewrite !elem_of_cons. tauto.
  - unfold require_network_isolation. apply only_bind; [|intros [[rc out] err]; solve_only].
    apply only_call. cbn. unfold inspect_argv. rewrite !elem_of_cons. tauto.
Qed.

Lemma enter_scratch_no_input c : only no_input (enter_scratch c).
Proof.
  unfold enter_scratch. apply only_bind; [by apply only_invoke|intros _; apply only_bind; [by apply only_await|intros _]].
  unfold require_network_isolation. solve_only.
Qed.

(** Docker started the container and answered that it has no network. *)
Definition proven_isolated (c : string) (tr : list (event docker_op exn)) : Prop :=
  Event (Run (run_argv c DEFAULT_SCRATCH_DATABASE DEFAULT_SCRATCH_IMAGE) None None SCRATCH_COMMAND_TIMEOUT) (Ok 0%Z) ∈ tr /\
  exists networks err, Event (Query (inspect_argv c) SCRATCH_COMMAND_TIMEOUT) (Ok (0%Z, Some networks, err)) ∈ tr /\
    (words networks = [] \/ words networks = ["none"]).

Lemma isolated_spec networks : isolated networks = true <-> words networks = [] \/ words networks = ["none"].
Proof. unfold isolated. by rewrite orb_true_iff, !bool_decide_eq_true. Qed.

Lemma enter_scratch_Ok c tr : runs (enter_scratch c) tr (Ok tt) ->
  proven_isolated c tr /\
  exited_zero tr = [run_argv c DEFAULT_SCRATCH_DATABASE DEFAULT_SCRATCH_IMAGE; probe_argv c DEFAULT_SCRATCH_DATABASE].
Proof.
  unfold enter_scratch. intros [(tr1 & tr2 & [] & -> & H1%invoke_Ok & H2)|(x & [=] & _)]%runs_bind. subst tr1.
  apply runs_bind in H2 as [(tr3 & tr4 & [] & -> & H3%await_Ok & H4)|(x & [=] & _)].
  apply isolation_Ok in H4 as (networks & err & -> & Hi%isolated_spec). split; [split|].
  - apply elem_of_app. left. by left.
  - exists networks, err. split; [|done]. rewrite !elem_of_app. right; right. by left.
  - rewrite !exited_zero_app, H3. done.
Qed.

Section Mask.
Variable sha256 : string -> string.

Lemma masked_dump_inside expires_at rules statements raw s :
  only (inside (container s)) (masked_dump sha256 expires_at rules statements raw s).
Proof.
  assert (Hrun : forall argv i o, container s ∈ argv -> only (inside (container s)) (invoke_within expires_at argv i o)).
  { intros argv i o H. by apply only_invoke_within. }
  unfold masked_dump, restore_into_scratch, introspect_columns, apply_statements, redump_from_scratch, read_back.
  apply only_bind; [|intros _; apply only_bind; [|intros facts; apply only_bind; [|intros _; apply only_bind; [|intros _]]]].
  - apply only_with_stream; [done|done|]. apply Hrun. unfold restore_argv. rewrite !elem_of_cons. tauto.
  - apply only_bind; [by apply only_call|intros sink]. apply only_bind; [|intros; apply only_lift].
    apply only_finally; [|by apply only_call]. apply only_bind; [|intros; by apply only_call].
    apply Hrun. unfold introspect_argv. rewrite !elem_of_cons. tauto.
  - apply only_lift.
  - apply only_for_each. intros st _. apply Hrun. unfold update_argv. rewrite !elem_of_cons. tauto.
  - apply only_bind; [by apply only_call|intros staged]. apply only_bind; [|intros bytes; solve_only].
    apply only_catch; [|intros; solve_only]. apply only_bind; [|intros; apply only_with_stream; [done|done|by apply only_call]].
    apply only_finally; [|by apply only_call]. apply Hrun. unfold dump_argv. rewrite !elem_of_cons. tauto.
Qed.



(** The shape of every trace of [mask] that gets as far as a scratch container. *)
Definition session timeout component rules (statements : list string) raw started c tr1 (r : result exn (string * ArtifactDigest))
    : Prop :=
  update_statements rules = Ok statements /\
  runs (enter_scratch c ;* masked_dump sha256 (started + timeout) rules statements raw
                             (mkScratchDatabase c DEFAULT_SCRATCH_DATABASE)) tr1 r /\
  rules ≠ [] /\ rsc_kind component = DATABASE.

Definition before_session component raw started hex : list (event docker_op exn) :=
  [Event (OpenComponent component) (Ok raw); Event Monotonic (Ok started); Event Uuid4 (Ok hex)].
Definition removal c (removed : result exn Z) : event docker_op exn :=
  Event (Run (rm_argv c) None None SCRATCH_COMMAND_TIMEOUT) removed.

(** What follows the removal, and the outcome. *)
Inductive mask_end (component : RestoreSetComponent) (r : result exn (string * ArtifactDigest)) (removed : result exn Z)
    : list (event docker_op exn) -> result exn RestoreSetComponent -> Prop :=
| mask_end_failed x e : r = Err x -> mask_end component r removed [] (Err e)
| mask_end_not_removed path digest x u e :
    r = Ok (path, digest) -> removed = Err x -> mask_end component r removed [Event (UnlinkMissingOk path) u] (Err e)
| mask_end_not_staged path digest rc s u e :
    r = Ok (path, digest) -> removed = Ok rc ->
    mask_end component r removed [Event (Stage digest path) s; Event (UnlinkMissingOk path) u] (Err e)
| mask_end_staged path digest rc c' :
    r = Ok (path, digest) -> removed = Ok rc ->
    restore_set_component (rsc_kind component) (rsc_ref component) (rsc_format_version component) digest = Ok c' ->
    mask_end component r removed [Event (Stage digest path) (Ok tt); Event (UnlinkMissingOk path) (Ok tt)] (Ok c').

(** Calls made before the session. *)
Definition early (R : Type) (e : docker_op R) : Prop :=
  match e with OpenComponent _ | Monotonic | Uuid4 => True | _ => False end.

Lemma mask_end_runs component (r : result exn (string * ArtifactDigest)) removed tr o :
  runs (
    let* digest := finally (
        lift (match removed, r with Err x, _ => Err x | Ok _, Err x => Err x | Ok _, Ok _ => Ok tt end) ;*
        match (match r with Ok a => Some a | Err _ => None end) with
        | Some (masked_path, digest) => stage_masked_bytes digest masked_path ;* Ret digest
        | None => Raise AssertionError
        end)
      (match (match r with Ok a => Some a | Err _ => None end) with
       | Some (masked_path, _) => call (UnlinkMissingOk masked_path) | None => Ret tt end) in
    lift (restore_set_component (rsc_kind component) (rsc_ref component) (rsc_format_version component) digest)) tr o ->
  mask_end component r removed tr o.
Proof.
  destruct r as [[path digest]|x].
  - destruct removed as [rc|y]; intros H.
    + assert (Hbody : forall trb rb, runs (lift (Ok tt) ;* stage_masked_bytes digest path ;* Ret digest : docker_prog _) trb rb ->
        exists s, trb = [Event (Stage digest path) s] /\ (rb = Ok digest /\ s = Ok tt \/ exists e, rb = Err e)).
      { intros trb rb Hb. rewrite lift_bind_Ok in Hb. unfold stage_masked_bytes in Hb.
        apply runs_bind in Hb as [(t1 & t2 & [] & -> & H1 & [-> ->]%runs_Ret)|(e & -> & H1)].
        - apply runs_catch in H1 as [(a & [= <-] & ->%runs_call)|(? & ? & e & _ & _ & [_ ?]%runs_Raise)]; [|done].
          exists (Ok tt). eauto.
        - apply runs_catch in H1 as [(a & [=] & _)|(t1 & t2 & e' & -> & ->%runs_call & [-> _]%runs_Raise)].
          exists (Err e'). eauto. }
      apply runs_bind in H as [(t1 & t2 & d & -> & H1 & [-> ->]%runs_lift)|(e & -> & H1)].
      * apply finally_Ok in H1 as (t3 & t4 & -> & (s & -> & [[[= ->] ->]|(e & [=])])%Hbody & ->%runs_call). cbn.
        destruct (restore_set_component _ _ _ _) as [c'|e] eqn:Ec; [by eapply mask_end_staged|by eapply mask_end_not_staged].
      * apply runs_finally in H1 as (t3 & t4 & rb & rc' & -> & (s & -> & _)%Hbody & ->%runs_call & _).
        by eapply mask_end_not_staged.
    + apply runs_bind in H as [(t1 & t2 & d & -> & (t3 & t4 & -> & H1 & _)%finally_Ok & _)|(e & -> & H1)].
      { by apply runs_bind in H1 as [(? & ? & ? & _ & [_ ?]%runs_lift & _)|(? & [=] & _)]. }
      apply runs_finally in H1 as (t3 & t4 & rb & rc' & -> & H1 & ->%runs_call & _).
      apply runs_bind in H1 as [(? & ? & ? & _ & [_ ?]%runs_lift & _)|(? & _ & [-> _]%runs_lift)]; [done|].
      by eapply mask_end_not_removed.
  - intros H. set (ended := match removed with Ok _ => Err x | Err y => Err y end : result exn unit) in H.
    assert (exists e, ended = Err e) as [e He] by (destruct removed; eauto). rewrite He, lift_bind_Err in H.
    apply runs_bind in H as [(t1 & t2 & d & -> & (t3 & t4 & _ & [_ ?]%runs_Raise & _)%finally_Ok & _)|(e' & -> & H1)]; [done|].
    apply runs_finally in H1 as (t3 & t4 & rb & rc' & -> & [-> _]%runs_Raise & [-> _]%runs_Ret & _).
    by eapply mask_end_failed.
Qed.

Lemma mask_runs timeout component rules tr o :
  runs (mask sha256 timeout component rules) tr o ->
  Forall (event_sat early) tr /\
    (forall c', o = Ok c' -> tr = [] /\ c' = component /\ (rules = [] \/ rsc_kind component ≠ DATABASE)) \/
  exists statements raw started hex tr1 r removed tr2,
    tr = before_session component raw started hex ++ tr1 ++ removal (SCRATCH_NAME_PREFIX +:+ hex) removed :: tr2 /\
    session timeout component rules statements raw started (SCRATCH_NAME_PREFIX +:+ hex) tr1 r /\
    mask_end component r removed tr2 o.
Proof.
  unfold mask. destruct (bool_decide (rules = []) || _) eqn:Etrivial.
  { intros [-> ->]%runs_Ret. left. split; [constructor|]. intros c' [= <-]. split_and!; [done..|].
    apply orb_true_iff in Etrivial as [?%bool_decide_eq_true|?%negb_true_iff%bool_decide_eq_false]; tauto. }
  apply orb_false_iff in Etrivial as [Hrules%bool_decide_eq_false Hkind%negb_false_iff%bool_decide_eq_true].
  intros [(t1 & t2 & statements & -> & [-> Hs]%runs_lift & H)|(e & -> & [-> _]%runs_lift)]%runs_bind; [|by left].
  apply runs_bind in H as [(t1 & t2' & raw & -> & H1 & H)|(e & -> & H1)].
  2:{ left. split; [|done]. apply runs_catch in H1 as [(a & [=] & _)|(t3 & t4 & e' & -> & ->%runs_call & [-> _]%runs_Raise)].
      repeat constructor. }
  apply runs_catch in H1 as [(a & E & ->%runs_call)|(? & ? & e & _ & _ & [_ [=]]%runs_Raise)]. injection E as <-.
  apply runs_bind_call in H as ([started|e] & t3 & -> & H); [|destruct H as [-> ->]; left; split; [repeat constructor|done]].
  unfold with_scratch in H. apply runs_bind in H as [(t4 & t5 & [masked ended] & -> & H1 & H)|(e & -> & H1)].
  2:{ apply runs_bind_call in H1 as ([hex|y] & t6 & -> & H1); [exfalso|left; destruct H1 as [-> _]; split; [repeat constructor|done]].
      apply runs_bind in H1 as [(? & ? & ? & _ & _ & H1)|(? & _ & (? & [=] & _)%runs_attempt)].
      apply runs_bind in H1 as [(? & ? & ? & _ & _ & [_ ?]%runs_Ret)|(? & _ & (? & [=] & _)%runs_attempt)]. done. }
  apply runs_bind_call in H1 as ([hex|y] & t6 & -> & H1); [|by destruct H1]. cbv zeta in H1.
  apply runs_bind in H1 as [(tr1 & t7 & r & -> & (r' & [= ->] & Hsession)%runs_attempt & H1)|(? & [=] & _)].
  apply runs_bind in H1 as [(t8 & t9 & removed & -> & (rm & [= ->] & ->%runs_call)%runs_attempt & H1)|(? & [=] & _)].
  apply runs_Ret in H1 as [-> [= -> ->]]. right. exists statements, raw, started, hex, tr1, r', rm, t5. split_and!.
  - cbn. by rewrite <- !app_assoc.
  - by split_and!.
  - by apply mask_end_runs.
Qed.

(** C3. The raw dump is contained.  In every trace of [mask], either no child process is
    started at all, or there is one scratch container such that every command before its
    [docker rm -f] is about that container, that removal is issued on success and on every
    failure path (a failed start included), no command follows it, nothing is staged before
    it, and bytes are handed to a command only after Docker answered that the container,
    started with [--network none], is attached to no network. *)
Theorem raw_dump_is_contained timeout component rules tr o :
  runs (mask sha256 timeout component rules) tr o ->
  Forall (event_sat early) tr \/
  exists c before removed after, tr = before ++ removal c removed :: after /\
    Forall (event_sat (inside c)) before /\ Forall (event_sat no_child) after /\
    forall ta argv bytes out t r tb, before = ta ++ Event (Run argv (Some bytes) out t) r :: tb -> proven_isolated c ta.
Proof.
  intros [[H _]|(statements & raw & started & hex & tr1 & r & removed & tr2 & -> & (_ & Hs & _) & Hf)]%mask_runs; [by left|].
  right. set (c := SCRATCH_NAME_PREFIX +:+ hex) in *.
  exists c, (before_session component raw started hex ++ tr1), removed, tr2. split_and!.
  - by rewrite <- app_assoc.
  - apply Forall_app. split; [repeat constructor|]. eapply only_runs; [|exact Hs].
    apply only_bind; [apply enter_scratch_inside|intros _]. apply (masked_dump_inside _ _ _ _ (mkScratchDatabase c _)).
  - destruct Hf; repeat constructor.
  - intros ta argv bytes out t r' tb E.
    symmetry in E. apply (segment_skip (event_sat no_input)) in E as (tb' & -> & ->); [|repeat constructor|by intros []].
    apply (runs_bind_reach no_input) in Hs as (tra & [] & tr1' & -> & [Hp _]%enter_scratch_Ok & _);
      [|apply enter_scratch_no_input|by intros []].
    destruct Hp as (H1 & networks & err & H2 & H3). split; [|exists networks, err; split; [|done]];
      rewrite !elem_of_app; tauto.
Qed.

(** ** What is staged *)

Lemma exited_zero_cons_no {R} (e : docker_op R) r tr : no_child R e -> exited_zero (Event e r :: tr) = exited_zero tr.
Proof. by destruct e. Qed.

Lemma invoke_within_exited expires_at argv i o tr :
  runs (invoke_within expires_at argv i o) tr (Ok tt) ->
  exited_zero tr = [argv] /\ exists t, Event (Run argv i o t) (Ok 0%Z) ∈ tr.
Proof. intros (now & -> & _)%invoke_within_Ok. split; [done|]. eexists. right. by left. Qed.

Lemma apply_statements_exited expires_at s statements : forall tr,
  runs (apply_statements expires_at s statements) tr (Ok tt) -> exited_zero tr = map (update_argv s) statements.
Proof.
  unfold apply_statements. induction statements as [|st sts IH]; intros tr; cbn [for_each].
  - by intros [-> _]%runs_Ret.
  - intros [(tr1 & tr2 & [] & -> & [H1 _]%invoke_within_exited & H2)|(x & [=] & _)]%runs_bind.
    by rewrite exited_zero_app, H1, (IH _ H2).
Qed.

Lemma with_stream_Ok {A : Type} path (p : docker_prog A) tr a :
  runs (with_stream path p) tr (Ok a) -> exists tr1, runs p tr1 (Ok a) /\ exited_zero tr = exited_zero tr1 /\ tr1 ⊆ tr.
Proof.
  unfold with_stream. intros ([[]|x] & tr' & -> & H)%runs_bind_call; [|by destruct H].
  apply finally_Ok in H as (tr1 & tr2 & -> & H & ->%runs_call). exists tr1. split; [done|].
  rewrite exited_zero_cons_no, exited_zero_app, app_nil_r by done. split; [done|].
  intros ev Hev. right. apply elem_of_app. by left.
Qed.

(** Each command that succeeded on the scratch database [s], in order. *)
Definition masking_commands rules s statements : list (list string) :=
  restore_argv s :: introspect_argv s (INTROSPECTION_SQL (selector_pairs rules)) ::
  map (update_argv s) statements ++ [dump_argv s].

(** The bytes at [path], with that digest, are the dump taken into it after the raw dump was
    restored, every rule was checked against the schema and every statement was applied. *)
Definition masked_bytes rules s raw (tr : list (event docker_op exn)) path digest : Prop :=
  (exists t, Event (Run (restore_argv s) (Some raw) None t) (Ok 0%Z) ∈ tr) /\
  (exists sink rows facts, Event (ReadText sink) (Ok rows) ∈ tr /\ read_rows (splitlines rows) [] = Ok facts /\
     require_maskable rules facts = Ok tt) /\
  (exists t, Event (Run (dump_argv s) None (Some path) t) (Ok 0%Z) ∈ tr) /\
  exists bytes, Event (ReadBytes path) (Ok bytes) ∈ tr /\ artifact_digest "sha256" (sha256 bytes) = Ok digest.

Lemma masked_bytes_mono rules s raw tr tr' path digest :
  tr ⊆ tr' -> masked_bytes rules s raw tr path digest -> masked_bytes rules s raw tr' path digest.
Proof.
  intros Hsub ((t1 & H1) & (sink & rows & facts & H2 & H2') & (t3 & H3) & bytes & H4 & H4').
  split_and!; eauto 10.
Qed.

Lemma introspect_Ok expires_at s rules facts tr :
  runs (introspect_columns expires_at s rules) tr (Ok facts) ->
  exited_zero tr = [introspect_argv s (INTROSPECTION_SQL (selector_pairs rules))] /\
  exists sink rows, Event (ReadText sink) (Ok rows) ∈ tr /\ read_rows (splitlines rows) [] = Ok facts.
Proof.
  unfold introspect_columns. intros ([sink|x] & tr' & -> & H)%runs_bind_call; [|by destruct H].
  rewrite exited_zero_cons_no by done.
  apply runs_bind in H as [(t1 & t2 & rows & -> & (t3 & t4 & -> & H1 & ->%runs_call)%finally_Ok & [-> Hr]%runs_lift)|(x & [=] & _)].
  apply runs_bind in H1 as [(t5 & t6 & [] & -> & [H5 _]%invoke_within_exited & ->%runs_call)|(x & [=] & _)].
  rewrite !exited_zero_app, H5. split; [done|]. exists sink, rows. split; [|done].
  right. rewrite !elem_of_app. left; left; right. by left.
Qed.

Lemma redump_Ok expires_at s path digest tr :
  runs (redump_from_scratch sha256 expires_at s) tr (Ok (path, digest)) ->
  exited_zero tr = [dump_argv s] /\
  (exists t, Event (Run (dump_argv s) None (Some path) t) (Ok 0%Z) ∈ tr) /\
  exists bytes, Event (ReadBytes path) (Ok bytes) ∈ tr /\ artifact_digest "sha256" (sha256 bytes) = Ok digest.
Proof.
  unfold redump_from_scratch. intros ([staged|x] & tr' & -> & H)%runs_bind_call; [|by destruct H].
  rewrite exited_zero_cons_no by done.
  apply runs_bind in H as [(t1 & t2 & bytes & -> & H1 & H)|(x & [=] & _)].
  apply runs_bind in H as [(t3 & t4 & d & -> & [-> Hd]%runs_lift & [-> E]%runs_Ret)|(x & [=] & _)]. injection E as -> ->.
  apply runs_catch in H1 as [(b & E & H1)|(? & ? & x & _ & _ & H1)].
  2:{ by apply runs_bind in H1 as [(? & ? & ? & _ & _ & [_ ?]%runs_Raise)|(? & [=] & _)]. }
  injection E as <-. apply runs_bind in H1 as [(t5 & t6 & [] & -> & H5 & H6)|(x & [=] & _)].
  apply finally_Ok in H5 as (t7 & t8 & -> & [H7 [t Ht]]%invoke_within_exited & ->%runs_call).
  apply with_stream_Ok in H6 as (t9 & ->%runs_call & H9 & Hsub).
  rewrite !exited_zero_app, H7, H9. split_and!; [done| |].
  - exists t. right. rewrite !elem_of_app. tauto.
  - exists bytes. split; [|done]. right. rewrite !elem_of_app. left; right. apply Hsub. by left.
Qed.

Lemma masked_dump_Ok expires_at rules statements raw s path digest tr :
  runs (masked_dump sha256 expires_at rules statements raw s) tr (Ok (path, digest)) ->
  exited_zero tr = masking_commands rules s statements /\ masked_bytes rules s raw tr path digest.
Proof.
  unfold masked_dump, restore_into_scratch.
  intros [(t1 & t2 & [] & -> & H1 & H)|(x & [=] & _)]%runs_bind.
  apply with_stream_Ok in H1 as (t1' & [H1 [t Ht]]%invoke_within_exited & E1 & Hsub). rewrite <- E1 in H1.
  apply runs_bind in H as [(t3 & t4 & facts & -> & (H3 & sink & rows & Hrows & Hfacts)%introspect_Ok & H)|(x & [=] & _)].
  apply runs_bind in H as [(t5 & t6 & [] & -> & [-> Hm]%runs_lift & H)|(x & [=] & _)].
  apply runs_bind in H as [(t7 & t8 & [] & -> & H7%apply_statements_exited & (H8 & Hd & Hb)%redump_Ok)|(x & [=] & _)].
  split.
  - unfold masking_commands. by rewrite !exited_zero_app, H1, H3, H7, H8.
  - unfold masked_bytes. split_and!.
    + exists t. apply elem_of_app. left. by apply Hsub.
    + exists sink, rows, facts. split_and!; [|done|done]. rewrite !elem_of_app. tauto.
    + destruct Hd as [t' Hd]. exists t'. rewrite !elem_of_app. tauto.
    + destruct Hb as (bytes & Hb & Hd'). exists bytes. split; [|done]. rewrite !elem_of_app. tauto.
Qed.

Definition not_stage (R : Type) (e : docker_op R) : Prop := match e with Stage _ _ => False | _ => True end.

Lemma mask_end_stage component r removed b1 digest path rs tb tr2 o :
  mask_end component r removed tr2 o -> tr2 = b1 ++ Event (Stage digest path) rs :: tb -> b1 = [] /\ r = Ok (path, digest).
Proof.
  assert (Hone : forall ev : event docker_op exn, [ev] = b1 ++ Event (Stage digest path) rs :: tb -> b1 = [] /\ ev = Event (Stage digest path) rs).
  { intros ev. destruct b1 as [|e1 [|? ?]]; [by intros [= ->]|done|done]. }
  assert (Htwo : forall ev p u, [ev; Event (UnlinkMissingOk p) u] = b1 ++ Event (Stage digest path) rs :: tb ->
    b1 = [] /\ ev = Event (Stage digest path) rs).
  { intros ev p u. destruct b1 as [|e1 [|e2 [|? ?]]]; [by intros [= ->]|done|done|done]. }
  intros [x e Hr|p d x u e Hr Hx|p d rc s u e Hr Hx|p d rc c' Hr Hx Hc] E.
  - by destruct b1.
  - by apply Hone in E as [_ ?].
  - apply Htwo in E as [-> [= <- <- _]]. done.
  - apply Htwo in E as [-> [= <- <- _]]. done.
Qed.

(** C28. Only fully masked bytes are staged.  Whenever [mask] stages bytes, the commands that
    succeeded before are exactly these, in this order: the container's start and probe, the
    restore of the component's raw dump, the introspection, one [UPDATE] for every rule in
    the policy's order, and the dump into the staged file (then possibly the removal); the
    schema accepted every rule, and the digest is the hash of the bytes read back.  And
    [mask] returns another component only after it staged them, with that digest. *)
Theorem only_masked_bytes_are_staged timeout component rules tr o :
  runs (mask sha256 timeout component rules) tr o ->
  (forall tr1 digest path r tr2, tr = tr1 ++ Event (Stage digest path) r :: tr2 ->
     exists raw c statements removed,
       Event (OpenComponent component) (Ok raw) ∈ tr1 /\ update_statements rules = Ok statements /\
       let s := mkScratchDatabase c DEFAULT_SCRATCH_DATABASE in
       exited_zero tr1 = run_argv c DEFAULT_SCRATCH_DATABASE DEFAULT_SCRATCH_IMAGE :: probe_argv c DEFAULT_SCRATCH_DATABASE ::
         masking_commands rules s statements ++ removed /\ (removed = [] \/ removed = [rm_argv c]) /\
       masked_bytes rules s raw tr1 path digest) /\
  (forall component', o = Ok component' ->
     component' = component /\ (rules = [] \/ rsc_kind component ≠ DATABASE) \/
     exists digest path, Event (Stage digest path) (Ok tt) ∈ tr /\
       restore_set_component (rsc_kind component) (rsc_ref component) (rsc_format_version component) digest = Ok component').
Proof.
  intros H. apply mask_runs in H as [[He Ho]|(statements & raw & started & hex & tr1 & r & removed & tr2 & -> & Hs & Hf)].
  { split; [|intros c' Hc'; left; by destruct (Ho c' Hc') as (_ & -> & ?)].
    intros tr1 digest path r tr2 ->. apply Forall_app in He as [_ He]. by apply Forall_cons in He as [[] _]. }
  destruct Hs as (Hst & Hs & _). set (c := SCRATCH_NAME_PREFIX +:+ hex) in *. split.
  - intros ta digest path rs tb E.
    assert (Hbefore : Forall (event_sat (inside c)) (before_session component raw started hex ++ tr1)).
    { apply Forall_app. split; [repeat constructor|]. eapply only_runs; [|exact Hs].
      apply only_bind; [apply enter_scratch_inside|intros _]. apply (masked_dump_inside _ _ _ _ (mkScratchDatabase c _)). }
    change (removal c removed :: tr2) with ([removal c removed] ++ tr2) in E. rewrite app_assoc, app_assoc in E. symmetry in E.
    apply (segment_skip (event_sat not_stage)) in E as (b1 & -> & E).
    + destruct (mask_end_stage _ _ _ _ _ _ _ _ _ _ Hf E) as (-> & ->). rewrite app_nil_r.
      apply runs_bind in Hs as [(ts & tm & [] & -> & [_ Hrun]%enter_scratch_Ok & [Hm Hbytes]%masked_dump_Ok)|(x & [=] & _)].
      exists raw, c, statements, (exited_zero [removal c removed]). cbv zeta. split_and!; [|done| | |].
      * rewrite !elem_of_app. left; left. by left.
      * rewrite !exited_zero_app, Hrun, Hm. cbn. by rewrite <- app_assoc.
      * cbn. case_bool_decide; auto.
      * eapply masked_bytes_mono; [|exact Hbytes]. intros ev Hev. rewrite !elem_of_app. tauto.
    + apply Forall_app. split; [|repeat constructor]. eapply Forall_impl; [exact Hbefore|].
      intros [R e re] He. by destruct e.
    + by intros [].
  - intros c' ->. inversion Hf as [| | |path digest rc c'' Hr Hrm Hc]; subst. right. exists digest, path. split; [|done].
    rewrite !elem_of_app, elem_of_cons. right; right; right. by left.
Qed.
End Mask.

(** ** A concrete session *)

Definition toy_sha256 (_ : string) : string := "e3b0c44298fc1c149afbf4c8996fb92427ae41e4649b934ca495991b7852b855".
Definition toy_rows : string := "res_users|login|character varying|NO|f" +:+ str [newline].
Definition toy_docker := obliging "none " toy_rows "masked bytes".

Definition toy_component : RestoreSetComponent :=
  mkRestoreSetComponent DATABASE "database-src" "pg_dump-custom-v1" (mkArtifactDigest "sha256" "raw").
Definition toy_rules : list AnonymizationRule := [mkAnonymizationRule "res_users" "login" HASH None].
Definition toy_session := exec toy_docker (mask toy_sha256 3600 toy_component toy_rules) tt.

Lemma raw_dump_is_contained_witness :
  exited_zero toy_session.1.2 ≠ [] /\
  (Forall (event_sat early) toy_session.1.2 \/
   exists c before removed after, toy_session.1.2 = before ++ removal c removed :: after /\
     Forall (event_sat (inside c)) before /\ Forall (event_sat no_child) after /\
     forall ta argv bytes out t r tb, before = ta ++ Event (Run argv (Some bytes) out t) r :: tb -> proven_isolated c ta).
Proof.
  split; [by vm_compute|].
  exact (raw_dump_is_contained toy_sha256 3600 toy_component toy_rules _ _ (exec_runs toy_docker _ tt)).
Defined.

Lemma only_masked_bytes_are_staged_witness :
  exists component' digest path, toy_session.1.1 = Ok component' /\ Event (Stage digest path) (Ok tt) ∈ toy_session.1.2 /\
    restore_set_component DATABASE "database-src" "pg_dump-custom-v1" digest = Ok component'.
Proof.
  destruct (only_masked_bytes_are_staged toy_sha256 3600 toy_component toy_rules _ _ (exec_runs toy_docker _ tt)) as [_ H].
  assert (Hok : is_ok toy_session.1.1 = true) by (vm_compute; reflexivity).
  unfold toy_session in *. destruct (exec toy_docker _ tt).1.1 as [component'|x]; [|discriminate Hok].
  destruct (H component' eq_refl) as [(_ & [Hr|Hk])|(digest & path & H1 & H2)]; [discriminate Hr|by destruct Hk|].
  exists component', digest, path. split_and!; [reflexivity|exact H1|exact H2].
Defined.
