(* ===== verification/MaskSql.v ===== *)
(** * What the masking statements say

    A reference tokenizer of the SQL the statements use (words, quoted identifiers, string
    literals under [standard_conforming_strings], symbols), and the reading of every
    rendered statement in it: no selector and no static value changes its structure. *)

From S2P Require Import Prelude Regex Values Artifacts Docker MaskTransform.

Inductive token : Type := TWord (w : string) | TIdent (name : string) | TString (value : string) | TSym (c : ascii).

(** The scanner's state: outside tokens, in a word, in a quoted text, or after a quote that
    closes it unless it is doubled. *)
Inductive scan : Type :=
| Between | InWord (w : list ascii) | InQuotes (q : ascii) (w : list ascii) | Closing (q : ascii) (w : list ascii).

Definition single_quote : ascii := "'"%char.
Definition double_quote : ascii := ascii_of_nat 34.
Definition is_quote (c : ascii) : bool := Ascii.eqb c single_quote || Ascii.eqb c double_quote.
Definition is_word_char (c : ascii) : bool := is_alnum c || one_of "_" c.

Definition quoted (q : ascii) (w : list ascii) : token :=
  let text := str (reverse w) in if Ascii.eqb q double_quote then TIdent text else TString text.

Definition open_token (c : ascii) : list token * scan :=
  if is_space c then ([], Between)
  else if is_word_char c then ([], InWord [c])
  else if is_quote c then ([], InQuotes c [])
  else ([TSym c], Between).
Definition after_token (t : token) (c : ascii) : list token * scan := let '(ts, s) := open_token c in (t :: ts, s).

Definition scan_char (s : scan) (c : ascii) : list token * scan :=
  match s with
  | Between => open_token c
  | InWord w => if is_word_char c then ([], InWord (c :: w)) else after_token (TWord (str (reverse w))) c
  | InQuotes q w => if Ascii.eqb c q then ([], Closing q w) else ([], InQuotes q (c :: w))
  | Closing q w => if Ascii.eqb c q then ([], InQuotes q (c :: w)) else after_token (quoted q w) c
  end.

(** [None]: a quoted text is left open. *)
Fixpoint tokens_from (s : scan) (l : list ascii) : option (list token) :=
  match l with
  | [] =>
    match s with
    | Between => Some []
    | InWord w => Some [TWord (str (reverse w))]
    | Closing q w => Some [quoted q w]
    | InQuotes _ _ => None
    end
  | c :: l' => let '(ts, s') := scan_char s c in app ts <$> tokens_from s' l'
  end.
Definition tokens (sql : string) : option (list token) := tokens_from Between (chars sql).

(** The tokens of a rule's expression. *)
Definition expression_tokens (r : AnonymizationRule) : list token :=
  match ar_mask_strategy r with
  | HASH => [TWord "md5"; TSym "("%char; TIdent (ar_column r); TSym ":"%char; TSym ":"%char; TWord "text"; TSym ")"%char]
  | NULLIFY => [TWord "NULL"]
  | REDACT => [TString REDACTED_MARKER]
  | STATIC_REPLACE => [TString (default "" (ar_static_value r))]
  end.

(** ** Scanning the rendered texts *)

Lemma tokens_from_step s c l ts s' : scan_char s c = (ts, s') -> tokens_from s (c :: l) = app ts <$> tokens_from s' l.
Proof. intros H. cbn [tokens_from]. by rewrite H. Qed.

Lemma app_nil_fmap (o : option (list token)) : app [] <$> o = o.
Proof. by destruct o. Qed.

(** The characters of a literal's content, each quote doubled. *)
Lemma scan_content v l : forall w,
  tokens_from (InQuotes single_quote w) (concat (map (fun x => if Ascii.eqb x "'" then ["'"%char; "'"%char] else [x]) v) ++ l) =
  tokens_from (InQuotes single_quote (reverse v ++ w)) l.
Proof.
  induction v as [|c v IH]; intros w; [done|]. cbn [map concat]. rewrite reverse_cons, <- !app_assoc. cbn [app].
  destruct (Ascii.eqb_spec c "'"%char) as [->|Hc].
  - cbn [app]. rewrite (tokens_from_step _ _ _ [] (Closing single_quote w)), app_nil_fmap by done.
    rewrite (tokens_from_step _ _ _ [] (InQuotes single_quote ("'"%char :: w))), app_nil_fmap by done. by rewrite IH.
  - cbn [app]. rewrite (tokens_from_step _ _ _ [] (InQuotes single_quote (c :: w))), app_nil_fmap, IH; [done|].
    cbn [scan_char]. destruct (Ascii.eqb_spec c single_quote); done.
Qed.

(** A rendered literal at the end of a text. *)
Lemma scan_literal v : tokens_from Between (chars (quote_literal v)) = Some [TString v].
Proof.
  unfold quote_literal, replace_char. rewrite !chars_app, chars_str. cbn [app].
  change (chars "'") with [single_quote]. cbn [app].
  rewrite (tokens_from_step _ _ _ [] (InQuotes single_quote [])), app_nil_fmap by done.
  rewrite scan_content, app_nil_r.
  rewrite (tokens_from_step _ _ _ [] (Closing single_quote (reverse (chars v)))), app_nil_fmap by done.
  cbn [tokens_from]. unfold quoted. change (Ascii.eqb single_quote double_quote) with false. cbv iota.
  by rewrite reverse_involutive, str_chars.
Qed.

Lemma scan_identifier_content v l : forallb identifier_char v = true -> forall w,
  tokens_from (InQuotes double_quote w) (v ++ l) = tokens_from (InQuotes double_quote (reverse v ++ w)) l.
Proof.
  induction v as [|c v IH]; intros Hv w; [done|]. cbn in Hv. apply andb_true_iff in Hv as [Hc Hv].
  cbn [app]. rewrite reverse_cons, <- app_assoc.
  rewrite (tokens_from_step _ _ _ [] (InQuotes double_quote (c :: w))), app_nil_fmap, IH; [done|done|].
  cbn [scan_char]. destruct (Ascii.eqb_spec c double_quote) as [->|]; done.
Qed.

(** A rendered identifier before a character that is not its quote. *)
Lemma scan_identifier v c l : forallb identifier_char (chars v) = true -> c ≠ double_quote ->
  tokens_from Between (chars (dquote +:+ v +:+ dquote) ++ c :: l) = cons (TIdent v) <$> tokens_from Between (c :: l).
Proof.
  intros Hv Hc. rewrite !chars_app. change (chars dquote) with [double_quote]. rewrite <- !app_assoc. cbn [app].
  rewrite (tokens_from_step _ _ _ [] (InQuotes double_quote [])), app_nil_fmap by done.
  rewrite scan_identifier_content, app_nil_r by done.
  rewrite (tokens_from_step _ _ _ [] (Closing double_quote (reverse (chars v)))), app_nil_fmap by done.
  assert (E : scan_char (Closing double_quote (reverse (chars v))) c = after_token (TIdent v) c).
  { cbn [scan_char]. destruct (Ascii.eqb_spec c double_quote); [done|]. unfold quoted.
    change (Ascii.eqb double_quote double_quote) with true. cbv iota. by rewrite reverse_involutive, str_chars. }
  unfold after_token in E. destruct (open_token c) as [ts s] eqn:Eo.
  rewrite (tokens_from_step _ _ _ _ _ E), (tokens_from_step Between c l ts s) by exact Eo. by destruct (tokens_from s l).
Qed.

Lemma quote_identifier_Ok v : safe_opaque_identifier v = true ->
  quote_identifier v = Ok (dquote +:+ v +:+ dquote) /\ forallb identifier_char (chars v) = true.
Proof.
  intros H%safe_opaque_identifier_chars. unfold quote_identifier, SQL_IDENTIFIER.
  destruct (fullmatch _ v) eqn:E; [by destruct H|]. by apply fullmatch_class_plus in H as E'; rewrite E' in E.
Qed.

Lemma expression_Ok r : forallb identifier_char (chars (ar_column r)) = true ->
  tokens_from Between (chars (mask_expression r (dquote +:+ ar_column r +:+ dquote))) = Some (expression_tokens r).
Proof.
  intros Hc. unfold mask_expression, expression_tokens. destruct (ar_mask_strategy r); [apply scan_literal| |done|apply scan_literal].
  change (chars ("md5(" +:+ ?x +:+ "::text)")) with (chars "md5(" ++ chars (x +:+ "::text)")).
  rewrite !chars_app. change (chars "md5(") with ["m"%char; "d"%char; "5"%char; "("%char]. cbn [app].
  rewrite (tokens_from_step _ _ _ [] (InWord ["m"%char])), app_nil_fmap by done.
  rewrite (tokens_from_step _ _ _ [] (InWord ["d"%char; "m"%char])), app_nil_fmap by done.
  rewrite (tokens_from_step _ _ _ [] (InWord ["5"%char; "d"%char; "m"%char])), app_nil_fmap by done.
  rewrite (tokens_from_step _ _ _ [TWord "md5"; TSym "("%char] Between) by done.
  rewrite <- !chars_app, chars_app. change (chars "::text)") with (":"%char :: chars ":text)").
  by rewrite scan_identifier.
Qed.

Lemma scan_space l : tokens_from Between (" "%char :: l) = tokens_from Between l.
Proof. by rewrite (tokens_from_step _ _ _ [] Between), app_nil_fmap. Qed.

Lemma scan_in_word w l : forallb is_word_char w = true -> forall v,
  tokens_from (InWord v) (w ++ " "%char :: l) = cons (TWord (str (reverse v ++ w))) <$> tokens_from Between l.
Proof.
  induction w as [|c w IH]; intros Hw v; cbn [app].
  - rewrite app_nil_r. rewrite (tokens_from_step _ _ _ [TWord (str (reverse v))] Between) by done. by destruct (tokens_from Between l).
  - cbn in Hw. apply andb_true_iff in Hw as [Hc Hw].
    rewrite (tokens_from_step _ _ _ [] (InWord (c :: v))), app_nil_fmap by (cbn [scan_char]; by rewrite Hc).
    rewrite IH by done. by rewrite reverse_cons, <- app_assoc.
Qed.

Lemma scan_word c w l : forallb is_word_char (c :: w) = true ->
  tokens_from Between (c :: w ++ " "%char :: l) = cons (TWord (str (c :: w))) <$> tokens_from Between l.
Proof.
  intros Hw. cbn in Hw. apply andb_true_iff in Hw as [Hc Hw].
  assert (Hsp : is_space c = false).
  { destruct (is_space c) eqn:Es; [|done]. exfalso. revert Hc Es. destruct c as [[] [] [] [] [] [] [] []]; vm_compute; discriminate. }
  rewrite (tokens_from_step _ _ _ [] (InWord [c])), app_nil_fmap.
  - by rewrite scan_in_word.
  - cbn [scan_char]. unfold open_token. by rewrite Hsp, Hc.
Qed.

(** Statements mean what the rules say.  Every rule that validation accepts renders, and
    under the reference tokenizer its statement is exactly [UPDATE "table" SET "column" =]
    followed by the strategy's expression, whose string literal is the rule's static value
    whatever that text contains; and every text, quoted as a literal, is one literal with
    that value. *)
Theorem statement_tokens table column strategy static r :
  anonymization_rule table column strategy static = Ok r ->
  (exists sql, update_statement r = Ok sql /\
     tokens sql = Some ([TWord "UPDATE"; TIdent table; TWord "SET"; TIdent column; TSym "="%char] ++ expression_tokens r)) /\
  (forall v, tokens (quote_literal v) = Some [TString v]).
Proof.
  intros H. split; [|apply scan_literal]. unfold anonymization_rule in H.
  apply result_bind_Ok in H as (t & [-> Ht]%require_safe_opaque_identifier_Ok & H).
  apply result_bind_Ok in H as (c & [-> Hc]%require_safe_opaque_identifier_Ok & H).
  assert (Hr : ar_table r = table /\ ar_column r = column) by (destruct strategy, static as [[]|]; by simplify_eq/=).
  destruct Hr as [<- <-]. apply quote_identifier_Ok in Ht as [Et Ht]. apply quote_identifier_Ok in Hc as [Ec Hc].
  eexists. split; [unfold update_statement; rewrite Et, Ec; reflexivity|].
  unfold tokens. set (T := dquote +:+ ar_table r +:+ dquote). set (C := dquote +:+ ar_column r +:+ dquote).
  rewrite !chars_app. change (chars "UPDATE ") with ("U"%char :: chars "PDATE" ++ [" "%char]).
  change (chars " SET ") with (" "%char :: ("S"%char :: chars "ET" ++ [" "%char])). change (chars " = ") with [" "%char; "="%char; " "%char].
  cbn [app]. rewrite <- ?app_assoc. cbn [app]. rewrite scan_word by done. unfold T. rewrite scan_identifier by done.
  rewrite scan_space, scan_word by done. unfold C at 1. rewrite scan_identifier by done.
  rewrite scan_space. rewrite (tokens_from_step Between "="%char _ [TSym "="%char] Between) by done.
  rewrite scan_space. unfold C. by rewrite expression_Ok by done.
Qed.

Lemma statement_tokens_witness :
  let r := mkAnonymizationRule "res_users" "login" STATIC_REPLACE (Some "x'; DROP TABLE res_users; --") in
  anonymization_rule "res_users" "login" STATIC_REPLACE (Some "x'; DROP TABLE res_users; --") = Ok r /\
  exists sql, update_statement r = Ok sql /\
    tokens sql = Some [TWord "UPDATE"; TIdent "res_users"; TWord "SET"; TIdent "login"; TSym "="%char;
                       TString "x'; DROP TABLE res_users; --"].
Proof.
  intros r. assert (H : anonymization_rule "res_users" "login" STATIC_REPLACE (Some "x'; DROP TABLE res_users; --") = Ok r)
    by (vm_compute; reflexivity).
  split; [exact H|]. destruct (statement_tokens _ _ _ _ _ H) as [Hs _]. exact Hs.
Defined.

(** A policy cannot select the columns that hold credentials: the selector validator
    refuses their names. *)
Example credential_columns_are_refused :
  anonymization_rule "res_users" "password" NULLIFY None =
    Err (ValueError "anonymization selector must be a safe opaque identifier") /\
  anonymization_rule "auth_api" "access_token" HASH None =
    Err (ValueError "anonymization selector must be a safe opaque identifier").
Proof. split; vm_compute; reflexivity. Qed.
