(* ===== verification/Capture.v ===== *)
(** * Capture and restore of a database dump
    ([odoo_forge_postgres_docker/capture.py], [restore_target.py])

    [pg_dump] of a live container into a staged file that the store takes into custody, and
    [pg_restore] of staged bytes into a provisioned container. *)

From S2P Require Import Prelude Effects Regex Values Custody Artifacts Docker.

(** [^[a-z][a-z0-9-]{0,63}$] *)
Definition IDENTIFIER : regex :=
  rcats [RBol; RSet is_lower; rupto 63 (RSet (fun c => lower_alnum c || one_of "-" c)); REol].

Definition EMPTY_SHA256 : string := "e3b0c44298fc1c149afbf4c8996fb92427ae41e4649b934ca495991b7852b855".
Definition DEFAULT_TIMEOUT : Z := 3600.
Definition CAPTURE_STAGED_FILE_PREFIX : string := "odoo-forge-capture-dump-".
Definition CAPTURE_APPLICATION_NAME_PREFIX : string := "odoo-forge-capture-backend-".
Definition STAGED_FILE_SWEEP_GLOB : string := "odoo-forge-capture-*".
Definition MIN_STAGING_FREE_BYTES : Z := 268435456.
Definition ORPHAN_STAGED_FILE_MAX_AGE_SECONDS : Z := 86400.
Definition REAP_TIMEOUT : Z := 30.

Definition is_lower_hex (c : ascii) : bool := is_digit c || in_range "a"%char "f"%char c.
Definition APPLICATION_NAME : regex :=
  rcats [RBol; rword CAPTURE_APPLICATION_NAME_PREFIX; RCat (RSet is_lower_hex) (rupto 63 (RSet is_lower_hex)); REol].

Record CaptureRunResult : Type := mkCaptureRunResult { returncode : Z; digest_hex : string; staged_path : string }.

(** ** Helpers *)

Definition new_capture_application_name : docker_prog string :=
  let* hex := call Uuid4 in Ret (CAPTURE_APPLICATION_NAME_PREFIX +:+ hex).

Definition terminate_statement (application_name : string) : string :=
  "SELECT pg_terminate_backend(pid) FROM pg_stat_activity WHERE application_name = '" +:+ application_name +:+ "'".
Definition terminate_argv (container application_name : string) : list string :=
  ["docker"; "exec"; container; "psql"; "-U"; "postgres"; "-d"; "postgres"; "-tAc"; terminate_statement application_name].
Definition terminate_in_container_backend (container application_name : string) : docker_prog unit :=
  if negb (fullmatch APPLICATION_NAME application_name)
  then Raise (DatabaseProviderError InvalidCaptureIdentifierError)
  else suppress (call (Query (terminate_argv container application_name) REAP_TIMEOUT) ;* Ret tt).

(** [with suppress(OSError): p] *)
Definition ignore_os_error (p : docker_prog unit) : docker_prog unit :=
  catch p (fun e => if is_os_error e then Ret tt else Raise e).

Definition reap_orphaned_staged_files (max_age_seconds : Z) : docker_prog unit :=
  let* now := call WallTime in
  let cutoff := (now - max_age_seconds)%Z in
  let* candidates := call (TempGlob STAGED_FILE_SWEEP_GLOB) in
  for_each (fun candidate => ignore_os_error (
      let* file := call (IsFile candidate) in
      if negb file then Ret tt else
      let* modified := call (ModifiedAt candidate) in
      if (modified <? cutoff)%Z then call (UnlinkMissingOk candidate) else Ret tt)) candidates.

Definition require_staging_space : docker_prog unit :=
  let* free := catch (let* n := call DiskFree in Ret (Some n)) (fun e => if is_os_error e then Ret None else Raise e) in
  match free with
  | None => Ret tt
  | Some n => if (n <? MIN_STAGING_FREE_BYTES)%Z then Raise (DatabaseProviderError CaptureStagingSpaceError) else Ret tt
  end.

Definition emit_empty_filestore_component : result exn RestoreSetComponent :=
  let! digest := artifact_digest "sha256" EMPTY_SHA256 in
  restore_set_component FILESTORE "filestore-empty-v1" "empty-v1" digest.

Section Capture.
Variable sha256 : string -> string.

(** [_run_subprocess] *)
Definition run_subprocess (argv : list string) (timeout : Z) : docker_prog CaptureRunResult :=
  require_staging_space ;*
  let* staged := call (NamedTemporary CAPTURE_STAGED_FILE_PREFIX) in
  catch (
    let* rc := finally (call (Run argv None (Some staged) timeout)) (call (CloseTemporary staged false)) in
    let* bytes := read_back staged in
    Ret (mkCaptureRunResult rc (sha256 bytes) staged))
    (fun x => call (UnlinkMissingOk staged) ;* Raise x).

(** [DockerPostgresqlCaptureAdapter._run] *)
Definition run_capture (argv : list string) (timeout : Z) (container application_name : string)
    : docker_prog CaptureRunResult :=
  catch (run_subprocess argv timeout)
    (fun e =>
       if is_missing e then Raise (DatabaseProviderError CaptureBinaryUnavailableError)
       else if is_expired e then
         suppress (terminate_in_container_backend container application_name) ;*
         Raise (DatabaseProviderError CaptureTimeoutError)
       else Raise e).

Definition validate_identifier (value : string) (e : database_error) : result exn unit :=
  ensure (fullmatch IDENTIFIER value) (DatabaseProviderError e).

Definition dump_source_argv (container application_name : string) : list string :=
  ["docker"; "exec"; container; "pg_dump"; "-U"; "postgres"; "--format=custom";
   "dbname=" +:+ container +:+ " application_name=" +:+ application_name].

(** [_persist] *)
Definition persist (digest : ArtifactDigest) (staged : string) (m : RestoreSetManifest) : docker_prog unit :=
  let* ref := lift (data_artifact_ref (rsm_restore_set_id m)) in
  catch (call (Put ref m)) (fun _ => Raise (DatabaseProviderError CapturePersistenceError)) ;*
  catch (call (Stage digest staged))
    (fun _ => suppress (call (Discard ref)) ;* Raise (DatabaseProviderError CapturePersistenceError)).

Definition captured_manifest (container : string) (digest : ArtifactDigest) : result exn RestoreSetManifest :=
  let! component := restore_set_component DATABASE ("database-" +:+ container) "pg_dump-custom-v1" digest in
  let! filestore := emit_empty_filestore_component in
  restore_set_manifest ("restore-set-" +:+ container) ("lineage-" +:+ container) [component; filestore].

(** [DockerPostgresqlCaptureAdapter(timeout=).capture] *)
Definition capture (timeout : Z) (source : CaptureSource) : docker_prog RestoreSetManifest :=
  let container := tc_target_id (cs_target source) in
  lift (validate_identifier container InvalidCaptureIdentifierError) ;*
  suppress (reap_orphaned_staged_files (Z.max ORPHAN_STAGED_FILE_MAX_AGE_SECONDS (timeout * 2))) ;*
  let* application_name := new_capture_application_name in
  let* result := run_capture (dump_source_argv container application_name) timeout container application_name in
  finally (
    if negb (returncode result =? 0)%Z then Raise (DatabaseProviderError CaptureCommandFailedError) else
    let* digest := lift (artifact_digest "sha256" (digest_hex result)) in
    let* m := lift (captured_manifest container digest) in
    persist digest (staged_path result) m ;* Ret m)
    (call (UnlinkMissingOk (staged_path result))).
End Capture.

(** ** Restore *)

Definition restore_target_argv (target : string) : list string :=
  ["docker"; "exec"; "-i"; target; "pg_restore"; "-U"; "postgres"; "-d"; target; "--no-owner"; "--clean"; "--if-exists"].

(** [make_docker_restore_target(byte_source=, timeout=)(component, target)] *)
Definition restore_target (timeout : Z) (component : RestoreSetComponent) (target : string) : docker_prog bool :=
  if bool_decide (rsc_kind component = FILESTORE) then Ret true else
  lift (validate_identifier target InvalidRestoreIdentifierError) ;*
  let* staged := call (ByteSource component) in
  catch (call (OpenStream staged))
    (fun e => Raise (if is_os_error e then DatabaseProviderError RestoreArtifactUnreadableError else e)) ;*
  let* rc := finally
      (catch (call (Run (restore_target_argv target) (Some staged) None timeout))
         (fun e => Raise (if is_missing e then DatabaseProviderError RestoreBinaryUnavailableError
                          else if is_expired e then DatabaseProviderError RestoreTimeoutError else e)))
      (call (CloseStream staged)) in
  if (rc =? 0)%Z then Ret true else Raise (DatabaseProviderError RestoreCommandFailedError).

(** * Properties of the capture

    Whatever Docker, the file system and the store answer: a capture that returns holds
    exactly the dumped bytes in custody, and one that fails leaves no staged file and no
    manifest without bytes that it did not try to discard. *)

(** Calls that create no staged file and give nothing to the store. *)
Definition plain (R : Type) (e : docker_op R) : Prop :=
  match e with NamedTemporary _ | Put _ _ | Stage _ _ | Discard _ => False | _ => True end.

Section Capture.
Variable sha256 : string -> string.

Definition dumped argv timeout path bytes : list (event docker_op exn) :=
  [Event (Run argv None (Some path) timeout) (Ok 0%Z); Event (CloseTemporary path false) (Ok tt);
   Event (OpenStream path) (Ok tt); Event (ReadBytes path) (Ok bytes); Event (CloseStream path) (Ok tt)].

(** After the staged file exists: its calls, and what a result means. *)
Lemma staged_body argv timeout path tr o :
  runs (catch (
    let* rc := finally (call (Run argv None (Some path) timeout)) (call (CloseTemporary path false)) in
    let* bytes := read_back path in
    Ret (mkCaptureRunResult rc (sha256 bytes) path))
    (fun x => call (UnlinkMissingOk path) ;* Raise x)) tr o ->
  Forall (event_sat plain) tr /\
  match o with
  | Ok res => staged_path res = path /\ (returncode res = 0%Z -> exists bytes,
      digest_hex res = sha256 bytes /\ tr = dumped argv timeout path bytes)
  | Err _ => exists u, Event (UnlinkMissingOk path) u ∈ tr
  end.
Proof.
  intros H. split.
  { eapply only_runs; [|exact H]. unfold read_back, with_stream, finally. solve_only. }
  apply runs_catch in H as [(res & -> & H)|(t1 & t2 & x & -> & _ & H)].
  - apply runs_bind in H as [(t1 & t2 & rc & -> & (t3 & t4 & -> & ->%runs_call & ->%runs_call)%finally_Ok & H)|(x & [=] & _)].
    apply runs_bind in H as [(t5 & t6 & bytes & -> & H5 & [-> E]%runs_Ret)|(x & [=] & _)]. injection E as ->.
    unfold read_back, with_stream in H5. apply runs_bind_call in H5 as ([[]|x] & t7 & -> & H5); [|by destruct H5].
    apply finally_Ok in H5 as (t8 & t9 & -> & ->%runs_call & ->%runs_call).
    split; [done|]. cbn. intros ->. by exists bytes.
  - apply runs_bind in H as [(t3 & t4 & [] & -> & ->%runs_call & [-> ->]%runs_Raise)|(e & -> & ->%runs_call)].
    + exists (Ok tt). rewrite elem_of_app. right. by left.
    + exists (Err e). rewrite elem_of_app. right. by left.
Qed.

(** Events that create no staged file and give nothing to the store. *)
Definition uneventful (ev : event docker_op exn) : Prop :=
  match ev with
  | Event e r =>
    match e in docker_op R return result exn R -> Prop with
    | NamedTemporary _ => fun r => is_ok r = false
    | Put _ _ | Stage _ _ | Discard _ => fun _ => False
    | _ => fun _ => True
    end r
  end.

Lemma plain_uneventful tr : Forall (event_sat plain) tr -> Forall uneventful tr.
Proof. intros H. eapply Forall_impl; [exact H|]. intros [R e r]. by destruct e. Qed.

Lemma only_plain {A : Type} (p : docker_prog A) tr o : only plain p -> runs p tr o -> Forall uneventful tr.
Proof. intros Hp H. by eapply plain_uneventful, only_runs. Qed.

(** A run of the dump stages at most one file, and a failure removes it. *)
Definition run_spec argv timeout (o : result exn CaptureRunResult) (tr : list (event docker_op exn)) : Prop :=
  is_ok o = false /\ Forall uneventful tr \/
  exists tr1 path tr2, tr = tr1 ++ Event (NamedTemporary CAPTURE_STAGED_FILE_PREFIX) (Ok path) :: tr2 /\
    Forall uneventful tr1 /\ Forall uneventful tr2 /\
    match o with
    | Ok res => staged_path res = path /\ (returncode res = 0%Z -> exists bytes,
        digest_hex res = sha256 bytes /\ tr2 = dumped argv timeout path bytes)
    | Err _ => exists u, Event (UnlinkMissingOk path) u ∈ tr2
    end.

Lemma run_subprocess_spec argv timeout tr o : runs (run_subprocess sha256 argv timeout) tr o -> run_spec argv timeout o tr.
Proof.
  unfold run_subprocess. intros [(t1 & t2 & [] & -> & H1 & H)|(x & -> & H1)]%runs_bind.
  all: apply only_plain in H1 as Hp; [|unfold require_staging_space; solve_only].
  2:{ by left. }
  apply runs_bind_call in H as ([path|x] & t3 & -> & H).
  - apply staged_body in H as [Hb%plain_uneventful Hres]. right. by exists t1, path, t3.
  - destruct H as [-> ->]. left. split; [done|]. apply Forall_app. split; [done|]. by repeat constructor.
Qed.

Lemma run_spec_later argv timeout x y tr tr2 :
  run_spec argv timeout (Err x) tr -> Forall uneventful tr2 -> run_spec argv timeout (Err y) (tr ++ tr2).
Proof.
  intros [[_ H]|(t1 & path & t2 & -> & H1 & H2 & u & Hu)] H'.
  - left. split; [done|]. by apply Forall_app.
  - right. exists t1, path, (t2 ++ tr2). split_and!; [by rewrite <- app_assoc|done|by apply Forall_app|].
    exists u. apply elem_of_app. by left.
Qed.

Lemma run_capture_spec argv timeout container name tr o :
  runs (run_capture sha256 argv timeout container name) tr o -> run_spec argv timeout o tr.
Proof.
  unfold run_capture. intros [(res & -> & H)|(t1 & t2 & x & -> & H1%run_subprocess_spec & H2)]%runs_catch;
    [by apply run_subprocess_spec|].
  assert (is_ok o = false /\ Forall uneventful t2) as [Ho Ht2].
  { destruct (is_missing x); [by apply runs_Raise in H2 as [-> ->]|]. destruct (is_expired x); [|by apply runs_Raise in H2 as [-> ->]].
    apply runs_bind in H2 as [(t3 & t4 & [] & -> & H3 & [-> ->]%runs_Raise)|(e & -> & H3)].
    all: apply only_plain in H3; [|unfold terminate_in_container_backend, suppress; solve_only].
    - split; [done|]. by rewrite app_nil_r.
    - by split. }
  destruct o as [res|y]; [done|]. by eapply run_spec_later.
Qed.

(** ** Persistence *)

Lemma persist_spec digest staged m tr o :
  runs (persist digest staged m) tr o ->
  (o = Ok tt /\ exists ref, data_artifact_ref (rsm_restore_set_id m) = Ok ref /\
     tr = [Event (Put ref m) (Ok tt); Event (Stage digest staged) (Ok tt)]) \/
  is_ok o = false /\ (tr = [] \/ (exists ref x, tr = [Event (Put ref m) (Err x)]) \/
    exists ref x u, tr = [Event (Put ref m) (Ok tt); Event (Stage digest staged) (Err x); Event (Discard ref) u]).
Proof.
  unfold persist. intros [(t1 & t2 & ref & -> & [-> Hr]%runs_lift & H)|(x & -> & [-> _]%runs_lift)]%runs_bind;
    [|right; split; [done|by left]].
  cbn [app]. apply runs_bind in H as [(t3 & t4 & [] & -> & H3 & H)|(x & -> & H3)].
  - apply runs_catch in H3 as [(a & E & ->%runs_call)|(? & ? & ? & _ & _ & [_ ?]%runs_Raise)]; [|done]. destruct a.
    apply runs_catch in H as [(a & -> & ->%runs_call)|(t5 & t6 & x & -> & ->%runs_call & H)].
    + left. destruct a. split; [done|]. by exists ref.
    + right. unfold suppress in H.
      apply runs_bind in H as [(t7 & t8 & [] & -> & H7 & [-> ->]%runs_Raise)|(e & _ & H7)].
      * split; [done|]. right; right. apply runs_bind in H7 as [(t9 & t10 & r & -> & (u & _ & ->%runs_call)%runs_attempt & [-> _]%runs_Ret)|(e & [=] & _)].
        by exists ref, x, u.
      * by apply runs_bind in H7 as [(? & ? & ? & _ & _ & [_ ?]%runs_Ret)|(? & _ & (? & [=] & _)%runs_attempt)].
  - apply runs_catch in H3 as [(a & [=] & _)|(t5 & t6 & y & -> & ->%runs_call & [-> _]%runs_Raise)].
    right. split; [done|]. right; left. by exists ref, y.
Qed.

(** [ev] is followed by an event that satisfies [P]. *)
Definition followed_by (tr : list (event docker_op exn)) ev (P : event docker_op exn -> Prop) : Prop :=
  forall tr1 tr2, tr = tr1 ++ ev :: tr2 -> exists ev', ev' ∈ tr2 /\ P ev'.

Definition staged_file (ev : event docker_op exn) (path : string) : Prop :=
  exists prefix, ev = Event (NamedTemporary prefix) (Ok path).
Definition created (ev : event docker_op exn) : option string :=
  match ev with
  | Event e r =>
    match e in docker_op R return result exn R -> option string with
    | NamedTemporary _ => fun r => match r with Ok path => Some path | Err _ => None end
    | _ => fun _ => None
    end r
  end.
Definition removes (path : string) (ev : event docker_op exn) : Prop := exists u, ev = Event (UnlinkMissingOk path) u.
(** Bytes for the manifest, or its removal. *)
Definition settles (ref : string) (ev : event docker_op exn) : Prop :=
  (exists digest path, ev = Event (Stage digest path) (Ok tt)) \/ exists u, ev = Event (Discard ref) u.

(** The part of a capture that the store sees. *)
Inductive store_part : list (event docker_op exn) -> Prop :=
| no_store : store_part []
| put_failed ref m x : store_part [Event (Put ref m) (Err x)]
| stage_failed ref m digest path x u :
    store_part [Event (Put ref m) (Ok tt); Event (Stage digest path) (Err x); Event (Discard ref) u]
| stored ref m digest path : store_part [Event (Put ref m) (Ok tt); Event (Stage digest path) (Ok tt)].

Lemma capture_runs timeout source tr o :
  runs (capture sha256 timeout source) tr o ->
  let container := tc_target_id (cs_target source) in
  is_ok o = false /\ Forall uneventful tr \/
  exists tr1 path tr2 ptr tr3,
    tr = tr1 ++ Event (NamedTemporary CAPTURE_STAGED_FILE_PREFIX) (Ok path) :: tr2 ++ ptr ++ tr3 /\
    Forall uneventful tr1 /\ Forall uneventful tr2 /\ Forall uneventful tr3 /\
    (exists u, Event (UnlinkMissingOk path) u ∈ tr2 ++ tr3) /\ store_part ptr /\
    forall m, o = Ok m -> exists name bytes digest ref,
      tr2 = dumped (dump_source_argv container name) timeout path bytes /\
      ptr = [Event (Put ref m) (Ok tt); Event (Stage digest path) (Ok tt)] /\
      artifact_digest "sha256" (sha256 bytes) = Ok digest /\ captured_manifest container digest = Ok m /\
      data_artifact_ref (rsm_restore_set_id m) = Ok ref.
Proof.
  unfold capture. set (container := tc_target_id (cs_target source)). cbv zeta.
  intros [(t1 & t2 & [] & -> & [-> _]%runs_lift & H)|(x & -> & [-> _]%runs_lift)]%runs_bind; [|by left]. cbn [app].
  apply runs_bind in H as [(t3 & t4 & [] & -> & H3 & H)|(x & -> & H3)].
  all: apply only_plain in H3; [|unfold suppress, reap_orphaned_staged_files, ignore_os_error; solve_only; apply only_for_each; intros; solve_only].
  2:{ by left. }
  apply runs_bind in H as [(t5 & t6 & name & -> & H5 & H)|(x & -> & H5)].
  all: apply only_plain in H5; [|unfold new_capture_application_name; solve_only].
  2:{ left. split; [done|]. by apply Forall_app. }
  apply runs_bind in H as [(t7 & t8 & result & -> & H7%run_capture_spec & H)|(x & -> & H7%run_capture_spec)].
  - destruct H7 as [[? _]|(t9 & path & t10 & -> & H9 & H10 & Hpath & Hzero)]; [done|]. right.
    apply runs_finally in H as (t11 & t12 & r & rc & -> & H & ->%runs_call & ->). rewrite Hpath.
    assert (Hbody : store_part t11 /\ forall m, r = Ok m -> exists bytes digest ref,
      t10 = dumped (dump_source_argv container name) timeout path bytes /\
      t11 = [Event (Put ref m) (Ok tt); Event (Stage digest path) (Ok tt)] /\
      artifact_digest "sha256" (sha256 bytes) = Ok digest /\ captured_manifest container digest = Ok m /\
      data_artifact_ref (rsm_restore_set_id m) = Ok ref).
    { destruct (Z.eqb_spec (returncode result) 0) as [Hrc|]; cbn [negb] in H.
      2:{ apply runs_Raise in H as [-> ->]. split; [constructor|done]. }
      apply runs_bind in H as [(t13 & t14 & digest & -> & [-> Hd]%runs_lift & H)|(x & -> & [-> _]%runs_lift)]; [|split; [constructor|done]].
      apply runs_bind in H as [(t15 & t16 & m & -> & [-> Hm]%runs_lift & H)|(x & -> & [-> _]%runs_lift)]; [|split; [constructor|done]].
      destruct (Hzero Hrc) as (bytes & Hhex & ->). rewrite Hhex in Hd.
      apply runs_bind in H as [(t17 & t18 & [] & -> & Hp%persist_spec & [-> ->]%runs_Ret)|(x & -> & Hp%persist_spec)].
      - destruct Hp as [(_ & ref & Href & ->)|[? _]]; [|done]. rewrite Hpath. split; [constructor|].
        intros m' [= <-]. exists bytes, digest, ref. by split_and!.
      - split; [|done]. rewrite Hpath in Hp.
        destruct Hp as [[? _]|(_ & [->|[(ref & y & ->)|(ref & y & u & ->)]])]; [done|constructor..]. }
    destruct Hbody as [Hpart Hok].
    exists (t3 ++ t5 ++ t9), path, t10, t11, [Event (UnlinkMissingOk path) rc]. split_and!.
    + rewrite <- ?app_assoc. cbn. by rewrite <- ?app_assoc.
    + rewrite !Forall_app. by split_and!.
    + done.
    + by repeat constructor.
    + exists rc. rewrite elem_of_app. right. by left.
    + done.
    + intros m E. destruct rc; [|done]. destruct (Hok m E) as (bytes & digest & ref & ?). by exists name, bytes, digest, ref.
  - destruct H7 as [[_ H7]|(t9 & path & t10 & -> & H9 & H10 & u & Hu)].
    + left. split; [done|]. rewrite !Forall_app. by split_and!.
    + right. exists (t3 ++ t5 ++ t9), path, t10, [], []. split_and!.
      * by rewrite <- ?app_assoc, !app_nil_r.
      * rewrite !Forall_app. by split_and!.
      * done.
      * constructor.
      * exists u. by rewrite app_nil_r.
      * constructor.
      * done.
Qed.

Lemma store_part_settles ptr tr3 ref m b tb :
  store_part ptr -> Forall uneventful tr3 -> ptr ++ tr3 = b ++ Event (Put ref m) (Ok tt) :: tb ->
  exists ev, ev ∈ tb /\ settles ref ev.
Proof.
  intros Hpart H3 E. assert (Hno : forall l, tr3 = l ++ Event (Put ref m) (Ok tt) :: tb -> False).
  { intros l ->. apply Forall_app in H3 as [_ H3]. by apply Forall_cons in H3 as [? _]. }
  destruct Hpart as [|ref' m' x|ref' m' digest path x u|ref' m' digest path].
  - by apply Hno in E.
  - destruct b as [|e b]; cbn in E; injection E as E1 E; [done|by apply Hno in E].
  - destruct b as [|e1 [|e2 [|e3 b]]]; cbn in E; simplify_eq; [|exfalso; by eapply Hno].
    eexists. split; [right; by left|]. right. by eexists.
  - destruct b as [|e1 [|e2 b]]; cbn in E; simplify_eq; [|exfalso; by eapply Hno].
    eexists. split; [by left|]. left. by do 2 eexists.
Qed.

(** A capture is accounted for.  In every trace, each staged file that was created is
    removed later, and each manifest that the store accepted is followed by the custody of
    its bytes or by the attempt to discard it.  When [capture] returns, one dump of the
    source exited with status 0 into the staged file, its bytes were read back, and then the
    manifest whose database component has the digest of exactly those bytes was put and the
    bytes staged under that digest. *)
Theorem capture_is_accounted_for timeout source tr o :
  runs (capture sha256 timeout source) tr o ->
  (forall ev path, staged_file ev path -> followed_by tr ev (removes path)) /\
  (forall ref m, followed_by tr (Event (Put ref m) (Ok tt)) (settles ref)) /\
  (forall m, o = Ok m ->
     exists tr1 name path bytes digest ref tr2,
       let container := tc_target_id (cs_target source) in
       tr = tr1 ++ dumped (dump_source_argv container name) timeout path bytes ++
              [Event (Put ref m) (Ok tt); Event (Stage digest path) (Ok tt)] ++ tr2 /\
       artifact_digest "sha256" (sha256 bytes) = Ok digest /\ captured_manifest container digest = Ok m /\
       data_artifact_ref (rsm_restore_set_id m) = Ok ref).
Proof.
  intros [[Ho Hu]|(tr1 & path & tr2 & ptr & tr3 & -> & H1 & H2 & H3 & (u & Hu) & Hpart & Hok)]%capture_runs.
  { split_and!; [| |by intros m ->].
    - intros ev path [prefix ->] ta tb ->. apply Forall_app in Hu as [_ Hu]. by apply Forall_cons in Hu as [? _].
    - intros ref m ta tb ->. apply Forall_app in Hu as [_ Hu]. by apply Forall_cons in Hu as [? _]. }
  split_and!.
  - intros ev p Hev ta tb E. symmetry in E. destruct Hev as [prefix ->].
    apply (segment_skip uneventful) in E as (b & -> & E); [|done|done].
    destruct b as [|e b]; cbn in E; pose proof (f_equal tail E) as Et; cbn in Et.
    + apply (f_equal (fun l => head l ≫= created)) in E. cbn in E. injection E as <-. subst tb.
      exists (Event (UnlinkMissingOk path) u). split; [|by exists u].
      rewrite elem_of_app in Hu. rewrite !elem_of_app. tauto.
    + exfalso. assert (Hin : Event (NamedTemporary prefix) (Ok p) ∈ tr2 ++ ptr ++ tr3).
      { rewrite Et. apply elem_of_app. right. by left. }
      rewrite !elem_of_app in Hin. rewrite !Forall_forall in *. destruct Hin as [Hin|[Hin|Hin]]; [by apply H2 in Hin| |by apply H3 in Hin].
      destruct Hpart; rewrite ?elem_of_cons, ?elem_of_nil in Hin; naive_solver.
  - intros ref m ta tb E. symmetry in E.
    apply (segment_skip uneventful) in E as (b & -> & E); [|done|by intros []].
    destruct b as [|e b]; cbn in E; injection E as E1 E; [done|].
    symmetry in E. apply (segment_skip uneventful) in E as (b1 & -> & E); [|done|by intros []].
    by eapply store_part_settles.
  - intros m E. destruct (Hok m E) as (name & bytes & digest & ref & -> & -> & Hd & Hm & Href).
    exists (tr1 ++ [Event (NamedTemporary CAPTURE_STAGED_FILE_PREFIX) (Ok path)]), name, path, bytes, digest, ref, tr3.
    cbv zeta. split_and!; [|done..]. by rewrite <- app_assoc.
Qed.
End Capture.

(** ** A concrete capture *)

Definition toy_sha256 (_ : string) : string := EMPTY_SHA256.
Definition toy_docker := obliging "" "" "".
Definition toy_source : CaptureSource := mkCaptureSource "handle" (mkTargetContext "source" "shop-db").
Definition toy_capture := exec toy_docker (capture toy_sha256 3600 toy_source) tt.

Lemma capture_is_accounted_for_witness :
  exists m digest ref path, toy_capture.1.1 = Ok m /\ artifact_digest "sha256" EMPTY_SHA256 = Ok digest /\
    captured_manifest "shop-db" digest = Ok m /\
    Event (Put ref m) (Ok tt) ∈ toy_capture.1.2 /\ Event (Stage digest path) (Ok tt) ∈ toy_capture.1.2.
Proof.
  destruct (capture_is_accounted_for toy_sha256 3600 toy_source _ _ (exec_runs toy_docker _ tt)) as (_ & _ & H).
  assert (Hok : is_ok toy_capture.1.1 = true) by (vm_compute; reflexivity).
  unfold toy_capture in *. destruct (exec toy_docker _ tt).1.1 as [m|x]; [|discriminate Hok].
  destruct (H m eq_refl) as (tr1 & name & path & bytes & digest & ref & tr2 & E & Hd & Hm & _).
  exists m, digest, ref, path. split_and!; [reflexivity|exact Hd|exact Hm| |]; rewrite E, !elem_of_app.
  - right; right; left; left.
  - right; right; left; right; left.
Defined.

(** A source whose name holds a sensitive word passes the identifier check, is dumped, and
    only then refused by the artifact references, with a [ValueError]. *)
Example sensitive_source_name_fails_late :
  let run := exec toy_docker (capture toy_sha256 3600 (mkCaptureSource "handle" (mkTargetContext "source" "token-db"))) tt in
  fullmatch IDENTIFIER "token-db" = true /\ length (exited_zero run.1.2) = 1 /\
  run.1.1 = Err (ValueError "component reference must be a safe opaque identifier").
Proof. split_and!; vm_compute; reflexivity. Qed.
