(* ===== verification/PostgresProvider.v ===== *)
(** * The PostgreSQL provider ([odoo_forge_postgres_docker/provider.py])

    Provisioning, restoring, reconciling and removing database containers, with the rollback
    of each failure.  The ownership authority, Docker, the clock and the injection of the
    password are ports: their answers are events of the trace. *)

From S2P Require Import Prelude Effects Regex Values Artifacts Json Docker.

Inductive provider_op : Type -> Type :=
(* the injected runner: exit status, stdout and stderr *)
| DockerRun (argv : list string) : provider_op (Z * option string * option string)
| NewToken : provider_op string
| Clock : provider_op Z
| Pause : provider_op unit
(* the ownership authority *)
| Reserve (operation name : string) : provider_op unit
| Bind (operation name docker_id : string) : provider_op unit
| Activate (operation name docker_id : string) : provider_op unit
| Retire (operation name docker_id : string) : provider_op unit
| RetireAbsent (operation name : string) (docker_id : option string) : provider_op unit
| Owns (operation name docker_id : string) : provider_op bool
| HasRecord (operation name : string) : provider_op bool
(* entering [inject(materialize(credentials))]: the host path of the secret; and leaving it *)
| OpenInjection (credentials : string) : provider_op string
| CloseInjection : provider_op unit
(* the artifact capability and the restore target *)
| ValidateForRestore (artifact : string) : provider_op RestoreReadiness
| RestoreInto (component : RestoreSetComponent) (target : string) : provider_op bool.

Definition provider_prog := prog provider_op exn.

Definition NAME : regex :=
  rcats [RBol; RSet is_lower; rupto 63 (RSet (fun c => lower_alnum c || one_of "-" c)); REol].
Definition PROVIDER_LABEL : string := "io.odoo-forge.provider".
Definition OPERATION_LABEL : string := "io.odoo-forge.operation".
Definition RESOURCE_KIND_LABEL : string := "io.odoo-forge.resource-kind".
Definition CREATOR_TOKEN_LABEL : string := "io.odoo-forge.creator-token".
Definition PROVIDER_NAME : string := "postgres-docker".
Definition OPERATION_PREFIX : string := "postgres-docker:".
Definition ALLOWED_ENV_KEYS : list string := ["POSTGRES_DB"; "POSTGRES_USER"].
Definition ALLOWED_LABEL_KEYS : list string := ["com.odoo-forge.role"].

Definition refused : exn := DatabaseProviderError OwnershipRefusedError.
Definition operation_failed : exn := DatabaseProviderError UnspecifiedDatabaseOperationError.

(** [isinstance(e, DatabaseProviderError)] *)
Definition is_provider_error (e : exn) : bool :=
  match e with
  | DatabaseProviderError _ | AuthorityCustodyError | AuthorityStateError
  | StagedArtifactCustodyError | StagedArtifactUnavailableError | StagedArtifactIntegrityError | StagedArtifactStateError => true
  | _ => false
  end.

(** ** Checks *)

Definition validate_name (value : string) : result exn unit := ensure (fullmatch NAME value) operation_failed.

Definition allowed_metadata (allowed : list string) (metadata : list (string * string)) : bool :=
  forallb (fun kv => bool_decide (kv.1 ∈ allowed) && fullmatch NAME kv.2) metadata.
Definition validate_caller_metadata (env labels : list (string * string)) : result exn unit :=
  ensure (allowed_metadata ALLOWED_ENV_KEYS env && allowed_metadata ALLOWED_LABEL_KEYS labels)
    (DatabaseProviderError InvalidDatabaseRequestError).

Definition creator_token (operation : string) : result exn string :=
  if is_prefix (chars OPERATION_PREFIX) (chars operation)
  then Ok (str (drop (String.length OPERATION_PREFIX) (chars operation))) else Err refused.

Definition labels_for (operation resource_kind : string) : result exn (list (string * string)) :=
  validate_name resource_kind ;!
  let! token := creator_token operation in
  Ok [(PROVIDER_LABEL, PROVIDER_NAME); (OPERATION_LABEL, operation); (RESOURCE_KIND_LABEL, resource_kind);
      (CREATOR_TOKEN_LABEL, token)].

Definition assert_live_ownership (receipt : CreationReceipt) (resource_id : string) (live : list (string * string))
    (resource_kind : string) : result exn unit :=
  let! expected := labels_for (op_value (cr_operation receipt)) resource_kind in
  ensure (bool_decide (resource_id ∈ cr_owned_resource_ids receipt) &&
          forallb (fun kv => bool_decide (dget kv.1 live = Some kv.2)) expected) refused.

Definition reject_reserved_label_collisions (labels : list (string * string)) : result exn unit :=
  ensure (negb (existsb (fun kv => is_prefix (chars "io.odoo-forge.") (chars kv.1)) labels)) operation_failed.

(** ** Reading [docker inspect] *)

Definition text_pair (kv : string * json) : option (string * string) :=
  match kv.2 with JStr s => Some (kv.1, s) | _ => None end.
Fixpoint text_labels (d : list (string * json)) : option (list (string * string)) :=
  match d with
  | [] => Some []
  | kv :: d' => match text_pair kv, text_labels d' with Some p, Some ps => Some (p :: ps) | _, _ => None end
  end.

(** Kind, labels and identity of the first inspected entry. *)
Definition inspected (stdout : option string) : result exn (string * list (string * string) * string) :=
  match stdout ≫= loads with
  | Some (JArr (JObj entry :: _)) =>
    let '(kind, labels, the_id) :=
      match dget "Config" entry with
      | Some (JObj config) => ("container", dget "Labels" config, dget "Id" entry)
      | _ => ("volume", dget "Labels" entry, dget "Name" entry)
      end in
    match labels, the_id with
    | Some (JObj d), Some (JStr id) =>
      match text_labels d with
      | Some ls => if bool_decide (id = "") then Err refused else Ok (kind, ls, id)
      | None => Err refused
      end
    | _, _ => Err refused
    end
  | _ => Err refused
  end.

(** [_run]: stdout of a command that exited with status 0. *)
Definition run (argv : list string) : provider_prog (option string) :=
  let* '(returncode, stdout, _) := catch (call (DockerRun argv))
    (fun e => Raise (if bool_decide (e = OSError ENOENT) then DatabaseProviderError DockerCommandFailedError
                     else if bool_decide (e = TimeoutExpired) then DatabaseProviderError DockerCommandTimeoutError else e)) in
  if (returncode =? 0)%Z then Ret stdout else Raise (DatabaseProviderError DockerCommandFailedError).

Definition inspect_argv (resource_id : string) : list string := ["docker"; "inspect"; resource_id].
Definition inspect_owned_resource (resource_id : string) : provider_prog (string * list (string * string) * string) :=
  let* stdout := run (inspect_argv resource_id) in lift (inspected stdout).
Definition inspect_identity (resource_id : string) : provider_prog (list (string * string) * string) :=
  let* '(kind, labels, docker_id) := inspect_owned_resource resource_id in
  if bool_decide (kind = "container") then Ret (labels, docker_id) else Raise refused.

Definition inspect_resource (resource_id : string) : provider_prog (option string) :=
  lift (validate_name resource_id) ;* run (inspect_argv resource_id).

Definition resource_absent (resource_id : string) : provider_prog bool :=
  let* r := attempt (call (DockerRun (inspect_argv resource_id))) in
  match r with
  | Ok (returncode, _, stderr) =>
    Ret (negb (returncode =? 0)%Z && contains (chars "no such object") (chars (lower (default "" stderr))))
  | Err e => if bool_decide (e = OSError ENOENT) || bool_decide (e = TimeoutExpired) then Ret false else Raise e
  end.

(** [_owns]: a failure of the authority proves nothing. *)
Definition owns_live (operation resource_id docker_id : string) : provider_prog bool :=
  catch (call (Owns operation resource_id docker_id)) (fun e => if is_provider_error e then Ret false else Raise e).

Definition creation_receipt (resource_id : string) : provider_prog CreationReceipt :=
  lift (validate_name resource_id) ;*
  let* token := call NewToken in
  Ret (mkCreationReceipt (mkOperationIdentity (OPERATION_PREFIX +:+ token)) [resource_id]).

(** ** Readiness *)

Definition probe_argv (resource_id user : string) (database : option string) : list string :=
  match database with
  | Some db => ["docker"; "exec"; resource_id; "psql"; "-U"; user; "-d"; db; "-tAc"; "SELECT 1"]
  | None => ["docker"; "exec"; resource_id; "pg_isready"; "-U"; user]
  end.
Definition is_command_error (e : exn) : bool :=
  match e with
  | DatabaseProviderError DockerCommandFailedError | DatabaseProviderError DockerCommandTimeoutError => true
  | _ => false
  end.
(** The polling loop; the clock ends it, [fuel] bounds the polls that are modelled. *)
Fixpoint poll (fuel : nat) (deadline : Z) (argv : list string) : provider_prog unit :=
  match fuel with
  | O => Raise (DatabaseProviderError DatabaseReadinessError)
  | S fuel' =>
    let* r := attempt (run argv) in
    match r with
    | Ok _ => Ret tt
    | Err e =>
      if negb (is_command_error e) then Raise e else
      let* now := call Clock in
      if (deadline <=? now)%Z then Raise (DatabaseProviderError DatabaseReadinessError)
      else call Pause ;* poll fuel' deadline argv
    end
  end.
Definition wait_ready (fuel : nat) (readiness_timeout : Z) (resource_id : string) (env : list (string * string)) : provider_prog unit :=
  let user := default "postgres" (dget "POSTGRES_USER" env) in
  let database := dget "POSTGRES_DB" env in
  lift (validate_name user) ;*
  lift (match database with Some db => validate_name db | None => Ok tt end) ;*
  let* now := call Clock in
  poll fuel (now + readiness_timeout) (probe_argv resource_id user database).

(** ** Removal *)

Definition rm_argv (resource_id : string) : list string := ["docker"; "rm"; "-f"; resource_id].
Definition volume_rm_argv (name : string) : list string := ["docker"; "volume"; "rm"; name].
Definition volume_rm_force_argv (name : string) : list string := ["docker"; "volume"; "rm"; "-f"; name].

Definition remove_owned_volume (receipt : CreationReceipt) (resource_id : string) (labels : list (string * string)) : provider_prog unit :=
  lift (assert_live_ownership receipt resource_id labels "volume") ;* run (volume_rm_argv resource_id) ;* Ret tt.

Definition remove_owned_container (receipt : CreationReceipt) (resource_id : string) (labels : list (string * string))
    (docker_id : string) : provider_prog unit :=
  let operation := op_value (cr_operation receipt) in
  let* owned := owns_live operation resource_id docker_id in
  if negb owned then Raise refused else
  lift (assert_live_ownership receipt resource_id labels "container") ;*
  run (rm_argv resource_id) ;*
  catch (call (Retire operation resource_id docker_id))
    (fun e =>
       if negb (is_provider_error e) then Raise e else
       let* absent := resource_absent resource_id in
       if negb absent then Raise e else call (RetireAbsent operation resource_id (Some docker_id))).

Definition remove_owned (receipt : CreationReceipt) (resource_id : string) : provider_prog unit :=
  let operation := op_value (cr_operation receipt) in
  lift (validate_name resource_id) ;*
  if negb (bool_decide (resource_id ∈ cr_owned_resource_ids receipt)) then Raise refused else
  let* r := attempt (inspect_owned_resource resource_id) in
  match r with
  | Ok (kind, labels, docker_id) =>
    if bool_decide (kind = "volume") then remove_owned_volume receipt resource_id labels
    else remove_owned_container receipt resource_id labels docker_id
  | Err e =>
    if negb (bool_decide (e = DatabaseProviderError DockerCommandFailedError)) then Raise e else
    let* absent := resource_absent resource_id in
    if negb absent then Raise e else
    let* tracked := call (HasRecord operation resource_id) in
    if tracked : bool then call (RetireAbsent operation resource_id None) else Ret tt
  end.

(** The removals of a list, and the names that could not be removed. *)
Fixpoint remove_each (receipt : CreationReceipt) (ids : list string) : provider_prog (list string) :=
  match ids with
  | [] => Ret []
  | id :: ids' =>
    let* r := attempt (remove_owned receipt id) in
    match r with
    | Ok _ => remove_each receipt ids'
    | Err e => if is_provider_error e then let* rest := remove_each receipt ids' in Ret (id :: rest) else Raise e
    end
  end.

Definition rollback (receipt : CreationReceipt) (created : list string) : provider_prog (list string) :=
  remove_each receipt (reverse created).
Definition rollback_data_volume (name : string) : provider_prog (list string) :=
  let* r := attempt (run (volume_rm_force_argv name)) in
  match r with
  | Ok _ => Ret []
  | Err e => if is_provider_error e then Ret [name] else Raise e
  end.

Definition rollback_incomplete (receipt : CreationReceipt) (residuals : list string) : exn :=
  DatabaseProviderError (RollbackIncompleteError (op_value (cr_operation receipt)) (cr_owned_resource_ids receipt) residuals []).
(** [_raise_after_rollback], then [raise] of [final] when everything was removed. *)
Definition fail_after_rollback {A : Type} (final : exn) (receipt : CreationReceipt) (created : list string)
    (created_volume : option string) : provider_prog A :=
  let* residuals := rollback receipt created in
  let* volume_residuals := match created_volume with Some v => rollback_data_volume v | None => Ret [] end in
  match residuals ++ volume_residuals with
  | [] => Raise final
  | rs => Raise (rollback_incomplete receipt rs)
  end.
Definition rolled_back (e : exn) : exn := if is_provider_error e then e else operation_failed.

Definition delete (creation : DatabaseCreation) : provider_prog unit :=
  if negb (bool_decide (db_ownership (dc_ref creation) = CREATED)) then Raise refused
  else remove_owned (dc_receipt creation) (db_identifier (dc_ref creation)).

Definition cleanup (receipt : CreationReceipt) : provider_prog CleanupReport :=
  lift (result_iter validate_name (cr_owned_resource_ids receipt)) ;*
  let* residuals := remove_each receipt (cr_owned_resource_ids receipt) in
  lift (cleanup_report residuals).

Definition verify_runtime_ownership (fuel : nat) (readiness_timeout : Z) (creation : DatabaseCreation) : provider_prog unit :=
  let resource_id := db_identifier (dc_ref creation) in
  if negb (bool_decide (db_ownership (dc_ref creation) = CREATED)) then Raise refused else
  let* '(live, docker_id) := inspect_identity resource_id in
  lift (assert_live_ownership (dc_receipt creation) resource_id live "container") ;*
  let* owned := owns_live (op_value (cr_operation (dc_receipt creation))) resource_id docker_id in
  if negb owned then Raise refused else wait_ready fuel readiness_timeout resource_id [].

(** ** Provisioning *)

(** [("--label", "=".join(pair))] for each pair *)
Definition label_args (labels : list (string * string)) : list string :=
  flat_map (fun kv => ["--label"; kv.1 +:+ "=" +:+ kv.2]) labels.

Definition volume_inspect_argv (name : string) : list string := ["docker"; "volume"; "inspect"; name].
Definition ensure_data_volume (name operation : string) : provider_prog ResourceOwnership :=
  let* r := attempt (run (volume_inspect_argv name)) in
  match r with
  | Ok _ => Ret ADOPTED
  | Err e =>
    if negb (bool_decide (e = DatabaseProviderError DockerCommandFailedError)) then Raise e else
    let* labels := lift (labels_for operation "volume") in
    run (["docker"; "volume"; "create"] ++ label_args labels ++ [name]) ;* Ret CREATED
  end.

Definition CONTAINER_SECRET_PATH : string := "/run/secrets/postgres-password".
(** [PostgreSQLSecretInjection.docker_args] *)
Definition docker_args (host_path : string) : list string :=
  ["--mount"; "type=bind,src=" +:+ host_path +:+ ",dst=" +:+ CONTAINER_SECRET_PATH +:+ ",readonly";
   "--env"; "POSTGRES_PASSWORD_FILE=" +:+ CONTAINER_SECRET_PATH].

(** [{**provider_labels, **labels}] *)
Definition merge_labels (provider_labels labels : list (string * string)) : list (string * string) :=
  foldl (fun d kv => dset kv.1 kv.2 d) provider_labels labels.

Definition HEALTH_ARGS : list string :=
  ["--health-cmd"; "pg_isready -U postgres"; "--health-interval"; "1s"; "--health-timeout"; "5s";
   "--health-retries"; "30"; "--health-start-period"; "5s"].
Definition run_argv (spec : DatabaseSpec) (host_path : string) (merged : list (string * string)) : list string :=
  ["docker"; "run"; "--detach"; "--name"; ds_name spec] ++
  match ds_network spec with Some n => ["--network"; n] | None => [] end ++
  match ds_data_volume spec with Some v => ["-v"; v +:+ ":/var/lib/postgresql/data"] | None => [] end ++
  docker_args host_path ++
  flat_map (fun kv => ["-e"; kv.1 +:+ "=" +:+ kv.2]) (ds_env spec) ++
  label_args merged ++ HEALTH_ARGS ++ ["postgres:16"].

(** The proof of a live container is checked and recorded with the authority. *)
Definition claim_container (receipt : CreationReceipt) (name : string) : provider_prog unit :=
  let operation := op_value (cr_operation receipt) in
  let* '(live, docker_id) := inspect_identity name in
  lift (assert_live_ownership receipt name live "container") ;*
  call (Bind operation name docker_id) ;* call (Activate operation name docker_id).

(** The body of the [try], and the names in [created] when it ends. *)
Definition start_container (fuel : nat) (readiness_timeout : Z) (spec : DatabaseSpec) (receipt : CreationReceipt)
    (argv : list string) : provider_prog (result exn unit * list string) :=
  let name := ds_name spec in
  let* reserved := attempt (call (Reserve (op_value (cr_operation receipt)) name)) in
  match reserved with
  | Err e => Ret (Err e, [])
  | Ok _ =>
    let* started := attempt (run argv) in
    match started with
    | Ok _ =>
      let* rest := attempt (claim_container receipt name ;* wait_ready fuel readiness_timeout name (ds_env spec)) in
      Ret (rest, [name])
    | Err e =>
      if bool_decide (e = DatabaseProviderError DockerCommandTimeoutError) then
        let* claimed := attempt (claim_container receipt name) in
        match claimed with Ok _ => Ret (Err e, [name]) | Err e' => Ret (Err e', []) end
      else Ret (Err e, [])
    end
  end.

(** [_provision] *)
Definition provision_with (fuel : nat) (readiness_timeout : Z) (spec : DatabaseSpec) (host_path : string)
    : provider_prog DatabaseCreation :=
  let name := ds_name spec in
  lift (validate_name name) ;*
  lift (match ds_network spec with Some n => validate_name n | None => Ok tt end) ;*
  lift (match ds_data_volume spec with Some v => validate_name v | None => Ok tt end) ;*
  lift (reject_reserved_label_collisions (ds_labels spec)) ;*
  let* receipt := creation_receipt name in
  let operation := op_value (cr_operation receipt) in
  let* volume_ownership := match ds_data_volume spec with Some v => ensure_data_volume v operation | None => Ret CREATED end in
  let created_volume := if bool_decide (volume_ownership = CREATED) then ds_data_volume spec else None in
  let receipt := mkCreationReceipt (cr_operation receipt)
    (cr_owned_resource_ids receipt ++ match created_volume with Some v => [v] | None => [] end) in
  let* provider_labels := lift (labels_for operation "container") in
  let* '(r, created) := start_container fuel readiness_timeout spec receipt
    (run_argv spec host_path (merge_labels provider_labels (ds_labels spec))) in
  match r with
  | Ok _ => Ret (mkDatabaseCreation (mkDatabaseRef name CREATED) receipt volume_ownership)
  | Err e => fail_after_rollback (rolled_back e) receipt created created_volume
  end.

Definition is_rollback_incomplete (e : exn) : bool :=
  match e with DatabaseProviderError (RollbackIncompleteError _ _ _ _) => true | _ => false end.
(** What [_credential_target_file] lets out. *)
Definition credential_failure (e : exn) : exn :=
  if is_provider_error e then e else DatabaseProviderError CredentialUnavailableError.

(** A creation survives a failing removal of the secret; an incomplete rollback is found
    behind whatever that removal raises. *)
Definition provision (fuel : nat) (readiness_timeout : Z) (spec : DatabaseSpec) (credentials : string)
    : provider_prog DatabaseCreation :=
  lift (validate_caller_metadata (ds_env spec) (ds_labels spec)) ;*
  let* opened := attempt (call (OpenInjection credentials)) in
  match opened with
  | Err e => Raise (credential_failure e)
  | Ok host_path =>
    let* r := attempt (provision_with fuel readiness_timeout spec host_path) in
    let* closed := attempt (call CloseInjection) in
    match r with
    | Ok creation => Ret creation
    | Err e =>
      if is_rollback_incomplete e then Raise e
      else Raise (credential_failure (match closed with Ok _ => e | Err e' => e' end))
    end
  end.

(** ** Restoring and reconciling *)

Definition restore_failure (code : option ValidationFailureCode) : exn :=
  DatabaseProviderError
    (match code with
     | Some COHERENCE_FAILED => RestoreArtifactIncoherentError
     | Some INTEGRITY_FAILED => RestoreArtifactIntegrityError
     | _ => RestoreArtifactUnavailableError
     end).
Definition validated_database_restore (artifact : string) : provider_prog RestoreSetComponent :=
  let* readiness := call (ValidateForRestore artifact) in
  if negb (rd_ready readiness) then Raise (restore_failure (rd_failure_code readiness)) else
  match rd_manifest readiness with
  | None => Raise AssertionError
  | Some m =>
    match find_first (fun c => bool_decide (rsc_kind c = DATABASE)) (rsm_components m) with
    | Some c => Ret c
    | None => Raise (PortError "StopIteration")
    end
  end.

Definition restore (fuel : nat) (readiness_timeout : Z) (has_capability : bool) (spec : DatabaseSpec)
    (artifact credentials : string) : provider_prog DatabaseCreation :=
  if negb has_capability then Raise (DatabaseProviderError RestoreArtifactUnavailableError) else
  let* component := validated_database_restore artifact in
  let* creation := provision fuel readiness_timeout spec credentials in
  let name := db_identifier (dc_ref creation) in
  let created_volume := if bool_decide (dc_data_volume_ownership creation = CREATED) then ds_data_volume spec else None in
  let* r := attempt (let* restored := call (RestoreInto component name) in
                     if restored : bool then Ret tt else Raise operation_failed) in
  match r with
  | Ok _ => Ret creation
  | Err e => fail_after_rollback (rolled_back e) (dc_receipt creation) [name] created_volume
  end.

Definition adopt (ref : DatabaseRef) : provider_prog DatabaseRef := Ret ref.

Definition ps_argv (operation : string) : list string :=
  ["docker"; "ps"; "-a"; "--filter"; "label=" +:+ OPERATION_LABEL +:+ "=" +:+ operation; "--format"; "{{.Names}}"].
Definition reconcile (operation : OperationIdentity) : provider_prog DatabaseCreation :=
  let value := op_value operation in
  lift (creator_token value) ;*
  let* stdout := run (ps_argv value) in
  let* listed := lift (match stdout with Some s => Ok s | None => Err (PortError "AttributeError") end) in
  match List.filter (fun s => negb (bool_decide (s = ""))) (splitlines listed) with
  | [] => Raise (DatabaseProviderError ResourceUnavailableError)
  | first :: others =>
    let receipt := mkCreationReceipt operation (first :: others) in
    for_each (fun resource_id =>
        let* '(live, docker_id) := inspect_identity resource_id in
        let* owned := owns_live value resource_id docker_id in
        if negb owned then Raise refused
        else lift (assert_live_ownership receipt resource_id live "container"))
      (first :: others) ;*
    Ret (mkDatabaseCreation (mkDatabaseRef first CREATED) receipt CREATED)
  end.
