(* ===== verification/PostgresFacts.v ===== *)
(** * Properties of the PostgreSQL provider

    Every destructive Docker command of every provider operation is justified by answers
    received before it: the live labels and the authority for what is removed by name, the
    creation of the volume by the same call for a forced removal. *)

From S2P Require Import Prelude Effects Regex Values Artifacts Json Docker PostgresProvider.

Abbreviation provider_history := (list (event provider_op exn)).

(** ** What justifies a removal *)

Definition destructive (argv : list string) : bool :=
  bool_decide (take 2 argv = ["docker"; "rm"]) || bool_decide (take 3 argv = ["docker"; "volume"; "rm"]).
Definition harmless (R : Type) (e : provider_op R) : Prop :=
  match e with DockerRun argv => destructive argv = false | _ => True end.

(** [name] was inspected, carries the labels of [operation], and the authority owns it. *)
Definition proved (past : provider_history) (operation kind name : string) : Prop :=
  exists stdout stderr live docker_id expected,
    Event (DockerRun (inspect_argv name)) (Ok (0%Z, stdout, stderr)) ∈ past /\
    inspected stdout = Ok (kind, live, docker_id) /\
    labels_for operation kind = Ok expected /\ Forall (fun kv => dget kv.1 live = Some kv.2) expected /\
    (kind = "container" -> Event (Owns operation name docker_id) (Ok true) ∈ past).

(** What makes [_run] raise [DOCKER_COMMAND_FAILED]. *)
Definition command_failed (r : result exn (Z * option string * option string)) : Prop :=
  match r with
  | Ok (returncode, _, _) => returncode <> 0%Z
  | Err e => e = OSError ENOENT \/ e = DatabaseProviderError DockerCommandFailedError
  end.

(** The inspection of the volume failed, and it was created right after that, under the
    labels of [operation]. *)
Definition create_argv (labels : list (string * string)) (name : string) : list string :=
  ["docker"; "volume"; "create"] ++ label_args labels ++ [name].
Definition created_here (past : provider_history) (operation name : string) : Prop :=
  exists labels stdout stderr r before after,
    labels_for operation "volume" = Ok labels /\ command_failed r /\
    past = before ++ [Event (DockerRun (volume_inspect_argv name)) r;
                      Event (DockerRun (create_argv labels name)) (Ok (0%Z, stdout, stderr))] ++ after.

Definition justified (past : provider_history) (operation : string) (argv : list string) : Prop :=
  exists name,
    (argv = rm_argv name /\ proved past operation "container" name) \/
    (argv = volume_rm_argv name /\ proved past operation "volume" name) \/
    (argv = volume_rm_force_argv name /\ created_here past operation name).

Lemma created_grows past new op name : created_here past op name -> created_here (past ++ new) op name.
Proof.
  intros (labels & stdout & stderr & r & before & after & Hl & Hr & ->).
  exists labels, stdout, stderr, r, before, (after ++ new). by rewrite <- !app_assoc.
Qed.

(** ** The operations of the provider *)

Inductive request : Type :=
| Provision (spec : DatabaseSpec) (credentials : string)
| RestoreArtifact (has_capability : bool) (spec : DatabaseSpec) (artifact credentials : string)
| VerifyRuntime (creation : DatabaseCreation)
| ReconcileOperation (operation : OperationIdentity)
| DeleteDatabase (creation : DatabaseCreation)
| CleanupReceipt (receipt : CreationReceipt).

Definition no_result {A : Type} (p : provider_prog A) : provider_prog unit := p ;* Ret tt.
Definition perform (fuel : nat) (readiness_timeout : Z) (q : request) : provider_prog unit :=
  match q with
  | Provision spec credentials => no_result (provision fuel readiness_timeout spec credentials)
  | RestoreArtifact has_capability spec artifact credentials =>
    no_result (restore fuel readiness_timeout has_capability spec artifact credentials)
  | VerifyRuntime creation => verify_runtime_ownership fuel readiness_timeout creation
  | ReconcileOperation operation => no_result (reconcile operation)
  | DeleteDatabase creation => delete creation
  | CleanupReceipt receipt => no_result (cleanup receipt)
  end.

(** The operation a request acts for: the one of its receipt, or one with a fresh token. *)
Definition fresh_operation (past : provider_history) (operation : string) : Prop :=
  exists token, Event NewToken (Ok token) ∈ past /\ operation = OPERATION_PREFIX +:+ token.
Definition acts_for (q : request) (past : provider_history) (operation : string) : Prop :=
  match q with
  | Provision _ _ | RestoreArtifact _ _ _ _ => fresh_operation past operation
  | DeleteDatabase creation => operation = op_value (cr_operation (dc_receipt creation))
  | CleanupReceipt receipt => operation = op_value (cr_operation receipt)
  | VerifyRuntime _ | ReconcileOperation _ => False
  end.

(** ** Harmless parts *)

Lemma run_Ok argv tr s : runs (run argv) tr (Ok s) -> exists stderr, tr = [Event (DockerRun argv) (Ok (0%Z, s, stderr))].
Proof.
  unfold run. intros H. apply runs_bind in H as [(tr1 & tr2 & [[rc out] err] & -> & H1 & H2)|(? & [=] & _)].
  destruct (Z.eqb_spec rc 0) as [Hrc|Hrc]; [|by apply runs_Raise in H2 as [_ [=]]]. subst rc.
  apply runs_Ret in H2 as [-> [= ->]]. rewrite app_nil_r.
  apply runs_catch in H1 as [(a & [= <-] & H1)|(? & ? & ? & _ & _ & H2)]; [|by apply runs_Raise in H2 as [_ [=]]].
  apply runs_call in H1 as ->. eauto.
Qed.

Lemma run_command_failed argv tr :
  runs (run argv) tr (Err (DatabaseProviderError DockerCommandFailedError)) ->
  exists r, tr = [Event (DockerRun argv) r] /\ command_failed r.
Proof.
  unfold run. intros H. apply runs_bind in H as [(tr1 & tr2 & [[rc out] err] & -> & H1 & H2)|(x & [= <-] & H)].
  - apply runs_catch in H1 as [(a & [= <-] & H1)|(? & ? & ? & _ & _ & H3)]; [|by apply runs_Raise in H3 as [_ [=]]].
    apply runs_call in H1 as ->. exists (Ok (rc, out, err)).
    destruct (Z.eqb_spec rc 0); [by apply runs_Ret in H2 as [_ [=]]|]. by apply runs_Raise in H2 as [-> _].
  - apply runs_catch in H as [(? & [=] & _)|(tr1 & tr2 & y & -> & H1 & H2)]. apply runs_call in H1 as ->.
    apply runs_Raise in H2 as [-> [= Hy]]. exists (Err y). split; [done|]. cbn.
    destruct (bool_decide_reflect (y = OSError ENOENT)); [by left|]. by case_bool_decide; [|right].
Qed.

Lemma only_run argv : destructive argv = false -> only harmless (run argv).
Proof. intros H. unfold run. solve_only. Qed.
#[export] Hint Extern 1 (only harmless (run _)) => (apply only_run; reflexivity) : only.

Lemma only_inspect_owned_resource id : only harmless (inspect_owned_resource id).
Proof. unfold inspect_owned_resource. solve_only. Qed.
#[export] Hint Resolve only_inspect_owned_resource : only.

Lemma only_inspect_identity id : only harmless (inspect_identity id).
Proof. unfold inspect_identity. solve_only. Qed.
#[export] Hint Resolve only_inspect_identity : only.

Lemma only_resource_absent id : only harmless (resource_absent id).
Proof. unfold resource_absent. solve_only. Qed.
#[export] Hint Resolve only_resource_absent : only.

Lemma only_owns_live op id docker_id : only harmless (owns_live op id docker_id).
Proof. unfold owns_live. solve_only. Qed.
#[export] Hint Resolve only_owns_live : only.

Lemma only_poll fuel deadline argv : destructive argv = false -> only harmless (poll fuel deadline argv).
Proof. intros H. induction fuel as [|fuel IH]; [done|]. cbn. solve_only. by apply only_run. Qed.

Lemma only_wait_ready fuel t id env : only harmless (wait_ready fuel t id env).
Proof. unfold wait_ready. solve_only. apply only_poll. unfold probe_argv. by case_match. Qed.
#[export] Hint Resolve only_wait_ready : only.

Lemma only_claim_container receipt name : only harmless (claim_container receipt name).
Proof. unfold claim_container. solve_only. Qed.
#[export] Hint Resolve only_claim_container : only.

Lemma only_start_container fuel t spec receipt argv :
  destructive argv = false -> only harmless (start_container fuel t spec receipt argv).
Proof. intros H. unfold start_container. solve_only. by apply only_run. Qed.

Lemma only_ensure_data_volume name op : only harmless (ensure_data_volume name op).
Proof. unfold ensure_data_volume. solve_only. Qed.
#[export] Hint Resolve only_ensure_data_volume : only.

Lemma only_creation_receipt id : only harmless (creation_receipt id).
Proof. unfold creation_receipt. solve_only. Qed.
#[export] Hint Resolve only_creation_receipt : only.

(** ** Removals *)

Section Removal.
(** Whom a removal may act for; what was established stays so. *)
Variable acts : provider_history -> string -> Prop.
Hypothesis acts_grows : forall past new op, acts past op -> acts (past ++ new) op.

Definition allowed (past : provider_history) (R : Type) (e : provider_op R) : Prop :=
  match e with
  | DockerRun argv => destructive argv = true -> exists op, acts past op /\ justified past op argv
  | _ => True
  end.
Abbreviation guarded := (guarded allowed).

Lemma harmless_allowed h R e : harmless R e -> allowed h R e.
Proof. destruct e; try done. cbn. by intros ->. Qed.

(** Harmless programs, with what their result tells. *)
Lemma guarded_harmless {A : Type} past (p : provider_prog A) (Q : provider_history -> result exn A -> Prop) :
  only harmless p -> (forall new r, runs p new r -> Q (past ++ new) r) -> guarded past p Q.
Proof. apply guarded_only. intros h R e. apply harmless_allowed. Qed.

(** A justified removal, carried out by [run]. *)
Lemma guarded_run past argv op Q :
  acts past op -> justified past op argv -> (forall new r, Q (past ++ new) r) -> guarded past (run argv) Q.
Proof.
  intros Ha Hj HQ. unfold run. apply guarded_bind, guarded_catch, guarded_call; [cbn; eauto|]. intros [[[rc out] err]|x].
  - case_match; apply HQ.
  - apply HQ.
Qed.

Lemma inspected_evidence id tr kind live docker_id :
  runs (inspect_owned_resource id) tr (Ok (kind, live, docker_id)) ->
  exists stdout stderr, Event (DockerRun (inspect_argv id)) (Ok (0%Z, stdout, stderr)) ∈ tr /\
    inspected stdout = Ok (kind, live, docker_id).
Proof.
  unfold inspect_owned_resource. intros H. apply runs_bind in H as [(tr1 & tr2 & s & -> & H1 & H2)|(? & [=] & _)].
  apply run_Ok in H1 as [stderr ->]. apply runs_lift in H2 as [-> H2]. exists s, stderr. split; [|done]. by left.
Qed.

Lemma inspected_kind stdout kind live docker_id :
  inspected stdout = Ok (kind, live, docker_id) -> kind = "container" \/ kind = "volume".
Proof.
  unfold inspected. intros H. destruct (stdout ≫= loads) as [[| | | | |[|[] ?]|]|]; try done.
  destruct (dget "Config" d) as [[]|]; repeat case_match; simplify_eq; auto.
Qed.

Lemma assert_live_ownership_Ok receipt id live kind :
  assert_live_ownership receipt id live kind = Ok tt ->
  exists expected, labels_for (op_value (cr_operation receipt)) kind = Ok expected /\
    Forall (fun kv => dget kv.1 live = Some kv.2) expected.
Proof.
  unfold assert_live_ownership. destruct (labels_for _ _) as [expected|]; [|done]. cbn. intros H%ensure_Ok.
  apply andb_true_iff in H as [_ H]. exists expected. split; [done|]. apply Forall_forall. intros kv Hkv.
  rewrite forallb_elem in H. by apply H, bool_decide_eq_true in Hkv.
Qed.

Lemma owns_live_true op id docker_id tr :
  runs (owns_live op id docker_id) tr (Ok true) -> tr = [Event (Owns op id docker_id) (Ok true)].
Proof.
  unfold owns_live. intros H. apply runs_catch in H as [(a & [= <-] & H)|(? & ? & x & _ & _ & H)].
  - by apply runs_call in H.
  - destruct (is_provider_error x); [apply runs_Ret in H as [_ [=]]|apply runs_Raise in H as [_ [=]]].
Qed.

Section Receipt.
Variables (receipt : CreationReceipt) (past : provider_history).
Abbreviation operation := (op_value (cr_operation receipt)).
Hypothesis Hacts : acts past operation.

Lemma guarded_remove_owned_volume new id live stdout stderr docker_id :
  Event (DockerRun (inspect_argv id)) (Ok (0%Z, stdout, stderr)) ∈ past ++ new ->
  inspected stdout = Ok ("volume", live, docker_id) ->
  guarded (past ++ new) (remove_owned_volume receipt id live) (fun _ _ => True).
Proof using acts_grows Hacts.
  intros Hev Hi. unfold remove_owned_volume. apply guarded_bind, guarded_lift.
  destruct (assert_live_ownership receipt id live "volume") as [[]|] eqn:Ha; [|done].
  apply assert_live_ownership_Ok in Ha as (expected & He & Hf).
  apply guarded_bind. apply (guarded_run _ _ operation); [auto| |by intros ? []].
  exists id. right; left. split; [done|]. exists stdout, stderr, live, docker_id, expected. done.
Qed.

Lemma guarded_remove_owned_container new id live stdout stderr docker_id :
  Event (DockerRun (inspect_argv id)) (Ok (0%Z, stdout, stderr)) ∈ past ++ new ->
  inspected stdout = Ok ("container", live, docker_id) ->
  guarded (past ++ new) (remove_owned_container receipt id live docker_id) (fun _ _ => True).
Proof using acts_grows Hacts.
  intros Hev Hi. unfold remove_owned_container. cbv zeta. apply guarded_bind, guarded_harmless; [apply only_owns_live|].
  intros new' [[]|] Ho; cbn; [|done..]. apply owns_live_true in Ho as ->. apply guarded_bind, guarded_lift.
  destruct (assert_live_ownership receipt id live "container") as [[]|] eqn:Ha; [|done].
  apply assert_live_ownership_Ok in Ha as (expected & He & Hf).
  apply guarded_bind. apply (guarded_run _ _ operation); [auto| |].
  - exists id. left. split; [done|]. exists stdout, stderr, live, docker_id, expected. split_and!; [|done..|].
    + rewrite elem_of_app. by left.
    + intros _. rewrite elem_of_app. right. by left.
  - intros new' [|]; [|done]. apply guarded_harmless; [solve_only|done].
Qed.

Lemma guarded_remove_owned new id : guarded (past ++ new) (remove_owned receipt id) (fun _ _ => True).
Proof using acts_grows Hacts.
  unfold remove_owned. cbv zeta. apply guarded_bind, guarded_lift. destruct (validate_name id) as [[]|]; [|done].
  case_match; [done|]. apply guarded_bind, guarded_attempt, guarded_harmless; [apply only_inspect_owned_resource|].
  intros new' [[[kind live] docker_id]|e] Hread; cbn.
  - apply inspected_evidence in Hread as (stdout & stderr & Hev & Hi).
    assert (Hin : Event (DockerRun (inspect_argv id)) (Ok (0%Z, stdout, stderr)) ∈ past ++ new ++ new').
    { rewrite !elem_of_app. by right; right. }
    rewrite <- app_assoc. destruct (inspected_kind _ _ _ _ Hi) as [-> | ->].
    + by eapply guarded_remove_owned_container.
    + by eapply guarded_remove_owned_volume.
  - case_match; [done|]. apply guarded_harmless; [solve_only|done].
Qed.

Lemma guarded_remove_each ids new : guarded (past ++ new) (remove_each receipt ids) (fun _ _ => True).
Proof using acts_grows Hacts.
  revert new. induction ids as [|id ids IH]; intros new; [done|]. cbn [remove_each].
  apply guarded_bind, guarded_attempt. eapply guarded_mono; [|apply guarded_remove_owned].
  intros new' [[]|e] _; rewrite <- app_assoc; [apply IH|]. case_match; [|done].
  apply guarded_bind. eapply guarded_mono; [|apply IH]. by intros ? [].
Qed.

(** Rolling back removes proved resources, and a volume only where this call created it. *)
Lemma guarded_fail_after_rollback {A : Type} new final created created_volume :
  (forall v, created_volume = Some v -> created_here (past ++ new) operation v) ->
  guarded (past ++ new) (fail_after_rollback final receipt created created_volume : provider_prog A) (fun _ r => forall a, r <> Ok a).
Proof using acts_grows Hacts.
  intros Hv. unfold fail_after_rollback. apply guarded_bind. eapply guarded_mono; [|apply guarded_remove_each].
  intros new' [residuals|e] _; [|done]. apply guarded_bind.
  assert (Hend : forall h (r : result exn (list string)), match r with
    | Ok a => guarded h (match residuals ++ a with [] => Raise final | rs => Raise (rollback_incomplete receipt rs) end : provider_prog A) (fun _ r => forall a, r <> Ok a)
    | Err x => forall a, (Err x : result exn A) <> Ok a end).
  { intros h [vs|]; [|done]. by case_match. }
  destruct created_volume as [v|]; [|apply (Hend _ (Ok []))]. specialize (Hv v eq_refl).
  unfold rollback_data_volume. apply guarded_bind, guarded_attempt. apply (guarded_run _ _ operation).
  - rewrite <- app_assoc. by apply acts_grows.
  - exists v. right; right. split; [done|]. by apply created_grows.
  - intros new'' [s|e]; [apply (Hend _ (Ok []))|]. case_match; [apply (Hend _ (Ok [v]))|done].
Qed.
End Receipt.
End Removal.

(** ** Provisioning *)

Lemma fresh_grows past new op : fresh_operation past op -> fresh_operation (past ++ new) op.
Proof. intros (token & Hin & ->). exists token. split; [|done]. rewrite elem_of_app. by left. Qed.

Lemma acts_for_grows q past new op : acts_for q past op -> acts_for q (past ++ new) op.
Proof. destruct q; try done; apply fresh_grows. Qed.

Lemma creation_receipt_fresh past id new receipt :
  runs (creation_receipt id) new (Ok receipt) -> fresh_operation (past ++ new) (op_value (cr_operation receipt)).
Proof.
  unfold creation_receipt. intros H. apply runs_bind in H as [(tr1 & tr2 & [] & -> & H1 & H2)|(? & [=] & _)].
  apply runs_bind in H2 as [(tr3 & tr4 & token & -> & H3 & H4)|(? & [=] & _)].
  apply runs_call in H3 as ->. apply runs_Ret in H4 as [-> [= ->]].
  exists token. split; [|done]. rewrite !elem_of_app. right; right. left. by left.
Qed.

Lemma ensure_data_volume_created past name op new :
  runs (ensure_data_volume name op) new (Ok CREATED) -> created_here (past ++ new) op name.
Proof.
  unfold ensure_data_volume. intros H. apply runs_bind in H as [(tr1 & tr2 & r & -> & H1 & H2)|(? & [=] & _)].
  destruct r as [s|e]; [by apply runs_Ret in H2 as [_ [=]]|].
  destruct (bool_decide_reflect (e = DatabaseProviderError DockerCommandFailedError)) as [->|];
    [cbn [negb] in H2|by apply runs_Raise in H2 as [_ [=]]].
  apply runs_attempt in H1 as (o & [= <-] & H1). apply run_command_failed in H1 as (r & -> & Hr).
  apply runs_bind in H2 as [(tr3 & tr4 & labels & -> & H3 & H4)|(? & [=] & _)]. apply runs_lift in H3 as [-> H3].
  apply runs_bind in H4 as [(tr5 & tr6 & s & -> & H5 & H6)|(? & [=] & _)]. apply run_Ok in H5 as [stderr ->].
  apply runs_Ret in H6 as [-> _]. exists labels, s, stderr, r, past, []. by rewrite app_nil_r.
Qed.

(** What a successful provisioning leaves for the restore that follows it. *)
Definition made (past : provider_history) (spec : DatabaseSpec) (c : DatabaseCreation) : Prop :=
  fresh_operation past (op_value (cr_operation (dc_receipt c))) /\
  (dc_data_volume_ownership c = CREATED -> forall v, ds_data_volume spec = Some v ->
   created_here past (op_value (cr_operation (dc_receipt c))) v).

Abbreviation guarded_fresh := (guarded (allowed fresh_operation)).

Lemma guarded_lift_then {A B : Type} past (r : result exn A) (k : A -> provider_prog B) Q :
  (forall a, r = Ok a -> guarded_fresh past (k a) Q) -> (forall e, Q past (Err e)) -> guarded_fresh past (bind (lift r) k) Q.
Proof. intros Hk HQ. apply guarded_bind, guarded_lift. destruct r; auto. Qed.

Lemma guarded_provision_with fuel t spec host_path past :
  guarded_fresh past (provision_with fuel t spec host_path) (fun past' r => forall c, r = Ok c -> made past' spec c).
Proof.
  unfold provision_with. cbv zeta. do 4 (apply guarded_lift_then; [intros [] _|done]).
  apply guarded_bind, guarded_harmless; [apply only_creation_receipt|]. intros new1 [receipt|e] Hr; [|done].
  apply (creation_receipt_fresh past) in Hr. set (op := op_value (cr_operation receipt)) in *.
  apply guarded_bind, guarded_harmless; [by case_match; [apply only_ensure_data_volume|]|].
  intros new2 [own|e] Hown; [|done].
  assert (Hv : forall v, (if bool_decide (own = CREATED) then ds_data_volume spec else None) = Some v ->
    created_here ((past ++ new1) ++ new2) op v).
  { intros v. destruct (bool_decide_reflect (own = CREATED)) as [Heq|]; [|done]. intros Hs.
    rewrite Hs, Heq in Hown. by apply ensure_data_volume_created. }
  apply guarded_lift_then; [intros provider_labels _|done].
  apply guarded_bind, guarded_harmless; [by apply only_start_container|].
  intros new3 [[[[]|e] created]|e] _; [|clear Hown|done].
  - intros c [= <-]. split; cbn; [by do 2 apply fresh_grows|]. intros -> v Hs. apply created_grows, Hv.
    by rewrite bool_decide_true.
  - rewrite <- (app_assoc _ new2). eapply guarded_mono;
      [|apply (guarded_fail_after_rollback fresh_operation fresh_grows); [exact Hr|]].
    + intros new r H c Hc. by destruct (H c).
    + intros v Hs. rewrite app_assoc. by apply created_grows, Hv.
Qed.

Lemma guarded_provision fuel t spec credentials past :
  guarded_fresh past (provision fuel t spec credentials) (fun past' r => forall c, r = Ok c -> made past' spec c).
Proof.
  unfold provision. apply guarded_lift_then; [intros [] _|done].
  apply guarded_bind, guarded_attempt, guarded_call; [done|]. intros [host_path|e]; [|done].
  apply guarded_bind, guarded_attempt. eapply guarded_mono; [|apply guarded_provision_with]. intros new r Hr.
  apply guarded_bind, guarded_attempt, guarded_call; [done|]. intros closed. destruct r as [c|e].
  - intros c' [= <-]. destruct (Hr c eq_refl) as [Hf Hc]. split; [by apply fresh_grows|].
    intros H v Hv. by apply created_grows, Hc.
  - by case_match.
Qed.

Lemma guarded_restore fuel t has_capability spec artifact credentials past :
  guarded_fresh past (restore fuel t has_capability spec artifact credentials) (fun _ _ => True).
Proof.
  unfold restore. case_match; [done|]. apply guarded_bind, guarded_harmless; [unfold validated_database_restore; solve_only|].
  intros new [component|e] _; [|done]. apply guarded_bind. eapply guarded_mono; [|apply guarded_provision].
  intros new2 [c|e] Hc; [|done]. destruct (Hc c eq_refl) as [Hf Hv]. cbv zeta.
  apply guarded_bind, guarded_harmless; [solve_only|]. intros new3 [[[]|e]|e] _; [done| |done].
  eapply guarded_mono; [|apply (guarded_fail_after_rollback fresh_operation fresh_grows _ _ Hf)]; [done|].
  intros v Hs. apply created_grows. destruct (bool_decide_reflect (dc_data_volume_ownership c = CREATED)) as [Heq|]; [|done].
  by apply Hv.
Qed.

(** ** The safety theorem *)

Lemma guarded_no_result {A : Type} acts past (p : provider_prog A) Q :
  guarded (allowed acts) past p Q -> guarded (allowed acts) past (no_result p) (fun _ _ => True).
Proof. intros H. apply guarded_bind. eapply guarded_mono; [|exact H]. by intros new [a|e] _. Qed.

Lemma guarded_perform fuel t q : guarded (allowed (acts_for q)) [] (perform fuel t q) (fun _ _ => True).
Proof.
  destruct q; cbn [perform].
  - eapply guarded_no_result, guarded_provision.
  - eapply guarded_no_result, guarded_restore.
  - apply guarded_harmless; [unfold verify_runtime_ownership; solve_only|done].
  - eapply (guarded_no_result _ _ _ (fun _ _ => True)), guarded_harmless; [|done]. unfold reconcile. cbv zeta. solve_only.
    apply only_for_each. intros; solve_only.
  - unfold delete. case_match; [done|]. exact (guarded_remove_owned _ (acts_for_grows (DeleteDatabase creation)) (dc_receipt creation) [] eq_refl [] _).
  - eapply (guarded_no_result _ _ _ (fun _ _ => True)). unfold cleanup. apply guarded_bind, guarded_lift.
    destruct (result_iter _ _); [|done].
    apply guarded_bind. eapply guarded_mono; [|exact (guarded_remove_each _ (acts_for_grows (CleanupReceipt receipt)) receipt [] eq_refl _ [])].
    intros new [rs|e] _; [|done]. by apply guarded_lift.
Qed.

(** C1. Only owned resources are removed: whatever Docker and the authority answer, a
    [docker rm -f] or [docker volume rm] issued by any operation of the provider names a
    resource that was inspected before, whose live labels carry the provider, the operation
    the request acts for and the kind of the resource, and, for a container, that the
    authority confirmed under its immutable identifier.  A forced volume removal names a
    volume for which this very call, right after [docker volume inspect] of it had failed,
    ran [docker volume create] with the labels of its own fresh operation, with success.
    The code takes any failing inspection for the absence of the volume: for an inspection
    that failed for another reason the removed volume may have existed before. *)
Theorem only_owned_resources_are_removed fuel t q tr1 argv r tr2 o :
  runs (perform fuel t q) (tr1 ++ Event (DockerRun argv) r :: tr2) o -> destructive argv = true ->
  exists op, acts_for q tr1 op /\ justified tr1 op argv.
Proof.
  intros Hruns Hd. destruct (guarded_runs _ _ _ _ _ _ (guarded_perform fuel t q) Hruns) as [_ H].
  exact (H tr1 _ (DockerRun argv) r tr2 eq_refl Hd).
Qed.

Definition sample_operation : OperationIdentity := mkOperationIdentity "postgres-docker:tok".
Definition sample_creation : DatabaseCreation :=
  mkDatabaseCreation (mkDatabaseRef "shop-db" CREATED) (mkCreationReceipt sample_operation ["shop-db"]) CREATED.
Definition quoted (s : string) : string := str ["034"%char] +:+ s +:+ str ["034"%char].
Definition sample_inspection : string :=
  "[{" +:+ quoted "Id" +:+ ":" +:+ quoted "3f2a" +:+ "," +:+ quoted "Config" +:+ ":{" +:+ quoted "Labels" +:+ ":{" +:+
  join "," (map (fun kv => quoted kv.1 +:+ ":" +:+ quoted kv.2)
    [(PROVIDER_LABEL, PROVIDER_NAME); (OPERATION_LABEL, "postgres-docker:tok"); (RESOURCE_KIND_LABEL, "container");
     (CREATOR_TOKEN_LABEL, "tok")]) +:+ "}}}]".
Definition sample_before : provider_history :=
  [Event (DockerRun (inspect_argv "shop-db")) (Ok (0%Z, Some sample_inspection, None));
   Event (Owns "postgres-docker:tok" "shop-db" "3f2a") (Ok true)].

(** A world where that container is live and owned. *)
Definition sample_world (R : Type) (e : provider_op R) (w : unit) : result exn R * unit :=
  match e in provider_op R return result exn R * unit with
  | DockerRun argv => (Ok (0%Z, Some (if bool_decide (argv = inspect_argv "shop-db") then sample_inspection else "shop-db"), None), w)
  | NewToken => (Ok "tok", w)
  | Clock => (Ok 0%Z, w)
  | Owns _ _ _ | HasRecord _ _ => (Ok true, w)
  | Pause | Reserve _ _ | Bind _ _ _ | Activate _ _ _ | Retire _ _ _ | RetireAbsent _ _ _ | CloseInjection => (Ok tt, w)
  | OpenInjection _ => (Ok "/tmp/secret", w)
  | ValidateForRestore _ => (Err AssertionError, w)
  | RestoreInto _ _ => (Ok true, w)
  end.
Lemma sample_removal_runs :
  runs (perform 0 10 (DeleteDatabase sample_creation)) (sample_before ++ Event (DockerRun (rm_argv "shop-db")) (Ok (0%Z, Some "shop-db", None)) ::
    [Event (Retire "postgres-docker:tok" "shop-db" "3f2a") (Ok tt)]) (Ok tt).
Proof.
  pose proof (exec_runs sample_world (perform 0 10 (DeleteDatabase sample_creation)) tt) as H.
  assert (exec sample_world (perform 0 10 (DeleteDatabase sample_creation)) tt =
    (Ok tt, sample_before ++ Event (DockerRun (rm_argv "shop-db")) (Ok (0%Z, Some "shop-db", None)) ::
    [Event (Retire "postgres-docker:tok" "shop-db" "3f2a") (Ok tt)], tt)) as E by (vm_compute; reflexivity).
  rewrite E in H. exact H.
Qed.

Lemma only_owned_resources_are_removed_witness :
  destructive (rm_argv "shop-db") = true /\
  exists op, acts_for (DeleteDatabase sample_creation) sample_before op /\ justified sample_before op (rm_argv "shop-db").
Proof.
  split; [reflexivity|].
  apply (only_owned_resources_are_removed 0 10 (DeleteDatabase sample_creation) sample_before (rm_argv "shop-db")
    (Ok (0%Z, Some "shop-db", None)) [Event (Retire "postgres-docker:tok" "shop-db" "3f2a") (Ok tt)] (Ok tt));
    [exact sample_removal_runs|reflexivity].
Defined.
