(* ===== verification/DockerBackend.v ===== *)
(** * The local backend on Docker ([odoo_forge_docker/provider.py])

    [run], [status], [stop], [destroy], [logs] and [exec] of an instance, with the rollback of
    a failed [run].  Docker, the clock, the credential injector, the database provider and the
    ownership custody are ports: their answers are events of the trace. *)

From stdpp Require Import pretty.
From S2P Require Import Prelude Effects Regex Values Paths Schema Json Projection Backend Docker.

Inductive backend_op : Type -> Type :=
(* [subprocess.run(argv, capture_output=True, text=True)]: exit status, stdout, stderr *)
| DockerCli (argv : list string) (timeout : Z) : backend_op (Z * string * string)
| Now : backend_op Z
| Doze (seconds : Z) : backend_op unit
| Uuid4Hex : backend_op string
(* the credential injector; [secret_files] is entered and left *)
| ValidateSecrets (spec : ContainerSpec) : backend_op unit
| OpenSecretFiles (spec : ContainerSpec) : backend_op (list (string * string))
| CloseSecretFiles : backend_op unit
| Redact (value : string) (planned : list string) : backend_op string
| ClearSecrets : backend_op unit
(* the database provider *)
| ProvisionDatabase (spec : DatabaseSpec) (credentials : string) : backend_op DatabaseCreation
| CleanupDatabase (receipt : CreationReceipt) : backend_op CleanupReport
(* the ownership custody *)
| RecordCustody (project instance : string) (receipt : CreationReceipt) (token : option string) : backend_op unit
| ConsumeCustody (project instance : string) : backend_op (option (CreationReceipt * option string))
| CompleteCustody (project instance : string) (receipt : CreationReceipt) (token : option string) : backend_op unit
(* [tempfile.TemporaryDirectory] and the file Docker writes the container id to *)
| OpenTemporaryDirectory (prefix : string) : backend_op string
| CloseTemporaryDirectory (path : string) : backend_op unit
| ReadCidFile (path : string) : backend_op string.

Definition backend_prog := prog backend_op exn.

Definition DAEMON_DOWN_MARKER : string := "Cannot connect to the Docker daemon".
Definition IMAGE_NOT_FOUND_MARKER : string := "Unable to find image".
Definition PULL_IMAGE_NOT_FOUND_MARKERS : list string :=
  ["unable to find image"; "manifest unknown"; "not found"; "does not exist"].
Definition LOCAL_IMAGE_NOT_FOUND_MARKERS : list string := ["no such image"; "unable to find image"].
Definition PULL_AUTH_MARKERS : list string := ["pull access denied"; "unauthorized"; "authentication required"; "denied"].
Definition BOOTSTRAP_TIMEOUT_SECONDS : Z := 300.
Definition BOOTSTRAP_OUTPUT_LIMIT : nat := Z.to_nat 8000.
Definition SAFE_DOCKER_IDENTIFIER : regex :=
  rcats [RBol; RSet (fun c => is_lower c || is_digit c);
         rupto 127 (RSet (fun c => is_lower c || is_digit c || one_of "_.-" c)); REol].
Definition CREATE_TOKEN_LABEL : string := "com.odoo-forge.create-token".

(** [marker in text] *)
Definition mentions (marker text : string) : bool := contains (chars marker) (chars text).
Definition run_error (detail : string) : exn := BackendError ContainerRunError detail.

(** ** Command lines *)

Definition label_flags (labels : list (string * string)) : list string :=
  flat_map (fun kv => ["--label"; kv.1 +:+ "=" +:+ kv.2]) labels.
Definition network_create_argv (spec : NetworkSpec) : list string :=
  ["docker"; "network"; "create"] ++ label_flags (ns_labels spec) ++ [ns_name spec].
Definition volume_create_argv (spec : VolumeSpec) : list string :=
  ["docker"; "volume"; "create"] ++ label_flags (vs_labels spec) ++ [vs_name spec].
Definition ROLE_VOLUME_TARGET : list (string * string) :=
  [("postgres", "/var/lib/postgresql/data"); ("odoo", "/var/lib/odoo")].

(** What follows [docker run -d]. *)
Definition container_args (spec : ContainerSpec) (secret_files : option (list (string * string))) : list string :=
  ["--name"; ctr_name spec; "--network"; ctr_network spec] ++ label_flags (ctr_labels spec) ++
  match secret_files with
  | Some files =>
    flat_map (fun kp =>
      let target := "/run/secrets/" +:+ kp.1 in
      ["--mount"; "type=bind,source=" +:+ kp.2 +:+ ",target=" +:+ target +:+ ",readonly"; "-e"; kp.1 +:+ "_FILE=" +:+ target]) files
  | None => []
  end ++
  flat_map (fun kv => ["-e"; kv.1 +:+ "=" +:+ kv.2]) (ctr_env spec) ++
  flat_map (fun v => ["-v"; vs_name v +:+ ":" +:+ default "" (dget (ctr_role spec) ROLE_VOLUME_TARGET)]) (ctr_volumes spec) ++
  flat_map (fun m => ["-v"; mt_host_path m +:+ ":" +:+ mt_container_path m +:+ (if mt_read_only m then ":ro" else "")])
    (ctr_mounts spec) ++
  flat_map (fun cp => ["-p"; ctr_bind_host spec +:+ ":" +:+ pretty (default 0%Z cp.2) +:+ ":" +:+ cp.1]) (ctr_ports spec) ++
  [ctr_image spec].
Definition run_container_argv (spec : ContainerSpec) (secret_files : option (list (string * string))) : list string :=
  ["docker"; "run"; "-d"] ++ container_args spec secret_files.

Definition with_ports (spec : ContainerSpec) (ports : list (string * option Z)) : ContainerSpec :=
  mkContainerSpec (ctr_name spec) (ctr_image spec) (ctr_role spec) (ctr_network spec) (ctr_env spec) (ctr_secret_env spec)
    (ctr_mounts spec) (ctr_labels spec) (ctr_volumes spec) (ctr_bind_host spec) ports.
Definition with_name (spec : ContainerSpec) (name : string) : ContainerSpec :=
  mkContainerSpec name (ctr_image spec) (ctr_role spec) (ctr_network spec) (ctr_env spec) (ctr_secret_env spec)
    (ctr_mounts spec) (ctr_labels spec) (ctr_volumes spec) (ctr_bind_host spec) (ctr_ports spec).
(** The first [-d] of the portless command line is the one after [docker run]. *)
Definition bootstrap_container_argv (spec : ContainerSpec) (secret_files : option (list (string * string))) (cidfile : string)
    : list string :=
  ["docker"; "run"; "--cidfile"; cidfile] ++ container_args (with_ports spec []) secret_files ++
  ["-i"; "base"; "--stop-after-init"; "--no-http"].
Definition pull_image_argv (spec : ContainerSpec) : list string := ["docker"; "pull"; ctr_image spec].

(** [_database_spec_from_plan] *)
Definition database_spec_from_plan (p : BackendPlan) : result exn DatabaseSpec :=
  match ctr_volumes (bp_postgres p) with
  | v :: _ => Ok (mkDatabaseSpec (ctr_name (bp_postgres p)) (Some (ns_name (bp_network p))) (Some (vs_name v))
                    (ctr_env (bp_postgres p)) (ctr_labels (bp_postgres p)))
  | [] => Err IndexError
  end.
Definition planned_env_values (p : BackendPlan) : list string :=
  map snd (ctr_env (bp_postgres p)) ++ map snd (ctr_env (bp_odoo p)).

(** ** Reading JSON answers *)

(** [json.loads(text)] *)
Definition load_json (text : string) : result exn json :=
  match loads text with Some j => Ok j | None => Err (ValueError "JSONDecodeError") end.
(** [j[0]] *)
Definition first_item (j : json) : result exn json :=
  match j with
  | JArr (x :: _) => Ok x
  | JArr [] | JStr "" => Err IndexError
  | JStr (String c _) => Ok (JStr (str [c]))
  | JObj _ => Err (KeyError "0")
  | _ => Err (TypeError "object is not subscriptable")
  end.
(** [except (ValueError, TypeError, IndexError, AttributeError)] *)
Definition is_shape_error (e : exn) : bool :=
  match e with
  | ValueError _ | TypeError _ | IndexError => true
  | PortError name => bool_decide (name = "AttributeError")
  | _ => false
  end.
(** [value or {}] *)
Definition or_empty (j : json) : json := if truthy j then j else JObj [].

Definition health_status (inspect_stdout : string) : result exn json :=
  match loads inspect_stdout with
  | None => Ok JNull
  | Some data =>
    match (match data with JArr l => l | j => [j] end) with
    | [] => Ok JNull
    | c :: _ =>
      let! state := jget "State" c in
      let! health := jget "Health" (or_empty state) in
      jget "Status" (or_empty health)
    end
  end.

(** The labels of [docker volume inspect]. *)
Definition volume_labels (stdout : string) : result exn json :=
  let! data := load_json stdout in
  let! entry := first_item data in
  let! labels := jget "Labels" entry in
  Ok (or_empty labels).
Definition runtime_labels (kind stdout : string) : result exn json :=
  let! data := load_json stdout in
  let! entry := first_item data in
  if bool_decide (kind = "container") then let! config := jget "Config" entry in jget "Labels" (or_empty config)
  else jget "Labels" entry.
Definition carries (expected : list (string * string)) (labels : json) : bool :=
  match labels with
  | JObj d => forallb (fun kv => bool_decide (dget kv.1 d = Some (JStr kv.2))) expected
  | _ => false
  end.

(** ** Results of a destruction ([odoo_forge/backend/destruction.py]) *)

Inductive DestroyKind : Type := KContainer | KNetwork | KVolume.
Inductive DestroyOutcome : Type := ORemoved | OAbsent | OProtected | OFailed.
Record DestroyResourceResult : Type := mkDestroyResourceResult {
  drr_kind : DestroyKind; drr_identifier : string; drr_outcome : DestroyOutcome; drr_detail : option string }.

#[export] Instance DestroyKind_eq_dec : EqDecision DestroyKind.
Proof. solve_decision. Defined.
#[export] Instance DestroyOutcome_eq_dec : EqDecision DestroyOutcome.
Proof. solve_decision. Defined.
#[export] Instance DestroyResourceResult_eq_dec : EqDecision DestroyResourceResult.
Proof. solve_decision. Defined.

(** ** Texts of errors *)

(** [public_detail] of a database error. *)
Definition public_detail (e : database_error) : string :=
  match e with
  | MaskBinaryUnavailableError => "masking command binary is unavailable"
  | MaskTimeoutError => "masking operation timed out"
  | MaskCommandFailedError => "masking command failed"
  | InvalidMaskSelectorError => "anonymization selector is invalid"
  | MaskScratchUnavailableError => "scratch masking database is unavailable"
  | MaskPersistenceError => "masked artifact persistence failed"
  | MaskSelectorNotFoundError => "anonymization rule targets a table or column that does not exist"
  | MaskColumnTypeUnsupportedError => "anonymization strategy cannot mask a column of this type"
  | MaskUniqueColumnCollisionError => "anonymization strategy would violate a unique constraint"
  | MaskNotNullColumnError => "anonymization strategy would violate a not-null constraint"
  | MaskScratchNotIsolatedError => "scratch masking database is not network-isolated"
  | CaptureBinaryUnavailableError => "capture command binary is unavailable"
  | CaptureTimeoutError => "capture operation timed out"
  | CaptureCommandFailedError => "capture command failed"
  | InvalidCaptureIdentifierError => "capture source identifier is invalid"
  | CapturePersistenceError => "capture persistence failed"
  | CaptureStagingSpaceError => "insufficient free space to stage the captured dump"
  | RestoreBinaryUnavailableError => "restore command binary is unavailable"
  | RestoreTimeoutError => "restore operation timed out"
  | RestoreCommandFailedError => "restore command failed"
  | InvalidRestoreIdentifierError => "restore target identifier is invalid"
  | RestoreByteSourceUnavailableError => "restore artifact bytes are not accessible from this byte source"
  | RestoreArtifactUnreadableError => "restore artifact bytes could not be read"
  | RestoreArtifactUnavailableError | RestoreArtifactIncoherentError | RestoreArtifactIntegrityError
  | ArtifactUnavailableError => "database artifact is unavailable"
  | DockerCommandTimeoutError | DockerCommandFailedError | UnspecifiedDatabaseOperationError => "database provider operation failed"
  | InvalidDatabaseRequestError => "database request is invalid"
  | CredentialUnavailableError => "database credentials are unavailable"
  | ResourceUnavailableError => "database resource is unavailable"
  | DatabaseConflictError => "database resource conflicts with the requested operation"
  | DatabaseReadinessError => "database resource is not ready"
  | OwnershipRefusedError => "database resource ownership does not permit this operation"
  | RollbackIncompleteError _ _ _ _ => "database cleanup incomplete"
  end.

(** [exc.__class__(detail)]: a database error keeps its public text whatever it is given, and
    [RollbackIncompleteError] cannot be built from a text at all. *)
Definition rebuilt (e : exn) (detail : string) : exn :=
  match e with
  | BackendError k _ => BackendError k detail
  | DatabaseProviderError (RollbackIncompleteError _ _ _ _) =>
    TypeError "RollbackIncompleteError.__init__() missing 1 required positional argument: 'residual_failures'"
  | ValueError _ => ValueError detail
  | TypeError _ => TypeError detail
  | KeyError _ => KeyError detail
  | _ => e
  end.

(** [repr] of a list of words. *)
Definition repr_char (q c : ascii) : list ascii :=
  if Ascii.eqb c q || Ascii.eqb c backslash then [backslash; c]
  else if Ascii.eqb c newline then [backslash; "n"%char] else [c].
Definition squote : ascii := ascii_of_nat 39.
Definition repr_str (s : string) : string :=
  let q := if existsb (Ascii.eqb squote) (chars s) && negb (existsb (Ascii.eqb dquote) (chars s)) then dquote else squote in
  str ([q] ++ concat (map (repr_char q) (chars s)) ++ [q]).
Definition repr_list (l : list string) : string := "[" +:+ join ", " (map repr_str l) +:+ "]".

(** [str(value)] of a decoded value *)
Fixpoint py_repr (j : json) : string :=
  match j with
  | JNull => "None" | JBool true => "True" | JBool false => "False"
  | JInt z => pretty z | JFloat r => r | JStr s => repr_str s
  | JArr l => "[" +:+ join ", " (map py_repr l) +:+ "]"
  | JObj d => "{" +:+ join ", " (map (fun kv => repr_str kv.1 +:+ ": " +:+ py_repr kv.2) d) +:+ "}"
  end.
Definition py_text (j : json) : string := match j with JStr s => s | _ => py_repr j end.

(** [json.dumps(selected, sort_keys=True)] for the selected fields of a state. *)
Fixpoint dumps_spaced (j : json) : string :=
  match j with
  | JArr l => "[" +:+ join ", " (map dumps_spaced l) +:+ "]"
  | JObj d =>
    "{" +:+ join ", " (map (fun kv => str (quote kv.1 ++ [":"%char; " "%char] ++ kv.2))
      (merge_sort key_le (map (fun kv => (kv.1, chars (dumps_spaced kv.2))) d))) +:+ "}"
  | _ => dumps_compact j
  end.
Definition last_chars (n : nat) (s : string) : string := str (drop (String.length s - n) (chars s)).
(** [" ".join(text.split())] *)
Definition one_line (text : string) : string := join " " (words text).
(** [text or fallback] *)
Definition or_text (text fallback : string) : string := if bool_decide (text = "") then fallback else text.

(** ** What a run has made *)

Inductive created_resource : Type :=
| CNetwork (name : string)
| CVolume (name token : string)
| CContainer (name : string)
| CDatabase (identifier : string).
#[export] Instance created_resource_eq_dec : EqDecision created_resource.
Proof. solve_decision. Defined.

Definition resource_text (r : created_resource) : string :=
  match r with
  | CNetwork n => "network=" +:+ n | CVolume n _ => "volume=" +:+ n
  | CContainer n => "container=" +:+ n | CDatabase n => "database=" +:+ n
  end.

(** The locals [created] and [db_creation], which outlive an exception. *)
Record ledger : Type := mkLedger { lg_created : list created_resource; lg_db : option DatabaseCreation }.
Definition building (A : Type) : Type := ledger -> backend_prog (result exn A * ledger).

Definition b_ret {A : Type} (a : A) : building A := fun s => Ret (Ok a, s).
Definition b_raise {A : Type} (e : exn) : building A := fun s => Ret (Err e, s).
Definition b_bind {A B : Type} (m : building A) (k : A -> building B) : building B := fun s =>
  let* '(r, s') := m s in
  match r with Ok a => k a s' | Err e => Ret (Err e, s') end.
Definition b_step {A : Type} (p : backend_prog A) : building A := fun s => let* r := attempt p in Ret (r, s).
(** [created.append(r)] *)
Definition b_push (r : created_resource) : building unit := fun s => Ret (Ok tt, mkLedger (lg_created s ++ [r]) (lg_db s)).
(** [created.remove(r)]: the first occurrence. *)
Fixpoint remove_first (r : created_resource) (l : list created_resource) : list created_resource :=
  match l with [] => [] | x :: l' => if bool_decide (x = r) then l' else x :: remove_first r l' end.
Definition b_drop (r : created_resource) : building unit := fun s =>
  Ret (Ok tt, mkLedger (remove_first r (lg_created s)) (lg_db s)).
Definition b_database (c : DatabaseCreation) : building unit := fun s => Ret (Ok tt, mkLedger (lg_created s) (Some c)).
(** [try: m except Exception as e: h e] *)
Definition b_catch {A : Type} (m : building A) (h : exn -> building A) : building A := fun s =>
  let* '(r, s') := m s in
  match r with Ok a => Ret (Ok a, s') | Err e => h e s' end.
Notation "'let+' x := m 'in' k" := (b_bind m (fun x => k)) (at level 10, x name, m at level 100, k at level 200) : forge_scope.
Notation "m ;+ k" := (b_bind m (fun _ => k)) (at level 199, k at level 200, right associativity) : forge_scope.

Section Provider.
(** The constructor's arguments; durations are whole seconds. *)
Variables (docker_timeout health_wait_timeout health_poll_interval : Z) (has_database has_custody : bool).
(** [str(exc)] of the exceptions of the standard library and of the ports. *)
Variable other_text : exn -> string.
(** Bounds the polls that are modelled; the clock ends the loop before. *)
Variable fuel : nat.

Definition exn_text (e : exn) : string :=
  match e with BackendError _ detail => detail | DatabaseProviderError k => public_detail k | _ => other_text e end.

(** ** The subprocess boundary *)

Definition run_raw_for (timeout : Z) (argv : list string) : backend_prog (Z * string * string) :=
  catch (call (DockerCli argv timeout)) (fun e =>
    if is_missing e then Raise (BackendError DockerUnavailableError ("docker executable not found: " +:+ exn_text e))
    else if is_expired e then
      Raise (BackendError DockerUnavailableError
        ("docker command timed out after " +:+ pretty timeout +:+ ".0s: " +:+ repr_list argv))
    else Raise e).
Definition run_raw (argv : list string) : backend_prog (Z * string * string) := run_raw_for docker_timeout argv.

(** [_exec]: stdout of a command that exited with status 0. *)
Definition exec_docker (argv : list string) : backend_prog string :=
  let* '(returncode, stdout, stderr) := run_raw argv in
  if (returncode =? 0)%Z then Ret stdout else
  let text := strip stderr in
  if mentions DAEMON_DOWN_MARKER text then Raise (BackendError DockerUnavailableError text)
  else if mentions IMAGE_NOT_FOUND_MARKER text then Raise (BackendError ImageNotFoundError text)
  else Raise (run_error (or_text text ("docker command failed: " +:+ repr_list argv))).

Definition exists_ (argv : list string) : backend_prog bool :=
  let* '(returncode, _, stderr) := run_raw argv in
  if (returncode =? 0)%Z then Ret true
  else if mentions DAEMON_DOWN_MARKER stderr then Raise (BackendError DockerUnavailableError (strip stderr)) else Ret false.
Definition container_exists (name : string) : backend_prog bool := exists_ ["docker"; "inspect"; name].
Definition network_exists (name : string) : backend_prog bool := exists_ ["docker"; "network"; "inspect"; name].
Definition volume_inspect (name : string) : list string := ["docker"; "volume"; "inspect"; name].
Definition volume_exists (name : string) : backend_prog bool := exists_ (volume_inspect name).

Definition volume_has_label (name key value : string) : backend_prog bool :=
  let* '(returncode, stdout, _) := run_raw (volume_inspect name) in
  if negb (returncode =? 0)%Z then Ret false else
  match volume_labels stdout with
  | Ok labels => let* v := lift (jget key labels) in Ret (bool_decide (v = JStr value))
  | Err e => if is_shape_error e then Ret false else Raise e
  end.

Definition expected_labels (ref : InstanceRef) (role : option string) : list (string * string) :=
  [("com.odoo-forge.managed", "true"); ("com.odoo-forge.project", ir_project ref); ("com.odoo-forge.instance", ir_instance ref)] ++
  match role with Some r => [("com.odoo-forge.role", r)] | None => [] end.
Definition runtime_inspect (kind name : string) : list string :=
  if bool_decide (kind = "network") then ["docker"; "network"; "inspect"; name] else ["docker"; "inspect"; name].
Definition runtime_has_ownership (kind name : string) (ref : InstanceRef) (role : option string) : backend_prog bool :=
  let* '(returncode, stdout, _) := run_raw (runtime_inspect kind name) in
  match runtime_labels kind stdout with
  | Ok labels => Ret ((returncode =? 0)%Z && carries (expected_labels ref role) labels)
  | Err e => if is_shape_error e then Ret false else Raise e
  end.

(** ** Images *)

Definition pull_image (spec : ContainerSpec) : backend_prog unit :=
  let* '(returncode, _, stderr) := run_raw (pull_image_argv spec) in
  if (returncode =? 0)%Z then Ret tt else
  let text := one_line stderr in
  let lowered := lower text in
  if mentions DAEMON_DOWN_MARKER text then Raise (BackendError DockerUnavailableError text)
  else if existsb (fun m => mentions m lowered) PULL_AUTH_MARKERS then
    Raise (BackendError ImageAuthorizationError (or_text text ("authorization denied while pulling " +:+ repr_str (ctr_image spec))))
  else if existsb (fun m => mentions m lowered) PULL_IMAGE_NOT_FOUND_MARKERS then
    Raise (BackendError ImageNotFoundError (or_text text ("image not found: " +:+ repr_str (ctr_image spec))))
  else Raise (run_error (or_text text ("docker pull failed for " +:+ repr_str (ctr_image spec)))).

Definition ensure_odoo_image (spec : ContainerSpec) : backend_prog unit :=
  let* '(returncode, _, stderr) := run_raw ["docker"; "image"; "inspect"; ctr_image spec] in
  if (returncode =? 0)%Z then Ret tt else
  let text := one_line stderr in
  let lowered := lower text in
  if mentions (lower DAEMON_DOWN_MARKER) lowered then Raise (BackendError DockerUnavailableError text)
  else if existsb (fun m => mentions m lowered) LOCAL_IMAGE_NOT_FOUND_MARKERS then pull_image spec
  else Raise (run_error (or_text text ("docker image inspect failed for " +:+ repr_str (ctr_image spec)))).

(** ** Readiness *)

(** [_wait_until]: the loop after the deadline is computed. *)
Fixpoint wait_loop (n : nat) (deadline : Z) (probe : Z -> backend_prog bool) (poll_interval : Z) : backend_prog bool :=
  match n with
  | O => Ret false
  | S n' =>
    let* now := call Now in
    if (deadline - now <=? 0)%Z then Ret false else
    let* ok := probe (Z.min docker_timeout (deadline - now)) in
    if ok : bool then Ret true else
    let* now := call Now in
    if (deadline - now <=? 0)%Z then Ret false else
    call (Doze (Z.min poll_interval (deadline - now))) ;* wait_loop n' deadline probe poll_interval
  end.
Definition wait_until (probe : Z -> backend_prog bool) (timeout poll_interval : Z) : backend_prog bool :=
  let* now := call Now in wait_loop fuel (now + Z.max 0 timeout) probe poll_interval.

Definition odoo_healthy (name : string) (timeout : Z) : backend_prog bool :=
  let* '(returncode, stdout, _) := run_raw_for timeout ["docker"; "inspect"; name] in
  if negb (returncode =? 0)%Z then Ret false else
  let* status := lift (health_status stdout) in Ret (bool_decide (status = JStr "healthy")).
Definition wait_odoo_healthy (spec : ContainerSpec) : backend_prog unit :=
  let* ok := wait_until (odoo_healthy (ctr_name spec)) health_wait_timeout health_poll_interval in
  if ok : bool then Ret tt
  else Raise (run_error ("odoo container " +:+ repr_str (ctr_name spec) +:+ " did not become healthy within " +:+
                         pretty health_wait_timeout +:+ ".0s")).

Definition bounded_redacted (value : string) (planned : list string) : backend_prog string :=
  let* text := call (Redact value planned) in Ret (last_chars BOOTSTRAP_OUTPUT_LIMIT text).

Definition nonempty_lines (stdout stderr : string) : string :=
  join (str [newline]) (List.filter (fun s => negb (bool_decide (s = ""))) [stdout; stderr]).

(** [key in value] and [value[key]], for the keys that are present *)
Definition pick (keys : list string) (d : list (string * json)) : list (string * json) :=
  flat_map (fun k => match dget k d with Some v => [(k, v)] | None => [] end) keys.
(** The final health and the selected state, as far as they could be read. *)
Definition selected_state (stdout : string) : string * option string :=
  match (let! payload := load_json stdout in let! c := first_item payload in
         match c with JObj d => match dget "State" d with Some s => Ok s | None => Err (KeyError "State") end
                    | _ => Err (TypeError "subscript") end) with
  | Ok (JObj state) =>
    match default (JObj []) (dget "Health" state) with
    | JObj health =>
      (py_text (default (JStr "unknown") (dget "Status" health)),
       Some (dumps_spaced (JObj (pick ["Status"; "Running"; "ExitCode"; "Error"; "OOMKilled"] state ++
                                 [("Health", JObj (pick ["Status"; "FailingStreak"] health))]))))
    | _ => ("unknown", None)
    end
  | _ => ("unknown", None)
  end.

Definition readiness_diagnostics (spec : ContainerSpec) (planned : list string) : backend_prog string :=
  let* r := attempt (run_raw ["docker"; "inspect"; ctr_name spec]) in
  let '(final_health, inspect) :=
    match r with Ok (0%Z, stdout, _) => selected_state stdout | _ => ("unknown", None) end in
  let* l := attempt (
    let* '(returncode, stdout, stderr) := run_raw ["docker"; "logs"; "--tail"; "200"; ctr_name spec] in
    if (returncode =? 0)%Z then bounded_redacted (nonempty_lines stdout stderr) planned else Ret "unavailable") in
  let logs := match l with Ok text => text | Err _ => "unavailable" end in
  let* inspect := bounded_redacted (default "unavailable" inspect) planned in
  Ret ("final_health=" +:+ final_health +:+ "; inspect=" +:+ inspect +:+ "; logs=" +:+ logs).

(** ** Creating resources *)

Definition ensure_network (spec : NetworkSpec) : building unit :=
  let+ present := b_step (network_exists (ns_name spec)) in
  if present : bool then b_ret tt else
  b_step (exec_docker (network_create_argv spec)) ;+ b_push (CNetwork (ns_name spec)).

Definition ensure_volume (spec : VolumeSpec) : building bool :=
  let+ present := b_step (volume_exists (vs_name spec)) in
  if present : bool then b_ret false else
  let+ ownership := b_step (call Uuid4Hex) in
  b_step (exec_docker (volume_create_argv (mkVolumeSpec (vs_name spec) (dset CREATE_TOKEN_LABEL ownership (vs_labels spec))))) ;+
  b_push (CVolume (vs_name spec) ownership) ;+
  let+ labelled := b_step (volume_has_label (vs_name spec) CREATE_TOKEN_LABEL ownership) in
  if labelled : bool then b_ret true
  else b_raise (run_error ("volume ownership verification failed: " +:+ repr_str (vs_name spec))).

(** [with secret_files(spec) as files: p], when the container has secrets. *)
Definition with_secrets {A : Type} (spec : ContainerSpec) (p : option (list (string * string)) -> backend_prog A) : backend_prog A :=
  match ctr_secret_env spec with
  | [] => p None
  | _ =>
    let* files := call (OpenSecretFiles spec) in
    let* r := attempt (p (Some files)) in
    call CloseSecretFiles ;* lift r
  end.
Definition run_container (spec : ContainerSpec) : building unit :=
  b_step (with_secrets spec (fun files => exec_docker (run_container_argv spec files))) ;+ b_push (CContainer (ctr_name spec)).

Definition record_bootstrap_identity (cidfile : string) : building bool := fun s =>
  let* r := attempt (call (ReadCidFile cidfile)) in
  match r with
  | Err (OSError _) => Ret (Ok false, s)
  | Err e => Ret (Err e, s)
  | Ok text =>
    let container_id := strip text in
    if bool_decide (container_id = "") then Ret (Ok false, s)
    else Ret (Ok true, mkLedger (lg_created s ++ [CContainer container_id]) (lg_db s))
  end.

(** [with TemporaryDirectory(prefix=) as directory: m] *)
Definition in_temporary_directory {A : Type} (prefix : string) (m : string -> building A) : building A := fun s =>
  let* opened := attempt (call (OpenTemporaryDirectory prefix)) in
  match opened with
  | Err e => Ret (Err e, s)
  | Ok directory =>
    let* '(r, s') := m directory s in
    let* closed := attempt (call (CloseTemporaryDirectory directory)) in
    Ret (match closed with Ok _ => r | Err e => Err e end, s')
  end.

Definition run_bootstrap (spec : ContainerSpec) (planned : list string) : building unit :=
  let+ result := in_temporary_directory "odoo-forge-bootstrap-" (fun directory =>
    let cidfile := directory +:+ "/container.cid" in
    let+ result := b_catch
      (b_step (with_secrets spec (fun files => run_raw_for BOOTSTRAP_TIMEOUT_SECONDS (bootstrap_container_argv spec files cidfile))))
      (fun e =>
         let+ owned := record_bootstrap_identity cidfile in
         let+ detail := b_step (bounded_redacted (exn_text e) planned) in
         let+ diagnostics := if owned : bool then b_step (readiness_diagnostics spec planned) else b_ret "" in
         b_raise (run_error ("bootstrap failed; output=" +:+ detail +:+ (if owned then "; " +:+ diagnostics else "")))) in
    let+ owned := record_bootstrap_identity cidfile in
    if owned : bool then b_ret result
    else b_raise (run_error "bootstrap failed: safe container identity unavailable")) in
  let '(returncode, stdout, stderr) := result in
  if (returncode =? 0)%Z then b_ret tt else
  let+ output := b_step (bounded_redacted (nonempty_lines stdout stderr) planned) in
  let+ diagnostics := b_step (readiness_diagnostics spec planned) in
  b_raise (run_error ("bootstrap failed with exit code " +:+ pretty returncode +:+ "; output=" +:+ output +:+ "; " +:+ diagnostics)).

(** ** Rolling back *)

Definition rollback_database (c : DatabaseCreation) : backend_prog bool :=
  let* r := attempt (call (CleanupDatabase (dc_receipt c))) in
  Ret (match r with Ok report => bool_decide (residual_failures report = []) | Err _ => false end).

Definition container_rm (name : string) : list string := ["docker"; "rm"; "-f"; "-v"; name].
Definition volume_rm (name : string) : list string := ["docker"; "volume"; "rm"; name].
Definition network_rm (name : string) : list string := ["docker"; "network"; "rm"; name].
Definition exited_well (argv : list string) : backend_prog bool :=
  let* '(returncode, _, _) := run_raw argv in Ret (returncode =? 0)%Z.

(** One iteration; [true] when the resource is gone. *)
Definition rollback_one (db_creation : option DatabaseCreation) (r : created_resource) : backend_prog bool :=
  catch
    (match r with
     | CDatabase _ => match db_creation with Some c => rollback_database c | None => Ret false end
     | CContainer name => exited_well (container_rm name)
     | CVolume name token =>
       let* labelled := volume_has_label name CREATE_TOKEN_LABEL token in
       if labelled : bool then exited_well (volume_rm name) else Ret false
     | CNetwork name => exited_well (network_rm name)
     end)
    (fun _ => Ret false).
Fixpoint rollback_each (db_creation : option DatabaseCreation) (l : list created_resource) : backend_prog (list string) :=
  match l with
  | [] => Ret []
  | r :: l' =>
    let* gone := rollback_one db_creation r in
    let* rest := rollback_each db_creation l' in
    Ret (if gone : bool then rest else resource_text r :: rest)
  end.
Definition rollback (s : ledger) : backend_prog (list string) := rollback_each (lg_db s) (reverse (lg_created s)).

(** ** [run] *)

Fixpoint ensure_volumes (pgdata : result exn string) (volumes : list VolumeSpec) : building unit :=
  match volumes with
  | [] => b_ret tt
  | v :: vs =>
    let+ pgdata_name := b_step (lift pgdata) in
    (if bool_decide (vs_name v = pgdata_name) then b_ret tt else ensure_volume v ;+ b_ret tt) ;+ ensure_volumes pgdata vs
  end.
Definition pgdata_name (p : BackendPlan) : result exn string :=
  match ctr_volumes (bp_postgres p) with v :: _ => Ok (vs_name v) | [] => Err IndexError end.

Definition bootstrap_spec (p : BackendPlan) : ContainerSpec := with_name (bp_odoo p) (ctr_name (bp_odoo p) +:+ "-bootstrap").

(** [created[-1]], its removal and its name *)
Definition drop_bootstrap : building unit := fun s =>
  match last (lg_created s) with
  | None => Ret (Err IndexError, s)
  | Some r =>
    (b_step (exec_docker (container_rm match r with CNetwork n | CVolume n _ | CContainer n | CDatabase n => n end)) ;+ b_drop r) s
  end.

Definition volume_token (name : string) (created : list created_resource) : option string :=
  match find_first (fun r => match r with CVolume n _ => bool_decide (n = name) | _ => false end) created with
  | Some (CVolume _ token) => Some token
  | _ => None
  end.
Definition custody_failure (e : exn) : exn :=
  match e with OSError _ => run_error ("custody persistence failed: " +:+ exn_text e) | _ => e end.
Definition record_custody (p : BackendPlan) (ref : InstanceRef) (c : DatabaseCreation) : building unit := fun s =>
  match has_custody, ctr_volumes (bp_odoo p) with
  | true, v :: _ =>
    b_step (catch (call (RecordCustody (ir_project ref) (ir_instance ref) (dc_receipt c) (volume_token (vs_name v) (lg_created s))))
      (fun e => Raise (custody_failure e))) s
  | _, _ => Ret (Ok tt, s)
  end.

Definition run_steps (p : BackendPlan) (credentials : string) : building InstanceRef :=
  b_step (ensure_odoo_image (bp_odoo p)) ;+
  ensure_network (bp_network p) ;+
  ensure_volumes (pgdata_name p) (bp_volumes p) ;+
  let+ spec := b_step (lift (database_spec_from_plan p)) in
  let+ creation := b_step (call (ProvisionDatabase spec credentials)) in
  b_database creation ;+
  b_push (CDatabase (db_identifier (dc_ref creation))) ;+
  (if bool_decide (dc_data_volume_ownership creation = CREATED)
   then run_bootstrap (bootstrap_spec p) (planned_env_values p) ;+ drop_bootstrap else b_ret tt) ;+
  run_container (bp_odoo p) ;+
  b_step (wait_odoo_healthy (bp_odoo p)) ;+
  let+ ref := b_step (lift (instance_ref p)) in
  record_custody p ref creation ;+ b_ret ref.

(** What the [except] clause tells, before the rollback. *)
Definition failure_detail (p : BackendPlan) (e : exn) : backend_prog string :=
  match e with
  | BackendError ContainerRunError d =>
    if mentions "did not become healthy" d then
      let* diagnostics := readiness_diagnostics (bp_odoo p) (planned_env_values p) in
      Ret ("odoo readiness timed out after " +:+ pretty health_wait_timeout +:+ "s; " +:+ diagnostics)
    else Ret d
  | _ => Ret (exn_text e)
  end.
Definition with_residuals (detail : string) (residuals : list string) : string :=
  match residuals with [] => detail | _ => detail +:+ "; cleanup incomplete: " +:+ join ", " residuals end.
(** The [except] clause. *)
Definition run_failed (p : BackendPlan) (e : exn) (s : ledger) : backend_prog InstanceRef :=
  let* detail := failure_detail p e in
  let* residuals := rollback s in
  let detail := with_residuals detail residuals in
  if bool_decide (detail = exn_text e) then Raise e else Raise (rebuilt e detail).

Definition run_instance (p : BackendPlan) : backend_prog InstanceRef :=
  if negb has_database then
    Raise (run_error "run() requires a DatabaseProvider injected at construction time to delegate Postgres provisioning")
  else
  match bp_postgres_credentials p with
  | None => Raise (run_error "run() requires plan.postgres_credentials to provision Postgres")
  | Some credentials =>
    catch (call (ValidateSecrets (bp_postgres p)) ;* call (ValidateSecrets (bp_odoo p)))
      (fun e => if bool_decide (e = CredentialError) then Raise (run_error "credential injection failed") else Raise e) ;*
    let bootstrap := bootstrap_spec p in
    let* a := container_exists (ctr_name (bp_postgres p)) in
    let* b := if a : bool then Ret true else container_exists (ctr_name (bp_odoo p)) in
    let* c := if b : bool then Ret true else container_exists (ctr_name bootstrap) in
    if c : bool then
      Raise (BackendError InstanceExistsError
        ("instance already exists: " +:+ ns_name (bp_network p) +:+ " (postgres=" +:+ repr_str (ctr_name (bp_postgres p)) +:+
         ", odoo=" +:+ repr_str (ctr_name (bp_odoo p)) +:+ ", bootstrap=" +:+ repr_str (ctr_name bootstrap) +:+ ")"))
    else
    let* '(r, s) := run_steps p credentials (mkLedger [] None) in
    let* out := attempt (match r with Ok ref => Ret ref | Err e => run_failed p e s end) in
    call ClearSecrets ;* lift out
  end.

(** ** [status], [logs] and [exec] *)

Definition status (ref : InstanceRef) : backend_prog InstanceStatus :=
  let* '(_, stdout, stderr) := run_raw ["docker"; "inspect"; ir_postgres_container ref; ir_odoo_container ref] in
  let text := strip stderr in
  if mentions DAEMON_DOWN_MARKER text then Raise (BackendError DockerUnavailableError text) else
  let data := if bool_decide (stdout = "") then JArr [] else default (JArr []) (loads stdout) in
  lift (parse_status data).

Definition logs (ref : InstanceRef) (role : string) : backend_prog string :=
  let name := if bool_decide (role = "postgres") then ir_postgres_container ref else ir_odoo_container ref in
  let* present := container_exists name in
  if present : bool then exec_docker ["docker"; "logs"; name]
  else Raise (BackendError InstanceNotFoundError ("container not found for role " +:+ repr_str role +:+ ": " +:+ repr_str name)).

Definition exec_in (ref : InstanceRef) (argv : list string) : backend_prog (Z * string * string) :=
  let name := ir_odoo_container ref in
  let* present := container_exists name in
  if present : bool then run_raw (["docker"; "exec"; name] ++ argv)
  else Raise (BackendError InstanceNotFoundError ("odoo container not found: " +:+ repr_str name)).

(** ** [stop] and [destroy] *)

Definition validate_ref (ref : InstanceRef) : result exn unit :=
  result_iter (fun i => ensure (fullmatch SAFE_DOCKER_IDENTIFIER i) (ValueError ("invalid Docker identifier: " +:+ repr_str i)))
    [ir_network ref; ir_postgres_container ref; ir_odoo_container ref].

Definition runtime_exists (ref : InstanceRef) : backend_prog (list (string * bool)) :=
  let* a := container_exists (ir_postgres_container ref) in
  let* b := container_exists (ir_odoo_container ref) in
  let* c := network_exists (ir_network ref) in
  Ret (dict_of [(ir_postgres_container ref, a); (ir_odoo_container ref, b); (ir_network ref, c)]).
Definition present (existing : list (string * bool)) (name : string) : bool := default false (dget name existing).

Definition container_stop (name : string) : list string := ["docker"; "stop"; name].
Definition remove_container (existing : list (string * bool)) (ref : InstanceRef) (name role : string)
    : backend_prog DestroyResourceResult :=
  if negb (present existing name) then Ret (mkDestroyResourceResult KContainer name OAbsent None) else
  let* owned := runtime_has_ownership "container" name ref (Some role) in
  if negb owned then Ret (mkDestroyResourceResult KContainer name OProtected None) else
  let* r := attempt (exec_docker (container_stop name) ;* exec_docker (container_rm name)) in
  Ret (match r with
       | Ok _ => mkDestroyResourceResult KContainer name ORemoved None
       | Err e => mkDestroyResourceResult KContainer name OFailed (Some (exn_text e))
       end).
Definition remove_network (existing : list (string * bool)) (ref : InstanceRef) : backend_prog DestroyResourceResult :=
  let name := ir_network ref in
  if negb (present existing name) then Ret (mkDestroyResourceResult KNetwork name OAbsent None) else
  let* owned := runtime_has_ownership "network" name ref None in
  if negb owned then Ret (mkDestroyResourceResult KNetwork name OProtected None) else
  let* r := attempt (exec_docker (network_rm name)) in
  Ret (match r with
       | Ok _ => mkDestroyResourceResult KNetwork name ORemoved None
       | Err e => mkDestroyResourceResult KNetwork name OFailed (Some (exn_text e))
       end).

Definition remove_runtime (ref : InstanceRef) (absent_is_error : bool) : backend_prog (list DestroyResourceResult) :=
  lift (validate_ref ref) ;*
  let* existing := runtime_exists ref in
  if absent_is_error && negb (existsb snd existing) then
    Raise (BackendError InstanceNotFoundError ("no managed containers found for instance " +:+ repr_str (ir_instance ref)))
  else
  let* a := remove_container existing ref (ir_postgres_container ref) "postgres" in
  let* b := remove_container existing ref (ir_odoo_container ref) "odoo" in
  let* c := remove_network existing ref in
  Ret [a; b; c].

Definition stop (ref : InstanceRef) : backend_prog unit := remove_runtime ref true ;* Ret tt.

Definition pgdata_of (ref : InstanceRef) : string := ir_network ref +:+ "-pgdata".
Definition filestore_of (ref : InstanceRef) : string := ir_network ref +:+ "-filestore".
Definition protected_data (ref : InstanceRef) (failed : bool) : backend_prog (list DestroyResourceResult) :=
  map_each (fun name =>
    let* there := volume_exists name in
    Ret (if negb there then mkDestroyResourceResult KVolume name OAbsent None
         else if failed then mkDestroyResourceResult KVolume name OFailed (Some "runtime removal failed")
         else mkDestroyResourceResult KVolume name OProtected (Some "ownership proof unavailable")))
    [pgdata_of ref; filestore_of ref].

(** The outcome for the filestore volume. *)
Definition reclaim_filestore (filestore : string) (token : option string) : backend_prog DestroyOutcome :=
  match token with
  | None | Some "" => let* there := volume_exists filestore in Ret (if there : bool then OProtected else OAbsent)
  | Some t =>
    let* there := volume_exists filestore in
    if negb there then Ret OAbsent else
    let* labelled := volume_has_label filestore CREATE_TOKEN_LABEL t in
    if negb labelled then Ret OProtected else
    let* r := attempt (exec_docker (volume_rm filestore)) in
    Ret (match r with Ok _ => ORemoved | Err _ => OFailed end)
  end.
Definition reclaim_data (ref : InstanceRef) : backend_prog (list DestroyResourceResult) :=
  if negb (has_custody && has_database) then protected_data ref false else
  let* proof := catch (call (ConsumeCustody (ir_project ref) (ir_instance ref))) (fun e => Raise (custody_failure e)) in
  match proof with
  | None => protected_data ref false
  | Some (receipt, token) =>
    let pgdata := pgdata_of ref in
    let owned := cr_owned_resource_ids receipt in
    let* before := volume_exists pgdata in
    let* cleaned := attempt (call (CleanupDatabase receipt)) in
    let '(residuals, cleanup_failed) :=
      match cleaned with
      | Ok report => (residual_failures report, negb (bool_decide (residual_failures report = [])))
      | Err _ => (owned, true)
      end in
    let pg_outcome :=
      if bool_decide (pgdata ∈ owned) then
        if bool_decide (pgdata ∈ residuals) then OFailed else if before : bool then ORemoved else OAbsent
      else if before : bool then OProtected else OAbsent in
    let* fs_outcome := reclaim_filestore (filestore_of ref) token in
    let results := [mkDestroyResourceResult KVolume pgdata pg_outcome None;
                    mkDestroyResourceResult KVolume (filestore_of ref) fs_outcome None] in
    (if negb cleanup_failed && forallb (fun d => bool_decide (drr_outcome d ∈ [ORemoved; OAbsent])) results
     then catch (call (CompleteCustody (ir_project ref) (ir_instance ref) receipt token)) (fun e => Raise (custody_failure e))
     else Ret tt) ;*
    Ret results
  end.

Definition destroy (ref : InstanceRef) : backend_prog (list DestroyResourceResult) :=
  lift (validate_ref ref) ;*
  let* existing := runtime_exists ref in
  let* r := attempt (remove_runtime ref false) in
  match r with
  | Err e =>
    let failed := map (fun name =>
      mkDestroyResourceResult (if bool_decide (name = ir_network ref) then KNetwork else KContainer) name
        (if present existing name then OFailed else OAbsent)
        (if present existing name then Some (exn_text e) else None))
      [ir_postgres_container ref; ir_odoo_container ref; ir_network ref] in
    let* data := protected_data ref true in Ret (failed ++ data)
  | Ok runtime_results =>
    let* data :=
      if existsb (fun d => bool_decide (drr_outcome d = OFailed)) runtime_results then protected_data ref true
      else if existsb (fun d => bool_decide (drr_outcome d = OProtected)) runtime_results then protected_data ref false
      else reclaim_data ref in
    Ret (runtime_results ++ data)
  end.
End Provider.
