(* ===== verification/DockerBackendFacts.v ===== *)
(** * Properties of the local backend

    Every destructive Docker command of [run], [stop] and [destroy] is justified by answers
    received before it in the same call, and a failed [run] removes or names everything it
    had made. *)

From stdpp Require Import pretty.
From S2P Require Import Prelude Effects Regex Values Paths Schema Json Projection Backend Docker DockerBackend.

Abbreviation backend_history := (list (event backend_op exn)).

(** ** What justifies a destructive command *)

Definition destroys (argv : list string) : bool :=
  bool_decide (take 2 argv ∈ [["docker"; "rm"]; ["docker"; "stop"]]) ||
  bool_decide (take 3 argv ∈ [["docker"; "volume"; "rm"]; ["docker"; "network"; "rm"]]).
(** Commands that make a network, a volume or a detached container. *)
Definition creates (argv : list string) : bool :=
  bool_decide (take 3 argv ∈ [["docker"; "network"; "create"]; ["docker"; "volume"; "create"]; ["docker"; "run"; "-d"]]).
Definition touches (argv : list string) : bool := destroys argv || creates argv.
(** An operation that neither destroys a resource nor makes one known. *)
Definition calm (R : Type) (e : backend_op R) : Prop :=
  match e with DockerCli argv _ => touches argv = false | ProvisionDatabase _ _ | ReadCidFile _ => False | _ => True end.
Definition spares (R : Type) (e : backend_op R) : Prop :=
  match e with DockerCli argv _ => destroys argv = false | _ => True end.

(** The command ran and exited with status 0. *)
Definition ran (past : backend_history) (argv : list string) : Prop :=
  exists t stdout stderr, Event (DockerCli argv t) (Ok (0%Z, stdout, stderr)) ∈ past.
(** A live container or network carries the labels of the instance. *)
Definition owned_runtime (past : backend_history) (ref : InstanceRef) (kind name : string) (role : option string) : Prop :=
  exists t stdout stderr labels,
    Event (DockerCli (runtime_inspect kind name) t) (Ok (0%Z, stdout, stderr)) ∈ past /\
    runtime_labels kind stdout = Ok labels /\ carries (expected_labels ref role) labels = true.
(** A live volume carries the token. *)
Definition stamped (past : backend_history) (name token : string) : Prop :=
  exists t stdout stderr labels,
    Event (DockerCli (volume_inspect name) t) (Ok (0%Z, stdout, stderr)) ∈ past /\
    volume_labels stdout = Ok labels /\ jget CREATE_TOKEN_LABEL labels = Ok (JStr token).

(** The resource was made by this call. *)
Definition earned (past : backend_history) (r : created_resource) : Prop :=
  match r with
  | CNetwork name => exists spec, ns_name spec = name /\ ran past (network_create_argv spec)
  | CVolume name token =>
    Event Uuid4Hex (Ok token) ∈ past /\
    exists spec, vs_name spec = name /\ dget CREATE_TOKEN_LABEL (vs_labels spec) = Some token /\ ran past (volume_create_argv spec)
  | CContainer name =>
    (exists spec files, ctr_name spec = name /\ ran past (run_container_argv spec files)) \/
    (exists path text, Event (ReadCidFile path) (Ok text) ∈ past /\ strip text = name)
  | CDatabase _ => True
  end.

Definition justified_run (past : backend_history) (argv : list string) : Prop :=
  exists name,
    (argv = container_rm name /\ earned past (CContainer name)) \/
    (argv = network_rm name /\ earned past (CNetwork name)) \/
    (argv = volume_rm name /\ exists token, earned past (CVolume name token) /\ stamped past name token).
Definition justified_stop (ref : InstanceRef) (past : backend_history) (argv : list string) : Prop :=
  (exists name role, (name, role) ∈ [(ir_postgres_container ref, "postgres"); (ir_odoo_container ref, "odoo")] /\
     argv ∈ [container_stop name; container_rm name] /\ owned_runtime past ref "container" name (Some role)) \/
  (argv = network_rm (ir_network ref) /\ owned_runtime past ref "network" (ir_network ref) None).
Definition justified_destroy (ref : InstanceRef) (past : backend_history) (argv : list string) : Prop :=
  justified_stop ref past argv \/
  (argv = volume_rm (filestore_of ref) /\ exists receipt token,
     Event (ConsumeCustody (ir_project ref) (ir_instance ref)) (Ok (Some (receipt, Some token))) ∈ past /\
     stamped past (filestore_of ref) token).

Definition allowed_when (J : backend_history -> list string -> Prop) (past : backend_history) (R : Type) (e : backend_op R) : Prop :=
  match e with DockerCli argv _ => destroys argv = true -> J past argv | _ => True end.

(** ** What a call makes *)

(** Something the daemon or the database provider has made, as its answer tells. *)
Inductive thing : Type :=
| TNetwork (name : string)
| TVolume (name : string)
| TContainer (name : string)
| TDatabase (creation : DatabaseCreation).
Definition thing_text (t : thing) : string :=
  match t with
  | TNetwork n => "network=" +:+ n | TVolume n => "volume=" +:+ n | TContainer n => "container=" +:+ n
  | TDatabase c => "database=" +:+ db_identifier (dc_ref c)
  end.

(** What a creation command names. *)
Definition targets (argv : list string) (t : thing) : Prop :=
  match t with
  | TNetwork n => exists flags, argv = ["docker"; "network"; "create"] ++ flags ++ [n]
  | TVolume n => exists flags, argv = ["docker"; "volume"; "create"] ++ flags ++ [n]
  | TContainer n => exists rest, argv = ["docker"; "run"; "-d"; "--name"; n] ++ rest
  | TDatabase _ => False
  end.
(** The answer makes [t] known: a creation command exited with status 0, the database was
    provisioned, or Docker's container id was read. *)
Definition makes (ev : event backend_op exn) (t : thing) : Prop :=
  match ev with
  | Event e r =>
    match e in backend_op R return result exn R -> Prop with
    | DockerCli argv _ => fun r => (exists stdout stderr, r = Ok (0%Z, stdout, stderr)) /\ targets argv t
    | ProvisionDatabase _ _ => fun r => match t with TDatabase c => r = Ok c | _ => False end
    | ReadCidFile _ => fun r => match t with TContainer n => exists text, r = Ok text /\ strip text = n /\ n <> "" | _ => False end
    | _ => fun _ => False
    end r
  end.
(** Its removal succeeded. *)
Definition removed (tr : backend_history) (t : thing) : Prop :=
  match t with
  | TNetwork n => ran tr (network_rm n)
  | TVolume n => ran tr (volume_rm n)
  | TContainer n => ran tr (container_rm n)
  | TDatabase c => exists report, Event (CleanupDatabase (dc_receipt c)) (Ok report) ∈ tr /\ residual_failures report = []
  end.

(** The entry [r] of the ledger stands for [t]. *)
Definition names (db : option DatabaseCreation) (r : created_resource) (t : thing) : Prop :=
  match r, t with
  | CNetwork n, TNetwork m | CVolume n _, TVolume m | CContainer n, TContainer m => n = m
  | CDatabase i, TDatabase c => i = db_identifier (dc_ref c) /\ db = Some c
  | _, _ => False
  end.
Definition lists (s : ledger) (t : thing) : Prop := exists r, r ∈ lg_created s /\ names (lg_db s) r t.
(** The directory of the secret files is removed ignoring every error. *)
Definition undisturbed (tr : backend_history) : Prop := forall e, Event CloseSecretFiles (Err e) ∉ tr.
(** Whatever was made is in the ledger, unless it was removed since. *)
Definition complete (past : backend_history) (s : ledger) : Prop :=
  forall before ev after t, past = before ++ ev :: after -> makes ev t -> lists s t \/ removed after t.

(** ** Histories only grow *)

Lemma ran_grows past new argv : ran past argv -> ran (past ++ new) argv.
Proof. intros (t & o & e & H). exists t, o, e. rewrite elem_of_app. by left. Qed.

Lemma earned_grows past new r : earned past r -> earned (past ++ new) r.
Proof.
  destruct r; cbn; [| | |done].
  - intros (spec & ? & ?%(ran_grows _ new)). eauto.
  - intros (Hu & spec & ? & ? & ?%(ran_grows _ new)). split; [rewrite elem_of_app; by left|eauto].
  - intros [(spec & files & ? & ?%(ran_grows _ new))|(path & text & ? & ?)]; [eauto 10|].
    right. exists path, text. rewrite elem_of_app. auto.
Qed.

(** ** The subprocess boundary *)

Section Facts.
Variables (docker_timeout health_wait_timeout health_poll_interval : Z) (has_database has_custody : bool).
Variable other_text : exn -> string.
Variable fuel : nat.

Abbreviation run_raw := (run_raw docker_timeout other_text).
Abbreviation run_raw_for := (run_raw_for other_text).
Abbreviation exec_docker := (exec_docker docker_timeout other_text).

Lemma run_raw_for_Ok t argv tr r : runs (run_raw_for t argv) tr (Ok r) -> tr = [Event (DockerCli argv t) (Ok r)].
Proof.
  unfold DockerBackend.run_raw_for. intros H.
  apply runs_catch in H as [(a & [= <-] & H)|(? & ? & x & _ & _ & H)]; [by apply runs_call in H|].
  destruct (is_missing x); [by apply runs_Raise in H as [_ [=]]|].
  destruct (is_expired x); by apply runs_Raise in H as [_ [=]].
Qed.

Lemma exec_docker_Ok argv tr out : runs (exec_docker argv) tr (Ok out) -> ran tr argv.
Proof.
  unfold DockerBackend.exec_docker. intros H. apply runs_bind in H as [(tr1 & tr2 & [[rc stdout] stderr] & -> & H1 & H2)|(? & [=] & _)].
  apply run_raw_for_Ok in H1 as ->. destruct (Z.eqb_spec rc 0) as [Hrc|Hrc].
  - subst rc. exists docker_timeout, stdout, stderr. rewrite elem_of_app. left. by left.
  - cbv zeta in H2. destruct (mentions _ _); [by apply runs_Raise in H2 as [_ [=]]|].
    destruct (mentions _ _); by apply runs_Raise in H2 as [_ [=]].
Qed.

Lemma only_run_raw_for (f : forall R, backend_op R -> Prop) t argv : f _ (DockerCli argv t) -> only f (run_raw_for t argv).
Proof. intros H. unfold DockerBackend.run_raw_for. solve_only. Qed.
Lemma only_run_raw (f : forall R, backend_op R -> Prop) argv : f _ (DockerCli argv docker_timeout) -> only f (run_raw argv).
Proof. apply only_run_raw_for. Qed.
Hint Extern 1 (only calm (DockerBackend.run_raw _ _ _)) => (apply only_run_raw; reflexivity) : only.
Hint Extern 1 (only calm (DockerBackend.run_raw_for _ _ _)) => (apply only_run_raw_for; reflexivity) : only.

Lemma only_exec_docker (f : forall R, backend_op R -> Prop) argv : f _ (DockerCli argv docker_timeout) -> only f (exec_docker argv).
Proof. intros H. unfold DockerBackend.exec_docker. solve_only. by apply only_run_raw. Qed.
Hint Extern 1 (only calm (DockerBackend.exec_docker _ _ _)) => (apply only_exec_docker; reflexivity) : only.

Lemma only_exists argv : touches argv = false -> only calm (exists_ docker_timeout other_text argv).
Proof. intros H. unfold exists_. solve_only. by apply only_run_raw. Qed.
Hint Extern 1 (only calm (exists_ _ _ _)) => (apply only_exists; reflexivity) : only.
Hint Extern 1 (only calm (container_exists _ _ _)) => (apply only_exists; reflexivity) : only.
Hint Extern 1 (only calm (network_exists _ _ _)) => (apply only_exists; reflexivity) : only.
Hint Extern 1 (only calm (volume_exists _ _ _)) => (apply only_exists; reflexivity) : only.

Abbreviation volume_has_label := (volume_has_label docker_timeout other_text).
Lemma only_volume_has_label name key value : only calm (volume_has_label name key value).
Proof. unfold DockerBackend.volume_has_label. solve_only. Qed.
Hint Resolve only_volume_has_label : only.

Lemma volume_has_label_true name token tr :
  runs (volume_has_label name CREATE_TOKEN_LABEL token) tr (Ok true) -> stamped tr name token.
Proof.
  unfold DockerBackend.volume_has_label. intros H.
  apply runs_bind in H as [(tr1 & tr2 & [[rc stdout] stderr] & -> & H1 & H2)|(? & [=] & _)].
  apply run_raw_for_Ok in H1 as ->. destruct (Z.eqb_spec rc 0) as [Hrc|Hrc]; [|by apply runs_Ret in H2 as [_ [=]]].
  subst rc. cbn [negb] in H2. destruct (volume_labels stdout) as [labels|e] eqn:El.
  - apply runs_bind in H2 as [(tr3 & tr4 & v & -> & H3 & H4)|(? & [=] & _)].
    apply runs_lift in H3 as [-> H3]. apply runs_Ret in H4 as [-> H4].
    injection H4 as H4. symmetry in H4. apply bool_decide_eq_true in H4 as ->.
    exists docker_timeout, stdout, stderr, labels. rewrite elem_of_app. split_and!; [left; by left|done|done].
  - destruct (is_shape_error e); [by apply runs_Ret in H2 as [_ [=]]|by apply runs_Raise in H2 as [_ [=]]].
Qed.

Abbreviation runtime_has_ownership := (runtime_has_ownership docker_timeout other_text).
Lemma only_runtime_has_ownership kind name ref role : only calm (runtime_has_ownership kind name ref role).
Proof. unfold DockerBackend.runtime_has_ownership. solve_only. apply only_run_raw. unfold runtime_inspect. by case_match. Qed.
Hint Resolve only_runtime_has_ownership : only.

Lemma runtime_has_ownership_true kind name ref role tr :
  runs (runtime_has_ownership kind name ref role) tr (Ok true) -> owned_runtime tr ref kind name role.
Proof.
  unfold DockerBackend.runtime_has_ownership. intros H.
  apply runs_bind in H as [(tr1 & tr2 & [[rc stdout] stderr] & -> & H1 & H2)|(? & [=] & _)].
  apply run_raw_for_Ok in H1 as ->. destruct (runtime_labels kind stdout) as [labels|e] eqn:El.
  - apply runs_Ret in H2 as [-> H2]. injection H2 as H2. symmetry in H2. apply andb_true_iff in H2 as [Hrc Hc].
    apply Z.eqb_eq in Hrc as ->. exists docker_timeout, stdout, stderr, labels. rewrite elem_of_app. split_and!; [left; by left|done|done].
  - destruct (is_shape_error e); [by apply runs_Ret in H2 as [_ [=]]|by apply runs_Raise in H2 as [_ [=]]].
Qed.

(** ** Guarded pieces *)

Section Guarded.
Variable J : backend_history -> list string -> Prop.
Abbreviation guarded := (guarded (allowed_when J)).

Lemma guarded_spares {A : Type} past (p : backend_prog A) (Q : backend_history -> result exn A -> Prop) :
  only spares p -> (forall new r, runs p new r -> Q (past ++ new) r) -> guarded past p Q.
Proof using. apply guarded_only. intros h R e. destruct e; try done. cbn. by intros ->. Qed.
Lemma guarded_calm {A : Type} past (p : backend_prog A) (Q : backend_history -> result exn A -> Prop) :
  only calm p -> (forall new r, runs p new r -> Q (past ++ new) r) -> guarded past p Q.
Proof using.
  apply guarded_only. intros h R e. destruct e; try done. cbn. unfold touches. by intros [-> _]%orb_false_iff.
Qed.

Lemma guarded_run_raw past argv (Q : backend_history -> result exn (Z * string * string) -> Prop) :
  J past argv -> (forall new r, runs (run_raw argv) new r -> Q (past ++ new) r) -> guarded past (run_raw argv) Q.
Proof.
  intros HJ. apply guarded_through. apply guarded_catch, guarded_call; [by intros ?|]. intros [r|x]; [done|]. by repeat case_match.
Qed.

Lemma guarded_exec past argv (Q : backend_history -> result exn string -> Prop) :
  J past argv -> (forall new r, runs (exec_docker argv) new r -> Q (past ++ new) r) -> guarded past (exec_docker argv) Q.
Proof.
  intros HJ. apply guarded_through. apply guarded_bind, guarded_run_raw; [done|]. intros new [[[rc out] err]|x] _; [|done].
  cbv zeta. destruct (rc =? 0)%Z; [done|]. by repeat case_match.
Qed.
End Guarded.

(** ** [stop] and [destroy] *)

Section Stopping.
Variables (J : backend_history -> list string -> Prop) (ref : InstanceRef).
Hypothesis J_stop : forall past argv, justified_stop ref past argv -> J past argv.
Abbreviation guarded := (guarded (allowed_when J)).

Lemma owned_runtime_grows past new kind name role : owned_runtime past ref kind name role -> owned_runtime (past ++ new) ref kind name role.
Proof. intros (t & o & e & l & H & ?). exists t, o, e, l. rewrite elem_of_app. auto. Qed.
Lemma owned_runtime_grows_l past new kind name role : owned_runtime new ref kind name role -> owned_runtime (past ++ new) ref kind name role.
Proof. intros (t & o & e & l & H & ?). exists t, o, e, l. rewrite elem_of_app. auto. Qed.

Lemma guarded_remove_container past existing name role :
  (name, role) ∈ [(ir_postgres_container ref, "postgres"); (ir_odoo_container ref, "odoo")] ->
  guarded past (remove_container docker_timeout other_text existing ref name role) (fun _ _ => True).
Proof using J_stop.
  intros Hrole. unfold remove_container. case_match; [done|].
  apply guarded_bind, guarded_calm; [apply only_runtime_has_ownership|]. intros new [[]|e] Ho; [|done..]. cbn [negb].
  apply runtime_has_ownership_true, (owned_runtime_grows_l past) in Ho.
  apply guarded_bind, guarded_attempt, guarded_bind, guarded_exec; [apply J_stop; left|].
  - exists name, role. split_and!; [done| |done]. by left.
  - intros new2 [out|e] _; [|done]. apply guarded_exec; [apply J_stop; left|done].
    exists name, role. split_and!; [done| |by apply owned_runtime_grows]. right; by left.
Qed.

Lemma guarded_remove_network past existing :
  guarded past (remove_network docker_timeout other_text existing ref) (fun _ _ => True).
Proof using J_stop.
  unfold remove_network. cbv zeta. case_match; [done|].
  apply guarded_bind, guarded_calm; [apply only_runtime_has_ownership|]. intros new [[]|e] Ho; [|done..]. cbn [negb].
  apply guarded_bind, guarded_attempt, guarded_exec; [apply J_stop; right|done]. split; [done|].
  by apply owned_runtime_grows_l, runtime_has_ownership_true.
Qed.

Lemma guarded_ignore {A : Type} past (p : backend_prog A) (Q : backend_history -> result exn A -> Prop) :
  (forall h r, Q h r) -> guarded past p (fun _ _ => True) -> guarded past p Q.
Proof using. intros HQ. apply guarded_mono. auto. Qed.

Lemma only_runtime_exists : only calm (runtime_exists docker_timeout other_text ref).
Proof using. unfold runtime_exists. solve_only. Qed.
Hint Resolve only_runtime_exists : only.

Lemma guarded_remove_runtime past absent_is_error :
  guarded past (remove_runtime docker_timeout other_text ref absent_is_error) (fun _ _ => True).
Proof using J_stop.
  unfold remove_runtime. apply guarded_bind, guarded_lift. destruct (validate_ref ref) as [[]|]; [|done].
  apply guarded_bind, guarded_calm; [apply only_runtime_exists|]. intros new [existing|e] _; [|done]. case_match; [done|].
  apply guarded_bind. eapply guarded_mono; [|apply guarded_remove_container; by left]. intros new2 [a|] _; [|done].
  apply guarded_bind. eapply guarded_mono; [|apply guarded_remove_container; right; by left]. intros new3 [b|] _; [|done].
  apply guarded_bind. eapply guarded_mono; [|apply guarded_remove_network]. by intros new4 [c|] _.
Qed.
End Stopping.
Hint Resolve only_runtime_exists : only.

Lemma only_protected_data ref failed : only calm (protected_data docker_timeout other_text ref failed).
Proof. unfold protected_data. apply only_map_each. intros name _. solve_only. Qed.
Hint Resolve only_protected_data : only.

Lemma stamped_grows_l past new name token : stamped new name token -> stamped (past ++ new) name token.
Proof. intros (t & o & e & l & H & ?). exists t, o, e, l. rewrite elem_of_app. auto. Qed.

Lemma guarded_reclaim_filestore past ref receipt token :
  Event (ConsumeCustody (ir_project ref) (ir_instance ref)) (Ok (Some (receipt, token))) ∈ past ->
  guarded (allowed_when (justified_destroy ref)) past
    (reclaim_filestore docker_timeout other_text (filestore_of ref) token) (fun _ _ => True).
Proof.
  intros Hev. unfold reclaim_filestore. destruct token as [[|c t]|]; [apply guarded_calm; [solve_only|done]| |apply guarded_calm; [solve_only|done]].
  apply guarded_bind, guarded_calm; [by apply only_exists|]. intros new [[]|e] _; [|done..]. cbn [negb].
  apply guarded_bind, guarded_calm; [apply only_volume_has_label|]. intros new2 [[]|e] Hl; [|done..]. cbn [negb].
  apply guarded_bind, guarded_attempt, guarded_exec; [|done]. right. split; [done|]. exists receipt, (String c t).
  split; [rewrite !elem_of_app; tauto|]. by apply stamped_grows_l, volume_has_label_true.
Qed.

Lemma guarded_reclaim_data past ref :
  guarded (allowed_when (justified_destroy ref)) past
    (reclaim_data docker_timeout has_database has_custody other_text ref) (fun _ _ => True).
Proof.
  unfold reclaim_data. case_match; [apply guarded_calm; [apply only_protected_data|done]|].
  apply guarded_bind, guarded_calm; [solve_only|]. intros new [[[receipt token]|]|e] Hproof; [| |done];
    [|apply guarded_calm; [apply only_protected_data|done]].
  assert (Hev : Event (ConsumeCustody (ir_project ref) (ir_instance ref)) (Ok (Some (receipt, token))) ∈ past ++ new).
  { apply runs_catch in Hproof as [(a & Ha & Hc)|(? & ? & x & _ & _ & Hc)]; [|by apply runs_Raise in Hc as [_ [=]]].
    injection Ha as <-. apply runs_call in Hc as ->. rewrite elem_of_app. right. by left. }
  cbv zeta. apply guarded_bind, guarded_calm; [by apply only_exists|]. intros new2 [before|e] _; [|done].
  apply guarded_bind, guarded_attempt, guarded_call; [done|]. intros cleaned. destruct (match cleaned with Ok _ => _ | Err _ => _ end) as [rs bad].
  apply guarded_bind. eapply guarded_mono; [|apply (guarded_reclaim_filestore _ ref receipt); rewrite elem_of_app; left; rewrite elem_of_app; by left].
  intros new3 [fs|e] _; [|done]. apply guarded_calm; [solve_only|done].
Qed.

Lemma guarded_destroy past ref :
  guarded (allowed_when (justified_destroy ref)) past
    (destroy docker_timeout has_database has_custody other_text ref) (fun _ _ => True).
Proof.
  unfold destroy. apply guarded_bind, guarded_lift. destruct (validate_ref ref) as [[]|]; [|done].
  apply guarded_bind, guarded_calm; [apply only_runtime_exists|]. intros new [existing|e] _; [|done].
  apply guarded_bind, guarded_attempt. eapply guarded_mono; [|apply (guarded_remove_runtime _ ref); by left].
  intros new2 [results|e] _.
  - apply guarded_bind. assert (forall h (r : result exn (list DestroyResourceResult)), match r with
      | Ok a => guarded (allowed_when (justified_destroy ref)) h (Ret (results ++ a) : backend_prog _) (fun _ _ => True)
      | Err x => True end) as Hend by (by intros h []).
    repeat case_match; [apply guarded_calm; [apply only_protected_data|intros; apply Hend]..|].
    eapply guarded_mono; [|apply guarded_reclaim_data]. intros; apply Hend.
  - cbv zeta. apply guarded_calm; [solve_only|done].
Qed.

(** ** [run] *)

Abbreviation guarded_run := (guarded (allowed_when justified_run)).

(** A step of the construction, from the ledger [s]. *)
Definition builds {A : Type} (past : backend_history) (s : ledger) (m : building A)
    (Q : backend_history -> result exn A -> ledger -> Prop) : Prop :=
  guarded_run past (m s) (fun past' o => match o with Ok (r, s') => Q past' r s' | Err _ => False end).
(** What the ledger lists was made by this call, and what this call made is listed or gone. *)
Definition sound (db : option DatabaseCreation) (past : backend_history) (s : ledger) : Prop :=
  Forall (earned past) (lg_created s) /\ lg_db s = db /\ (undisturbed past -> complete past s).
Definition stays_sound (db : option DatabaseCreation) {A : Type} (past : backend_history) (r : result exn A) (s : ledger) : Prop :=
  sound db past s.

Lemma calm_makes_nothing new ev t : Forall (event_sat calm) new -> ev ∈ new -> ~ makes ev t.
Proof using.
  rewrite Forall_forall. intros Hc Hin. specialize (Hc _ Hin). clear Hin. destruct ev as [R e r].
  destruct e; cbn in *; try done; try tauto. intros [_ Ht]. unfold touches in Hc. apply orb_false_iff in Hc as [_ Hc].
  apply bool_decide_eq_false in Hc. apply Hc. destruct t; cbn in Ht; [destruct Ht as [rest ->]; cbn; set_solver..|done].
Qed.
Lemma removed_app tr new t : removed tr t -> removed (tr ++ new) t.
Proof using.
  destruct t; cbn; [apply ran_grows..|]. intros (report & ? & ?). exists report. rewrite elem_of_app. auto.
Qed.

Lemma removed_app_l tr new t : removed new t -> removed (tr ++ new) t.
Proof using.
  destruct t; cbn; try (intros (a & b & c & H); exists a, b, c; rewrite elem_of_app; by right).
  intros (report & ? & ?). exists report. rewrite elem_of_app. auto.
Qed.

(** New events: what they make is listed, and the entries that leave the ledger were removed. *)
Lemma complete_step past new s s' :
  (forall before ev after t, new = before ++ ev :: after -> makes ev t -> lists s' t \/ removed after t) ->
  (forall t, lists s t -> lists s' t \/ removed new t) -> complete past s -> complete (past ++ new) s'.
Proof using.
  intros Hnew Hold Hc before ev after t Heq Hm. apply app_eq_app in Heq as (l & [[-> Heq]|[-> Heq]]).
  - destruct l as [|x l]; cbn in Heq.
    + by apply (Hnew [] ev after t).
    + injection Heq as <- ->. destruct (Hc before ev l t eq_refl Hm) as [Hl|Hr]; [|right; by apply removed_app].
      destruct (Hold t Hl) as [H|H]; [by left|right; by apply removed_app_l].
  - by apply (Hnew l ev after t).
Qed.
Lemma undisturbed_app past new : undisturbed (past ++ new) -> undisturbed past /\ undisturbed new.
Proof using. intros H. split; intros e He; apply (H e), elem_of_app; auto. Qed.

Lemma sound_step db db' past new s s' :
  sound db past s -> Forall (earned (past ++ new)) (lg_created s') -> lg_db s' = db' ->
  (undisturbed new -> forall before ev after t, new = before ++ ev :: after -> makes ev t -> lists s' t \/ removed after t) ->
  (forall t, lists s t -> lists s' t \/ removed new t) -> sound db' (past ++ new) s'.
Proof using.
  intros (Hs & _ & Hc) He Hdb Hnew Hold. split_and!; [done..|]. intros [Hp Hn]%undisturbed_app. eapply complete_step; eauto.
Qed.
Lemma sound_calm db past new s : Forall (event_sat calm) new -> sound db past s -> sound db (past ++ new) s.
Proof using.
  intros Hc Hs. eapply sound_step; [exact Hs| |apply Hs| |auto].
  - eapply Forall_impl; [apply Hs|]. intros r. apply earned_grows.
  - intros _ before ev after t -> Hm. destruct (calm_makes_nothing _ ev t Hc); [|done]. rewrite elem_of_app. right. by left.
Qed.
Lemma sound_push db past new s r :
  sound db past s -> earned (past ++ new) r ->
  (undisturbed new -> forall ev t, ev ∈ new -> makes ev t -> names db r t) ->
  sound db (past ++ new) (mkLedger (lg_created s ++ [r]) (lg_db s)).
Proof using.
  intros Hs Hr Hm. eapply sound_step; [exact Hs| |apply Hs| |].
  - apply Forall_app. split; [|by apply Forall_singleton]. eapply Forall_impl; [apply Hs|]. intros x. apply earned_grows.
  - intros Hu before ev after t -> Hev. left. exists r. cbn. split; [rewrite elem_of_app; right; by left|].
    destruct Hs as (_ & -> & _). apply (Hm Hu ev t); [|done]. rewrite elem_of_app. right. by left.
  - intros t (x & Hx & Hn). left. exists x. cbn. rewrite elem_of_app. auto.
Qed.

Lemma builds_bind {A B : Type} past s (m : building A) (k : A -> building B) Q :
  builds past s m (fun past' r s' => match r with Ok a => builds past' s' (k a) Q | Err e => Q past' (Err e) s' end) ->
  builds past s (b_bind m k) Q.
Proof using.
  intros H. unfold builds, b_bind. apply guarded_bind. eapply guarded_mono; [|exact H].
  intros new [[[a|e] s']|x]; [done|intros HQ; exact HQ|done].
Qed.

Lemma builds_mono {A : Type} past s (m : building A) (Q Q' : backend_history -> result exn A -> ledger -> Prop) :
  (forall new r s', Q (past ++ new) r s' -> Q' (past ++ new) r s') -> builds past s m Q -> builds past s m Q'.
Proof using. intros H. apply guarded_mono. intros new [[r s']|x]; [apply H|done]. Qed.

Lemma builds_step {A : Type} past s (p : backend_prog A) (Q : backend_history -> result exn A -> ledger -> Prop) :
  guarded_run past p (fun past' r => Q past' r s) -> builds past s (b_step p) Q.
Proof using. intros H. unfold builds, b_step. apply guarded_bind, guarded_attempt. exact H. Qed.

(** A calm step keeps the ledger sound. *)
Lemma builds_calm {A : Type} db past s (p : backend_prog A) (Q : backend_history -> result exn A -> ledger -> Prop) :
  only calm p -> sound db past s -> (forall new r, runs p new r -> sound db (past ++ new) s -> Q (past ++ new) r s) ->
  builds past s (b_step p) Q.
Proof using.
  intros Hp Hs HQ. apply builds_step, guarded_calm; [done|]. intros new r Hr. apply HQ; [done|].
  apply sound_calm; [|done]. by eapply only_runs.
Qed.

Lemma builds_push past s r (Q : backend_history -> result exn unit -> ledger -> Prop) :
  Q past (Ok tt) (mkLedger (lg_created s ++ [r]) (lg_db s)) -> builds past s (b_push r) Q.
Proof using. done. Qed.

(** A creation, to be followed by the append to [created]. *)
Lemma builds_creation {A : Type} db past s (p : backend_prog A) (r : created_resource) :
  sound db past s -> only spares p ->
  (forall new a, runs p new (Ok a) -> earned (past ++ new) r) ->
  (forall new o, runs p new o -> undisturbed new -> forall ev t, ev ∈ new -> makes ev t -> (exists a, o = Ok a) /\ names db r t) ->
  builds past s (b_step p) (fun past' o s' =>
    match o with Ok _ => sound db past' (mkLedger (lg_created s' ++ [r]) (lg_db s')) | Err _ => sound db past' s' end).
Proof using.
  intros Hs Hp He Hm. apply builds_step, guarded_spares; [done|]. intros new [a|e] Hr.
  - eapply sound_push; [done|by eapply He|]. intros Hu ev t Hin Hev. by eapply Hm.
  - eapply sound_step; [exact Hs| |apply Hs| |auto].
    + eapply Forall_impl; [apply Hs|]. intros x. apply earned_grows.
    + intros Hu before ev after t -> Hev. destruct (Hm _ _ Hr Hu ev t) as [[a [=]] _]; [|done]. rewrite elem_of_app. right. by left.
Qed.
Lemma builds_create {A : Type} db past s (p : backend_prog A) (r : created_resource) :
  sound db past s -> only spares p ->
  (forall new a, runs p new (Ok a) -> earned (past ++ new) r) ->
  (forall new o, runs p new o -> undisturbed new -> forall ev t, ev ∈ new -> makes ev t -> (exists a, o = Ok a) /\ names db r t) ->
  builds past s (b_step p ;+ b_push r) (stays_sound db).
Proof using.
  intros Hs Hp He Hm. apply builds_bind. eapply builds_mono; [|by eapply builds_creation]. intros new [a|e] s' H; [by apply builds_push|exact H].
Qed.

Lemma exec_docker_runs argv tr o :
  runs (exec_docker argv) tr o ->
  exists x, tr = [Event (DockerCli argv docker_timeout) x] /\ forall stdout stderr, x = Ok (0%Z, stdout, stderr) -> o = Ok stdout.
Proof.
  unfold DockerBackend.exec_docker. intros H. apply runs_bind in H as [(tr1 & tr2 & [[rc stdout] stderr] & -> & H1 & H2)|(x & -> & H)].
  - apply run_raw_for_Ok in H1 as ->. exists (Ok (rc, stdout, stderr)). destruct (Z.eqb_spec rc 0) as [->|Hrc].
    + apply runs_Ret in H2 as [-> ->]. split; [done|]. by intros ? ? [= -> ->].
    + assert (tr2 = []) as ->; [|split; [done|by intros ? ? [= ? _ _]]].
      cbv zeta in H2. destruct (mentions _ _); [by apply runs_Raise in H2 as [-> _]|].
      destruct (mentions _ _); by apply runs_Raise in H2 as [-> _].
  - unfold DockerBackend.run_raw, DockerBackend.run_raw_for in H. apply runs_catch in H as [(? & [=] & _)|(t1 & t2 & y & -> & H1 & H2)].
    apply runs_call in H1 as ->. exists (Err y). assert (t2 = []) as ->; [|done].
    destruct (is_missing y); [by apply runs_Raise in H2 as [-> _]|]. destruct (is_expired y); by apply runs_Raise in H2 as [-> _].
Qed.
Lemma exec_docker_makes argv tr o ev t :
  runs (exec_docker argv) tr o -> ev ∈ tr -> makes ev t -> (exists stdout, o = Ok stdout) /\ targets argv t.
Proof.
  intros (x & -> & Hx)%exec_docker_runs ->%list_elem_of_singleton [(stdout & stderr & ->) Ht]. eauto.
Qed.

(** *** Networks, volumes and the container *)

Lemma builds_ensure_network db past s spec : sound db past s -> builds past s (ensure_network docker_timeout other_text spec) (stays_sound db).
Proof.
  intros Hs. unfold ensure_network. apply builds_bind, (builds_calm db); [by apply only_exists|done|]. clear Hs.
  intros new [[]|e] _ Hs; [exact Hs| |exact Hs]. apply builds_create; [done|by apply only_exec_docker| |].
  - intros new2 out (t & o & e & H)%exec_docker_Ok. exists spec. split; [done|]. exists t, o, e. rewrite elem_of_app. by right.
  - intros new2 o Hr _ ev t Hin Hm. destruct (exec_docker_makes _ _ _ _ _ Hr Hin Hm) as [? Ht]. split; [done|].
    destruct t as [n|n|n|c]; cbn in *; try (destruct Ht as [? [=]]); [|done].
    match goal with H : _ |- _ => by apply app_inj_tail in H as [_ ->] end.
Qed.

Lemma dget_dset_same k v (d : list (string * string)) : dget k (dset k v d) = Some v.
Proof using. induction d as [|[k' v'] d IH]; cbn; [by rewrite decide_True|]. destruct (decide (k = k')); cbn; [by rewrite decide_True|by rewrite decide_False]. Qed.

Lemma builds_ensure_volume db past s spec : sound db past s -> builds past s (ensure_volume docker_timeout other_text spec) (stays_sound db).
Proof.
  intros Hs. unfold ensure_volume. apply builds_bind, (builds_calm db); [by apply only_exists|done|]. clear Hs.
  intros new [[]|e] _ Hs; [exact Hs| |exact Hs].
  apply builds_bind, (builds_calm db); [solve_only|done|]. clear Hs. intros new2 [token|e] Htok Hs; [|exact Hs].
  apply runs_call in Htok as ->. apply builds_bind. eapply builds_mono; [|apply (builds_creation db) with (r := CVolume (vs_name spec) token)].
  - clear Hs. intros new3 [out|e] s' Hs; [|exact Hs]. apply builds_bind, builds_push, builds_bind, (builds_calm db); [apply only_volume_has_label|done|].
    clear Hs. intros new4 [[]|e] _ Hs; exact Hs.
  - done.
  - by apply only_exec_docker.
  - intros new3 out (t & o & e & H)%exec_docker_Ok. split; [rewrite !elem_of_app; left; right; by left|].
    eexists; split_and!; [| |exists t, o, e; rewrite elem_of_app; right; exact H]; [done|]. apply dget_dset_same.
  - intros new3 o Hr _ ev t Hin Hm. destruct (exec_docker_makes _ _ _ _ _ Hr Hin Hm) as [? Ht]. split; [done|].
    destruct t as [n|n|n|c]; cbn in *; try (destruct Ht as [? [=]]); [|done].
    match goal with H : _ |- _ => by apply app_inj_tail in H as [_ ->] end.
Qed.

Lemma builds_ensure_volumes db past s pgdata volumes :
  sound db past s -> builds past s (ensure_volumes docker_timeout other_text pgdata volumes) (stays_sound db).
Proof.
  revert past s. induction volumes as [|v vs IH]; intros past s Hs; [exact Hs|]. cbn [ensure_volumes].
  apply builds_bind, (builds_calm db); [solve_only|done|]. clear Hs. intros new [name|e] _ Hs; [|exact Hs].
  apply builds_bind. case_match; [by apply IH|]. apply builds_bind.
  eapply builds_mono; [|by apply builds_ensure_volume]. intros new2 [b|e] s2 Hs2; [by apply IH|exact Hs2].
Qed.

Lemma only_with_secrets {A : Type} (f : forall R, backend_op R -> Prop) spec (p : option (list (string * string)) -> backend_prog A) :
  f _ (OpenSecretFiles spec) -> f _ CloseSecretFiles -> (forall files, only f (p files)) -> only f (with_secrets spec p).
Proof using. intros Ho Hc H. unfold with_secrets. solve_only; apply H. Qed.

(** The block of secret files performs its body between its own operations, and only the
    removal of the files could replace the outcome of the body. *)
Lemma with_secrets_runs {A : Type} spec (p : option (list (string * string)) -> backend_prog A) tr o :
  runs (with_secrets spec p) tr o ->
  (Forall (event_sat calm) tr /\ exists e, o = Err e) \/
  exists files tr1 tr2 tr3 o', tr = tr1 ++ tr2 ++ tr3 /\ runs (p files) tr2 o' /\ Forall (event_sat calm) tr1 /\ Forall (event_sat calm) tr3 /\
    (o = o' \/ exists e, Event CloseSecretFiles (Err e) ∈ tr /\ o = Err e).
Proof using.
  unfold with_secrets. intros H. destruct (ctr_secret_env spec) as [|kv d].
  { right. exists None, [], tr, [], o. rewrite app_nil_r. split_and!; [done..|by left]. }
  apply runs_bind_call in H as ([files|x] & tr' & -> & H); [|destruct H as [-> ->]; left; split; [by constructor|eauto]].
  right. apply runs_bind in H as [(tr3 & tr4 & r & -> & H3 & H4)|(x & -> & H)]; [|by apply runs_attempt in H as (? & [=] & _)].
  apply runs_attempt in H3 as (r' & [= ->] & H3). exists (Some files), [Event (OpenSecretFiles spec) (Ok files)], tr3, tr4, r'.
  apply runs_bind_call in H4 as ([[]|x] & tr' & -> & H4).
  - apply runs_lift in H4 as [-> ->]. split_and!; [done|done|by constructor|by constructor|by left].
  - destruct H4 as [-> ->]. split_and!; [done|done|by constructor|by constructor|]. right. exists x. split; [|done].
    rewrite elem_of_cons, elem_of_app. right; right. by left.
Qed.

Lemma builds_run_container db past s spec : sound db past s -> builds past s (run_container docker_timeout other_text spec) (stays_sound db).
Proof.
  intros Hs. unfold run_container. apply builds_create; [done|apply only_with_secrets; [done..|intros files; by apply only_exec_docker]| |].
  - intros new out [[_ [e [=]]]|(files & tr1 & tr2 & tr3 & o' & -> & Hr & _ & _ & [<-|(e & _ & [=])])]%with_secrets_runs. left.
    exists spec, files. split; [done|]. apply exec_docker_Ok in Hr as (t & o & e & H). exists t, o, e. rewrite !elem_of_app. auto.
  - intros new o [[Hc _]|(files & tr1 & tr2 & tr3 & o' & -> & Hr & Hc1 & Hc3 & Ho)]%with_secrets_runs Hu ev t Hin Hm;
      [by destruct (calm_makes_nothing _ _ _ Hc Hin Hm)|].
    rewrite !elem_of_app in Hin. destruct Hin as [Hin|[Hin|Hin]];
      [by destruct (calm_makes_nothing _ _ _ Hc1 Hin Hm)| |by destruct (calm_makes_nothing _ _ _ Hc3 Hin Hm)].
    destruct (exec_docker_makes _ _ _ _ _ Hr Hin Hm) as [Ho' Ht]. split.
    + destruct Ho as [->|(e & He & _)]; [exact Ho'|by destruct (Hu e)].
    + destruct t as [n|n|n|c]; cbn in *; [destruct Ht as [? [=]]..|done]. done.
Qed.

(** *** The bootstrap container *)

(** Sound, and after a success the newest entry is a container. *)
Definition marked (db : option DatabaseCreation) {A : Type} (past : backend_history) (r : result exn A) (s : ledger) : Prop :=
  sound db past s /\ forall a, r = Ok a -> exists id, last (lg_created s) = Some (CContainer id).

Lemma marked_Err {A : Type} db past (e : exn) s : sound db past s -> marked db past (Err e : result exn A) s.
Proof using. by split. Qed.

Lemma only_bounded_redacted value planned : only calm (bounded_redacted value planned).
Proof using. unfold bounded_redacted. solve_only. Qed.
Hint Resolve only_bounded_redacted : only.
Abbreviation readiness_diagnostics := (readiness_diagnostics docker_timeout other_text).
Lemma only_readiness_diagnostics spec planned : only calm (readiness_diagnostics spec planned).
Proof. unfold DockerBackend.readiness_diagnostics. solve_only. Qed.
Hint Resolve only_readiness_diagnostics : only.

Lemma builds_record db past s cidfile :
  sound db past s ->
  builds past s (record_bootstrap_identity cidfile)
    (fun h r s' => sound db h s' /\ (r = Ok true -> exists id, last (lg_created s') = Some (CContainer id))).
Proof.
  intros Hs. unfold builds, record_bootstrap_identity. apply guarded_bind, guarded_attempt, guarded_call; [done|].
  assert (Hquiet : forall r, (forall t, ~ makes (Event (ReadCidFile cidfile) r) t) -> sound db (past ++ [Event (ReadCidFile cidfile) r]) s).
  { intros r Hr. eapply sound_step; [exact Hs| |apply Hs| |auto].
    - eapply Forall_impl; [apply Hs|]. intros x. apply earned_grows.
    - intros _ before ev after t Heq Hm. assert (ev ∈ [Event (ReadCidFile cidfile) r]) as ->%list_elem_of_singleton
        by (rewrite Heq, elem_of_app; right; by left). by apply Hr in Hm. }
  intros [text|e].
  - cbv zeta. case_bool_decide as Hn; [split; [apply Hquiet|done]; intros [n|n|n|c]; cbn; try (intros []; fail); by intros (? & [= <-] & <- & ?)|]. split.
    + eapply sound_push; [done| |].
      * right. exists cidfile, text. split; [|done]. rewrite elem_of_app. right. by left.
      * intros _ ev t ->%list_elem_of_singleton. destruct t; cbn; try done. by intros (? & [= <-] & ? & _).
    + intros _. exists (strip text). cbn. apply last_snoc.
  - case_match; (split; [apply Hquiet; intros [n|n|n|c]; cbn; try (intros []; fail); by intros (? & [=] & _)|done]).
Qed.

Lemma builds_in_temporary_directory {A : Type} db past s prefix (m : string -> building A) :
  sound db past s -> (forall new directory, sound db (past ++ new) s -> builds (past ++ new) s (m directory) (marked db)) ->
  builds past s (in_temporary_directory prefix m) (marked db).
Proof.
  intros Hs Hm. unfold builds, in_temporary_directory. apply guarded_bind, guarded_attempt, guarded_call; [done|].
  assert (Hs' : forall r, sound db (past ++ [Event (OpenTemporaryDirectory prefix) r]) s) by (intros; apply sound_calm; [by constructor|done]).
  intros [directory|e]; [|by apply marked_Err]. apply guarded_bind. eapply guarded_mono; [|by apply Hm].
  intros new [[r s']|x] Hm'; [destruct Hm' as [Hr Hl]|done]. apply guarded_bind, guarded_attempt, guarded_call; [done|].
  assert (Hc : forall c, sound db (((past ++ [Event (OpenTemporaryDirectory prefix) (Ok directory)]) ++ new) ++ [Event (CloseTemporaryDirectory directory) c]) s')
    by (intros; apply sound_calm; [by constructor|done]).
  intros [[]|e]; [|by apply marked_Err]. split; [apply Hc|]. exact Hl.
Qed.

Lemma builds_run_bootstrap db past s spec planned :
  sound db past s -> builds past s (run_bootstrap docker_timeout other_text spec planned) (marked db).
Proof.
  intros Hs. unfold run_bootstrap. apply builds_bind. eapply builds_mono; [|apply builds_in_temporary_directory; [exact Hs|]].
  - intros new [[[rc out] err]|e] s' [Hm Hl]; [|by apply marked_Err].
    case_match; [split; [exact Hm|]; intros _ _; eapply Hl; eauto|].
    apply builds_bind, (builds_calm db); [apply only_bounded_redacted|done|]. intros new2 [output|e] _ Hs2; [|by apply marked_Err].
    apply builds_bind, (builds_calm db); [apply only_readiness_diagnostics|done|]. intros new3 [d|e] _ Hs3; by apply marked_Err.
  - clear Hs. intros new directory Hs. cbv zeta. apply builds_bind. unfold builds at 1, b_catch. apply guarded_bind.
    eapply guarded_mono; [|apply (builds_calm db) with (Q := stays_sound db);
      [apply only_with_secrets; [done..|intros files; by apply only_run_raw_for]|exact Hs|by intros new2 r _]].
    intros new2 [[[a|e] s2]|x] Hs2; [| |done].
    + apply builds_bind. eapply builds_mono; [|apply builds_record; exact Hs2].
      intros new3 [[]|e] s3 [Hs3 Hl]; [|by apply marked_Err..]. split; [exact Hs3|]. intros _ _. by apply Hl.
    + apply builds_bind. eapply builds_mono; [|apply builds_record; exact Hs2].
      intros new3 [owned|e'] s3 [Hs3 _]; [|by apply marked_Err].
      apply builds_bind, (builds_calm db); [apply only_bounded_redacted|done|]. intros new4 [d|e'] _ Hs4; [|by apply marked_Err].
      apply builds_bind. destruct owned; [apply (builds_calm db); [apply only_readiness_diagnostics|done|]|].
      * intros new5 [d'|e'] _ Hs5; by apply marked_Err.
      * by apply (marked_Err _ _ _ _ Hs4).
Qed.

Lemma remove_first_sound past r l : Forall (earned past) l -> Forall (earned past) (remove_first r l).
Proof using. induction 1 as [|x l Hx Hl IH]; [done|]. cbn. case_match; [done|]. by constructor. Qed.
Lemma remove_first_keeps r x l : x ∈ l -> x = r \/ x ∈ remove_first r l.
Proof using.
  induction l as [|y l IH]; intros Hx; [by apply elem_of_nil in Hx|]. cbn. apply elem_of_cons in Hx as [->|Hx].
  - case_bool_decide; [by left|right; by left].
  - case_bool_decide; [by right|]. destruct (IH Hx); [by left|right; by right].
Qed.

Lemma builds_drop_bootstrap db past s :
  sound db past s -> (exists id, last (lg_created s) = Some (CContainer id)) ->
  builds past s (drop_bootstrap docker_timeout other_text) (stays_sound db).
Proof.
  intros Hs [id Hl]. unfold builds, drop_bootstrap. rewrite Hl. apply builds_bind, builds_step, guarded_exec.
  - exists id. left. split; [done|]. destruct Hs as [Hs _]. rewrite Forall_forall in Hs. apply Hs.
    apply last_Some in Hl as [l' ->]. rewrite elem_of_app. right. by left.
  - intros new o Hr.
    assert (Hquiet : forall before ev after t, new = before ++ ev :: after -> ~ makes ev t).
    { intros before ev after t -> Hm. destruct (exec_docker_makes _ _ _ ev t Hr) as [_ Ht]; [rewrite elem_of_app; right; by left|done|].
      destruct t; cbn in Ht; [by destruct Ht as [? [=]]..|done]. }
    destruct o as [out|e]; (eapply sound_step; [exact Hs| |apply Hs|intros _ before ev after t Heq Hm; by destruct (Hquiet _ _ _ t Heq)|]).
    + apply remove_first_sound. eapply Forall_impl; [apply Hs|]. intros x. apply earned_grows.
    + intros t (x & Hx & Hn). apply (remove_first_keeps (CContainer id)) in Hx as [->|Hx]; [right|left; by exists x].
      destruct t; cbn in Hn; try done. subst. by apply exec_docker_Ok in Hr.
    + eapply Forall_impl; [apply Hs|]. intros x. apply earned_grows.
    + intros t Ht. by left.
Qed.

(** *** The whole run *)

Lemma only_wait_odoo_healthy spec : only calm (wait_odoo_healthy docker_timeout health_wait_timeout health_poll_interval other_text fuel spec).
Proof.
  unfold wait_odoo_healthy, wait_until. apply only_bind; [|intros; solve_only]. apply only_bind; [solve_only|]. intros now.
  generalize (now + Z.max 0 health_wait_timeout)%Z. intros deadline. induction fuel as [|n IH]; [done|]. cbn [wait_loop]. solve_only.
  unfold odoo_healthy. solve_only.
Qed.

Lemma builds_record_custody db past s p ref c :
  sound db past s -> builds past s (record_custody has_custody other_text p ref c) (stays_sound db).
Proof.
  intros Hs. unfold builds, record_custody. destruct has_custody; [|exact Hs]. destruct (ctr_volumes (bp_odoo p)); [exact Hs|].
  apply (builds_calm db); [solve_only|done|]. by intros new r _.
Qed.

(** The database and what is recorded of it. *)
Lemma sound_database past s spec credentials creation :
  sound None past s ->
  sound (Some creation) (past ++ [Event (ProvisionDatabase spec credentials) (Ok creation)])
    (mkLedger (lg_created s ++ [CDatabase (db_identifier (dc_ref creation))]) (Some creation)).
Proof.
  intros Hs. eapply sound_step; [exact Hs| |done| |].
  - apply Forall_app. split; [|by apply Forall_singleton]. eapply Forall_impl; [apply Hs|]. intros x. apply earned_grows.
  - intros _ before ev after t Heq Hm. left. exists (CDatabase (db_identifier (dc_ref creation))). cbn.
    split; [rewrite elem_of_app; right; by left|].
    assert (ev ∈ [Event (ProvisionDatabase spec credentials) (Ok creation)]) as ->%list_elem_of_singleton
      by (rewrite Heq, elem_of_app; right; by left).
    destruct t; cbn in Hm; try done. by injection Hm as ->.
  - intros t (x & Hx & Hn). left. exists x. cbn. split; [rewrite elem_of_app; by left|].
    destruct Hs as (_ & Hdb & _). rewrite Hdb in Hn. destruct x, t; cbn in *; try done. by destruct Hn as [_ [=]].
Qed.
Lemma sound_unprovisioned db past s spec credentials e :
  sound db past s -> sound db (past ++ [Event (ProvisionDatabase spec credentials) (Err e)]) s.
Proof.
  intros Hs. eapply sound_step; [exact Hs| |apply Hs| |auto].
  - eapply Forall_impl; [apply Hs|]. intros x. apply earned_grows.
  - intros _ before ev after t Heq Hm.
    assert (ev ∈ [Event (ProvisionDatabase spec credentials) (Err e)]) as ->%list_elem_of_singleton
      by (rewrite Heq, elem_of_app; right; by left).
    by destruct t.
Qed.

(** A ledger that is sound, whatever is recorded of the database. *)
Definition accounts {A : Type} (past : backend_history) (r : result exn A) (s : ledger) : Prop := exists db, sound db past s.
Lemma accounts_of {A : Type} db past (r : result exn A) s : sound db past s -> accounts past r s.
Proof using. by exists db. Qed.

Lemma builds_run_steps past s p credentials :
  sound None past s ->
  builds past s (run_steps docker_timeout health_wait_timeout health_poll_interval has_custody other_text fuel p credentials) accounts.
Proof.
  intros Hs. unfold run_steps.
  apply builds_bind, (builds_calm None); [unfold ensure_odoo_image, pull_image; solve_only|done|]. clear Hs. intros n1 [[]|e] _ Hs; [|by eapply accounts_of].
  apply builds_bind. eapply builds_mono; [|by apply builds_ensure_network]. clear Hs. intros n2 [[]|e] s2 Hs; [|by eapply accounts_of].
  apply builds_bind. eapply builds_mono; [|by apply builds_ensure_volumes]. clear Hs. intros n3 [[]|e] s3 Hs; [|by eapply accounts_of].
  apply builds_bind, (builds_calm None); [solve_only|done|]. clear Hs. intros n4 [spec|e] _ Hs; [|by eapply accounts_of].
  apply builds_bind, builds_step, guarded_call; [done|]. intros [creation|e]; [|by eapply accounts_of, sound_unprovisioned].
  apply builds_bind, (builds_bind _ _ (b_push _)), builds_push. cbn [lg_created lg_db].
  apply (sound_database _ _ spec credentials creation) in Hs. revert Hs.
  generalize (mkLedger (lg_created s3 ++ [CDatabase (db_identifier (dc_ref creation))]) (Some creation)).
  match goal with |- context [sound _ ?h] => generalize h end. clear. intros past s Hs.
  apply builds_bind. eapply builds_mono with (Q := stays_sound (Some creation)).
  2:{ case_match; [|exact Hs]. apply builds_bind. eapply builds_mono; [|by apply builds_run_bootstrap].
      intros new [[]|e] s2 [Hs2 Hl]; [|exact Hs2]. apply builds_drop_bootstrap; eauto. }
  clear Hs. intros n6 [[]|e] s6 Hs; [|by eapply accounts_of].
  apply builds_bind. eapply builds_mono; [|by apply builds_run_container]. clear Hs. intros n7 [[]|e] s7 Hs; [|by eapply accounts_of].
  apply builds_bind, (builds_calm (Some creation)); [apply only_wait_odoo_healthy|done|]. clear Hs. intros n8 [[]|e] _ Hs; [|by eapply accounts_of].
  apply builds_bind, (builds_calm (Some creation)); [solve_only|done|]. clear Hs. intros n9 [ref|e] _ Hs; [|by eapply accounts_of].
  apply builds_bind. eapply builds_mono; [|by apply builds_record_custody]. intros n10 [[]|e] s10 Hs10; by eapply accounts_of.
Qed.

(** *** Rolling back *)

Abbreviation rollback_one := (rollback_one docker_timeout other_text).
Abbreviation exited_well := (exited_well docker_timeout other_text).

Lemma guarded_exited_well past argv (Q : backend_history -> result exn bool -> Prop) :
  justified_run past argv -> (forall h r, Q h r) -> guarded_run past (exited_well argv) Q.
Proof using. intros HJ HQ. apply guarded_bind, guarded_run_raw; [done|]. intros new [[[rc o] e]|x] _; apply HQ. Qed.

Lemma guarded_rollback_one past db r : earned past r -> guarded_run past (rollback_one db r) (fun _ _ => True).
Proof using.
  intros Hr. unfold DockerBackend.rollback_one. apply guarded_catch. destruct r as [name|name token|name|id].
  - apply guarded_exited_well; [|by intros h []]. exists name. right; left. done.
  - apply guarded_bind, guarded_calm; [apply only_volume_has_label|]. intros new [[]|e] Hl; [|done..].
    apply guarded_exited_well; [|by intros h []]. exists name. right; right. split; [done|]. exists token.
    split; [by apply (earned_grows past new (CVolume name token))|]. by apply stamped_grows_l, volume_has_label_true.
  - apply guarded_exited_well; [|by intros h []]. exists name. left. done.
  - destruct db; [|done]. apply guarded_calm; [unfold rollback_database; solve_only|by intros ? [] ?].
Qed.

Lemma guarded_rollback past s : Forall (earned past) (lg_created s) -> guarded_run past (rollback docker_timeout other_text s) (fun _ _ => True).
Proof using.
  intros Hs. unfold rollback. assert (Forall (earned past) (reverse (lg_created s))) as Hl
    by (rewrite reverse_Permutation; exact Hs). clear Hs. revert past Hl.
  induction (reverse (lg_created s)) as [|r l IH]; intros past Hl; [done|]. apply Forall_cons in Hl as [Hr Hl]. cbn [rollback_each].
  apply guarded_bind. eapply guarded_mono; [|by apply guarded_rollback_one]. intros new [gone|e] _; [|done].
  apply guarded_bind. eapply guarded_mono; [|apply IH].
  - by intros new2 [rest|e] _.
  - eapply Forall_impl; [exact Hl|]. intros. by apply earned_grows.
Qed.

(** Before anything is made. *)
Lemma guarded_prepare {A : Type} past (p : backend_prog A) (Q : backend_history -> result exn A -> Prop) :
  only calm p -> Forall (event_sat calm) past -> (forall new r, Forall (event_sat calm) (past ++ new) -> Q (past ++ new) r) ->
  guarded_run past p Q.
Proof using.
  intros Hp Hc HQ. apply guarded_calm; [done|]. intros new r Hr. apply HQ, Forall_app. split; [done|]. by eapply only_runs.
Qed.
Lemma sound_before past : Forall (event_sat calm) past -> sound None past (mkLedger [] None).
Proof using.
  intros Hc. split_and!; [by apply Forall_nil|done|]. intros _ before ev after t -> Hm.
  destruct (calm_makes_nothing _ ev t Hc); [|done]. rewrite elem_of_app. right. by left.
Qed.

Lemma guarded_run_instance p :
  guarded_run [] (run_instance docker_timeout health_wait_timeout health_poll_interval has_database has_custody other_text fuel p) (fun _ _ => True).
Proof.
  unfold run_instance. case_match; [done|]. destruct (bp_postgres_credentials p) as [credentials|]; [|done].
  apply guarded_bind, guarded_prepare; [solve_only|by apply Forall_nil|]. intros n1 [[]|e] Hc; [|done]. cbv zeta.
  apply guarded_bind, guarded_prepare; [solve_only|done|]. clear Hc. intros n2 [a|e] Hc; [|done].
  apply guarded_bind, guarded_prepare; [solve_only|done|]. clear Hc. intros n3 [b|e] Hc; [|done].
  apply guarded_bind, guarded_prepare; [solve_only|done|]. clear Hc. intros n4 [[]|e] Hc; [done| |done].
  apply guarded_bind. eapply guarded_mono; [|by apply (builds_run_steps _ (mkLedger [] None)), sound_before].
  intros n5 [[r s]|x] Hs; [|done]. destruct Hs as (db & Hs & _). apply guarded_bind, guarded_attempt.
  apply (guarded_mono _ _ _ (fun _ _ => True)); [intros n6 o _; apply guarded_calm; [solve_only|done]|].
  destruct r as [ref|e]; [done|]. unfold run_failed. apply guarded_bind, guarded_calm; [unfold failure_detail; solve_only|].
  intros n6 [detail|x] _; [|done]. apply guarded_bind. eapply guarded_mono; [|apply guarded_rollback].
  - intros n7 [residuals|x] _; [|done]. cbv zeta. by case_match.
  - eapply Forall_impl; [exact Hs|]. intros y. apply earned_grows.
Qed.

(** A run prepares, builds from an empty ledger, and rolls back when that failed. *)
Lemma runs_prepared {A B : Type} (p : backend_prog A) (k : A -> backend_prog B) tr o :
  only calm p -> runs (bind p k) tr o ->
  Forall (event_sat calm) tr \/ exists t1 t2 a, tr = t1 ++ t2 /\ Forall (event_sat calm) t1 /\ runs (k a) t2 o.
Proof using.
  intros Hp [(t1 & t2 & a & -> & H1 & H2)|(x & -> & H)]%runs_bind; [|left; by eapply only_runs].
  right. exists t1, t2, a. split_and!; [done| |done]. by eapply only_runs.
Qed.
Lemma run_instance_runs p tr o :
  runs (run_instance docker_timeout health_wait_timeout health_poll_interval has_database has_custody other_text fuel p) tr o ->
  Forall (event_sat calm) tr \/
  exists built undone c db r s out,
    tr = built ++ undone ++ [Event ClearSecrets c] /\ sound db built s /\
    runs (match r with Ok ref => Ret ref | Err e => run_failed docker_timeout health_wait_timeout other_text p e s end) undone out /\
    o = match c with Ok _ => out | Err e => Err e end.
Proof.
  unfold run_instance. intros H. case_match; [apply runs_Raise in H as [-> _]; by left|].
  destruct (bp_postgres_credentials p) as [credentials|]; [|apply runs_Raise in H as [-> _]; by left].
  apply runs_prepared in H as [H|(t1 & tr1 & [] & -> & H1 & H)]; [by left| |solve_only]. cbv zeta in H.
  apply runs_prepared in H as [H|(t2 & tr2 & a & -> & H2 & H)]; [left; by apply Forall_app| |solve_only].
  apply runs_prepared in H as [H|(t3 & tr3 & b & -> & H3 & H)]; [left; by rewrite !Forall_app| |solve_only].
  apply runs_prepared in H as [H|(t4 & tr4 & c & -> & H4 & H)]; [left; by rewrite !Forall_app| |solve_only].
  destruct c; [apply runs_Raise in H as [-> _]; left; by rewrite !Forall_app|].
  assert (Hc : Forall (event_sat calm) (t1 ++ t2 ++ t3 ++ t4)) by by rewrite !Forall_app.
  apply runs_bind in H as [(t5 & tr5 & [r s] & -> & H5 & H)|(x & -> & H)].
  2: by destruct (guarded_runs _ _ _ _ _ _ (builds_run_steps (t1 ++ t2 ++ t3 ++ t4) (mkLedger [] None) p credentials (sound_before _ Hc)) H).
  destruct (guarded_runs _ _ _ _ _ _ (builds_run_steps (t1 ++ t2 ++ t3 ++ t4) (mkLedger [] None) p credentials (sound_before _ Hc)) H5) as [[db Hs] _].
  apply runs_bind in H as [(t6 & tr6 & out & -> & H6 & H)|(x & -> & H)]; [|by apply runs_attempt in H as (? & [=] & _)].
  apply runs_attempt in H6 as (out' & [= ->] & H6). right.
  apply runs_bind_call in H as (c & tr' & -> & H).
  exists ((t1 ++ t2 ++ t3 ++ t4) ++ t5), t6, c, db, r, s, out'.
  destruct c as [[]|e]; [apply runs_lift in H as [-> ->]|destruct H as [-> ->]]; split_and!; try done; by rewrite <- !app_assoc.
Qed.

(** The rollback makes nothing. *)
Definition settles (R : Type) (e : backend_op R) : Prop :=
  match e with DockerCli argv _ => creates argv = false | ProvisionDatabase _ _ | ReadCidFile _ => False | _ => True end.
Lemma calm_settles {A : Type} (p : backend_prog A) : only calm p -> only settles p.
Proof using. apply only_impl. intros R e. destruct e; try done. cbn. unfold touches. by intros [_ ?]%orb_false_iff. Qed.
Lemma settles_makes_nothing new ev t : Forall (event_sat settles) new -> ev ∈ new -> ~ makes ev t.
Proof using.
  rewrite Forall_forall. intros Hc Hin. specialize (Hc _ Hin). clear Hin. destruct ev as [R e r].
  destruct e; cbn in *; try done; try tauto. intros [_ Ht].
  apply bool_decide_eq_false in Hc. apply Hc. destruct t; cbn in Ht; [destruct Ht as [rest ->]; cbn; set_solver..|done].
Qed.
Lemma only_rollback_one db r : only settles (rollback_one db r).
Proof.
  assert (Hrm : forall argv, creates argv = false -> only settles (exited_well argv))
    by (intros argv H; apply only_bind; [by apply only_run_raw|intros [[? ?] ?]; done]).
  unfold DockerBackend.rollback_one. apply only_catch; [|done]. destruct r.
  - by apply Hrm.
  - apply only_bind; [apply calm_settles, only_volume_has_label|]. intros []; [by apply Hrm|done].
  - by apply Hrm.
  - destruct db; [|done]. apply calm_settles. unfold rollback_database. solve_only.
Qed.
Lemma only_run_failed p e s : only settles (run_failed docker_timeout health_wait_timeout other_text p e s).
Proof.
  unfold run_failed. apply only_bind; [apply calm_settles; unfold failure_detail; solve_only|]. intros detail.
  apply only_bind; [|intros; solve_only]. unfold rollback. induction (reverse (lg_created s)) as [|r l IH]; [done|]. cbn [rollback_each].
  apply only_bind; [apply only_rollback_one|]. intros gone. by apply only_bind.
Qed.
End Facts.

(** ** Every operation of the backend *)

Inductive backend_request : Type :=
| RunInstance (p : BackendPlan)
| StatusOf (ref : InstanceRef)
| StopInstance (ref : InstanceRef)
| DestroyInstance (ref : InstanceRef)
| LogsOf (ref : InstanceRef) (role : string)
| ExecIn (ref : InstanceRef) (argv : list string).

Definition serve (docker_timeout health_wait_timeout health_poll_interval : Z) (has_database has_custody : bool)
    (other_text : exn -> string) (fuel : nat) (q : backend_request) : backend_prog unit :=
  match q with
  | RunInstance p =>
    run_instance docker_timeout health_wait_timeout health_poll_interval has_database has_custody other_text fuel p ;* Ret tt
  | StatusOf ref => status docker_timeout other_text ref ;* Ret tt
  | StopInstance ref => stop docker_timeout other_text ref
  | DestroyInstance ref => destroy docker_timeout has_database has_custody other_text ref ;* Ret tt
  | LogsOf ref role => logs docker_timeout other_text ref role ;* Ret tt
  | ExecIn ref argv => exec_in docker_timeout other_text ref argv ;* Ret tt
  end.

(** The justification a request owes for a destructive command. *)
Definition owes (q : backend_request) : backend_history -> list string -> Prop :=
  match q with
  | RunInstance _ => justified_run
  | StopInstance ref => justified_stop ref
  | DestroyInstance ref => justified_destroy ref
  | StatusOf _ | LogsOf _ _ | ExecIn _ _ => fun _ _ => False
  end.

Lemma guarded_serve dt hw hp db cu text fuel q : guarded (allowed_when (owes q)) [] (serve dt hw hp db cu text fuel q) (fun _ _ => True).
Proof.
  assert (Hend : forall A J past (p : backend_prog A) Q, guarded (allowed_when J) past p Q -> guarded (allowed_when J) past (p ;* Ret tt) (fun _ _ => True)).
  { intros A J past p Q H. apply guarded_bind. eapply guarded_mono; [|exact H]. by intros new [a|e] _. }
  destruct q as [p|ref|ref|ref|ref role|ref argv]; cbn [serve owes].
  - eapply Hend, guarded_run_instance.
  - apply (Hend _ _ _ _ (fun _ _ => True)), guarded_calm; [|done]. unfold status. apply only_bind; [by apply only_run_raw|]. intros [[? ?] ?]. cbv zeta. solve_only.
  - eapply Hend, guarded_remove_runtime. auto.
  - eapply Hend, guarded_destroy.
  - apply (Hend _ _ _ _ (fun _ _ => True)), guarded_calm; [|done]. unfold logs. cbv zeta. apply only_bind; [by apply only_exists|].
    intros [|]; [by apply only_exec_docker|done].
  - apply (Hend _ _ _ _ (fun _ _ => True)), guarded_calm; [|done]. unfold exec_in. cbv zeta. apply only_bind; [by apply only_exists|].
    intros [|]; [by apply only_run_raw|done].
Qed.

(** C2. The backend destroys only what is its own: whatever Docker, the database provider and
    the custody answer, a [docker stop], [docker rm], [docker network rm] or [docker volume rm]
    is issued by [run] only for a resource this call made (and, for a volume, that still
    carries the token of its creation), by [stop] and [destroy] only for a container or the
    network inspected before with the labels of the instance and its role, and by [destroy]
    for the filestore volume only when the custody handed out the token the live volume
    carries; [status], [logs] and [exec] issue none. *)
Theorem backend_destroys_only_its_own dt hw hp db cu text fuel q tr1 argv t r tr2 o :
  runs (serve dt hw hp db cu text fuel q) (tr1 ++ Event (DockerCli argv t) r :: tr2) o -> destroys argv = true -> owes q tr1 argv.
Proof.
  intros Hruns Hd. destruct (guarded_runs _ _ _ _ _ _ (guarded_serve dt hw hp db cu text fuel q) Hruns) as [_ H].
  exact (H tr1 _ (DockerCli argv t) r tr2 eq_refl Hd).
Qed.

(** ** A failed run *)

Section Failure.
Variables (docker_timeout health_wait_timeout health_poll_interval : Z) (has_database has_custody : bool).
Variables (other_text : exn -> string) (fuel : nat).

(** The removal of the resource succeeded. *)
Definition gone (s : ledger) (tr : backend_history) (r : created_resource) : Prop :=
  match r with
  | CNetwork name => ran tr (network_rm name)
  | CVolume name _ => ran tr (volume_rm name)
  | CContainer name => ran tr (container_rm name)
  | CDatabase _ => exists c report, lg_db s = Some c /\ Event (CleanupDatabase (dc_receipt c)) (Ok report) ∈ tr /\ residual_failures report = []
  end.

Lemma gone_app s tr1 tr2 tr3 r : gone s tr2 r -> gone s (tr1 ++ tr2 ++ tr3) r.
Proof using.
  destruct r; cbn; try (intros (t & o & e & H); exists t, o, e; rewrite !elem_of_app; auto).
  intros (c & report & ? & H & ?). exists c, report. rewrite !elem_of_app. auto.
Qed.

Lemma exited_well_true argv tr : runs (exited_well docker_timeout other_text argv) tr (Ok true) -> ran tr argv.
Proof.
  unfold exited_well. intros H. apply runs_bind in H as [(tr1 & tr2 & [[rc o] e] & -> & H1 & H2)|(? & [=] & _)].
  apply run_raw_for_Ok in H1 as ->. apply runs_Ret in H2 as [-> [= H2]]. symmetry in H2. apply Z.eqb_eq in H2 as ->.
  exists docker_timeout, o, e. rewrite elem_of_app. left. by left.
Qed.

Lemma rollback_one_runs s r tr o :
  runs (rollback_one docker_timeout other_text (lg_db s) r) tr o -> exists b, o = Ok b /\ (b = true -> gone s tr r).
Proof.
  unfold rollback_one. intros H. apply runs_catch in H as [(b & -> & H)|(tr1 & tr2 & x & -> & _ & H)];
    [|apply runs_Ret in H as [-> ->]; exists false; by split].
  exists b. split; [done|]. intros ->. destruct r as [name|name token|name|id]; cbn.
  - by apply exited_well_true in H.
  - apply runs_bind in H as [(tr1 & tr2 & [] & -> & H1 & H2)|(? & [=] & _)]; [|by apply runs_Ret in H2 as [_ [=]]].
    apply exited_well_true in H2 as (t & o' & e & H2). exists t, o', e. rewrite elem_of_app. auto.
  - by apply exited_well_true in H.
  - destruct (lg_db s) as [c|] eqn:Edb; [|by apply runs_Ret in H as [_ [=]]].
    unfold rollback_database in H. apply runs_bind in H as [(tr1 & tr2 & r & -> & H1 & H2)|(? & [=] & _)].
    apply runs_attempt in H1 as (r' & [= ->] & H1). apply runs_call in H1 as ->. apply runs_Ret in H2 as [-> [= H2]].
    destruct r' as [report|e]; [|done]. symmetry in H2. apply bool_decide_eq_true in H2. exists c, report.
    split_and!; [done| |done]. rewrite elem_of_app. left. by left.
Qed.

Lemma rollback_each_runs s l tr o :
  runs (rollback_each docker_timeout other_text (lg_db s) l) tr o ->
  exists residuals, o = Ok residuals /\ forall r, r ∈ l -> gone s tr r \/ resource_text r ∈ residuals.
Proof.
  revert tr o. induction l as [|r l IH]; intros tr o H; cbn [rollback_each] in H.
  - apply runs_Ret in H as [-> ->]. exists []. split; [done|]. by intros r ?%elem_of_nil.
  - apply runs_bind in H as [(tr1 & tr2 & b & -> & H1 & H2)|(x & -> & H)];
      [|by apply rollback_one_runs in H as (? & [=] & _)].
    apply rollback_one_runs in H1 as (b' & [= <-] & Hb).
    apply runs_bind in H2 as [(tr3 & tr4 & rest & -> & H3 & H4)|(x & -> & H)]; [|by apply IH in H as (? & [=] & _)].
    apply IH in H3 as (rest' & [= <-] & Hrest). apply runs_Ret in H4 as [-> ->]. eexists; split; [done|].
    intros r' [-> | Hr]%elem_of_cons.
    + destruct b; [left; apply (gone_app s []), Hb; done|right; by left].
    + destruct (Hrest r' Hr) as [Hg|Hin]; [left; by apply gone_app|right]. destruct b; [done|by right].
Qed.

Lemma runs_rollback s tr o :
  runs (rollback docker_timeout other_text s) tr o ->
  exists residuals, o = Ok residuals /\ forall r, r ∈ lg_created s -> gone s tr r \/ resource_text r ∈ residuals.
Proof.
  intros (residuals & -> & H)%rollback_each_runs. exists residuals. split; [done|]. intros r Hr. apply H. by apply elem_of_reverse.
Qed.

(** [text] occurs in [whole] *)
Definition occurs (text whole : string) : Prop := exists before after, whole = before +:+ text +:+ after.

Lemma occurs_app text a b : occurs text b -> occurs text (a +:+ b).
Proof using. intros (x & y & ->). exists (a +:+ x), y. apply chars_inj. by rewrite !chars_app, <- !app_assoc. Qed.
Lemma occurs_join text sep l : text ∈ l -> occurs text (join sep l).
Proof using.
  induction l as [|x l IH]; [by intros ?%elem_of_nil|]. unfold join. intros [-> | H]%elem_of_cons.
  - destruct l as [|y l]; cbn; [exists "", ""; apply chars_inj; by rewrite !chars_app, app_nil_r|]. exists "", (sep +:+ String.concat sep (y :: l)). done.
  - destruct l as [|y l]; [by apply elem_of_nil in H|]. cbn [String.concat]. by do 2 apply occurs_app; apply IH.
Qed.

Lemma runs_readiness_diagnostics spec planned tr o :
  runs (readiness_diagnostics docker_timeout other_text spec planned) tr o ->
  (forall v l e, Event (Redact v l) (Err e) ∉ tr) -> exists d, o = Ok d.
Proof.
  intros H Hr. unfold readiness_diagnostics in H.
  apply runs_bind in H as [(t1 & t2 & r & -> & H1 & H2)|(x & -> & H)]; [|by apply runs_attempt in H as (? & [=] & _)].
  destruct (match r with Ok _ => _ | Err _ => _ end) as [final_health inspect].
  apply runs_bind in H2 as [(t3 & t4 & l & -> & H3 & H4)|(x & -> & H)]; [|by apply runs_attempt in H as (? & [=] & _)].
  cbv zeta in H4. apply runs_bind in H4 as [(t5 & t6 & text & -> & H5 & H6)|(x & -> & H)].
  - apply runs_Ret in H6 as [-> ->]. eauto.
  - unfold bounded_redacted in H. apply runs_bind in H as [(? & ? & ? & -> & _ & H)|(? & [= <-] & H)]; [by apply runs_Ret in H as [_ [=]]|].
    apply runs_call in H as ->. destruct (Hr (default "unavailable" inspect) planned x). rewrite !elem_of_app. right; right. by left.
Qed.

Lemma runs_failure_detail p e tr o :
  runs (failure_detail docker_timeout health_wait_timeout other_text p e) tr o ->
  (forall v l e, Event (Redact v l) (Err e) ∉ tr) -> exists d, o = Ok d.
Proof.
  intros H Hr. unfold failure_detail in H.
  destruct e; try (apply runs_Ret in H as [_ ->]; eauto). destruct e; try (apply runs_Ret in H as [_ ->]; eauto).
  destruct (mentions _ _); [|apply runs_Ret in H as [_ ->]; eauto].
  apply runs_bind in H as [(t1 & t2 & d & -> & H1 & H2)|(x & -> & H)]; [apply runs_Ret in H2 as [_ ->]; eauto|].
  by apply runs_readiness_diagnostics in H.
Qed.

Lemma rebuilt_backend e detail k final : rebuilt e detail = BackendError k final -> final = detail /\ exists d, e = BackendError k d.
Proof using. destruct e; try done; cbn; try (by case_match). intros [= -> ->]. eauto. Qed.

(** A rollback that ends in a backend error removes or names every entry of the ledger. *)
Lemma run_failed_accounts p e s tr k final :
  runs (run_failed docker_timeout health_wait_timeout other_text p e s) tr (Err (BackendError k final)) ->
  (forall v l e, Event (Redact v l) (Err e) ∉ tr) ->
  forall r, r ∈ lg_created s -> gone s tr r \/ occurs (resource_text r) final.
Proof.
  intros H Hr r Hin. unfold run_failed in H. apply runs_bind in H as [(t1 & t2 & d & -> & H1 & H2)|(x & _ & H)];
    [|by apply runs_failure_detail in H as (? & [=])].
  apply runs_bind in H2 as [(t3 & t4 & residuals & -> & H3 & H4)|(x & _ & H)]; [|by apply runs_rollback in H as (? & [=] & _)].
  apply runs_rollback in H3 as (rs & [= <-] & Hg). cbv zeta in H4.
  assert (final = with_residuals d residuals) as ->.
  { case_bool_decide as Heq; apply runs_Raise in H4 as [-> [= H4]]; [by subst e|]. by symmetry in H4; apply rebuilt_backend in H4 as [-> _]. }
  destruct (Hg r Hin) as [H|H]; [left; by apply gone_app|right].
  unfold with_residuals. destruct residuals as [|x l]; [by apply elem_of_nil in H|]. do 2 apply occurs_app. by apply occurs_join.
Qed.

Lemma gone_removed s tr r t : gone s tr r -> names (lg_db s) r t -> removed tr t.
Proof using.
  destruct r, t; cbn; try done; [by intros ? <-..|]. intros (c & report & Hdb & ? & ?) [_ Hc]. rewrite Hdb in Hc. injection Hc as ->. eauto.
Qed.
Lemma names_text db r t : names db r t -> resource_text r = thing_text t.
Proof using. destruct r, t; cbn; try done; [by intros ->..|]. by intros [-> _]. Qed.

(** The injector's own work does not fail: replacing texts, forgetting them, and removing the
    directory of the secret files while ignoring every error. *)
Definition injector_holds (tr : backend_history) : Prop :=
  undisturbed tr /\ (forall v l e, Event (Redact v l) (Err e) ∉ tr) /\ (forall e, Event ClearSecrets (Err e) ∉ tr).

(** C30. A failed run accounts for what it made: when [run] raises a backend error, then
    whatever Docker, the clock, the database provider, the custody and the file system
    answered, every network and volume whose creation command exited with status 0, the
    database that was provisioned, the bootstrap container whose id was read from the cidfile
    and the Odoo container whose [docker run -d] exited with status 0 was removed by a
    successful command (for the database: a cleanup without residuals) after it was made, or
    is named in the detail of the error.  A container that a failing or expired [docker run]
    leaves behind is not covered, nor are the errors of other classes, whose texts lose the
    residuals. *)
Theorem failed_run_accounts_for_everything p k final tr before ev after t :
  runs (run_instance docker_timeout health_wait_timeout health_poll_interval has_database has_custody other_text fuel p) tr
    (Err (BackendError k final)) ->
  injector_holds tr -> tr = before ++ ev :: after -> makes ev t ->
  removed after t \/ occurs (thing_text t) final.
Proof.
  intros H (Hu & Hr & Hclear) Htr Hm. apply run_instance_runs in H as [Hc|(built & undone & c & db & r & s & out & Htr' & Hs & Hrun & Ho)].
  { subst tr. destruct (calm_makes_nothing _ ev t Hc); [|done]. rewrite elem_of_app. right. by left. }
  destruct c as [[]|e]; [subst out|by destruct (Hclear e); rewrite Htr', !elem_of_app; right; right; left].
  destruct r as [ref|e]; [by apply runs_Ret in Hrun as [_ [=]]|].
  assert (Hends : Forall (event_sat settles) (undone ++ [Event ClearSecrets (Ok ())])).
  { apply Forall_app. split; [|by constructor]. eapply only_runs; [|exact Hrun]. apply only_run_failed. }
  rewrite Htr' in Htr. symmetry in Htr.
  destruct (segment_keep (fun x => ~ makes x t) _ _ _ _ _ Htr) as (after' & ->).
  { apply Forall_forall. intros x Hx. by apply (settles_makes_nothing _ _ t Hends). }
  { intros Hno. by apply Hno. }
  rewrite <- app_assoc in Htr. apply app_inv_head in Htr. injection Htr as ->. destruct Hs as (_ & _ & Hs).
  destruct (Hs ltac:(intros e' He; apply (Hu e'); rewrite Htr', elem_of_app; by left) before ev after' t eq_refl Hm) as [(x & Hx & Hn)|Hgone];
    [|left; by apply removed_app].
  destruct (run_failed_accounts p e s undone k final Hrun) with (r := x) as [Hg|Hocc]; [|done| |].
  - intros v l0 e' He. apply (Hr v l0 e'). rewrite Htr', !elem_of_app. right; by left.
  - left. apply removed_app_l, removed_app. by eapply gone_removed.
  - right. by rewrite <- (names_text _ _ _ Hn).
Qed.
End Failure.

(** ** Concrete runs *)

Definition quoted (s : string) : string := str [dquote] +:+ s +:+ str [dquote].
Definition sample_ref : InstanceRef := mkInstanceRef "shop" "dev" "odoo-forge-shop-dev" "odoo-forge-shop-dev-db" "odoo-forge-shop-dev-odoo".
Definition sample_labels : string :=
  "{" +:+ join "," (map (fun kv => quoted kv.1 +:+ ":" +:+ quoted kv.2) (expected_labels sample_ref None)) +:+ "}".
(** A daemon that has only the network left, and where a command on [stuck] fails. *)
Definition sample_daemon (stuck : string) (R : Type) (e : backend_op R) (w : unit) : result exn R * unit :=
  match e in backend_op R return result exn R * unit with
  | DockerCli argv _ =>
    (Ok (if bool_decide (stuck ∈ argv) then (1%Z, "", "no such object")
         else if bool_decide (take 3 argv = ["docker"; "network"; "inspect"]) then (0%Z, "[{" +:+ quoted "Labels" +:+ ":" +:+ sample_labels +:+ "}]", "")
         else if bool_decide (take 2 argv = ["docker"; "inspect"]) then (1%Z, "[]", "no such object") else (0%Z, "", "")), w)
  | Now => (Ok 0%Z, w)
  | Doze _ | ValidateSecrets _ | CloseSecretFiles | ClearSecrets | CloseTemporaryDirectory _ => (Ok tt, w)
  | RecordCustody _ _ _ _ | CompleteCustody _ _ _ _ => (Ok tt, w)
  | Uuid4Hex => (Ok "f00", w)
  | OpenSecretFiles _ => (Ok [], w)
  | Redact value _ => (Ok value, w)
  | ProvisionDatabase _ _ => (Err (DatabaseProviderError DatabaseReadinessError), w)
  | CleanupDatabase _ => (Ok (mkCleanupReport []), w)
  | ConsumeCustody _ _ => (Ok None, w)
  | OpenTemporaryDirectory _ => (Ok "/tmp/x", w)
  | ReadCidFile _ => (Ok "cid", w)
  end.

Definition runs_in (stuck : string) {A : Type} (p : backend_prog A) : backend_history * result exn A :=
  ((exec (sample_daemon stuck) p tt).1.2, (exec (sample_daemon stuck) p tt).1.1).
Lemma runs_in_runs stuck {A : Type} (p : backend_prog A) tr o : runs_in stuck p = (tr, o) -> runs p tr o.
Proof. unfold runs_in. intros [= <- <-]. apply exec_runs. Qed.

Definition no_text (e : exn) : string := "".
Definition stop_before : backend_history :=
  let absent := Ok (1%Z, "[]", "no such object") in
  let network := Ok (0%Z, "[{" +:+ quoted "Labels" +:+ ":" +:+ sample_labels +:+ "}]", "") in
  [Event (DockerCli ["docker"; "inspect"; "odoo-forge-shop-dev-db"] 30) absent;
   Event (DockerCli ["docker"; "inspect"; "odoo-forge-shop-dev-odoo"] 30) absent;
   Event (DockerCli ["docker"; "network"; "inspect"; "odoo-forge-shop-dev"] 30) network;
   Event (DockerCli ["docker"; "network"; "inspect"; "odoo-forge-shop-dev"] 30) network].
Lemma stop_runs :
  runs (serve 30 300 5 true true no_text 3 (StopInstance sample_ref))
    (stop_before ++ Event (DockerCli (network_rm "odoo-forge-shop-dev") 30) (Ok (0%Z, "", "")) :: []) (Ok tt).
Proof. apply (runs_in_runs ""). vm_compute. reflexivity. Qed.

Lemma backend_destroys_only_its_own_witness :
  destroys (network_rm "odoo-forge-shop-dev") = true /\
  owes (StopInstance sample_ref) stop_before (network_rm "odoo-forge-shop-dev").
Proof.
  split; [reflexivity|].
  exact (backend_destroys_only_its_own 30 300 5 true true no_text 3 (StopInstance sample_ref) stop_before _ 30 _ [] (Ok tt)
    stop_runs eq_refl).
Defined.

Definition sample_spec (name role : string) : ContainerSpec := mkContainerSpec name "odoo:17" role "net" [] [] [] [] [] "127.0.0.1" [].
Definition sample_plan : BackendPlan := mkBackendPlan (mkNetworkSpec "net" []) [] (sample_spec "pg" "postgres") (sample_spec "odoo" "odoo") (Some "h").
(** The network cannot be removed: the error names it. *)
Definition stuck_ledger : ledger := mkLedger [CNetwork "net"; CContainer "odoo"] None.
(** A daemon on a host where nothing exists yet: the Odoo container does not start, and the
    network cannot be removed again. *)
Definition refused_plan : BackendPlan :=
  mkBackendPlan (mkNetworkSpec "net" []) []
    (mkContainerSpec "pg" "postgres:16" "postgres" "net" [] [] [] [] [mkVolumeSpec "pgdata" []] "127.0.0.1" [])
    (sample_spec "odoo" "odoo") (Some "h").
Definition refused_database : DatabaseCreation :=
  mkDatabaseCreation (mkDatabaseRef "pg" CREATED) (mkCreationReceipt (mkOperationIdentity "postgres-docker:f00") ["pg"]) CREATED.
Definition refusing_daemon (R : Type) (e : backend_op R) (w : unit) : result exn R * unit :=
  match e in backend_op R return result exn R * unit with
  | DockerCli argv _ =>
    (Ok (if bool_decide (argv = network_rm "net") then (1%Z, "", "network has active endpoints")
         else if bool_decide (take 3 argv = ["docker"; "run"; "-d"]) then (125%Z, "", "port is already allocated")
         else if bool_decide (take 2 argv = ["docker"; "inspect"]) || bool_decide (take 3 argv = ["docker"; "network"; "inspect"])
         then (1%Z, "[]", "no such object") else (0%Z, "", "")), w)
  | ProvisionDatabase _ _ => (Ok refused_database, w)
  | e => sample_daemon "" _ e w
  end.
Definition refused_run : backend_prog InstanceRef := run_instance 30 300 5 true true no_text 3 refused_plan.
Definition refused_text : string := "port is already allocated; cleanup incomplete: network=net".
Definition refused_history : backend_history := (exec refusing_daemon refused_run tt).1.2.

(** The trace of this run, with its creations. *)
Definition injector_holds_in (tr : backend_history) : bool :=
  forallb (fun ev => match ev with Event e r => match e, r with CloseSecretFiles, Err _ | ClearSecrets, Err _ | Redact _ _, Err _ => false | _, _ => true end end) tr.
Lemma injector_holds_dec tr : injector_holds_in tr = true -> injector_holds tr.
Proof.
  unfold injector_holds_in. rewrite forallb_forall. intros H.
  split_and!; [intros e Hin|intros v l e Hin|intros e Hin]; apply list_elem_of_In, H in Hin; discriminate.
Qed.
Lemma refused_runs : runs refused_run refused_history (Err (BackendError ContainerRunError refused_text)).
Proof.
  assert ((exec refusing_daemon refused_run tt).1.1 = Err (BackendError ContainerRunError refused_text)) as <- by (vm_compute; reflexivity).
  apply exec_runs.
Qed.
Lemma failed_run_accounts_for_everything_witness :
  let made := take 7 refused_history in
  exists ev after, refused_history = made ++ ev :: after /\ makes ev (TNetwork "net") /\
    (removed after (TNetwork "net") \/ occurs "network=net" refused_text).
Proof.
  cbv zeta. do 2 eexists. split; [vm_compute; reflexivity|]. split.
  - split; [eauto|]. exists []. reflexivity.
  - eapply (failed_run_accounts_for_everything 30 300 5 true true no_text 3 refused_plan _ _ _ (take 7 refused_history) _ _ (TNetwork "net") refused_runs).
    + apply injector_holds_dec. vm_compute. reflexivity.
    + vm_compute. reflexivity.
    + split; [eauto|]. exists []. reflexivity.
Defined.

(** The rebuilt error of a database failure: the residuals are lost, and behind an incomplete
    rollback of the provider, so is the error that carries its receipt. *)
Example database_failure_hides_residuals :
  (runs_in "net" (run_failed 30 300 no_text sample_plan (DatabaseProviderError DatabaseReadinessError) stuck_ledger)).2 =
  Err (DatabaseProviderError DatabaseReadinessError).
Proof. vm_compute. reflexivity. Qed.
Example incomplete_rollback_is_masked :
  exists why, (runs_in "net" (run_failed 30 300 no_text sample_plan
    (DatabaseProviderError (RollbackIncompleteError "postgres-docker:tok" ["pg"] ["pg"] [])) stuck_ledger)).2 = Err (TypeError why).
Proof. eexists. vm_compute. reflexivity. Qed.
