(* ===== verification/Wiring.v ===== *)
(** * The backend and the PostgreSQL provider together

    [odoo_forge_cli/_composition.py] gives the local backend the Docker PostgreSQL provider.
    The request the backend derives from a plan meets the checks of that provider. *)

From S2P Require Import Prelude Effects Regex Values Paths Schema Json Projection Backend.
From S2P Require PostgresProvider DockerBackend.

Section Wiring.
Variable sha256 : string -> string.

(** The labels of a planned database name its project and instance. *)
Lemma planned_labels m mounts instance image credentials postgres_credentials p spec :
  plan_backend sha256 m mounts instance image credentials postgres_credentials = Ok p ->
  DockerBackend.database_spec_from_plan p = Ok spec ->
  exists project instance', ds_labels spec = labels project instance' (Some "postgres").
Proof.
  unfold plan_backend. destruct (odoo_settings m) as [port host]. destruct (result_map _ _); [cbn|done].
  destruct (ordered_addons_roots _ _); [cbn|done]. intros [= <-]. cbn. intros [= <-]. eauto.
Qed.

(** A planned database is refused: the request the backend derives from any plan carries
    the labels of its project and instance, which the PostgreSQL provider does not accept
    from a caller, so provisioning fails before the credentials are opened or Docker is
    asked anything. *)
Theorem planned_database_is_refused m mounts instance image credentials postgres_credentials p spec fuel timeout handle tr o :
  plan_backend sha256 m mounts instance image credentials postgres_credentials = Ok p ->
  DockerBackend.database_spec_from_plan p = Ok spec ->
  runs (PostgresProvider.provision fuel timeout spec handle) tr o ->
  tr = [] /\ o = Err (DatabaseProviderError InvalidDatabaseRequestError).
Proof.
  intros Hp Hs Hr. destruct (planned_labels _ _ _ _ _ _ _ _ Hp Hs) as (project & instance' & Hl).
  assert (PostgresProvider.validate_caller_metadata (ds_env spec) (ds_labels spec) = Err (DatabaseProviderError InvalidDatabaseRequestError)) as Hv.
  { unfold PostgresProvider.validate_caller_metadata. rewrite Hl. unfold PostgresProvider.allowed_metadata at 2. cbn [labels forallb app].
    rewrite bool_decide_false by (cbn; set_solver). cbn [andb]. by rewrite andb_false_r. }
  unfold PostgresProvider.provision in Hr. rewrite Hv in Hr. cbn in Hr.
  apply runs_bind in Hr as [(? & ? & ? & _ & H & _)|(x & -> & H)]; [by apply runs_Raise in H as [_ [=]]|].
  by apply runs_Raise in H as [-> [= ->]].
Qed.
End Wiring.

Definition sample_manifest : Manifest :=
  mkManifest "My Shop" "17.0" Community default_core None [] (mkClient (path_of "addons") None) [] None None [].
Definition sample_digest (_ : string) : string := "0123456789abcdef".
Definition sample_request : DatabaseSpec :=
  mkDatabaseSpec "odoo-forge-myshop-01234567-default-db" (Some "odoo-forge-myshop-01234567-default")
    (Some "odoo-forge-myshop-01234567-default-pgdata") [("POSTGRES_USER", "odoo"); ("POSTGRES_DB", "myshop-01234567")]
    (labels "myshop-01234567" "default" (Some "postgres")).

Lemma planned_database_is_refused_witness :
  exists p, plan_backend sample_digest sample_manifest [] "default" None None (Some "pg") = Ok p /\
    DockerBackend.database_spec_from_plan p = Ok sample_request /\
    forall tr o, runs (PostgresProvider.provision 3 10 sample_request "pg") tr o ->
      tr = [] /\ o = Err (DatabaseProviderError InvalidDatabaseRequestError).
Proof.
  destruct (plan_backend sample_digest sample_manifest [] "default" None None (Some "pg")) as [p|x] eqn:E;
    [|vm_compute in E; discriminate E].
  assert (DockerBackend.database_spec_from_plan p = Ok sample_request) as Hs
    by (vm_compute in E; injection E as <-; vm_compute; reflexivity).
  exists p. split; [reflexivity|]. split; [exact Hs|]. intros tr o.
  exact (planned_database_is_refused sample_digest sample_manifest [] "default" None None (Some "pg") p sample_request 3 10 "pg" tr o E Hs).
Defined.
