(* ===== verification/BackendCustody.v ===== *)
(** * The custody file of the local backend ([odoo_forge_docker/ownership.py])

    [BackendOwnershipCustody] keeps, per project and instance, the receipt and token that prove
    what a run created: one JSON file, changed under an exclusive lock by writing a temporary
    file and moving it into place. *)

From S2P Require Import Prelude Effects Values Json JsonFacts Docker.

(** ** The document *)

(** [receipt.model_dump(mode="json")] and [CreationReceipt.model_validate] *)
Definition receipt_document (r : CreationReceipt) : json :=
  JObj [("operation", JObj [("value", JStr (op_value (cr_operation r)))]);
        ("owned_resource_ids", JArr (map JStr (cr_owned_resource_ids r)))].
Fixpoint texts (l : list json) : result exn (list string) :=
  match l with
  | [] => Ok []
  | JStr s :: l' => let! ss := texts l' in Ok (s :: ss)
  | _ => Err (invalid "owned_resource_ids")
  end.
Definition validate_receipt (j : json) : result exn CreationReceipt :=
  let! d := as_object j in
  only_keys ["operation"; "owned_resource_ids"] d ;!
  let! operation := match dget "operation" d with Some o => as_object o | None => Err (invalid "operation") end in
  only_keys ["value"] operation ;!
  let! value := get_str operation "value" in
  let! ids := match dget "owned_resource_ids" d with Some (JArr l) => texts l | _ => Err (invalid "owned_resource_ids") end in
  Ok (mkCreationReceipt (mkOperationIdentity value) ids).

(** [d.pop(key)] of a present key *)
Definition dpop (k : string) (d : list (string * json)) : list (string * json) :=
  List.filter (fun kv => negb (bool_decide (kv.1 = k))) d.
(** [entries.pop(instance)], and the project with it when nothing is left. *)
Definition drop_entry (project instance : string) (entries state : list (string * json)) : json :=
  let entries := dpop instance entries in
  JObj (if bool_decide (entries = []) then dpop project state else dset project (JObj entries) state).
(** [a == b] of two decoded documents, [b] without numbers: members in any order. *)
Definition json_eq (a b : json) : bool := bool_decide (canon a = canon b).

Definition update (A : Type) : Type := json -> result exn (json * A).
Definition no_get {A : Type} : result exn A := Err (AttributeError "get").

(** The [update] functions of [record], [remove], [consume] and [complete]. *)
Definition record_update (project instance : string) (receipt : CreationReceipt) (token : option string) : update unit := fun state =>
  match state with
  | JObj d =>
    match default (JObj []) (dget project d) with
    | JObj entries =>
      let entry := JObj [("receipt", receipt_document receipt); ("token", jopt token)] in
      Ok (JObj (dset project (JObj (dset instance entry entries)) d), tt)
    | _ => Err AssertionError
    end
  | _ => Err (AttributeError "setdefault")
  end.
Definition remove_update (project instance : string) : update unit := fun state =>
  match state with
  | JObj d =>
    Ok (match dget project d with Some (JObj entries) => drop_entry project instance entries d | _ => state end, tt)
  | _ => no_get
  end.
(** [CreationReceipt.model_validate(entry["receipt"]), entry.get("token")] *)
Definition entry_proof (entry : list (string * json)) : option (CreationReceipt * json) :=
  match dget "receipt" entry with
  | Some j => match validate_receipt j with Ok r => Some (r, default JNull (dget "token" entry)) | Err _ => None end
  | None => None
  end.
Definition consume_update (project instance : string) : update (option (CreationReceipt * json)) := fun state =>
  match state with
  | JObj d =>
    match dget project d with
    | Some (JObj entries) =>
      match dget instance entries with
      | Some (JObj entry) =>
        match entry_proof entry with
        | Some proof =>
          Ok (JObj (dset project (JObj (dset instance (JObj (dset "state" (JStr "in_progress") entry)) entries)) d), Some proof)
        | None => Ok (state, None)
        end
      | _ => Ok (state, None)
      end
    | _ => Ok (state, None)
    end
  | _ => no_get
  end.
(** The entry is the one [consume] marked, for this receipt and token. *)
Definition entry_matches (receipt : CreationReceipt) (token : option string) (entry : list (string * json)) : bool :=
  bool_decide (dget "state" entry = Some (JStr "in_progress")) &&
  json_eq (default JNull (dget "receipt" entry)) (receipt_document receipt) &&
  json_eq (default JNull (dget "token" entry)) (jopt token).
Definition complete_update (project instance : string) (receipt : CreationReceipt) (token : option string) : update unit := fun state =>
  match state with
  | JObj d =>
    Ok (match dget project d with
        | Some (JObj entries) =>
          match dget instance entries with
          | Some (JObj entry) => if entry_matches receipt token entry then drop_entry project instance entries d else state
          | _ => state
          end
        | _ => state
        end, tt)
  | _ => no_get
  end.
(** [state[project][instance]] and its proof; the exceptions of the way are caught by [load]. *)
Definition load_proof (project instance : string) (state : json) : option (CreationReceipt * json) :=
  match state with
  | JObj d =>
    match dget project d with
    | Some (JObj entries) => match dget instance entries with Some (JObj entry) => entry_proof entry | _ => None end
    | _ => None
    end
  | _ => None
  end.

(** ** The file *)

Inductive custody_op : Type -> Type :=
| MakeParents : custody_op unit
| OpenLockFile : custody_op unit
| LockFile (exclusive : bool) : custody_op unit
| UnlockFile : custody_op unit
| CloseLockFile : custody_op unit
| ReadCustody : custody_op string
| MakeTemporary : custody_op string                            (* [tempfile.mkstemp] *)
| OpenTemporary (temporary : string) : custody_op unit
| WriteTemporary (temporary text : string) : custody_op unit
| CloseTemporary (temporary : string) : custody_op unit
| MoveIntoPlace (temporary : string) : custody_op unit         (* [os.replace] *)
| RemoveTemporary (temporary : string) : custody_op unit.      (* [unlink(missing_ok=True)] *)
Definition custody_prog := prog custody_op exn.

(** The state in the file; a missing or unreadable one counts as empty. *)
Definition read_state : custody_prog json :=
  let* r := attempt (call ReadCustody) in
  match r with
  | Ok text => Ret (default (JObj []) (loads text))
  | Err e => if is_missing e then Ret (JObj []) else Raise e
  end.
Definition write_state (state : json) : custody_prog unit :=
  let* temporary := call MakeTemporary in
  finally
    (call (OpenTemporary temporary) ;*
     finally (call (WriteTemporary temporary (dumps_ordered state))) (call (CloseTemporary temporary)) ;*
     call (MoveIntoPlace temporary))
    (call (RemoveTemporary temporary)).
(** [_update] *)
Definition update_file {A : Type} (f : update A) : custody_prog A :=
  call MakeParents ;*
  call OpenLockFile ;*
  finally
    (call (LockFile true) ;*
     let* state := read_state in
     let* '(state', a) := lift (f state) in
     write_state state' ;*
     Ret a)
    (call CloseLockFile).

Definition record (project instance : string) (receipt : CreationReceipt) (token : option string) : custody_prog unit :=
  update_file (record_update project instance receipt token).
Definition remove (project instance : string) : custody_prog unit := update_file (remove_update project instance).
Definition consume (project instance : string) : custody_prog (option (CreationReceipt * json)) :=
  update_file (consume_update project instance).
Definition complete (project instance : string) (receipt : CreationReceipt) (token : option string) : custody_prog unit :=
  update_file (complete_update project instance receipt token).
Definition restore := record.

Definition load_failure (e : exn) : bool :=
  match e with OSError _ | KeyError _ | TypeError _ | ValueError _ => true | _ => false end.
Definition load (project instance : string) : custody_prog (option (CreationReceipt * json)) :=
  catch
    (call MakeParents ;*
     call OpenLockFile ;*
     finally
       (call (LockFile false) ;*
        finally
          (let* text := call ReadCustody in
           Ret (match loads text with Some state => load_proof project instance state | None => None end))
          (call UnlockFile))
       (call CloseLockFile))
    (fun e => if load_failure e then Ret None else Raise e).

(** ** A disk on which every call may fail *)

(** [Cut n]: the call fails; a write leaves the first [n] characters. *)
Inductive accident : Type := Works | Cut (n : nat).
Record drive : Type := mkDrive {
  dr_file : option string;
  dr_temporaries : gmap string string;
  dr_schedule : list accident
}.

Section Drive.
(** The name of a fresh temporary file. *)
Variable temporary_name : gmap string string -> string.

Definition drive_call (R : Type) (e : custody_op R) (v : drive) : result exn R * drive :=
  let '(mkDrive file temps s) := v in
  match e with
  | ReadCustody => (match file with Some text => Ok text | None => Err (OSError ENOENT) end, v)
  | MakeTemporary => let t := temporary_name temps in (Ok t, mkDrive file (<[t := ""]> temps) s)
  | WriteTemporary t text => (Ok tt, mkDrive file (<[t := default "" (temps !! t) +:+ text]> temps) s)
  | MoveIntoPlace t =>
    match temps !! t with
    | Some text => (Ok tt, mkDrive (Some text) (delete t temps) s)
    | None => (Err (OSError ENOENT), v)
    end
  | RemoveTemporary t => (Ok tt, mkDrive file (delete t temps) s)
  | MakeParents | OpenLockFile | LockFile _ | UnlockFile | CloseLockFile | OpenTemporary _ | CloseTemporary _ => (Ok tt, v)
  end.
Definition drive_cut (R : Type) (e : custody_op R) (n : nat) (v : drive) : result exn R * drive :=
  let '(mkDrive file temps s) := v in
  (Err (OSError EIO), match e with
   | WriteTemporary t text => mkDrive file (<[t := default "" (temps !! t) +:+ str (take n (chars text))]> temps) s
   | _ => v
   end).
Definition on_drive : handler (E:=custody_op) (X:=exn) drive := fun R e v =>
  match dr_schedule v with
  | Cut n :: s => drive_cut R e n (mkDrive (dr_file v) (dr_temporaries v) s)
  | Works :: s => drive_call R e (mkDrive (dr_file v) (dr_temporaries v) s)
  | [] => drive_call R e v
  end.

(** What the next reader makes of the file. *)
Definition state_of (v : drive) : json :=
  match dr_file v with Some text => default (JObj []) (loads text) | None => JObj [] end.
Definition proof_of (v : drive) (project instance : string) : option (CreationReceipt * json) :=
  load_proof project instance (state_of v).

(** ** Facts about the documents *)

Lemma dget_dpop k k' d : dget k (dpop k' d) = if decide (k = k') then None else dget k d.
Proof.
  induction d as [|[k1 v] d IH]; cbn; [by case_decide|]. fold (dpop k' d).
  case_bool_decide as E; cbn; rewrite IH; repeat case_decide; congruence.
Qed.
Lemma printable_dpop k d : printable (JObj d) = true -> printable (JObj (dpop k d)) = true.
Proof.
  intros [Hnd H]%printable_JObj. apply printable_JObj. split.
  - clear H. induction d as [|[k1 v] d IH]; cbn in *; [done|]. apply NoDup_cons in Hnd as [Hk Hnd].
    fold (dpop k d). case_bool_decide; cbn; [by apply IH|]. apply NoDup_cons. split; [|by apply IH].
    intros (x & E & Hx)%list_elem_of_fmap. apply Hk. apply list_elem_of_fmap. exists x. split; [done|].
    apply list_elem_of_In in Hx. apply List.filter_In in Hx as [Hx _]. by apply list_elem_of_In.
  - rewrite forallb_elem in *. intros x Hx. apply H. apply list_elem_of_In in Hx. apply List.filter_In in Hx as [Hx _]. by apply list_elem_of_In.
Qed.

Lemma texts_map l : texts (map JStr l) = Ok l.
Proof. induction l as [|s l IH]; [done|]. cbn. by rewrite IH. Qed.
Lemma validate_receipt_document r : validate_receipt (receipt_document r) = Ok r.
Proof.
  destruct r as [[v] ids]. change (validate_receipt _) with (let! ids' := texts (map JStr ids) in Ok (mkCreationReceipt (mkOperationIdentity v) ids')).
  by rewrite texts_map.
Qed.
Lemma printable_receipt r : printable (receipt_document r) = true.
Proof.
  apply printable_JObj. split; [by vm_compute; repeat constructor; set_solver|].
  change (forallb _ _) with (true && (forallb printable (map JStr (cr_owned_resource_ids r)) && true)). by rewrite printable_map.
Qed.
Lemma printable_jopt o : printable (jopt o) = true.
Proof. by destruct o. Qed.

(** ** What the updates do to the proofs *)

Definition proofs (state : json) : string * string -> option (CreationReceipt * json) := fun at_ => load_proof at_.1 at_.2 state.
(** The entry of a project and instance. *)
Definition entry_of (state : json) (at_ : string * string) : option (list (string * json)) :=
  match state with
  | JObj d =>
    match dget at_.1 d with
    | Some (JObj entries) => match dget at_.2 entries with Some (JObj entry) => Some entry | _ => None end
    | _ => None
    end
  | _ => None
  end.
Lemma proofs_entry state a : proofs state a = match entry_of state a with Some entry => entry_proof entry | None => None end.
Proof. unfold proofs, load_proof, entry_of. by repeat case_match. Qed.

(** Setting one entry, in a project that is there or not. *)
Lemma entry_of_set d p i entry entries a : default (JObj []) (dget p d) = JObj entries ->
  entry_of (JObj (dset p (JObj (dset i (JObj entry) entries)) d)) a = if decide (a = (p, i)) then Some entry else entry_of (JObj d) a.
Proof.
  intros He. destruct a as [p' i']. cbn. rewrite dget_dset. case_decide as Ep; [|case_decide; [congruence|done]]. subst p'.
  rewrite dget_dset. case_decide as Ei; [subst i'; by rewrite decide_True|]. rewrite decide_False by congruence.
  destruct (dget p d) as [j|]; cbn in He; [by subst j|]. by injection He as <-.
Qed.
Lemma entry_of_drop d p i entries a : dget p d = Some (JObj entries) ->
  entry_of (drop_entry p i entries d) a = if decide (a = (p, i)) then None else entry_of (JObj d) a.
Proof.
  intros He. destruct a as [p' i']. unfold drop_entry. cbn. case_bool_decide as En.
  - rewrite dget_dpop. case_decide as Ep; [|case_decide; [congruence|done]]. subst p'. case_decide as Ea; [done|].
    rewrite He. assert (i' <> i) as Hi by congruence. pose proof (dget_dpop i' i entries) as H. rewrite En, decide_False in H by done. cbn in H. by rewrite <- H.
  - rewrite dget_dset. case_decide as Ep; [|case_decide; [congruence|done]]. subst p'. rewrite dget_dpop, He.
    case_decide as Ei; [subst i'; by rewrite decide_True|]. by rewrite decide_False by congruence.
Qed.
Lemma printable_drop d p i entries : printable (JObj d) = true -> dget p d = Some (JObj entries) -> printable (drop_entry p i entries d) = true.
Proof.
  intros Hd He. pose proof (printable_dget _ _ _ Hd He) as Hp. apply (printable_dpop i) in Hp.
  unfold drop_entry. case_bool_decide; [by apply printable_dpop|by apply printable_dset].
Qed.

Lemma entry_proof_record receipt token : entry_proof [("receipt", receipt_document receipt); ("token", jopt token)] = Some (receipt, jopt token).
Proof. unfold entry_proof. cbn [dget]. rewrite decide_True by done. by rewrite validate_receipt_document. Qed.
Lemma entry_proof_mark entry : entry_proof (dset "state" (JStr "in_progress") entry) = entry_proof entry.
Proof. unfold entry_proof. by rewrite !dget_dset_ne. Qed.

Definition marked (entry : list (string * json)) : Prop := dget "state" entry = Some (JStr "in_progress").

Lemma record_update_spec p i receipt token state state' : printable state = true -> record_update p i receipt token state = Ok (state', tt) ->
  printable state' = true /\
  forall a, entry_of state' a = if decide (a = (p, i)) then Some [("receipt", receipt_document receipt); ("token", jopt token)] else entry_of state a.
Proof.
  intros Hp H. destruct state as [| | | | | |d]; try done. cbn in H.
  destruct (default (JObj []) (dget p d)) as [| | | | | |entries] eqn:Ed; try done. injection H as <-. split.
  - apply printable_dset; [done|]. apply printable_dset.
    + destruct (dget p d) as [j|] eqn:Ej; cbn in Ed; [subst j; by eapply printable_dget|by injection Ed as <-].
    + apply printable_JObj. split; [repeat constructor; set_solver|]. cbn [forallb snd]. by rewrite printable_receipt, printable_jopt.
  - intros a. by apply entry_of_set.
Qed.
Lemma consume_update_spec p i state state' proof : printable state = true -> consume_update p i state = Ok (state', proof) ->
  printable state' = true /\ proof = proofs state (p, i) /\
  match proof with
  | Some _ => exists entry, entry_of state (p, i) = Some entry /\
      forall a, entry_of state' a = if decide (a = (p, i)) then Some (dset "state" (JStr "in_progress") entry) else entry_of state a
  | None => state' = state
  end.
Proof.
  intros Hp H. rewrite proofs_entry. destruct state as [| | | | | |d]; try done. cbn in *.
  destruct (dget p d) as [[| | | | | |entries]|] eqn:Ed; try by injection H as <- <-.
  destruct (dget i entries) as [[| | | | | |entry]|] eqn:Ee; try by injection H as <- <-.
  destruct (entry_proof entry) as [pr|] eqn:Epr; [|by injection H as <- <-]. injection H as <- <-.
  pose proof (printable_dget _ _ _ Hp Ed) as Hpe. pose proof (printable_dget _ _ _ Hpe Ee) as Hpn. split.
  - by repeat apply printable_dset.
  - split; [done|]. exists entry. split; [done|]. intros a. apply entry_of_set. by rewrite Ed.
Qed.
Lemma complete_update_spec p i receipt token state state' : printable state = true -> complete_update p i receipt token state = Ok (state', tt) ->
  printable state' = true /\
  (forall a, entry_of state' a = if decide (a = (p, i)) then
    (if match entry_of state a with Some entry => entry_matches receipt token entry | None => true end then None else entry_of state a) else entry_of state a).
Proof.
  intros Hp H. destruct state as [| | | | | |d]; try done. cbn in H. injection H as <-.
  destruct (dget p d) as [[| | | | | |entries]|] eqn:Ed;
    try (split; [done|]; intros a; case_decide as Ea; [subst a; cbn; by rewrite Ed|done]).
  destruct (dget i entries) as [[| | | | | |entry]|] eqn:Ee;
    try (split; [done|]; intros a; case_decide as Ea; [subst a; cbn; by rewrite Ed, Ee|done]).
  destruct (entry_matches receipt token entry) eqn:Em.
  - split; [by apply printable_drop|]. intros a. rewrite (entry_of_drop _ _ _ _ _ Ed). case_decide as Ea; [|done]. subst a. cbn. by rewrite Ed, Ee, Em.
  - split; [done|]. intros a. case_decide as Ea; [|done]. subst a. cbn. by rewrite Ed, Ee, Em.
Qed.
Lemma remove_update_spec p i state state' : printable state = true -> remove_update p i state = Ok (state', tt) ->
  printable state' = true /\ forall a, a <> (p, i) -> entry_of state' a = entry_of state a.
Proof.
  intros Hp H. destruct state as [| | | | | |d]; try done. cbn in H. injection H as <-.
  destruct (dget p d) as [[| | | | | |entries]|] eqn:Ed; try done.
  split; [by apply printable_drop|]. intros a Ha. rewrite (entry_of_drop _ _ _ _ _ Ed). by rewrite decide_False.
Qed.
(** What [consume] marked for its receipt and token is what [complete] removes. *)
Lemma marked_matches receipt token :
  entry_matches receipt token (dset "state" (JStr "in_progress") [("receipt", receipt_document receipt); ("token", jopt token)]) = true.
Proof.
  unfold entry_matches, json_eq. rewrite dget_dset_eq, !dget_dset_ne by done.
  change (dget "receipt" _) with (Some (receipt_document receipt)). change (dget "token" _) with (Some (jopt token)).
  by rewrite !bool_decide_eq_true_2.
Qed.

(** ** The file under every schedule of failures *)

(** An update that went through changed the state in the file; one that did not either changed it
    or left the file alone. *)
Definition applied {A : Type} (f : update A) (v v' : drive) (a : A) : Prop :=
  exists state', f (state_of v) = Ok (state', a) /\ dr_file v' = Some (dumps_ordered state').

Lemma on_drive_cases R (e : custody_op R) v r v' : on_drive R e v = (r, v') ->
  (exists s, drive_call R e (mkDrive (dr_file v) (dr_temporaries v) s) = (r, v')) \/
  (exists n s, drive_cut R e n (mkDrive (dr_file v) (dr_temporaries v) s) = (r, v')).
Proof.
  unfold on_drive. destruct v as [file temps [|[|n] s]]; cbn; intros H; [left; by exists []|left; by exists s|right; by exists n, s].
Qed.
Definition keeps_file (R : Type) (e : custody_op R) : Prop := match e with MoveIntoPlace _ => False | _ => True end.
Lemma on_drive_file R (e : custody_op R) v : keeps_file R e -> dr_file (on_drive R e v).2 = dr_file v.
Proof.
  intros He. destruct (on_drive R e v) as [r v'] eqn:E. apply on_drive_cases in E as [[s H]|(n & s & H)]; destruct e; try done; cbn in *; by inversion H.
Qed.
Lemma on_drive_Ok R (e : custody_op R) v a v' : on_drive R e v = (Ok a, v') ->
  exists s, drive_call R e (mkDrive (dr_file v) (dr_temporaries v) s) = (Ok a, v').
Proof. intros [H|(n & s & H)]%on_drive_cases; [done|]. by destruct e. Qed.
Lemma frame_file {A : Type} (p : custody_prog A) v r v' : only keeps_file p -> leads on_drive p v r v' -> dr_file v' = dr_file v.
Proof.
  intros Hp H. apply (only_leads on_drive keeps_file (fun v v' => dr_file v' = dr_file v) p v r v'); [by intros ?|by intros ???->| |done..].
  intros R e w He. by apply on_drive_file.
Qed.
Lemma moved_file v t r v' : on_drive _ (MoveIntoPlace t) v = (r, v') ->
  (r = Ok tt /\ exists text, dr_temporaries v !! t = Some text /\ dr_file v' = Some text) \/ (r <> Ok tt /\ dr_file v' = dr_file v).
Proof.
  intros [[s H]|(n & s & H)]%on_drive_cases; cbn in H; [|injection H as <- <-; by right].
  destruct (dr_temporaries v !! t) as [text|]; injection H as <- <-; [left; eauto|by right].
Qed.

Lemma write_state_file st v r v' : leads on_drive (write_state st) v r v' ->
  dr_file v' = Some (dumps_ordered st) \/ (dr_file v' = dr_file v /\ r <> Ok tt).
Proof.
  unfold write_state. intros H%leads_bind_call. destruct (on_drive _ MakeTemporary v) as [[t|x] v1] eqn:E1; cycle 1.
  { destruct H as [-> ->]. right. split; [|done]. change v1 with (Err (A:=string) x, v1).2. rewrite <- E1. by apply on_drive_file. }
  assert (dr_file v1 = dr_file v /\ dr_temporaries v1 !! t = Some "") as [Hf1 Ht1].
  { apply on_drive_Ok in E1 as [s E1]. cbn in E1. injection E1 as <- <-. cbn. by rewrite lookup_insert_eq. }
  apply leads_finally in H as (r0 & v2 & rc & H & Hc & ->).
  assert (dr_file v' = dr_file v2) as -> by (eapply frame_file; [|exact Hc]; by apply only_call).
  rewrite <- Hf1. clear E1 Hf1 Hc v'. apply leads_bind_call in H. destruct (on_drive _ (OpenTemporary t) v1) as [[[]|x] v3] eqn:E; cycle 1.
  { destruct H as [-> ->]. right. split; [|by destruct rc]. change v3 with (Err (A:=unit) x, v3).2. rewrite <- E. by apply on_drive_file. }
  assert (dr_file v3 = dr_file v1 /\ dr_temporaries v3 = dr_temporaries v1) as [<- Ht] by (apply on_drive_Ok in E as [s E]; by injection E as <-).
  rewrite <- Ht in Ht1. clear E Ht v1. apply leads_bind in H as [([] & v4 & H & Hm)|(x & -> & H)]; cycle 1.
  { right. split; [|by destruct rc]. eapply frame_file; [|exact H]. by apply only_finally; apply only_call. }
  assert (dr_file v4 = dr_file v3) as <- by (eapply frame_file; [|exact H]; by apply only_finally; apply only_call).
  apply leads_finally in H as (r1 & v5 & [[]|] & Hw & Hclose & E); [|done]. subst r1. apply leads_call in Hw, Hclose.
  apply on_drive_Ok in Hw as [s Hw]. apply on_drive_Ok in Hclose as [s' Hclose]. cbn in Hw. injection Hw as <-. cbn in Hclose. injection Hclose as <-.
  apply leads_call in Hm. apply moved_file in Hm as [(-> & text & Hl & Hf)|[Hr Hf]].
  - left. rewrite Hf. cbn in Hl. rewrite lookup_insert_eq, Ht1 in Hl. by injection Hl as <-.
  - right. split; [done|]. by destruct rc.
Qed.

Lemma read_state_file v r v' : leads on_drive read_state v r v' -> dr_file v' = dr_file v /\ forall st, r = Ok st -> st = state_of v.
Proof.
  intros H. split.
  { eapply frame_file; [|exact H]. unfold read_state. solve_only. }
  intros st ->. unfold read_state in H. apply leads_attempt_bind in H as (o & v1 & Ho%leads_call%on_drive_cases & H).
  unfold state_of. destruct Ho as [[s Ho]|(n & s & Ho)]; cbn in Ho.
  - destruct (dr_file v); injection Ho as <- _; [by apply leads_Ret in H as [[= ->] _]|]. by apply leads_Ret in H as [[= ->] _].
  - injection Ho as <- _. by apply leads_Raise in H as [[=] _].
Qed.

(** The file is changed by the whole update or not at all, whatever fails and whenever. *)
Lemma update_file_atomic {A : Type} (f : update A) v r v' : leads on_drive (update_file f) v r v' ->
  (exists a, applied f v v' a /\ forall b, r = Ok b -> b = a) \/ (dr_file v' = dr_file v /\ forall b, r <> Ok b).
Proof.
  unfold update_file. intros H. apply leads_bind_call in H. destruct (on_drive _ MakeParents v) as [[[]|x] v1] eqn:E1; cycle 1.
  { destruct H as [-> ->]. right. split; [|done]. change v1 with (Err (A:=unit) x, v1).2. rewrite <- E1. by apply on_drive_file. }
  assert (dr_file v1 = dr_file v) as Hf1 by (change v1 with (Ok (E:=exn) tt, v1).2; rewrite <- E1; by apply on_drive_file).
  apply leads_bind_call in H. destruct (on_drive _ OpenLockFile v1) as [[[]|x] v2] eqn:E2; cycle 1.
  { destruct H as [-> ->]. right. split; [|done]. rewrite <- Hf1. change v2 with (Err (A:=unit) x, v2).2. rewrite <- E2. by apply on_drive_file. }
  assert (dr_file v2 = dr_file v) as Hf2 by (rewrite <- Hf1; change v2 with (Ok (E:=exn) tt, v2).2; rewrite <- E2; by apply on_drive_file).
  clear E1 E2 Hf1 v1. apply leads_finally in H as (r0 & v3 & rc & H & Hc & ->).
  assert (dr_file v' = dr_file v3) as Hf by (eapply frame_file; [|exact Hc]; by apply only_call).
  clear Hc. apply leads_bind_call in H. destruct (on_drive _ (LockFile true) v2) as [[[]|x] v4] eqn:E4.
  all: assert (dr_file v4 = dr_file v2) as Hf4 by
    (match type of E4 with _ = (?o, _) => change v4 with (o, v4).2 end; rewrite <- E4; by apply on_drive_file).
  2: { destruct H as [-> ->]. right. split; [congruence|by destruct rc]. }
  rewrite Hf2 in Hf4. apply leads_bind in H as [(st & v5 & Hr & H)|(x & -> & H)].
  2: { apply read_state_file in H as [H _]. right. split; [congruence|by destruct rc]. }
  apply read_state_file in Hr as [Hf5 Hst]. specialize (Hst st eq_refl).
  assert (st = state_of v) as -> by (rewrite Hst; unfold state_of; by rewrite Hf4). rewrite Hf4 in Hf5.
  apply leads_bind in H as [([st' a] & v6 & [Hfst ->]%leads_lift & H)|(x & -> & [_ ->]%leads_lift)].
  2: { right. split; [congruence|by destruct rc]. }
  cbv beta iota in H. apply leads_bind in H as [([] & v6 & Hw & [-> ->]%leads_Ret)|(x & -> & Hw)].
  - apply write_state_file in Hw as [Hw|[_ []]]; [|done]. left. exists a. split; [exists st'; split; [done|congruence]|].
    intros b Hb. destruct rc; congruence.
  - apply write_state_file in Hw as [Hw|[Hw _]].
    + left. exists a. split; [exists st'; split; [done|congruence]|]. by destruct rc.
    + right. split; [congruence|by destruct rc].
Qed.

(** A load reads, and answers what is in the file or nothing. *)
Lemma load_file p i v r v' : leads on_drive (load p i) v r v' ->
  dr_file v' = dr_file v /\ forall pr, r = Ok (Some pr) -> proof_of v p i = Some pr.
Proof.
  intros H. split.
  { eapply frame_file; [|exact H]. unfold load. apply only_catch; [|intros e; by destruct (load_failure e)].
    do 2 (apply only_bind; [by apply only_call|intros _]). apply only_finally; [|by apply only_call].
    apply only_bind; [by apply only_call|intros _]. apply only_finally; solve_only. }
  intros pr ->. unfold load in H. apply leads_catch in H as (r0 & v1 & H & Hr).
  destruct r0 as [o|e]; [|by destruct (load_failure e); [apply leads_Ret in Hr as [[=] _]|apply leads_Raise in Hr as [[=] _]]].
  destruct Hr as [[= <-] _].
  apply leads_bind in H as [([] & v2 & H2 & H)|(x & [=] & _)]. apply leads_bind in H as [([] & v3 & H3 & H)|(x & [=] & _)].
  apply leads_finally in H as (r1 & v4 & [[]|] & H & _ & E); [|done]. subst r1.
  apply leads_bind in H as [([] & v5 & H5 & H)|(x & [=] & _)].
  apply leads_finally in H as (r1 & v6 & [[]|] & H & _ & E); [|done]. subst r1.
  apply leads_bind in H as [(text & v7 & H7 & [[= Hpr] _]%leads_Ret)|(x & [=] & _)].
  assert (dr_file v5 = dr_file v) as Hf.
  { apply frame_file in H2, H3, H5; [congruence|by apply only_call..]. }
  apply leads_call, on_drive_Ok in H7 as [s H7]. cbn in H7. unfold proof_of, state_of. rewrite <- Hf.
  destruct (dr_file v5) as [text'|]; [|done]. injection H7 as -> _. by destruct (loads text).
Qed.

(** ** The life of a proof *)

Lemma applied_state {A : Type} (f : update A) v v' a (P : json -> Prop) :
  applied f v v' a -> (forall state', f (state_of v) = Ok (state', a) -> printable state' = true /\ P state') ->
  printable (state_of v') = true /\ P (state_of v').
Proof.
  intros (state' & Hf & Hfile) H. destruct (H _ Hf) as [Hp HP]. unfold state_of. rewrite Hfile, loads_dumps_ordered by done. by split.
Qed.
Lemma same_file v v' : dr_file v' = dr_file v -> state_of v' = state_of v.
Proof. unfold state_of. by intros ->. Qed.

(** Which entries each call may change. *)
Inductive custody_call : Type :=
| CallRecord (receipt : CreationReceipt) (token : option string)
| CallRemove
| CallConsume
| CallComplete (receipt : CreationReceipt) (token : option string).
Definition perform (project instance : string) (c : custody_call) : custody_prog unit :=
  match c with
  | CallRecord receipt token => record project instance receipt token
  | CallRemove => remove project instance
  | CallConsume => consume project instance ;* Ret tt
  | CallComplete receipt token => complete project instance receipt token
  end.

(** The proofs that a call for one instance leaves as they were. *)
Definition kept (p i : string) (c : custody_call) (v : drive) (state : json) : Prop :=
  forall a, a <> (p, i) \/ c = CallConsume -> proofs state a = proofs (state_of v) a.

(** C17. whatever call is made for one instance and whichever file calls fail on the way, the proofs
    of every other instance stay as they were, and a consumed proof stays readable until it is
    completed: only the instance's own record, remove and complete change what it can prove. *)
Theorem other_proofs_survive c p i v r v' : printable (state_of v) = true -> leads on_drive (perform p i c) v r v' ->
  printable (state_of v') = true /\
  forall q j, (q, j) <> (p, i) \/ c = CallConsume -> proof_of v' q j = proof_of v q j.
Proof.
  intros Hp H.
  enough (printable (state_of v') = true /\ kept p i c v (state_of v')) as [H1 H2]
    by (split; [done|]; intros q j; apply (H2 (q, j))).
  assert (Hkeep : forall v1, dr_file v1 = dr_file v -> printable (state_of v1) = true /\ kept p i c v (state_of v1)) by (intros v1 ->%same_file; by split; [|intros a]).
  assert (Hother : forall state', (forall a, a <> (p, i) -> entry_of state' a = entry_of (state_of v) a) -> c <> CallConsume -> kept p i c v state').
  { intros state' He Hc a [Ha|?]; [|done]. by rewrite !proofs_entry, He. }
  destruct c as [receipt token| | |receipt token]; cbn [perform] in H.
  - apply update_file_atomic in H as [([] & Ha & _)|[H _]]; [|by apply Hkeep].
    refine (applied_state _ _ _ _ (kept p i _ v) Ha _). intros st [? He]%record_update_spec; [|done]. split; [done|]. apply Hother; [|done].
    intros a Ha'. by rewrite He, decide_False.
  - apply update_file_atomic in H as [([] & Ha & _)|[H _]]; [|by apply Hkeep].
    refine (applied_state _ _ _ _ (kept p i _ v) Ha _). intros st [? He]%remove_update_spec; [|done]. split; [done|]. by apply Hother.
  - assert (exists r0, leads on_drive (consume p i) v r0 v') as [r0 H'].
    { apply leads_bind in H as [(a & v1 & H & [_ ->]%leads_Ret)|(x & _ & H)]; eauto. }
    apply update_file_atomic in H' as [(pr & Ha & _)|[H' _]]; [|by apply Hkeep].
    refine (applied_state _ _ _ _ (kept p i _ v) Ha _). intros st (? & _ & He)%consume_update_spec; [|done]. split; [done|]. intros a _.
    destruct pr as [pr|]; [|by rewrite He]. destruct He as (entry & Hentry & He). rewrite !proofs_entry, He.
    case_decide as Ea; [|done]. subst a. by rewrite Hentry, entry_proof_mark.
  - apply update_file_atomic in H as [([] & Ha & _)|[H _]]; [|by apply Hkeep].
    refine (applied_state _ _ _ _ (kept p i _ v) Ha _). intros st [? He]%complete_update_spec; [|done]. split; [done|]. apply Hother; [|done].
    intros a Ha'. by rewrite He, decide_False.
Qed.

(** C25. a proof is handed out as it was recorded and is gone once it is completed: after a record
    that went through, a load answers that receipt and token or nothing, a consume answers exactly
    them and leaves them readable, and a complete with them removes the entry. *)
Theorem custody_lifecycle p i receipt token v0 v1 v2 loaded v2' v3 proof : printable (state_of v0) = true ->
  leads on_drive (record p i receipt token) v0 (Ok tt) v1 ->
  leads on_drive (load p i) v1 (Ok loaded) v2' ->
  leads on_drive (consume p i) v2' (Ok proof) v2 ->
  leads on_drive (complete p i receipt token) v2 (Ok tt) v3 ->
  (loaded = None \/ loaded = Some (receipt, jopt token)) /\ proof = Some (receipt, jopt token) /\
  proof_of v2 p i = proof /\ proof_of v3 p i = None.
Proof.
  intros Hp H1 Hl H2 H3.
  apply update_file_atomic in H1 as [([] & Ha1 & _)|[_ H1]]; [|by destruct (H1 tt)].
  destruct (applied_state _ _ _ _ _ Ha1 (fun st Hst => record_update_spec _ _ _ _ _ _ Hp Hst)) as [Hp1 E1].
  assert (proof_of v1 p i = Some (receipt, jopt token)) as Hpr1.
  { change (proofs (state_of v1) (p, i) = Some (receipt, jopt token)). rewrite proofs_entry, E1, decide_True by done. apply entry_proof_record. }
  apply load_file in Hl as [Hf Hl]. pose proof (same_file _ _ Hf) as Es.
  apply update_file_atomic in H2 as [(pr & Ha2 & Hpr)|[_ H2]]; [|by destruct (H2 proof)]. rewrite <- (Hpr proof eq_refl) in *.
  assert (printable (state_of v2') = true) as Hp2' by by rewrite Es.
  destruct (applied_state _ _ _ _ _ Ha2 (fun st Hst => consume_update_spec _ _ _ _ _ Hp2' Hst)) as [Hp2 [Epr E2]].
  rewrite Es in Epr. change (proof = proof_of v1 p i) in Epr. rewrite Hpr1 in Epr. subst proof. clear Hpr.
  destruct E2 as (entry & He & E2). rewrite Es, E1, decide_True in He by done. injection He as <-.
  apply update_file_atomic in H3 as [([] & Ha3 & _)|[_ H3]]; [|by destruct (H3 tt)].
  destruct (applied_state _ _ _ _ _ Ha3 (fun st Hst => complete_update_spec _ _ _ _ _ _ Hp2 Hst)) as [_ E3].
  split_and!.
  - destruct loaded as [lp|]; [|by left]. right. rewrite <- Hpr1. symmetry. exact (Hl lp eq_refl).
  - done.
  - change (proofs (state_of v2) (p, i) = Some (receipt, jopt token)). rewrite proofs_entry, E2, decide_True by done.
    by rewrite entry_proof_mark, entry_proof_record.
  - change (proofs (state_of v3) (p, i) = None). rewrite proofs_entry, E3, decide_True, E2, decide_True by done. by rewrite marked_matches.
Qed.

(** Completing what was not consumed, or with another receipt or token, changes no entry. *)
Lemma complete_needs_consume p i receipt token v r v' : printable (state_of v) = true ->
  leads on_drive (complete p i receipt token) v r v' ->
  (forall entry, entry_of (state_of v) (p, i) = Some entry -> entry_matches receipt token entry = false) ->
  entry_of (state_of v') (p, i) = entry_of (state_of v) (p, i).
Proof.
  intros Hp H Hm. apply update_file_atomic in H as [([] & Ha & _)|[H _]]; [|by rewrite (same_file _ _ H)].
  destruct (applied_state _ _ _ _ _ Ha (fun st Hst => complete_update_spec _ _ _ _ _ _ Hp Hst)) as [_ E].
  rewrite E, decide_True by done. destruct (entry_of (state_of v) (p, i)) as [entry|]; [by rewrite (Hm entry eq_refl)|done].
Qed.
End Drive.

(** ** A custody file in use *)

Module Sample.
Definition name (_ : gmap string string) : string := "tmp".
Definition receipt : CreationReceipt := mkCreationReceipt (mkOperationIdentity "forge:1") ["shop-pgdata"; "shop-filestore"].
Definition other : CreationReceipt := mkCreationReceipt (mkOperationIdentity "forge:2") ["shop-dev-pgdata"].
(** The file after a first instance was recorded. *)
Definition before : drive := (exec (on_drive name) (record "shop" "dev" other None) (mkDrive None ∅ [])).2.
Definition after_record : drive := (exec (on_drive name) (record "shop" "prod" receipt (Some "t-1")) before).2.
Definition after_consume : drive := (exec (on_drive name) (consume "shop" "prod") after_record).2.
Definition after_complete : drive := (exec (on_drive name) (complete "shop" "prod" receipt (Some "t-1")) after_consume).2.
(** The same consumption with a move that fails. *)
Definition failing : drive := mkDrive (dr_file after_record) ∅ (repeat Works 8 ++ [Cut 0]).
End Sample.

Lemma custody_lifecycle_witness :
  proof_of Sample.after_consume "shop" "prod" = Some (Sample.receipt, JStr "t-1") /\ proof_of Sample.after_complete "shop" "prod" = None.
Proof.
  destruct (custody_lifecycle Sample.name "shop" "prod" Sample.receipt (Some "t-1") Sample.before Sample.after_record
    Sample.after_consume (Some (Sample.receipt, JStr "t-1")) Sample.after_record Sample.after_complete (Some (Sample.receipt, JStr "t-1")))
    as (_ & _ & H1 & H2).
  - vm_compute; reflexivity.
  - constructor; vm_compute; reflexivity.
  - constructor; vm_compute; reflexivity.
  - constructor; vm_compute; reflexivity.
  - constructor; vm_compute; reflexivity.
  - split; [exact H1|exact H2].
Defined.
Lemma other_proofs_survive_witness :
  (exec (on_drive Sample.name) (perform "shop" "prod" CallConsume) Sample.failing).1.1 = Err (OSError EIO) /\
  proof_of (exec (on_drive Sample.name) (perform "shop" "prod" CallConsume) Sample.failing).2 "shop" "dev" = Some (Sample.other, JNull).
Proof.
  split; [vm_compute; reflexivity|].
  refine (eq_trans (proj2 (other_proofs_survive Sample.name CallConsume "shop" "prod" Sample.failing _ _ _ (leads_exec _ _ _)) "shop" "dev" _) _).
  - vm_compute; reflexivity.
  - right; reflexivity.
  - vm_compute; reflexivity.
Defined.
