(* ===== verification/Authority.v ===== *)
(** * The local ownership authority ([odoo_forge_postgres_docker/authority.py])

    A signed, append-only ledger of container custody records in one private file, guarded
    by a lock file.  Records are Python dicts: finite maps from field names to JSON values.
    Every method is a program over the file calls of [Filesystem]; Ed25519 is a parameter. *)

From S2P Require Import Prelude Effects Values Json Filesystem Custody.

Abbreviation record := (gmap string json).

(** ** Records *)

Definition REQUIRED_RECORD_FIELDS : list string := ["operation"; "kind"; "name"; "docker_id"; "state"].
Definition STORED_RECORD_FIELDS : list string := REQUIRED_RECORD_FIELDS ++ ["generation"; "key_id"; "signature"].
Definition EVIDENCE_FIELDS : list string :=
  ["schema"; "key_id"; "operation"; "docker_id"; "nonce"; "observed_at"; "expires_at"; "signature"].

Definition str_of (j : json) : option string := match j with JStr s => Some s | _ => None end.
(** [isinstance(value, int)]: a JSON boolean is an [int] too. *)
Definition int_of (j : json) : option Z :=
  match j with JInt z => Some z | JBool b => Some (if b then 1 else 0)%Z | _ => None end.

Definition has_fields (fields : list string) (r : record) : bool :=
  forallb (fun k => bool_decide (is_Some (r !! k))) fields.
(** [record[k] == s] for a string [s]. *)
Definition field_is (r : record) (k s : string) : bool := bool_decide (r !! k = Some (JStr s)).
Definition nonempty_field (r : record) (k : string) : bool :=
  match r !! k with Some (JStr s) => negb (bool_decide (s = "")) | _ => false end.

Definition container_record (operation name docker_id state : string) : record :=
  list_to_map [("operation", JStr operation); ("kind", JStr "container"); ("name", JStr name);
               ("docker_id", JStr docker_id); ("state", JStr state)].

Definition valid_record (r : record) : bool :=
  has_fields REQUIRED_RECORD_FIELDS r &&
  forallb (fun kv => bool_decide (is_Some (str_of kv.2))) (map_to_list r) &&
  forallb (nonempty_field r) ["operation"; "kind"; "name"; "state"] &&
  existsb (field_is r "state") ["reserved"; "active"; "retired"] &&
  (field_is r "state" "reserved" || nonempty_field r "docker_id").
Definition validate_record (r : record) : result exn unit := ensure (valid_record r) AuthorityStateError.

(** ** State *)

Record AuthorityState : Type := mkAuthorityState {
  generation : Z; records : list record; keys : gmap string string;
  active_key : string; used_nonces : list string }.

Definition document_of (r : record) : json := JObj (map_to_list r).
Definition state_document (st : AuthorityState) : json :=
  JObj [("generation", JInt (generation st)); ("records", JArr (map document_of (records st)));
        ("keys", JObj (prod_map id JStr <$> map_to_list (keys st)));
        ("used_nonces", JArr (map JStr (used_nonces st))); ("active_key", JStr (active_key st))].

(** The last record of an operation for a name. *)
Definition matches_record (operation name : string) (r : record) : bool :=
  field_is r "operation" operation && field_is r "name" name.
Definition latest (st : AuthorityState) (operation name : string) : option record :=
  find_first (matches_record operation name) (reverse (records st)).

(** [record["state"]], [record["docker_id"]] of a validated record. *)
Definition text_field (r : record) (k : string) : string :=
  match r !! k with Some (JStr s) => s | _ => "" end.

(** The latest state of each other operation that has a record for [name]. *)
Definition states_by_operation (st : AuthorityState) (operation name : string) : list (string * string) :=
  foldl (fun d r =>
      if field_is r "name" name && negb (field_is r "operation" operation)
      then dset (text_field r "operation") (text_field r "state") d else d)
    [] (records st).
Definition held_by_other_operation (st : AuthorityState) (operation name : string) : bool :=
  existsb (fun kv => negb (bool_decide (kv.2 = "retired"))) (states_by_operation st operation name).

Section Authority.
(** The root directory, the process's user, and Ed25519 over base64 texts: signing returns
    [None] when the key does not decode, verification is [false] for every failure. *)
Variable root : fpath.
Variable getuid : nat.
Variable ed25519_sign : string -> string -> option string.
Variable ed25519_verify : string -> string -> string -> bool.

Definition state_path : fpath := root ++ ["authority.json"].
Definition lock_path : fpath := root ++ ["authority.lock"].

(** ** Signatures *)

Definition payload (values : record) : string := dumps_compact (document_of (delete "signature" values)).
Definition sign (encoded_key : string) (evidence : record) : result exn string :=
  match ed25519_sign encoded_key (payload evidence) with
  | Some s => Ok s
  | None => Err (ValueError "invalid private key")
  end.
Definition verify (encoded_key : string) (evidence : record) : bool :=
  match evidence !! "signature" with
  | Some (JStr s) => ed25519_verify encoded_key s (payload evidence)
  | _ => false
  end.

(** ** Reading a state document *)

Definition key_of (kv : string * json) : result exn (string * string) :=
  match kv.2 with JStr s => Ok (kv.1, s) | _ => Err AuthorityStateError end.

Fixpoint results {A B : Type} (f : A -> result exn B) (l : list A) : result exn (list B) :=
  match l with
  | [] => Ok []
  | x :: l' => let! y := f x in let! ys := results f l' in Ok (y :: ys)
  end.

(** One stored record; [highest] is the generation of the record before it. *)
Definition read_record (ks : gmap string string) (highest : Z) (j : json) : result exn (record * Z) :=
  match j with
  | JObj d =>
    let r : record := list_to_map d in
    ensure (has_fields STORED_RECORD_FIELDS r) AuthorityStateError ;!
    match r !! "key_id" ≫= str_of, r !! "generation" ≫= int_of with
    | Some key_id, Some g =>
      match ks !! key_id with
      | None => Err AuthorityStateError
      | Some key =>
        validate_record (list_to_map (omap (fun k => (k,.) <$> r !! k) REQUIRED_RECORD_FIELDS)) ;!
        ensure (negb (g <=? highest)%Z) AuthorityStateError ;!
        ensure (verify key r) AuthorityStateError ;!
        Ok (r, g)
      end
    | _, _ => Err AuthorityStateError
    end
  | _ => Err AuthorityStateError
  end.

Fixpoint read_records (ks : gmap string string) (highest : Z) (l : list json) : result exn (list record * Z) :=
  match l with
  | [] => Ok ([], highest)
  | j :: l' =>
    let! '(r, g) := read_record ks highest j in
    let! '(rs, h) := read_records ks g l' in
    Ok (r :: rs, h)
  end.

Definition validate_state (payload : json) : result exn AuthorityState :=
  match payload with
  | JObj d =>
    match dget "generation" d ≫= int_of, dget "records" d, dget "keys" d, dget "used_nonces" d,
          dget "active_key" d ≫= str_of with
    | Some g, Some (JArr rs), Some (JObj kd), Some (JArr ns), Some active =>
      ensure (negb (g <? 0)%Z) AuthorityStateError ;!
      let! kl := results key_of kd in
      let ks : gmap string string := list_to_map kl in
      ensure (bool_decide (is_Some (ks !! active))) AuthorityStateError ;!
      let! nonces := results (fun j => match j with JStr s => Ok s | _ => Err AuthorityStateError end) ns in
      let! '(rs, highest) := read_records ks 0 rs in
      ensure (highest =? g)%Z AuthorityStateError ;!
      Ok (mkAuthorityState g rs ks active nonces)
    | _, _, _, _, _ => Err AuthorityStateError
    end
  | _ => Err AuthorityStateError
  end.

(** ** Custody of the files *)

Definition ensure_root : store_prog unit := make_private_dir getuid AuthorityCustodyError root.

(** [_open_private_file(self._lock_path, create=True)] *)
Definition open_lock : store_prog unit :=
  catch (call (OpenLock lock_path FILE_MODE))
    (fun e => Raise (if is_os_error e then AuthorityCustodyError else e)) ;*
  let* checked := attempt (validate_private_path getuid AuthorityCustodyError lock_path FILE_MODE false) in
  match checked with
  | Ok _ => Ret tt
  | Err e => call (CloseFd lock_path) ;* Raise e
  end.

(** [with self.locked(): body] *)
Definition locked {A : Type} (body : store_prog A) : store_prog A :=
  ensure_root ;* open_lock ;*
  let* r := attempt (or_raise (call (Flock lock_path) ;* body) AuthorityStateError) in
  let* unlocked := attempt (call (Funlock lock_path)) in
  call (CloseFd lock_path) ;* lift unlocked ;* lift r.

Definition read : store_prog AuthorityState :=
  ensure_root ;*
  let* fd := catch (open_private_file getuid AuthorityCustodyError state_path)
               (fun e => Raise (if bool_decide (e = OSError ENOENT) then AuthorityStateError else e)) in
  let* text := or_raise (closing (call (ReadFd fd)) fd) AuthorityStateError in
  match loads text with
  | None => Raise AuthorityStateError
  | Some payload => lift (validate_state payload)
  end.

Definition fsync_directory : store_prog unit :=
  call (OpenRead root) ;* closing (call (Fsync root)) root.

Definition write_atomic (st : AuthorityState) : store_prog unit :=
  let* token := call (TokenHex 16) in
  commit_file AuthorityStateError (root ++ [".authority-" +:+ token +:+ ".tmp"]) state_path
    (dumps_compact (state_document st)) ;*
  suppress_os fsync_directory.

Definition add_key (st : AuthorityState) : store_prog AuthorityState :=
  let* key_id := call (TokenHex 16) in
  let* private := call GenerateKey in
  Ret (mkAuthorityState (generation st) (records st) (<[key_id := private]> (keys st)) key_id (used_nonces st)).

Definition read_or_initial_state (initializing : bool) : store_prog AuthorityState :=
  let* present := call (PathExists state_path) in
  if present : bool then read
  else if negb initializing then Raise AuthorityStateError
  else add_key (mkAuthorityState 0 [] ∅ "" []).

(** ** Appending *)

(** The stored form of a record: numbered, keyed and signed. *)
Definition stored_record (st : AuthorityState) (r : record) : result exn record :=
  let numbered := <["key_id" := JStr (active_key st)]> (<["generation" := JInt (generation st + 1)]> r) in
  let! signature := sign (default "" (keys st !! active_key st)) numbered in
  Ok (<["signature" := JStr signature]> numbered).

Definition appended (st : AuthorityState) (r : record) : result exn AuthorityState :=
  validate_record r ;!
  let! stored := stored_record st r in
  Ok (mkAuthorityState (generation st + 1) (records st ++ [stored]) (keys st) (active_key st) (used_nonces st)).

Definition append (st : AuthorityState) (r : record) : store_prog AuthorityState :=
  let* st' := lift (appended st r) in
  write_atomic st' ;* Ret st'.

(** ** Operations *)

Definition write (r : record) : store_prog unit :=
  lift (validate_record r) ;*
  let* present := call (PathExists lock_path) in
  locked (let* st := read_or_initial_state (negb present) in append st r ;* Ret tt).

Definition reserve (operation name : string) : store_prog unit :=
  let* present := call (PathExists lock_path) in
  locked (let* st := read_or_initial_state (negb present) in
          append st (container_record operation name "" "reserved") ;* Ret tt).

(** What [_transition] demands of the latest record. *)
Definition may_transition (o : option record) (expected docker_id : string) : bool :=
  match o with
  | Some r => field_is r "state" expected && existsb (field_is r "docker_id") [""; docker_id]
  | None => false
  end.
Definition transition (operation name docker_id expected target : string) : store_prog unit :=
  locked (let* st := read_or_initial_state false in
          if negb (may_transition (latest st operation name) expected docker_id) then Raise AuthorityStateError
          else append st (container_record operation name docker_id target) ;* Ret tt).

Definition bind_resource (operation name docker_id : string) : store_prog unit :=
  transition operation name docker_id "reserved" "reserved".
Definition activate (operation name docker_id : string) : store_prog unit :=
  transition operation name docker_id "reserved" "active".
Definition retire (operation name docker_id : string) : store_prog unit :=
  transition operation name docker_id "active" "retired".

Definition retire_absent (operation name : string) (docker_id : option string) : store_prog unit :=
  locked (let* st := read_or_initial_state false in
    match latest st operation name with
    | None => Raise AuthorityStateError
    | Some r =>
      if negb (existsb (field_is r "state") ["active"; "retired"]) ||
         match docker_id with Some d => negb (field_is r "docker_id" d) | None => false end
      then Raise AuthorityStateError
      else if field_is r "state" "retired" then Ret tt
      else append st (container_record operation name (text_field r "docker_id") "retired") ;* Ret tt
    end).

(** The records [converge] still has to append. *)
Definition converge_steps (st : AuthorityState) (operation name docker_id : string) : result exn (list record) :=
  let step := container_record operation name in
  if held_by_other_operation st operation name then Err CustodyTransitionConflictError else
  match latest st operation name with
  | None => Ok [step "" "reserved"; step docker_id "reserved"; step docker_id "active"]
  | Some r =>
    if field_is r "state" "reserved" && field_is r "docker_id" ""
    then Ok [step docker_id "reserved"; step docker_id "active"]
    else if field_is r "state" "reserved" && field_is r "docker_id" docker_id
    then Ok [step docker_id "active"]
    else if negb (field_is r "kind" "container") || negb (field_is r "state" "active") ||
            negb (field_is r "docker_id" docker_id)
    then Err CustodyTransitionConflictError
    else Ok []
  end.

Fixpoint append_all (st : AuthorityState) (rs : list record) : store_prog AuthorityState :=
  match rs with
  | [] => Ret st
  | r :: rs' => let* st' := append st r in append_all st' rs'
  end.

Definition converge (operation name docker_id : string) : store_prog unit :=
  let* present := call (PathExists lock_path) in
  locked (let* st := read_or_initial_state (negb present) in
          let* steps := lift (converge_steps st operation name docker_id) in
          append_all st steps ;* Ret tt).

Definition rotate_keys : store_prog unit :=
  locked (let* st := read in let* st' := add_key st in write_atomic st').

(** ** Queries *)

Definition has_record (operation name : string) : store_prog bool :=
  let* st := read in Ret (bool_decide (is_Some (latest st operation name))).

Definition lifecycle_records : store_prog (list record) :=
  let* st := read in
  Ret (map snd (dict_of (map (fun r => ((text_field r "operation", text_field r "name"), r)) (records st)))).

Definition owned (st : AuthorityState) (operation name docker_id : string) : bool :=
  match latest st operation name with
  | Some r => field_is r "docker_id" docker_id && field_is r "state" "active"
  | None => false
  end.
Definition owns (operation name docker_id : string) : store_prog bool :=
  let* st := read in Ret (owned st operation name docker_id).

(** ** Evidence *)

Definition attested (st : AuthorityState) (operation : json) (docker_id : string) : bool :=
  existsb (fun r => bool_decide (r !! "operation" = Some operation) && field_is r "docker_id" docker_id &&
                    field_is r "state" "active") (records st).

Definition issue_evidence (operation docker_id nonce : string) (observed_at expires_at : Z) : store_prog record :=
  if bool_decide (nonce = "") || (observed_at <? 0)%Z || (expires_at <=? observed_at)%Z
  then Raise AuthorityStateError
  else locked (
    let* st := read in
    if negb (attested st (JStr operation) docker_id) then Raise AuthorityStateError else
    let evidence : record := list_to_map
      [("schema", JInt 1); ("key_id", JStr (active_key st)); ("operation", JStr operation);
       ("docker_id", JStr docker_id); ("nonce", JStr nonce); ("observed_at", JInt observed_at);
       ("expires_at", JInt expires_at)] in
    let* signature := lift (sign (default "" (keys st !! active_key st)) evidence) in
    Ret (<["signature" := JStr signature]> evidence)).

(** The shape and time checks that need no state. *)
Definition evidence_shape (evidence : record) (docker_id : string) (now : Z) : bool :=
  bool_decide (dom evidence = list_to_set EVIDENCE_FIELDS) && field_is evidence "docker_id" docker_id &&
  forallb (nonempty_field evidence) ["key_id"; "operation"; "docker_id"; "nonce"; "signature"] &&
  match evidence !! "schema" ≫= int_of, evidence !! "observed_at" ≫= int_of, evidence !! "expires_at" ≫= int_of with
  | Some schema, Some observed_at, Some expires_at =>
    (schema =? 1)%Z && (observed_at <=? now)%Z && (now <? expires_at)%Z
  | _, _, _ => false
  end.

Definition with_nonce (st : AuthorityState) (nonce : string) : AuthorityState :=
  mkAuthorityState (generation st) (records st) (keys st) (active_key st) (used_nonces st ++ [nonce]).

(** The checks against the state. *)
Definition accepts_evidence (st : AuthorityState) (evidence : record) (docker_id : string) : bool :=
  match keys st !! text_field evidence "key_id" with
  | None => false
  | Some key =>
    negb (bool_decide (text_field evidence "nonce" ∈ used_nonces st)) && verify key evidence &&
    match evidence !! "operation" with Some operation => attested st operation docker_id | None => false end
  end.

(** [except (AuthorityError, InvalidSignature, ValueError, TypeError, KeyError)] *)
Definition refuses_evidence (e : exn) : bool :=
  match e with
  | AuthorityCustodyError | AuthorityStateError | ValueError _ | TypeError _ | KeyError _ => true
  | _ => false
  end.

Definition verify_evidence (evidence : record) (docker_id : string) (now : Z) : store_prog bool :=
  if negb (evidence_shape evidence docker_id now) then Ret false else
  catch (locked (let* st := read in
                 if negb (accepts_evidence st evidence docker_id) then Ret false
                 else write_atomic (with_nonce st (text_field evidence "nonce")) ;* Ret true))
    (fun e => if refuses_evidence e then Ret false else Raise e).

(** [LocalOwnershipAuthority.recover(root)] *)
Definition recover : store_prog unit := read ;* Ret tt.
End Authority.
