(* ===== verification/AuthorityFacts.v ===== *)
(** * Properties of the ownership authority

    The abstract contract is a ledger: the state the authority file decodes to.  Every
    operation moves the ledger by the steps of [custody_step], under every schedule of I/O
    failures; on those steps custody of a name is exclusive. *)

From S2P Require Import Prelude Effects Values Json JsonFacts Filesystem Custody Authority.

Section Facts.
Variable root : fpath.
Context {uid quantum : nat} {token : string}.
Variable ed25519_sign : string -> string -> option string.
Variable ed25519_verify : string -> string -> string -> bool.
(** Ed25519: what a key signs, it verifies. *)
Hypothesis sign_verify : forall key message signature,
  ed25519_sign key message = Some signature -> ed25519_verify key signature message = true.

Abbreviation posix := (posix uid quantum token).
Abbreviation private_file := (@private_file uid).
Abbreviation state_path := (state_path root).
Abbreviation verify := (verify ed25519_verify).
Abbreviation validate_state := (validate_state ed25519_verify).
Abbreviation appended := (appended ed25519_sign).
Abbreviation read := (read root uid ed25519_verify).

(** ** States the authority writes *)

Definition flat (j : json) : bool := match j with JStr _ | JInt _ => true | _ => false end.

(** The required fields alone, as [_validate_state] copies them. *)
Definition required (r : record) : record := list_to_map (omap (fun k => (k,.) <$> r !! k) REQUIRED_RECORD_FIELDS).

Record wf_stored (ks : gmap string string) (r : record) (g : Z) : Prop := {
  ws_fields : has_fields STORED_RECORD_FIELDS r = true;
  ws_generation : r !! "generation" = Some (JInt g);
  ws_key : exists id key, r !! "key_id" = Some (JStr id) /\ ks !! id = Some key /\ verify key r = true;
  ws_valid : valid_record (required r) = true;
  ws_flat : forall k v, r !! k = Some v -> flat v = true }.

(** Generations increase from [lo] to [hi]. *)
Inductive wf_chain (ks : gmap string string) : Z -> list record -> Z -> Prop :=
| chain_nil lo : wf_chain ks lo [] lo
| chain_cons lo r g rs hi : wf_stored ks r g -> (lo < g)%Z -> wf_chain ks g rs hi -> wf_chain ks lo (r :: rs) hi.

Record wf_state (st : AuthorityState) : Prop := {
  wf_chained : wf_chain (keys st) 0 (records st) (generation st);
  wf_active : is_Some (keys st !! active_key st) }.

Lemma required_lookup r k :
  required r !! k = if decide (k ∈ REQUIRED_RECORD_FIELDS) then r !! k else None.
Proof.
  unfold required. case_decide as Hk.
  - destruct (r !! k) as [v|] eqn:E.
    + apply elem_of_list_to_map_1.
      * assert (H : forall l, NoDup l -> NoDup (omap (M:=list) (fun k => (k,.) <$> r !! k) l).*1).
        { induction 1 as [|x l Hx _ IH]; [apply NoDup_nil_2|]. cbn. destruct (r !! x); [|exact IH]. cbn.
          constructor; [|exact IH]. intros (y & Ey & Hy)%list_elem_of_fmap.
          apply list_elem_of_omap in Hy as (z & Hz & Ez). destruct (r !! z); [|done]. injection Ez as <-. by subst. }
        apply H. by apply (bool_decide_unpack _).
      * apply list_elem_of_omap. exists k. by rewrite E.
    + apply not_elem_of_list_to_map_1. intros (y & -> & Hy)%list_elem_of_fmap.
      apply list_elem_of_omap in Hy as (z & Hz & Ez). destruct (r !! z) eqn:Er; [|done]. injection Ez as <-. cbn in E. congruence.
  - apply not_elem_of_list_to_map_1. intros (y & -> & Hy)%list_elem_of_fmap.
    apply list_elem_of_omap in Hy as (z & Hz & Ez). destruct (r !! z); [|done]. injection Ez as <-. done.
Qed.

Lemma valid_record_spec r :
  valid_record r = true <->
  (forall k, k ∈ REQUIRED_RECORD_FIELDS -> is_Some (r !! k)) /\
  (forall k v, r !! k = Some v -> is_Some (str_of v)) /\
  (forall k, k ∈ ["operation"; "kind"; "name"; "state"] -> nonempty_field r k = true) /\
  (exists s, s ∈ ["reserved"; "active"; "retired"] /\ field_is r "state" s = true) /\
  (field_is r "state" "reserved" || nonempty_field r "docker_id" = true).
Proof.
  unfold valid_record, has_fields. rewrite !andb_true_iff, existsb_elem, !forallb_elem.
  setoid_rewrite bool_decide_eq_true. split.
  - intros ((((H1 & H2) & H3) & H4) & H5). split_and!; try done. intros k v Hk. apply (H2 (k, v)). by apply elem_of_map_to_list.
  - intros (H1 & H2 & H3 & H4 & H5). split_and!; try done. intros [k v] Hk. apply elem_of_map_to_list in Hk. by eapply H2.
Qed.

Lemma valid_required r r' :
  (forall k, k ∈ REQUIRED_RECORD_FIELDS -> r' !! k = r !! k) -> valid_record r = true -> valid_record (required r') = true.
Proof.
  intros Heq. assert (E : forall k, k ∈ REQUIRED_RECORD_FIELDS -> required r' !! k = r !! k).
  { intros k Hk. rewrite required_lookup, decide_True by done. by apply Heq. }
  assert (Ef : forall k s, k ∈ REQUIRED_RECORD_FIELDS -> field_is (required r') k s = field_is r k s).
  { intros k s Hk. unfold field_is. by rewrite E. }
  assert (En : forall k, k ∈ REQUIRED_RECORD_FIELDS -> nonempty_field (required r') k = nonempty_field r k).
  { intros k Hk. unfold nonempty_field. by rewrite E. }
  assert (Hin : forall k, k ∈ ["operation"; "kind"; "name"; "state"] -> k ∈ REQUIRED_RECORD_FIELDS).
  { intros k. unfold REQUIRED_RECORD_FIELDS. rewrite !elem_of_cons, elem_of_nil. tauto. }
  assert (Hs : "state" ∈ REQUIRED_RECORD_FIELDS /\ "docker_id" ∈ REQUIRED_RECORD_FIELDS) by by split; apply (bool_decide_unpack _).
  rewrite !valid_record_spec. intros (H1 & H2 & H3 & (s & Hs' & H4) & H5). split_and!.
  - intros k Hk. rewrite E by done. by apply H1.
  - intros k v. rewrite required_lookup. case_decide; [|done]. rewrite Heq by done. apply H2.
  - intros k Hk. rewrite En by by apply Hin. by apply H3.
  - exists s. by rewrite Ef by apply Hs.
  - by rewrite Ef, En by apply Hs.
Qed.

(** ** A state is read back from its document *)

Definition text_key_le (a b : string * string) : Prop := str_le a.1 b.1.
#[local] Instance text_key_le_dec : RelDecision text_key_le.
Proof. intros a b. unfold text_key_le. apply _. Defined.

Lemma list_to_map_sorted {A} (m : gmap string A) (R : relation (string * A)) `{!RelDecision R} :
  list_to_map (merge_sort R (map_to_list m)) = m.
Proof.
  rewrite <- (list_to_map_to_list m) at 2. apply list_to_map_proper.
  - rewrite merge_sort_Permutation. apply NoDup_fst_map_to_list.
  - apply merge_sort_Permutation.
Qed.

Lemma canon_document r :
  (forall k v, r !! k = Some v -> flat v = true) ->
  canon (document_of r) = JObj (merge_sort json_key_le (map_to_list r)).
Proof.
  intros Hf. unfold document_of. cbn [canon]. do 2 f_equal.
  rewrite <- (map_id (map_to_list r)) at 2. apply map_ext_in. intros [k v] Hkv%list_elem_of_In.
  apply elem_of_map_to_list in Hkv. pose proof (Hf k v Hkv). by destruct v.
Qed.

Lemma read_record_wf ks h r g :
  wf_stored ks r g -> (h < g)%Z ->
  read_record ed25519_verify ks h (canon (document_of r)) = Ok (r, g).
Proof.
  intros [Hf Hg (id & key & Hid & Hkey & Hv) Hr Hflat] Hlt. rewrite canon_document by done. cbn [read_record].
  rewrite list_to_map_sorted, Hf. cbn [ensure result_bind]. rewrite Hid, Hg. cbn [mbind option_bind str_of int_of].
  rewrite Hkey. unfold validate_record. change (valid_record (list_to_map _)) with (valid_record (required r)).
  rewrite Hr, Hv. cbn [ensure result_bind]. destruct (Z.leb_spec g h); [lia|done].
Qed.

Lemma read_records_wf ks lo rs hi :
  wf_chain ks lo rs hi -> read_records ed25519_verify ks lo (map canon (map document_of rs)) = Ok (rs, hi).
Proof.
  induction 1 as [lo|lo r g rs hi Hr Hlt _ IH]; [done|]. cbn [map read_records].
  rewrite (read_record_wf _ _ _ _ Hr Hlt). cbn [result_bind]. by rewrite IH.
Qed.

Lemma chain_le ks lo rs hi : wf_chain ks lo rs hi -> (lo <= hi)%Z.
Proof. induction 1; lia. Qed.

Lemma results_map {A B C} (f : B -> result exn C) (g : A -> B) (h : A -> C) l :
  (forall x, x ∈ l -> f (g x) = Ok (h x)) -> results f (map g l) = Ok (map h l).
Proof.
  induction l as [|x l IH]; intros H; [done|]. cbn. rewrite H by (by left). cbn.
  rewrite IH; [done|]. intros y Hy. apply H. by right.
Qed.

Lemma validate_state_wf st : wf_state st -> validate_state (canon (state_document st)) = Ok st.
Proof.
  intros [Hc Ha]. destruct st as [g rs ks active nonces]. cbn in Hc, Ha.
  assert (Hks : canon (JObj (prod_map id JStr <$> map_to_list ks)) =
                JObj (map (prod_map id JStr) (merge_sort text_key_le (map_to_list ks)))).
  { cbn [canon]. f_equal. rewrite <- (merge_sort_by_key text_key_le json_key_le (prod_map id JStr));
      [|done..|apply NoDup_fst_map_to_list]. f_equal. rewrite map_map. by apply map_ext. }
  change (canon (state_document (mkAuthorityState g rs ks active nonces))) with
    (JObj [("active_key", JStr active); ("generation", JInt g); ("keys", canon (JObj (prod_map id JStr <$> map_to_list ks)));
           ("records", JArr (map canon (map document_of rs))); ("used_nonces", JArr (map canon (map JStr nonces)))]).
  rewrite Hks. unfold Authority.validate_state. cbn [dget].
  repeat first [rewrite decide_False by done | rewrite decide_True by done].
  cbn [mbind option_bind int_of str_of]. pose proof (chain_le _ _ _ _ Hc).
  destruct (Z.ltb_spec g 0); [lia|]. cbn [negb ensure result_bind].
  rewrite (results_map key_of (prod_map id JStr) id) by (by intros [k v]). rewrite map_id. cbn [result_bind].
  rewrite list_to_map_sorted, bool_decide_true by done. cbn [ensure result_bind].
  rewrite map_map. rewrite (results_map _ _ id) by done. rewrite map_id. cbn [result_bind].
  rewrite (read_records_wf _ _ _ _ Hc). cbn [result_bind]. by rewrite Z.eqb_refl.
Qed.

Lemma printable_document r : (forall k v, r !! k = Some v -> flat v = true) -> printable (document_of r) = true.
Proof.
  intros Hf. unfold document_of. cbn [printable]. rewrite andb_true_iff, bool_decide_eq_true, forallb_elem. split.
  - apply NoDup_fst_map_to_list.
  - intros [k v] Hkv%elem_of_map_to_list. pose proof (Hf k v Hkv). by destruct v.
Qed.

Lemma printable_state st : wf_state st -> printable (state_document st) = true.
Proof.
  intros [Hc _]. unfold state_document. cbn [printable forallb snd]. rewrite !andb_true_iff. split_and!; try done.
  - induction Hc as [|lo r g rs hi Hr _ _ IH]; [done|]. cbn. rewrite IH, andb_true_r.
    apply printable_document, (ws_flat _ _ _ Hr).
  - apply bool_decide_eq_true. change (NoDup (prod_map id JStr <$> map_to_list (keys st)).*1).
    rewrite <- list_fmap_compose. apply NoDup_fst_map_to_list.
  - apply forallb_elem. intros j (x & -> & _)%list_elem_of_fmap. done.
  - apply forallb_elem. intros j (x & -> & _)%list_elem_of_fmap. done.
Qed.

(** ** Appending keeps the state well formed *)

Lemma wf_stored_new st r r' :
  is_Some (keys st !! active_key st) -> valid_record r = true ->
  stored_record ed25519_sign st r = Ok r' -> wf_stored (keys st) r' (generation st + 1).
Proof using sign_verify.
  intros [key Hkey] Hr. unfold stored_record, sign. rewrite Hkey. change (default "" (Some key)) with key.
  set (numbered := <["key_id":=_]> _). intros (s & Hs & H)%result_bind_Ok. injection H as <-.
  destruct (ed25519_sign key (payload numbered)) as [sg|] eqn:Esg; [|done]. injection Hs as ->.
  assert (Hother : forall k, k ∉ ["generation"; "key_id"; "signature"] ->
    <["signature":=JStr s]> numbered !! k = r !! k).
  { intros k. rewrite !not_elem_of_cons. intros (? & ? & ? & _). unfold numbered. by rewrite !lookup_insert_ne. }
  pose proof Hr as (H1 & H2 & _)%valid_record_spec. constructor.
  - unfold has_fields. apply forallb_elem. intros k Hk. apply bool_decide_eq_true.
    unfold STORED_RECORD_FIELDS in Hk. apply elem_of_app in Hk as [Hk|Hk].
    + rewrite Hother; [by apply H1|]. intros Hin. revert Hk Hin. unfold REQUIRED_RECORD_FIELDS.
      rewrite !elem_of_cons, !elem_of_nil. naive_solver.
    + rewrite !elem_of_cons, elem_of_nil in Hk. unfold numbered.
      destruct Hk as [->|[->|[->|[]]]]; [rewrite !lookup_insert_ne by done; by rewrite lookup_insert_eq|
        rewrite lookup_insert_ne by done; by rewrite lookup_insert_eq|by rewrite lookup_insert_eq].
  - unfold numbered. rewrite !lookup_insert_ne by done. apply lookup_insert_eq.
  - exists (active_key st), key. split_and!; [|done|].
    + rewrite lookup_insert_ne by done. apply lookup_insert_eq.
    + unfold Authority.verify. rewrite lookup_insert_eq. apply sign_verify. rewrite <- Esg. f_equal.
      unfold payload. f_equal. f_equal. apply map_eq. intros k. destruct (decide (k = "signature")) as [->|];
        [by rewrite !lookup_delete_eq|by rewrite !lookup_delete_ne, lookup_insert_ne].
  - apply (valid_required r); [|done]. intros k Hk. apply Hother. intros Hin. revert Hk Hin.
    unfold REQUIRED_RECORD_FIELDS. rewrite !elem_of_cons, !elem_of_nil. naive_solver.
  - intros k v. unfold numbered.
    destruct (decide (k = "signature")) as [->|]; [rewrite lookup_insert_eq; by intros [= <-]|rewrite lookup_insert_ne by done].
    destruct (decide (k = "key_id")) as [->|]; [rewrite lookup_insert_eq; by intros [= <-]|rewrite lookup_insert_ne by done].
    destruct (decide (k = "generation")) as [->|]; [rewrite lookup_insert_eq; by intros [= <-]|rewrite lookup_insert_ne by done].
    intros Hk. destruct (H2 k v Hk) as [x Hx]. by destruct v.
Qed.

Lemma chain_snoc ks lo rs hi r g :
  wf_chain ks lo rs hi -> wf_stored ks r g -> (hi < g)%Z -> wf_chain ks lo (rs ++ [r]) g.
Proof.
  induction 1 as [lo|lo r0 g0 rs hi Hr0 Hlt _ IH]; intros Hr Hg; cbn.
  - econstructor; [done|lia|constructor].
  - econstructor; [done|done|by apply IH].
Qed.

Lemma appended_wf st r st' : wf_state st -> appended st r = Ok st' ->
  wf_state st' /\ valid_record r = true /\
  exists r', stored_record ed25519_sign st r = Ok r' /\
    st' = mkAuthorityState (generation st + 1) (records st ++ [r']) (keys st) (active_key st) (used_nonces st).
Proof using sign_verify.
  intros [Hc Ha] H. unfold Authority.appended in H. apply result_bind_Ok in H as ([] & Hv & H).
  apply ensure_Ok in Hv. apply result_bind_Ok in H as (r' & Hr' & H). injection H as <-.
  split_and!; [|done|eauto]. constructor; [|done]. cbn. eapply chain_snoc; [done|by eapply wf_stored_new|lia].
Qed.

(** ** The ledger: what the authority file decodes to *)

Definition ledger (o : option inode) : result exn AuthorityState :=
  match o with
  | None => Err AuthorityStateError
  | Some i =>
    match private_file i with
    | None => Err AuthorityCustodyError
    | Some text => match loads text with Some j => validate_state j | None => Err AuthorityStateError end
    end
  end.
Definition ledger_of (w : world) : result exn AuthorityState := ledger (w_fs w !! state_path).

Lemma state_path_apart : state_path ≠ root /\ state_path ≠ lock_path root /\
  forall tok, state_path ≠ root ++ [".authority-" +:+ tok +:+ ".tmp"].
Proof.
  unfold Authority.state_path, lock_path. split_and!.
  - intros E%(f_equal length). rewrite length_app in E. cbn in E. lia.
  - intros E%app_inv_head. done.
  - intros tok E%app_inv_head. done.
Qed.

Lemma ensure_root_leaves q : q ≠ root -> only (leaves q) (ensure_root root uid).
Proof. intros. unfold ensure_root. leaves. Qed.
Lemma open_lock_leaves q : q ≠ lock_path root -> only (leaves q) (open_lock root uid).
Proof. intros. unfold open_lock, validate_private_path, or_raise. leaves. Qed.
Lemma read_leaves q : q ≠ root -> only (leaves q) read.
Proof.
  intros. pose proof (ensure_root_leaves q). unfold Authority.read, open_private_file, closing, validate_private_path, or_raise. leaves.
Qed.

Lemma read_ledger w r w' :
  leads posix read w r w' ->
  w_fs w' !! state_path = w_fs w !! state_path /\ forall st, r = Ok st -> ledger_of w = Ok st.
Proof.
  intros H. split; [eapply frame; [|exact H]; apply read_leaves, state_path_apart|]. intros st ->.
  unfold Authority.read in H. apply leads_bind in H as [([] & w1 & H1 & H)|(x & [=] & _)].
  assert (E1 : w_fs w1 !! state_path = w_fs w !! state_path).
  { eapply frame; [|exact H1]. apply ensure_root_leaves, state_path_apart. }
  apply leads_bind in H as [(fd & w2 & H2 & H)|(x & [=] & _)].
  assert (E2 : w_fs w2 !! state_path = w_fs w1 !! state_path).
  { eapply frame; [|exact H2]. unfold open_private_file, validate_private_path, or_raise. leaves. }
  apply leads_catch in H2 as ([fd'|e] & w2' & H2 & H2');
    [destruct H2' as [[= ->] ->]|by apply leads_Raise in H2' as [? _]].
  apply open_private_Ok in H2 as (-> & i & text & Hi & Hf).
  apply leads_bind in H as [(text' & w3 & H3 & H)|(x & [=] & _)].
  apply leads_or_raise in H3 as ([t|] & H3 & [= ->]). apply closing_Ok in H3 as (w4 & H3).
  apply read_private_Ok in H3 as (i' & Hi' & Hn). rewrite E2, Hi in Hi'. injection Hi' as <-.
  apply private_file_node in Hf as Hn'. rewrite Hn' in Hn. injection Hn as ->.
  unfold ledger_of, ledger. rewrite <- E1, Hi, Hf. destruct (loads t) as [j|]; [|by apply leads_Raise in H as [? _]].
  by apply leads_lift in H as [<- _].
Qed.

(** Writing a well-formed state replaces the ledger or leaves it. *)
Lemma write_ledger st w r w' :
  wf_state st -> leads posix (write_atomic root st) w r w' ->
  ledger_of w' = Ok st \/ w_fs w' !! state_path = w_fs w !! state_path /\ r ≠ Ok tt.
Proof.
  intros Hwf H. unfold write_atomic in H. apply leads_bind in H as [(tok & w1 & H1 & H)|(x & -> & H)].
  2:{ right. split; [|done]. apply leads_call in H. by apply posix_Err in H as ->. }
  assert (E1 : w_fs w1 !! state_path = w_fs w !! state_path) by (eapply frame; [|exact H1]; leaves).
  assert (Hsync : forall w2 r2 w3, leads posix (suppress_os (fsync_directory root)) w2 r2 w3 ->
    w_fs w3 !! state_path = w_fs w2 !! state_path).
  { intros w2 r2 w3 H2. eapply frame; [|exact H2]. unfold suppress_os, fsync_directory, closing. leaves. }
  assert (Hnew : forall w2, w_fs w2 !! state_path = Some (mkInode (NFile (dumps_compact (state_document st))) uid FILE_MODE) ->
    ledger_of w2 = Ok st).
  { intros w2 E. unfold ledger_of, ledger. rewrite E. unfold Custody.private_file. cbn [i_node i_uid i_mode].
    rewrite Nat.eqb_refl. cbn [andb]. change (FILE_MODE =? FILE_MODE)%Z with true. cbv iota.
    rewrite loads_dumps_compact by by apply printable_state. by apply validate_state_wf. }
  apply leads_bind in H as [([] & w2 & H2 & H)|(x & -> & H2)];
    (apply commit_file_spec in H2 as [H2|[H2 Hr]]; [| |apply state_path_apart]).
  - left. apply Hnew. by rewrite (Hsync _ _ _ H).
  - done.
  - left. by apply Hnew.
  - right. by rewrite H2, E1.
Qed.

(** ** The latest record *)

Lemma field_is_text r k v : field_is r k v = true -> text_field r k = v.
Proof. unfold field_is, text_field. rewrite bool_decide_eq_true. by intros ->. Qed.

Lemma latest_snoc st r operation name g :
  latest (mkAuthorityState g (records st ++ [r]) (keys st) (active_key st) (used_nonces st)) operation name =
  if matches_record operation name r then Some r else latest st operation name.
Proof. unfold latest. cbn [records]. by rewrite reverse_app. Qed.

Definition named (r : record) : Prop := forall k, k ∈ ["operation"; "name"; "state"] -> exists s, r !! k = Some (JStr s).

Lemma wf_named st r : wf_state st -> r ∈ records st -> named r.
Proof.
  intros [Hc _]. induction Hc as [|lo r0 g rs hi Hr _ _ IH]; [by intros ?%elem_of_nil|].
  intros [->|Hin]%elem_of_cons; [|by apply IH]. intros k Hk.
  pose proof (ws_valid _ _ _ Hr) as (H1 & H2 & _)%valid_record_spec.
  assert (Hk' : k ∈ REQUIRED_RECORD_FIELDS).
  { revert Hk. unfold REQUIRED_RECORD_FIELDS. rewrite !elem_of_cons, elem_of_nil. tauto. }
  destruct (H1 k Hk') as [v Hv]. destruct (H2 k v Hv) as [s Hs]. rewrite required_lookup, decide_True in Hv by done.
  exists s. rewrite Hv. by destruct v; simplify_eq/=.
Qed.

Lemma field_is_text_iff r k v : k ∈ ["operation"; "name"; "state"] -> named r -> field_is r k v = bool_decide (text_field r k = v).
Proof.
  intros Hk Hr. destruct (Hr k Hk) as [s Hs]. unfold field_is, text_field. rewrite Hs. apply bool_decide_ext.
  split; [by intros [= ->]|by intros ->].
Qed.

Definition note_state (operation name : string) (d : list (string * string)) (r : record) : list (string * string) :=
  if field_is r "name" name && negb (field_is r "operation" operation)
  then dset (text_field r "operation") (text_field r "state") d else d.

Lemma states_spec operation name rs o : Forall named rs ->
  dget o (foldl (note_state operation name) [] rs) =
  if decide (o = operation) then None
  else (fun r => text_field r "state") <$> find_first (matches_record o name) (reverse rs).
Proof.
  induction rs as [|r rs IH] using rev_ind; [by case_decide|]. intros [Hrs [Hr _]%Forall_cons]%Forall_app.
  specialize (IH Hrs). rewrite foldl_app, reverse_app. cbn [foldl]. unfold note_state at 1.
  change (find_first (matches_record o name) (reverse [r] ++ reverse rs)) with
    (if matches_record o name r then Some r else find_first (matches_record o name) (reverse rs)).
  unfold matches_record at 1.
  rewrite !(field_is_text_iff r) by first [exact Hr|by apply (bool_decide_unpack _)].
  destruct (decide (text_field r "name" = name)) as [Hn|Hn];
    [rewrite (bool_decide_true _ Hn)|rewrite (bool_decide_false _ Hn), andb_false_r; exact IH].
  cbn [andb]. rewrite andb_true_r. destruct (decide (text_field r "operation" = operation)) as [Ho|Ho].
  - rewrite (bool_decide_true _ Ho). cbn [negb]. rewrite IH. case_decide as Hd; [done|].
    rewrite bool_decide_false; [done|congruence].
  - rewrite (bool_decide_false _ Ho). cbn [negb]. rewrite dget_dset, IH.
    destruct (decide (o = text_field r "operation")) as [->|Hd].
    + by rewrite (decide_False _ _ Ho), bool_decide_true.
    + by rewrite (bool_decide_false (text_field r "operation" = o)) by congruence.
Qed.

Lemma states_NoDup operation name rs : NoDup (foldl (note_state operation name) [] rs).*1.
Proof.
  induction rs as [|r rs IH] using rev_ind; [apply NoDup_nil_2|]. rewrite foldl_app. cbn [foldl].
  unfold note_state at 1. destruct (_ && _); [by apply dset_NoDup|done].
Qed.

(** An operation holds a name while its latest record for it is not retired. *)
Definition holds (st : AuthorityState) (operation name : string) : Prop :=
  exists r, latest st operation name = Some r /\ text_field r "state" ≠ "retired".
Definition exclusive (st : AuthorityState) : Prop :=
  forall name o1 o2, holds st o1 name -> holds st o2 name -> o1 = o2.

Lemma held_by_other_spec st operation name :
  wf_state st ->
  (held_by_other_operation st operation name = true <-> exists o, o ≠ operation /\ holds st o name).
Proof.
  intros Hwf. assert (Hn : Forall named (records st)) by (apply Forall_forall; intros r; by apply wf_named).
  unfold held_by_other_operation, states_by_operation. rewrite existsb_elem.
  change (foldl _ [] (records st)) with (foldl (note_state operation name) [] (records st)).
  pose proof (fun o => states_spec operation name (records st) o Hn) as Hs. split.
  - intros ([o v] & Hin & Hv). apply negb_true_iff, bool_decide_eq_false in Hv. cbn in Hv.
    apply dget_elem_NoDup in Hin; [|apply states_NoDup]. rewrite Hs in Hin. case_decide; [done|].
    exists o. split; [done|]. unfold holds, latest. destruct (find_first _ _) as [r|]; [|done]. exists r. by simplify_eq/=.
  - intros (o & Hne & r & Hl & Hr). exists (o, text_field r "state"). split.
    + apply dget_Some_elem. rewrite Hs, decide_False by done. unfold latest in Hl. by rewrite Hl.
    + by rewrite bool_decide_false.
Qed.

(** ** Steps of the ledger *)

Definition extend (st : AuthorityState) (r' : record) : AuthorityState :=
  mkAuthorityState (generation st + 1) (records st ++ [r']) (keys st) (active_key st) (used_nonces st).

Definition TRANSITIONS : list (string * string) :=
  [("reserved", "reserved"); ("reserved", "active"); ("active", "retired")].

(** [may_append] bounds what [write] and [reserve] append: they check nothing themselves. *)
Inductive custody_step (may_append : AuthorityState -> record -> Prop) (st : AuthorityState) : AuthorityState -> Prop :=
| step_converge operation name docker_id r rs st' :
    converge_steps st operation name docker_id = Ok (r :: rs) -> appended st r = Ok st' -> custody_step may_append st st'
| step_transition operation name docker_id expected target st' :
    (expected, target) ∈ TRANSITIONS -> may_transition (latest st operation name) expected docker_id = true ->
    appended st (container_record operation name docker_id target) = Ok st' -> custody_step may_append st st'
| step_absent operation name r st' :
    latest st operation name = Some r ->
    appended st (container_record operation name (text_field r "docker_id") "retired") = Ok st' -> custody_step may_append st st'
| step_append r st' : may_append st r -> appended st r = Ok st' -> custody_step may_append st st'
| step_key id key : keys st !! id = None ->
    custody_step may_append st (mkAuthorityState (generation st) (records st) (<[id := key]> (keys st)) id (used_nonces st))
| step_nonce nonce : custody_step may_append st (with_nonce st nonce).

(** The fields of a stored record that custody depends on. *)
Lemma stored_fields st r r' k :
  stored_record ed25519_sign st r = Ok r' -> k ∈ REQUIRED_RECORD_FIELDS -> r' !! k = r !! k.
Proof.
  unfold stored_record. intros (s & _ & [= <-])%result_bind_Ok Hk.
  unfold REQUIRED_RECORD_FIELDS in Hk. rewrite !elem_of_cons, elem_of_nil in Hk.
  rewrite !lookup_insert_ne; [done|intros <-; naive_solver..].
Qed.

Lemma container_lookup o n d s :
  container_record o n d s !! "operation" = Some (JStr o) /\ container_record o n d s !! "name" = Some (JStr n) /\
  container_record o n d s !! "docker_id" = Some (JStr d) /\ container_record o n d s !! "state" = Some (JStr s) /\
  container_record o n d s !! "kind" = Some (JStr "container").
Proof. by split_and!. Qed.

Lemma appended_extend st r st' :
  appended st r = Ok st' -> exists r', st' = extend st r' /\ (forall k, k ∈ REQUIRED_RECORD_FIELDS -> r' !! k = r !! k).
Proof.
  intros (? & _ & (r' & Hr' & [= <-])%result_bind_Ok)%result_bind_Ok. exists r'. split; [done|].
  intros k. by eapply stored_fields.
Qed.

Lemma latest_container st r' operation name docker_id target o n :
  (forall k, k ∈ REQUIRED_RECORD_FIELDS -> r' !! k = container_record operation name docker_id target !! k) ->
  latest (extend st r') o n =
  if bool_decide (o = operation /\ n = name) then Some r' else latest st o n.
Proof.
  intros Hf. unfold extend. rewrite latest_snoc. destruct (container_lookup operation name docker_id target) as (Ho & Hn & _).
  unfold matches_record, field_is. rewrite !Hf, Ho, Hn by by apply (bool_decide_unpack _).
  do 2 case_bool_decide; cbn [andb]; case_bool_decide; naive_solver.
Qed.

Lemma converge_steps_head st operation name docker_id r rs :
  converge_steps st operation name docker_id = Ok (r :: rs) ->
  held_by_other_operation st operation name = false /\
  exists d t, r = container_record operation name d t /\ t ≠ "retired".
Proof.
  unfold converge_steps. destruct (held_by_other_operation _ _ _); [done|]. intros H. split; [done|].
  repeat case_match; simplify_eq; by do 2 eexists.
Qed.

(** A record for a name that no other operation holds, or one that gives the name up. *)
Definition unheld (st : AuthorityState) (r : record) : Prop :=
  text_field r "state" = "retired" \/
  forall o, o ≠ text_field r "operation" -> ~ holds st o (text_field r "name").

Lemma unheld_container st o n d t :
  (t = "retired" \/ forall o', o' ≠ o -> ~ holds st o' n) -> unheld st (container_record o n d t).
Proof.
  unfold unheld, text_field. destruct (container_lookup o n d t) as (-> & -> & _ & -> & _). done.
Qed.

Lemma appended_named st r st' : appended st r = Ok st' -> exists r', st' = extend st r' /\ named r' /\
  forall k, k ∈ ["operation"; "name"; "state"] -> text_field r' k = text_field r k.
Proof.
  intros Ha. assert (Hk : forall k, k ∈ ["operation"; "name"; "state"] -> k ∈ REQUIRED_RECORD_FIELDS).
  { intros k. unfold REQUIRED_RECORD_FIELDS. rewrite !elem_of_cons, elem_of_nil. tauto. }
  pose proof Ha as (r' & -> & Hf)%appended_extend. exists r'. split_and!; [done| |].
  - apply result_bind_Ok in Ha as ([] & Hv%ensure_Ok & _). apply valid_record_spec in Hv as (H1 & H2 & _).
    intros k Hin. destruct (H1 k (Hk k Hin)) as [v Hv]. destruct (H2 k v Hv) as [s Hs].
    exists s. rewrite Hf by by apply Hk. by destruct v; simplify_eq/=.
  - intros k Hin. unfold text_field. by rewrite Hf by by apply Hk.
Qed.

Lemma holds_extend st r' o n : named r' ->
  holds (extend st r') o n <->
  if bool_decide (text_field r' "operation" = o /\ text_field r' "name" = n)
  then text_field r' "state" ≠ "retired" else holds st o n.
Proof.
  intros Hn. unfold holds, extend. rewrite latest_snoc. unfold matches_record.
  rewrite !field_is_text_iff by (done || by apply (bool_decide_unpack _)).
  do 2 case_bool_decide; cbn [andb]; case_bool_decide; try tauto.
  split; [by intros (r & [= <-] & Hr)|]. intros Hr. by exists r'.
Qed.

(** Appending such a record keeps custody exclusive. *)
Lemma exclusive_appended st r st' : appended st r = Ok st' -> unheld st r -> exclusive st -> exclusive st'.
Proof.
  intros (r' & -> & Hn & Hf)%appended_named Hown Hex n o1 o2. unfold unheld in Hown.
  rewrite !holds_extend by done. rewrite <- !Hf in Hown by by apply (bool_decide_unpack _). destruct Hown as [Hret|Hno].
  - repeat case_bool_decide; try done. apply Hex.
  - assert (Hop : forall o, (if bool_decide (text_field r' "operation" = o /\ text_field r' "name" = n)
        then text_field r' "state" ≠ "retired" else holds st o n) -> n = text_field r' "name" -> o = text_field r' "operation").
    { intros o. case_bool_decide as Hc; [by destruct Hc|]. intros Ho ->.
      destruct (decide (o = text_field r' "operation")) as [|Hne]; [done|]. by apply (Hno o Hne) in Ho. }
    destruct (decide (n = text_field r' "name")) as [E|E].
    + intros H1 H2. by rewrite (Hop o1 H1 E), (Hop o2 H2 E).
    + rewrite !bool_decide_false by (intros [_ Hc]; done). apply Hex.
Qed.

Lemma exclusive_step st st' : wf_state st -> exclusive st -> custody_step unheld st st' -> exclusive st'.
Proof.
  intros Hwf Hex Hstep.
  destruct Hstep as [operation name docker_id r rs st' Hc Ha|operation name docker_id expected target st' Ht Hm Ha
                    |operation name r st' Hl Ha|r st' Hu Ha|id key Hid|nonce]; [| | | |exact Hex|exact Hex].
  - apply converge_steps_head in Hc as (Hheld & d & t & -> & _). eapply exclusive_appended; [exact Ha| |exact Hex]. clear Ha.
    apply unheld_container. right. intros o Hne Ho. apply not_true_iff_false in Hheld. apply Hheld.
    rewrite held_by_other_spec by done. eauto.
  - eapply exclusive_appended; [exact Ha| |exact Hex]. clear Ha. apply unheld_container. right.
    assert (Hh : holds st operation name); [|intros o Hne Ho; by apply Hne, (Hex name)].
    unfold may_transition in Hm. destruct (latest st operation name) as [r|] eqn:El; [|done].
    apply andb_true_iff in Hm as [Hm _]. apply field_is_text in Hm. exists r. split; [done|]. rewrite Hm.
    unfold TRANSITIONS in Ht. rewrite !elem_of_cons, elem_of_nil in Ht. by destruct Ht as [[= -> _]|[[= -> _]|[[= -> _]|[]]]].
  - eapply exclusive_appended; [exact Ha| |exact Hex]. clear Ha. apply unheld_container. by left.
  - by eapply exclusive_appended.
Qed.

Lemma chain_mono ks ks' lo rs hi : ks ⊆ ks' -> wf_chain ks lo rs hi -> wf_chain ks' lo rs hi.
Proof.
  intros Hsub. induction 1 as [|lo r g rs hi [Hf Hg (id & key & Hid & Hk & Hv) Hr Hfl] Hlt _ IH]; [constructor|].
  econstructor; [|done|done]. constructor; try done. exists id, key. split_and!; try done. by eapply lookup_weaken.
Qed.

Lemma custody_step_wf may_append st st' : wf_state st -> custody_step may_append st st' -> wf_state st'.
Proof using sign_verify.
  intros Hwf Hstep. destruct Hstep as [???? rs st' _ Ha|????? st' _ _ Ha|?? r st' _ Ha|r st' _ Ha|id key Hid|nonce];
    try (by eapply appended_wf).
  - destruct Hwf as [Hc Ha]. constructor; cbn; [|by rewrite lookup_insert_eq].
    eapply chain_mono; [|done]. by apply insert_subseteq.
  - by destruct Hwf.
Qed.

(** ** The programs refine the steps *)

Abbreviation locked := (locked root uid).
Abbreviation append := (append root ed25519_sign).
Abbreviation read_or_initial_state := (read_or_initial_state root uid ed25519_verify).

(** From a ledger in state [st], [p] leaves the ledger in a state that steps reach. *)
Definition advances {A : Type} (S : relation AuthorityState) (p : store_prog A) (st : AuthorityState) : Prop :=
  forall w r w', ledger_of w = Ok st -> leads posix p w r w' ->
  exists st', ledger_of w' = Ok st' /\ rtc S st st'.

Lemma advances_mono {A : Type} (S S' : relation AuthorityState) (p : store_prog A) st :
  (forall st1 st2, S st1 st2 -> S' st1 st2) -> advances S p st -> advances S' p st.
Proof.
  intros HS Hp w r w' Hl H. destruct (Hp w r w' Hl H) as (st' & Hl' & Hst). exists st'. split; [done|].
  by eapply rtc_subrel.
Qed.

Lemma advances_leaves {A : Type} S (p : store_prog A) st : only (leaves state_path) p -> advances S p st.
Proof.
  intros Hp w r w' Hl H. exists st. split; [|apply rtc_refl]. unfold ledger_of.
  by rewrite (frame uid quantum token p w r w' state_path Hp H).
Qed.

Lemma advances_bind_leaves {A B : Type} S (p : store_prog A) (k : A -> store_prog B) st :
  only (leaves state_path) p -> (forall a, advances S (k a) st) -> advances S (bind p k) st.
Proof.
  intros Hp Hk w r w' Hl H. assert (Hsame : forall r1 w1, leads posix p w r1 w1 -> ledger_of w1 = Ok st).
  { intros r1 w1 H1. unfold ledger_of. by rewrite (frame uid quantum token p w r1 w1 state_path Hp H1). }
  apply leads_bind in H as [(a & w1 & H1 & H)|(x & -> & H1)]; [by eapply Hk; [eapply Hsame|]|].
  exists st. split; [by eapply Hsame|apply rtc_refl].
Qed.

Lemma advances_then_leaves {A B : Type} S (p : store_prog A) (k : A -> store_prog B) st :
  advances S p st -> (forall a, only (leaves state_path) (k a)) -> advances S (bind p k) st.
Proof.
  intros Hp Hk w r w' Hl H. apply leads_bind in H as [(a & w1 & H1 & H)|(x & -> & H1)]; [|by eapply Hp].
  destruct (Hp _ _ _ Hl H1) as (st' & Hl' & Hst). exists st'. split; [|done]. unfold ledger_of.
  by rewrite (frame uid quantum token (k a) w1 r w' state_path (Hk a) H).
Qed.

Lemma advances_attempt {A : Type} S (p : store_prog A) st : advances S p st -> advances S (attempt p) st.
Proof. intros Hp w r w' Hl (r0 & -> & H)%leads_attempt. by eapply Hp. Qed.

Lemma advances_catch {A : Type} S (p : store_prog A) h st :
  advances S p st -> (forall x, only (leaves state_path) (h x)) -> advances S (catch p h) st.
Proof. intros Hp Hh. apply advances_then_leaves; [by apply advances_attempt|]. intros [a|x]; [done|apply Hh]. Qed.

Lemma advances_locked {A : Type} S (body : store_prog A) st : advances S body st -> advances S (locked body) st.
Proof.
  intros Hb. unfold Authority.locked. apply advances_bind_leaves; [apply ensure_root_leaves, state_path_apart|intros _].
  apply advances_bind_leaves; [apply open_lock_leaves, state_path_apart|intros _].
  apply advances_then_leaves.
  - apply advances_attempt. unfold or_raise. apply advances_catch; [|done].
    apply advances_bind_leaves; [leaves|]. done.
  - intros r. leaves.
Qed.

Lemma advances_read {A : Type} S (k : AuthorityState -> store_prog A) st :
  advances S (k st) st -> advances S (bind read k) st.
Proof.
  intros Hk w r w' Hl H. apply leads_bind in H as [(st1 & w1 & H1 & H)|(x & -> & H1)].
  - apply read_ledger in H1 as [E1 Hst]. specialize (Hst _ eq_refl). rewrite Hl in Hst. injection Hst as <-.
    eapply Hk; [|exact H]. unfold ledger_of. by rewrite E1.
  - apply read_ledger in H1 as [E1 _]. exists st. unfold ledger_of. rewrite E1. split; [done|apply rtc_refl].
Qed.

Lemma advances_read_initial {A : Type} S b (k : AuthorityState -> store_prog A) st :
  advances S (k st) st -> advances S (bind (read_or_initial_state b) k) st.
Proof.
  intros Hk w r w' Hl H. unfold Authority.read_or_initial_state in H.
  assert (Hpresent : forall b1 w1, leads posix (call (PathExists state_path)) w (Ok b1) w1 -> b1 = true /\ ledger_of w1 = Ok st).
  { intros b1 w1 H1. split.
    - apply leads_call, posix_Ok in H1. cbn [fs_call] in H1. injection H1 as <- _. unfold ledger_of, ledger in Hl.
      destruct (w_fs w !! state_path) as [[[] u m]|]; done.
    - unfold ledger_of. erewrite frame; [exact Hl| |exact H1]. leaves. }
  apply leads_bind in H as [(st1 & w1 & H1 & H)|(x & -> & H1)];
    apply leads_bind in H1 as [(b1 & w2 & [-> Hl2]%Hpresent & H1)|(? & E & H1)].
  - eapply (advances_read S k st Hk w2 r w' Hl2). apply leads_bind. left. eauto.
  - done.
  - eapply (advances_read S k st Hk w2 (Err x) w' Hl2). apply leads_bind. right. eauto.
  - exists st. split; [|apply rtc_refl]. unfold ledger_of. erewrite frame; [exact Hl| |exact H1]. leaves.
Qed.

Lemma advances_write S st st' : wf_state st' -> S st st' -> advances S (write_atomic root st') st.
Proof.
  intros Hwf Hstep w r w' Hl H. apply write_ledger in H as [H|[H _]]; [|exists st|done].
  - exists st'. split; [done|by apply rtc_once].
  - unfold ledger_of. rewrite H. split; [done|apply rtc_refl].
Qed.

Lemma write_then st' w r w' :
  wf_state st' -> leads posix (write_atomic root st') w r w' -> r = Ok tt -> ledger_of w' = Ok st'.
Proof. intros Hwf H ->. apply write_ledger in H as [H|[_ H]]; done. Qed.

(** Appending a record by a step, then carrying on from the new state. *)
Lemma advances_append {A : Type} S (k : AuthorityState -> store_prog A) st r :
  wf_state st -> (forall st', appended st r = Ok st' -> S st st' /\ advances S (k st') st') ->
  advances S (bind (append st r) k) st.
Proof using sign_verify.
  intros Hwf Hk w o w' Hl H. unfold Authority.append in H.
  destruct (appended st r) as [st'|e] eqn:Ea.
  2:{ exists st. split; [|apply rtc_refl].
      apply leads_bind in H as [(? & ? & [(? & ? & [? _]%(leads_Raise posix) & _)|(? & [=] & _)]%leads_bind & _)|(x & -> & H)]; [done|].
      apply leads_bind in H as [(? & ? & [? _]%(leads_Raise posix) & _)|(? & _ & [_ ->]%(leads_Raise posix))]; done. }
  destruct (Hk st' eq_refl) as [Hstep Hadv]. pose proof (proj1 (appended_wf _ _ _ Hwf Ea)) as Hwf'.
  rewrite lift_bind_Ok in H. apply leads_bind in H as [(st1 & w1 & H1 & H)|(x & -> & H1)].
  - apply leads_bind in H1 as [([] & w2 & H1 & [[= ->] ->]%leads_Ret)|(? & [=] & _)].
    pose proof (write_then st' _ _ _ Hwf' H1 eq_refl) as Hl'.
    destruct (Hadv _ _ _ Hl' H) as (st2 & Hl2 & Hr). exists st2. split; [done|]. by eapply rtc_l.
  - apply leads_bind in H1 as [(? & ? & _ & [? _]%leads_Ret)|(? & _ & H1)]; [done|].
    by eapply (advances_write S st st').
Qed.

Lemma advances_Ret {A : Type} S (a : A) st : advances S (Ret a) st.
Proof. by apply advances_leaves. Qed.
Lemma advances_Raise {A : Type} S x st : advances S (Raise x : store_prog A) st.
Proof. by apply advances_leaves. Qed.

(** ** Convergence *)

Lemma states_other st r' operation name docker_id target :
  (forall k, k ∈ REQUIRED_RECORD_FIELDS -> r' !! k = container_record operation name docker_id target !! k) ->
  held_by_other_operation (extend st r') operation name = held_by_other_operation st operation name.
Proof.
  intros Hf. unfold held_by_other_operation, states_by_operation, extend. cbn [records]. rewrite foldl_app. cbn [foldl].
  destruct (container_lookup operation name docker_id target) as (Ho & Hn & _).
  assert (E : field_is r' "operation" operation = true).
  { unfold field_is. rewrite Hf, Ho by by apply (bool_decide_unpack _). by rewrite bool_decide_true. }
  rewrite E. cbn [negb]. by rewrite andb_false_r.
Qed.

(** After one step of a convergence, the rest of its steps remain. *)
Lemma converge_next st operation name docker_id r rs st' :
  docker_id ≠ "" -> converge_steps st operation name docker_id = Ok (r :: rs) -> appended st r = Ok st' ->
  converge_steps st' operation name docker_id = Ok rs.
Proof.
  intros Hd Hc Ha. destruct (converge_steps_head _ _ _ _ _ _ Hc) as (Hheld & d & t & -> & _).
  apply appended_extend in Ha as (r' & -> & Hf). unfold converge_steps.
  rewrite (states_other _ _ _ _ _ _ Hf), Hheld, (latest_container _ _ _ _ _ _ _ _ Hf), bool_decide_true by done.
  destruct (container_lookup operation name d t) as (_ & _ & Ed & Et & Ek).
  assert (Efd : forall v, field_is r' "docker_id" v = bool_decide (d = v)).
  { intros v. unfold field_is. rewrite Hf, Ed by by apply (bool_decide_unpack _). apply bool_decide_ext. split; [by intros [= ->]|by intros ->]. }
  assert (Efs : forall v, field_is r' "state" v = bool_decide (t = v)).
  { intros v. unfold field_is. rewrite Hf, Et by by apply (bool_decide_unpack _). apply bool_decide_ext. split; [by intros [= ->]|by intros ->]. }
  assert (Efk : field_is r' "kind" "container" = true).
  { unfold field_is. rewrite Hf, Ek by by apply (bool_decide_unpack _). by rewrite bool_decide_true. }
  rewrite !Efd, !Efs, Efk. unfold converge_steps in Hc. rewrite Hheld in Hc.
  assert (Hinj : forall d1 t1 d2 t2, container_record operation name d1 t1 = container_record operation name d2 t2 -> d1 = d2 /\ t1 = t2).
  { intros d1 t1 d2 t2 E. destruct (container_lookup operation name d1 t1) as (_ & _ & E1 & E2 & _).
    destruct (container_lookup operation name d2 t2) as (_ & _ & E3 & E4 & _).
    rewrite <-E in E3, E4. rewrite E1 in E3. rewrite E2 in E4. by injection E3 as ->; injection E4 as ->. }
  clear Hf Ed Et Ek Efk. generalize dependent container_record. intros container Hc Hinj.
  assert (Hd' : bool_decide (docker_id = "") = false) by by apply bool_decide_false.
  assert (Hd'' : bool_decide ("" = docker_id) = false) by by apply bool_decide_false.
  assert (Hdd : bool_decide (docker_id = docker_id) = true) by by apply bool_decide_true.
  repeat match type of Hc with
    | match ?x with Some _ => _ | None => _ end = _ => destruct x
    | (if ?x then _ else _) = _ => destruct x
    end; try discriminate Hc; injection Hc as [<- <-]%Hinj <-; rewrite ?Hd', ?Hd'', ?Hdd; reflexivity.
Qed.

Lemma converge_done st operation name docker_id :
  converge_steps st operation name docker_id = Ok [] -> owned st operation name docker_id = true.
Proof.
  unfold converge_steps, owned. destruct (held_by_other_operation _ _ _); [done|].
  destruct (latest st operation name) as [r|]; [|done]. destruct (_ && _); [done|]. destruct (_ && _); [done|].
  destruct (field_is r "kind" "container"), (field_is r "state" "active"), (field_is r "docker_id" docker_id); done.
Qed.

(** One record of the convergence of an operation. *)
Definition converging (operation name docker_id : string) : relation AuthorityState := fun st st' =>
  exists r rs, converge_steps st operation name docker_id = Ok (r :: rs) /\ appended st r = Ok st'.

Lemma advances_append_all rs : forall st operation name docker_id,
  docker_id ≠ "" -> wf_state st -> converge_steps st operation name docker_id = Ok rs ->
  advances (converging operation name docker_id) (append_all root ed25519_sign st rs) st.
Proof using sign_verify.
  induction rs as [|r rs IH]; intros st operation name docker_id Hd Hwf Hc; cbn [append_all]; [apply advances_Ret|].
  apply advances_append; [done|]. intros st' Ha. split; [by exists r, rs|].
  eapply IH; [done|by eapply appended_wf|by eapply converge_next].
Qed.

Lemma locked_Ok {A : Type} (body : store_prog A) w a w' :
  leads posix (locked body) w (Ok a) w' -> exists w1 w2,
    w_fs w1 !! state_path = w_fs w !! state_path /\ leads posix body w1 (Ok a) w2 /\
    w_fs w' !! state_path = w_fs w2 !! state_path.
Proof.
  intros H. unfold Authority.locked in H. apply leads_bind in H as [(? & w1 & H1 & H)|(? & [=] & _)].
  apply leads_bind in H as [(? & w2 & H2 & H)|(? & [=] & _)]. apply leads_attempt_bind in H as (r & w3 & H3 & H).
  assert (E4 : w_fs w' !! state_path = w_fs w3 !! state_path) by (eapply frame; [|exact H]; leaves).
  assert (r = Ok a) as ->.
  { apply leads_attempt_bind in H as (u & w4 & _ & H). apply leads_bind in H as [(? & w5 & _ & H)|(? & [=] & _)].
    apply leads_bind in H as [(? & w6 & _ & H)|(? & [=] & _)]. by apply leads_lift in H as [<- _]. }
  apply leads_or_raise in H3 as ([a'|] & H3 & [= ->]).
  apply leads_bind in H3 as [(? & w4 & H4 & H3)|(? & [=] & _)]. exists w4, w3. split_and!; [|exact H3|exact E4].
  transitivity (w_fs w2 !! state_path); [eapply frame; [|exact H4]; leaves|].
  transitivity (w_fs w1 !! state_path); [eapply frame; [|exact H2]; apply open_lock_leaves, state_path_apart|].
  eapply frame; [|exact H1]. apply ensure_root_leaves, state_path_apart.
Qed.

Lemma read_initial_Ok b w st w' st0 :
  ledger_of w = Ok st0 -> leads posix (read_or_initial_state b) w (Ok st) w' -> st = st0 /\ ledger_of w' = Ok st0.
Proof.
  intros Hl H. unfold Authority.read_or_initial_state in H. apply leads_bind in H as [(b1 & w1 & H1 & H)|(? & [=] & _)].
  assert (Hl1 : ledger_of w1 = Ok st0).
  { unfold ledger_of. erewrite frame; [exact Hl| |exact H1]. leaves. }
  apply leads_call, posix_Ok in H1. cbn [fs_call] in H1. injection H1 as <- _. unfold ledger_of, ledger in Hl.
  destruct (w_fs w !! state_path) as [[[] u m]|]; try done.
  apply read_ledger in H as [E H]. specialize (H _ eq_refl). rewrite Hl1 in H. injection H as ->.
  split; [done|]. unfold ledger_of. by rewrite E.
Qed.

Lemma append_all_Ok rs : forall st operation name docker_id w st' w',
  docker_id ≠ "" -> wf_state st -> converge_steps st operation name docker_id = Ok rs -> ledger_of w = Ok st ->
  leads posix (append_all root ed25519_sign st rs) w (Ok st') w' ->
  ledger_of w' = Ok st' /\ wf_state st' /\ converge_steps st' operation name docker_id = Ok [].
Proof using sign_verify.
  induction rs as [|r rs IH]; intros st operation name docker_id w st' w' Hd Hwf Hc Hl H; cbn [append_all] in H.
  - by apply leads_Ret in H as [[= ->] ->].
  - apply leads_bind in H as [(st1 & w1 & H1 & H)|(? & [=] & _)]. unfold Authority.append in H1.
    apply leads_bind in H1 as [(st2 & w2 & [Ha ->]%leads_lift & H1)|(? & [=] & _)]. symmetry in Ha.
    apply leads_bind in H1 as [([] & w3 & H1 & [[= ->] ->]%leads_Ret)|(? & [=] & _)].
    pose proof (appended_wf _ _ _ Hwf Ha) as [Hwf' _].
    eapply (IH st2); [done|done|by eapply converge_next| |exact H]. by eapply write_then.
Qed.

(** ** The operations advance the ledger *)

Lemma advances_rotate may_append st : wf_state st -> keys st !! token = None -> advances (custody_step may_append) (rotate_keys root uid ed25519_verify) st.
Proof using sign_verify.
  intros Hwf Hfresh. unfold rotate_keys. apply advances_locked, advances_read. intros w r w' Hl H.
  assert (Hadd : forall r1 w1, leads posix (add_key st) w r1 w1 -> ledger_of w1 = Ok st /\ forall st1, r1 = Ok st1 ->
    st1 = mkAuthorityState (generation st) (records st) (<[token := "key-" +:+ token]> (keys st)) token (used_nonces st)).
  { intros r1 w1 H1. split.
    - unfold ledger_of. erewrite frame; [exact Hl| |exact H1]. unfold add_key. leaves.
    - intros st1 ->. unfold add_key in H1. apply leads_bind in H1 as [(id & w2 & H2 & H1)|(? & [=] & _)].
      apply leads_call, posix_Ok in H2. injection H2 as <- _.
      apply leads_bind in H1 as [(key & w3 & H3 & H1)|(? & [=] & _)].
      apply leads_call, posix_Ok in H3. injection H3 as <- _. by apply leads_Ret in H1 as [[= ->] _]. }
  apply leads_bind in H as [(st1 & w1 & [Hl1 E]%Hadd & H)|(x & -> & [Hl1 _]%Hadd)].
  - specialize (E _ eq_refl) as ->. eapply (advances_write _ st); [| |exact Hl1|exact H].
    + eapply (custody_step_wf may_append); [exact Hwf|]. by apply step_key.
    + by apply step_key.
  - exists st. split; [done|apply rtc_refl].
Qed.

Lemma advances_transition may_append st operation name docker_id expected target :
  wf_state st -> (expected, target) ∈ TRANSITIONS ->
  advances (custody_step may_append) (transition root uid ed25519_sign ed25519_verify operation name docker_id expected target) st.
Proof using sign_verify.
  intros Hwf Ht. unfold transition. apply advances_locked, advances_read_initial.
  destruct (may_transition _ _ _) eqn:Hm; cbn [negb]; [|apply advances_Raise].
  apply advances_append; [done|]. intros st' Ha. split; [by eapply step_transition|apply advances_Ret].
Qed.

Lemma advances_retire_absent may_append st operation name docker_id :
  wf_state st -> advances (custody_step may_append) (retire_absent root uid ed25519_sign ed25519_verify operation name docker_id) st.
Proof using sign_verify.
  intros Hwf. unfold retire_absent. apply advances_locked, advances_read_initial.
  destruct (latest st operation name) as [r|] eqn:El; [|apply advances_Raise].
  destruct (_ || _); [apply advances_Raise|]. destruct (field_is _ _ _); [apply advances_Ret|].
  apply advances_append; [done|]. intros st' Ha. split; [by eapply step_absent|apply advances_Ret].
Qed.

Lemma advances_converge st operation name docker_id :
  docker_id ≠ "" -> wf_state st -> advances (converging operation name docker_id)
    (converge root uid ed25519_sign ed25519_verify operation name docker_id) st.
Proof using sign_verify.
  intros Hd Hwf. unfold converge. apply advances_bind_leaves; [leaves|intros present].
  apply advances_locked, advances_read_initial. destruct (converge_steps st operation name docker_id) as [steps|x] eqn:Hc.
  - rewrite lift_bind_Ok. apply advances_then_leaves; [by eapply advances_append_all|done].
  - intros w r w' Hl H. exists st. split; [|apply rtc_refl].
    apply leads_bind in H as [(? & ? & [? _]%leads_lift & _)|(? & _ & [_ ->]%leads_lift)]; done.
Qed.

Lemma advances_appending may_append st r :
  wf_state st -> may_append st r ->
  advances (custody_step may_append) (let* present := call (PathExists (lock_path root)) in
    locked (let* st0 := read_or_initial_state (negb present) in append st0 r ;* Ret tt)) st.
Proof using sign_verify.
  intros Hwf Hr. apply advances_bind_leaves; [leaves|intros present]. apply advances_locked, advances_read_initial.
  apply advances_append; [done|]. intros st' Ha. split; [by eapply step_append|apply advances_Ret].
Qed.

Lemma advances_issue may_append st operation docker_id nonce observed_at expires_at :
  advances (custody_step may_append)
    (issue_evidence root uid ed25519_sign ed25519_verify operation docker_id nonce observed_at expires_at) st.
Proof.
  unfold issue_evidence. destruct (_ || _); [apply advances_Raise|]. apply advances_locked, advances_read.
  destruct (attested _ _ _); cbn [negb]; [|apply advances_Raise]. apply advances_leaves. leaves.
Qed.

Lemma advances_verify may_append st evidence docker_id now :
  wf_state st -> advances (custody_step may_append) (verify_evidence root uid ed25519_verify evidence docker_id now) st.
Proof using sign_verify.
  intros Hwf. unfold verify_evidence. destruct (evidence_shape _ _ _); cbn [negb]; [|apply advances_Ret].
  apply advances_catch; [|intros x; by destruct (refuses_evidence x)]. apply advances_locked, advances_read.
  destruct (accepts_evidence _ _ _ _); cbn [negb]; [|apply advances_Ret].
  apply advances_then_leaves; [|done]. apply advances_write; [|constructor].
  eapply (custody_step_wf may_append); [exact Hwf|constructor].
Qed.
End Facts.
