(* ===== verification/AuthorityLedger.v ===== *)
(** * The authority as a ledger

    The operations of the authority, run one after another under any schedule of I/O
    failures, as one transition system over the decoded ledger; the properties a container
    provider relies on. *)

From S2P Require Import Prelude Effects Values Json Filesystem Custody Authority AuthorityFacts.

(** The public operations that take the lock.  The others ([owns], [has_record],
    [lifecycle_records], [recover]) read the file and leave it alone. *)
Inductive custody_op : Type :=
| OpWrite (r : record)
| OpReserve (operation name : string)
| OpConverge (operation name docker_id : string)
| OpBind (operation name docker_id : string)
| OpActivate (operation name docker_id : string)
| OpRetire (operation name docker_id : string)
| OpRetireAbsent (operation name : string) (docker_id : option string)
| OpRotateKeys
| OpIssueEvidence (operation docker_id nonce : string) (observed_at expires_at : Z)
| OpVerifyEvidence (evidence : record) (docker_id : string) (now : Z).

Section Ledger.
Variable root : fpath.
Context {uid : nat}.
Variable ed25519_sign : string -> string -> option string.
Variable ed25519_verify : string -> string -> string -> bool.
Hypothesis sign_verify : forall key message signature,
  ed25519_sign key message = Some signature -> ed25519_verify key signature message = true.

Abbreviation ledger_of := (@ledger_of root uid ed25519_verify).
Abbreviation wf_state := (wf_state ed25519_verify).
Abbreviation custody_step := (custody_step ed25519_sign).
Abbreviation converging := (converging ed25519_sign).
Abbreviation converge := (converge root uid ed25519_sign ed25519_verify).
Abbreviation owns := (owns root uid ed25519_verify).
Abbreviation verify_evidence := (verify_evidence root uid ed25519_verify).

Definition perform (op : custody_op) : store_prog unit :=
  match op with
  | OpWrite r => write root uid ed25519_sign ed25519_verify r
  | OpReserve o n => reserve root uid ed25519_sign ed25519_verify o n
  | OpConverge o n d => converge o n d
  | OpBind o n d => bind_resource root uid ed25519_sign ed25519_verify o n d
  | OpActivate o n d => activate root uid ed25519_sign ed25519_verify o n d
  | OpRetire o n d => retire root uid ed25519_sign ed25519_verify o n d
  | OpRetireAbsent o n d => retire_absent root uid ed25519_sign ed25519_verify o n d
  | OpRotateKeys => rotate_keys root uid ed25519_verify
  | OpIssueEvidence o d nonce observed_at expires_at =>
    issue_evidence root uid ed25519_sign ed25519_verify o d nonce observed_at expires_at ;* Ret tt
  | OpVerifyEvidence e d now => verify_evidence e d now ;* Ret tt
  end.

(** Docker ids are not empty, and a rotation draws a key id the ledger does not have. *)
Definition admissible (op : custody_op) (token : string) (st : AuthorityState) : Prop :=
  match op with
  | OpConverge _ _ docker_id => docker_id ≠ ""
  | OpRotateKeys => keys st !! token = None
  | _ => True
  end.

(** What [write] and [reserve] append without looking at the ledger. *)
Definition appended_by (op : custody_op) : option record :=
  match op with
  | OpWrite r => Some r
  | OpReserve o n => Some (container_record o n "" "reserved")
  | _ => None
  end.
Definition anything (st : AuthorityState) (r : record) : Prop := True.

(** One operation with its own failures, or anything that leaves the authority file alone;
    [may_append] is what is asked of the records of [write] and [reserve]. *)
Inductive op_step (may_append : AuthorityState -> record -> Prop) (w w' : world) : Prop :=
| op_run op quantum token st r :
    ledger_of w = Ok st -> admissible op token st -> (forall x, appended_by op = Some x -> may_append st x) ->
    leads (posix uid quantum token) (perform op) w r w' -> op_step may_append w w'
| op_other : w_fs w' !! state_path root = w_fs w !! state_path root -> op_step may_append w w'.

Lemma perform_advances may_append quantum token op st :
  wf_state st -> admissible op token st -> (forall x, appended_by op = Some x -> may_append st x) ->
  @advances root uid quantum token ed25519_verify unit (custody_step may_append) (perform op) st.
Proof using sign_verify.
  intros Hwf Hop Happ. destruct op; cbn [perform].
  - unfold Authority.write. destruct (validate_record r) as [[]|x]; [|by apply advances_leaves].
    rewrite lift_bind_Ok. apply advances_appending; [done..|by apply Happ].
  - apply advances_appending; [done..|by apply Happ].
  - eapply advances_mono; [|by apply advances_converge]. intros st1 st2 (r & rs & Hc & Ha). by eapply step_converge.
  - apply advances_transition; [done|done|by apply (bool_decide_unpack _)].
  - apply advances_transition; [done|done|by apply (bool_decide_unpack _)].
  - apply advances_transition; [done|done|by apply (bool_decide_unpack _)].
  - by apply advances_retire_absent.
  - by apply advances_rotate.
  - apply advances_then_leaves; [by apply advances_issue|done].
  - apply advances_then_leaves; [|done]. by eapply advances_verify.
Qed.

Lemma steps_wf may_append st st' : rtc (custody_step may_append) st st' -> wf_state st -> wf_state st'.
Proof using sign_verify. induction 1; [done|]. intros. apply IHrtc. by eapply custody_step_wf. Qed.

Lemma steps_exclusive st st' : rtc (custody_step unheld) st st' -> wf_state st -> exclusive st -> exclusive st'.
Proof using sign_verify.
  induction 1; [done|]. intros Hwf Hex. apply IHrtc; [by eapply custody_step_wf|by eapply exclusive_step].
Qed.

(** The ledger of a run of operations: readable, well formed, reached by steps. *)
Lemma run_steps may_append w w' : rtc (op_step may_append) w w' -> forall st, ledger_of w = Ok st -> wf_state st ->
  exists st', ledger_of w' = Ok st' /\ rtc (custody_step may_append) st st' /\ wf_state st'.
Proof using sign_verify.
  induction 1 as [w|w w1 w' Hop _ IH]; intros st Hl Hwf; [exists st; by split_and!|].
  assert (H1 : exists st1, ledger_of w1 = Ok st1 /\ rtc (custody_step may_append) st st1).
  { destruct Hop as [op quantum token st0 r Hl0 Hadm Happ H|E].
    - rewrite Hl in Hl0. injection Hl0 as <-. by eapply perform_advances.
    - exists st. split; [|apply rtc_refl]. unfold AuthorityFacts.ledger_of. by rewrite E. }
  destruct H1 as (st1 & Hl1 & Hs). pose proof (steps_wf _ _ _ Hs Hwf) as Hwf1.
  destruct (IH st1 Hl1 Hwf1) as (st' & Hl' & Hs' & Hwf'). exists st'. split_and!; [done|by etransitivity|done].
Qed.

(** C4. Custody of a container name is exclusive.  Start from a well-formed ledger and let
    the public operations of the authority follow one another in any order, whichever I/O
    calls fail in them and whatever other files change in between (docker ids are not empty,
    and a rotation draws a key id the ledger does not have).  The authority file then always
    decodes to a well-formed ledger that the contract's steps reach.  If at most one operation
    held each name, this stays so (an operation holds a name while its latest record for it is
    not retired): [converge], [bind], [activate], [retire], [retire_absent], [rotate_keys] and
    the evidence operations need no precondition for it, a [reserve] or [write] must not be for
    a name that another operation holds, which these two do not check. *)
Theorem custody_is_exclusive w w' st :
  ledger_of w = Ok st -> wf_state st ->
  (rtc (op_step anything) w w' ->
   exists st', ledger_of w' = Ok st' /\ rtc (custody_step anything) st st' /\ wf_state st') /\
  (exclusive st -> rtc (op_step unheld) w w' ->
   exists st', ledger_of w' = Ok st' /\ rtc (custody_step unheld) st st' /\ wf_state st' /\ exclusive st').
Proof using sign_verify.
  intros Hl Hwf. split; [intros H|intros Hex H]; destruct (run_steps _ _ _ H st Hl Hwf) as (st' & Hl' & Hs & Hwf');
    exists st'; split_and!; try done. by eapply steps_exclusive.
Qed.

(** ** Evidence *)

Lemma nonces_monotone may_append st st' : rtc (custody_step may_append) st st' -> forall nonce, nonce ∈ used_nonces st -> nonce ∈ used_nonces st'.
Proof.
  induction 1 as [st|st st1 st' Hstep _ IH]; [done|]. intros nonce Hn. apply IH.
  assert (Happ : forall r st2, appended ed25519_sign st r = Ok st2 -> used_nonces st2 = used_nonces st).
  { intros r st2 Ha. by apply appended_extend in Ha as (r' & -> & _). }
  destruct Hstep as [o n d r rs st1 _ Ha|o n d e t st1 _ _ Ha|o n r st1 _ Ha|r st1 _ Ha|id key _|n].
  1-4: by rewrite (Happ _ _ Ha).
  - exact Hn.
  - cbn. apply elem_of_app. by left.
Qed.

(** What a verification that answers [true] did. *)
Lemma verify_true quantum token evidence docker_id now w w' st :
  ledger_of w = Ok st -> wf_state st ->
  leads (posix uid quantum token) (verify_evidence evidence docker_id now) w (Ok true) w' ->
  evidence_shape evidence docker_id now = true /\ accepts_evidence ed25519_verify st evidence docker_id = true /\
  ledger_of w' = Ok (with_nonce st (text_field evidence "nonce")).
Proof using sign_verify.
  intros Hl Hwf H. unfold Authority.verify_evidence in H. destruct (evidence_shape _ _ _); cbn [negb] in H.
  2:{ by apply leads_Ret in H as [? _]. }
  split; [done|]. apply leads_catch in H as ([b|x] & w1 & H & Hk).
  2:{ destruct (refuses_evidence x); [by apply leads_Ret in Hk as [? _]|by apply leads_Raise in Hk as [? _]]. }
  destruct Hk as [[= <-] ->]. apply locked_Ok in H as (w2 & w3 & E2 & H & E3).
  apply leads_bind in H as [(st1 & w4 & H4 & H)|(? & [=] & _)]. apply read_ledger in H4 as [E4 Hst].
  specialize (Hst _ eq_refl). assert (Hl2 : ledger_of w2 = Ok st) by (unfold AuthorityFacts.ledger_of; by rewrite E2).
  rewrite Hl2 in Hst. injection Hst as <-.
  destruct (accepts_evidence _ _ _ _); cbn [negb] in H; [|by apply leads_Ret in H as [? _]]. split; [done|].
  apply leads_bind in H as [([] & w5 & H5 & H)|(? & [=] & _)]. apply leads_Ret in H as [_ ->].
  unfold AuthorityFacts.ledger_of at 1. rewrite E3. eapply write_then; [|exact H5|done].
  eapply (custody_step_wf _ _ sign_verify anything); [exact Hwf|constructor].
Qed.

(** Evidence is single use.  When a verification answers [true], the evidence was
    within its validity window and signed by a key of the ledger over an active record of
    that container, and the ledger has recorded its nonce: after any further run of
    operations, no evidence with that nonce is ever accepted again. *)
Theorem evidence_is_single_use quantum token evidence docker_id now w w1 st :
  ledger_of w = Ok st -> wf_state st ->
  leads (posix uid quantum token) (verify_evidence evidence docker_id now) w (Ok true) w1 ->
  (exists observed_at expires_at, evidence !! "observed_at" ≫= int_of = Some observed_at /\
     evidence !! "expires_at" ≫= int_of = Some expires_at /\ (observed_at <= now < expires_at)%Z) /\
  (exists key_id key, evidence !! "key_id" = Some (JStr key_id) /\ keys st !! key_id = Some key /\
     verify ed25519_verify key evidence = true) /\
  (exists operation, evidence !! "operation" = Some (JStr operation) /\ attested st (JStr operation) docker_id = true) /\
  forall w2 quantum' token' evidence' docker_id' now' w3, rtc (op_step anything) w1 w2 ->
    text_field evidence' "nonce" = text_field evidence "nonce" ->
    ~ leads (posix uid quantum' token') (verify_evidence evidence' docker_id' now') w2 (Ok true) w3.
Proof using sign_verify.
  intros Hl Hwf H. destruct (verify_true _ _ _ _ _ _ _ _ Hl Hwf H) as (Hs & Ha & Hl1).
  unfold evidence_shape in Hs. rewrite !andb_true_iff in Hs. destruct Hs as [[_ Hfields] Htime].
  assert (Htext : forall k, k ∈ ["key_id"; "operation"; "docker_id"; "nonce"; "signature"] ->
    evidence !! k = Some (JStr (text_field evidence k))).
  { intros k Hk. rewrite forallb_elem in Hfields. specialize (Hfields k Hk). unfold nonempty_field in Hfields.
    unfold text_field. by destruct (evidence !! k) as [[]|]. }
  unfold accepts_evidence in Ha. destruct (keys st !! _) as [key|] eqn:Ek; [|done].
  rewrite !andb_true_iff in Ha. destruct Ha as [[_ Hv] Hatt]. split_and!.
  - destruct (evidence !! "schema" ≫= int_of) as [sc|], (evidence !! "observed_at" ≫= int_of) as [o|],
      (evidence !! "expires_at" ≫= int_of) as [x|]; try done.
    exists o, x. split_and!; [done..| |]; rewrite !andb_true_iff in Htime; destruct Htime as [[_ ?%Z.leb_le] ?%Z.ltb_lt]; done.
  - exists (text_field evidence "key_id"), key. split_and!; [|done..]. apply Htext. by apply (bool_decide_unpack _).
  - exists (text_field evidence "operation"). rewrite <- Htext by by apply (bool_decide_unpack _).
    split; [done|]. rewrite Htext in Hatt by by apply (bool_decide_unpack _). done.
  - intros w2 quantum' token' evidence' docker_id' now' w3 Hrun Hn H3.
    assert (Hwf1 : wf_state (with_nonce st (text_field evidence "nonce"))).
    { eapply (custody_step_wf _ _ sign_verify anything); [exact Hwf|constructor]. }
    destruct (run_steps _ _ _ Hrun _ Hl1 Hwf1) as (st2 & Hl2 & Hsteps & Hwf2).
    destruct (verify_true _ _ _ _ _ _ _ _ Hl2 Hwf2 H3) as (_ & Ha & _). unfold accepts_evidence in Ha.
    destruct (keys st2 !! _); [|done]. rewrite Hn, bool_decide_true in Ha; [done|].
    eapply nonces_monotone; [exact Hsteps|]. cbn. apply elem_of_app. right. by left.
Qed.

(** ** Convergence completes *)

(** A root this user owns privately, with its lock file and no stale temporary file. *)
Record private_root (s : fs) (token : string) : Prop := {
  pr_root : exists i, s !! root = Some i /\ private_stat uid (stat_of i) DIRECTORY_MODE true = true;
  pr_lock : exists i text, s !! lock_path root = Some i /\ @private_file uid i = Some text;
  pr_temp : s !! (root ++ [".authority-" +:+ token +:+ ".tmp"]) = None }.

Section Quiet.
Context {quantum : nat} {token : string}.
Abbreviation does := (@does uid quantum token _).
Abbreviation looks := (@looks uid quantum token _).

Lemma looks_ensure_root s : private_root s token -> looks (ensure_root root uid) s (Ok tt).
Proof.
  intros [(i & Hi & Hp) _ _]. unfold ensure_root, make_private_dir. eapply looks_bind.
  - eapply looks_catch; [apply looks_call; cbn [fs_call]; by rewrite Hi|]. cbn [fs_call]. rewrite Hi. cbn. apply looks_Ret.
  - cbn beta iota. pose proof (@looks_validate uid quantum token AuthorityCustodyError root DIRECTORY_MODE true s) as H.
    by rewrite Hi, Hp in H.
Qed.

Lemma looks_open_lock s : private_root s token -> looks (open_lock root uid) s (Ok tt).
Proof.
  intros [_ (i & text & Hi & Hf) _]. pose proof (private_file_node _ _ Hf) as Hn.
  unfold open_lock. eapply looks_bind.
  - eapply (looks_catch _ _ _ (Ok tt)); [|done]. destruct i as [n u m]; cbn in Hn; subst n.
    pose proof (@looks_call uid quantum token _ (OpenLock (lock_path root) FILE_MODE) s) as H.
    cbn [fs_call] in H. rewrite Hi in H. exact (H eq_refl).
  - cbn beta iota. eapply looks_attempt; [apply looks_validate|]. rewrite Hi, private_stat_file, Hf, bool_decide_true by eauto.
    apply looks_Ret.
Qed.

Lemma looks_read s st : private_root s token -> ledger_of (quiet s) = Ok st ->
  looks (read root uid ed25519_verify) s (Ok st).
Proof.
  intros Hr Hl. unfold AuthorityFacts.ledger_of, ledger in Hl. cbn [w_fs quiet] in Hl.
  destruct (s !! state_path root) as [i|] eqn:Ei; [|done]. destruct (private_file i) as [text|] eqn:Ef; [|done].
  unfold Authority.read. eapply looks_bind; [by apply looks_ensure_root|]. cbn beta iota.
  eapply looks_bind; [eapply looks_catch; [apply looks_open_private_file|]; rewrite Ei, Ef; done|]. cbn beta iota.
  eapply looks_bind; [apply looks_or_raise, looks_closing; by eapply looks_read_private|]. cbn beta iota.
  destruct (loads text) as [j|]; [|done]. rewrite Hl. apply looks_Ret.
Qed.

Lemma looks_read_initial b s st : private_root s token -> ledger_of (quiet s) = Ok st ->
  looks (read_or_initial_state root uid ed25519_verify b) s (Ok st).
Proof.
  intros Hr Hl. unfold read_or_initial_state. eapply (looks_bind _ _ _ (Ok true)).
  - pose proof (@looks_call uid quantum token _ (PathExists (state_path root)) s eq_refl) as H. cbn [fs_call fst] in H.
    unfold AuthorityFacts.ledger_of, ledger in Hl. cbn [w_fs quiet] in Hl.
    destruct (s !! state_path root) as [[[] u m]|]; done.
  - by apply looks_read.
Qed.

Lemma does_write_atomic s st st0 : quantum ≠ 0 -> private_root s token -> ledger_of (quiet s) = Ok st0 -> wf_state st ->
  exists s', does (write_atomic root st) s (Ok tt) s' /\ private_root s' token /\ ledger_of (quiet s') = Ok st.
Proof.
  intros Hq [(i & Hi & Hp) Hlock Htmp] Hl Hwf. destruct (state_path_apart root) as (Hsr & Hsl & Hst).
  assert (Hdir : is_dir s root = true).
  { unfold is_dir. rewrite Hi. unfold private_stat in Hp. destruct i as [n u m]. cbn in Hp. by destruct n. }
  assert (Hfile : is_dir s (state_path root) = false).
  { unfold AuthorityFacts.ledger_of, ledger in Hl. cbn [w_fs quiet] in Hl. unfold is_dir.
    by destruct (s !! state_path root) as [[[] u m]|]. }
  set (file := mkInode (NFile (dumps_compact (state_document st))) uid FILE_MODE).
  assert (Hw : does (write_atomic root st) s (Ok tt) (<[state_path root := file]> s)).
  { unfold write_atomic. eapply (does_then _ _ _ token); [by apply does_call|]. cbn beta.
    eapply does_then.
    - apply (does_commit_file _ root); [done|intros E; by apply (Hst token)|done|apply parent_snoc|apply parent_snoc|done|done].
    - eapply does_catch.
      + unfold fsync_directory. eapply does_then.
        * apply does_call. cbn [fs_call]. rewrite lookup_insert_ne, Hi by done.
          unfold is_dir in Hdir. rewrite Hi in Hdir. destruct i as [[] u m]; done.
        * apply looks_closing. by apply does_call.
      + done. }
  eexists. split_and!; [exact Hw| |].
  - destruct Hlock as (il & text & Hil & Hf). constructor.
    + exists i. by rewrite lookup_insert_ne.
    + exists il, text. by rewrite lookup_insert_ne.
    + rewrite lookup_insert_ne; [done|]. intros E. by apply (Hst token).
  - by eapply write_then.
Qed.

(** ** Records of a convergence can be signed and stored *)

Lemma container_valid o n d t :
  o ≠ "" -> n ≠ "" -> t = "reserved" \/ t = "active" /\ d ≠ "" -> valid_record (container_record o n d t) = true.
Proof.
  intros Ho Hn Ht. destruct (container_lookup o n d t) as (E1 & E2 & E3 & E4 & E5).
  assert (Hne : forall k x, container_record o n d t !! k = Some (JStr x) -> x ≠ "" -> nonempty_field (container_record o n d t) k = true).
  { intros k x E Hx. unfold nonempty_field. by rewrite E, bool_decide_false. }
  assert (Ht' : t ≠ "") by (by destruct Ht as [->|[-> _]]).
  apply valid_record_spec. split_and!.
  - intros k. unfold REQUIRED_RECORD_FIELDS. rewrite !elem_of_cons, elem_of_nil.
    intros [->|[->|[->|[->|[->|[]]]]]]; by eexists.
  - intros k v Hk%elem_of_list_to_map_2. rewrite !elem_of_cons, elem_of_nil in Hk.
    destruct Hk as [[= _ ->]|[[= _ ->]|[[= _ ->]|[[= _ ->]|[[= _ ->]|[]]]]]]; by eexists.
  - intros k. rewrite !elem_of_cons, elem_of_nil. intros [->|[->|[->|[->|[]]]]]; by eapply Hne.
  - exists t. split; [|unfold field_is; by rewrite E4, bool_decide_true]. destruct Ht as [->|[-> _]]; by apply (bool_decide_unpack _).
  - unfold field_is. rewrite E4. destruct Ht as [->|[-> Hd]]; [by rewrite bool_decide_true|].
    by rewrite (Hne _ _ E3 Hd), orb_true_r.
Qed.

Lemma converge_record st o n d r rs :
  d ≠ "" -> converge_steps st o n d = Ok (r :: rs) ->
  exists d' t, r = container_record o n d' t /\ (t = "reserved" \/ t = "active" /\ d' ≠ "").
Proof.
  intros Hd H. unfold converge_steps in H. destruct (held_by_other_operation _ _ _); [done|].
  generalize dependent (container_record o n). intros container H.
  repeat match type of H with
    | match ?x with Some _ => _ | None => _ end = _ => destruct x
    | (if ?x then _ else _) = _ => destruct x
    end; try discriminate H; injection H as <- <-; do 2 eexists; split; eauto.
Qed.

Lemma append_possible st o n d r rs :
  (forall key message, is_Some (ed25519_sign key message)) -> o ≠ "" -> n ≠ "" -> d ≠ "" ->
  converge_steps st o n d = Ok (r :: rs) -> exists st', appended ed25519_sign st r = Ok st'.
Proof.
  intros Hs Ho Hn Hd Hc. destruct (converge_record _ _ _ _ _ _ Hd Hc) as (d' & t & -> & Ht).
  unfold appended, validate_record. rewrite container_valid by done. cbn [ensure result_bind].
  unfold stored_record, sign. destruct (Hs (default "" (keys st !! active_key st))
    (payload (<["key_id":=JStr (active_key st)]> (<["generation":=JInt (generation st + 1)]> (container_record o n d' t))))) as [sg ->].
  cbn [result_bind]. by eexists.
Qed.

Lemma does_append_all rs : forall s st o n d,
  (forall key message, is_Some (ed25519_sign key message)) -> quantum ≠ 0 -> o ≠ "" -> n ≠ "" -> d ≠ "" ->
  private_root s token -> ledger_of (quiet s) = Ok st -> wf_state st -> converge_steps st o n d = Ok rs ->
  exists s' st', does (append_all root ed25519_sign st rs) s (Ok st') s'.
Proof using sign_verify.
  induction rs as [|r rs IH]; intros s st o n d Hs Hq Ho Hn Hd Hr Hl Hwf Hc; cbn [append_all].
  - exists s, st. by apply (leads_Ret (posix uid quantum token)).
  - destruct (append_possible _ _ _ _ _ _ Hs Ho Hn Hd Hc) as [st1 Ha].
    pose proof (proj1 (appended_wf _ _ sign_verify _ _ _ Hwf Ha)) as Hwf1.
    destruct (does_write_atomic s st1 st Hq Hr Hl Hwf1) as (s1 & Hw & Hr1 & Hl1).
    destruct (IH s1 st1 o n d) as (s' & st' & H); [done..|by eapply converge_next|].
    exists s', st'. eapply does_then; [|exact H]. unfold append. rewrite Ha, lift_bind_Ok.
    eapply does_then; [exact Hw|]. by apply (leads_Ret (posix uid quantum token)).
Qed.

Lemma does_converge s st o n d rs :
  (forall key message, is_Some (ed25519_sign key message)) -> quantum ≠ 0 -> o ≠ "" -> n ≠ "" -> d ≠ "" ->
  private_root s token -> ledger_of (quiet s) = Ok st -> wf_state st -> converge_steps st o n d = Ok rs ->
  exists s', does (converge o n d) s (Ok tt) s'.
Proof using sign_verify.
  intros Hs Hq Ho Hn Hd Hr Hl Hwf Hc. destruct (does_append_all rs s st o n d) as (s' & st' & H); [done..|].
  exists s'. unfold Authority.converge. eapply does_then; [by apply does_call|]. cbn beta.
  unfold locked. eapply does_then; [by apply looks_ensure_root|]. eapply does_then; [by apply looks_open_lock|].
  eapply does_attempt.
  - apply does_or_raise. eapply does_then; [by apply does_call|]. eapply does_then; [by apply looks_read_initial|].
    rewrite Hc, lift_bind_Ok. eapply does_then; [exact H|]. by apply (leads_Ret (posix uid quantum token)).
  - eapply does_attempt; [by apply does_call|]. eapply does_then; [by apply does_call|].
    eapply does_then; by apply (leads_Ret (posix uid quantum token)).
Qed.
End Quiet.

(** A convergence that returned left the whole sequence done. *)
Lemma converge_Ok quantum token o n d w w' st rs :
  d ≠ "" -> ledger_of w = Ok st -> wf_state st -> converge_steps st o n d = Ok rs ->
  leads (posix uid quantum token) (converge o n d) w (Ok tt) w' ->
  exists st', ledger_of w' = Ok st' /\ wf_state st' /\ converge_steps st' o n d = Ok [].
Proof using sign_verify.
  intros Hd Hl Hwf Hc H. unfold Authority.converge in H. apply leads_bind in H as [(b & w1 & H1 & H)|(? & [=] & _)].
  assert (E1 : w_fs w1 !! state_path root = w_fs w !! state_path root) by (eapply frame; [|exact H1]; leaves).
  apply locked_Ok in H as (w2 & w3 & E2 & H & E3). unfold AuthorityFacts.ledger_of in *. rewrite <- E1, <- E2 in Hl.
  apply leads_bind in H as [(st1 & w4 & H4 & H)|(? & [=] & _)].
  apply (read_initial_Ok root ed25519_verify _ _ _ _ st) in H4 as [-> Hl4]; [|exact Hl].
  rewrite Hc, lift_bind_Ok in H. apply leads_bind in H as [(st' & w5 & H5 & H)|(? & [=] & _)].
  apply leads_Ret in H as [_ ->]. eapply append_all_Ok in H5 as (Hl5 & Hwf5 & Hc5); [|done..].
  exists st'. split_and!; [|done..]. by rewrite E3.
Qed.

(** The sequence can be taken up again wherever it stopped. *)
Lemma converging_steps o n d st st' :
  d ≠ "" -> rtc (converging o n d) st st' -> forall rs, converge_steps st o n d = Ok rs ->
  exists rs', converge_steps st' o n d = Ok rs'.
Proof.
  intros Hd. induction 1 as [st|st st1 st' (r & rs1 & Hc & Ha) _ IH]; [eauto|]. intros rs _.
  eapply IH. by eapply converge_next.
Qed.

Lemma converging_custody o n d st st' : rtc (converging o n d) st st' -> rtc (custody_step anything) st st'.
Proof. apply rtc_subrel. intros st1 st2 (r & rs & Hc & Ha). by eapply step_converge. Qed.

(** C29. An interrupted convergence is resumed.  Take an authority whose file decodes to a
    well-formed ledger that permits a [converge].  Wherever the I/O failures stop that
    [converge] (whether it returned or raised), the next one over the file it left completes
    when nothing fails: it returns, and the ledger then grants the operation that container,
    so that [owns] answers [true].  The root and its lock file are there and private and the
    temporary file is not; without a state file beside the lock file [converge] raises, every
    time. *)
Theorem converge_resumes quantum token quantum' token' o n d rs st w r w1 s :
  (forall key message, is_Some (ed25519_sign key message)) ->
  o ≠ "" -> n ≠ "" -> d ≠ "" -> ledger_of w = Ok st -> wf_state st -> converge_steps st o n d = Ok rs ->
  leads (posix uid quantum token) (converge o n d) w r w1 ->
  s !! state_path root = w_fs w1 !! state_path root -> private_root s token' -> quantum' ≠ 0 ->
  exists s', leads (posix uid quantum' token') (converge o n d) (quiet s) (Ok tt) (quiet s') /\
    forall quantum2 token2 b w2, leads (posix uid quantum2 token2) (owns o n d) (quiet s') (Ok b) w2 -> b = true.
Proof using sign_verify.
  intros Hs Ho Hn Hd Hl Hwf Hc H Es Hr Hq.
  destruct (advances_converge root _ _ sign_verify st o n d Hd Hwf w r w1 Hl H) as (st1 & Hl1 & Hrtc).
  destruct (converging_steps _ _ _ _ _ Hd Hrtc _ Hc) as [rs1 Hc1].
  pose proof (steps_wf _ _ _ (converging_custody _ _ _ _ _ Hrtc) Hwf) as Hwf1.
  assert (Hls : ledger_of (quiet s) = Ok st1) by (unfold AuthorityFacts.ledger_of in *; cbn; by rewrite Es).
  destruct (@does_converge quantum' token' s st1 o n d rs1) as [s' H']; [done..|]. exists s'. split; [exact H'|].
  intros quantum2 token2 b w2 Hw2. destruct (converge_Ok _ _ _ _ _ _ _ _ _ Hd Hls Hwf1 Hc1 H') as (st' & Hl' & _ & Hc').
  unfold Authority.owns in Hw2. apply leads_bind in Hw2 as [(st2 & w3 & H3 & Hw2)|(? & [=] & _)].
  apply leads_Ret in Hw2 as [[= ->] _]. apply read_ledger in H3 as [_ H3]. specialize (H3 _ eq_refl).
  rewrite Hl' in H3. injection H3 as <-. by apply converge_done.
Qed.
End Ledger.

(** ** A concrete authority *)

Definition toy_sign (key message : string) : option string := Some (key +:+ message).
Definition toy_verify (key signature message : string) : bool := bool_decide (signature = key +:+ message).

Lemma toy_sign_verify key message signature :
  toy_sign key message = Some signature -> toy_verify key signature message = true.
Proof. intros [= <-]. by apply bool_decide_eq_true. Qed.

Definition sample_root : fpath := ["custody"].
Definition sample_ledger : AuthorityState := mkAuthorityState 0 [] {["k1" := "secret"]} "k1" [].
(** The state file of [sample_ledger] in its private root. *)
Definition sample_files : fs :=
  <[state_path sample_root := mkInode (NFile (dumps_compact (state_document sample_ledger))) 7 FILE_MODE]>
  (<[lock_path sample_root := mkInode (NFile "") 7 FILE_MODE]>
  (<[sample_root := mkInode NDir 7 DIRECTORY_MODE]> ∅)).
Definition sample_posix := posix 7 1000 "t1".
Definition sample_owned : world :=
  (exec sample_posix (converge sample_root 7 toy_sign toy_verify "op" "db" "c0ffee") (quiet sample_files)).2.
Definition sample_evidence : record :=
  match (exec sample_posix (issue_evidence sample_root 7 toy_sign toy_verify "op" "c0ffee" "n1" 10 20) sample_owned).1.1 with
  | Ok evidence => evidence
  | Err _ => ∅
  end.
Definition sample_verified : world :=
  (exec sample_posix (verify_evidence sample_root 7 toy_verify sample_evidence "c0ffee" 15) sample_owned).2.

Lemma sample_read : ledger_of (uid := 7) sample_root toy_verify (quiet sample_files) = Ok sample_ledger.
Proof. vm_compute. reflexivity. Qed.

Lemma sample_wf : wf_state toy_verify sample_ledger.
Proof. constructor; [constructor|by eexists]. Qed.

Lemma sample_exclusive : exclusive sample_ledger.
Proof. by intros n o1 o2 (r & [=] & _). Qed.

Lemma sample_owned_run may_append :
  rtc (op_step (uid := 7) sample_root toy_sign toy_verify may_append) (quiet sample_files) sample_owned.
Proof.
  apply rtc_once. eapply (op_run _ _ _ _ _ _ (OpConverge "op" "db" "c0ffee") 1000 "t1"); [exact sample_read|done|done|].
  apply leads_exec.
Qed.

Lemma custody_is_exclusive_witness : exists st', ledger_of (uid := 7) sample_root toy_verify sample_owned = Ok st' /\
  rtc (custody_step toy_sign unheld) sample_ledger st' /\ wf_state toy_verify st' /\ exclusive st'.
Proof.
  exact (proj2 (custody_is_exclusive sample_root toy_sign toy_verify toy_sign_verify _ _ _ sample_read sample_wf)
           sample_exclusive (sample_owned_run unheld)).
Defined.

(** [reserve] does not look for a holder: a second operation then holds the name too. *)
Definition sample_reserved : world :=
  (exec sample_posix (reserve sample_root 7 toy_sign toy_verify "other" "db") sample_owned).2.
Lemma reserve_breaks_exclusivity : exists st', ledger_of (uid := 7) sample_root toy_verify sample_reserved = Ok st' /\
  holds st' "op" "db" /\ holds st' "other" "db".
Proof.
  assert (E : match ledger_of (uid := 7) sample_root toy_verify sample_reserved with
    | Ok st' => (text_field (default ∅ (latest st' "op" "db")) "state", text_field (default ∅ (latest st' "other" "db")) "state")
    | Err _ => ("", "") end = ("active", "reserved")) by (vm_compute; reflexivity).
  destruct (ledger_of _ _ _) as [st'|]; [|done]. injection E as E1 E2. exists st'. split; [done|]. unfold holds.
  destruct (latest st' "op" "db") as [r1|], (latest st' "other" "db") as [r2|]; try done. cbn in E1, E2.
  split; eexists; (split; [done|]); by rewrite ?E1, ?E2.
Qed.

Lemma evidence_is_single_use_witness :
  evidence_shape sample_evidence "c0ffee" 16 = true /\
  ~ (exists w3, leads (posix 7 1000 "t2") (verify_evidence sample_root 7 toy_verify sample_evidence "c0ffee" 16)
                  sample_verified (Ok true) w3).
Proof.
  destruct (run_steps sample_root toy_sign toy_verify toy_sign_verify anything _ _ (sample_owned_run anything) _ sample_read sample_wf)
    as (st & Hl & _ & Hwf).
  assert (H : leads sample_posix (verify_evidence sample_root 7 toy_verify sample_evidence "c0ffee" 15) sample_owned
                (Ok true) sample_verified).
  { assert (E : (exec sample_posix (verify_evidence sample_root 7 toy_verify sample_evidence "c0ffee" 15) sample_owned).1.1
                = Ok true) by (vm_compute; reflexivity).
    rewrite <- E. apply leads_exec. }
  destruct (evidence_is_single_use sample_root toy_sign toy_verify toy_sign_verify 1000 "t1" _ _ _ _ _ st Hl Hwf H)
    as (_ & _ & _ & Honce).
  split; [vm_compute; reflexivity|]. intros [w3 H3]. revert H3. apply (Honce sample_verified 1000 "t2" sample_evidence "c0ffee" 16%Z w3 (rtc_refl _ _) eq_refl).
Defined.

(** The first call of the first attempt fails. *)
Definition sample_interrupted : result exn unit * world :=
  let '(r, _, w) := exec sample_posix (converge sample_root 7 toy_sign toy_verify "op" "db" "c0ffee")
                      (mkWorld sample_files [true]) in (r, w).

Lemma sample_interrupted_leads :
  leads sample_posix (converge sample_root 7 toy_sign toy_verify "op" "db" "c0ffee") (mkWorld sample_files [true])
    sample_interrupted.1 sample_interrupted.2.
Proof.
  pose proof (leads_exec sample_posix (converge sample_root 7 toy_sign toy_verify "op" "db" "c0ffee")
    (mkWorld sample_files [true])) as H.
  unfold sample_interrupted. by destruct (exec _ _ _) as [[r tr] w1].
Qed.

Lemma sample_interrupted_file : sample_files !! state_path sample_root = w_fs sample_interrupted.2 !! state_path sample_root.
Proof. vm_compute. reflexivity. Qed.

Lemma sample_private : private_root (uid := 7) sample_root sample_files "t2".
Proof. constructor; [by eexists|by do 2 eexists|by vm_compute]. Qed.

Lemma sample_steps : converge_steps sample_ledger "op" "db" "c0ffee" =
  Ok [container_record "op" "db" "" "reserved"; container_record "op" "db" "c0ffee" "reserved";
      container_record "op" "db" "c0ffee" "active"].
Proof. reflexivity. Qed.

Lemma toy_signs key message : is_Some (toy_sign key message).
Proof. by eexists. Qed.

Lemma converge_resumes_witness : exists s',
  leads (posix 7 1000 "t2") (converge sample_root 7 toy_sign toy_verify "op" "db" "c0ffee") (quiet sample_files) (Ok tt) (quiet s') /\
  forall quantum2 token2 b w2,
    leads (posix 7 quantum2 token2) (owns sample_root 7 toy_verify "op" "db" "c0ffee") (quiet s') (Ok b) w2 -> b = true.
Proof.
  exact (converge_resumes sample_root toy_sign toy_verify toy_sign_verify 1000 "t1" 1000 "t2" "op" "db" "c0ffee" _ _
    (mkWorld sample_files [true]) _ _ _ toy_signs (ltac:(done)) (ltac:(done)) (ltac:(done)) sample_read sample_wf sample_steps sample_interrupted_leads
    sample_interrupted_file sample_private (ltac:(done))).
Defined.
