(* ===== verification/ControlPlane.v ===== *)
(** * The control plane ([odoo_forge/control_plane/], [ports/resource_custody.py])

    Registering an instance behind one custody transition, and reconciling the registry with
    live observations.  The registry, the custody adapter and the status reader are ports;
    the Docker custody adapter is modelled over Docker and the ownership authority. *)

From S2P Require Import Prelude Effects Values Json Backend.

(** ** Custody requests *)

Inductive CustodyTransition : Type := RESERVE_BIND_ACTIVATE.
Inductive CustodyStartingState : Type := UNRESERVED.
Definition transition_text (t : CustodyTransition) : string := match t with RESERVE_BIND_ACTIVATE => "reserve_bind_activate" end.
Definition starting_text (s : CustodyStartingState) : string := match s with UNRESERVED => "unreserved" end.
Definition ownership_text (o : ResourceOwnership) : string :=
  match o with CREATED => "created" | ADOPTED => "adopted" | EXTERNAL => "external" end.

Record CustodyRequest : Type := mkCustodyRequest {
  cq_operation : DurableOperationIdentity; cq_pointer : InstancePointer; cq_resource : ResourceRef;
  cq_resource_name : string; cq_resource_id : string;
  cq_starting_state : CustodyStartingState; cq_requested_transition : CustodyTransition }.
Record RegistrationRequest : Type := mkRegistrationRequest {
  rq_operation : DurableOperationIdentity; rq_pointer : InstancePointer; rq_resource : ResourceRef;
  rq_resource_name : string; rq_resource_id : string }.

(** [text.partition(":")]: what precedes the separator, and what follows it when there is one. *)
Fixpoint partition_chars (sep : ascii) (l : list ascii) : list ascii * option (list ascii) :=
  match l with
  | [] => ([], None)
  | c :: l' =>
    if Ascii.eqb c sep then ([], Some l')
    else let '(before, after) := partition_chars sep l' in (c :: before, after)
  end.
Definition trimmed (s : string) : bool := bool_decide (s = strip s) && negb (bool_decide (s = "")).
Definition custody_operation_parts (operation_id : string) : result exn (string * string) :=
  match partition_chars ":"%char (chars operation_id) with
  | (_, None) => Err (ValueError "custody operation must be provider-qualified")
  | (provider, Some token) =>
    ensure (trimmed (str provider)) (ValueError "custody operation provider is required") ;!
    ensure (trimmed (str token)) (ValueError "custody operation token is required") ;!
    Ok (str provider, str token)
  end.

(** ** The operations of the control plane *)

Inductive control_op : Type -> Type :=
| GetRecord (pointer : InstancePointer) : control_op InstanceRecord
| ListRecords (scope : ProjectScope) : control_op (list InstanceRecord)
| RegisterRecord (record : InstanceRecord) : control_op InstanceRecord
| ConfirmCustody (request : CustodyRequest) : control_op OwnershipReceipt
| ReadStatus (ref : InstanceRef) : control_op InstanceStatus.
Definition control_prog := prog control_op exn.

Inductive ReconciliationOutcome : Type := FRESH | DRIFTED | STALE_UNVERIFIED | EMPTY | PERSISTENCE_ERROR | PARTIAL_FAILURE.
#[export] Instance ReconciliationOutcome_eq_dec : EqDecision ReconciliationOutcome.
Proof. solve_decision. Defined.
Record ReconciliationRow : Type := mkReconciliationRow {
  row_record : InstanceRecord; row_live : option InstanceStatus; row_outcome : ReconciliationOutcome; row_detail : option string }.
Record ReconciliationResult : Type := mkReconciliationResult {
  res_outcome : ReconciliationOutcome; res_rows : list ReconciliationRow; res_detail : option string }.

Definition LIVE_STATUS_ERROR : string := "live status could not be verified".
Definition HANDLE_ERROR : string := "resource handle could not be verified".
Definition PERSISTENCE_ERROR_TEXT : string := "instance registry could not be read".

Section ControlPlane.
(** [hashlib.sha256(text).hexdigest()] *)
Variable sha256 : string -> string.

Definition custody_request_digest (operation_id : string) (pointer : InstancePointer) (resource : ResourceRef)
    (resource_name resource_id : string) (starting_state : CustodyStartingState) (requested : CustodyTransition) : string :=
  sha256 (dumps_compact (JObj
    [("operation_id", JStr operation_id);
     ("tenant", JStr (tenant_value (tenant (ptr_scope pointer))));
     ("project", JStr (project_id (ptr_scope pointer)));
     ("instance", JStr (instance_value (ptr_instance_id pointer)));
     ("resource_identifier", JStr (rr_identifier resource));
     ("resource_kind", JStr (rr_kind resource));
     ("resource_ownership", JStr (ownership_text (rr_ownership resource)));
     ("resource_name", JStr resource_name);
     ("resource_id", JStr resource_id);
     ("starting_state", JStr (starting_text starting_state));
     ("requested_transition", JStr (transition_text requested))])).

(** The fields and the validator of [CustodyRequest]. *)
Definition validate_contract (q : CustodyRequest) : result exn CustodyRequest :=
  ensure (negb (bool_decide (cq_resource_name q = "")) && negb (bool_decide (cq_resource_id q = "")))
    (ValueError "String should have at least 1 character") ;!
  let! _ := custody_operation_parts (operation_id (cq_operation q)) in
  ensure (bool_decide (cq_resource_name q = rr_identifier (cq_resource q)))
    (ValueError "custody resource name must match its identifier") ;!
  ensure (bool_decide (request_digest (cq_operation q) =
      custody_request_digest (operation_id (cq_operation q)) (cq_pointer q) (cq_resource q) (cq_resource_name q)
        (cq_resource_id q) (cq_starting_state q) (cq_requested_transition q)))
    (ValueError "custody request digest does not match request meaning") ;!
  ensure (bool_decide (rr_kind (cq_resource q) = "container") && bool_decide (rr_ownership (cq_resource q) = CREATED))
    (ValueError "unsupported custody resource") ;!
  Ok q.

(** [_custody_request] *)
Definition custody_request (q : RegistrationRequest) : result exn CustodyRequest :=
  match validate_contract (mkCustodyRequest (rq_operation q) (rq_pointer q) (rq_resource q) (rq_resource_name q)
                             (rq_resource_id q) UNRESERVED RESERVE_BIND_ACTIVATE) with
  | Ok c => Ok c
  | Err _ => Err RegistrationValidationError
  end.

(** ** Registering *)

Definition existing_record (pointer : InstancePointer) : control_prog (option InstanceRecord) :=
  catch (let* r := call (GetRecord pointer) in Ret (Some r))
    (fun e => if bool_decide (e = InstanceRecordNotFoundError) then Ret None else Raise e).

(** [_matches] *)
Definition matches_request (existing : InstanceRecord) (q : RegistrationRequest) : bool :=
  bool_decide (rec_pointer existing = rq_pointer q) && bool_decide (rec_resource existing = rq_resource q) &&
  match rec_receipt existing with
  | Some receipt =>
    bool_decide (or_operation receipt = rq_operation q) && bool_decide (or_owned_resource_ids receipt = [rq_resource_id q])
  | None => false
  end.

Definition register (q : RegistrationRequest) : control_prog InstanceRecord :=
  let* c := lift (custody_request q) in
  let* existing := existing_record (rq_pointer q) in
  match existing with
  | Some r => if matches_request r q then Ret r else Raise InstanceRegistrationConflictError
  | None =>
    let* receipt := call (ConfirmCustody c) in
    let record := mkInstanceRecord (rq_pointer q) (rq_resource q) (Some receipt) in
    catch (call (RegisterRecord record))
      (fun e => if bool_decide (e = InstanceRegistrationConflictError) then Raise e else call (RegisterRecord record))
  end.

(** ** Reconciling *)

(** [_instance_ref] *)
Definition handle_of (r : InstanceRecord) : result exn InstanceRef :=
  let project := project_id (ptr_scope (rec_pointer r)) in
  let instance := instance_value (ptr_instance_id (rec_pointer r)) in
  let identifier := rr_identifier (rec_resource r) in
  let expected_network := "odoo-forge-" +:+ sanitize_name sha256 project +:+ "-" +:+ sanitize_name sha256 instance in
  if negb (bool_decide (rr_kind (rec_resource r) = "instance")) || negb (bool_decide (identifier = expected_network))
  then Err (ValueError HANDLE_ERROR)
  else Ok (mkInstanceRef project instance identifier (identifier +:+ "-db") (identifier +:+ "-odoo")).

Definition status_outcome (s : InstanceStatus) : ReconciliationOutcome :=
  if negb (rs_running (is_odoo s)) || negb (rs_running (is_postgres s)) then DRIFTED
  else if negb (rs_ready (is_odoo s)) || negb (rs_ready (is_postgres s)) then DRIFTED
  else FRESH.

Definition reconcile_row (r : InstanceRecord) : control_prog ReconciliationRow :=
  match handle_of r with
  | Err _ => Ret (mkReconciliationRow r None STALE_UNVERIFIED (Some HANDLE_ERROR))
  | Ok ref =>
    let* live := attempt (call (ReadStatus ref)) in
    Ret (match live with
         | Ok s => mkReconciliationRow r (Some s) (status_outcome s) None
         | Err _ => mkReconciliationRow r None STALE_UNVERIFIED (Some LIVE_STATUS_ERROR)
         end)
  end.

Definition by_instance (a b : InstanceRecord) : Prop :=
  str_le (instance_value (ptr_instance_id (rec_pointer a))) (instance_value (ptr_instance_id (rec_pointer b))).
#[export] Instance by_instance_dec : RelDecision by_instance.
Proof. intros a b. unfold by_instance. apply _. Defined.

Definition any_row (o : ReconciliationOutcome) (rows : list ReconciliationRow) : bool :=
  existsb (fun row => bool_decide (row_outcome row = o)) rows.
Definition marked_partial (row : ReconciliationRow) : ReconciliationRow :=
  if bool_decide (row_outcome row = STALE_UNVERIFIED)
  then mkReconciliationRow (row_record row) (row_live row) PARTIAL_FAILURE (row_detail row) else row.
(** The envelope of the rows. *)
Definition envelope (rows : list ReconciliationRow) : ReconciliationResult :=
  let failures := any_row STALE_UNVERIFIED rows in
  let usable := existsb (fun row => negb (bool_decide (row_outcome row = STALE_UNVERIFIED))) rows in
  if failures && usable then mkReconciliationResult PARTIAL_FAILURE (map marked_partial rows) None
  else if any_row DRIFTED rows then mkReconciliationResult DRIFTED rows None
  else if failures then mkReconciliationResult STALE_UNVERIFIED rows None
  else mkReconciliationResult FRESH rows None.

Definition reconcile_records (records : list InstanceRecord) : control_prog ReconciliationResult :=
  match merge_sort by_instance records with
  | [] => Ret (mkReconciliationResult EMPTY [] None)
  | ordered => let* rows := map_each reconcile_row ordered in Ret (envelope rows)
  end.

Definition unreadable : ReconciliationResult := mkReconciliationResult PERSISTENCE_ERROR [] (Some PERSISTENCE_ERROR_TEXT).
(** [Reconciler.list] and [Reconciler.get] *)
Definition list_scope (scope : ProjectScope) : control_prog ReconciliationResult :=
  let* records := attempt (call (ListRecords scope)) in
  match records with
  | Err _ => Ret unreadable
  | Ok l => reconcile_records l
  end.
Definition get_instance (pointer : InstancePointer) : control_prog ReconciliationResult :=
  let* r := attempt (call (GetRecord pointer)) in
  match r with
  | Err e => Ret (if bool_decide (e = InstanceRecordNotFoundError) then mkReconciliationResult EMPTY [] None else unreadable)
  | Ok record => reconcile_records [record]
  end.
End ControlPlane.

(** ** The Docker custody adapter ([odoo_forge_postgres_docker/authority.py]) *)

Inductive custody_adapter_op : Type -> Type :=
| InspectNamed (name : string) : custody_adapter_op (Z * option string)
| ConvergeAuthority (operation name docker_id : string) : custody_adapter_op unit.
Definition adapter_prog := prog custody_adapter_op exn.

Definition CUSTODY_PROVIDER : string := "postgres-docker".
(** [d[key]] on a decoded value *)
Definition item (key : string) (j : json) : result exn json :=
  match j with
  | JObj d => match dget key d with Some v => Ok v | None => Err (KeyError key) end
  | _ => Err (TypeError "subscript")
  end.
(** What [_verify_live] reads, with [ValueError] for what it refuses. *)
Definition live_matches (q : CustodyRequest) (token : string) (returncode : Z) (stdout : option string) : result exn unit :=
  match (if (returncode =? 0)%Z then stdout else None) with
  | None => Err (ValueError "")
  | Some text =>
    match loads text with
    | Some (JArr [JObj d]) =>
      let! config := item "Config" (JObj d) in
      let! labels := item "Labels" config in
      let! id := item "Id" (JObj d) in
      ensure (bool_decide (id = JStr (cq_resource_id q)) &&
              match labels with
              | JObj ls =>
                forallb (fun kv => match kv.2 with JStr _ => true | _ => false end) ls &&
                forallb (fun kv => bool_decide (dget kv.1 ls = Some (JStr kv.2)))
                  [("io.odoo-forge.provider", CUSTODY_PROVIDER); ("io.odoo-forge.operation", operation_id (cq_operation q));
                   ("io.odoo-forge.resource-kind", "container"); ("io.odoo-forge.creator-token", token)]
              | _ => false
              end) (ValueError "")
    | _ => Err (ValueError "")
    end
  end.
Definition is_lookup_error (e : exn) : bool :=
  match e with OSError _ | KeyError _ | TypeError _ | ValueError _ | TimeoutExpired => true | _ => false end.
Definition verify_live (q : CustodyRequest) : adapter_prog unit :=
  catch (let* '(provider, token) := lift (custody_operation_parts (operation_id (cq_operation q))) in
         lift (ensure (bool_decide (provider = CUSTODY_PROVIDER)) (ValueError "")) ;*
         let* '(returncode, stdout) := call (InspectNamed (cq_resource_name q)) in
         lift (live_matches q token returncode stdout))
    (fun e => if is_lookup_error e then Raise CustodyUnverifiableError else Raise e).
Definition confirm (q : CustodyRequest) : adapter_prog OwnershipReceipt :=
  verify_live q ;*
  catch (call (ConvergeAuthority (operation_id (cq_operation q)) (cq_resource_name q) (cq_resource_id q)))
    (fun e => match e with
              | AuthorityCustodyError | AuthorityStateError | OSError _ => Raise CustodyUnverifiableError
              | _ => Raise e
              end) ;*
  Ret (mkOwnershipReceipt (cq_operation q) [cq_resource_id q] true).
