(* ===== verification/ControlPlaneFacts.v ===== *)
(** * Properties of the control plane *)

From S2P Require Import Prelude Effects Values Json Backend ControlPlane.

Abbreviation control_history := (list (event control_op exn)).

Section ControlPlane.
Variable sha256 : string -> string.

(** ** Registration *)

Definition is_confirm (R : Type) (e : control_op R) : bool := match e with ConfirmCustody _ => true | _ => false end.
Definition is_register (R : Type) (e : control_op R) : bool := match e with RegisterRecord _ => true | _ => false end.

Lemma custody_request_Ok q c :
  custody_request sha256 q = Ok c ->
  c = mkCustodyRequest (rq_operation q) (rq_pointer q) (rq_resource q) (rq_resource_name q) (rq_resource_id q) UNRESERVED RESERVE_BIND_ACTIVATE /\
  rr_kind (rq_resource q) = "container" /\ rr_ownership (rq_resource q) = CREATED /\ rq_resource_name q = rr_identifier (rq_resource q).
Proof.
  unfold custody_request. destruct (validate_contract _ _) as [c'|] eqn:E; [|done]. intros [= <-]. unfold validate_contract in E.
  apply result_bind_Ok in E as ([] & _ & E). apply result_bind_Ok in E as (parts & _ & E).
  apply result_bind_Ok in E as ([] & Hname & E). apply result_bind_Ok in E as ([] & _ & E).
  apply result_bind_Ok in E as ([] & Hkind & E). injection E as <-.
  apply ensure_Ok, bool_decide_eq_true in Hname. apply ensure_Ok, andb_true_iff in Hkind as [Hk Ho].
  apply bool_decide_eq_true in Hk, Ho. done.
Qed.

Lemma existing_record_runs pointer tr o :
  runs (existing_record pointer) tr o ->
  exists r, tr = [Event (GetRecord pointer) r] /\
    match r with
    | Ok record => o = Ok (Some record)
    | Err e => if bool_decide (e = InstanceRecordNotFoundError) then o = Ok None else o = Err e
    end.
Proof.
  unfold existing_record. intros H. apply runs_catch in H as [(a & -> & H)|(tr1 & tr2 & x & -> & H1 & H2)].
  - apply runs_bind_call in H as ([r|e] & tr' & -> & H); [|by destruct H as [_ [=]]]. apply runs_Ret in H as [-> [= ->]]. by exists (Ok r).
  - apply runs_bind_call in H1 as ([r|e] & tr' & -> & H1); [by apply runs_Ret in H1 as [_ [=]]|]. destruct H1 as [-> [= ->]].
    exists (Err e). case_match; [apply runs_Ret in H2 as [-> ->]|apply runs_Raise in H2 as [-> ->]]; done.
Qed.

Definition existing_of (r : result exn InstanceRecord) : result exn (option InstanceRecord) :=
  match r with
  | Ok record => Ok (Some record)
  | Err e => if bool_decide (e = InstanceRecordNotFoundError) then Ok None else Err e
  end.
Lemma existing_record_gets pointer r :
  runs (existing_record pointer) [Event (GetRecord pointer) r]
    (existing_of r).
Proof.
  unfold existing_record. apply runs_catch. destruct r as [record|e].
  - left. exists (Some record). split; [done|]. apply runs_bind_call. exists (Ok record), []. split; [done|by apply runs_Ret].
  - right. exists [Event (GetRecord pointer) (Err e)], [], e. split; [done|]. split; [apply runs_bind_call; by exists (Err e), []|].
    cbn. destruct (bool_decide (e = InstanceRecordNotFoundError)); [by apply runs_Ret|by apply runs_Raise].
Qed.

Lemma commit_runs record r tr o :
  (if bool_decide (r = Err InstanceRegistrationConflictError) || (match r with Ok _ => true | Err _ => false end)
   then tr = [] /\ o = r else runs (call (RegisterRecord record)) tr o) ->
  runs (catch (call (RegisterRecord record))
         (fun e => if bool_decide (e = InstanceRegistrationConflictError) then Raise e else call (RegisterRecord record)))
    (Event (RegisterRecord record) r :: tr) o.
Proof.
  intros Ht. apply runs_catch. destruct r as [a|e]; [left; exists a|right; exists [Event (RegisterRecord record) (Err e)], tr, e].
  - rewrite orb_true_r in Ht. destruct Ht as [-> ->]. split; [done|by apply runs_call].
  - split; [done|]. split; [by apply runs_call|]. rewrite orb_false_r in Ht.
    destruct (bool_decide_reflect (e = InstanceRegistrationConflictError)) as [He|He].
    + subst e. rewrite bool_decide_true in Ht by done. destruct Ht as [-> ->]. by apply runs_Raise.
    + by rewrite bool_decide_false in Ht by congruence.
Qed.

(** The protocol of one registration: what is asked, in which order, and what comes of it. *)
Inductive registers (q : RegistrationRequest) : list (event control_op exn) -> result exn InstanceRecord -> Prop :=
| RegInvalid e : custody_request sha256 q = Err e -> registers q [] (Err e)
| RegKnown c existing : custody_request sha256 q = Ok c ->
    registers q [Event (GetRecord (rq_pointer q)) (Ok existing)]
      (if matches_request existing q then Ok existing else Err InstanceRegistrationConflictError)
| RegUnreadable c e : custody_request sha256 q = Ok c -> e <> InstanceRecordNotFoundError ->
    registers q [Event (GetRecord (rq_pointer q)) (Err e)] (Err e)
| RegUnconfirmed c e : custody_request sha256 q = Ok c ->
    registers q [Event (GetRecord (rq_pointer q)) (Err InstanceRecordNotFoundError); Event (ConfirmCustody c) (Err e)] (Err e)
| RegCommitted c receipt r : custody_request sha256 q = Ok c ->
    (forall e, r = Err e -> e = InstanceRegistrationConflictError) ->
    registers q [Event (GetRecord (rq_pointer q)) (Err InstanceRecordNotFoundError); Event (ConfirmCustody c) (Ok receipt);
                 Event (RegisterRecord (mkInstanceRecord (rq_pointer q) (rq_resource q) (Some receipt))) r] r
| RegRetried c receipt e r : custody_request sha256 q = Ok c -> e <> InstanceRegistrationConflictError ->
    registers q [Event (GetRecord (rq_pointer q)) (Err InstanceRecordNotFoundError); Event (ConfirmCustody c) (Ok receipt);
                 Event (RegisterRecord (mkInstanceRecord (rq_pointer q) (rq_resource q) (Some receipt))) (Err e);
                 Event (RegisterRecord (mkInstanceRecord (rq_pointer q) (rq_resource q) (Some receipt))) r] r.

Lemma registers_of q tr o : runs (register sha256 q) tr o -> registers q tr o.
Proof.
  unfold register.
  intros H. destruct (custody_request sha256 q) as [c|e] eqn:Ec; [|apply runs_Raise in H as [-> ->]; by constructor].
  rewrite lift_bind_Ok in H. apply runs_bind in H as [(t1 & t2 & existing & -> & H1 & H2)|(x & -> & H)];
    [|apply existing_record_runs in H as (r & -> & H); destruct r as [|e]; [done|]].
  2:{ destruct (bool_decide_reflect (e = InstanceRecordNotFoundError)) as [|Hne]; [done|]. injection H as <-. by econstructor. }
  apply existing_record_runs in H1 as (r & -> & H1). destruct r as [record|e].
  { injection H1 as ->. destruct (matches_request record q) eqn:Em;
      [apply runs_Ret in H2 as [-> ->]|apply runs_Raise in H2 as [-> ->]];
      pose proof (RegKnown q c record Ec) as Hk; rewrite Em in Hk; exact Hk. }
  destruct (bool_decide_reflect (e = InstanceRecordNotFoundError)) as [He|He]; [subst e|done]. injection H1 as ->.
  apply runs_bind_call in H2 as ([receipt|e] & t3 & -> & H2); [|destruct H2 as [-> ->]; by econstructor].
  cbv zeta in H2. apply runs_catch in H2 as [(a & -> & H2)|(t4 & t5 & x & -> & H2 & H3)].
  + apply runs_call in H2 as ->. by apply (RegCommitted q c receipt (Ok a)).
  + apply runs_call in H2 as ->. destruct (bool_decide_reflect (x = InstanceRegistrationConflictError)) as [Hx|Hne].
    * subst x. apply runs_Raise in H3 as [-> ->]. apply (RegCommitted q c receipt (Err InstanceRegistrationConflictError)); [done|]. by intros e [= <-].
    * apply runs_call in H3 as ->. by econstructor.
Qed.

Lemma runs_of_registers q tr o : registers q tr o -> runs (register sha256 q) tr o.
Proof.
  unfold register.
  assert (Hget : forall r (k : option InstanceRecord -> control_prog InstanceRecord) t existing o',
      existing_of r = Ok existing -> runs (k existing) t o' ->
      runs (bind (existing_record (rq_pointer q)) k) (Event (GetRecord (rq_pointer q)) r :: t) o').
  { intros r k t existing o' He Hk. apply runs_bind. left. exists [Event (GetRecord (rq_pointer q)) r], t, existing.
    split; [done|]. split; [|done]. rewrite <- He. apply existing_record_gets. }
  intros [e Hc|c existing Hc|c e Hc He|c e Hc|c receipt r Hc Hr|c receipt e r Hc He]; rewrite Hc, ?lift_bind_Ok.
  + by apply runs_Raise.
  + apply (Hget _ _ _ (Some existing)); [done|]. by case_match; [apply runs_Ret|apply runs_Raise].
  + apply runs_bind. right. exists e. split; [done|]. pose proof (existing_record_gets (rq_pointer q) (Err e)) as Hg.
    cbn in Hg. by rewrite bool_decide_false in Hg.
  + apply (Hget _ _ _ None); [done|]. apply runs_bind_call. by exists (Err e), [].
  + apply (Hget _ _ _ None); [done|]. apply runs_bind_call. eexists (Ok receipt), _. split; [done|]. apply commit_runs.
    destruct r as [a|e]; [by rewrite orb_true_r|]. rewrite (Hr e eq_refl). by rewrite bool_decide_true.
  + apply (Hget _ _ _ None); [done|]. apply runs_bind_call. eexists (Ok receipt), _. split; [done|]. apply commit_runs.
    rewrite bool_decide_false by congruence. by apply runs_call.
Qed.

(** C24. Registration follows its protocol, and nothing else: the executions of [register] are
    exactly those of the relation [registers], for every behaviour of the registry and the
    custody adapter.  An invalid request asks nothing; a known pointer never reaches custody;
    custody is confirmed at most once, with the request the caller meant; a record is
    committed only with the receipt custody gave, and a failed commit is retried once. *)
Theorem registration_protocol q tr o : runs (register sha256 q) tr o <-> registers q tr o.
Proof. split; [apply registers_of|apply runs_of_registers]. Qed.

(** ** What reconciliation says of a registered instance *)

Lemma registered_kind q tr r :
  runs (register sha256 q) tr (Ok r) ->
  (forall record r', Event (RegisterRecord record) (Ok r') ∈ tr -> r' = record) ->
  rr_kind (rec_resource r) = "container".
Proof.
  intros H Hreg. apply registers_of in H. remember (Ok r) as o eqn:Eo.
  assert (Hkind : forall c, custody_request sha256 q = Ok c -> rr_kind (rq_resource q) = "container")
    by (intros c Hc; by apply custody_request_Ok in Hc as (_ & ? & _)).
  destruct H as [e Hc|c existing Hc|c e Hc He|c e Hc|c receipt r0 Hc Hr|c receipt e r0 Hc He]; simplify_eq.
  - destruct (matches_request existing q) eqn:Em; simplify_eq. unfold matches_request in Em.
    apply andb_true_iff in Em as [[_ Em%bool_decide_eq_true]%andb_true_iff _]. rewrite Em. eauto.
  - rewrite (Hreg _ r) by (right; right; by left). cbn. eauto.
  - rewrite (Hreg _ r) by (right; right; right; by left). cbn. eauto.
Qed.

(** What is registered is never reconciled: with a registry that answers a registration
    with the record it was given, the record [register] returns is always reported
    [stale_unverified] by the reconciler, without any status being read: registration
    requires a resource of kind "container" and reconciliation one of kind "instance". *)
Theorem registered_is_never_reconciled q tr r tr' o :
  runs (register sha256 q) tr (Ok r) ->
  (forall record r', Event (RegisterRecord record) (Ok r') ∈ tr -> r' = record) ->
  runs (reconcile_row sha256 r) tr' o ->
  tr' = [] /\ o = Ok (mkReconciliationRow r None STALE_UNVERIFIED (Some HANDLE_ERROR)).
Proof.
  intros H Hreg Hrow. pose proof (registered_kind q tr r H Hreg) as Hk. unfold reconcile_row, handle_of in Hrow.
  rewrite Hk, bool_decide_false in Hrow by done. by apply runs_Ret in Hrow.
Qed.

(** ** Reconciliation *)

(** The instance was seen running and ready in this reconciliation. *)
Definition seen_ready (tr : control_history) (r : InstanceRecord) : Prop :=
  exists ref s, handle_of sha256 r = Ok ref /\ Event (ReadStatus ref) (Ok s) ∈ tr /\
    (rs_running (is_odoo s) && rs_running (is_postgres s) && rs_ready (is_odoo s) && rs_ready (is_postgres s)) = true.
(** A row tells what was seen. *)
Definition row_true (tr : control_history) (row : ReconciliationRow) : Prop :=
  match row_outcome row with
  | FRESH => seen_ready tr (row_record row)
  | DRIFTED => row_live row <> None
  | STALE_UNVERIFIED | PARTIAL_FAILURE => row_live row = None /\ row_detail row <> None
  | EMPTY | PERSISTENCE_ERROR => False
  end.
Definition reads_status (R : Type) (e : control_op R) : Prop := match e with ReadStatus _ => True | _ => False end.

Lemma row_true_app tr1 tr2 tr3 row : row_true tr2 row -> row_true (tr1 ++ tr2 ++ tr3) row.
Proof.
  unfold row_true. destruct (row_outcome row); try done. intros (ref & s & ? & Hin & ?). exists ref, s. rewrite !elem_of_app. auto.
Qed.

Lemma status_outcome_cases s :
  (status_outcome s = FRESH /\ (rs_running (is_odoo s) && rs_running (is_postgres s) && rs_ready (is_odoo s) && rs_ready (is_postgres s)) = true) \/
  status_outcome s = DRIFTED.
Proof. unfold status_outcome. destruct (rs_running (is_odoo s)), (rs_running (is_postgres s)), (rs_ready (is_odoo s)), (rs_ready (is_postgres s)); auto. Qed.

Lemma reconcile_row_runs r tr o :
  runs (reconcile_row sha256 r) tr o ->
  exists row, o = Ok row /\ row_record row = r /\ row_true tr row /\ row_outcome row ∈ [FRESH; DRIFTED; STALE_UNVERIFIED].
Proof.
  unfold reconcile_row. destruct (handle_of sha256 r) as [ref|e] eqn:Er.
  - intros H. apply runs_bind in H as [(t1 & t2 & live & -> & H1 & H2)|(x & -> & H)]; [|by apply runs_attempt in H as (? & [=] & _)].
    apply runs_attempt in H1 as (a & [= ->] & H1). apply runs_call in H1 as ->. apply runs_Ret in H2 as [-> ->].
    destruct a as [s|e]; eexists; split; try done; cbn; (split; [done|]); [|split; [done|set_solver]].
    destruct (status_outcome_cases s) as [[Hs Hok]|Hs]; unfold row_true; cbn; rewrite Hs; (split; [|set_solver]); [|done].
    exists ref, s. split; [done|]. split; [by left|done].
  - intros H. apply runs_Ret in H as [-> ->]. eexists; split; [done|]. cbn. split; [done|]. split; [done|set_solver].
Qed.

Lemma only_reconcile_row r : only reads_status (reconcile_row sha256 r).
Proof. unfold reconcile_row. solve_only. Qed.
Hint Resolve only_reconcile_row : only.

Lemma map_each_rows l tr o :
  runs (map_each (reconcile_row sha256) l) tr o ->
  exists rows, o = Ok rows /\ map row_record rows = l /\
    Forall (fun row => row_true tr row /\ row_outcome row ∈ [FRESH; DRIFTED; STALE_UNVERIFIED]) rows.
Proof.
  revert tr o. induction l as [|r l IH]; intros tr o H; cbn [map_each] in H; [apply runs_Ret in H as [-> ->]; by exists []|].
  apply runs_bind in H as [(t1 & t2 & row & -> & H1 & H2)|(x & -> & H)]; [|by apply reconcile_row_runs in H as (? & [=] & _)].
  apply reconcile_row_runs in H1 as (row' & [= <-] & Hr & Ht & Ho).
  apply runs_bind in H2 as [(t3 & t4 & rows & -> & H3 & H4)|(x & -> & H)]; [|by apply IH in H as (? & [=] & _)].
  apply IH in H3 as (rows' & [= <-] & Hm & Hf). apply runs_Ret in H4 as [-> ->]. exists (row :: rows). split; [done|].
  split; [cbn; by rewrite Hr, Hm|]. constructor; [split; [by apply (row_true_app [])|done]|].
  eapply Forall_impl; [exact Hf|]. intros x [Hx ?]. split; [by apply row_true_app|done].
Qed.

Definition observed_outcome (row : ReconciliationRow) : Prop := row_outcome row ∈ [FRESH; DRIFTED; STALE_UNVERIFIED].

Lemma any_row_true o rows : any_row o rows = true <-> exists row, row ∈ rows /\ row_outcome row = o.
Proof.
  unfold any_row. rewrite existsb_exists. split; intros (row & Hin & H); exists row.
  - apply bool_decide_eq_true in H. by rewrite <- list_elem_of_In in Hin.
  - rewrite <- list_elem_of_In. split; [done|by apply bool_decide_eq_true].
Qed.
Lemma any_row_false o rows : any_row o rows = false -> Forall (fun row => row_outcome row <> o) rows.
Proof.
  intros H. apply Forall_forall. intros row Hin Ho. assert (any_row o rows = true) as Ht by (apply any_row_true; eauto).
  by rewrite Ht in H.
Qed.

Lemma marked_partial_true tr row : row_true tr row -> row_true tr (marked_partial row).
Proof. unfold marked_partial. destruct (bool_decide_reflect (row_outcome row = STALE_UNVERIFIED)) as [H|]; [|done]. unfold row_true. by rewrite H. Qed.

(** The envelope: fresh exactly when every row is, and never empty. *)
Lemma envelope_rows tr rows :
  rows <> [] -> Forall (fun row => row_true tr row /\ observed_outcome row) rows ->
  map row_record (res_rows (envelope rows)) = map row_record rows /\
  Forall (row_true tr) (res_rows (envelope rows)) /\
  (res_outcome (envelope rows) = FRESH <-> Forall (fun row => row_outcome row = FRESH) (res_rows (envelope rows))) /\
  res_outcome (envelope rows) <> EMPTY /\ res_outcome (envelope rows) <> PERSISTENCE_ERROR.
Proof.
  intros Hne Hrows. assert (Ht : Forall (row_true tr) rows) by (eapply Forall_impl; [exact Hrows|]; by intros ? []).
  unfold envelope. destruct (any_row STALE_UNVERIFIED rows) eqn:Es; cbn [andb].
  - apply any_row_true in Es as (stale & Hin & Hs).
    assert (Hnf : ~ Forall (fun row => row_outcome row = FRESH) rows) by (rewrite Forall_forall; intros H; by rewrite (H stale Hin) in Hs).
    destruct (existsb _ rows) eqn:Eu.
    + cbn. split_and!; try done.
      * rewrite map_map. apply map_ext. intros row. unfold marked_partial. by case_match.
      * apply Forall_fmap. eapply Forall_impl; [exact Ht|]. intros row. apply marked_partial_true.
      * split; [done|]. rewrite Forall_fmap, Forall_forall. intros H. specialize (H stale Hin). cbn in H. unfold marked_partial in H.
        by rewrite bool_decide_true in H by done.
    + case_match; cbn; split_and!; try done; by split.
  - apply any_row_false in Es. destruct (any_row DRIFTED rows) eqn:Ed; cbn; split_and!; try done; split; try done.
    + apply any_row_true in Ed as (d & Hin & Hd). rewrite Forall_forall. intros H. by rewrite (H d Hin) in Hd.
    + intros _. apply any_row_false in Ed. rewrite Forall_forall in Hrows, Es, Ed |- *. intros row Hin.
      destruct (Hrows row Hin) as [_ Ho]. unfold observed_outcome in Ho. specialize (Es row Hin). specialize (Ed row Hin). set_solver.
Qed.

(** Reconciling a scope tells the truth and changes nothing: the only operations are one
    listing of the registry and readings of statuses; the rows are the listed records, one
    each; a row is fresh only if its instance was seen running and ready in this very
    reconciliation, and unverified only without a live status; the whole is fresh exactly when
    there are records and every row is fresh, empty exactly when nothing is listed, and a
    registry that cannot be listed is reported as such. *)
Theorem reconciliation_is_truthful scope tr o :
  runs (list_scope sha256 scope) tr o ->
  exists ans tr' res, tr = Event (ListRecords scope) ans :: tr' /\ o = Ok res /\ Forall (event_sat reads_status) tr' /\
    match ans with
    | Err _ => tr' = [] /\ res = unreadable
    | Ok records =>
      Permutation (map row_record (res_rows res)) records /\ Forall (row_true tr') (res_rows res) /\
      (res_outcome res = FRESH <-> records <> [] /\ Forall (fun row => row_outcome row = FRESH) (res_rows res)) /\
      (res_outcome res = EMPTY <-> records = []) /\ res_outcome res <> PERSISTENCE_ERROR
    end.
Proof.
  intros H. unfold list_scope in H. apply runs_bind in H as [(t1 & t2 & r & -> & H1 & H2)|(x & -> & H)];
    [|by apply runs_attempt in H as (? & [=] & _)].
  apply runs_attempt in H1 as (ans & [= ->] & H1). apply runs_call in H1 as ->. exists ans, t2.
  destruct ans as [records|e]; [|apply runs_Ret in H2 as [-> ->]; by exists unreadable].
  unfold reconcile_records in H2. pose proof (merge_sort_Permutation by_instance records) as Hp.
  destruct (merge_sort by_instance records) as [|r l] eqn:El.
  - apply runs_Ret in H2 as [-> ->]. apply Permutation_nil_l in Hp as <-. eexists. split; [done|]. split; [done|]. split; [done|]. cbn.
    split; [apply Permutation_refl|]. split; [by apply Forall_nil|]. split; [split; [done|by intros []]|]. by split.
  - apply runs_bind in H2 as [(t3 & t4 & rows & -> & H3 & H4)|(x & -> & H)]; [|by apply map_each_rows in H as (? & [=] & _)].
    pose proof H3 as Ho. eapply only_runs in Ho; [|apply only_map_each; intros; apply only_reconcile_row].
    apply map_each_rows in H3 as (rows' & [= <-] & Hm & Hrows). apply runs_Ret in H4 as [-> ->]. rewrite app_nil_r.
    exists (envelope rows). split; [done|]. split; [done|]. split; [done|].
    destruct (envelope_rows t3 rows) as (Hrec & Hrt & Hf & Hne & Hnp); [by destruct rows|done|].
    assert (records <> []) by (intros ->; by apply Permutation_nil_r in Hp).
    split; [by rewrite Hrec, Hm|]. split; [done|]. split; [rewrite Hf; naive_solver|]. split; [by split|done].
Qed.
End ControlPlane.

(** ** Concrete runs *)

Definition sample_sha256 (_ : string) : string := "0123456789abcdef".
Definition sample_pointer : InstancePointer := mkInstancePointer (mkProjectScope (mkTenantId "acme") "shop") (mkInstanceId "dev").
Definition sample_resource (kind : string) : ResourceRef := mkResourceRef "odoo-forge-shop-dev" kind CREATED.
Definition sample_request : RegistrationRequest :=
  mkRegistrationRequest (mkDurableOperationIdentity "postgres-docker:tok" "0123456789abcdef") sample_pointer (sample_resource "container")
    "odoo-forge-shop-dev" "3f2a".
Definition sample_custody : CustodyRequest :=
  mkCustodyRequest (rq_operation sample_request) sample_pointer (sample_resource "container") "odoo-forge-shop-dev" "3f2a" UNRESERVED RESERVE_BIND_ACTIVATE.
Definition sample_receipt : OwnershipReceipt := mkOwnershipReceipt (rq_operation sample_request) ["3f2a"] true.
Definition sample_record : InstanceRecord := mkInstanceRecord sample_pointer (sample_resource "container") (Some sample_receipt).
Definition sample_registration : control_history :=
  [Event (GetRecord sample_pointer) (Err InstanceRecordNotFoundError); Event (ConfirmCustody sample_custody) (Ok sample_receipt);
   Event (RegisterRecord sample_record) (Ok sample_record)].

Lemma sample_registration_runs : runs (register sample_sha256 sample_request) sample_registration (Ok sample_record).
Proof. apply runs_of_registers. apply (RegCommitted sample_sha256 sample_request sample_custody sample_receipt (Ok sample_record)); [reflexivity|done]. Qed.
Lemma sample_registry_honest record r : Event (RegisterRecord record) (Ok r) ∈ sample_registration -> r = record.
Proof.
  set (commit (ev : event control_op exn) := match ev with
    | Event e a => match e in control_op R return result exn R -> option (InstanceRecord * result exn InstanceRecord) with
                   | RegisterRecord x => fun a => Some (x, a) | _ => fun _ => None end a end).
  intros H. apply (list_elem_of_fmap_2 commit) in H. cbn in H.
  apply elem_of_cons in H as [[=]|H]. apply elem_of_cons in H as [[=]|H]. apply elem_of_cons in H as [[= -> ->]|H]; [done|].
  by apply elem_of_nil in H.
Qed.

Lemma registered_is_never_reconciled_witness :
  runs (register sample_sha256 sample_request) sample_registration (Ok sample_record) /\
  (forall tr' o, runs (reconcile_row sample_sha256 sample_record) tr' o ->
     tr' = [] /\ o = Ok (mkReconciliationRow sample_record None STALE_UNVERIFIED (Some HANDLE_ERROR))).
Proof.
  split; [exact sample_registration_runs|]. intros tr' o.
  exact (registered_is_never_reconciled sample_sha256 sample_request sample_registration sample_record tr' o
    sample_registration_runs sample_registry_honest).
Defined.

(** Two instances, one of which cannot be observed. *)
Definition up : RoleStatus := mkRoleStatus true Healthy true.
Definition sample_instance (name : string) : InstanceRecord :=
  mkInstanceRecord (mkInstancePointer (mkProjectScope (mkTenantId "acme") "shop") (mkInstanceId name))
    (mkResourceRef ("odoo-forge-shop-" +:+ name) "instance" CREATED) None.
Definition sample_world (R : Type) (e : control_op R) (w : unit) : result exn R * unit :=
  match e in control_op R return result exn R * unit with
  | GetRecord _ => (Err InstanceRecordNotFoundError, w)
  | ListRecords _ => (Ok [sample_instance "qa"; sample_instance "dev"], w)
  | RegisterRecord r => (Ok r, w)
  | ConfirmCustody _ => (Ok sample_receipt, w)
  | ReadStatus ref => (if bool_decide (ir_instance ref = "qa") then Err TimeoutExpired else Ok (mkInstanceStatus up up), w)
  end.
Definition sample_scope : ProjectScope := mkProjectScope (mkTenantId "acme") "shop".
Definition sample_result : ReconciliationResult :=
  mkReconciliationResult PARTIAL_FAILURE
    [mkReconciliationRow (sample_instance "dev") (Some (mkInstanceStatus up up)) FRESH None;
     mkReconciliationRow (sample_instance "qa") None PARTIAL_FAILURE (Some LIVE_STATUS_ERROR)] None.

Lemma reconciliation_is_truthful_witness :
  let run := exec sample_world (list_scope sample_sha256 sample_scope) tt in
  run.1.1 = Ok sample_result /\
  exists ans tr' res, run.1.2 = Event (ListRecords sample_scope) ans :: tr' /\ run.1.1 = Ok res /\ Forall (event_sat reads_status) tr'.
Proof.
  cbv zeta. split; [vm_compute; reflexivity|].
  destruct (reconciliation_is_truthful sample_sha256 sample_scope _ _ (exec_runs sample_world (list_scope sample_sha256 sample_scope) tt))
    as (ans & tr' & res & H1 & H2 & H3 & _). exists ans, tr', res. split; [exact H1|]. split; [exact H2|exact H3].
Defined.
