(* ===== verification/Coordinator.v ===== *)
(** * The copy coordinator ([data_artifacts/coordinator.py])

    One durable capture -> anonymize (or gate raw delivery) -> verify -> deliver operation
    over its injected ports, with compensation on failure. *)

From S2P Require Import Prelude Effects Values Durable Artifacts.

(** [RawDataGrant] of [data_environments/types.py] *)
Record RawDataGrant : Type := mkRawDataGrant {
  rg_operation_id : string; rg_environment_id : string; rg_grantor : string;
  rg_expires_at : datetime; rg_reason : string; rg_audit_reference : string }.

Record CoordinatedCopyResult : Type := mkCoordinatedCopyResult {
  cc_creation : DatabaseCreation; cc_checkpoints : list DurableCheckpoint; cc_state : LifecycleState }.

(** ** Ports *)

Inductive copy_op : Type -> Type :=
| Capture (source : CaptureSource) : copy_op RestoreSetManifest
| MaskTransform (component : RestoreSetComponent) (rules : list AnonymizationRule) : copy_op RestoreSetComponent
| PersistManifest (ref : string) (manifest : RestoreSetManifest) : copy_op unit
| ValidateForRestore (ref : string) : copy_op RestoreReadiness
| Discard (ref : string) : copy_op DiscardOutcome
| RestoreDatabase (spec : DatabaseSpec) (ref credentials : string) : copy_op DatabaseCreation
| AuditedExceptionLookup (lineage_id : string) : copy_op (option RedactedEvidence)
| UtcNow : copy_op datetime.

Definition copy_prog := prog copy_op exn.

(** The arguments of [run]. *)
Record CopyRequest : Type := mkCopyRequest {
  cq_source : CaptureSource; cq_spec : DatabaseSpec; cq_policy : AnonymizationPolicy;
  cq_credentials : string; cq_operation : DurableOperationIdentity;
  cq_raw : bool; cq_retain_staged : bool;
  cq_raw_grant : option RawDataGrant; cq_raw_grant_environment_id : option string }.

Definition database_digest (m : RestoreSetManifest) : option ArtifactDigest :=
  rsc_digest <$> find_first (fun c => bool_decide (rsc_kind c = DATABASE)) (rsm_components m).

Definition is_matching_audited_grant (grant : option RedactedEvidence) (lineage_id : string) : bool :=
  match grant with
  | Some g => bool_decide (ev_event g = "anonymization_exception") && bool_decide (lineage_id ∈ ev_references g)
  | None => false
  end.

(** [save_checkpoint(revision, phase, RedactedEvidence(event, summary, references))] *)
Definition checkpoint (revision : OperationRevision) (phase summary : string) (references : list string)
    : result exn DurableCheckpoint :=
  let! evidence := redacted_evidence phase summary references in
  save_checkpoint revision phase evidence.

(** The raw-delivery gate, lines 245-264: the grant must be present, for this operation and
    environment, and unexpired. *)
Definition raw_gate (q : CopyRequest) (m : RestoreSetManifest) : copy_prog RedactedEvidence :=
  match cq_raw_grant q with
  | None => Raise RawDeliveryRefusedError
  | Some g =>
    if negb (bool_decide (rg_operation_id g = operation_id (cq_operation q))) then Raise RawDeliveryRefusedError else
    if negb (bool_decide (Some (rg_environment_id g) = cq_raw_grant_environment_id q)) then Raise RawDeliveryRefusedError else
    let* now := call UtcNow in
    let* expired := lift (dt_le (rg_expires_at g) now) in
    if expired then Raise RawDeliveryRefusedError else
    let* grant :=
      match cq_raw_grant q with
      | Some g =>
        let* ev := lift (redacted_evidence "anonymization_exception" "approved raw-data exception"
                           [rsm_lineage_id m; rg_audit_reference g]) in
        Ret (Some ev)
      | None => call (AuditedExceptionLookup (rsm_lineage_id m))
      end in
    if negb (is_matching_audited_grant grant (rsm_lineage_id m)) then Raise RawDeliveryRefusedError else
    match grant with
    | None => Raise AssertionError
    | Some ev => Ret ev
    end
  end.

Definition shadow_ref_of (m : RestoreSetManifest) : result exn string :=
  data_artifact_ref (rsm_restore_set_id m +:+ "-preanonymize-raw").

Definition is_residual (r : result exn DiscardOutcome) : bool :=
  match r with
  | Err _ => true
  | Ok o => bool_decide (dis_code o = RESIDUAL_FAILURE)
  end.

(** Re-persist the masked manifest, reaping the raw blob through a shadow reference when the
    database digest changed (lines 269-326). *)
Definition persist_masked (revision : OperationRevision) (ref : string) (captured masked : RestoreSetManifest)
    (checkpoints : list DurableCheckpoint) : copy_prog (list DurableCheckpoint) :=
  if bool_decide (database_digest masked = database_digest captured)
  then let* _ := call (PersistManifest ref masked) in Ret checkpoints
  else
    let* shadow := lift (shadow_ref_of captured) in
    let* _ := call (PersistManifest shadow captured) in
    let* persisted := attempt (call (PersistManifest ref masked)) in
    (* finally *)
    let* reaped := attempt (call (Discard shadow)) in
    let* checkpoints :=
      if is_residual reaped
      then let* cp := lift (checkpoint revision "raw_reap_residual"
                        "raw pre-mask blob reap left a residual failure" [rsm_lineage_id captured]) in
           Ret (checkpoints ++ [cp])
      else Ret checkpoints in
    match persisted with
    | Err e => Raise e
    | Ok _ => Ret checkpoints
    end.

(** The readiness gate and the consistency guard (lines 329-347). *)
Definition verify_ready (readiness : RestoreReadiness) (masked : option RestoreSetManifest) : result exn unit :=
  if negb (rd_ready readiness) then
    match rd_failure_code readiness with
    | Some INTEGRITY_FAILED => Err CaptureIntegrityError
    | Some code => Err (CaptureNotReadyError (failure_text code))
    | None => Err AssertionError
    end
  else
    match masked with
    | None => Ok tt
    | Some masked =>
      let served := match rd_manifest readiness with Some m => database_digest m | None => None end in
      match served, database_digest masked with
      | Some s, Some d => ensure (bool_decide (s = d)) AnonymizationConsistencyError
      | _, _ => Err AnonymizationConsistencyError
      end
    end.

(** Discard the staged reference after a successful delivery (lines 368-397). *)
Definition discard_on_success (q : CopyRequest) (revision : OperationRevision) (ref : string)
    (m : RestoreSetManifest) (checkpoints : list DurableCheckpoint) : copy_prog (list DurableCheckpoint) :=
  if cq_retain_staged q then Ret checkpoints
  else
    let* discarded := attempt (call (Discard ref)) in
    if is_residual discarded
    then let* cp := lift (checkpoint revision "discard_on_success_residual"
                      "discard-on-success left a residual failure" [rsm_lineage_id m]) in
         Ret (checkpoints ++ [cp])
    else Ret checkpoints.

(** Gate or mask: the evidence of the "anonymized" checkpoint, the masked manifest when there
    is one, and the checkpoints so far. *)
Definition anonymize_phase (q : CopyRequest) (revision : OperationRevision) (ref : string)
    (m : RestoreSetManifest) (checkpoints : list DurableCheckpoint)
    : copy_prog (RedactedEvidence * option RestoreSetManifest * list DurableCheckpoint) :=
  if cq_raw q then
    let* ev := raw_gate q m in Ret (ev, None, checkpoints)
  else
    let* outcome := apply_anonymization (fun c rules => call (MaskTransform c rules)) m (cq_policy q) in
    let* cps := persist_masked revision ref m (ao_manifest outcome) checkpoints in
    Ret (ao_evidence outcome, Some (ao_manifest outcome), cps).

(** The [try] body once the capture has a reference. *)
Definition deliver (q : CopyRequest) (revision : OperationRevision) (ref : string) (m : RestoreSetManifest)
    : copy_prog CoordinatedCopyResult :=
  let* captured := lift (checkpoint revision "captured" "capture completed" [rsm_lineage_id m]) in
  let* ' (evidence, masked, cps) := anonymize_phase q revision ref m [captured] in
  let* anonymized := lift (save_checkpoint revision "anonymized" evidence) in
  let* readiness := call (ValidateForRestore ref) in
  let* _ := lift (verify_ready readiness masked) in
  let* verified := lift (checkpoint revision "integrity_verified" "digest re-verified before delivery"
                           [rsm_lineage_id m]) in
  let cps := cps ++ [anonymized; verified] in
  let* creation := call (RestoreDatabase (cq_spec q) ref (cq_credentials q)) in
  let* commit := lift (build_terminal_commit revision SUCCEEDED [cp_evidence verified] []) in
  let* cps := discard_on_success q revision ref m cps in
  Ret (mkCoordinatedCopyResult creation cps (tc_outcome commit)).

(** [_compensate]: the new [last_state]; the discard of the staged reference is best effort. *)
Definition compensate (operation : DurableOperationIdentity) (revision : OperationRevision)
    (ref : option string) : copy_prog LifecycleState :=
  let* failure := lift (redacted_evidence "capture_copy_failed"
                          "capture-anonymize-deliver operation failed before completion" []) in
  let* commit := lift (build_terminal_commit revision FAILED [failure] []) in
  let* ' (state, _) := lift (advance_lifecycle (tc_outcome commit)
                               (mkOperationRevision (rev_value revision + 1)) CLEANUP_REQUIRED) in
  let* _ :=
    match ref with
    | None => Ret tt
    | Some ref =>
      catch
        (let* scope := lift (compensation_scope (operation_id operation) [ref]) in
         let* owned := lift (ensure_compensation_target scope ref) in
         let* target := lift (data_artifact_ref owned) in
         let* _ := call (Discard target) in Ret tt)
        (fun _ => Ret tt)
    end in
  Ret state.

(** [run]: the result or the re-raised exception, with the final [last_state]. *)
Definition run (q : CopyRequest) : copy_prog (result exn CoordinatedCopyResult * LifecycleState) :=
  let* ' (state, revision) := lift (advance_lifecycle ACCEPTED (mkOperationRevision 0) IN_PROGRESS) in
  let* captured := attempt (let* m := call (Capture (cq_source q)) in
                            let* ref := lift (data_artifact_ref (rsm_restore_set_id m)) in
                            Ret (m, ref)) in
  match captured with
  | Err e => let* state := compensate (cq_operation q) revision None in Ret (Err e, state)
  | Ok (m, ref) =>
    let* delivered := attempt (deliver q revision ref m) in
    match delivered with
    | Err e => let* state := compensate (cq_operation q) revision (Some ref) in Ret (Err e, state)
    | Ok r => Ret (Ok r, cc_state r)
    end
  end.
