(* ===== verification/CoordinatorFacts.v ===== *)
(** * Properties of the copy coordinator

    The theorems hold for every behaviour of the capture, mask, store and provider ports. *)

From S2P Require Import Prelude Effects Regex Values Durable Artifacts Coordinator.

(* The text validators are only evaluated by the witnesses. *)
#[local] Opaque safe_opaque_identifier is_safe_identifier search redacted_evidence checkpoint.

Definition is_restore (R : Type) (e : copy_op R) : bool :=
  match e with RestoreDatabase _ _ _ => true | _ => false end.
Definition is_lookup (R : Type) (e : copy_op R) : bool :=
  match e with AuditedExceptionLookup _ => true | _ => false end.
Definition no_restore : forall R, copy_op R -> Prop := fun R e => is_restore R e = false.

Definition restore_of (ev : event copy_op exn) : option (DatabaseSpec * string * string) :=
  match ev with Event e _ => match e with RestoreDatabase s r c => Some (s, r, c) | _ => None end end.

Lemma restore_of_event ev x : restore_of ev = Some x -> ~ event_sat no_restore ev.
Proof. destruct ev as [R e r]. unfold no_restore. by destruct e. Qed.

(** ** Subprograms that never deliver *)

Lemma apply_no_restore m p :
  only no_restore (apply_anonymization (fun c rules => call (MaskTransform c rules)) m p).
Proof.
  unfold apply_anonymization. apply only_bind; [|intros; solve_only].
  apply only_map_each. intros c _. unfold mask_component. solve_only.
Qed.
#[export] Hint Resolve apply_no_restore : only.

Lemma raw_gate_no_restore q m : only no_restore (raw_gate q m).
Proof. unfold raw_gate. solve_only. Qed.
Lemma persist_masked_no_restore r ref m m' cps : only no_restore (persist_masked r ref m m' cps).
Proof. unfold persist_masked. solve_only. Qed.
#[export] Hint Resolve raw_gate_no_restore persist_masked_no_restore : only.
Lemma anonymize_phase_no_restore q r ref m cps : only no_restore (anonymize_phase q r ref m cps).
Proof. unfold anonymize_phase. solve_only. Qed.
Lemma compensate_no_restore op r ref : only no_restore (compensate op r ref).
Proof. unfold compensate. solve_only. Qed.
Lemma discard_on_success_no_restore q r ref m cps : only no_restore (discard_on_success q r ref m cps).
Proof. unfold discard_on_success. solve_only. Qed.
#[export] Hint Resolve anonymize_phase_no_restore compensate_no_restore discard_on_success_no_restore : only.

(** ** What delivery requires *)

(** The raw gate: a grant for this operation and environment that had not expired. *)
Definition raw_evidence (q : CopyRequest) (tr : list (event copy_op exn)) : Prop :=
  exists g now, cq_raw_grant q = Some g /\ rg_operation_id g = operation_id (cq_operation q) /\
    Some (rg_environment_id g) = cq_raw_grant_environment_id q /\
    Event UtcNow (Ok now) ∈ tr /\ dt_le (rg_expires_at g) now = Ok false.

(** The masked path: the captured manifest was masked by the policy, and the store then
    served a manifest with the masked database digest. *)
Definition masked_evidence (q : CopyRequest) (m : RestoreSetManifest) (readiness : RestoreReadiness)
    (tr : list (event copy_op exn)) : Prop :=
  exists outcome tra served d,
    runs (apply_anonymization (fun c rules => call (MaskTransform c rules)) m (cq_policy q)) tra (Ok outcome) /\
    tra ⊆ tr /\ rd_manifest readiness = Some served /\
    database_digest served = Some d /\ database_digest (ao_manifest outcome) = Some d.

Definition delivery_evidence (q : CopyRequest) (ref : string) (m : RestoreSetManifest)
    (tr : list (event copy_op exn)) : Prop :=
  exists readiness, Event (ValidateForRestore ref) (Ok readiness) ∈ tr /\ rd_ready readiness = true /\
    if cq_raw q then raw_evidence q tr else masked_evidence q m readiness tr.

Lemma raw_gate_runs q m tr ev : runs (raw_gate q m) tr (Ok ev) -> raw_evidence q tr.
Proof.
  unfold raw_gate. destruct (cq_raw_grant q) as [g|] eqn:Eg; [|intros [_ ?]%runs_Raise; done].
  destruct (bool_decide_reflect (rg_operation_id g = operation_id (cq_operation q))); cbn [negb]; [|intros [_ ?]%runs_Raise; done].
  destruct (bool_decide_reflect (Some (rg_environment_id g) = cq_raw_grant_environment_id q)); cbn [negb];
    [|intros [_ ?]%runs_Raise; done].
  intros ([now|] & tr' & -> & H)%runs_bind_call; [|by destruct H].
  apply runs_bind in H as [(tr1 & tr2 & expired & -> & H1 & H2)|(x & [=] & _)].
  apply runs_lift in H1 as [-> H1]. destruct expired; [by apply runs_Raise in H2 as [_ ?]|].
  exists g, now. split_and!; try done. left.
Qed.

Lemma verify_ready_Ok readiness masked :
  verify_ready readiness masked = Ok tt ->
  rd_ready readiness = true /\
  forall m, masked = Some m -> exists served d, rd_manifest readiness = Some served /\
    database_digest served = Some d /\ database_digest m = Some d.
Proof.
  unfold verify_ready. destruct (rd_ready readiness); cbn [negb]; [|by destruct (rd_failure_code readiness) as [[]|]].
  intros H. split; [done|]. intros m ->. destruct (rd_manifest readiness) as [s|]; [|done].
  destruct (database_digest s) as [d|] eqn:Es; [|done]. destruct (database_digest m) as [d'|] eqn:Em; [|done].
  rewrite ensure_Ok, bool_decide_eq_true in H. subst. eauto.
Qed.

(** What the gate-or-mask phase leaves behind. *)
Lemma anonymize_phase_runs q r ref m cps tr ev masked cps' :
  runs (anonymize_phase q r ref m cps) tr (Ok (ev, masked, cps')) ->
  if cq_raw q then masked = None /\ raw_evidence q tr
  else exists outcome tra, masked = Some (ao_manifest outcome) /\ tra ⊆ tr /\
    runs (apply_anonymization (fun c rules => call (MaskTransform c rules)) m (cq_policy q)) tra (Ok outcome).
Proof.
  unfold anonymize_phase. destruct (cq_raw q).
  - intros [(tr1 & tr2 & e & -> & H1 & [-> H2]%runs_Ret)|(x & [=] & _)]%runs_bind. injection H2 as -> -> ->.
    rewrite app_nil_r. split; [done|]. by eapply raw_gate_runs.
  - intros [(tr1 & tr2 & outcome & -> & H1 & H2)|(x & [=] & _)]%runs_bind.
    apply runs_bind in H2 as [(tr3 & tr4 & c & -> & _ & [-> H2]%runs_Ret)|(x & [=] & _)]. injection H2 as -> -> ->.
    exists outcome, tr1. split_and!; [done| |done]. set_solver.
Qed.

Lemma raw_evidence_mono q tr tr' : tr ⊆ tr' -> raw_evidence q tr -> raw_evidence q tr'.
Proof. intros Hs (g & now & ? & ? & ? & ? & ?). exists g, now. split_and!; auto. Qed.

Lemma deliver_restore q r ref m tr1 ev tr2 o spec ref' cred :
  runs (deliver q r ref m) (tr1 ++ ev :: tr2) o -> restore_of ev = Some (spec, ref', cred) ->
  spec = cq_spec q /\ ref' = ref /\ cred = cq_credentials q /\ delivery_evidence q ref m tr1.
Proof.
  intros H Hev. pose proof (restore_of_event _ _ Hev) as Hno. unfold deliver in H.
  eapply (runs_bind_reach no_restore) in H as (? & cap & tr1' & -> & H1 & H); [|solve_only|exact Hno].
  apply runs_lift in H1 as [-> _]. cbn [app].
  eapply (runs_bind_reach no_restore) in H as (tra & [[e masked] cps] & tr1 & -> & Ha & H); [|solve_only|exact Hno].
  apply anonymize_phase_runs in Ha.
  eapply (runs_bind_reach no_restore) in H as (? & an & tr3 & -> & H1 & H); [|solve_only|exact Hno].
  apply runs_lift in H1 as [-> _]. cbn [app].
  eapply (runs_bind_reach no_restore) in H as (? & readiness & tr4 & -> & H1 & H); [|solve_only|exact Hno].
  apply runs_call in H1 as ->.
  eapply (runs_bind_reach no_restore) in H as (? & [] & tr5 & -> & H1 & H); [|solve_only|exact Hno].
  apply runs_lift in H1 as [-> H1]. symmetry in H1. apply verify_ready_Ok in H1 as [Hready Hserved]. cbn [app].
  eapply (runs_bind_reach no_restore) in H as (? & ver & tr6 & -> & H1 & H); [|solve_only|exact Hno].
  apply runs_lift in H1 as [-> _]. cbn [app].
  apply runs_bind_call in H as (res & trr & E & H).
  destruct tr6 as [|ev' tr6]; cbn in E; injection E as -> E.
  - cbn in Hev. injection Hev as <- <- <-. split_and!; try done.
    exists readiness. split_and!; [rewrite !elem_of_app; right; left; left|done|].
    destruct (cq_raw q); [eapply raw_evidence_mono; [|apply Ha]; set_solver|].
    destruct Ha as (outcome & trm & -> & Hsub & Hm).
    destruct (Hserved _ eq_refl) as (served & d & ? & ? & ?). exists outcome, trm, served, d.
    split_and!; try done. set_solver.
  - exfalso. destruct res as [creation|x]; [|destruct H as [-> _]; by destruct tr6].
    assert (Hall : Forall (event_sat no_restore) trr).
    { eapply only_runs; [|exact H]. solve_only. }
    rewrite <- E in Hall. apply Forall_app in Hall as [_ Hall]. by apply Forall_cons in Hall as [? _].
Qed.

(** ** Theorems *)

(** C14. Nothing unverified is delivered: whenever [run] asks the provider to restore, it does so
    with the requested spec and credentials, under the reference of the manifest it
    captured, after the store reported that reference ready; and either raw delivery was
    requested with a grant for this operation and environment that had not expired, or the
    policy masked the captured manifest and the store served exactly the masked database
    digest. *)
Theorem delivery_is_gated q tr o tr1 ev tr2 spec ref cred :
  runs (run q) tr o -> tr = tr1 ++ ev :: tr2 -> restore_of ev = Some (spec, ref, cred) ->
  spec = cq_spec q /\ cred = cq_credentials q /\
  exists m, Event (Capture (cq_source q)) (Ok m) ∈ tr1 /\ ref = rsm_restore_set_id m /\
            delivery_evidence q ref m tr1.
Proof.
  intros H -> Hev. pose proof (restore_of_event _ _ Hev) as Hno. unfold run in H.
  eapply (runs_bind_reach no_restore) in H as (? & [state rev] & tr1' & -> & H1 & H); [|solve_only|exact Hno].
  apply runs_lift in H1 as [-> _]. cbn [app].
  eapply (runs_attempt_reach no_restore) in H as (tra & captured & tr3 & -> & H1 & H); [|solve_only|exact Hno].
  destruct captured as [[m ref0]|e].
  2:{ exfalso. assert (Hall : Forall (event_sat no_restore) (tr3 ++ ev :: tr2)).
      { eapply only_runs; [|exact H]. solve_only. }
      apply Forall_app in Hall as [_ Hall]. by apply Forall_cons in Hall as [? _]. }
  apply runs_bind_call in H1 as ([m0|xc] & trc & -> & H1); [|destruct H1 as [_ H1]; discriminate H1].
  apply runs_bind in H1 as [(? & ? & r0 & -> & H1 & [-> H2]%runs_Ret)|(x & [=] & _)]. injection H2 as <- <-.
  apply runs_lift in H1 as [-> H1].
  symmetry in H1. unfold data_artifact_ref in H1. apply require_safe_opaque_identifier_Ok in H1 as [-> _].
  apply runs_bind in H as [(trd & tre & delivered & E & H2 & H3)|(x & -> & H2)].
  2:{ apply runs_attempt in H2 as (? & [=] & _). }
  apply runs_attempt in H2 as (r & [= ->] & H2).
  assert (Hrest : Forall (event_sat no_restore) tre).
  { eapply only_runs; [|exact H3]. solve_only. }
  destruct (segment_keep _ _ _ _ _ _ E Hrest Hno) as (a2 & ->).
  destruct (deliver_restore _ _ _ _ _ _ _ _ _ _ _ H2 Hev) as (-> & -> & -> & He).
  split_and!; try done. exists m. split_and!; [set_solver|done|].
  destruct He as (readiness & Hin & Hr & Hg). exists readiness. split_and!; [set_solver|done|].
  destruct (cq_raw q); [eapply raw_evidence_mono; [|exact Hg]; set_solver|].
  destruct Hg as (outcome & trm & served & d & ? & ? & ?). exists outcome, trm, served, d.
  split_and!; try tauto. set_solver.
Qed.

(** ** Compensation and outcomes *)

(** The manifest a capture returned, [None] for any other event. *)
Definition captured_of (ev : event copy_op exn) : option RestoreSetManifest :=
  match ev with
  | Event e r =>
    match e in copy_op R return result exn R -> option RestoreSetManifest with
    | Capture _ => fun r => match r with Ok m => Some m | Err _ => None end
    | _ => fun _ => None
    end r
  end.

Lemma head_capture s r (tr : list (event copy_op exn)) m :
  head (Event (Capture s) r :: tr) = Some (Event (Capture s) (Ok m)) -> r = Ok m.
Proof.
  cbn [head]. intros E%(f_equal (fun o => match o with Some ev => captured_of ev | None => None end)).
  cbn in E. destruct r; by simplify_eq.
Qed.

Definition no_lookup : forall R, copy_op R -> Prop := fun R e => is_lookup R e = false.

Lemma raw_gate_no_lookup q m : only no_lookup (raw_gate q m).
Proof. unfold raw_gate. destruct (cq_raw_grant q) as [g|]; solve_only. Qed.

Lemma apply_no_lookup m p :
  only no_lookup (apply_anonymization (fun c rules => call (MaskTransform c rules)) m p).
Proof.
  unfold apply_anonymization. apply only_bind; [|intros; solve_only].
  apply only_map_each. intros c _. unfold mask_component. solve_only.
Qed.
#[export] Hint Resolve raw_gate_no_lookup apply_no_lookup : only.

Transparent redacted_evidence.
Lemma compensate_commit rev :
  exists failure commit state rev',
    redacted_evidence "capture_copy_failed" "capture-anonymize-deliver operation failed before completion" []
      = Ok failure /\
    build_terminal_commit rev FAILED [failure] [] = Ok commit /\
    advance_lifecycle (tc_outcome commit) (mkOperationRevision (rev_value rev + 1)) CLEANUP_REQUIRED =
      Ok (state, rev') /\ state = CLEANUP_REQUIRED.
Proof.
  eexists (mkRedactedEvidence _ _ _), _, _, _. split_and!; [vm_compute; reflexivity|reflexivity|reflexivity|reflexivity].
Qed.

(** The three checks before a compensating discard, as one. *)
Lemma discard_target {B} op ref (k : string -> copy_prog B) :
  (let* scope := lift (compensation_scope (operation_id op) [ref]) in
   let* owned := lift (ensure_compensation_target scope ref) in
   let* target := lift (data_artifact_ref owned) in k target) =
  if is_safe_identifier ref && safe_opaque_identifier ref then k ref
  else Raise (if is_safe_identifier ref then ValueError "data artifact reference must be a safe opaque identifier"
              else ValueError "owned resource IDs must be safe opaque identifiers").
Proof.
  unfold compensation_scope. cbn [forallb]. rewrite andb_true_r.
  destruct (is_safe_identifier ref); cbn [ensure result_bind andb]; [|by rewrite lift_bind_Err].
  rewrite lift_bind_Ok. unfold ensure_compensation_target, owns. cbn [cs_owned_resource_ids].
  rewrite bool_decide_true by by left. cbn [negb]. rewrite lift_bind_Ok.
  unfold data_artifact_ref, require_safe_opaque_identifier.
  destruct (safe_opaque_identifier ref); [by rewrite lift_bind_Ok|by rewrite lift_bind_Err].
Qed.

(** What compensation does: the state reached, and the one discard it may perform. *)
Lemma compensate_runs op rev ref tr o :
  runs (compensate op rev ref) tr o ->
  o = Ok CLEANUP_REQUIRED /\
  match ref with
  | None => tr = []
  | Some ref =>
    if is_safe_identifier ref && safe_opaque_identifier ref
    then exists r, tr = [Event (Discard ref) r] else tr = []
  end.
Proof.
  destruct (compensate_commit rev) as (failure & commit & state & rev' & E1 & E2 & E3 & ->).
  unfold compensate. rewrite E1, lift_bind_Ok, E2, lift_bind_Ok, E3, lift_bind_Ok.
  destruct ref as [ref|].
  2:{ rewrite bind_Ret. by intros [-> ->]%runs_Ret. }
  intros [(tr1 & tr2 & u & -> & H1 & [-> ->]%runs_Ret)|(x & -> & H1)]%runs_bind.
  - rewrite app_nil_r. split; [done|]. rewrite (discard_target op ref) in H1.
    destruct (is_safe_identifier ref && safe_opaque_identifier ref).
    + apply runs_catch in H1 as [(a & _ & H1)|(tr3 & tr4 & x & -> & H1 & [-> _]%runs_Ret)].
      * apply runs_bind_call in H1 as ([?|?] & tr' & -> & H1); [|by destruct H1].
        apply runs_Ret in H1 as [-> _]. eauto.
      * apply runs_bind_call in H1 as ([?|?] & tr' & -> & H1); [by apply runs_Ret in H1 as [_ ?]|].
        destruct H1 as [-> _]. eauto.
    + apply runs_catch in H1 as [(a & _ & [-> _]%runs_Raise)|(tr3 & tr4 & x & -> & [-> _]%runs_Raise & [-> _]%runs_Ret)];
        done.
  - apply runs_catch in H1 as [(a & [=] & _)|(tr3 & tr4 & y & -> & _ & [_ [=]]%runs_Ret)].
Qed.

Lemma deliver_state q rev ref m tr r : runs (deliver q rev ref m) tr (Ok r) -> cc_state r = SUCCEEDED.
Proof.
  unfold deliver. intros H.
  apply runs_bind in H as [(? & ? & ? & -> & _ & H)|(xe1 & [=] & _)].
  apply runs_bind in H as [(? & ? & [[? ?] ?] & -> & _ & H)|(xe2 & [=] & _)].
  apply runs_bind in H as [(? & ? & ? & -> & _ & H)|(xe3 & [=] & _)].
  apply runs_bind in H as [(? & ? & ? & -> & _ & H)|(xe4 & [=] & _)].
  apply runs_bind in H as [(? & ? & ? & -> & _ & H)|(xe5 & [=] & _)].
  apply runs_bind in H as [(? & ? & ver & -> & _ & H)|(xe6 & [=] & _)].
  apply runs_bind in H as [(? & ? & ? & -> & _ & H)|(xe7 & [=] & _)].
  apply runs_bind in H as [(? & ? & c & -> & [_ Hc]%runs_lift & H)|(xe8 & [=] & _)].
  apply runs_bind in H as [(? & ? & ? & -> & _ & [_ [= ->]]%runs_Ret)|(xe9 & [=] & _)].
  cbn. injection Hc as ->. done.
Qed.

(** The shape of a whole run. *)
Lemma run_shape q tr o :
  runs (run q) tr o ->
  exists rev, (exists tr1 tr2 e, tr = tr1 ++ tr2 /\
     runs (let* m := call (Capture (cq_source q)) in
           let* ref := lift (data_artifact_ref (rsm_restore_set_id m)) in Ret (m, ref)) tr1 (Err e) /\
     runs (compensate (cq_operation q) rev None) tr2 (Ok CLEANUP_REQUIRED) /\ o = Ok (Err e, CLEANUP_REQUIRED)) \/
  (exists m tr1 tr2 r, tr = Event (Capture (cq_source q)) (Ok m) :: tr1 ++ tr2 /\
     safe_opaque_identifier (rsm_restore_set_id m) = true /\
     runs (deliver q rev (rsm_restore_set_id m) m) tr1 r /\
     match r with
     | Ok res => tr2 = [] /\ o = Ok (Ok res, SUCCEEDED)
     | Err e => runs (compensate (cq_operation q) rev (Some (rsm_restore_set_id m))) tr2 (Ok CLEANUP_REQUIRED) /\
                o = Ok (Err e, CLEANUP_REQUIRED)
     end).
Proof.
  unfold run. intros [(? & tr0 & [state rev] & -> & [-> _]%runs_lift & H)|(x & _ & [_ [=]]%runs_lift)]%runs_bind.
  cbn [app]. exists rev.
  apply runs_bind in H as [(tr1 & tr2 & captured & -> & H1 & H)|(x & _ & H1)];
    apply runs_attempt in H1 as (c & Ec & H1); [injection Ec as ->|discriminate Ec].
  destruct c as [[m ref]|e].
  - right. apply runs_bind_call in H1 as ([m0|xc] & trc & -> & H1); [|destruct H1 as [_ H1]; discriminate H1].
    apply runs_bind in H1 as [(? & ? & r0 & -> & H1 & [-> H2]%runs_Ret)|(x & [=] & _)]. injection H2 as <- <-.
    apply runs_lift in H1 as [-> H1]. symmetry in H1. unfold data_artifact_ref in H1.
    apply require_safe_opaque_identifier_Ok in H1 as [-> Hsafe].
    apply runs_bind in H as [(trd & tre & delivered & -> & H2 & H)|(x & _ & H2)];
      apply runs_attempt in H2 as (r & Er & H2); [injection Er as ->|discriminate Er].
    exists m, trd, tre, r. split_and!; [done..|]. destruct r as [res|e].
    + apply runs_Ret in H as [-> ->]. by rewrite (deliver_state _ _ _ _ _ _ H2).
    + apply runs_bind in H as [(trf & ? & st & -> & H3 & [-> ->]%runs_Ret)|(x & _ & H3)];
        destruct (compensate_runs _ _ _ _ _ H3) as [Est _]; [injection Est as ->|discriminate Est].
      rewrite app_nil_r. done.
  - left. apply runs_bind in H as [(trf & ? & st & -> & H3 & [-> ->]%runs_Ret)|(x & _ & H3)];
      destruct (compensate_runs _ _ _ _ _ H3) as [Est _]; [injection Est as ->|discriminate Est].
    rewrite app_nil_r. eauto 10.
Qed.

(** The two ends of a run, for the services that embed it. *)
Lemma run_never_raises q tr e : ~ runs (run q) tr (Err e).
Proof.
  intros (rev & [(? & ? & ? & _ & _ & _ & [=])|(m & ? & ? & r & _ & _ & _ & Hr)])%run_shape.
  destruct r; by destruct Hr as [_ ?].
Qed.
Lemma run_delivered q tr res st : runs (run q) tr (Ok (Ok res, st)) -> st = SUCCEEDED /\ cc_state res = SUCCEEDED.
Proof.
  intros (rev & [(? & ? & ? & _ & _ & _ & [=])|(m & ? & ? & r & _ & _ & Hd & Hr)])%run_shape.
  destruct r as [res'|]; destruct Hr as [_ Hr]; [|done]. injection Hr as -> ->. split; [done|]. by eapply deliver_state.
Qed.

(** A copy ends in exactly one of two ways: delivered, with the coordinator's state and the
    result's state [succeeded]; or the original exception, with the state
    [cleanup_required].  Compensation itself never raises. *)
Theorem run_outcome q tr o :
  runs (run q) tr o ->
  (exists res, o = Ok (Ok res, SUCCEEDED) /\ cc_state res = SUCCEEDED) \/
  (exists e, o = Ok (Err e, CLEANUP_REQUIRED)).
Proof.
  intros H. apply run_shape in H as (rev & [(tr1 & tr2 & e & -> & _ & _ & ->)|(m & tr1 & tr2 & r & -> & _ & Hd & Hr)]).
  - right. eauto.
  - destruct r as [res|e]; destruct Hr as [_ ->]; [left|right]; [|eauto].
    exists res. split; [done|]. by eapply deliver_state.
Qed.

(** A failed copy discards what it staged: once the capture returned a manifest with a
    usable reference, failure ends with the discard of that reference - and with no discard
    at all when the evidence rules reject the reference as a resource id. *)
Theorem failed_copy_discards q tr e st m :
  runs (run q) tr (Ok (Err e, st)) -> head tr = Some (Event (Capture (cq_source q)) (Ok m)) ->
  safe_opaque_identifier (rsm_restore_set_id m) = true ->
  exists tr1 tr2 rev, tr = Event (Capture (cq_source q)) (Ok m) :: tr1 ++ tr2 /\
    runs (deliver q rev (rsm_restore_set_id m) m) tr1 (Err e) /\
    if is_safe_identifier (rsm_restore_set_id m)
    then exists r, tr2 = [Event (Discard (rsm_restore_set_id m)) r]
    else tr2 = [].
Proof.
  intros H Hhead Hsafe.
  apply run_shape in H as (rev & [(tr1 & tr2 & e' & -> & H1 & _ & _)|(m' & tr1 & tr2 & r & -> & _ & Hd & Hr)]).
  - exfalso. apply runs_bind_call in H1 as ([m'|xc] & trc & -> & H1).
    + apply head_capture in Hhead as [= ->]. unfold data_artifact_ref, require_safe_opaque_identifier in H1. rewrite Hsafe in H1.
      change (runs (Ret (m, rsm_restore_set_id m)) trc (Err e')) in H1. by apply runs_Ret in H1 as [_ ?].
    + by apply head_capture in Hhead.
  - apply head_capture in Hhead as [= ->]. destruct r as [res|e']; destruct Hr as [Hc Ho]; [done|]. injection Ho as -> ->.
    exists tr1, tr2, rev. split_and!; [done..|]. apply compensate_runs in Hc as [_ Hc]. rewrite Hsafe, andb_true_r in Hc.
    done.
Qed.

(** The raw blob never outlives masking: once the raw manifest was persisted under the
    shadow reference, the shadow reference is discarded in the same step - also when storing
    the masked manifest fails, whose error is then the one that propagates. *)
Theorem shadow_is_always_reaped rev ref captured masked cps tr o :
  runs (persist_masked rev ref captured masked cps) tr o ->
  (exists r, tr = [Event (PersistManifest ref masked) r] /\ database_digest masked = database_digest captured) \/
  (tr = [] /\ exists e, shadow_ref_of captured = Err e /\ o = Err e) \/
  (exists shadow e, shadow_ref_of captured = Ok shadow /\
     tr = [Event (PersistManifest shadow captured) (Err e)] /\ o = Err e) \/
  (exists shadow r1 r2, shadow_ref_of captured = Ok shadow /\
     tr = [Event (PersistManifest shadow captured) (Ok tt); Event (PersistManifest ref masked) r1;
           Event (Discard shadow) r2] /\
     (is_residual r2 = false -> o = match r1 with Ok _ => Ok cps | Err e => Err e end)).
Proof.
  unfold persist_masked. case_bool_decide as Hd.
  { intros ([u|x] & tr' & -> & H)%runs_bind_call; left;
      [apply runs_Ret in H as [-> _]|destruct H as [-> _]]; eauto. }
  destruct (shadow_ref_of captured) as [shadow|e]; [rewrite lift_bind_Ok|rewrite lift_bind_Err].
  2:{ intros [-> ->]%runs_Raise. right. left. eauto. }
  intros ([u|x] & tr' & -> & H)%runs_bind_call; right; right; [right|left].
  2:{ destruct H as [-> ->]. eauto. }
  destruct u. apply runs_bind in H as [(tr1 & tr2 & r1 & -> & H1 & H)|(xe & _ & H1)];
    apply runs_attempt in H1 as (r1' & Er & H1); [injection Er as ->|discriminate Er]. apply runs_call in H1 as ->.
  apply runs_bind in H as [(tr3 & tr4 & r2 & -> & H2 & H)|(xe & _ & H2)];
    apply runs_attempt in H2 as (r2' & Er & H2); [injection Er as ->|discriminate Er]. apply runs_call in H2 as ->.
  exists shadow, r1', r2'. split; [done|]. destruct (is_residual r2').
  - assert (Hcp : forall (tr : list (event copy_op exn)) o, runs (let* cp := lift (checkpoint rev "raw_reap_residual"
      "raw pre-mask blob reap left a residual failure" [rsm_lineage_id captured]) in Ret (cps ++ [cp])) tr o -> tr = []).
    { clear. intros tr o [(? & ? & cp & -> & [-> _]%runs_lift & [-> _]%runs_Ret)|(xf & _ & [-> _]%runs_lift)]%runs_bind;
        done. }
    apply runs_bind in H as [(tr5 & tr6 & cps' & -> & ->%Hcp & H)|(xe & _ & ->%Hcp)]; [|done].
    destruct r1'; [apply runs_Ret in H as [-> _]|apply runs_Raise in H as [-> _]]; done.
  - rewrite bind_Ret in H. destruct r1'; [apply runs_Ret in H as [-> ->]|apply runs_Raise in H as [-> ->]]; done.
Qed.

(** The audited-exception lookup port is never consulted: raw delivery rests on the grant
    passed to [run] alone. *)
Theorem audited_lookup_is_never_consulted q tr o :
  runs (run q) tr o -> Forall (event_sat no_lookup) tr.
Proof.
  apply only_runs. unfold run, deliver, anonymize_phase, persist_masked, discard_on_success, compensate. solve_only.
Qed.

(** ** A sample copy *)

Definition digest_of (c : ascii) : ArtifactDigest := mkArtifactDigest "sha256" (str (repeat c 64)).
Definition sample_copy_manifest : RestoreSetManifest := mkRestoreSetManifest "set-1" "lineage-1"
  [mkRestoreSetComponent DATABASE "db" "pg16" (digest_of "a"%char);
   mkRestoreSetComponent FILESTORE "fs" "tar" (digest_of "f"%char)].

(** A store of manifests by reference; masking changes the database digest; [fail] makes the
    database restore fail. *)
Definition sample_copy_ports (fail : bool) : handler (E := copy_op) (X := exn) (list (string * RestoreSetManifest)) :=
  fun R e w =>
    match e in copy_op R return result exn R * list (string * RestoreSetManifest) with
    | Capture _ => (Ok sample_copy_manifest, dset "set-1" sample_copy_manifest w)
    | MaskTransform c _ => (Ok (mkRestoreSetComponent (rsc_kind c) (rsc_ref c) (rsc_format_version c) (digest_of "b"%char)), w)
    | PersistManifest ref m => (Ok tt, dset ref m w)
    | ValidateForRestore ref => (Ok (mkRestoreReadiness true (dget ref w) None None), w)
    | Discard ref => (Ok (mkDiscardOutcome COMPLETED [] None), List.filter (fun e => negb (bool_decide (e.1 = ref))) w)
    | RestoreDatabase _ _ _ =>
      (if fail then Err (PortError "restore") else
       Ok (mkDatabaseCreation (mkDatabaseRef "db-9" CREATED)
             (mkCreationReceipt (mkOperationIdentity "op") ["db-9"]) CREATED), w)
    | AuditedExceptionLookup _ => (Ok None, w)
    | UtcNow => (Ok (DateTime 50 true), w)
    end.

Definition sample_copy_request (raw : bool) : CopyRequest :=
  mkCopyRequest (mkCaptureSource "handle" (mkTargetContext "source" "prod"))
    (mkDatabaseSpec "copy" None None [] []) (mkAnonymizationPolicy []) "handle"
    (mkDurableOperationIdentity "op-7" "digest") raw false
    (Some (mkRawDataGrant "op-7" "qa" "grantor" (DateTime 100 true) "audit" "ref-1")) (Some "qa").

Definition sample_copy (raw fail : bool) := exec (sample_copy_ports fail) (run (sample_copy_request raw)) [].

Lemma delivery_is_gated_witness :
  exists m tr1 ev tr2, (sample_copy true false).1.2 = tr1 ++ ev :: tr2 /\
    delivery_evidence (sample_copy_request true) "set-1" m tr1.
Proof.
  pose (tr := (sample_copy true false).1.2).
  assert (E : tr = take 3 tr ++ default (Event UtcNow (Err IndexError)) (nth_error tr 3) :: drop 4 tr)
    by (vm_compute; reflexivity).
  assert (Hev : restore_of (default (Event UtcNow (Err IndexError)) (nth_error tr 3)) =
    Some (mkDatabaseSpec "copy" None None [] [], "set-1", "handle")) by (vm_compute; reflexivity).
  destruct (delivery_is_gated (sample_copy_request true) tr (sample_copy true false).1.1 _ _ _ _ _ _
    (exec_runs _ _ _) E Hev) as (_ & _ & m & _ & Er & H).
  exists m, (take 3 tr), (default (Event UtcNow (Err IndexError)) (nth_error tr 3)), (drop 4 tr).
  exact (conj E H).
Defined.

Lemma run_outcome_witness :
  (exists res, (sample_copy false false).1.1 = Ok (Ok res, SUCCEEDED)) /\
  (sample_copy false true).1.1 = Ok (Err (PortError "restore"), CLEANUP_REQUIRED) /\
  (sample_copy false false).2 = [].
Proof.
  split_and!; [|vm_compute; reflexivity|vm_compute; reflexivity].
  destruct (run_outcome (sample_copy_request false) (sample_copy false false).1.2 (sample_copy false false).1.1
    (exec_runs _ _ _)) as [(res & H & _)|(e & H)]; [exists res; exact H|].
  exfalso. revert H. vm_compute. discriminate.
Defined.

Lemma failed_copy_discards_witness :
  exists tr1 r, (sample_copy false true).1.2 =
    Event (Capture (cq_source (sample_copy_request false))) (Ok sample_copy_manifest) ::
    tr1 ++ [Event (Discard "set-1") r].
Proof.
  assert (Ho : (sample_copy false true).1.1 = Ok (Err (PortError "restore"), CLEANUP_REQUIRED))
    by (vm_compute; reflexivity).
  destruct (failed_copy_discards (sample_copy_request false) (sample_copy false true).1.2
    (PortError "restore") CLEANUP_REQUIRED sample_copy_manifest) as (tr1 & tr2 & rev & E & _ & H).
  - rewrite <- Ho. apply exec_runs.
  - vm_compute. reflexivity.
  - vm_compute. reflexivity.
  - change (is_safe_identifier "set-1") with (is_safe_identifier (rsm_restore_set_id sample_copy_manifest)) in H.
    assert (Hs : is_safe_identifier (rsm_restore_set_id sample_copy_manifest) = true) by (vm_compute; reflexivity).
    rewrite Hs in H. destruct H as (r & ->). exists tr1, r. exact E.
Defined.

Lemma shadow_is_always_reaped_witness :
  let masked := mkRestoreSetManifest "set-1" "lineage-1"
    [mkRestoreSetComponent DATABASE "db" "pg16" (digest_of "b"%char)] in
  let q := persist_masked (mkOperationRevision 1) "set-1" sample_copy_manifest masked [] in
  length (exec (sample_copy_ports false) q []).1.2 = 3 /\
  exists shadow r1 r2, (exec (sample_copy_ports false) q []).1.2 =
    [Event (PersistManifest shadow sample_copy_manifest) (Ok tt); Event (PersistManifest "set-1" masked) r1;
     Event (Discard shadow) r2].
Proof.
  intros masked q.
  assert (Hl : length (exec (sample_copy_ports false) q []).1.2 = 3) by (vm_compute; reflexivity).
  split; [exact Hl|].
  destruct (shadow_is_always_reaped (mkOperationRevision 1) "set-1" sample_copy_manifest masked [] _ _
    (exec_runs (sample_copy_ports false) q [])) as [(r & E & _)|[[E _]|[(s & e & _ & E & _)|(s & r1 & r2 & _ & E & _)]]];
    try (rewrite E in Hl; discriminate Hl).
  exists s, r1, r2. exact E.
Defined.

Lemma audited_lookup_is_never_consulted_witness :
  Forall (event_sat no_lookup) (sample_copy true false).1.2.
Proof. eapply audited_lookup_is_never_consulted. apply exec_runs. Defined.
