(* ===== verification/Environments.v ===== *)
(** * Data environments ([data_environments/types.py], [data_environments/service.py])

    The service that refreshes an environment: a preflight against the control-plane
    definition, the registry, the policy resolver, the raw-grant authority and the recovery
    point; the coordinated copy; and recovery after a failed or unverified mutation. *)

From S2P Require Import Prelude Effects Regex Values Durable Artifacts Coordinator.

(** ** Types *)

Inductive EnvironmentLifecycle : Type := ACTIVE | INACTIVE.
Inductive EnvironmentOutcomeCode : Type := OutSUCCEEDED | OutREFUSED | OutFAILED.
Inductive EnvironmentFailureCode : Type :=
| AUTHORITY_UNAVAILABLE | INVALID_DEFINITION | RAW_GRANT_REQUIRED | RECOVERY_POINT_UNAVAILABLE
| RECOVERY_RESTORE_FAILED | RECOVERY_VERIFICATION_FAILED | MUTATION_FAILED | OPERATION_VERIFICATION_FAILED.

#[export] Instance EnvironmentLifecycle_eq_dec : EqDecision EnvironmentLifecycle.
Proof. solve_decision. Defined.
#[export] Instance EnvironmentOutcomeCode_eq_dec : EqDecision EnvironmentOutcomeCode.
Proof. solve_decision. Defined.
#[export] Instance EnvironmentFailureCode_eq_dec : EqDecision EnvironmentFailureCode.
Proof. solve_decision. Defined.

Record EnvironmentRelationship : Type := mkEnvironmentRelationship {
  er_source : string; er_target : string }.
Record DataEnvironmentDefinition : Type := mkDataEnvironmentDefinition {
  de_environment_id : string; de_owner : string; de_scope : ProjectScope;
  de_lifecycle : EnvironmentLifecycle; de_policy_ref : string;
  de_relationships : list EnvironmentRelationship }.
Record EnvironmentOperationOutcome : Type := mkEnvironmentOperationOutcome {
  eo_code : EnvironmentOutcomeCode; eo_failure_code : option EnvironmentFailureCode;
  eo_redacted_detail : option string }.

Definition environment_relationship (source target : string) : result exn EnvironmentRelationship :=
  let! _ := require_safe_opaque_identifier source "source_environment_id" in
  let! _ := require_safe_opaque_identifier target "target_environment_id" in
  ensure (negb (bool_decide (source = target))) (ValueError "source and target environments must differ") ;!
  Ok (mkEnvironmentRelationship source target).

Definition data_environment_definition (environment_id owner : string) (scope : ProjectScope)
    (lifecycle : EnvironmentLifecycle) (policy_ref : string) (relationships : list EnvironmentRelationship)
    : result exn DataEnvironmentDefinition :=
  let! _ := require_safe_opaque_identifier environment_id "environment_id" in
  let! _ := require_safe_opaque_identifier policy_ref "policy_ref" in
  let! _ := require_safe_opaque_identifier owner "owner" in
  Ok (mkDataEnvironmentDefinition environment_id owner scope lifecycle policy_ref relationships).

(** [RawDataGrant(...)] with its validators. *)
Definition raw_data_grant (operation environment grantor : string) (expires : datetime)
    (reason audit : string) : result exn RawDataGrant :=
  let! _ := require_safe_opaque_identifier operation "operation_id" in
  let! _ := require_safe_opaque_identifier environment "environment_id" in
  let! _ := require_safe_opaque_identifier audit "audit_reference" in
  let! _ := require_safe_opaque_identifier grantor "grantor" in
  ensure (negb (bool_decide (strip reason = "")) && negb (search SECRET_OR_CONNECTION_TEXT reason))
    (ValueError "grant reason must be present and redacted") ;!
  ensure (dt_aware expires) (ValueError "grant expiry must include timezone information") ;!
  Ok (mkRawDataGrant operation environment grantor expires reason audit).

(** [require_fail_closed_state] *)
Definition environment_operation_outcome (code : EnvironmentOutcomeCode)
    (failure : option EnvironmentFailureCode) (detail : option string) : result exn EnvironmentOperationOutcome :=
  ensure (match detail with Some d => negb (search SECRET_OR_CONNECTION_TEXT d) | None => true end)
    (ValueError "outcome detail must be redacted") ;!
  match code, failure with
  | OutSUCCEEDED, Some _ => Err (ValueError "successful outcomes cannot carry failure evidence")
  | OutSUCCEEDED, None | _, Some _ => Ok (mkEnvironmentOperationOutcome code failure detail)
  | _, None => Err (ValueError "non-success outcomes require failure evidence")
  end.

Definition succeeded (o : EnvironmentOperationOutcome) : bool := bool_decide (eo_code o = OutSUCCEEDED).

Record OperationRequest : Type := mkOperationRequest {
  oq_operation : DurableOperationIdentity; oq_source_environment_id : string;
  oq_target_environment_id : string; oq_target_pointer : InstancePointer;
  oq_target_ref : option DatabaseRef; oq_source : CaptureSource; oq_spec : DatabaseSpec;
  oq_credentials : string; oq_actor : string; oq_intent : string; oq_raw : bool }.

Record DataEnvironmentLineage : Type := mkDataEnvironmentLineage {
  dl_actor : string; dl_intent : string; dl_source : string; dl_target : string;
  dl_policy : option string; dl_recovery_point : option string; dl_raw_grant : option RawDataGrant }.
Record OperationResult : Type := mkOperationResult {
  or_outcome : EnvironmentOperationOutcome; or_lineage : DataEnvironmentLineage;
  or_copy_result : option CoordinatedCopyResult }.

(** ** Ports: the service's own and, embedded, the coordinator's *)

Inductive env_op : Type -> Type :=
| ResolveEnvironment (environment_id : string) : env_op DataEnvironmentDefinition
| GetInstance (pointer : InstancePointer) : env_op InstanceRecord
| ResolvePolicy (policy_ref : string) : env_op AnonymizationPolicy
| AuthorizeRaw (operation_id environment_id : string) : env_op (option RawDataGrant)
| AcquireRecoveryPoint (ref : DatabaseRef) : env_op string
| RestoreRecoveryPoint (ref : DatabaseRef) (point : string) : env_op unit
| VerifyRecoveryPoint (ref : DatabaseRef) (point : string) : env_op bool
| VerifyOperation (r : CoordinatedCopyResult) : env_op bool
| EnvNow : env_op datetime
| CopyOp {R : Type} (e : copy_op R) : env_op R.

Definition env_prog := prog env_op exn.

(** [_PreflightFailure]: code, policy reference and grant. *)
Record PreflightFailure : Type := mkPreflightFailure {
  pf_code : EnvironmentFailureCode; pf_policy : option string; pf_raw_grant : option RawDataGrant }.

Record Preflight : Type := mkPreflight {
  pre_definition : DataEnvironmentDefinition; pre_record : InstanceRecord;
  pre_policy : AnonymizationPolicy; pre_grant : option RawDataGrant; pre_point : option string }.

Definition lineage_of (q : OperationRequest) (policy point : option string) (grant : option RawDataGrant)
    : DataEnvironmentLineage :=
  mkDataEnvironmentLineage (oq_actor q) (oq_intent q) (oq_source_environment_id q)
    (oq_target_environment_id q) policy point grant.

Definition result_of (q : OperationRequest) (code : EnvironmentOutcomeCode) (failure : EnvironmentFailureCode)
    (policy point : option string) (grant : option RawDataGrant) : env_prog OperationResult :=
  let* outcome := lift (environment_operation_outcome code (Some failure) None) in
  Ret (mkOperationResult outcome (lineage_of q policy point grant) None).

Definition definition_valid (q : OperationRequest) (d : DataEnvironmentDefinition) : bool :=
  bool_decide (de_environment_id d = oq_target_environment_id q) && bool_decide (de_lifecycle d = ACTIVE) &&
  bool_decide (de_scope d = ptr_scope (oq_target_pointer q)) &&
  existsb (fun r => bool_decide (er_source r = oq_source_environment_id q) &&
                    bool_decide (er_target r = oq_target_environment_id q)) (de_relationships d) &&
  bool_decide (tc_target_id (cs_target (oq_source q)) = oq_source_environment_id q).

Definition record_valid (q : OperationRequest) (r : InstanceRecord) : bool :=
  match rec_receipt r with
  | None => false
  | Some _ =>
    bool_decide (rr_identifier (rec_resource r) =
                 match oq_target_ref q with Some t => db_identifier t | None => rr_identifier (rec_resource r) end)
  end.

(** The raw-grant part of the preflight; the inner [None] is a refusal. *)
Definition authorize_raw (q : OperationRequest) (d : DataEnvironmentDefinition)
    : env_prog (option (option RawDataGrant)) :=
  if oq_raw q then
    let* answer := attempt (call (AuthorizeRaw (operation_id (oq_operation q)) (de_environment_id d))) in
    match answer with
    | Err _ | Ok None => Ret None
    | Ok (Some g) =>
      if negb (bool_decide (rg_operation_id g = operation_id (oq_operation q))) then Ret None else
      if negb (bool_decide (rg_environment_id g = de_environment_id d)) then Ret None else
      let* now := call EnvNow in
      let* expired := lift (dt_le (rg_expires_at g) now) in
      Ret (if expired then None else Some (Some g))
    end
  else Ret (Some None).

Definition preflight (q : OperationRequest) : env_prog (PreflightFailure + Preflight) :=
  let* resolved := attempt (call (ResolveEnvironment (oq_target_environment_id q))) in
  match resolved with
  | Err _ => Ret (inl (mkPreflightFailure AUTHORITY_UNAVAILABLE None None))
  | Ok d =>
    let policy_ref := Some (de_policy_ref d) in
    if negb (definition_valid q d) then Ret (inl (mkPreflightFailure INVALID_DEFINITION policy_ref None)) else
    let* found := attempt (call (GetInstance (oq_target_pointer q))) in
    match found with
    | Err _ => Ret (inl (mkPreflightFailure AUTHORITY_UNAVAILABLE policy_ref None))
    | Ok record =>
      if negb (record_valid q record) then Ret (inl (mkPreflightFailure INVALID_DEFINITION policy_ref None)) else
      let* policy := attempt (call (ResolvePolicy (de_policy_ref d))) in
      match policy with
      | Err _ => Ret (inl (mkPreflightFailure INVALID_DEFINITION policy_ref None))
      | Ok policy =>
        let* authorized := authorize_raw q d in
        match authorized with
        | None => Ret (inl (mkPreflightFailure RAW_GRANT_REQUIRED policy_ref None))
        | Some grant =>
          match oq_target_ref q with
          | None => Ret (inr (mkPreflight d record policy grant None))
          | Some ref =>
            let* point := attempt (call (AcquireRecoveryPoint ref)) in
            match point with
            | Err _ => Ret (inl (mkPreflightFailure RECOVERY_POINT_UNAVAILABLE policy_ref grant))
            | Ok point => Ret (inr (mkPreflight d record policy grant (Some point)))
            end
          end
        end
      end
    end
  end.

Definition after_mutation_failure (q : OperationRequest) (point : option string)
    (failure : EnvironmentFailureCode) (policy : string) (grant : option RawDataGrant)
    : env_prog OperationResult :=
  let* failure :=
    match point with
    | None => Ret failure
    | Some p =>
      match oq_target_ref q with
      | None => Raise AssertionError
      | Some ref =>
        let* restored := attempt (call (RestoreRecoveryPoint ref p)) in
        match restored with
        | Err _ => Ret RECOVERY_RESTORE_FAILED
        | Ok _ =>
          let* verified := attempt (call (VerifyRecoveryPoint ref p)) in
          match verified with
          | Ok true => Ret failure
          | _ => Ret RECOVERY_VERIFICATION_FAILED
          end
        end
      end
    end in
  result_of q OutFAILED failure (Some policy) point grant.

(** The request handed to the coordinator. *)
Definition copy_request (q : OperationRequest) (p : Preflight) : CopyRequest :=
  mkCopyRequest (oq_source q) (oq_spec q) (pre_policy p) (oq_credentials q) (oq_operation q)
    (oq_raw q) false (pre_grant p) (Some (de_environment_id (pre_definition p))).

(** [self._coordinator.run(...)]: the coordinator re-raises after compensating. *)
Definition run_coordinator (c : CopyRequest) : env_prog CoordinatedCopyResult :=
  let* ' (r, _) := embed (@CopyOp) (Coordinator.run c) in
  lift r.

Definition run (q : OperationRequest) : env_prog OperationResult :=
  let* checked := preflight q in
  match checked with
  | inl f => result_of q OutREFUSED (pf_code f) (pf_policy f) None (pf_raw_grant f)
  | inr p =>
    let policy := de_policy_ref (pre_definition p) in
    let* copied := attempt (run_coordinator (copy_request q p)) in
    match copied with
    | Err _ => after_mutation_failure q (pre_point p) MUTATION_FAILED policy (pre_grant p)
    | Ok copy =>
      let* verified := attempt (call (VerifyOperation copy)) in
      match verified with
      | Ok true =>
        let* outcome := lift (environment_operation_outcome OutSUCCEEDED None None) in
        Ret (mkOperationResult outcome (lineage_of q (Some policy) (pre_point p) (pre_grant p)) (Some copy))
      | _ => after_mutation_failure q (pre_point p) OPERATION_VERIFICATION_FAILED policy (pre_grant p)
      end
    end
  end.
