(* ===== verification/EnvironmentFacts.v ===== *)
(** * Properties of the data-environment service

    They hold for every behaviour of the registries, the grant authority, the provider,
    the clock and the coordinator's ports. *)

From S2P Require Import Prelude Effects Values Durable Artifacts Coordinator CoordinatorFacts Environments.

(** ** Operations *)

(** The preflight only asks; it never copies, restores or verifies. *)
Definition asks (R : Type) (e : env_op R) : Prop :=
  match e with
  | CopyOp _ | RestoreRecoveryPoint _ _ | VerifyRecoveryPoint _ _ | VerifyOperation _ => False
  | _ => True
  end.
Definition not_copy (R : Type) (e : env_op R) : Prop := match e with CopyOp _ => False | _ => True end.

Lemma authorize_raw_asks q d : only asks (authorize_raw q d).
Proof. unfold authorize_raw. solve_only. Qed.
#[export] Hint Resolve authorize_raw_asks : only.
Lemma preflight_asks q : only asks (preflight q).
Proof. unfold preflight. solve_only. Qed.
Lemma result_of_asks q c f p pt g : only asks (result_of q c f p pt g).
Proof. unfold result_of. solve_only. Qed.
#[export] Hint Resolve preflight_asks result_of_asks : only.
Lemma after_failure_not_copy q pt f p g : only not_copy (after_mutation_failure q pt f p g).
Proof. unfold after_mutation_failure, result_of. solve_only. Qed.

(** ** What a passed preflight established *)

Definition raw_authorized (q : OperationRequest) (p : Preflight) (tr : list (event env_op exn)) : Prop :=
  exists g now, pre_grant p = Some g /\
    Event (AuthorizeRaw (operation_id (oq_operation q)) (de_environment_id (pre_definition p))) (Ok (Some g)) ∈ tr /\
    rg_operation_id g = operation_id (oq_operation q) /\
    rg_environment_id g = de_environment_id (pre_definition p) /\
    Event EnvNow (Ok now) ∈ tr /\ dt_le (rg_expires_at g) now = Ok false.

Record cleared (q : OperationRequest) (p : Preflight) (tr : list (event env_op exn)) : Prop := {
  cl_definition : Event (ResolveEnvironment (oq_target_environment_id q)) (Ok (pre_definition p)) ∈ tr /\
                  definition_valid q (pre_definition p) = true;
  cl_record : Event (GetInstance (oq_target_pointer q)) (Ok (pre_record p)) ∈ tr /\
              record_valid q (pre_record p) = true;
  cl_policy : Event (ResolvePolicy (de_policy_ref (pre_definition p))) (Ok (pre_policy p)) ∈ tr;
  cl_grant : if oq_raw q then raw_authorized q p tr else pre_grant p = None;
  cl_point : match oq_target_ref q with
             | Some ref => exists pt, pre_point p = Some pt /\ Event (AcquireRecoveryPoint ref) (Ok pt) ∈ tr
             | None => pre_point p = None
             end }.

Lemma attempt_call {R A} (e : env_op R) (k : result exn R -> env_prog A) tr o :
  runs (bind (attempt (call e)) k) tr o -> exists r tr', tr = Event e r :: tr' /\ runs (k r) tr' o.
Proof.
  intros [(tr1 & tr2 & r & -> & H1 & H)|(x & _ & H1)]%runs_bind;
    apply runs_attempt in H1 as (r' & E & H1); [injection E as ->|discriminate E].
  apply runs_call in H1 as ->. eauto.
Qed.

Lemma authorize_raw_runs q d tr g :
  runs (authorize_raw q d) tr (Ok (Some g)) ->
  if oq_raw q then exists g' now, g = Some g' /\
    Event (AuthorizeRaw (operation_id (oq_operation q)) (de_environment_id d)) (Ok (Some g')) ∈ tr /\
    rg_operation_id g' = operation_id (oq_operation q) /\ rg_environment_id g' = de_environment_id d /\
    Event EnvNow (Ok now) ∈ tr /\ dt_le (rg_expires_at g') now = Ok false
  else g = None.
Proof.
  unfold authorize_raw. destruct (oq_raw q); [|by intros [_ [= ->]]%runs_Ret].
  intros (answer & tr' & -> & H)%attempt_call.
  destruct answer as [[g'|]|e]; [|by apply runs_Ret in H as [_ ?]..].
  destruct (bool_decide_reflect (rg_operation_id g' = operation_id (oq_operation q))); cbn [negb] in H;
    [|by apply runs_Ret in H as [_ ?]].
  destruct (bool_decide_reflect (rg_environment_id g' = de_environment_id d)); cbn [negb] in H;
    [|by apply runs_Ret in H as [_ ?]].
  apply runs_bind_call in H as ([now|xc] & tr1 & -> & H); [|by destruct H].
  apply runs_bind in H as [(tr2 & tr3 & b & -> & [-> Hb]%runs_lift & [-> Hr]%runs_Ret)|(xe & [=] & _)].
  destruct b; [done|]. injection Hr as ->. exists g', now.
  split_and!; try done; rewrite !elem_of_cons; auto.
Qed.

Lemma preflight_cleared q tr p : runs (preflight q) tr (Ok (inr p)) -> cleared q p tr.
Proof.
  unfold preflight. intros (r & tr1 & -> & H)%attempt_call.
  destruct r as [d|e]; [|by apply runs_Ret in H as [_ ?]].
  destruct (definition_valid q d) eqn:Ed; cbn [negb] in H; [|by apply runs_Ret in H as [_ ?]].
  apply attempt_call in H as ([rec|e] & tr2 & -> & H); [|by apply runs_Ret in H as [_ ?]].
  destruct (record_valid q rec) eqn:Er; cbn [negb] in H; [|by apply runs_Ret in H as [_ ?]].
  apply attempt_call in H as ([pol|e] & tr3 & -> & H); [|by apply runs_Ret in H as [_ ?]].
  apply runs_bind in H as [(tr4 & tr5 & [g|] & -> & Ha & H)|(xe & [=] & _)]; [|by apply runs_Ret in H as [_ ?]].
  apply authorize_raw_runs in Ha.
  assert (Hsub : forall ev : event env_op exn, ev ∈ tr4 ->
    ev ∈ Event (ResolveEnvironment (oq_target_environment_id q)) (Ok d) ::
         Event (GetInstance (oq_target_pointer q)) (Ok rec) ::
         Event (ResolvePolicy (de_policy_ref d)) (Ok pol) :: tr4 ++ tr5).
  { intros ev Hev. rewrite !elem_of_cons, elem_of_app. auto. }
  assert (Hgrant : forall p, pre_definition p = d -> pre_grant p = g -> if oq_raw q then raw_authorized q p
    (Event (ResolveEnvironment (oq_target_environment_id q)) (Ok d) ::
         Event (GetInstance (oq_target_pointer q)) (Ok rec) ::
         Event (ResolvePolicy (de_policy_ref d)) (Ok pol) :: tr4 ++ tr5) else pre_grant p = None).
  { intros p0 <- <-. destruct (oq_raw q); [|done].
    destruct Ha as (g' & now & ? & ? & ? & ? & ? & ?). exists g', now. split_and!; auto. }
  destruct (oq_target_ref q) as [ref|] eqn:Eref.
  - apply attempt_call in H as ([pt|e] & tr6 & -> & H); [|by apply runs_Ret in H as [_ ?]].
    apply runs_Ret in H as [-> H]. injection H as ->. constructor; cbn [pre_definition pre_record pre_policy pre_point].
    + split; [left|done].
    + split; [right; left|done].
    + right. right. left.
    + by apply Hgrant.
    + rewrite Eref. exists pt. split; [done|]. rewrite !elem_of_cons, elem_of_app. right. right. right. right. left.
  - apply runs_Ret in H as [-> H]. injection H as ->. constructor; cbn [pre_definition pre_record pre_policy pre_point].
    + split; [left|done].
    + split; [right; left|done].
    + right. right. left.
    + by apply Hgrant.
    + by rewrite Eref.
Qed.

(** ** The shape of a run *)

Lemma result_of_runs q c f p pt g tr o :
  runs (result_of q c f p pt g) tr o -> c ≠ OutSUCCEEDED ->
  tr = [] /\ o = Ok (mkOperationResult (mkEnvironmentOperationOutcome c (Some f) None) (lineage_of q p pt g) None).
Proof.
  unfold result_of. intros H Hc.
  assert (environment_operation_outcome c (Some f) None = Ok (mkEnvironmentOperationOutcome c (Some f) None)) as E
    by by destruct c.
  rewrite E, lift_bind_Ok in H. by apply runs_Ret in H.
Qed.

(** Recovery after a failed mutation, for the point the preflight acquired. *)
Definition recovery (ref : DatabaseRef) (pt : string) (failure final : EnvironmentFailureCode)
    (tr : list (event env_op exn)) : Prop :=
  (exists e, tr = [Event (RestoreRecoveryPoint ref pt) (Err e)] /\ final = RECOVERY_RESTORE_FAILED) \/
  (exists r, tr = [Event (RestoreRecoveryPoint ref pt) (Ok tt); Event (VerifyRecoveryPoint ref pt) r] /\
     final = match r with Ok true => failure | _ => RECOVERY_VERIFICATION_FAILED end).

Lemma after_failure_runs q pt f p g tr o :
  (oq_target_ref q = None -> pt = None) ->
  runs (after_mutation_failure q pt f p g) tr o ->
  exists final, o = Ok (mkOperationResult (mkEnvironmentOperationOutcome OutFAILED (Some final) None)
                          (lineage_of q (Some p) pt g) None) /\
    match oq_target_ref q, pt with
    | Some ref, Some pt => recovery ref pt f final tr
    | _, _ => tr = [] /\ final = f
    end.
Proof.
  intros Hpt. unfold after_mutation_failure. destruct pt as [pt|].
  - destruct (oq_target_ref q) as [ref|]; [|by discriminate Hpt].
    intros [(tr1 & tr2 & final & -> & H1 & H)|(x & -> & H1)]%runs_bind.
    + apply result_of_runs in H as [-> ->]; [|done]. exists final. split; [done|]. rewrite app_nil_r.
      apply attempt_call in H1 as ([[]|e] & tr3 & -> & H1).
      * apply attempt_call in H1 as (r & tr4 & -> & H1). right. exists r.
        by destruct r as [[]|]; apply runs_Ret in H1 as [-> [= ->]].
      * apply runs_Ret in H1 as [-> [= ->]]. left. eauto.
    + exfalso. apply attempt_call in H1 as ([[]|e] & tr3 & -> & H1); [|by apply runs_Ret in H1 as [_ ?]].
      apply attempt_call in H1 as (r & tr4 & -> & H1). by destruct r as [[]|]; apply runs_Ret in H1 as [_ ?].
  - rewrite bind_Ret. intros H. apply result_of_runs in H as [-> ->]; [|done]. exists f. split; [done|].
    by destruct (oq_target_ref q).
Qed.

Definition copy_trace (tr : list (event env_op exn)) : Prop :=
  exists tr0 : list (event copy_op exn), tr = map (embed_event (@CopyOp)) tr0.

Definition succeeded_result (q : OperationRequest) (p : Preflight) (copy : CoordinatedCopyResult) : OperationResult :=
  mkOperationResult (mkEnvironmentOperationOutcome OutSUCCEEDED None None)
    (lineage_of q (Some (de_policy_ref (pre_definition p))) (pre_point p) (pre_grant p)) (Some copy).

Lemma run_coordinator_runs c tr r :
  runs (run_coordinator c) tr r ->
  exists tr0 st, tr = map (embed_event (@CopyOp)) tr0 /\ runs (Coordinator.run c) tr0 (Ok (r, st)).
Proof.
  unfold run_coordinator. intros [(tr1 & tr2 & [r' st] & -> & H1 & [-> ->]%runs_lift)|(x & -> & H1)]%runs_bind;
    apply runs_embed in H1 as (tr0 & -> & H1).
  - rewrite app_nil_r. eauto.
  - exfalso. by apply run_never_raises in H1.
Qed.

Lemma run_cases q tr o :
  runs (Environments.run q) tr o ->
  (exists x, o = Err x /\ runs (preflight q) tr (Err x)) \/
  (exists f, runs (preflight q) tr (Ok (inl f)) /\
     o = Ok (mkOperationResult (mkEnvironmentOperationOutcome OutREFUSED (Some (pf_code f)) None)
               (lineage_of q (pf_policy f) None (pf_raw_grant f)) None)) \/
  exists p tr0 trc trf, tr = tr0 ++ map (embed_event (@CopyOp)) trc ++ trf /\
    runs (preflight q) tr0 (Ok (inr p)) /\ cleared q p tr0 /\
    exists r st, runs (Coordinator.run (copy_request q p)) trc (Ok (r, st)) /\
    ((exists copy, r = Ok copy /\ trf = [Event (VerifyOperation copy) (Ok true)] /\ o = Ok (succeeded_result q p copy)) \/
     (exists failure final trv trr, trf = trv ++ trr /\
        o = Ok (mkOperationResult (mkEnvironmentOperationOutcome OutFAILED (Some final) None)
                  (lineage_of q (Some (de_policy_ref (pre_definition p))) (pre_point p) (pre_grant p)) None) /\
        match oq_target_ref q, pre_point p with
        | Some ref, Some pt => recovery ref pt failure final trr
        | _, _ => trr = [] /\ final = failure
        end /\
        match r with
        | Err _ => failure = MUTATION_FAILED /\ trv = []
        | Ok copy => failure = OPERATION_VERIFICATION_FAILED /\
                     exists v, trv = [Event (VerifyOperation copy) v] /\ v ≠ Ok true
        end)).
Proof.
  unfold Environments.run. intros [(tr0 & tr1 & checked & -> & H1 & H)|(x & -> & H1)]%runs_bind; [|left; eauto].
  right. destruct checked as [f|p].
  { apply result_of_runs in H as [-> ->]; [|done]. rewrite app_nil_r. left. eauto. }
  right. pose proof (preflight_cleared _ _ _ H1) as Hcl.
  assert (Hpt : oq_target_ref q = None -> pre_point p = None).
  { intros E. pose proof (cl_point _ _ _ Hcl) as Hp. by rewrite E in Hp. }
  apply runs_bind in H as [(trc & trf & copied & -> & H2 & H)|(x & _ & H2)];
    apply runs_attempt in H2 as (r & Er & H2); [injection Er as ->|discriminate Er].
  apply run_coordinator_runs in H2 as (trc0 & st & -> & H2).
  exists p, tr0, trc0, trf. split_and!; [done..|]. exists r, st. split; [done|]. destruct r as [copy|e].
  - apply attempt_call in H as (v & tr3 & -> & H).
    assert (v = Ok true \/ (v ≠ Ok true /\
      runs (after_mutation_failure q (pre_point p) OPERATION_VERIFICATION_FAILED
        (de_policy_ref (pre_definition p)) (pre_grant p)) tr3 o)) as [->|[Hv Hf]].
    { destruct v as [[]|]; [by left|by right..]. }
    + left. exists copy. change (environment_operation_outcome OutSUCCEEDED None None) with
        (@Ok exn _ (mkEnvironmentOperationOutcome OutSUCCEEDED None None)) in H. rewrite lift_bind_Ok in H.
      apply runs_Ret in H as [-> ->]. done.
    + right. apply after_failure_runs in Hf as (final & -> & Hr); [|done].
      exists OPERATION_VERIFICATION_FAILED, final, [Event (VerifyOperation copy) v], tr3.
      split_and!; [done..|]. eauto.
  - right. apply after_failure_runs in H as (final & -> & Hr); [|done].
    exists MUTATION_FAILED, final, [], trf. done.
Qed.

(** ** Theorems *)

(** C16. Nothing is copied before the preflight cleared the operation: when the coordinator
    performs its first port operation, the control-plane definition had been resolved and
    is valid for this request, the target instance is registered with a receipt, the policy
    was resolved, raw delivery - if requested - was authorized by an unexpired grant for
    exactly this operation and environment, and a recovery point of an existing target was
    acquired. *)
Theorem copy_requires_cleared_preflight q tr o tr1 ev tr2 :
  runs (Environments.run q) tr o -> tr = tr1 ++ ev :: tr2 -> ~ event_sat not_copy ev ->
  exists p tr0, tr0 `prefix_of` tr1 /\ cleared q p tr0.
Proof.
  intros H -> Hev. assert (Hasks : forall l : list (event env_op exn), Forall (event_sat asks) l -> Forall (event_sat not_copy) l).
  { intros l Hl. eapply Forall_impl; [exact Hl|]. intros [R e r]. cbn. by destruct e. }
  apply run_cases in H as [(x & _ & H)|[(f & H & _)|(p & tr0 & trc & trf & E & H1 & Hcl & _)]].
  - pose proof (only_runs _ _ _ _ (preflight_asks q) H) as Hall%Hasks.
    apply Forall_app in Hall as [_ Hall]. by apply Forall_cons in Hall as [? _].
  - pose proof (only_runs _ _ _ _ (preflight_asks q) H) as Hall%Hasks.
    apply Forall_app in Hall as [_ Hall]. by apply Forall_cons in Hall as [? _].
  - exists p, tr0. split; [|done].
    pose proof (only_runs _ _ _ _ (preflight_asks q) H1) as Hall%Hasks.
    destruct (segment_skip _ _ _ _ _ _ E Hall Hev) as (b1 & -> & _). by apply prefix_app_r.
Qed.

(** An operation reports success exactly when the coordinator delivered and the verifier
    accepted the result; every other report carries a failure code and no copy result, so a
    success is never ambiguous. *)
Theorem success_is_verified q tr res :
  runs (Environments.run q) tr (Ok res) ->
  if succeeded (or_outcome res)
  then exists copy, or_copy_result res = Some copy /\ eo_failure_code (or_outcome res) = None /\
         cc_state copy = SUCCEEDED /\ last tr = Some (Event (VerifyOperation copy) (Ok true))
  else or_copy_result res = None /\ exists f, eo_failure_code (or_outcome res) = Some f.
Proof.
  intros [(x & [=] & _)|[(f & _ & [= ->])|(p & tr0 & trc & trf & -> & _ & _ & r & st & Hc &
    [(copy & -> & -> & [= ->])|(failure & final & trv & trr & _ & [= ->] & _)])]]%run_cases; cbn [or_outcome].
  1,3: (split; [done|]; cbn; eauto).
  change (succeeded _) with true. cbv iota. exists copy. split_and!; [done|done| |by rewrite !app_assoc, last_snoc].
  by apply run_delivered in Hc as [_ ?].
Qed.

(** A refused operation changed nothing: the service only asked its authorities, and at most
    acquired a recovery point. *)
Theorem refused_operation_is_harmless q tr res :
  runs (Environments.run q) tr (Ok res) -> eo_code (or_outcome res) = OutREFUSED ->
  Forall (event_sat asks) tr.
Proof.
  intros [(x & [=] & _)|[(f & H & _)|(p & tr0 & trc & trf & -> & _ & _ & r & st & _ &
    [(copy & -> & -> & [= ->])|(failure & final & trv & trr & _ & [= ->] & _)])]]%run_cases; try done.
  intros _. eapply only_runs; [apply preflight_asks|exact H].
Qed.

(** After a failed or unverified mutation of an existing target the acquired recovery point
    is restored and the restored state is checked, and the reported code tells which of the
    three happened: [mutation_failed] or [operation_verification_failed] only when the
    target verifiably came back, otherwise the failed recovery step. *)
Theorem failed_mutation_is_recovered q tr res ref :
  runs (Environments.run q) tr (Ok res) -> eo_code (or_outcome res) = OutFAILED ->
  oq_target_ref q = Some ref ->
  exists pt final pre post, tr = pre ++ post /\ Event (AcquireRecoveryPoint ref) (Ok pt) ∈ pre /\
    dl_recovery_point (or_lineage res) = Some pt /\ eo_failure_code (or_outcome res) = Some final /\
    exists failure, (failure = MUTATION_FAILED \/ failure = OPERATION_VERIFICATION_FAILED) /\
                    recovery ref pt failure final post.
Proof.
  intros [(x & [=] & _)|[(f & _ & [= ->])|(p & tr0 & trc & trf & -> & _ & Hcl & r & st & Hc &
    [(copy & -> & -> & [= ->])|(failure & final & trv & trr & -> & [= ->] & Hrec & Hr)])]]%run_cases; try done.
  intros _ Href. pose proof (cl_point _ _ _ Hcl) as Hp. rewrite Href in Hp, Hrec. destruct Hp as (pt & Ept & Hin).
  rewrite Ept in Hrec. exists pt, final, (tr0 ++ map (embed_event (@CopyOp)) trc ++ trv), trr.
  split_and!; [by rewrite <- !app_assoc|by rewrite elem_of_app; left|done|done|].
  exists failure. split; [|done]. destruct r; [right|left]; apply Hr.
Qed.

(** ** A sample operation *)

Definition env_scope : ProjectScope := mkProjectScope (mkTenantId "t") "p".
Definition env_pointer : InstancePointer := mkInstancePointer env_scope (mkInstanceId "qa-1").
Definition env_target : DatabaseRef := mkDatabaseRef "db-qa" CREATED.

Definition sample_env_request (raw : bool) : OperationRequest :=
  mkOperationRequest (mkDurableOperationIdentity "op-7" "digest") "prod" "qa" env_pointer (Some env_target)
    (mkCaptureSource "handle" (mkTargetContext "source" "prod")) (mkDatabaseSpec "copy" None None [] []) "handle"
    "actor" "refresh" raw.

(** The control plane of the sample; [grant] is the authority's answer. *)
Definition sample_env_ports (grant : option RawDataGrant) (fail : bool)
    : handler (E := env_op) (X := exn) (list (string * RestoreSetManifest)) :=
  fun R e w =>
    match e in env_op R return result exn R * list (string * RestoreSetManifest) with
    | ResolveEnvironment _ => (Ok (mkDataEnvironmentDefinition "qa" "team" env_scope ACTIVE "policy"
        [mkEnvironmentRelationship "prod" "qa"]), w)
    | GetInstance p => (Ok (mkInstanceRecord p (mkResourceRef "db-qa" "database" CREATED)
        (Some (mkOwnershipReceipt (mkDurableOperationIdentity "op-0" "d") ["db-qa"] true))), w)
    | ResolvePolicy _ => (Ok (mkAnonymizationPolicy []), w)
    | AuthorizeRaw _ _ => (Ok grant, w)
    | AcquireRecoveryPoint _ => (Ok "point-1", w)
    | RestoreRecoveryPoint _ _ => (Ok tt, w)
    | VerifyRecoveryPoint _ _ => (Ok true, w)
    | VerifyOperation _ => (Ok true, w)
    | EnvNow => (Ok (DateTime 50 true), w)
    | CopyOp e => sample_copy_ports fail _ e w
    end.

Definition sample_env (grant : option RawDataGrant) (raw fail : bool) :=
  exec (sample_env_ports grant fail) (Environments.run (sample_env_request raw)) [].

Lemma sample_env_runs grant raw fail :
  runs (Environments.run (sample_env_request raw)) (sample_env grant raw fail).1.2 (sample_env grant raw fail).1.1.
Proof. apply exec_runs. Qed.

Definition sample_result (r : result exn OperationResult) : OperationResult :=
  match r with
  | Ok res => res
  | Err _ => mkOperationResult (mkEnvironmentOperationOutcome OutFAILED None None)
               (lineage_of (sample_env_request false) None None None) None
  end.

Lemma copy_requires_cleared_preflight_witness :
  exists p tr0, tr0 `prefix_of` take 4 (sample_env None false false).1.2 /\
    cleared (sample_env_request false) p tr0.
Proof.
  pose (tr := (sample_env None false false).1.2).
  apply (copy_requires_cleared_preflight (sample_env_request false) tr (sample_env None false false).1.1
    (take 4 tr) (default (Event EnvNow (Err IndexError)) (nth_error tr 4)) (drop 5 tr)).
  - apply sample_env_runs.
  - vm_compute. reflexivity.
  - vm_compute. intros H. exact H.
Defined.

Lemma success_is_verified_witness :
  exists copy, or_copy_result (sample_result (sample_env None false false).1.1) = Some copy /\
    cc_state copy = SUCCEEDED.
Proof.
  assert (Ho : (sample_env None false false).1.1 = Ok (sample_result (sample_env None false false).1.1))
    by (vm_compute; reflexivity).
  pose proof (sample_env_runs None false false) as Hr. rewrite Ho in Hr.
  pose proof (success_is_verified _ _ _ Hr) as H.
  assert (Hs : succeeded (or_outcome (sample_result (sample_env None false false).1.1)) = true)
    by (vm_compute; reflexivity).
  rewrite Hs in H. destruct H as (copy & H1 & _ & H2 & _). exists copy. exact (conj H1 H2).
Defined.

Lemma refused_operation_is_harmless_witness :
  Forall (event_sat asks) (sample_env None true false).1.2 /\ length (sample_env None true false).1.2 = 4.
Proof.
  split; [|vm_compute; reflexivity].
  assert (Ho : (sample_env None true false).1.1 = Ok (sample_result (sample_env None true false).1.1))
    by (vm_compute; reflexivity).
  pose proof (sample_env_runs None true false) as Hr. rewrite Ho in Hr.
  apply (refused_operation_is_harmless _ _ _ Hr). vm_compute. reflexivity.
Defined.

Lemma failed_mutation_is_recovered_witness :
  exists pt final, dl_recovery_point (or_lineage (sample_result (sample_env None false true).1.1)) = Some pt /\
    eo_failure_code (or_outcome (sample_result (sample_env None false true).1.1)) = Some final.
Proof.
  assert (Ho : (sample_env None false true).1.1 = Ok (sample_result (sample_env None false true).1.1))
    by (vm_compute; reflexivity).
  pose proof (sample_env_runs None false true) as Hr. rewrite Ho in Hr.
  destruct (failed_mutation_is_recovered _ _ _ env_target Hr) as (pt & final & _ & _ & _ & _ & H1 & H2 & _);
    [vm_compute; reflexivity|reflexivity|].
  exists pt, final. exact (conj H1 H2).
Defined.
