(* ===== verification/Samples.v ===== *)
(** * A sample project

    One small project with a core, an enterprise layer, a git layer whose repository is
    overridden and a published layer, together with ports that answer for it.  The
    theorems of the manifest components are instantiated at it. *)

From S2P Require Import Prelude Effects Values Paths Schema Urls Composition Json Lock Projection.

Definition sample_manifest : Manifest := mkManifest
  "acme" "17.0" Enterprise default_core (Some default_enterprise)
  [LGit (mkGitLayer "oca" [mkGitRepo "https://github.com/OCA/web.git" "17.0"] "custom");
   LPublished (mkPublishedLayer "blocks" "registry.example/blocks" "1.2.0" "vendor" true)]
  (mkClient (path_of "addons") None)
  [mkOverride "oca" "https://github.com/OCA/web.git" "git@github.com:acme/web.git" "17.0-fix"]
  None None ["custom/vendor"].

Definition sample_digest : string :=
  "sha256:0123456789abcdef0123456789abcdef0123456789abcdef0123456789abcdef".

(** A stand-in for the hash: any function will do. *)
Definition sample_sha256 (s : string) : string := s.

(** Ports that pin every reference to a fixed commit. *)
Definition sample_ports : handler (E := lock_op) (X := exn) unit :=
  fun R e w =>
    match e in lock_op R return result exn R * unit with
    | ResolveRef url ref => (Ok ("c-" +:+ ref), w)
    | ResolveArtifact source version => (Ok (mkResolution source version sample_digest), w)
    end.

Definition sample_run := exec sample_ports (build_lock sample_sha256 sample_manifest) tt.

Definition sample_lock : Lockfile := mkLockfile 2 (canonical_manifest sample_manifest)
  [mkResolvedGitLayer "core" [mkResolvedRepo "https://github.com/odoo/odoo.git" "17.0" "c-17.0"];
   mkResolvedGitLayer "enterprise" [mkResolvedRepo ENTERPRISE_SOURCE_URL "17.0" "c-17.0"];
   mkResolvedGitLayer "oca" [mkResolvedRepo "git@github.com:acme/web.git" "17.0-fix" "c-17.0-fix"]]
  [mkResolvedPublishedLayer "blocks" "registry.example/blocks" "1.2.0" sample_digest].

Definition sample_plan : list WorkspacePlanEntry :=
  match plan_projection sample_manifest sample_lock None with Ok p => p | Err _ => [] end.

(** Every planned checkout, and a worktree of the overridden repository. *)
Definition sample_scan : list ScannedRepo :=
  map (fun s => mkScannedRepo (we_target_path s) (we_url s) (we_commit s)) sample_plan ++
  [mkScannedRepo (path_of "/mnt/worktrees/oca/web") "git@github.com:acme/web.git" "c-17.0-fix"].

Definition sample_state : MaterializedState :=
  match materialize_state sample_scan (default_container_roots sample_manifest) with
  | Ok st => st
  | Err _ => mkMaterializedState []
  end.

Definition sample_mounts : list MountEvidence :=
  match build_mount_planning_view sample_sha256 sample_manifest (Some sample_lock) sample_scan
          sample_state (default_container_roots sample_manifest) None with
  | Ok mts => mts
  | Err _ => []
  end.

Lemma sample_run_ok : sample_run.1.1 = Ok sample_lock.
Proof. vm_compute. reflexivity. Qed.

Lemma sample_plan_ok : plan_projection sample_manifest sample_lock None = Ok sample_plan.
Proof. vm_compute. reflexivity. Qed.

Lemma sample_mounts_ok :
  build_mount_planning_view sample_sha256 sample_manifest (Some sample_lock) sample_scan
    sample_state (default_container_roots sample_manifest) None = Ok sample_mounts /\
  map (fun e => (path_str (me_source_path e), me_read_only e)) sample_mounts =
  [("/mnt/community/core/odoo", true); ("/mnt/enterprise/enterprise/enterprise", true);
   ("/mnt/worktrees/oca/web", false)].
Proof. vm_compute. split; reflexivity. Qed.

Lemma sample_manifest_wf : wf_manifest sample_manifest.
Proof.
  constructor.
  - intros l H. unfold sample_manifest in H. cbn [m_layers] in H. rewrite !elem_of_cons, elem_of_nil in H. destruct H as [->|[->|[]]]; reflexivity.
  - cbn. split; [eauto|done].
  - intros k H. apply (bool_decide_unpack _). change (k ∈ ["custom/vendor"]) in H. apply list_elem_of_singleton in H as ->. vm_compute. done.
  - apply (bool_decide_unpack _). vm_compute. done.
Qed.

Lemma validate_manifest_wf_witness :
  validate_manifest sample_manifest = Ok sample_manifest /\ wf_manifest sample_manifest.
Proof.
  split; [vm_compute; reflexivity|].
  apply (validate_manifest_wf sample_manifest sample_manifest). vm_compute. reflexivity.
Defined.
