(* ===== verification/LockFacts.v ===== *)
(** * Properties of composition, locking and the lockfile *)

From S2P Require Import Prelude Effects Values Paths Schema Composition Json JsonFacts Lock Projection Samples.

(** ** What makes a manifest coherent *)

(** An override is legitimate when it redirects a repository that the layer of that
    name declares. *)
Definition override_ok (m : Manifest) (o : Override) : Prop :=
  ov_layer o ≠ "core" /\
  exists g, dget (ov_layer o) (layers_by_name m) = Some (LGit g) /\
            ov_repo o ∈ map repo_url (git_repos g).

Record coherent (m : Manifest) : Prop := {
  coh_core : forall l, l ∈ m_layers m -> layer_name l ≠ "core";
  coh_edition : m_edition m = Community ->
    forall p, LPublished p ∈ m_layers m -> pub_requires_enterprise p = false;
  coh_overrides : forall o, o ∈ m_overrides m -> override_ok m o;
  coh_unique : NoDup (map (fun o => (ov_layer o, ov_repo o)) (m_overrides m)) }.

(** The chain of a coherent manifest. *)
Definition chain (m : Manifest) : list ChainItem :=
  [CCore (m_core m)] ++
  match m_enterprise m with Some e => [CEnterprise e] | None => [] end ++
  map CLayer (m_layers m) ++ [CClient (m_client m)].

Lemma check_override_Ok m targets o :
  check_override m targets o = Ok tt <->
  override_ok m o /\ (ov_layer o, ov_repo o) ∉ targets.
Proof.
  unfold check_override, override_ok, ensure.
  destruct (bool_decide_reflect (ov_layer o = "core")); cbn; [split; [done|tauto]|].
  destruct (bool_decide_reflect ((ov_layer o, ov_repo o) ∈ targets)); cbn; [split; [done|tauto]|].
  destruct (dget (ov_layer o) (layers_by_name m)) as [[p|g]|] eqn:E; cbn;
    [split; [done|by intros [[_ (g & [=] & _)] _]] | |split; [done|by intros [[_ (g & [=] & _)] _]]].
  destruct (bool_decide_reflect (ov_repo o ∈ map repo_url (git_repos g))); cbn.
  - split; [|done]. intros _. eauto 10.
  - split; [done|]. by intros [[_ (g' & [= <-] & ?)] _].
Qed.

Lemma check_overrides_from_Ok m targets os :
  check_overrides_from m targets os = Ok tt <->
  (forall o, o ∈ os -> override_ok m o /\ (ov_layer o, ov_repo o) ∉ targets) /\
  NoDup (map (fun o => (ov_layer o, ov_repo o)) os).
Proof.
  revert targets. induction os as [|o os IH]; intros targets; cbn.
  - split; [|done]. intros _. split; [|apply NoDup_nil_2]. intros o Ho. by apply elem_of_nil in Ho.
  - rewrite result_bind_Ok, NoDup_cons. setoid_rewrite elem_of_cons. split.
    + intros ([] & H1 & H2). apply check_override_Ok in H1. apply IH in H2 as [H2 H3].
      setoid_rewrite not_elem_of_cons in H2. split_and!; [| |done].
      { intros o' [->|Ho']; [done|]. by destruct (H2 o' Ho') as (? & ? & ?). }
      intros Hin. rewrite list_elem_of_fmap in Hin. destruct Hin as (o' & Heq & Ho').
      destruct (H2 o' Ho') as (_ & Hne & _). congruence.
    + intros (H1 & Hn & H3). exists tt. split; [apply check_override_Ok; auto|].
      apply IH. split; [|done]. intros o' Ho'. rewrite not_elem_of_cons.
      destruct (H1 o') as [? ?]; [by right|]. split_and!; [done| |done].
      intros Heq. apply Hn. rewrite <- Heq.
      by apply (list_elem_of_fmap_2 (fun o => (ov_layer o, ov_repo o))).
Qed.

Lemma check_reserved_Ok m :
  check_reserved_layer_names m = Ok tt <-> forall l, l ∈ m_layers m -> layer_name l ≠ "core".
Proof.
  unfold check_reserved_layer_names. rewrite ensure_Ok, negb_true_iff, <- not_true_iff_false, existsb_elem.
  setoid_rewrite bool_decide_eq_true. naive_solver.
Qed.

Lemma check_published_Ok m :
  check_published_layer_edition_coherence m = Ok tt <->
  (m_edition m = Community -> forall p, LPublished p ∈ m_layers m -> pub_requires_enterprise p = false).
Proof.
  unfold check_published_layer_edition_coherence. destruct (m_edition m); [|naive_solver].
  rewrite result_iter_Ok. split.
  - intros H _ p Hp. specialize (H _ Hp). cbn in H. by rewrite ensure_Ok, negb_true_iff in H.
  - intros H [p|g] Hp; [|done]. rewrite ensure_Ok, negb_true_iff. auto.
Qed.

(** [compose] succeeds exactly on the coherent manifests, with the documented chain. *)
Lemma compose_Ok m c : compose m = Ok c <-> coherent m /\ c = chain m.
Proof.
  unfold compose. split.
  - intros ([] & H1 & ([] & H2 & ([] & H3 & [= <-])%result_bind_Ok)%result_bind_Ok)%result_bind_Ok.
    pose proof (proj1 (check_reserved_Ok m) H1). pose proof (proj1 (check_published_Ok m) H2).
    pose proof (proj1 (check_overrides_from_Ok _ _ _) H3) as [H4 H5].
    split; [|done]. constructor; auto. intros o Ho. by apply H4.
  - intros [[H1 H2 H3 H4] ->].
    rewrite (proj2 (check_reserved_Ok m) H1). cbn.
    rewrite (proj2 (check_published_Ok m) H2). cbn.
    unfold check_overrides. rewrite (proj2 (check_overrides_from_Ok m [] (m_overrides m))); [done|].
    split; [|done]. intros o Ho. split; [auto|apply not_elem_of_nil].
Qed.

(** ** Locking *)

(** An artifact port echoes the declaration it was asked to resolve. *)
Definition echoes (ev : event lock_op exn) : Prop :=
  match ev with
  | Event e r =>
    match e in lock_op R return result exn R -> Prop with
    | ResolveArtifact source version => fun r =>
      match r with
      | Ok res => res_source res = source /\ res_version res = version
      | Err _ => True
      end
    | ResolveRef _ _ => fun _ => True
    end r
  end.

(** The (url, ref) pairs a program asked the source port to resolve. *)
Definition ref_request (ev : event lock_op exn) : option (string * string) :=
  match ev with
  | Event e _ => match e with ResolveRef url ref => Some (url, ref) | _ => None end
  end.
Definition ref_requests (tr : list (event lock_op exn)) : list (string * string) := omap ref_request tr.

Definition repo_target (r : ResolvedRepo) : string * string := (rr_url r, rr_ref r).

Lemma resolve_repos_runs ov layer rs tr l :
  runs (map_each (resolve_repo ov layer) rs) tr (Ok l) ->
  map repo_target l = map (expected_git_repo ov layer) rs /\
  ref_requests tr = map (expected_git_repo ov layer) rs.
Proof.
  revert tr l. induction rs as [|r rs IH]; intros tr l; cbn [map_each].
  - intros H. run_steps. done.
  - intros H. run_step. match goal with H : runs (resolve_repo _ _ _) _ _ |- _ => rename H into Hr end.
    unfold resolve_repo in Hr. change (effective_repo ov layer r) with (expected_git_repo ov layer r) in Hr.
    destruct (expected_git_repo ov layer r) as [url ref] eqn:Et.
    run_steps; try done. match goal with H : runs (map_each _ _) _ _ |- _ => apply IH in H as [H1 H2] end.
    cbn. rewrite ?Et, app_nil_r, H1, H2. done.
Qed.

Definition git_expectation (ov : list ((string * string) * Override)) (l : Layer)
    : option (string * list (string * string)) :=
  match l with
  | LGit g => Some (git_name g, map (expected_git_repo ov (git_name g)) (git_repos g))
  | LPublished _ => None
  end.
Definition published_expectation (l : Layer) : option (string * (string * string)) :=
  match l with
  | LGit _ => None
  | LPublished p => Some (pub_name p, (pub_source p, pub_version p))
  end.
Definition git_view (l : ResolvedGitLayer) : string * list (string * string) :=
  (rl_name l, map repo_target (rl_repos l)).
Definition published_view (l : ResolvedPublishedLayer) : string * (string * string) :=
  (rp_name l, (rp_source l, rp_version l)).

Lemma resolve_layers_runs ov ls git pub tr git' pub' :
  runs (resolve_layers ov ls git pub) tr (Ok (git', pub')) ->
  Forall echoes tr ->
  map git_view git' = map git_view git ++ omap (git_expectation ov) ls /\
  map published_view pub' = map published_view pub ++ omap published_expectation ls.
Proof.
  revert git pub tr. induction ls as [|[p|g] ls IH]; intros git pub tr; cbn [resolve_layers].
  - intros H _. run_steps. by rewrite !app_nil_r.
  - intros H Hecho. run_step. run_step.
    match goal with H : runs (lift _) _ _ |- _ => apply runs_lift in H as [-> Hl] end.
    apply Forall_cons in Hecho as [Hsv Htl]. cbn in Hsv, Htl. destruct Hsv as [Hs Hv].
    match goal with H : runs (resolve_layers _ _ _ _) _ _ |- _ => apply IH in H as [H1 H2]; [|done] end.
    symmetry in Hl. unfold resolved_published_layer in Hl. apply result_bind_Ok in Hl as ([] & _ & [= <-]).
    rewrite H1, H2. rewrite map_app. cbn. unfold published_view at 3. cbn. rewrite Hs, Hv.
    by rewrite <- app_assoc.
  - intros H Hecho. run_step.
    match goal with H : runs (resolve_git_layer _ _) _ _ |- _ => rename H into Hg end.
    apply Forall_app in Hecho as [_ Hecho].
    match goal with H : runs (resolve_layers _ _ _ _) _ _ |- _ => apply IH in H as [H1 H2]; [|done] end.
    unfold resolve_git_layer in Hg. run_step. run_steps.
    match goal with H : runs (map_each _ _) _ _ |- _ => apply resolve_repos_runs in H as [Hr _] end.
    rewrite H1, H2, map_app. cbn. unfold git_view at 2. cbn. rewrite Hr. by rewrite <- app_assoc.
Qed.

Lemma expected_git_view m :
  expected_git m =
  [("core", [(core_url (m_core m), resolve_default_ref (core_ref (m_core m)) (m_odoo_version m))])] ++
  match m_enterprise m with
  | Some e => [("enterprise", [(ent_url e, resolve_default_ref (ent_ref e) (m_odoo_version m))])]
  | None => []
  end ++ omap (git_expectation (overrides_by_target m)) (m_layers m).
Proof. reflexivity. Qed.

Lemma validate_lock_structure_Ok m lk :
  validate_lock_structure m lk = Ok tt <->
  coherent m /\ expected_git m = actual_git lk /\ expected_published m = actual_published lk.
Proof.
  unfold validate_lock_structure. split.
  - intros (c & Hc & H)%result_bind_Ok. pose proof (proj1 (compose_Ok m c) Hc) as [Hcoh _].
    by rewrite ensure_Ok, andb_true_iff, !bool_decide_eq_true in H.
  - intros (Hcoh & Hg & Hp). rewrite (proj2 (compose_Ok m (chain m))) by done. cbn.
    by rewrite ensure_Ok, andb_true_iff, !bool_decide_eq_true.
Qed.

(** ** Lockfile documents *)

(** What the pydantic models and [to_canonical_json] demand of a lockfile. *)
Record wf_lockfile (lk : Lockfile) : Prop := {
  wl_version : lk_schema_version lk = 1%Z \/ lk_schema_version lk = 2%Z;
  wl_v1 : lk_schema_version lk = 1%Z -> lk_published_layers lk = [];
  wl_digests : forall p, p ∈ lk_published_layers lk -> sha256_digest (rp_digest p) = true }.

Lemma read_repo_document r : read_resolved_repo (canon (resolved_repo_document r)) = Ok r.
Proof. by destruct r. Qed.

Lemma read_git_layer_document l : read_git_layer (canon (resolved_git_layer_document l)) = Ok l.
Proof.
  change (canon (resolved_git_layer_document l)) with
    (JObj [("name", JStr (rl_name l)); ("repos", JArr (map canon (map resolved_repo_document (rl_repos l))))]).
  unfold read_git_layer. cbn [as_object result_bind].
  change (get_str _ "name") with (@Ok exn string (rl_name l)). cbn [result_bind].
  erewrite (get_list_canon _ resolved_repo_document _ _ (rl_repos l));
    [|reflexivity|intros r _; apply read_repo_document].
  by destruct l.
Qed.

Lemma read_published_layer_document p :
  sha256_digest (rp_digest p) = true ->
  read_published_layer (canon (resolved_published_layer_document p)) = Ok p.
Proof.
  intros H.
  change (resolved_published_layer (rp_name p) (rp_source p) (rp_version p) (rp_digest p) = Ok p).
  unfold resolved_published_layer. rewrite H. by destruct p.
Qed.

Lemma printable_git_layers git : forallb printable (map resolved_git_layer_document git) = true.
Proof. apply printable_map. intros l. cbn. rewrite andb_true_r. by apply printable_map. Qed.

(** ** Theorems *)

(** Locking is fail-closed: an incoherent manifest is rejected with its composition
    error before the source provider or the artifact resolver is called at all. *)
Theorem build_lock_fail_closed sha256 m e tr o :
  compose m = Err e -> runs (build_lock sha256 m) tr o -> tr = [] /\ o = Err e.
Proof.
  intros Hc H. unfold build_lock in H. rewrite Hc in H. change (runs (Raise e) tr o) in H.
  by apply runs_Raise in H.
Qed.

Lemma build_lock_fail_closed_witness :
  let m := mkManifest "acme" "17.0" Community default_core None
    [LGit (mkGitLayer "core" [] "custom")] (mkClient (path_of "addons") None) [] None None [] in
  let e := CompositionError "layer name 'core' is reserved for the singleton core layer" in
  compose m = Err e /\ (@nil (event lock_op exn)) = [].
Proof.
  intros m e. split; [reflexivity|].
  apply (build_lock_fail_closed sample_sha256 m e [] (Err e)); [reflexivity|].
  change (runs (E := lock_op) (A := Lockfile) (Raise e) [] (Err e)). by apply runs_Raise.
Defined.

(** C12. A lock produced by [build_lock] passes the structural validation that mount planning
    later performs against the same manifest, shows no manifest drift, and pins what the
    ports answered - for every behaviour of the source port, given an artifact port that
    echoes the declaration it resolves. *)
Theorem build_lock_valid sha256 m tr lk :
  runs (build_lock sha256 m) tr (Ok lk) -> Forall echoes tr ->
  validate_lock_structure m lk = Ok tt /\
  manifest_lock_drift (detect_drift sha256 m (Some lk) None) = [] /\
  lk_schema_version lk = 2%Z.
Proof.
  intros H Hecho. unfold build_lock in H. run_step.
  match goal with H : runs (lift _) _ _ |- _ => apply runs_lift in H as [-> Hc] end.
  symmetry in Hc. pose proof (proj1 (compose_Ok m _) Hc) as [Hcoh _].
  run_step. match goal with H : runs (resolve_core _) _ _ |- _ => rename H into Hcore end.
  run_step. match goal with H : runs (match m_enterprise m with _ => _ end) _ _ |- _ => rename H into Hent end.
  run_step. match goal with H : runs (let '(_, _) := ?x in _) _ _ |- _ => destruct x as [git pub] end.
  run_steps.
  match goal with H : runs (resolve_layers _ _ _ _) _ _ |- _ =>
    apply resolve_layers_runs in H as [Hg Hp] end; [|by rewrite !Forall_app in Hecho; destruct_and!].
  unfold resolve_core in Hcore. run_steps.
  split_and!; [|by unfold detect_drift, compute_manifest_lock_drift; cbn; rewrite bool_decide_true|done].
  apply validate_lock_structure_Ok. split_and!; [done| |].
  - rewrite expected_git_view. unfold actual_git. cbn [lk_git_layers].
    change (map _ git) with (map git_view git). rewrite Hg. cbn [map git_view rl_name rl_repos repo_target].
    destruct (m_enterprise m) as [e|]; unfold resolve_enterprise in Hent; run_steps; done.
  - unfold actual_published. cbn [lk_published_layers]. change (map _ pub) with (map published_view pub).
    by rewrite Hp.
Qed.

Lemma build_lock_valid_witness :
  validate_lock_structure sample_manifest sample_lock = Ok tt.
Proof.
  refine (proj1 (build_lock_valid sample_sha256 sample_manifest sample_run.1.2 sample_lock _ _)).
  - rewrite <- sample_run_ok. apply exec_runs.
  - repeat constructor.
Defined.

(** A well-formed lockfile survives the disk: its canonical JSON text reads back as the same
    lockfile, in both schema versions. *)
Lemma lockfile_roundtrip lk :
  wf_lockfile lk -> exists text, to_canonical_json lk = Ok text /\ from_json text = Ok lk.
Proof.
  intros [Hv H1 Hd]. destruct lk as [v gf git pub]. cbn in *. unfold to_canonical_json, lockfile_document. cbn.
  pose proof (printable_git_layers git) as Hgit.
  assert (Hpub : forallb printable (map resolved_published_layer_document pub) = true) by by apply printable_map.
  destruct Hv as [->| ->]; cbn -[dumps_indent].
  - rewrite H1 by done. eexists. split; [reflexivity|]. unfold from_json.
    rewrite loads_dumps_line by (cbn; by rewrite Hgit). cbn. unfold read_v1. cbn [result_bind].
    change (only_keys _ _) with (@Ok exn unit tt). cbn [result_bind].
    change (get_str _ _) with (@Ok exn string gf). cbn [result_bind].
    erewrite (get_list_canon _ resolved_git_layer_document _ _ git);
      [done|reflexivity|intros l _; apply read_git_layer_document].
  - eexists. split; [reflexivity|]. unfold from_json.
    rewrite loads_dumps_line by (cbn; by rewrite Hgit, Hpub). cbn. unfold read_v2.
    change (only_keys _ _) with (@Ok exn unit tt). cbn [result_bind].
    change (get_str _ _) with (@Ok exn string gf). cbn [result_bind].
    erewrite (get_list_canon _ resolved_git_layer_document _ _ git);
      [|reflexivity|intros l _; apply read_git_layer_document]. cbn [result_bind].
    erewrite (get_list_canon _ resolved_published_layer_document _ _ pub); [done|reflexivity|].
    intros p Hp. apply read_published_layer_document. auto.
Qed.

Example sample_lock_reads_back :
  exists text, to_canonical_json sample_lock = Ok text /\ from_json text = Ok sample_lock.
Proof.
  apply lockfile_roundtrip. constructor; [by right|done|].
  intros p H. apply list_elem_of_singleton in H as ->. reflexivity.
Defined.
