(* ===== verification/RootFacts.v ===== *)
(** * Facts about mount roots and the layout of planned checkouts

    Which keys [build_mount_roots] has, where each root lies, that roots never nest,
    and hence that the scan of a planned path is attributed to the root and layer it
    was planned under.  Also the runtime order of the add-on roots. *)

From S2P Require Import Prelude Effects Regex Values Paths Schema Urls Composition Json Lock Projection Samples.

(** ** Category folders are plain path segments *)

Lemma slug_char_not_slash c : slug_char c = true -> Ascii.eqb c slash = false.
Proof.
  intros H. destruct (Ascii.eqb_spec c slash) as [->|]; [|done]. by vm_compute in H.
Qed.

Lemma slug_plain l : slug l = true -> forallb (fun c => negb (Ascii.eqb c slash)) l = true.
Proof.
  unfold slug. destruct l as [|c l]; [done|]. destruct (last _); [|done].
  rewrite !andb_true_iff, !forallb_forall. intros [_ H] x Hx. by rewrite slug_char_not_slash by auto.
Qed.

Lemma category_plain c : normalize_category (Some c) = Ok c -> plain_segment c = true.
Proof.
  intros H. pose proof (proj1 (category_accepted c) H) as [_ Hs].
  assert (Hh : exists a l, chars c = a :: l /\ lower_alnum a = true /\
             forallb (fun c => negb (Ascii.eqb c slash)) (chars c) = true).
  { destruct Hs as [Hs|(l & E & Hs)].
    - pose proof (slug_plain _ Hs) as Hp. destruct (chars c) as [|a l]; [done|]. exists a, l.
      split_and!; [done| |done]. unfold slug in Hs. destruct (last _); [|done]. by destruct (lower_alnum a).
    - pose proof (slug_plain _ Hs) as Hp. destruct l as [|a l]; [done|]. exists a, (l ++ [newline]).
      rewrite E. split_and!; [done| |].
      + unfold slug in Hs. destruct (last _); [|done]. by destruct (lower_alnum a).
      + rewrite forallb_app, Hp. done. }
  destruct Hh as (a & l & E & Ha & Hp). unfold plain_segment, kept_segment. rewrite Hp, andb_true_r.
  repeat rewrite andb_true_iff. rewrite !negb_true_iff, !bool_decide_eq_false.
  split_and!; intros ->; vm_compute in E; simplify_eq; by vm_compute in Ha.
Qed.

Lemma folder_plain c :
  normalize_category (Some c) = Ok c -> plain_segment (custom_category_folder c) = true.
Proof.
  intros H. unfold custom_category_folder. case_decide; [reflexivity|]. by apply category_plain.
Qed.

Lemma custom_root_key_inj c d :
  custom_root_key c = custom_root_key d -> custom_category_folder c = custom_category_folder d.
Proof.
  unfold custom_root_key. intros H%(f_equal chars). rewrite !chars_app in H.
  apply chars_inj. by apply (app_inv_head (chars "custom/")).
Qed.

(** ** Mount roots *)

(** Where the root of a key lies under an absolute base. *)
Definition system_root (base : path) (k : string) : path := div base k.
Definition custom_root (base : path) (c : string) : path :=
  div (div base "custom") (custom_category_folder c).

Definition root_entry (base : path) (cats : list string) (e : string * path) : Prop :=
  (e.1 ∈ SYSTEM_MOUNT_ROOTS /\ e.2 = system_root base e.1) \/
  (exists c, c ∈ cats /\ e.1 = custom_root_key c /\ e.2 = custom_root base c).

Lemma add_custom_roots_spec base cats done roots :
  NoDup roots.*1 ->
  (forall e, e ∈ roots <-> root_entry base done e) ->
  NoDup (foldl (add_custom_root base) roots cats).*1 /\
  forall e, e ∈ foldl (add_custom_root base) roots cats <-> root_entry base (done ++ cats) e.
Proof.
  revert done roots. induction cats as [|c cats IH]; intros dn roots Hnd Hin; cbn.
  - by rewrite app_nil_r.
  - replace (dn ++ c :: cats) with ((dn ++ [c]) ++ cats) by by rewrite <- app_assoc.
    apply IH; [by apply dset_NoDup|]. intros [k p]. unfold add_custom_root.
    change ("custom/" +:+ custom_category_folder c) with (custom_root_key c).
    assert (Hval : forall q, (custom_root_key c, q) ∈ roots -> q = custom_root base c).
    { intros q [[Hk _]|(d & Hd & Hk & Hq)]%Hin; cbn in *.
      - unfold SYSTEM_MOUNT_ROOTS in Hk. rewrite !elem_of_cons, elem_of_nil in Hk.
        destruct_or?; try done; unfold custom_root_key in Hk; cbn in Hk; discriminate.
      - rewrite Hq. unfold custom_root. by rewrite (custom_root_key_inj _ _ Hk). }
    assert (Hmem : (k, p) ∈ dset (custom_root_key c) (custom_root base c) roots <->
                   (k, p) ∈ roots \/ (k = custom_root_key c /\ p = custom_root base c)).
    { clear IH Hin Hnd. induction roots as [|[k1 p1] roots IHr]; cbn.
      - rewrite list_elem_of_singleton, elem_of_nil. naive_solver.
      - case_decide as E; rewrite !elem_of_cons.
        + subst k1. rewrite (Hval p1) by (by left). naive_solver.
        + rewrite IHr by (intros; apply Hval; by right). tauto. }
    change (div (div base "custom") (custom_category_folder c)) with (custom_root base c).
    rewrite Hmem, Hin. unfold root_entry. cbn. setoid_rewrite elem_of_app.
    setoid_rewrite list_elem_of_singleton. naive_solver.
Qed.

Definition manifest_categories (m : Manifest) : list string := map layer_category (m_layers m).

Lemma build_mount_roots_spec base m :
  NoDup (build_mount_roots base (Some m)).*1 /\
  forall e, e ∈ build_mount_roots base (Some m) <-> root_entry base (manifest_categories m) e.
Proof.
  unfold build_mount_roots.
  destruct (add_custom_roots_spec base (sorted_set (map layer_category (m_layers m))) []
    [("community", div base "community"); ("enterprise", div base "enterprise");
     ("worktrees", div base "worktrees")]) as [H1 H2].
  - cbn. apply (bool_decide_unpack _). vm_compute. done.
  - intros [k p]. unfold root_entry, SYSTEM_MOUNT_ROOTS, system_root. cbn.
    rewrite !elem_of_cons, elem_of_nil. setoid_rewrite elem_of_nil. split.
    + intros H. left. naive_solver.
    + intros [[H ->]|(c & [] & _)]. naive_solver.
  - split; [done|]. intros e. rewrite H2. unfold root_entry. cbn.
    setoid_rewrite elem_of_sorted_set. done.
Qed.

Lemma root_get base m k p :
  dget k (build_mount_roots base (Some m)) = Some p <-> root_entry base (manifest_categories m) (k, p).
Proof.
  destruct (build_mount_roots_spec base m) as [Hnd Hin]. rewrite <- Hin. split.
  - apply dget_Some_elem.
  - by apply dget_elem_NoDup.
Qed.

(** The keys are exactly the ones the manifest's [mount_priority] may name. *)
Lemma root_keys base m k : k ∈ (build_mount_roots base (Some m)).*1 <-> k ∈ valid_mount_roots m.
Proof.
  destruct (build_mount_roots_spec base m) as [_ Hin].
  unfold valid_mount_roots. rewrite list_elem_of_fmap, elem_of_app, list_elem_of_fmap. split.
  - intros ([k' p] & -> & [[H _]|(c & H & E & _)]%Hin); [by left|right]. cbn in *. subst.
    unfold manifest_categories in H. apply list_elem_of_fmap in H as (l & -> & Hl). eauto.
  - intros [H|(l & -> & Hl)].
    + exists (k, system_root base k). split; [done|]. apply Hin. by left.
    + exists (custom_root_key (layer_category l), custom_root base (layer_category l)). split; [done|].
      apply Hin. right. exists (layer_category l). split; [|done].
      unfold manifest_categories. by apply list_elem_of_fmap_2.
Qed.

(** ** Roots never nest *)

(** The segments of a root below its base. *)
Definition root_segments (k : string) : list string := split_on slash k.

Lemma div_root p s : plain_segment s = true -> p_root (div p s) = p_root p.
Proof. intros H. by rewrite div_plain. Qed.

Lemma div_segs p s : plain_segment s = true -> p_segs (div p s) = p_segs p ++ [s].
Proof. intros H. by rewrite div_plain. Qed.

(** The entries of a well-formed manifest's roots, as paths. *)
Lemma root_entry_shape base cats k p :
  (forall c, c ∈ cats -> plain_segment (custom_category_folder c) = true) ->
  root_entry base cats (k, p) ->
  p_root p = p_root base /\
  ((k ∈ SYSTEM_MOUNT_ROOTS /\ p_segs p = p_segs base ++ [k]) \/
   exists f, k = "custom/" +:+ f /\ p_segs p = p_segs base ++ ["custom"; f]).
Proof.
  intros Hc [[Hk Hp]|(c & Hin & Hk & Hp)]; cbn in *; subst.
  - assert (plain_segment k = true).
    { unfold SYSTEM_MOUNT_ROOTS in Hk. rewrite !elem_of_cons, elem_of_nil in Hk.
      destruct_or?; subst; done. }
    unfold system_root. rewrite div_root, div_segs by done. auto.
  - unfold custom_root. rewrite !div_root, !div_segs by (try reflexivity; auto).
    split; [done|]. right. exists (custom_category_folder c). by rewrite <- app_assoc.
Qed.

Lemma app_3_2 (base x y : list string) (rest : list string) :
  base ++ x = (base ++ y) ++ rest -> x = y ++ rest.
Proof. rewrite <- app_assoc. apply app_inv_head. Qed.

Lemma system_root_not_custom k : k ∈ SYSTEM_MOUNT_ROOTS -> k <> "custom".
Proof. unfold SYSTEM_MOUNT_ROOTS. rewrite !elem_of_cons, elem_of_nil. intros ? ->. naive_solver. Qed.

(** A path under one root is under no other. *)
Lemma roots_disjoint base cats k p k' p' rest rest' :
  (forall c, c ∈ cats -> plain_segment (custom_category_folder c) = true) ->
  root_entry base cats (k, p) -> root_entry base cats (k', p') ->
  p_segs p ++ rest = p_segs p' ++ rest' -> k = k'.
Proof.
  intros Hc [_ [[Hk Hp]|(f & Hk & Hp)]]%root_entry_shape [_ [[Hk' Hp']|(f' & Hk' & Hp')]]%root_entry_shape E;
    try done; rewrite Hp, Hp', <- !app_assoc in E; apply app_inv_head in E; cbn in E; simplify_eq; try done.
  - by apply system_root_not_custom in Hk.
  - by apply system_root_not_custom in Hk'.
Qed.

Lemma match_root_found roots k b p layer repo :
  NoDup roots.*1 -> (k, b) ∈ roots -> relative_to p b = Some (mkPath "" [layer; repo]) ->
  (forall k' b', (k', b') ∈ roots -> is_Some (relative_to p b') -> k' = k) ->
  match_root_and_layer p roots = Some (k, layer).
Proof.
  intros Hnd Hin Hrel Huniq. induction roots as [|[k1 b1] roots IH]; [by apply elem_of_nil in Hin|].
  cbn in *. apply NoDup_cons in Hnd as [Hn Hnd]. apply elem_of_cons in Hin as [[= <- <-]|Hin].
  - by rewrite Hrel.
  - destruct (relative_to p b1) eqn:E.
    + destruct Hn. rewrite (Huniq k1 b1); [|by left|done]. by apply (list_elem_of_fmap_2 fst _ (k, b)).
    + apply IH; [done..|]. intros k' b' H. apply Huniq. by right.
Qed.

(** A planned path is attributed to the root and layer it was planned under. *)
Lemma match_planned_path base m k b layer repo :
  (forall c, c ∈ manifest_categories m -> plain_segment (custom_category_folder c) = true) ->
  dget k (build_mount_roots base (Some m)) = Some b ->
  plain_segment layer = true -> plain_segment repo = true ->
  match_root_and_layer (div (div b layer) repo) (build_mount_roots base (Some m)) = Some (k, layer).
Proof.
  intros Hc Hk Hl Hr. destruct (build_mount_roots_spec base m) as [Hnd Hin].
  pose proof (proj1 (root_get _ _ _ _) Hk) as He.
  assert (Hsegs : p_segs (div (div b layer) repo) = p_segs b ++ [layer; repo]).
  { by rewrite !div_segs, <- app_assoc by done. }
  apply (match_root_found _ _ b _ _ repo); [done|by apply Hin| |].
  - apply relative_to_Some. rewrite Hsegs, !div_root by done. done.
  - intros k' b' H' [q (_ & _ & E)%relative_to_Some]. rewrite Hsegs in E.
    apply Hin in H'. symmetry. by eapply roots_disjoint; [|exact He|exact H'|exact E].
Qed.

Lemma wf_folders m : wf_manifest m ->
  forall c, c ∈ manifest_categories m -> plain_segment (custom_category_folder c) = true.
Proof.
  intros H c Hc. unfold manifest_categories in Hc. apply list_elem_of_fmap in Hc as (l & -> & Hl).
  apply folder_plain. by apply (wf_categories m H).
Qed.

(** ** The runtime order of the add-on roots *)

Lemma result_map_Ok {A B} (f : A -> result exn B) l k :
  result_map f l = Ok k <-> Forall2 (fun x y => f x = Ok y) l k.
Proof.
  revert k. induction l as [|x l IH]; intros k; cbn.
  - split; [by intros [= <-]|]. intros H. by inversion H.
  - split.
    + intros (y & Hy & (ys & Hys & [= <-])%result_bind_Ok)%result_bind_Ok. constructor; [done|].
      by apply IH.
    + intros H. inversion H as [|? y ? ys Hy Hys]; subst. rewrite Hy. cbn.
      rewrite (proj2 (IH ys)) by done. done.
Qed.

Lemma result_map_total {A B} (f : A -> result exn B) l :
  (forall x, x ∈ l -> exists y, f x = Ok y) -> exists k, result_map f l = Ok k.
Proof.
  induction l as [|x l IH]; intros H; cbn; [eauto|].
  destruct (H x) as [y ->]; [by left|]. destruct IH as [k ->]; [intros; apply H; by right|].
  cbn. eauto.
Qed.

Lemma dget_or_raise_Ok k d p : dget_or_raise k d = Ok p <-> dget k d = Some p.
Proof. unfold dget_or_raise. destruct (dget k d); naive_solver. Qed.

(** Looking up every key of a dictionary lists its values. *)
Lemma omap_dget_keys {V} (d : list (string * V)) :
  NoDup d.*1 -> omap (fun k => dget k d) d.*1 = d.*2.
Proof.
  intros Hnd. induction d as [|[k v] d IH]; [done|]. apply NoDup_cons in Hnd as [Hn Hnd]. cbn.
  rewrite decide_True by done. f_equal. rewrite <- (IH Hnd). clear IH Hnd. change (k ∉ d.*1) in Hn.
  revert Hn. generalize (d.*1) as ks. intros ks Hn.
  induction ks as [|k' ks IHk]; [done|]. apply not_elem_of_cons in Hn as [Hne Hn]. cbn.
  rewrite decide_False by done. by rewrite IHk.
Qed.

(** The default order lists every key of the roots once. *)
Definition default_order (roots : list (string * path)) : list string :=
  List.filter (fun k => bool_decide (k ∈ roots.*1)) ["worktrees"; "community"; "enterprise"] ++
  sorted_str (List.filter (starts_with "custom/") roots.*1).

Lemma filter_elem {A} (f : A -> bool) l x : x ∈ List.filter f l <-> x ∈ l /\ f x = true.
Proof. rewrite !list_elem_of_In. apply filter_In. Qed.

Lemma filter_NoDup {A} (f : A -> bool) l : NoDup l -> NoDup (List.filter f l).
Proof. rewrite !NoDup_ListNoDup. apply List.NoDup_filter. Qed.

Lemma addons_root_order_perm base m :
  wf_manifest m ->
  addons_root_order m (build_mount_roots base (Some m)) ≡ₚ (build_mount_roots base (Some m)).*1.
Proof.
  intros Hwf. destruct (build_mount_roots_spec base m) as [Hnd Hin].
  set (roots := build_mount_roots base (Some m)) in *.
  assert (Hsys : forall k, k ∈ SYSTEM_MOUNT_ROOTS -> starts_with "custom/" k = false).
  { unfold SYSTEM_MOUNT_ROOTS. intros k. rewrite !elem_of_cons, elem_of_nil.
    intros H. destruct_or?; subst; done. }
  assert (Hdef : forall k, k ∈ default_order roots <-> k ∈ roots.*1).
  { intros k. unfold default_order. rewrite elem_of_app, sorted_str_perm, !filter_elem.
    change (["worktrees"; "community"; "enterprise"]) with SYSTEM_MOUNT_ROOTS.
    rewrite bool_decide_eq_true. split; [tauto|]. intros Hk.
    destruct (decide (k ∈ SYSTEM_MOUNT_ROOTS)); [by left|right]. split; [done|].
    apply root_keys in Hk. unfold valid_mount_roots in Hk. apply elem_of_app in Hk as [?|Hk]; [done|].
    apply list_elem_of_fmap in Hk as (l & -> & _). reflexivity. }
  apply NoDup_Permutation; [|done|].
  - unfold addons_root_order. apply NoDup_app. split_and!.
    + by apply wf_priority_unique.
    + intros k Hk [_ Hn]%filter_elem. by rewrite bool_decide_true in Hn.
    + apply filter_NoDup. apply NoDup_app. split_and!.
      * apply filter_NoDup. apply (bool_decide_unpack _). vm_compute. done.
      * intros k [Hk _]%filter_elem Hk2. rewrite sorted_str_perm in Hk2.
        apply filter_elem in Hk2 as [_ Hk2]. by rewrite Hsys in Hk2.
      * rewrite sorted_str_perm. by apply filter_NoDup.
  - intros k. unfold addons_root_order. rewrite elem_of_app, filter_elem.
    fold (default_order roots). rewrite Hdef, negb_true_iff, bool_decide_eq_false. split.
    + intros [Hk|[? _]]; [|done]. apply root_keys. by apply (wf_priority_known m Hwf).
    + intros Hk. destruct (decide (k ∈ m_mount_priority m)); tauto.
Qed.

(** For a validated manifest the runtime add-on order never fails: it starts with the
    roots of [mount_priority] in the declared order and then lists every remaining mount
    root, none twice, so that the declaration reorders the roots without losing one. *)
Theorem ordered_addons_roots_total m base :
  wf_manifest m ->
  exists ps, ordered_addons_roots m base = Ok ps /\
    ps ≡ₚ (build_mount_roots base (Some m)).*2 /\
    Forall2 (fun k p => dget k (build_mount_roots base (Some m)) = Some p)
      (m_mount_priority m) (take (length (m_mount_priority m)) ps).
Proof.
  intros Hwf. pose proof (addons_root_order_perm base m Hwf) as Hperm. unfold ordered_addons_roots.
  set (roots := build_mount_roots base (Some m)) in *.
  destruct (build_mount_roots_spec base m) as [Hnd _]. fold roots in Hnd.
  destruct (result_map_total (fun k => dget_or_raise k roots) (addons_root_order m roots)) as [ps Hps].
  { intros k Hk. rewrite Hperm in Hk. apply dget_is_Some in Hk as [p Hp]. exists p.
    by apply dget_or_raise_Ok. }
  exists ps. split; [done|]. apply result_map_Ok in Hps.
  assert (Hd : Forall2 (fun k p => dget k roots = Some p) (addons_root_order m roots) ps).
  { eapply Forall2_impl; [done|]. intros k p. apply dget_or_raise_Ok. }
  split.
  - assert (ps = omap (fun k => dget k roots) (addons_root_order m roots)) as ->.
    { clear -Hd. clearbody roots. induction Hd as [|k p ks ps H _ IH]; [done|]. cbn. by rewrite H, IH at 1. }
    by rewrite Hperm, omap_dget_keys.
  - pose proof (Forall2_take _ _ _ (length (m_mount_priority m)) Hd) as Ht.
    unfold addons_root_order in Ht. by rewrite take_app_length in Ht.
Qed.

Lemma ordered_addons_roots_total_witness :
  exists ps, ordered_addons_roots sample_manifest (path_of "/mnt") = Ok ps /\
    map path_str ps =
    ["/mnt/custom/vendor"; "/mnt/worktrees"; "/mnt/community"; "/mnt/enterprise"; "/mnt/custom/default"].
Proof.
  destruct (ordered_addons_roots_total sample_manifest (path_of "/mnt") sample_manifest_wf) as (ps & H & _).
  exists ps. split; [exact H|]. revert H. vm_compute. intros [= <-]. reflexivity.
Defined.
