(* ===== verification/ProjectionFacts.v ===== *)
(** * Properties of workspace projection *)

From S2P Require Import Prelude Effects Values Paths Schema Urls Composition Json Lock Projection Samples LockFacts RootFacts.

(** ** Materialised state, read as a function *)

Definition table_commit (t : layer_table) (layer url : string) : option string :=
  match dget layer t with
  | Some d => mr_commit <$> dget url d
  | None => None
  end.

(** The commit a state reports for a repository, looked up the way drift does. *)
Definition state_commit (st : MaterializedState) (layer url : string) : option string :=
  match dget layer (dict_of (map (fun l => (ml_name l, l)) (ms_layers st))) with
  | Some l => mr_commit <$> dget url (dict_of (map (fun r => (mr_url r, r)) (ml_repos l)))
  | None => None
  end.

(** The scan facts attributed to a layer, split by kind of root. *)
Definition attributed (roots : list (string * path)) (worktree : bool) (r : ScannedRepo)
    : option (string * ScannedRepo) :=
  match match_root_and_layer (sc_path r) roots with
  | Some (root_name, layer) =>
    if eqb worktree (bool_decide (root_name = "worktrees")) then Some (layer, r) else None
  | None => None
  end.
Definition entries (roots : list (string * path)) (worktree : bool) (scanned : list ScannedRepo)
    : list (string * ScannedRepo) := omap (attributed roots worktree) scanned.

(** The commit of the last entry for a repository. *)
Definition last_commit (es : list (string * ScannedRepo)) (layer url : string) : option string :=
  foldl (fun acc e => if decide (e.1 = layer /\ sc_url e.2 = url) then Some (sc_commit e.2) else acc)
    None es.

Definition wf_table (t : layer_table) : Prop :=
  NoDup t.*1 /\
  forall layer d, (layer, d) ∈ t -> NoDup d.*1 /\ forall u r, (u, r) ∈ d -> mr_url r = u.

Definition state_of_table (t : layer_table) : MaterializedState :=
  mkMaterializedState (map (fun l => mkMaterializedLayer l.1 (map snd l.2)) t).

Lemma elem_of_dset {K V} `{EqDecision K} k v k' v' (d : list (K * V)) :
  (k', v') ∈ dset k v d -> (k' = k /\ v' = v) \/ (k', v') ∈ d.
Proof.
  induction d as [|[k1 v1] d IH]; cbn.
  - rewrite list_elem_of_singleton. intros [= -> ->]. by left.
  - case_decide; rewrite !elem_of_cons; intuition congruence.
Qed.

Lemma wf_record_repo t layer r : wf_table t -> wf_table (record_repo t layer r).
Proof.
  intros [Hnd Hin]. split; [by apply dset_NoDup|].
  assert (Hd : NoDup (default [] (dget layer t)).*1 /\
    forall u r', (u, r') ∈ default [] (dget layer t) -> mr_url r' = u).
  { destruct (dget layer t) as [d|] eqn:E; cbn; [by apply (Hin layer), dget_Some_elem|].
    split; [apply NoDup_nil_2|]. intros u r' H. by apply elem_of_nil in H. }
  destruct Hd as [Hd1 Hd2].
  intros l d [[-> ->]|H]%elem_of_dset; [|eauto]. split; [by apply dset_NoDup|].
  intros u r' [[-> ->]|H]%elem_of_dset; eauto.
Qed.

Lemma table_commit_record t l r layer url :
  table_commit (record_repo t l r) layer url =
  if decide (l = layer /\ sc_url r = url) then Some (sc_commit r) else table_commit t layer url.
Proof.
  unfold table_commit, record_repo. rewrite dget_dset.
  destruct (decide (layer = l)) as [->|Hne]; [|by rewrite decide_False by intuition congruence].
  rewrite dget_dset. destruct (decide (url = sc_url r)) as [->|Hu].
  - by rewrite decide_True.
  - rewrite decide_False by intuition congruence. by destruct (dget l t).
Qed.

Lemma state_of_table_commit t layer url :
  wf_table t -> state_commit (state_of_table t) layer url = table_commit t layer url.
Proof.
  intros [Hnd Hin]. unfold state_commit, table_commit, state_of_table.
  cbn -[dict_of]. rewrite map_map. cbn -[dict_of].
  rewrite dict_of_id by (rewrite <- list_fmap_compose; exact Hnd).
  clear Hnd. induction t as [|[l d] t IH]; [done|]. cbn -[dict_of]. case_decide; cbn -[dict_of].
  - destruct (Hin l d) as [Hd Hu]; [by left|]. rewrite map_map. f_equal.
    assert (map (fun x : string * MaterializedRepo => (mr_url x.2, x.2)) d = d) as ->.
    { clear -Hu. induction d as [|[u r] d IHd]; [done|]. cbn.
      rewrite (Hu u r) by (by left). f_equal. apply IHd. intros. apply Hu. by right. }
    by rewrite dict_of_id.
  - apply IH. intros. apply (Hin layer0). by right.
Qed.

Lemma fold_record_commit es t layer url :
  table_commit (foldl (fun d e => record_repo d e.1 e.2) t es) layer url =
  match last_commit es layer url with Some c => Some c | None => table_commit t layer url end.
Proof.
  induction es as [|e es IH] using rev_ind; [done|].
  unfold last_commit in *. rewrite !foldl_app. cbn. rewrite table_commit_record, IH.
  by case_decide.
Qed.

Lemma fold_record_wf es t : wf_table t -> wf_table (foldl (fun d e => record_repo d e.1 e.2) t es).
Proof. revert t. induction es as [|e es IH]; intros t H; cbn; [done|]. by apply IH, wf_record_repo. Qed.

Lemma entries_cons roots w r rest :
  entries roots w (r :: rest) =
  match attributed roots w r with Some e => e :: entries roots w rest | None => entries roots w rest end.
Proof. reflexivity. Qed.

Lemma attributed_match roots r root layer w :
  match_root_and_layer (sc_path r) roots = Some (root, layer) ->
  attributed roots w r = if eqb w (bool_decide (root = "worktrees")) then Some (layer, r) else None.
Proof. intros E. unfold attributed. by rewrite E. Qed.

Lemma classify_scan_Ok roots scanned t w t' w' :
  classify_scan roots scanned t w = Ok (t', w') <->
  (forall r, r ∈ scanned -> is_Some (match_root_and_layer (sc_path r) roots)) /\
  t' = foldl (fun d e => record_repo d e.1 e.2) t (entries roots false scanned) /\
  w' = w ++ entries roots true scanned.
Proof.
  revert t w. induction scanned as [|r rest IH]; intros t w.
  - cbn. rewrite app_nil_r. split; [|by intros (_ & -> & ->)]. intros [= -> ->].
    split; [|done]. intros r Hr. by apply elem_of_nil in Hr.
  - setoid_rewrite elem_of_cons. cbn [classify_scan]. rewrite !entries_cons.
    destruct (match_root_and_layer (sc_path r) roots) as [[root layer]|] eqn:E.
    + rewrite !(attributed_match _ _ _ _ _ E).
      assert (Hin : (forall r0, r0 = r \/ r0 ∈ rest -> is_Some (match_root_and_layer (sc_path r0) roots)) <->
                    forall r0, r0 ∈ rest -> is_Some (match_root_and_layer (sc_path r0) roots)).
      { split; [auto|]. intros H r0 [->|?]; eauto. }
      rewrite Hin. by destruct (bool_decide (root = "worktrees")); cbn; rewrite IH, <- ?app_assoc.
    + split; [done|]. intros [H _]. destruct (H r) as [? Hr]; [by left|]. by rewrite E in Hr.
Qed.

Lemma materialize_state_Ok scanned roots st :
  materialize_state scanned roots = Ok st <->
  (forall r, r ∈ scanned -> is_Some (match_root_and_layer (sc_path r) roots)) /\
  st = state_of_table (foldl (fun d e => record_repo d e.1 e.2) []
         (entries roots false scanned ++ entries roots true scanned)).
Proof.
  unfold materialize_state. rewrite foldl_app. split.
  - intros ([t w] & H & [= <-])%result_bind_Ok. apply classify_scan_Ok in H as (H & -> & ->). done.
  - intros [H ->]. apply result_bind_Ok. eexists (_, _). split; [by apply classify_scan_Ok|done].
Qed.

Lemma wf_table_nil : wf_table [].
Proof. split; [apply NoDup_nil_2|]. intros l d H. by apply elem_of_nil in H. Qed.

(** The materialised state reports, for every repository, the commit of its last worktree
    checkout when there is one and of its last read-only checkout otherwise, whatever
    the order of the scan. *)
Theorem materialize_state_worktree_wins scanned roots st layer url :
  materialize_state scanned roots = Ok st ->
  state_commit st layer url =
  match last_commit (entries roots true scanned) layer url with
  | Some c => Some c
  | None => last_commit (entries roots false scanned) layer url
  end.
Proof.
  intros [_ ->]%materialize_state_Ok.
  rewrite state_of_table_commit by (apply fold_record_wf, wf_table_nil).
  rewrite foldl_app, !fold_record_commit. by destruct (last_commit (entries roots false scanned) layer url).
Qed.

Lemma materialize_state_worktree_wins_witness :
  state_commit sample_state "oca" "git@github.com:acme/web.git" = Some "c-17.0-fix".
Proof.
  rewrite (materialize_state_worktree_wins sample_scan (default_container_roots sample_manifest));
    vm_compute; reflexivity.
Defined.

(** ** Plans *)

(** The repositories a lock pins, in order. *)
Definition locked_repos (lk : Lockfile) : list (identity * string) :=
  concat (map (fun l => map (fun r => ((rl_name l, rr_url r), rr_commit r)) (rl_repos l)) (lk_git_layers lk)).

Definition step_fact (s : WorkspacePlanEntry) : identity * string := (step_identity s, we_commit s).

(** The two singleton layers, the dictionary the custom layers are added to. *)
Definition singletons (m : Manifest) : list (string * AnyLayer) :=
  ("core", ACore (m_core m)) ::
  match m_enterprise m with Some e => [("enterprise", AEnterprise e)] | None => [] end.

Definition add_layers (d : list (string * AnyLayer)) (ls : list Layer) : list (string * AnyLayer) :=
  foldl (fun d l => dset (layer_name l) (ALayer l) d) d ls.

Lemma manifest_layers_by_name_eq m : manifest_layers_by_name m = add_layers (singletons m) (m_layers m).
Proof. unfold manifest_layers_by_name, singletons. by destruct (m_enterprise m). Qed.

Lemma add_layers_keys d ls n : n ∈ (add_layers d ls).*1 <-> n ∈ d.*1 \/ n ∈ map layer_name ls.
Proof.
  unfold add_layers. revert d. induction ls as [|l0 ls IH]; intros d; cbn; [rewrite elem_of_nil; tauto|].
  rewrite IH, dset_keys_elem, elem_of_cons. tauto.
Qed.

Lemma add_layers_elem d ls n l :
  (n, l) ∈ add_layers d ls -> (n, l) ∈ d \/ exists l', l = ALayer l' /\ l' ∈ ls.
Proof.
  unfold add_layers. revert d. induction ls as [|l0 ls IH]; intros d; cbn; [auto|].
  intros [[[-> ->]|H]%elem_of_dset|(l' & -> & H)]%IH; [right|by left|right].
  - exists l0. rewrite elem_of_cons. auto.
  - exists l'. rewrite elem_of_cons. auto.
Qed.

(** A locked layer denotes something whose root exists and is never [worktrees]. *)
Definition rooted (m : Manifest) (l : AnyLayer) : Prop :=
  classify_root l ∈ valid_mount_roots m /\ classify_root l ≠ "worktrees".

Lemma singletons_rooted m n l : (n, l) ∈ singletons m -> rooted m l.
Proof.
  unfold singletons, rooted, valid_mount_roots, SYSTEM_MOUNT_ROOTS.
  rewrite elem_of_cons, elem_of_app. intros [[= -> ->]|H].
  - cbn. rewrite !elem_of_cons. auto.
  - destruct (m_enterprise m); [|by apply elem_of_nil in H].
    apply list_elem_of_singleton in H as [= -> ->]. cbn. rewrite !elem_of_cons. auto 6.
Qed.

Lemma layers_rooted m l : l ∈ m_layers m -> rooted m (ALayer l).
Proof.
  intros H. split; [|done]. unfold valid_mount_roots. apply elem_of_app. right.
  by apply (list_elem_of_fmap_2 (fun l => custom_root_key (layer_category l))).
Qed.

Lemma expected_git_names m n :
  n ∈ (expected_git m).*1 -> n ∈ (singletons m).*1 \/ n ∈ map layer_name (m_layers m).
Proof.
  unfold expected_git, singletons. rewrite !fmap_app, !elem_of_app. cbn [fmap list_fmap fst].
  rewrite !elem_of_cons, elem_of_nil. intros [H|[H|H]].
  - tauto.
  - destruct (m_enterprise m); [|by apply elem_of_nil in H]. auto.
  - right. apply list_elem_of_fmap in H as ([n' rs] & -> & H).
    apply list_elem_of_omap in H as ([?|g] & Hl & [= <- <-]).
    by apply (list_elem_of_fmap_2 layer_name) in Hl.
Qed.

Lemma manifest_layers_by_name_spec m n :
  n ∈ (expected_git m).*1 -> exists l, dget n (manifest_layers_by_name m) = Some l /\ rooted m l.
Proof.
  intros Hn%expected_git_names. rewrite <- add_layers_keys, <- manifest_layers_by_name_eq in Hn.
  apply dget_is_Some in Hn as [l Hl]. exists l. split; [done|].
  apply dget_Some_elem in Hl. rewrite manifest_layers_by_name_eq in Hl.
  apply add_layers_elem in Hl as [H|(l' & -> & H)]; [by eapply singletons_rooted|by apply layers_rooted].
Qed.

Lemma plan_layer_total m base l :
  rl_name l ∈ (expected_git m).*1 ->
  exists steps, plan_layer (manifest_layers_by_name m) (build_mount_roots base (Some m)) l = Ok steps /\
    map step_fact steps = map (fun r => ((rl_name l, rr_url r), rr_commit r)) (rl_repos l) /\
    forall s, s ∈ steps -> we_mount_root s ≠ "worktrees" /\
      exists b, dget (we_mount_root s) (build_mount_roots base (Some m)) = Some b /\
                we_target_path s = div (div b (we_layer s)) (repo_name (we_url s)).
Proof.
  intros Hn. destruct (manifest_layers_by_name_spec m _ Hn) as (a & Ha & Hroot & Hw).
  unfold plan_layer. rewrite Ha. apply root_keys with (base := base), dget_is_Some in Hroot as [b Hb].
  exists (map (fun r => mkWorkspacePlanEntry (classify_root a) (rl_name l) (rr_url r) (rr_commit r)
            (div (div b (rl_name l)) (repo_name (rr_url r)))) (rl_repos l)). split_and!.
  - apply result_map_Ok. unfold dget_or_raise. rewrite Hb. cbn.
    induction (rl_repos l); constructor; auto.
  - rewrite map_map. done.
  - intros s (r & -> & _)%list_elem_of_fmap. cbn. eauto.
Qed.

Lemma concat_elem {A} (x : A) (ls : list (list A)) : x ∈ concat ls <-> exists l, l ∈ ls /\ x ∈ l.
Proof. rewrite list_elem_of_In, in_concat. setoid_rewrite <- list_elem_of_In. done. Qed.

Lemma locked_repos_elem lk i c :
  (i, c) ∈ locked_repos lk <->
  exists l r, l ∈ lk_git_layers lk /\ r ∈ rl_repos l /\ i = (rl_name l, rr_url r) /\ c = rr_commit r.
Proof.
  unfold locked_repos. rewrite concat_elem. setoid_rewrite list_elem_of_fmap. split.
  - intros (? & (l & -> & Hl) & H). apply list_elem_of_fmap in H as (r & [= -> ->] & Hr). eauto 6.
  - intros (l & r & Hl & Hr & -> & ->). eexists. split; [by exists l|].
    apply list_elem_of_fmap. eauto.
Qed.

Lemma plan_steps m base lk :
  validate_lock_structure m lk = Ok tt ->
  exists plan, plan_projection m lk (Some (build_mount_roots base (Some m))) = Ok plan /\
    map step_fact plan = locked_repos lk /\
    forall s, s ∈ plan -> we_mount_root s ≠ "worktrees" /\
      exists b, dget (we_mount_root s) (build_mount_roots base (Some m)) = Some b /\
                we_target_path s = div (div b (we_layer s)) (repo_name (we_url s)).
Proof.
  intros (_ & Hg & _)%validate_lock_structure_Ok. unfold plan_projection, locked_repos. cbn [default from_option id].
  assert (Hall : forall l, l ∈ lk_git_layers lk -> rl_name l ∈ (expected_git m).*1).
  { intros l Hl. rewrite Hg. unfold actual_git. rewrite <- list_fmap_compose.
    by apply (list_elem_of_fmap_2 rl_name). }
  clear Hg. induction (lk_git_layers lk) as [|l ls IH]; cbn [map concat result_map].
  - exists []. split_and!; [done..|]. intros s Hs. by apply elem_of_nil in Hs.
  - destruct (plan_layer_total m base l) as (st & Hst & Hf & Hs); [apply Hall; by left|].
    destruct IH as (plan & Hp & Hpf & Hps); [intros; apply Hall; by right|].
    rewrite Hst. cbn [result_bind]. apply result_bind_Ok in Hp as (steps & Hsteps & [= <-]). rewrite Hsteps.
    cbn [result_bind concat].
    eexists. split_and!; [done| |].
    + by rewrite map_app, Hf, Hpf.
    + intros s [?|?]%elem_of_app; auto.
Qed.

(** A lock that passes the structural validation can always be planned: no layer is
    unmatched and no mount root is missing, the plan lists exactly the locked repositories
    with their commits in lock order, none is planned into the worktrees root, and every
    target lies at [<root>/<layer>/<repo>]. *)
Theorem plan_projection_total m lk :
  validate_lock_structure m lk = Ok tt ->
  exists plan, plan_projection m lk None = Ok plan /\
    map step_fact plan = locked_repos lk /\
    forall s, s ∈ plan -> we_mount_root s ≠ "worktrees" /\
      exists b, dget (we_mount_root s) (default_container_roots m) = Some b /\
                we_target_path s = div (div b (we_layer s)) (repo_name (we_url s)).
Proof. apply plan_steps. Qed.

Lemma plan_projection_total_witness :
  exists plan, plan_projection sample_manifest sample_lock None = Ok plan /\
    map step_fact plan = locked_repos sample_lock.
Proof.
  destruct (plan_projection_total sample_manifest sample_lock) as (plan & H1 & H2 & _);
    [vm_compute; reflexivity|]. exists plan. exact (conj H1 H2).
Defined.

(** ** Drift between a lock and a scan *)

(** The scan found something at [<root>/<layer>/...]. *)
Definition scanned_in (scanned : list ScannedRepo) (roots : list (string * path)) (layer : string) : Prop :=
  exists r root, r ∈ scanned /\ match_root_and_layer (sc_path r) roots = Some (root, layer).
(** The commit the scan shows for a repository of a layer: the one of its last checkout below
    the worktrees, else of its last read-only checkout. *)
Definition observed (scanned : list ScannedRepo) (roots : list (string * path)) (layer url : string) : option string :=
  match last_commit (entries roots true scanned) layer url with
  | Some c => Some c
  | None => last_commit (entries roots false scanned) layer url
  end.
(** What the scan shows against the lock. *)
Inductive deviates (lk : Lockfile) (scanned : list ScannedRepo) (roots : list (string * path)) : DriftEntry -> Prop :=
| layer_missing l : l ∈ lk_git_layers lk -> ~ scanned_in scanned roots (rl_name l) ->
    deviates lk scanned roots (mkDriftEntry not_materialized (Some (rl_name l)) None None None)
| repository_missing l r : l ∈ lk_git_layers lk -> scanned_in scanned roots (rl_name l) -> r ∈ rl_repos l ->
    observed scanned roots (rl_name l) (rr_url r) = None ->
    deviates lk scanned roots (mkDriftEntry not_materialized (Some (rl_name l)) (Some (rr_url r)) None None)
| other_commit l r c : l ∈ lk_git_layers lk -> r ∈ rl_repos l ->
    observed scanned roots (rl_name l) (rr_url r) = Some c -> c <> rr_commit r ->
    deviates lk scanned roots (mkDriftEntry commit_mismatch (Some (rl_name l)) (Some (rr_url r)) (Some (rr_commit r)) (Some c)).

Lemma fold_record_keys es t layer :
  layer ∈ (foldl (fun d e => record_repo d e.1 e.2) t es).*1 <-> layer ∈ t.*1 \/ layer ∈ es.*1.
Proof.
  revert t. induction es as [|e es IH]; intros t; cbn [foldl]; [rewrite elem_of_nil; tauto|].
  rewrite IH. unfold record_repo at 1. rewrite dset_keys_elem. cbn. rewrite elem_of_cons. tauto.
Qed.
Lemma entries_keys roots w scanned layer :
  layer ∈ (entries roots w scanned).*1 <->
  exists r root, r ∈ scanned /\ match_root_and_layer (sc_path r) roots = Some (root, layer) /\ w = bool_decide (root = "worktrees").
Proof.
  unfold entries. rewrite list_elem_of_fmap. setoid_rewrite list_elem_of_omap. unfold attributed. split.
  - intros ([l r'] & -> & r & Hin & H). destruct (match_root_and_layer (sc_path r) roots) as [[root layer']|] eqn:E; [|done].
    destruct (eqb w _) eqn:Ew; [|done]. injection H as -> ->. apply eqb_prop in Ew. cbn. eauto.
  - intros (r & root & Hin & E & ->). exists (layer, r). split; [done|]. exists r. split; [done|]. by rewrite E, eqb_reflx.
Qed.

(** The layers of the state are those of the scan. *)
Lemma state_layer scanned roots st layer :
  materialize_state scanned roots = Ok st ->
  is_Some (dget layer (dict_of (map (fun l => (ml_name l, l)) (ms_layers st)))) <-> scanned_in scanned roots layer.
Proof.
  intros [_ ->]%materialize_state_Ok. rewrite dget_is_Some, dict_of_keys. unfold state_of_table. cbn -[foldl].
  rewrite map_map, <- list_fmap_compose.
  change (layer ∈ (foldl (fun d e => record_repo d e.1 e.2) [] (entries roots false scanned ++ entries roots true scanned)).*1 <->
    scanned_in scanned roots layer).
  rewrite fold_record_keys, fmap_app, elem_of_app, !entries_keys. unfold scanned_in. split.
  - intros [[]%elem_of_nil|[(r & root & ? & ? & _)|(r & root & ? & ? & _)]]; eauto.
  - intros (r & root & ? & ?). right. destruct (bool_decide (root = "worktrees")) eqn:E; [right|left]; eauto.
Qed.

Lemma last_commit_elem es layer url c : last_commit es layer url = Some c -> layer ∈ es.*1.
Proof.
  unfold last_commit. induction es as [|e es IH] using rev_ind; [done|]. rewrite foldl_app, fmap_app, elem_of_app. cbn.
  case_decide as H; [destruct H as [<- _]; intros _; right; by left|]. auto.
Qed.
Lemma observed_scanned scanned roots layer url c : observed scanned roots layer url = Some c -> scanned_in scanned roots layer.
Proof.
  unfold observed. destruct (last_commit (entries roots true scanned) layer url) eqn:E; intros H;
    [apply last_commit_elem in E as E'|apply last_commit_elem in H as E'];
    apply entries_keys in E' as (r & root & ? & ? & _); by exists r, root.
Qed.
Lemma classify_scan_Err roots scanned t w x :
  classify_scan roots scanned t w = Err x ->
  exists r, r ∈ scanned /\ match_root_and_layer (sc_path r) roots = None /\ x = scan_error (sc_path r).
Proof.
  revert t w. induction scanned as [|r rest IH]; intros t w; [done|]. cbn [classify_scan].
  destruct (match_root_and_layer (sc_path r) roots) as [[root layer]|] eqn:E.
  - case_match; intros (r' & ? & ?)%IH; exists r'; (split; [by right|done]).
  - intros [= <-]. exists r. split; [by left|done].
Qed.

(** One layer, looked up in the state the scan became. *)
Lemma layer_drift_elem scanned roots st l e :
  materialize_state scanned roots = Ok st ->
  let by_name := dict_of (map (fun l => (ml_name l, l)) (ms_layers st)) in
  e ∈ layer_drift by_name l <->
  (~ scanned_in scanned roots (rl_name l) /\ e = mkDriftEntry not_materialized (Some (rl_name l)) None None None) \/
  (scanned_in scanned roots (rl_name l) /\ exists r, r ∈ rl_repos l /\
     match observed scanned roots (rl_name l) (rr_url r) with
     | None => e = mkDriftEntry not_materialized (Some (rl_name l)) (Some (rr_url r)) None None
     | Some c => c <> rr_commit r /\
         e = mkDriftEntry commit_mismatch (Some (rl_name l)) (Some (rr_url r)) (Some (rr_commit r)) (Some c)
     end).
Proof.
  intros Hst by_name. rewrite <- (state_layer _ _ _ _ Hst). fold by_name.
  assert (Ho : forall url, observed scanned roots (rl_name l) url =
    match dget (rl_name l) by_name with
    | Some l' => mr_commit <$> dget url (dict_of (map (fun r => (mr_url r, r)) (ml_repos l')))
    | None => None
    end) by (intros url; symmetry; exact (materialize_state_worktree_wins _ _ _ _ _ Hst)).
  setoid_rewrite Ho. unfold layer_drift. clear Ho. destruct (dget (rl_name l) by_name) as [l'|].
  - rewrite list_elem_of_In, in_concat. setoid_rewrite in_map_iff. split.
    + intros (d & (r & <- & Hr) & He). right. split; [eauto|]. exists r. split; [by apply list_elem_of_In|].
      unfold repo_drift in He. destruct (dget _ _) as [mr|]; cbn; [case_bool_decide; [done|]; destruct He as [<-|[]]; done|by destruct He as [<-|[]]].
    + intros [[[] _]|(_ & r & Hr & H)]; [eauto|]. exists (repo_drift (rl_name l) (dict_of (map (fun r => (mr_url r, r)) (ml_repos l'))) r).
      split; [exists r; split; [done|by apply list_elem_of_In]|]. unfold repo_drift. destruct (dget _ _) as [mr|]; cbn in *; [|by left].
      destruct H as [Hc ->]. rewrite bool_decide_false by done. by left.
  - rewrite list_elem_of_singleton. split; [intros ->; left; split; [by intros []|done]|]. intros [[_ ->]|[[] _]]; done.
Qed.

(** C11. The drift of a lock is exact.  Reading a scan fails exactly when a checkout lies
    outside the layout of the mount roots; otherwise the reported entries are exactly the
    deviations of the scan from the lock: a locked layer in which nothing was found, a locked
    repository that was not found in a layer where something was, and a locked repository
    whose last worktree checkout, or else whose last read-only checkout, is at another commit. *)
Theorem lock_drift_is_exact scanned roots lk :
  match materialize_state scanned roots with
  | Ok st => (forall r, r ∈ scanned -> is_Some (match_root_and_layer (sc_path r) roots)) /\
      forall e, e ∈ compute_lock_state_drift (Some lk) (Some st) <-> deviates lk scanned roots e
  | Err x => exists r, r ∈ scanned /\ match_root_and_layer (sc_path r) roots = None /\ x = scan_error (sc_path r)
  end.
Proof.
  destruct (materialize_state scanned roots) as [st|x] eqn:Hst.
  - split; [by apply materialize_state_Ok in Hst as [? _]|]. intros e. unfold compute_lock_state_drift.
    rewrite list_elem_of_In, in_concat. setoid_rewrite in_map_iff. split.
    + intros (d & (l & <- & Hl%list_elem_of_In) & He%list_elem_of_In). apply (layer_drift_elem _ _ _ _ _ Hst) in He.
      destruct He as [[Hn ->]|(Hs & r & Hr & H)]; [by constructor|].
      destruct (observed _ _ _ _) as [c|] eqn:Eo; [destruct H as [Hc ->]|subst e]; econstructor; eassumption.
    + intros H. assert (exists l, l ∈ lk_git_layers lk /\ e ∈ layer_drift (dict_of (map (fun l => (ml_name l, l)) (ms_layers st))) l) as (l & Hl & He).
      { destruct H as [l Hl Hn|l r Hl Hs Hr Ho|l r c Hl Hr Ho Hc]; exists l; (split; [done|]); apply (layer_drift_elem _ _ _ _ _ Hst).
        - left. by split.
        - right. split; [done|]. exists r. split; [done|]. by rewrite Ho.
        - right. split; [by eapply observed_scanned|]. exists r. split; [done|]. by rewrite Ho. }
      eexists. split; [exists l; split; [done|by apply list_elem_of_In]|by apply list_elem_of_In].
  - unfold materialize_state in Hst. destruct (classify_scan roots scanned [] []) as [[t w]|y] eqn:E; cbn in Hst; [done|].
    injection Hst as ->. by eapply classify_scan_Err.
Qed.

(** A core checkout at another commit, and nothing else. *)
Example drift_of_one_checkout :
  (let! st := materialize_state [mkScannedRepo (mkPath "/" ["mnt"; "community"; "core"; "odoo"]) "https://github.com/odoo/odoo.git" "c-16.0"]
                (default_container_roots sample_manifest) in
   Ok (compute_lock_state_drift (Some sample_lock) (Some st))) =
  Ok [mkDriftEntry commit_mismatch (Some "core") (Some "https://github.com/odoo/odoo.git") (Some "c-17.0") (Some "c-16.0");
      mkDriftEntry not_materialized (Some "enterprise") None None None;
      mkDriftEntry not_materialized (Some "oca") None None None].
Proof. vm_compute. reflexivity. Qed.
