(* ===== verification/MountFacts.v ===== *)
(** * Properties of the mount planning view

    [build_mount_planning_view] gathers the scanned evidence of every locked repository
    and selects one authoritative bind mount each. *)

From S2P Require Import Prelude Effects Values Paths Schema Urls Composition Json Lock Projection Samples LockFacts RootFacts ProjectionFacts.

(** ** Dictionaries that lost nothing *)

Lemma dset_length {K V} `{EqDecision K} (k : K) (v : V) d :
  length (dset k v d) = if decide (k ∈ d.*1) then length d else S (length d).
Proof.
  induction d as [|[k' v'] d IH]; [done|]. cbn [dset].
  change ((k', v') :: d).*1 with (k' :: d.*1). destruct (decide (k = k')) as [->|E].
  - rewrite decide_True; [done|]. by left.
  - cbn [length]. rewrite IH. clear IH.
    destruct (decide (k ∈ d.*1)) as [H|H].
    + rewrite decide_True; [done|]. by right.
    + rewrite decide_False; [done|]. rewrite elem_of_cons. tauto.
Qed.

Lemma dict_of_length_le {K V} `{EqDecision K} (l : list (K * V)) : length (dict_of l) <= length l.
Proof.
  induction l as [|kv l IH] using rev_ind; [done|]. rewrite dict_of_snoc, dset_length, length_app. cbn.
  case_decide; lia.
Qed.

(** A dictionary as long as the pairs it was built from lost no pair. *)
Lemma dict_of_length_NoDup {K V} `{EqDecision K} (l : list (K * V)) :
  length (dict_of l) = length l -> NoDup l.*1.
Proof.
  induction l as [|[k v] l IH] using rev_ind; [intros _; apply NoDup_nil_2|].
  rewrite dict_of_snoc, dset_length, length_app. cbn [fst snd length]. pose proof (dict_of_length_le l).
  case_decide as E; [lia|]. intros H'. rewrite fmap_app. apply NoDup_app.
  split_and!; [apply IH; lia| |apply NoDup_singleton].
  intros x Hx Hx'. apply list_elem_of_singleton in Hx' as ->. apply E. by apply dict_of_keys.
Qed.

(** ** The sources gathered from a scan *)

(** [r] is evidence of kind [w] (worktree or read-only) for the repository [i]. *)
Definition evidence (roots : list (string * path)) (w : bool) (i : identity) (r : ScannedRepo) : Prop :=
  sc_url r = i.2 /\
  exists root, match_root_and_layer (sc_path r) roots = Some (root, i.1) /\
               w = bool_decide (root = "worktrees").

Definition source_of (sources : list (identity * Sources)) (i : identity) (w : bool) : option ScannedRepo :=
  let s := default no_sources (dget i sources) in
  if w then src_worktree s else src_read_only s.

Lemma evidence_fun roots w w' i i' r : evidence roots w i r -> evidence roots w' i' r -> w = w' /\ i = i'.
Proof.
  intros (Hu & k & Hk & ->) (Hu' & k' & Hk' & ->). rewrite Hk in Hk'. injection Hk' as <- Hi.
  split; [done|]. destruct i, i'. cbn in *. congruence.
Qed.

Lemma scan_one_Ok expected roots src r src' :
  scan_one expected roots src r = Ok src' ->
  exists w i, evidence roots w i r /\ i ∈ expected.*1 /\ source_of src i w = None /\
    forall i' w', source_of src' i' w' = if decide (i' = i /\ w' = w) then Some r else source_of src i' w'.
Proof.
  unfold scan_one. destruct (match_root_and_layer (sc_path r) roots) as [[root layer]|] eqn:E; [|done].
  destruct (dget (layer, sc_url r) expected) as [step|] eqn:Es; [|done].
  intros (b & Hb & ([] & _ & H)%result_bind_Ok)%result_bind_Ok.
  set (w := bool_decide (root = "worktrees")) in *.
  change (match source_of src (layer, sc_url r) w with
          | Some _ => Err (MountPlanningError ("duplicate " +:+ (if w then "worktree" else "read_only")
                         +:+ " evidence for " +:+ evidence_name (layer, sc_url r)))
          | None => Ok (dset (layer, sc_url r)
              (if w then mkSources (Some r) (src_read_only (default no_sources (dget (layer, sc_url r) src)))
               else mkSources (src_worktree (default no_sources (dget (layer, sc_url r) src))) (Some r)) src)
          end = Ok src') in H.
  destruct (source_of src (layer, sc_url r) w) eqn:Hnone; [done|]. injection H as <-. exists w, (layer, sc_url r).
  split_and!; [split; [done|eauto]|apply dget_is_Some; eauto|done|].
  intros i' w'. unfold source_of. rewrite dget_dset. destruct (decide (i' = (layer, sc_url r))) as [->|Hne].
  - by destruct w, w'; cbn; repeat case_decide; try done; intuition congruence.
  - rewrite decide_False by intuition congruence. done.
Qed.

Lemma scan_sources_Ok expected roots src scanned out :
  scan_sources expected roots src scanned = Ok out ->
  (forall r, r ∈ scanned -> exists w i, evidence roots w i r /\ i ∈ expected.*1) /\
  forall i w r, source_of out i w = Some r <->
    source_of src i w = Some r \/ (r ∈ scanned /\ evidence roots w i r).
Proof.
  revert src. induction scanned as [|r0 rest IH]; intros src; cbn [scan_sources].
  - intros [= ->]. split; [intros r Hr; by apply elem_of_nil in Hr|]. intros i w r.
    rewrite elem_of_nil. tauto.
  - intros (src1 & (w0 & i0 & Hev & Hexp & Hnone & Hupd)%scan_one_Ok & [Hall Hsrc]%IH)%result_bind_Ok.
    split; [intros r [->|Hr]%elem_of_cons; eauto|]. intros i w r. rewrite Hsrc, Hupd, elem_of_cons.
    case_decide as Ed.
    + destruct Ed as [-> ->]. rewrite Hnone. split.
      * intros [[= ->]|[? ?]]; auto.
      * intros [?|[[->|?] ?]]; auto. done.
    + split; [intros [?|[? ?]]; auto|]. intros [?|[[->|?] Hev']]; auto.
      destruct (evidence_fun _ _ _ _ _ _ Hev Hev'). by destruct Ed.
Qed.

Lemma source_of_nil i w : source_of [] i w = None.
Proof. by destruct w. Qed.

(** ** What a view contains *)

Definition mount_identity (e : MountEvidence) : identity := (me_layer e, me_url e).

(** A mount justified by the scan, the plan and the lock. *)
Record justified (m : Manifest) (container_roots roots : list (string * path)) (scanned : list ScannedRepo)
    (plan : list WorkspacePlanEntry) (e : MountEvidence) : Prop := {
  just_step : exists s r, s ∈ plan /\ step_identity s = mount_identity e /\
    r ∈ scanned /\ evidence roots (negb (me_read_only e)) (mount_identity e) r /\
    sc_path r = me_source_path e /\ sc_commit r = we_commit s /\
    container_path_of container_roots s = Ok (me_container_path e);
  just_read_only : me_read_only e = true ->
    forall r, r ∈ scanned -> ~ evidence roots true (mount_identity e) r }.

Lemma mount_of_Ok container_roots sources e mt :
  mount_of container_roots sources e = Ok mt ->
  mount_identity mt = step_identity e.2 /\
  container_path_of container_roots e.2 = Ok (me_container_path mt) /\
  exists r, selected (default no_sources (dget e.1 sources)) = Some r /\ sc_path r = me_source_path mt /\
    source_of sources e.1 (negb (me_read_only mt)) = Some r /\
    (me_read_only mt = true -> source_of sources e.1 true = None).
Proof.
  unfold mount_of, selected, source_of. set (s := default no_sources _).
  destruct (src_worktree s) as [r|] eqn:Ew.
  - intros (cp & Hcp & [= <-])%result_bind_Ok. cbn. split_and!; [done..|]. by exists r.
  - destruct (src_read_only s) as [r|] eqn:Er; [|done].
    intros (cp & Hcp & [= <-])%result_bind_Ok. cbn. split_and!; [done..|]. by exists r.
Qed.

Lemma Forall2_map_eq {A B C} (R : A -> B -> Prop) (f : A -> C) (g : B -> C) l k :
  Forall2 R l k -> (forall x y, R x y -> f x = g y) -> map f l = map g k.
Proof. intros H Hfg. induction H as [|x y l k HR _ IH]; cbn; [done|]. by rewrite (Hfg _ _ HR), IH. Qed.

(** A plan with as many dictionary entries as steps has no repeated identity. *)
Lemma expected_of_plan plan :
  length (dict_of (map (fun s => (step_identity s, s)) plan)) = length plan ->
  NoDup (map step_identity plan) /\
  dict_of (map (fun s => (step_identity s, s)) plan) = map (fun s => (step_identity s, s)) plan.
Proof.
  intros H. assert (Hnd : NoDup (map (fun s => (step_identity s, s)) plan).*1).
  { apply dict_of_length_NoDup. by rewrite H, length_map. }
  split; [|by apply dict_of_id]. by rewrite <- list_fmap_compose in Hnd.
Qed.

Lemma remove_dups_length_NoDup {A} `{EqDecision A} (l : list A) :
  length (remove_dups l) = length l -> NoDup l.
Proof.
  assert (Hle : forall k : list A, length (remove_dups k) <= length k).
  { induction k as [|x k IH]; cbn; [done|]. case_decide; cbn; lia. }
  induction l as [|x l IH]; cbn; [intros _; apply NoDup_nil_2|]. specialize (Hle l). case_decide; cbn; [lia|].
  intros H'. apply NoDup_cons. split; [done|]. apply IH. lia.
Qed.

(** C26. The mount planning view is sound: when it succeeds the lock is present, matches the
    manifest by hash and structure, and there is exactly one mount per locked repository
    and no other, at pairwise distinct container paths; the source of each mount was really
    scanned, at the locked commit, and it is writable exactly when the repository has a
    worktree, which then wins over the read-only checkout. *)
Theorem build_mount_planning_view_sound sha256 m lock scanned st roots cr mounts :
  build_mount_planning_view sha256 m lock scanned st roots cr = Ok mounts ->
  exists lk plan, lock = Some lk /\ plan_projection m lk None = Ok plan /\
    manifest_lock_drift (detect_drift sha256 m lock None) = [] /\
    validate_lock_structure m lk = Ok tt /\
    map mount_identity mounts ≡ₚ map step_identity plan /\
    NoDup (map mount_identity mounts) /\
    NoDup (map me_container_path mounts) /\
    (forall e, e ∈ mounts -> justified m (default (default_container_roots m) cr) roots scanned plan e).
Proof.
  unfold build_mount_planning_view. set (crs := default (default_container_roots m) cr).
  destruct lock as [lk|]; [|done].
  intros ([] & Hd & ([] & Hv & (plan & Hp & ([] & Hlen & (paths & Hpaths & ([] & Hdup &
    (src & Hsrc & ([] & Hcommit & (mts & Hm & ([] & Hst & [= <-])%result_bind_Ok)%result_bind_Ok
    )%result_bind_Ok)%result_bind_Ok)%result_bind_Ok)%result_bind_Ok)%result_bind_Ok)%result_bind_Ok
    )%result_bind_Ok)%result_bind_Ok.
  rewrite ensure_Ok in Hd, Hlen, Hdup. rewrite bool_decide_eq_true in Hd. apply nil_length_inv in Hd.
  apply Nat.eqb_eq in Hlen, Hdup. apply expected_of_plan in Hlen as [Hnd Hexp].
  apply remove_dups_length_NoDup in Hdup. rewrite Hexp in *.
  set (pairs := map (fun s => (step_identity s, s)) plan) in *.
  apply scan_sources_Ok in Hsrc as [Hall Hsources]. apply result_map_Ok in Hm.
  assert (Hids : map mount_identity mts ≡ₚ map step_identity plan).
  { rewrite <- (Forall2_map_eq _ (fun e : identity * WorkspacePlanEntry => step_identity e.2) _ _ _ Hm)
      by (intros x y Hxy; symmetry; by apply mount_of_Ok in Hxy as [? _]).
    rewrite merge_sort_Permutation. unfold pairs. by rewrite map_map. }
  exists lk, plan. split_and!; [done..|by rewrite Hids| |].
  - assert (Hcp : map (@Ok exn path) (map me_container_path mts) ≡ₚ map (@Ok exn path) paths).
    { rewrite map_map. rewrite <- (Forall2_map_eq _ (fun e : identity * WorkspacePlanEntry => container_path_of crs e.2) _ _ _ Hm)
        by (intros x y Hxy; by apply mount_of_Ok in Hxy as (_ & ? & _)).
      rewrite merge_sort_Permutation. unfold pairs. rewrite map_map. cbn [snd].
      apply result_map_Ok in Hpaths. change (map (fun x => container_path_of crs x) plan) with (map (container_path_of crs) plan).
      rewrite (Forall2_map_eq _ (container_path_of crs) (@Ok exn path) _ _ Hpaths); [done|auto]. }
    apply (NoDup_fmap_1 (@Ok exn path)). change (fmap (@Ok exn path)) with (map (@Ok exn path)).
    rewrite Hcp. apply NoDup_fmap_2; [|done]. by intros ? ? [= ->].
  - intros mt Hmt. apply list_elem_of_lookup in Hmt as [n Hn].
    destruct (Forall2_lookup_r _ _ _ _ _ Hm Hn) as ([i s] & Hi & Hmo).
    apply list_elem_of_lookup_2 in Hi. rewrite merge_sort_Permutation in Hi.
    unfold pairs in Hi. apply list_elem_of_fmap in Hi as (s' & [= -> <-] & Hs).
    apply mount_of_Ok in Hmo as (Hid & Hcp & r & Hsel & Hpath & Hsrcr & Hro). cbn [fst snd] in *.
    split.
    + exists s, r. pose proof (proj1 (Hsources _ _ _) Hsrcr) as [Hnil|[Hr Hev]]; [by rewrite source_of_nil in Hnil|].
      rewrite Hid. split_and!; try done.
      unfold default in Hsel. destruct (dget (step_identity s) src) as [ss|] eqn:Ess; [|done].
      rewrite result_iter_Ok in Hcommit. specialize (Hcommit (step_identity s, ss) (dget_Some_elem _ _ _ Ess)).
      unfold check_commit in Hcommit. cbn [fst snd] in Hcommit. cbn in Hsel. rewrite Hsel in Hcommit.
      rewrite (dget_elem_NoDup (step_identity s) s pairs) in Hcommit.
      * by rewrite ensure_Ok, bool_decide_eq_true in Hcommit.
      * unfold pairs. by rewrite <- list_fmap_compose.
      * unfold pairs. by apply (list_elem_of_fmap_2 (fun s => (step_identity s, s))).
    + intros Hro' r' Hr' Hev'. specialize (Hro Hro'). rewrite Hid in Hev'.
      pose proof (proj2 (Hsources (step_identity s) true r') (or_intror (conj Hr' Hev'))) as Hc.
      by rewrite Hro in Hc.
Qed.

Lemma build_mount_planning_view_sound_witness :
  NoDup (map me_container_path sample_mounts) /\ length sample_mounts = 3.
Proof.
  split; [|vm_compute; reflexivity].
  destruct (build_mount_planning_view_sound sample_sha256 sample_manifest (Some sample_lock) sample_scan
    sample_state (default_container_roots sample_manifest) None sample_mounts (proj1 sample_mounts_ok))
    as (lk & plan & _ & _ & _ & _ & _ & _ & H & _). exact H.
Defined.
