(* ===== verification/Workspace.v ===== *)
(** * The git workspace adapter ([odoo_forge_workspace/provider.py])

    Checking a locked commit out into its planned path, promoting a checkout to a writable
    worktree, and scanning the roots for checkouts.  Child processes and the file calls on
    whole directories are ports: their answers are events of the trace. *)

From stdpp Require Import pretty.
From S2P Require Import Prelude Effects Values Paths Projection.

(** The directories below a root, as [os.walk] meets them: the listing of a walk is one answer. *)
Inductive dirtree : Type := Dir (subdirs : list (string * dirtree)).

Inductive workspace_op : Type -> Type :=
(* [subprocess.run(argv, timeout=, env=)]: exit status and stdout *)
| Git (argv : list string) (env : gmap string string) : workspace_op (Z * string)
| PathExists (p : path) : workspace_op bool
| IsRegular (p : path) : workspace_op bool
| MakeDirs (p : path) : workspace_op unit            (* [mkdir(parents=True, exist_ok=True)] *)
| MakeTemp (dir : path) : workspace_op path          (* [tempfile.mkdtemp(dir=)] *)
| Replace (src dst : path) : workspace_op unit       (* [os.replace] *)
| RemoveTree (p : path) : workspace_op unit          (* [shutil.rmtree(ignore_errors=True)] *)
| WalkTree (root : path) : workspace_op dirtree.
Definition workspace_prog := prog workspace_op exn.

(** [p.parent] and [p.name] *)
Definition parent (p : path) : path := mkPath (p_root p) (take (length (p_segs p) - 1) (p_segs p)).
Definition path_name (p : path) : string := default "" (last (p_segs p)).

Definition git_environment (environ : gmap string string) : gmap string string :=
  <["LC_ALL" := "C"]> (<["LANG" := "C"]> (<["GIT_ASKPASS" := ""]> (<["GIT_TERMINAL_PROMPT" := "0"]> environ))).

(** The tokens of [argv] after [git], up to the first that is no option. *)
Fixpoint subcommand_of (tokens : list string) : string :=
  match tokens with
  | [] => "command"
  | token :: l =>
    if bool_decide (token = "-C") then match l with [] => "command" | _ :: l' => subcommand_of l' end
    else if is_prefix (chars "-") (chars token) then subcommand_of l
    else token
  end.
Definition git_subcommand (argv : list string) : string :=
  match argv with
  | token :: l => if bool_decide (token = "git") then subcommand_of l else subcommand_of argv
  | [] => "command"
  end.

Definition is_linked_worktree (dest : path) : workspace_prog bool := call (IsRegular (div dest ".git")).

(** The commands of the adapter. *)
Definition filtered_clone_argv (url : string) (clone_path : path) : list string :=
  ["git"; "clone"; "--filter=blob:none"; "--no-checkout"; "--"; url; path_str clone_path].
Definition full_clone_argv (url : string) (clone_path : path) : list string :=
  ["git"; "clone"; "--no-checkout"; "--"; url; path_str clone_path].
Definition detach_argv (clone_path : path) (commit : string) : list string :=
  ["git"; "-C"; path_str clone_path; "checkout"; "--detach"; commit].
Definition head_argv (dest : path) : list string := ["git"; "-C"; path_str dest; "rev-parse"; "HEAD"].
Definition status_argv (dest : path) : list string := ["git"; "-C"; path_str dest; "status"; "--porcelain"].
Definition origin_argv (p : path) : list string := ["git"; "-C"; path_str p; "remote"; "get-url"; "origin"].
Definition worktree_argv (source dest : path) (branch : string) : list string :=
  ["git"; "-C"; path_str source; "worktree"; "add"; "-b"; branch; "--"; path_str dest].

Definition swap_error (e : exn) : bool := match e with OSError _ => true | _ => false end.
Definition is_checkout_error (e : exn) : bool := match e with CheckoutError _ => true | _ => false end.

Section Workspace.
(** [os.environ], and the printed form of the timeout in seconds. *)
Variable environ : gmap string string.
Variable timeout : string.

(** [_run]: the exit status is checked, and every failure is told without the arguments. *)
Definition run_env (overlay : option (gmap string string)) : gmap string string := default ∅ overlay ∪ git_environment environ.
Definition run_git (argv : list string) (error : string -> exn) (overlay : option (gmap string string)) : workspace_prog string :=
  let* '(returncode, stdout) :=
    catch (call (Git argv (run_env overlay)))
      (fun e => match e with
                | OSError ENOENT => Raise (error "git executable not found")
                | TimeoutExpired => Raise (error ("git " +:+ git_subcommand argv +:+ " timed out after " +:+ timeout +:+ "s"))
                | OSError _ => Raise (error ("git " +:+ git_subcommand argv +:+ " failed to execute"))
                | _ => Raise e
                end) in
  if (returncode =? 0)%Z then Ret stdout
  else Raise (error ("git " +:+ git_subcommand argv +:+ " failed with exit code " +:+ pretty returncode)).

Definition current_head (dest : path) : workspace_prog string :=
  let* out := run_git (head_argv dest) CheckoutError None in Ret (strip out).
Definition is_dirty (dest : path) : workspace_prog bool :=
  let* out := run_git (status_argv dest) CheckoutError None in Ret (negb (bool_decide (strip out = ""))).

(** ** Checking out *)

Definition clone (url : string) (clone_path : path) (overlay : option (gmap string string)) : workspace_prog unit :=
  let* first := attempt (run_git (filtered_clone_argv url clone_path) CheckoutError overlay) in
  match first return workspace_prog unit with
  | Ok _ => Ret tt
  | Err e =>
    if is_checkout_error e then
      call (RemoveTree clone_path) ;*
      run_git (full_clone_argv url clone_path) CheckoutError overlay ;* Ret tt
    else Raise e
  end.

(** The prior checkout, moved into a fresh directory beside it. *)
Definition set_aside (dest : path) : workspace_prog (option path) :=
  let* there := call (PathExists dest) in
  if there : bool then
    let* temp := call (MakeTemp (parent dest)) in
    call (Replace dest (div temp (path_name dest))) ;* Ret (Some temp)
  else Ret None.
(** Whether the prior checkout could not be moved back. *)
Definition put_back (aside : option path) (dest : path) : workspace_prog bool :=
  match aside with
  | None => Ret false
  | Some temp =>
    catch (call (Replace (div temp (path_name dest)) dest) ;* Ret false)
      (fun e => if swap_error e then Ret true else Raise e)
  end.
Definition replacement_failed (restore_failed : bool) : exn :=
  CheckoutError ("checkout replacement failed" +:+
    (if restore_failed then " and prior checkout could not be restored" else "")).
Definition atomic_swap (clone_path dest : path) : workspace_prog unit :=
  let* aside := set_aside dest in
  let* replaced := attempt (call (Replace clone_path dest)) in
  match replaced with
  | Ok _ => match aside with Some temp => call (RemoveTree temp) | None => Ret tt end
  | Err e =>
    if swap_error e then
      let* restore_failed := put_back aside dest in
      call (RemoveTree clone_path) ;*
      (match aside with
       | Some temp => if restore_failed then Ret tt else call (RemoveTree temp)
       | None => Ret tt
       end) ;*
      Raise (replacement_failed restore_failed)
    else Raise e
  end.

Definition clone_and_replace (url commit : string) (dest : path) (overlay : option (gmap string string)) : workspace_prog unit :=
  call (MakeDirs (parent dest)) ;*
  let* tmp := call (MakeTemp (parent dest)) in
  catch (clone url tmp overlay ;*
         run_git (detach_argv tmp commit) CheckoutError overlay ;*
         atomic_swap tmp dest)
    (fun e => call (RemoveTree tmp) ;* Raise e).

Definition checkout (url commit : string) (dest : path) (overlay : option (gmap string string)) : workspace_prog unit :=
  let* there := call (PathExists dest) in
  if there : bool then
    let* linked := is_linked_worktree dest in
    if linked : bool then Raise (CheckoutError ("refusing to touch linked worktree at " +:+ path_str dest)) else
    let* head := current_head dest in
    if bool_decide (head = commit) then Ret tt else
    let* dirty := is_dirty dest in
    if dirty : bool then Raise (CheckoutError ("refusing to overwrite dirty checkout at " +:+ path_str dest))
    else clone_and_replace url commit dest overlay
  else clone_and_replace url commit dest overlay.

(** ** Promoting *)

Definition promote (source dest : path) (branch : string) : workspace_prog unit :=
  let* there := call (PathExists dest) in
  if there : bool then Raise (AlreadyUnlockedError ("'" +:+ path_str dest +:+ "' is already a writable checkout")) else
  call (MakeDirs (parent dest)) ;*
  run_git (worktree_argv source dest branch) PromotionError None ;* Ret tt.

(** ** Scanning *)

Definition scan_repo (p : path) : workspace_prog ScannedRepo :=
  let* commit := run_git (head_argv p) ScanError None in
  let* url := run_git (origin_argv p) ScanError None in
  Ret (mkScannedRepo p (strip url) (strip commit)).

(** The walk: a directory with a [.git] entry is one repository and is not entered. *)
Fixpoint walk (current : path) (t : dirtree) : workspace_prog (list ScannedRepo) :=
  let* found := call (PathExists (div current ".git")) in
  if found : bool then let* r := scan_repo current in Ret [r]
  else
    match t with
    | Dir subdirs =>
      (fix walk_all (l : list (string * dirtree)) : workspace_prog (list ScannedRepo) :=
         match l with
         | [] => Ret []
         | (name, sub) :: l' =>
           let* here := walk (div current name) sub in
           let* rest := walk_all l' in
           Ret (here ++ rest)
         end) subdirs
    end.
Definition scan_root (root : path) : workspace_prog (list ScannedRepo) :=
  let* t := call (WalkTree root) in walk root t.
Fixpoint scan (roots : list path) : workspace_prog (list ScannedRepo) :=
  match roots with
  | [] => Ret []
  | root :: roots' =>
    let* there := call (PathExists root) in
    if there : bool then
      let* here := scan_root root in
      let* rest := scan roots' in
      Ret (here ++ rest)
    else scan roots'
  end.
End Workspace.
