(* ===== verification/WorkspaceFacts.v ===== *)
(** * Properties of the git workspace adapter

    Whatever git and the file system answer: a checkout moves or removes only what it may,
    the prior state of its destination survives until the new one is in place, and errors do
    not tell what the remote is. *)

From stdpp Require Import pretty.
From S2P Require Import Prelude Effects Values Paths Projection Workspace.

Abbreviation workspace_history := (list (event workspace_op exn)).

Create Rewrite HintDb history.

(** ** Reading a history *)

(** The moves that succeeded, and the temporary directories that were made, in order. *)
Definition moves (past : workspace_history) : list (path * path) :=
  omap (M:=list) (fun ev => match ev with
    | Event e r => match e in workspace_op R return result exn R -> option (path * path) with
                   | Replace src dst => fun r => match r with Ok _ => Some (src, dst) | Err _ => None end
                   | _ => fun _ => None end r end) past.
Definition temps (past : workspace_history) : list path :=
  omap (M:=list) (fun ev => match ev with
    | Event e r => match e in workspace_op R return result exn R -> option path with
                   | MakeTemp _ => fun r => match r with Ok p => Some p | Err _ => None end
                   | _ => fun _ => None end r end) past.

Lemma moves_app past new : moves (past ++ new) = moves past ++ moves new.
Proof. apply omap_app. Qed.
Lemma temps_app past new : temps (past ++ new) = temps past ++ temps new.
Proof. apply omap_app. Qed.
Lemma made_temp past dir p : Event (MakeTemp dir) (Ok p) ∈ past -> p ∈ temps past.
Proof. intros H. apply list_elem_of_omap. eauto. Qed.

Definition moves_nothing (R : Type) (e : workspace_op R) : Prop :=
  match e with Replace _ _ | MakeTemp _ | RemoveTree _ => False | _ => True end.
Lemma moves_nothing_history new : Forall (event_sat moves_nothing) new -> moves new = [] /\ temps new = [].
Proof.
  induction 1 as [|[R e r] new He _ [IHm IHt]]; [done|]. unfold moves, temps. cbn. fold (moves new). fold (temps new).
  by destruct e.
Qed.

Section Checkout.
Variable environ : gmap string string.
Variable timeout : string.
Variables (url commit : string) (dest : path) (overlay : option (gmap string string)).

(** [git argv] exited with status 0, writing [out]. *)
Definition git_said (past : workspace_history) (argv : list string) (out : string) : Prop :=
  exists env, Event (Git argv env) (Ok (0%Z, out)) ∈ past.
(** A path holds a clone at the wanted commit, made by this checkout. *)
Definition cloned (past : workspace_history) (p : path) : Prop :=
  p ∈ temps past /\ exists out, git_said past (detach_argv p commit) out.
(** What was at the destination may be replaced: it was reported absent, or it is a checkout of
    its own, at another commit, without uncommitted work. *)
Definition replaceable (past : workspace_history) : Prop :=
  Event (PathExists dest) (Ok false) ∈ past \/
  Event (IsRegular (div dest ".git")) (Ok false) ∈ past /\
  (exists out, git_said past (head_argv dest) out /\ strip out <> commit) /\
  (exists out, git_said past (status_argv dest) out /\ strip out = "").
(** Where the destination is set aside in a temporary directory. *)
Definition aside (temp : path) : path := div temp (path_name dest).

Definition allowed (past : workspace_history) (R : Type) (e : workspace_op R) : Prop :=
  match e with
  | Replace src dst =>
    (exists temp, src = dest /\ dst = aside temp /\ temp ∈ temps past /\ replaceable past) \/
    (dst = dest /\ cloned past src) \/
    (exists temp, src = aside temp /\ dst = dest /\ last (moves past) = Some (dest, aside temp))
  | RemoveTree p =>
    p ∈ temps past /\
    (NoDup (temps past) -> (dest, aside p) ∈ moves past -> exists src, (src, dest) ∈ moves past)
  | Git argv env =>
    argv = head_argv dest \/ argv = status_argv dest \/
    exists p, p ∈ temps past /\ (argv = filtered_clone_argv url p \/ argv = full_clone_argv url p \/ argv = detach_argv p commit)
  | _ => True
  end.

Abbreviation guarded_checkout := (guarded allowed).

Lemma guarded_run_git past argv error ov (Q : workspace_history -> result exn string -> Prop) :
  allowed past _ (Git argv (run_env environ ov)) ->
  (forall a r, (forall out, r = Ok out -> a = Ok (0%Z, out)) -> Q (past ++ [Event (Git argv (run_env environ ov)) a]) r) ->
  guarded_checkout past (run_git environ timeout argv error ov) Q.
Proof.
  intros Hs HQ. unfold run_git. apply guarded_bind, guarded_catch, guarded_call; [done|].
  intros [[rc out]|e].
  - destruct (Z.eqb_spec rc 0) as [Hrc|Hrc].
    + apply (HQ (Ok (rc, out)) (Ok out)). intros out' [= <-]. by rewrite Hrc.
    + by apply (HQ (Ok (rc, out)) (Err _)).
  - destruct e; try (by apply (HQ (Err _))). destruct errno; by apply (HQ (Err _)).
Qed.

(** Git commands and questions leave everything in its place. *)
Lemma moves_question past R (e : workspace_op R) r : moves_nothing R e -> moves (past ++ [Event e r]) = moves past.
Proof. intros He. rewrite moves_app. destruct (moves_nothing_history [Event e r]) as [-> _]; [by repeat constructor|]. by rewrite app_nil_r. Qed.
Lemma temps_question past R (e : workspace_op R) r : moves_nothing R e -> temps (past ++ [Event e r]) = temps past.
Proof. intros He. rewrite temps_app. destruct (moves_nothing_history [Event e r]) as [_ ->]; [by repeat constructor|]. by rewrite app_nil_r. Qed.

Lemma temps_remove past p r : temps (past ++ [Event (RemoveTree p) r]) = temps past.
Proof. rewrite temps_app. cbn. by rewrite app_nil_r. Qed.
Lemma moves_remove past p r : moves (past ++ [Event (RemoveTree p) r]) = moves past.
Proof. rewrite moves_app. cbn. by rewrite app_nil_r. Qed.

(** Everything a checkout knows is kept as its history grows. *)
Lemma git_said_app past new argv out : git_said past argv out -> git_said (past ++ new) argv out.
Proof. intros [env H]. exists env. apply elem_of_app. by left. Qed.
Lemma cloned_app past new p : cloned past p -> cloned (past ++ new) p.
Proof. intros [Ht [out Ho]]. split; [rewrite temps_app; apply elem_of_app; by left|]. exists out. by apply git_said_app. Qed.
Lemma replaceable_app past new : replaceable past -> replaceable (past ++ new).
Proof.
  unfold replaceable. rewrite !elem_of_app. intros [H|(H1 & (o1 & H2 & ?) & (o2 & H3 & ?))]; [by auto|right].
  split; [by left|]. split; [exists o1|exists o2]; split; try done; by apply git_said_app.
Qed.

Lemma temps_replace past src dst r : temps (past ++ [Event (Replace src dst) r]) = temps past.
Proof. rewrite temps_app. cbn. by rewrite app_nil_r. Qed.
Lemma moves_replaced past src dst u : moves (past ++ [Event (Replace src dst) (Ok u)]) = moves past ++ [(src, dst)].
Proof. by rewrite moves_app. Qed.
Lemma moves_kept past src dst e : moves (past ++ [Event (Replace src dst) (Err e)]) = moves past.
Proof. rewrite moves_app. cbn. by rewrite app_nil_r. Qed.
Lemma moves_made past dir r : moves (past ++ [Event (MakeTemp dir) r]) = moves past.
Proof. rewrite moves_app. cbn. by rewrite app_nil_r. Qed.
Lemma temps_made past dir p : temps (past ++ [Event (MakeTemp dir) (Ok p)]) = temps past ++ [p].
Proof. by rewrite temps_app. Qed.

Lemma temps_unmade past dir e : temps (past ++ [Event (MakeTemp dir) (Err e)]) = temps past.
Proof. rewrite temps_app. cbn. by rewrite app_nil_r. Qed.

Hint Rewrite temps_unmade temps_replace moves_replaced moves_kept moves_made temps_made temps_remove moves_remove : history.
Hint Rewrite @last_snoc : history.
Ltac history :=
  repeat first [rewrite moves_question by done | rewrite temps_question by done | progress autorewrite with history].

Hypothesis named : plain_segment (path_name dest) = true.

Lemma aside_inj p q : aside p = aside q -> p = q.
Proof using named.
  unfold aside. rewrite !div_plain by done. intros [= H1 H2]. apply app_inj_tail in H2 as [H2 _]. by apply path_eq.
Qed.

(** The state of affairs once the destination may have been set aside. *)
Definition set_aside_as (past : workspace_history) (tmp : path) (o : option path) : Prop :=
  tmp ∈ temps past /\ match o with
  | None => moves past = []
  | Some temp => moves past = [(dest, aside temp)] /\ temp ∈ temps past /\ (NoDup (temps past) -> temp <> tmp)
  end.

Lemma guarded_set_aside past tmp :
  tmp ∈ temps past -> replaceable past -> moves past = [] ->
  guarded_checkout past (set_aside dest)
    (fun past' r => match r with Ok o => set_aside_as past' tmp o | Err _ => tmp ∈ temps past' /\ moves past' = [] end).
Proof.
  intros Ht Hr Hm. unfold set_aside, set_aside_as. apply guarded_bind_call; [done| |intros e; by history].
  intros []; [|apply guarded_Ret; by history]. apply guarded_bind_call; [done| |intros e; by history].
  intros temp. apply guarded_bind_call.
  - left. exists temp. split; [done|]. split; [done|]. history. split; [apply elem_of_app; right; by left|]. by do 2 apply replaceable_app.
  - intros []. apply guarded_Ret. history. rewrite Hm. split; [apply elem_of_app; by left|]. split; [done|].
    split; [apply elem_of_app; right; by left|]. intros Hnd ->. apply NoDup_app in Hnd as (_ & Hnd & _).
    apply (Hnd tmp Ht). by left.
  - intros e. history. rewrite Hm. split; [apply elem_of_app; by left|done].
Qed.

(** The clone directory holds nothing of the destination's prior state that has not been
    restored or superseded. *)
Definition unburdened (tmp : path) (past : workspace_history) : Prop :=
  NoDup (temps past) -> (dest, aside tmp) ∈ moves past -> exists src, (src, dest) ∈ moves past.
Definition swapped (tmp : path) (past : workspace_history) (r : result exn unit) : Prop :=
  tmp ∈ temps past /\ unburdened tmp past /\ (r = Ok tt -> last (moves past) = Some (tmp, dest)).

Lemma set_aside_elsewhere past tmp o : set_aside_as past tmp o -> unburdened tmp past.
Proof using named.
  intros [_ Ho] Hnd Hin. destruct o as [temp|]; [|rewrite Ho in Hin; by apply elem_of_nil in Hin].
  destruct Ho as (Hm & _ & Hne). rewrite Hm in Hin. apply list_elem_of_singleton in Hin.
  destruct (Hne Hnd). symmetry. apply aside_inj. exact (f_equal snd Hin).
Qed.

(** What is known after the attempt to move the prior state back. *)
Definition put_back_as (tmp : path) (o : option path) (past : workspace_history) (r : result exn bool) : Prop :=
  tmp ∈ temps past /\ unburdened tmp past /\
  match o with
  | Some temp => temp ∈ temps past /\ (r = Ok false -> exists src, (src, dest) ∈ moves past)
  | None => True
  end.

Lemma guarded_put_back past tmp o :
  set_aside_as past tmp o -> guarded_checkout past (put_back o dest) (put_back_as tmp o).
Proof using named.
  intros Ho. pose proof (set_aside_elsewhere _ _ _ Ho) as Hsafe. destruct Ho as [Ht Ho]. unfold put_back, put_back_as.
  destruct o as [temp|]; [|by apply guarded_Ret]. destruct Ho as (Hm & Htemp & _). unfold unburdened in *.
  apply guarded_catch, guarded_bind_call.
  - right; right. exists temp. by rewrite Hm.
  - intros []. apply guarded_Ret. history. assert ((aside temp, dest) ∈ moves past ++ [(aside temp, dest)]) by (apply elem_of_app; right; by left).
    eauto 7.
  - intros e. destruct (swap_error e); [apply guarded_Ret|apply guarded_Raise]; history; by split_and!.
Qed.

Lemma guarded_swap past tmp :
  cloned past tmp -> replaceable past -> moves past = [] ->
  guarded_checkout past (atomic_swap tmp dest) (swapped tmp).
Proof using named.
  intros Hc Hr Hm. pose proof Hc as [Ht _]. unfold atomic_swap. apply guarded_bind.
  eapply guarded_mono; [|by apply guarded_set_aside]. intros new [o|e] Ho; cycle 1.
  { destruct Ho as [Ht' Hm']. split; [done|]. split; [|done]. intros _ H. rewrite Hm' in H. by apply elem_of_nil in H. }
  pose proof (set_aside_elsewhere _ _ _ Ho) as Hsafe.
  apply guarded_attempt_call; [right; left; split; [done|by apply cloned_app]|]. intros [[]|e].
  - destruct Ho as [Ht' Ho]. assert (Hput : (tmp, dest) ∈ moves (past ++ new) ++ [(tmp, dest)]) by (apply elem_of_app; right; by left).
    destruct o as [temp|]; [|apply guarded_Ret; unfold swapped, unburdened; history; eauto].
    destruct Ho as (_ & Htemp & _). apply guarded_call; [split; history; eauto|]. intros r. unfold swapped, unburdened. history. eauto.
  - destruct (swap_error e); [|apply guarded_Raise; unfold swapped, unburdened; history; by destruct Ho].
    apply guarded_bind. eapply guarded_mono; [|apply guarded_put_back; unfold set_aside_as in *; by history].
    intros new' [failed|x] (Ht' & Hs & Htemp); [|done]. unfold swapped, unburdened in *.
    apply guarded_bind_call; [done| |intros x; by history]. intros [].
    destruct o as [temp|]; [destruct failed|]; try (apply guarded_bind, guarded_Ret, guarded_Raise; by history).
    destruct Htemp as [Htemp Hput]. destruct (Hput eq_refl) as [src Hsrc].
    apply guarded_bind_call; [split; history; eauto| |intros x; by history]. intros []. apply guarded_Raise. by history.
Qed.

Lemma guarded_clone past tmp :
  tmp ∈ temps past -> moves past = [] ->
  guarded_checkout past (clone environ timeout url tmp overlay) (fun past' _ => tmp ∈ temps past' /\ moves past' = []).
Proof.
  intros Ht Hm. unfold clone. apply guarded_bind, guarded_attempt, guarded_run_git; [right; right; eauto|].
  intros a [out|e] _; [apply guarded_Ret; by history|]. destruct (is_checkout_error e); [|apply guarded_Raise; by history].
  apply guarded_bind_call; [split; history; [done|]; rewrite Hm; intros _ H; by apply elem_of_nil in H| |intros x; by history].
  intros []. apply guarded_bind, guarded_run_git; [right; right; history; eauto|].
  intros b [out|x] _; [apply guarded_Ret|]; by history.
Qed.

(** A fresh clone at the wanted commit was moved to the destination, and stayed there. *)
Definition delivered (past : workspace_history) : Prop :=
  exists tmp, cloned past tmp /\ last (moves past) = Some (tmp, dest).

Lemma guarded_clone_and_replace past :
  replaceable past -> moves past = [] ->
  guarded_checkout past (clone_and_replace environ timeout url commit dest overlay)
    (fun past' r => r = Ok tt -> delivered past').
Proof using named.
  intros Hr Hm. unfold clone_and_replace. apply guarded_bind_call; [done| |done]. intros [].
  apply guarded_bind_call; [done| |done]. intros tmp. apply guarded_catch, guarded_bind.
  rewrite <- app_assoc. set (h1 := past ++ _). assert (Ht : tmp ∈ temps h1) by (unfold h1; rewrite temps_app; apply elem_of_app; right; by left).
  assert (Hm1 : moves h1 = []) by (unfold h1; rewrite moves_app, Hm; done). assert (Hr1 : replaceable h1) by by apply replaceable_app.
  eapply guarded_mono; [|by apply guarded_clone]. intros new r [Ht2 Hm2].
  assert (Hremove : forall past' e, tmp ∈ temps past' -> unburdened tmp past' ->
    guarded_checkout past' (call (RemoveTree tmp) ;* Raise e) (fun past' r => r = Ok tt -> delivered past')).
  { intros past' e H1 H2. apply guarded_bind_call; [by split| |done]. intros []. by apply guarded_Raise. }
  assert (Hfree : forall past', moves past' = [] -> unburdened tmp past').
  { intros past' H _ Hin. rewrite H in Hin. by apply elem_of_nil in Hin. }
  destruct r as [[]|e]; [|auto]. apply guarded_bind, guarded_run_git; [right; right; eauto|].
  intros a [out|e] Ha; [|apply Hremove; [|apply Hfree]; by history].
  assert (Hc : cloned ((h1 ++ new) ++ [Event (Git (detach_argv tmp commit) (run_env environ overlay)) a]) tmp).
  { split; [by history|]. exists out, (run_env environ overlay). rewrite (Ha out eq_refl). apply elem_of_app. right. by left. }
  eapply guarded_mono; [|apply guarded_swap; [done|by do 2 apply replaceable_app|by history]].
  intros new' [[]|e] (H1 & H2 & H3); [|by apply Hremove]. intros _. exists tmp. split; [by apply cloned_app|auto].
Qed.

Definition already_there (past : workspace_history) : Prop := exists out, git_said past (head_argv dest) out /\ strip out = commit.

Lemma guarded_checkout_all :
  guarded_checkout [] (checkout environ timeout url commit dest overlay)
    (fun past' r => r = Ok tt -> already_there past' \/ delivered past').
Proof using named.
  unfold checkout. apply guarded_bind_call; [done| |done]. intros []; cycle 1.
  { eapply guarded_mono; [|apply guarded_clone_and_replace; [left; by left|done]]. auto. }
  apply guarded_bind_call; [done| |done]. intros []; [by apply guarded_Raise|]. apply guarded_bind, guarded_bind, guarded_run_git; [by left|].
  intros a [out|e] Ha; [|done]. apply guarded_Ret. specialize (Ha out eq_refl). subst a. destruct (bool_decide_reflect (strip out = commit)) as [Hh|Hh].
  - apply guarded_Ret. intros _. left. exists out. split; [|done]. eexists. do 2 right. by left.
  - apply guarded_bind, guarded_bind, guarded_run_git; [by right; left|]. intros b [st|e] Hb; [|done]. apply guarded_Ret. specialize (Hb st eq_refl). subst b.
    destruct (bool_decide_reflect (strip st = "")) as [Hs|Hs]; [|by apply guarded_Raise]. cbn [negb].
    eapply guarded_mono; [|apply guarded_clone_and_replace; [right|done]]; [auto|]. split; [right; by left|].
    split; [exists out|exists st]; (split; [eexists|done]); [do 2 right|do 3 right]; by left.
Qed.
End Checkout.

(** C18. Local work survives a checkout.  Whatever git and the file system answer: the destination
    is only set aside after it was reported absent or seen to be a checkout of its own, at
    another commit and without uncommitted work; only a clone made by this checkout at the
    wanted commit, or the prior state itself, is moved to it; only temporary directories made
    by this checkout are removed, and one that holds the prior state only once something is in
    place again (their names being distinct); git only reads the destination and writes to the
    fresh clone.  And a checkout that returns found the destination at the commit or has moved
    such a clone there. *)
Theorem local_work_is_preserved environ timeout url commit dest overlay tr o :
  plain_segment (path_name dest) = true ->
  runs (checkout environ timeout url commit dest overlay) tr o ->
  (forall tr1 R (e : workspace_op R) r tr2, tr = tr1 ++ Event e r :: tr2 -> allowed url commit dest tr1 R e) /\
  (o = Ok tt -> already_there commit dest tr \/ delivered commit dest tr).
Proof.
  intros Hn H. pose proof (guarded_checkout_all environ timeout url commit dest overlay Hn) as Hg.
  by destruct (guarded_runs _ _ _ _ _ _ Hg H).
Qed.

(** ** What is told about the remote *)

(** Two programs that ask different questions of the same kind, and go on alike. *)
Inductive alike {A : Type} : workspace_prog A -> workspace_prog A -> Prop :=
| AlikeRet a : alike (Ret a) (Ret a)
| AlikeRaise x : alike (Raise x) (Raise x)
| AlikeCall R (e e' : workspace_op R) k k' : (forall r, alike (k r) (k' r)) -> alike (Call e k) (Call e' k').
Variant same_answer : event workspace_op exn -> event workspace_op exn -> Prop :=
| SameAnswer R (e e' : workspace_op R) r : same_answer (Event e r) (Event e' r).

Lemma alike_refl {A : Type} (p : workspace_prog A) : alike p p.
Proof. induction p; by constructor. Qed.
Lemma alike_bind {A B : Type} (p p' : workspace_prog A) (k k' : A -> workspace_prog B) :
  alike p p' -> (forall a, alike (k a) (k' a)) -> alike (bind p k) (bind p' k').
Proof. intros Hp Hk. induction Hp as [a|x|R e e' c c' _ IH]; [apply Hk|constructor|]. by constructor. Qed.
Lemma alike_attempt {A : Type} (p p' : workspace_prog A) : alike p p' -> alike (attempt p) (attempt p').
Proof. induction 1 as [a|x|R e e' c c' _ IH]; by constructor. Qed.
Lemma alike_call {R : Type} (e e' : workspace_op R) : alike (call e) (call e').
Proof. constructor. intros r. apply alike_refl. Qed.
Lemma alike_catch {A : Type} (p p' : workspace_prog A) h : alike p p' -> alike (catch p h) (catch p' h).
Proof. intros Hp. apply alike_bind; [by apply alike_attempt|]. intros r. apply alike_refl. Qed.

Lemma alike_runs {A : Type} (p p' : workspace_prog A) tr o :
  alike p p' -> runs p tr o -> exists tr', Forall2 same_answer tr tr' /\ runs p' tr' o.
Proof.
  intros Hp. revert tr. induction Hp as [a|x|R e e' c c' _ IH]; intros tr H.
  - pose proof H as [-> _]%runs_Ret. eauto.
  - pose proof H as [-> _]%runs_Raise. eauto.
  - apply runs_Call in H as (r & tr0 & -> & H). apply IH in H as (tr' & HF & H). exists (Event e' r :: tr').
    split; [by constructor|]. apply runs_Call. eauto.
Qed.

Lemma alike_run_git environ timeout argv argv' error ov ov' :
  git_subcommand argv = git_subcommand argv' ->
  alike (run_git environ timeout argv error ov) (run_git environ timeout argv' error ov').
Proof.
  intros Hs. unfold run_git. rewrite Hs. apply alike_bind; [apply alike_catch, alike_call|]. intros [rc out]. apply alike_refl.
Qed.

(** A checkout tells nothing about its remote or its credentials: with another URL and another
    environment overlay, and the same answers, it ends in the same way; so no error message
    depends on either. *)
Theorem checkout_tells_nothing environ timeout url url' commit dest overlay overlay' tr o :
  runs (checkout environ timeout url commit dest overlay) tr o ->
  exists tr', Forall2 same_answer tr tr' /\ runs (checkout environ timeout url' commit dest overlay') tr' o.
Proof.
  apply alike_runs. assert (Hc : alike (clone_and_replace environ timeout url commit dest overlay) (clone_and_replace environ timeout url' commit dest overlay')).
  { unfold clone_and_replace. apply alike_bind; [apply alike_refl|]. intros _. apply alike_bind; [apply alike_refl|]. intros tmp.
    apply alike_catch, alike_bind; [|intros _; apply alike_bind; [by apply alike_run_git|intros out; apply alike_refl]].
    unfold clone. apply alike_bind; [by apply alike_attempt, alike_run_git|]. intros [out|e]; [apply alike_refl|].
    destruct (is_checkout_error e); [|apply alike_refl]. apply alike_bind; [apply alike_refl|]. intros _.
    apply alike_bind; [by apply alike_run_git|]. intros out2. apply alike_refl. }
  unfold checkout. apply alike_bind; [apply alike_refl|]. intros []; [|done]. apply alike_bind; [apply alike_refl|].
  intros []; [apply alike_refl|]. apply alike_bind; [apply alike_refl|]. intros head. case_match; [apply alike_refl|].
  apply alike_bind; [apply alike_refl|]. intros []; [apply alike_refl|done].
Qed.

(** ** Scanning *)

Lemma dirtree_ind' (P : dirtree -> Prop) :
  (forall l, Forall (fun d => P d.2) l -> P (Dir l)) -> forall t, P t.
Proof.
  intros H. fix IH 1. intros [l]. apply H. induction l as [|[n d] l IHl]; [by constructor|]. constructor; [apply IH|exact IHl].
Qed.

Definition reads_only (R : Type) (e : workspace_op R) : Prop :=
  match e with
  | Git argv _ => exists p, argv = head_argv p \/ argv = origin_argv p
  | PathExists _ | WalkTree _ => True
  | _ => False
  end.
(** What git said of a scanned repository. *)
Definition as_git_said (tr : workspace_history) (s : ScannedRepo) : Prop :=
  Event (PathExists (div (sc_path s) ".git")) (Ok true) ∈ tr /\
  (exists out, git_said tr (head_argv (sc_path s)) out /\ sc_commit s = strip out) /\
  (exists out, git_said tr (origin_argv (sc_path s)) out /\ sc_url s = strip out).
Lemma as_git_said_app tr1 tr2 tr3 s : as_git_said tr2 s -> as_git_said (tr1 ++ tr2 ++ tr3) s.
Proof.
  unfold as_git_said, git_said. intros (H1 & (o1 & (e1 & H2) & ?) & (o2 & (e2 & H3) & ?)). rewrite !elem_of_app.
  split; [by auto|]. split; [exists o1|exists o2]; (split; [|done]); [exists e1|exists e2]; rewrite !elem_of_app; auto.
Qed.
Lemma as_git_said_all tr1 tr2 tr3 l : Forall (as_git_said tr2) l -> Forall (as_git_said (tr1 ++ tr2 ++ tr3)) l.
Proof. intros H. eapply Forall_impl; [exact H|]. intros s. apply as_git_said_app. Qed.

Section Scan.
Variable environ : gmap string string.
Variable timeout : string.

Lemma run_git_Ok argv error ov tr out :
  runs (run_git environ timeout argv error ov) tr (Ok out) -> tr = [Event (Git argv (run_env environ ov)) (Ok (0%Z, out))].
Proof.
  unfold run_git. intros H. apply runs_bind in H as [(t1 & t2 & [rc o] & -> & H1 & H2)|(? & [=] & _)].
  apply runs_catch in H1 as [(a & [= <-] & H1)|(u1 & u2 & e & _ & _ & H1)].
  - apply runs_call in H1 as ->. destruct (Z.eqb_spec rc 0) as [Hrc|]; [|by apply runs_Raise in H2 as [_ [=]]]. subst rc.
    by apply runs_Ret in H2 as [-> [= ->]].
  - destruct e; try (by apply runs_Raise in H1 as [_ [=]]). destruct errno; by apply runs_Raise in H1 as [_ [=]].
Qed.

Lemma scan_repo_Ok p tr s :
  runs (scan_repo environ timeout p) tr (Ok s) -> as_git_said (Event (PathExists (div p ".git")) (Ok true) :: tr) s /\ sc_path s = p.
Proof.
  unfold scan_repo. intros H. apply runs_bind in H as [(t1 & t2 & head & -> & H1 & H)|(? & [=] & _)]. apply run_git_Ok in H1 as ->.
  apply runs_bind in H as [(t3 & t4 & url & -> & H2 & H)|(? & [=] & _)]. apply run_git_Ok in H2 as ->.
  apply runs_Ret in H as [-> [= ->]]. split; [|done]. split; [by left|].
  split; [exists head|exists url]; (split; [eexists|done]); [right; left|right; right; left].
Qed.

Lemma walk_Ok t p tr l : runs (walk environ timeout p t) tr (Ok l) -> Forall (as_git_said tr) l.
Proof.
  revert p tr l. induction t as [subs IH] using dirtree_ind'. intros p tr l H. cbn [walk] in H.
  apply runs_bind_call in H as ([[]|e] & t1 & -> & H); [| |by destruct H as [_ [=]]].
  - apply runs_bind in H as [(t2 & t3 & s & -> & H1 & H)|(? & [=] & _)]. apply runs_Ret in H as [-> [= ->]].
    apply scan_repo_Ok in H1 as [H1 _]. rewrite app_nil_r. by constructor.
  - change (Event (PathExists (div p ".git")) (Ok false) :: t1) with ([Event (PathExists (div p ".git")) (Ok false)] ++ t1).
    rewrite <- (app_nil_r t1). apply as_git_said_all. revert t1 l H. induction IH as [|[name sub] subs Hsub _ IHs]; intros tr l H.
    + by apply runs_Ret in H as [-> [= ->]].
    + apply runs_bind in H as [(t2 & t3 & here & -> & H1 & H)|(? & [=] & _)].
      apply runs_bind in H as [(t4 & t5 & rest & -> & H2 & H)|(? & [=] & _)]. apply runs_Ret in H as [-> [= ->]].
      apply Forall_app. split; [apply (as_git_said_all []); by eapply Hsub|]. rewrite app_nil_r, <- (app_nil_r t4). apply as_git_said_all. by apply IHs.
Qed.

Lemma only_run_git (f : forall R, workspace_op R -> Prop) argv error ov : f _ (Git argv (run_env environ ov)) -> only f (run_git environ timeout argv error ov).
Proof. intros H. unfold run_git. solve_only. Qed.
Lemma only_scan_repo p : only reads_only (scan_repo environ timeout p).
Proof.
  unfold scan_repo. apply only_bind; [apply only_run_git; exists p; by left|]. intros c.
  apply only_bind; [apply only_run_git; exists p; by right|]. done.
Qed.
Lemma only_walk t p : only reads_only (walk environ timeout p t).
Proof.
  revert p. induction t as [subs IH] using dirtree_ind'. intros p. cbn [walk]. apply only_bind; [by apply only_call|]. intros [].
  - apply only_bind; [apply only_scan_repo|done].
  - induction IH as [|[name sub] subs Hsub _ IHs]; [done|]. apply only_bind; [apply Hsub|]. intros here. by apply only_bind.
Qed.

(** A scan reads and does not change the workspace, and reports of every checkout it meets the
    commit and the remote that git gave for that very path in this scan. *)
Theorem scan_is_faithful roots tr o :
  runs (scan environ timeout roots) tr o ->
  Forall (event_sat reads_only) tr /\ match o with Ok l => Forall (as_git_said tr) l | Err _ => True end.
Proof.
  split.
  - eapply only_runs; [|exact H]. clear H. induction roots as [|root roots IH]; [done|]. cbn. apply only_bind; [by apply only_call|].
    intros []; [|done]. apply only_bind; [|intros here; by apply only_bind]. apply only_bind; [by apply only_call|]. intros t. apply only_walk.
  - destruct o as [l|e]; [|done]. revert tr l H. induction roots as [|root roots IH]; intros tr l H; [by apply runs_Ret in H as [-> [= ->]]|].
    cbn [scan] in H. apply runs_bind_call in H as ([[]|e] & t1 & -> & H); [| |by destruct H as [_ [=]]].
    + apply runs_bind in H as [(t2 & t3 & here & -> & H1 & H)|(? & [=] & _)].
      apply runs_bind in H as [(t4 & t5 & rest & -> & H2 & H)|(? & [=] & _)]. apply runs_Ret in H as [-> [= ->]]. rewrite app_nil_r.
      apply runs_bind_call in H1 as ([t|e] & t6 & -> & H1); [|by destruct H1 as [_ [=]]]. apply Forall_app. split.
      * apply (as_git_said_all [_; _]). by eapply walk_Ok.
      * rewrite <- (app_nil_r t4). change (?a :: (?b :: ?c) ++ ?d) with ((a :: b :: c) ++ d). apply as_git_said_all. by apply IH.
    + rewrite <- (app_nil_r t1). change (?a :: ?d) with ([a] ++ d). apply as_git_said_all. by apply IH.
Qed.
End Scan.

(** ** A concrete checkout *)

Definition sample_dest : path := path_of "/w/oca/web".
(** A clean checkout at another commit; the counter names temporary directories. *)
Definition sample_git (R : Type) (e : workspace_op R) (w : nat) : result exn R * nat :=
  match e in workspace_op R return result exn R * nat with
  | Git argv _ => (Ok (0%Z, if bool_decide (argv = head_argv sample_dest) then "0ld" else ""), w)
  | PathExists p => (Ok true, w)
  | IsRegular _ => (Ok false, w)
  | MakeTemp dir => (Ok (div dir ("tmp" +:+ pretty w)), S w)
  | WalkTree _ => (Ok (Dir [("web", Dir [])]), w)
  | MakeDirs _ | Replace _ _ | RemoveTree _ => (Ok tt, w)
  end.
Definition sample_checkout : workspace_prog unit := checkout ∅ "60" "https://t0ken@host/web" "c0ffee" sample_dest None.

(** The new clone is in place, and the prior checkout is gone. *)
Example sample_moves :
  let run := exec sample_git sample_checkout 0 in
  run.1.1 = Ok tt /\ moves run.1.2 = [(sample_dest, path_of "/w/oca/tmp1/web"); (path_of "/w/oca/tmp0", sample_dest)].
Proof. by vm_compute. Qed.

Lemma local_work_is_preserved_witness :
  plain_segment (path_name sample_dest) = true /\
  let run := exec sample_git sample_checkout 0 in
  run.1.1 = Ok tt /\ (already_there "c0ffee" sample_dest run.1.2 \/ delivered "c0ffee" sample_dest run.1.2).
Proof.
  assert (Hn : plain_segment (path_name sample_dest) = true) by (vm_compute; reflexivity).
  split; [exact Hn|]. cbv zeta. assert (Hok : (exec sample_git sample_checkout 0).1.1 = Ok tt) by (vm_compute; reflexivity).
  split; [exact Hok|].
  exact (proj2 (local_work_is_preserved ∅ "60" "https://t0ken@host/web" "c0ffee" sample_dest None _ _ Hn
    (exec_runs sample_git sample_checkout 0)) Hok).
Defined.

(** With a failing remote, the message is the same for another URL. *)
Definition broken_git (R : Type) (e : workspace_op R) (w : nat) : result exn R * nat :=
  match e with
  | Git argv _ => if bool_decide (git_subcommand argv = "clone") then (Ok (128%Z, "fatal: t0ken"), w) else sample_git _ (Git argv ∅) w
  | e => sample_git _ e w
  end.
Lemma checkout_tells_nothing_witness :
  let run := exec broken_git sample_checkout 0 in
  run.1.1 = Err (CheckoutError "git clone failed with exit code 128") /\
  exists tr', Forall2 same_answer run.1.2 tr' /\
    runs (checkout ∅ "60" "https://host/other" "c0ffee" sample_dest (Some {["GIT_ASKPASS" := "s3cret"]})) tr'
      (Err (CheckoutError "git clone failed with exit code 128")).
Proof.
  cbv zeta. assert (He : (exec broken_git sample_checkout 0).1.1 = Err (CheckoutError "git clone failed with exit code 128")) by (vm_compute; reflexivity).
  split; [exact He|]. rewrite <- He.
  exact (checkout_tells_nothing ∅ "60" "https://t0ken@host/web" "https://host/other" "c0ffee" sample_dest None
    (Some {["GIT_ASKPASS" := "s3cret"]}) _ _ (exec_runs broken_git sample_checkout 0)).
Defined.

Lemma scan_is_faithful_witness :
  let run := exec sample_git (scan ∅ "60" [path_of "/w/oca"]) 0 in
  run.1.1 = Ok [mkScannedRepo (path_of "/w/oca") "" ""] /\
  Forall (as_git_said run.1.2) [mkScannedRepo (path_of "/w/oca") "" ""].
Proof.
  cbv zeta. assert (Hok : (exec sample_git (scan ∅ "60" [path_of "/w/oca"]) 0).1.1 = Ok [mkScannedRepo (path_of "/w/oca") "" ""])
    by (vm_compute; reflexivity).
  split; [exact Hok|]. pose proof (exec_runs sample_git (scan ∅ "60" [path_of "/w/oca"]) 0) as Hr. rewrite Hok in Hr.
  exact (proj2 (scan_is_faithful ∅ "60" [path_of "/w/oca"] _ _ Hr)).
Defined.
