(* ===== verification/Registry.v ===== *)
(** * The instance registry ([odoo_forge_instances_postgres/adapter.py], [fakes.py])

    The PostgreSQL adapter as programs over its SQL statements, each one call that executes a
    statement and fetches its rows; the in-memory registry the tests use; and a sequential
    database that gives the statements their meaning, with injected failures. *)

From S2P Require Import Prelude Effects Values.

(** ** Rows *)

(** The primary key (tenant_id, project_id, instance_id). *)
Definition row_key : Type := string * string * string.
Record base_columns : Type := mkBaseColumns { bc_identifier : string; bc_kind : string; bc_ownership : string }.
(** The nullable receipt columns. *)
Record columns : Type := mkColumns {
  c_base : base_columns; c_operation_id : option string; c_request_digest : option string;
  c_owned_resource_ids : option (list string); c_live_proof_expected : option bool }.
Definition base_row : Type := row_key * base_columns.
Definition full_row : Type := row_key * columns.

#[export] Instance base_columns_eq_dec : EqDecision base_columns.
Proof. solve_decision. Defined.
#[export] Instance columns_eq_dec : EqDecision columns.
Proof. solve_decision. Defined.

Inductive sql_op : Type -> Type :=
| Acquire : sql_op unit
| Release : sql_op unit
| Commit : sql_op unit
| Rollback : sql_op unit
| StoreReceiptCheck (k : row_key) : sql_op (option (option string))
| StoreRow (r : base_row) : sql_op (option base_row)
| GetRow (k : row_key) : sql_op (option base_row)
| ListRows (tenant project : string) : sql_op (list base_row)
| RegisterLookup (operation : string) (k : row_key) : sql_op (list full_row)
| RegisterInsert (r : full_row) : sql_op (option full_row).
Definition sql_prog := prog sql_op exn.

(** ** Records and rows *)

Definition ownership_value (o : ResourceOwnership) : string :=
  match o with CREATED => "created" | ADOPTED => "adopted" | EXTERNAL => "external" end.
(** [ResourceOwnership(text)] *)
Definition ownership_of (text : string) : result exn ResourceOwnership :=
  if bool_decide (text = "created") then Ok CREATED
  else if bool_decide (text = "adopted") then Ok ADOPTED
  else if bool_decide (text = "external") then Ok EXTERNAL
  else Err (ValueError "not a valid ResourceOwnership").
Definition nonempty (text : string) : result exn unit :=
  ensure (negb (bool_decide (text = ""))) (ValueError "String should have at least 1 character").
(** A column read where a string is needed. *)
Definition text_column (c : option string) : result exn string :=
  match c with Some s => Ok s | None => Err (ValueError "Input should be a valid string") end.

Definition pointer_parameters (p : InstancePointer) : row_key :=
  (tenant_value (tenant (ptr_scope p)), project_id (ptr_scope p), instance_value (ptr_instance_id p)).
Definition base_of (r : ResourceRef) : base_columns :=
  mkBaseColumns (rr_identifier r) (rr_kind r) (ownership_value (rr_ownership r)).
Definition record_parameters (r : InstanceRecord) : base_row := (pointer_parameters (rec_pointer r), base_of (rec_resource r)).
Definition receipt_columns (r : ResourceRef) (receipt : OwnershipReceipt) : columns :=
  mkColumns (base_of r) (Some (operation_id (or_operation receipt))) (Some (request_digest (or_operation receipt)))
    (Some (or_owned_resource_ids receipt)) (Some (or_live_proof_expected receipt)).
Definition receipt_record_parameters (r : InstanceRecord) (receipt : OwnershipReceipt) : full_row :=
  (pointer_parameters (rec_pointer r), receipt_columns (rec_resource r) receipt).

Definition record_from_row (row : base_row) : result exn InstanceRecord :=
  let '((tenant_id, project, instance_id), b) := row in
  nonempty tenant_id ;!
  nonempty instance_id ;!
  let! ownership := ownership_of (bc_ownership b) in
  nonempty (bc_kind b) ;!
  Ok (mkInstanceRecord
        (mkInstancePointer (mkProjectScope (mkTenantId tenant_id) project) (mkInstanceId instance_id))
        (mkResourceRef (bc_identifier b) (bc_kind b) ownership) None).
Definition record_from_receipt_row (row : full_row) : result exn InstanceRecord :=
  let! record := record_from_row (row.1, c_base row.2) in
  let! operation := text_column (c_operation_id row.2) in
  let! digest := text_column (c_request_digest row.2) in
  nonempty operation ;!
  nonempty digest ;!
  match c_owned_resource_ids row.2 with
  | None => Err (TypeError "'NoneType' object is not iterable")
  | Some owned =>
    match c_live_proof_expected row.2 with
    | None => Err (ValueError "Input should be a valid boolean")
    | Some live =>
      Ok (mkInstanceRecord (rec_pointer record) (rec_resource record)
            (Some (mkOwnershipReceipt (mkDurableOperationIdentity operation digest) owned live)))
    end
  end.

(** ** The adapter *)

(** [_transaction], inside [with self._acquire() as connection]. *)
Definition transaction {A : Type} (operation : sql_prog A) : sql_prog A :=
  call Acquire ;*
  let* r := attempt (catch (let* a := operation in call Commit ;* Ret a)
                       (fun e => let* _ := attempt (call Rollback) in Raise e)) in
  call Release ;* lift r.

Definition pg_store (record : InstanceRecord) : sql_prog InstanceRecord :=
  transaction (
    let* existing := call (StoreReceiptCheck (pointer_parameters (rec_pointer record))) in
    match existing with
    | Some (Some _) => Raise ReceiptOverwriteRejectedError
    | _ =>
      let* row := call (StoreRow (record_parameters record)) in
      match row with
      | None => Raise (RuntimeError "store did not return an authoritative row")
      | Some r => lift (record_from_row r)
      end
    end).

Definition pg_get (pointer : InstancePointer) : sql_prog InstanceRecord :=
  transaction (
    let* row := call (GetRow (pointer_parameters pointer)) in
    match row with
    | None => Raise InstanceRecordNotFoundError
    | Some r => lift (record_from_row r)
    end).

Fixpoint all_records (rows : list base_row) : result exn (list InstanceRecord) :=
  match rows with
  | [] => Ok []
  | row :: rows' => let! r := record_from_row row in let! rs := all_records rows' in Ok (r :: rs)
  end.
Definition pg_list (scope : ProjectScope) : sql_prog (list InstanceRecord) :=
  transaction (let* rows := call (ListRows (tenant_value (tenant scope)) (project_id scope)) in lift (all_records rows)).

(** The first row that reads as [record]. *)
Fixpoint first_equal (record : InstanceRecord) (rows : list full_row) : result exn (option InstanceRecord) :=
  match rows with
  | [] => Ok None
  | row :: rows' =>
    let! existing := record_from_receipt_row row in
    if bool_decide (existing = record) then Ok (Some existing) else first_equal record rows'
  end.
Definition matching_registered_row (record : InstanceRecord) (receipt : OwnershipReceipt) : sql_prog (option InstanceRecord) :=
  let* rows := call (RegisterLookup (operation_id (or_operation receipt)) (pointer_parameters (rec_pointer record))) in
  let* found := lift (first_equal record rows) in
  match found, rows with
  | Some existing, _ => Ret (Some existing)
  | None, [] => Ret None
  | None, _ => Raise InstanceRegistrationConflictError
  end.
Definition pg_register (record : InstanceRecord) : sql_prog InstanceRecord :=
  match rec_receipt record with
  | None => Raise MissingReceiptError
  | Some receipt =>
    transaction (
      let* existing := matching_registered_row record receipt in
      match existing with
      | Some r => Ret r
      | None =>
        let* inserted := call (RegisterInsert (receipt_record_parameters record receipt)) in
        match inserted with
        | Some row => lift (record_from_receipt_row row)
        | None =>
          let* now := matching_registered_row record receipt in
          match now with
          | Some r => Ret r
          | None => Raise InstanceRegistrationConflictError
          end
        end
      end)
  end.

(** ** The in-memory registry *)

Record fake_registry : Type := mkFakeRegistry {
  fk_records : gmap row_key InstanceRecord; fk_by_operation : gmap string InstanceRecord }.
Definition empty_fake : fake_registry := mkFakeRegistry ∅ ∅.

Definition by_instance_id (a b : InstanceRecord) : Prop :=
  str_le (instance_value (ptr_instance_id (rec_pointer a))) (instance_value (ptr_instance_id (rec_pointer b))).
#[export] Instance by_instance_id_dec : RelDecision by_instance_id.
Proof. intros a b. unfold by_instance_id. apply _. Defined.
Definition in_scope (tenant project : string) (k : row_key) : Prop := k.1.1 = tenant /\ k.1.2 = project.
#[export] Instance in_scope_dec tenant project k : Decision (in_scope tenant project k).
Proof. unfold in_scope. apply _. Defined.

Definition fake_store (record : InstanceRecord) (s : fake_registry) : result exn InstanceRecord * fake_registry :=
  let k := pointer_parameters (rec_pointer record) in
  match fk_records s !! k ≫= rec_receipt with
  | Some _ => (Err ReceiptOverwriteRejectedError, s)
  | None => (Ok record, mkFakeRegistry (<[k := record]> (fk_records s)) (fk_by_operation s))
  end.
Definition fake_get (pointer : InstancePointer) (s : fake_registry) : result exn InstanceRecord :=
  match fk_records s !! pointer_parameters pointer with
  | Some r => Ok r
  | None => Err InstanceRecordNotFoundError
  end.
Definition fake_list (scope : ProjectScope) (s : fake_registry) : list InstanceRecord :=
  merge_sort by_instance_id
    (map snd (filter (fun kr => in_scope (tenant_value (tenant scope)) (project_id scope) kr.1) (map_to_list (fk_records s)))).
Definition fake_register (record : InstanceRecord) (s : fake_registry) : result exn InstanceRecord * fake_registry :=
  match rec_receipt record with
  | None => (Err MissingReceiptError, s)
  | Some receipt =>
    let operation := operation_id (or_operation receipt) in
    let k := pointer_parameters (rec_pointer record) in
    let existing := match fk_by_operation s !! operation with Some r => Some r | None => fk_records s !! k end in
    match existing with
    | Some r => if bool_decide (r = record) then (Ok r, s) else (Err InstanceRegistrationConflictError, s)
    | None => (Ok record, mkFakeRegistry (<[k := record]> (fk_records s)) (<[operation := record]> (fk_by_operation s)))
    end
  end.

(** ** What the statements mean

    [migrations/0001_instance_registry.sql]: rows by primary key, the operation of a receipt
    unique.  [ON CONFLICT] keeps the receipt columns; a text order is that of the bytes. *)

Definition table : Type := gmap row_key columns.
(** A statement can fail, before it takes effect or after. *)
Record failure : Type := mkFailure { fl_applied : bool; fl_exn : exn }.
Record database : Type := mkDatabase { db_committed : table; db_working : table; db_failures : list (option failure) }.

Definition rows_in (tenant project : string) (t : table) : list full_row :=
  filter (fun kc : full_row => in_scope tenant project kc.1) (map_to_list t).
Definition by_key_instance (a b : base_row) : Prop := str_le a.1.2 b.1.2.
#[export] Instance by_key_instance_dec : RelDecision by_key_instance.
Proof. intros a b. unfold by_key_instance. apply _. Defined.
Definition has_operation (operation : string) (kc : full_row) : Prop := c_operation_id kc.2 = Some operation.
#[export] Instance has_operation_dec operation kc : Decision (has_operation operation kc).
Proof. unfold has_operation. apply _. Defined.
Definition looked_up (operation : string) (k : row_key) (t : table) : list full_row :=
  filter (fun kc : full_row => has_operation operation kc \/ kc.1 = k) (map_to_list t).
Definition conflicting (k : row_key) (c : columns) (t : table) : bool :=
  bool_decide (is_Some (t !! k)) ||
  match c_operation_id c with
  | Some operation => negb (bool_decide (filter (has_operation operation) (map_to_list t) = []))
  | None => false
  end.
Definition stored_columns (old : option columns) (b : base_columns) : columns :=
  match old with
  | Some c => mkColumns b (c_operation_id c) (c_request_digest c) (c_owned_resource_ids c) (c_live_proof_expected c)
  | None => mkColumns b None None None None
  end.

(** The answer and the effect of a statement that succeeds. *)
Definition answered (R : Type) (e : sql_op R) (d : table * table) : R * (table * table) :=
  let '(committed, working) := d in
  match e in sql_op R return R * (table * table) with
  | Acquire | Release | Rollback => (tt, (committed, committed))
  | Commit => (tt, (working, working))
  | StoreReceiptCheck k => (c_operation_id <$> working !! k, d)
  | StoreRow (k, b) => (Some (k, b), (committed, <[k := stored_columns (working !! k) b]> working))
  | GetRow k => ((fun c => (k, c_base c)) <$> working !! k, d)
  | ListRows tenant project =>
    (merge_sort by_key_instance (map (fun kc => (kc.1, c_base kc.2)) (rows_in tenant project working)), d)
  | RegisterLookup operation k => (looked_up operation k working, d)
  | RegisterInsert (k, c) =>
    if conflicting k c working then (None, d) else (Some (k, c), (committed, <[k := c]> working))
  end.
Definition postgres (R : Type) (e : sql_op R) (d : database) : result exn R * database :=
  let now := (db_committed d, db_working d) in
  let '(a, after) := answered R e now in
  match db_failures d with
  | Some f :: fs =>
    let '(committed, working) := if fl_applied f then after else now in (Err (fl_exn f), mkDatabase committed working fs)
  | fs => (Ok a, mkDatabase after.1 after.2 (tail fs))
  end.
