(* ===== verification/RegistryFacts.v ===== *)
(** * Properties of the instance registry

    Without failures the PostgreSQL adapter answers like the in-memory registry, except that
    what it reads back has lost its receipt; under every schedule of failures the receipts it
    has committed are permanent; and over it the control plane never recognises a retry. *)

From S2P Require Import Prelude Effects Values Backend ControlPlane ControlPlaneFacts Registry.

#[local] Arguments nonempty : simpl never.
#[local] Arguments ownership_of : simpl never.

(** ** Records and rows *)

(** What pydantic guarantees of a record. *)
Definition sound_record (r : InstanceRecord) : Prop :=
  tenant_value (tenant (ptr_scope (rec_pointer r))) <> "" /\ instance_value (ptr_instance_id (rec_pointer r)) <> "" /\
  rr_kind (rec_resource r) <> "" /\
  match rec_receipt r with
  | Some receipt => operation_id (or_operation receipt) <> "" /\ request_digest (or_operation receipt) <> ""
  | None => True
  end.
Definition without_receipt (r : InstanceRecord) : InstanceRecord := mkInstanceRecord (rec_pointer r) (rec_resource r) None.
(** The columns a record is stored in. *)
Definition columns_of (r : InstanceRecord) : columns :=
  match rec_receipt r with
  | Some receipt => receipt_columns (rec_resource r) receipt
  | None => stored_columns None (base_of (rec_resource r))
  end.

Lemma ownership_of_value o : ownership_of (ownership_value o) = Ok o.
Proof. by destruct o. Qed.
Lemma nonempty_Ok text : text <> "" -> nonempty text = Ok tt.
Proof. intros H. unfold nonempty. by rewrite bool_decide_false. Qed.

Lemma record_from_row_of r :
  sound_record r -> record_from_row (pointer_parameters (rec_pointer r), c_base (columns_of r)) = Ok (without_receipt r).
Proof.
  destruct r as [[[[tenant] project] [instance]] [identifier kind ownership] receipt]. intros (Ht & Hi & Hk & _). cbn in *.
  unfold without_receipt, columns_of. cbn. destruct receipt as [receipt|]; cbn; rewrite !nonempty_Ok by done; cbn;
    by rewrite ownership_of_value.
Qed.
Lemma record_from_row_base r :
  sound_record r -> record_from_row (record_parameters r) = Ok (without_receipt r).
Proof. intros H. rewrite <- record_from_row_of by done. unfold columns_of, record_parameters. by destruct (rec_receipt r). Qed.

Lemma record_from_receipt_row_of r receipt :
  sound_record r -> rec_receipt r = Some receipt ->
  record_from_receipt_row (pointer_parameters (rec_pointer r), columns_of r) = Ok r.
Proof.
  intros Hs Hr. unfold record_from_receipt_row. cbn [fst snd]. rewrite record_from_row_of by done. cbn [result_bind].
  destruct Hs as (_ & _ & _ & Hs). unfold columns_of. rewrite Hr in *. destruct Hs as [Ho Hd]. cbn. rewrite !nonempty_Ok by done. cbn.
  destruct r as [p res rc]. cbn in *. subst rc. by destruct receipt as [[op dg] owned live].
Qed.

#[local] Arguments record_from_row : simpl never.
#[local] Arguments record_from_receipt_row : simpl never.
#[local] Arguments pointer_parameters : simpl never.
#[local] Arguments stored_columns : simpl never.
#[local] Arguments rows_in : simpl never.
#[local] Arguments looked_up : simpl never.
#[local] Arguments conflicting : simpl never.
#[local] Arguments merge_sort : simpl never.

(** ** The database without failures *)

Definition settled (t : table) : database := mkDatabase t t [].

Lemma transaction_Ok {A : Type} (p : sql_prog A) t w a :
  leads postgres p (settled t) (Ok a) (mkDatabase t w []) -> leads postgres (transaction p) (settled t) (Ok a) (settled w).
Proof.
  intros H. unfold transaction. apply leads_bind_call. cbn. apply leads_attempt_bind. exists (Ok a), (settled w). split.
  - apply leads_catch. exists (Ok a), (settled w). split; [|done]. apply leads_bind. left. exists a, (mkDatabase t w []). split; [exact H|].
    apply leads_bind_call. cbn. by apply leads_Ret.
  - apply leads_bind_call. cbn. by apply leads_Ret.
Qed.
Lemma transaction_Err {A : Type} (p : sql_prog A) t w e :
  leads postgres p (settled t) (Err e) (mkDatabase t w []) -> leads postgres (transaction p) (settled t) (Err e) (settled t).
Proof.
  intros H. unfold transaction. apply leads_bind_call. cbn. apply leads_attempt_bind. exists (Err e), (settled t). split.
  - apply leads_catch. exists (Err e), (mkDatabase t w []). split; [apply leads_bind; right; eauto|].
    apply leads_attempt_bind. exists (Ok tt), (settled t). split; [by apply leads_call|by apply leads_Raise].
  - apply leads_bind_call. cbn. by apply leads_Raise.
Qed.

(** ** The in-memory registry and the table *)

Definition registered (r : InstanceRecord) (operation : string) : Prop :=
  exists receipt, rec_receipt r = Some receipt /\ operation_id (or_operation receipt) = operation.

Record represents (s : fake_registry) (t : table) : Prop := {
  rep_rows : t = columns_of <$> fk_records s;
  rep_keys k r : fk_records s !! k = Some r -> pointer_parameters (rec_pointer r) = k /\ sound_record r;
  rep_index operation r : fk_by_operation s !! operation = Some r <->
    exists k, fk_records s !! k = Some r /\ registered r operation }.

Lemma represents_empty : represents empty_fake ∅.
Proof.
  split; cbn.
  - by rewrite fmap_empty.
  - intros k r. by rewrite lookup_empty.
  - intros operation r. rewrite lookup_empty. split; [done|]. intros (k & H & _). by rewrite lookup_empty in H.
Qed.

Lemma represents_lookup s t k : represents s t -> t !! k = columns_of <$> fk_records s !! k.
Proof. intros [-> _ _]. apply lookup_fmap. Qed.

Lemma columns_of_operation r operation : c_operation_id (columns_of r) = Some operation <-> registered r operation.
Proof.
  unfold columns_of, registered. destruct (rec_receipt r) as [receipt|]; cbn.
  - split; [intros [= <-]; eauto|by intros (rc & [= <-] & ->)].
  - split; [done|by intros (rc & [=] & _)].
Qed.

(** ** What a lookup reads *)

(** A row that holds a record with its receipt, and one that holds a record without. *)
Definition holds (row : full_row) (r : InstanceRecord) : Prop :=
  row = (pointer_parameters (rec_pointer r), columns_of r) /\ sound_record r.
Definition readable (row : full_row) : Prop := exists r, holds row r /\ is_Some (rec_receipt r).
Definition legacy (row : full_row) : Prop := exists r, holds row r /\ rec_receipt r = None.
Definition legacy_error : exn := ValueError "Input should be a valid string".

Lemma record_from_receipt_row_legacy row : legacy row -> record_from_receipt_row row = Err legacy_error.
Proof.
  intros (r & [-> Hs] & Hr). unfold record_from_receipt_row. cbn [fst snd]. rewrite record_from_row_of by done.
  unfold columns_of. by rewrite Hr.
Qed.

Lemma first_equal_readable record rows :
  sound_record record -> is_Some (rec_receipt record) -> Forall readable rows ->
  first_equal record rows =
    Ok (if bool_decide ((pointer_parameters (rec_pointer record), columns_of record) ∈ rows) then Some record else None).
Proof.
  intros Hs Hrec. induction 1 as [|row rows (r & [-> Hr] & Hsome) _ IH]; [done|]. cbn [first_equal]. destruct Hsome as [receipt Hreceipt].
  rewrite (record_from_receipt_row_of r receipt) by done. cbn [result_bind].
  destruct (bool_decide_reflect (r = record)) as [Heq|Hne].
  - subst r. rewrite bool_decide_true; [done|by left].
  - rewrite IH. f_equal. apply (f_equal (fun b : bool => if b then Some record else None)).
    apply bool_decide_ext. rewrite elem_of_cons. split; [by right|]. intros [Heq|]; [|done]. destruct Hne. destruct Hrec as [receipt' Hrec].
    pose proof (record_from_receipt_row_of r receipt Hr Hreceipt) as H1.
    pose proof (record_from_receipt_row_of record receipt' Hs Hrec) as H2. assert (H3 : Ok r = Ok record) by (by rewrite <- H1, <- H2, Heq).
    by injection H3.
Qed.

Lemma first_equal_legacy record rows :
  Forall (fun row => readable row \/ legacy row) rows -> Exists legacy rows ->
  (pointer_parameters (rec_pointer record), columns_of record) ∉ rows -> first_equal record rows = Err legacy_error.
Proof.
  intros Hall Hex Hnot. induction Hall as [|row rows Hrow _ IH]; [by apply Exists_nil in Hex|]. cbn [first_equal].
  destruct Hrow as [(r & [-> Hr] & [receipt Hreceipt])|Hl]; [|by rewrite record_from_receipt_row_legacy].
  rewrite (record_from_receipt_row_of r receipt) by done. cbn [result_bind]. rewrite not_elem_of_cons in Hnot. destruct Hnot as [Hne Hnot].
  rewrite bool_decide_false by (intros ->; by apply Hne). apply IH; [|done]. apply Exists_cons in Hex as [(r' & [Hc _] & Hnone)|]; [|done].
  apply (f_equal snd) in Hc. cbn in Hc.
  assert (Hop : c_operation_id (columns_of r) = c_operation_id (columns_of r')) by by rewrite Hc.
  unfold columns_of in Hop. by rewrite Hreceipt, Hnone in Hop.
Qed.

Lemma looked_up_rows s t operation k row :
  represents s t ->
  row ∈ looked_up operation k t <->
  exists k' r, fk_records s !! k' = Some r /\ row = (k', columns_of r) /\ (registered r operation \/ k' = k).
Proof.
  intros Hrep. unfold looked_up. rewrite list_elem_of_filter. destruct row as [k' c]. change ((_ \/ _) /\ (k', c) ∈ map_to_list t) with ((has_operation operation (k', c) \/ k' = k) /\ (k', c) ∈ map_to_list t). rewrite (elem_of_map_to_list t k' c).
  rewrite (represents_lookup s t) by done. unfold has_operation. cbn. split.
  - intros [H (r & Hk & ->)%fmap_Some]. exists k', r. rewrite columns_of_operation in H. naive_solver.
  - intros (k2 & r & Hk & [= -> ->] & H). rewrite Hk, columns_of_operation. naive_solver.
Qed.

Lemma looked_up_all s t operation k :
  represents s t -> Forall (fun row => readable row \/ legacy row) (looked_up operation k t).
Proof.
  intros Hrep. apply Forall_forall. intros row (k' & r & Hk & -> & _)%(looked_up_rows s t operation k row Hrep).
  destruct (rep_keys s t Hrep k' r Hk) as [<- Hs]. destruct (rec_receipt r) as [receipt|] eqn:Hr; [left|right]; exists r; by rewrite Hr.
Qed.

(** ** One request *)

Inductive registry_request : Type :=
| QStore (record : InstanceRecord)
| QGet (pointer : InstancePointer)
| QList (scope : ProjectScope)
| QRegister (record : InstanceRecord).

Definition one {A : Type} (a : A) : list A := [a].
Definition pg_perform (q : registry_request) : sql_prog (list InstanceRecord) :=
  match q with
  | QStore r => let* x := pg_store r in Ret [x]
  | QGet p => let* x := pg_get p in Ret [x]
  | QList scope => pg_list scope
  | QRegister r => let* x := pg_register r in Ret [x]
  end.
Definition result_map {A B : Type} (f : A -> B) (r : result exn A) : result exn B :=
  match r with Ok a => Ok (f a) | Err e => Err e end.
Definition fake_perform (q : registry_request) (s : fake_registry) : result exn (list InstanceRecord) * fake_registry :=
  match q with
  | QStore r => let '(x, s') := fake_store r s in (result_map one x, s')
  | QGet p => (result_map one (fake_get p s), s)
  | QList scope => (Ok (fake_list scope s), s)
  | QRegister r => let '(x, s') := fake_register r s in (result_map one x, s')
  end.

(** The requests callers make: records that pydantic has validated, and no receipt to [store]. *)
Definition admissible (q : registry_request) : Prop :=
  match q with
  | QStore r => sound_record r /\ rec_receipt r = None
  | QRegister r => sound_record r
  | _ => True
  end.
(** The pointer of a registration holds a record without a receipt. *)
Definition over_legacy (q : registry_request) (s : fake_registry) : bool :=
  match q with
  | QRegister r =>
    bool_decide (is_Some (rec_receipt r)) &&
    match fk_records s !! pointer_parameters (rec_pointer r) with
    | Some r' => bool_decide (rec_receipt r' = None)
    | None => false
    end
  | _ => false
  end.
(** What the adapter answers where the in-memory registry answers [res]. *)
Definition as_adapter (q : registry_request) (s : fake_registry) (res : result exn (list InstanceRecord))
    : result exn (list InstanceRecord) :=
  match q with
  | QGet _ | QList _ => result_map (map without_receipt) res
  | _ => if over_legacy q s then Err legacy_error else res
  end.

Lemma represents_insert s t k r by_operation :
  represents s t -> k = pointer_parameters (rec_pointer r) -> sound_record r ->
  (forall operation r', by_operation !! operation = Some r' <->
     exists k', <[k := r]> (fk_records s) !! k' = Some r' /\ registered r' operation) ->
  represents (mkFakeRegistry (<[k := r]> (fk_records s)) by_operation) (<[k := columns_of r]> t).
Proof.
  intros [-> Hkeys _] -> Hs Hindex. split; cbn; [by rewrite fmap_insert| |done].
  intros k' r' [[<- <-]|[_ H]]%lookup_insert_Some; [done|by apply Hkeys].
Qed.

Lemma registered_unique r operation operation' : registered r operation -> registered r operation' -> operation = operation'.
Proof. intros (rc & H1 & <-) (rc' & H2 & <-). by simplify_eq. Qed.

(** A new registration extends the index. *)
Lemma index_register s t k r operation :
  represents s t -> fk_records s !! k = None -> fk_by_operation s !! operation = None -> registered r operation ->
  forall operation' r', <[operation := r]> (fk_by_operation s) !! operation' = Some r' <->
    exists k', <[k := r]> (fk_records s) !! k' = Some r' /\ registered r' operation'.
Proof.
  intros Hrep Hk Ho Hr operation' r'. rewrite lookup_insert_Some, (rep_index s t Hrep). split.
  - intros [[<- <-]|[Hne (k' & Hk' & Hr')]]; [exists k; by rewrite lookup_insert_eq|].
    exists k'. split; [|done]. rewrite lookup_insert_ne; [done|]. intros ->. by rewrite Hk in Hk'.
  - intros (k' & [[<- <-]|[Hne Hk']]%lookup_insert_Some & Hr').
    + left. split; [by eapply registered_unique|done].
    + destruct (decide (operation = operation')) as [Heq|Hneq]; [|right; eauto]. subst operation'. exfalso.
      assert (fk_by_operation s !! operation = Some r') as He by (apply (rep_index s t Hrep); eauto). by rewrite Ho in He.
Qed.

(** Storing over a record without a receipt leaves the index alone. *)
Lemma index_store s t k r :
  represents s t -> rec_receipt r = None -> fk_records s !! k ≫= rec_receipt = None ->
  forall operation r', fk_by_operation s !! operation = Some r' <->
    exists k', <[k := r]> (fk_records s) !! k' = Some r' /\ registered r' operation.
Proof.
  intros Hrep Hr Hk operation r'. rewrite (rep_index s t Hrep). split; intros (k' & Hk' & Hop).
  - exists k'. split; [|done]. rewrite lookup_insert_ne; [done|]. intros <-. destruct Hop as (rc & Hrc & _). by rewrite Hk' in Hk; cbn in Hk; rewrite Hk in Hrc.
  - apply lookup_insert_Some in Hk' as [[<- <-]|[_ Hk']]; [destruct Hop as (rc & Hrc & _); by rewrite Hr in Hrc|eauto].
Qed.

Lemma stored_columns_of s t k r :
  represents s t -> rec_receipt r = None -> fk_records s !! k ≫= rec_receipt = None ->
  stored_columns (t !! k) (base_of (rec_resource r)) = columns_of r.
Proof.
  intros Hrep Hr Hk. rewrite (represents_lookup s t) by done. unfold columns_of at 2. rewrite Hr.
  destruct (fk_records s !! k) as [r'|]; [|done]. cbn in *. unfold columns_of. by rewrite Hk.
Qed.

Lemma pg_store_agrees r s t :
  represents s t -> sound_record r -> rec_receipt r = None ->
  exists t', leads postgres (pg_store r) (settled t) (fake_store r s).1 (settled t') /\ represents (fake_store r s).2 t'.
Proof.
  intros Hrep Hs Hr. set (k := pointer_parameters (rec_pointer r)). unfold fake_store, pg_store. fold k.
  pose proof (represents_lookup s t k Hrep) as Hl.
  destruct (fk_records s !! k ≫= rec_receipt) as [rc|] eqn:Hk.
  - destruct (fk_records s !! k) as [r'|] eqn:Hr'; [|done]. cbn in Hk. exists t. split; [|done]. eapply (transaction_Err _ t t).
    apply leads_bind_call. cbn. rewrite Hl. cbn. unfold columns_of. rewrite Hk. by apply leads_Raise.
  - exists (<[k := columns_of r]> t). split; [|apply represents_insert; [done|done|done|by eapply index_store]].
    apply transaction_Ok. apply leads_bind_call. cbn. rewrite Hl.
    assert (Hnone : match c_operation_id <$> (columns_of <$> fk_records s !! k) with Some (Some _) => False | _ => True end).
    { destruct (fk_records s !! k) as [r'|]; [|done]. cbn in *. unfold columns_of. by rewrite Hk. }
    destruct (c_operation_id <$> (columns_of <$> fk_records s !! k)) as [[op|]|]; [done| |];
      (apply leads_bind_call; cbn; fold k; rewrite (stored_columns_of s t k r) by done; apply leads_lift;
       split; [|done]; change (k, base_of (rec_resource r)) with (record_parameters r); rewrite (record_from_row_base r) by done; unfold without_receipt; rewrite <- Hr; by destruct r).
Qed.

Lemma pg_get_agrees p s t :
  represents s t -> leads postgres (pg_get p) (settled t) (result_map without_receipt (fake_get p s)) (settled t).
Proof.
  intros Hrep. unfold pg_get, fake_get. set (k := pointer_parameters p). pose proof (represents_lookup s t k Hrep) as Hl.
  destruct (fk_records s !! k) as [r|] eqn:Hk.
  - apply transaction_Ok. apply leads_bind_call. cbn. fold k. rewrite Hl. cbn. apply leads_lift. split; [|done].
    destruct (rep_keys s t Hrep k r Hk) as [<- Hs]. by rewrite record_from_row_of.
  - eapply transaction_Err. apply leads_bind_call. cbn. fold k. rewrite Hl. cbn. by apply leads_Raise.
Qed.

Lemma all_records_of l :
  Forall (fun kr : row_key * InstanceRecord => pointer_parameters (rec_pointer kr.2) = kr.1 /\ sound_record kr.2) l ->
  all_records (map (fun kr => (kr.1, c_base (columns_of kr.2))) l) = Ok (map (fun kr => without_receipt kr.2) l).
Proof.
  induction 1 as [|[k r] l [Hk Hs] _ IH]; [done|]. cbn [map all_records fst snd] in *. rewrite <- Hk, record_from_row_of by done.
  cbn [result_bind]. by rewrite IH.
Qed.

(** Sorting commutes with a map that respects the two orders on the list. *)
Lemma StronglySorted_map {A B : Type} (Q : relation A) (R : relation B) (f : A -> B) (l : list A) :
  (forall a b, a ∈ l -> b ∈ l -> Q a b -> R (f a) (f b)) -> StronglySorted Q l -> StronglySorted R (map f l).
Proof.
  intros Hf. induction 1 as [|a l _ IH Ha]; [by constructor|]. cbn. constructor.
  - apply IH. intros x y Hx Hy. apply Hf; by right.
  - apply Forall_fmap. rewrite Forall_forall in Ha |- *. intros b Hb. apply Hf; [by left|by right|by apply Ha].
Qed.
Lemma merge_sort_map {A B : Type} (Q : relation A) (R : relation B) `{!RelDecision Q, !RelDecision R, !Total Q, !Transitive Q, !Total R, !Transitive R}
    (f : A -> B) (l : list A) :
  (forall a b, a ∈ l -> b ∈ l -> Q a b -> R (f a) (f b)) ->
  (forall a b, a ∈ l -> b ∈ l -> R (f a) (f b) -> R (f b) (f a) -> f a = f b) ->
  merge_sort R (map f l) = map f (merge_sort Q l).
Proof.
  intros Hf Hanti. assert (Hp : Permutation (map f (merge_sort Q l)) (map f l)) by (by apply Permutation_map, merge_sort_Permutation).
  apply (StronglySorted_unique_strong R).
  - intros x y Hx Hy. rewrite merge_sort_Permutation in Hx. rewrite Hp in Hy.
    apply list_elem_of_fmap in Hx as (a & -> & Ha). apply list_elem_of_fmap in Hy as (b & -> & Hb). by apply Hanti.
  - apply (StronglySorted_merge_sort R).
  - apply (StronglySorted_map Q R).
    + intros a b Ha Hb. rewrite merge_sort_Permutation in Ha, Hb. by apply Hf.
    + apply (StronglySorted_merge_sort Q).
  - by rewrite merge_sort_Permutation, Hp.
Qed.

Lemma map_filter {A B : Type} (f : A -> B) (P : B -> Prop) (Q : A -> Prop) `{!forall x, Decision (P x), !forall x, Decision (Q x)} (l : list A) :
  (forall a, P (f a) <-> Q a) -> filter P (map f l) = map f (filter Q l).
Proof.
  intros Heq. induction l as [|a l IH]; [done|]. cbn [map]. rewrite !filter_cons. specialize (Heq a).
  destruct (decide (P (f a))), (decide (Q a)); cbn; rewrite ?IH; done || tauto.
Qed.

(** Sorting the rows of a scope and sorting its records is the same. *)
Definition scope_entries (scope : ProjectScope) (s : fake_registry) : list (row_key * InstanceRecord) :=
  filter (fun kr : row_key * InstanceRecord => in_scope (tenant_value (tenant scope)) (project_id scope) kr.1) (map_to_list (fk_records s)).
Definition by_entry (a b : row_key * InstanceRecord) : Prop := str_le a.1.2 b.1.2.
#[local] Instance by_entry_dec : RelDecision by_entry.
Proof. intros a b. unfold by_entry. apply _. Defined.
#[local] Instance by_entry_total : Total by_entry.
Proof. intros a b. apply str_le_total. Qed.
#[local] Instance by_entry_trans : Transitive by_entry.
Proof. intros a b c. apply str_le_trans. Qed.
#[local] Instance by_key_instance_total : Total by_key_instance.
Proof. intros a b. apply str_le_total. Qed.
#[local] Instance by_key_instance_trans : Transitive by_key_instance.
Proof. intros a b c. apply str_le_trans. Qed.
#[local] Instance by_instance_id_total : Total by_instance_id.
Proof. intros a b. apply str_le_total. Qed.
#[local] Instance by_instance_id_trans : Transitive by_instance_id.
Proof. intros a b c. apply str_le_trans. Qed.

Lemma scope_entry scope s t k r :
  represents s t -> (k, r) ∈ scope_entries scope s ->
  fk_records s !! k = Some r /\ k.1 = (tenant_value (tenant scope), project_id scope) /\
  pointer_parameters (rec_pointer r) = k /\ sound_record r.
Proof.
  intros Hrep. unfold scope_entries. rewrite list_elem_of_filter. intros [[H1 H2] Hin].
  apply elem_of_map_to_list in Hin. destruct (rep_keys s t Hrep k r Hin). split; [done|]. split; [|done].
  destruct k as [[a b] c]. cbn in *. by subst.
Qed.
Lemma scope_entry_unique scope s t a b :
  represents s t -> a ∈ scope_entries scope s -> b ∈ scope_entries scope s -> a.1.2 = b.1.2 -> a = b.
Proof.
  intros Hrep Ha Hb Heq. destruct a as [ka ra], b as [kb rb]. cbn in Heq.
  apply (scope_entry scope s t) in Ha as (Ha & Hka & _); [|done]. apply (scope_entry scope s t) in Hb as (Hb & Hkb & _); [|done].
  assert (ka = kb) as Hk. { destruct ka, kb. cbn in *. by subst. } subst kb. rewrite Ha in Hb. by injection Hb as ->.
Qed.

Lemma listed_rows scope s t :
  represents s t ->
  merge_sort by_key_instance (map (fun kc : full_row => (kc.1, c_base kc.2)) (rows_in (tenant_value (tenant scope)) (project_id scope) t)) =
  map (fun kr => (kr.1, c_base (columns_of kr.2))) (merge_sort by_entry (scope_entries scope s)).
Proof.
  intros Hrep. pose proof Hrep as [-> _ _]. unfold rows_in.
  change (map_to_list (columns_of <$> fk_records s : table)) with (map_to_list (columns_of <$> fk_records s)).
  rewrite (map_to_list_fmap columns_of (fk_records s)). change (prod_map id columns_of <$> map_to_list (fk_records s)) with (map (prod_map id columns_of) (map_to_list (fk_records s))). rewrite (map_filter _ _ (fun kr : row_key * InstanceRecord => in_scope (tenant_value (tenant scope)) (project_id scope) kr.1)) by (by intros []).
  fold (scope_entries scope s). rewrite map_map.
  rewrite (map_ext _ (fun kr : row_key * InstanceRecord => (kr.1, c_base (columns_of kr.2)))) by (by intros []). apply (merge_sort_map by_entry by_key_instance (fun kr : row_key * InstanceRecord => (kr.1, c_base (columns_of kr.2))) (scope_entries scope s));
    [intros a b _ _ Hab; exact Hab|].
  intros a b Ha Hb H1 H2. by rewrite (scope_entry_unique scope s (columns_of <$> fk_records s) a b Hrep Ha Hb (anti_symm str_le _ _ H1 H2)).
Qed.
Lemma listed_records scope s t :
  represents s t -> fake_list scope s = map snd (merge_sort by_entry (scope_entries scope s)).
Proof.
  intros Hrep. unfold fake_list. fold (scope_entries scope s).
  assert (Hid : forall a, a ∈ scope_entries scope s -> instance_value (ptr_instance_id (rec_pointer a.2)) = a.1.2).
  { intros [k r] Ha. apply (scope_entry scope s t) in Ha as (_ & _ & <- & _); done. }
  apply (merge_sort_map by_entry by_instance_id snd (scope_entries scope s)); unfold by_instance_id, by_entry.
  - intros a b Ha Hb. by rewrite !Hid.
  - intros a b Ha Hb. rewrite !Hid by done. intros H1 H2. by rewrite (scope_entry_unique scope s t a b Hrep Ha Hb (anti_symm str_le _ _ H1 H2)).
Qed.

Lemma pg_list_agrees scope s t :
  represents s t -> leads postgres (pg_list scope) (settled t) (Ok (map without_receipt (fake_list scope s))) (settled t).
Proof.
  intros Hrep. unfold pg_list. apply transaction_Ok. apply leads_bind_call. cbn.
  pose proof (listed_rows scope s t Hrep) as Hl. unfold full_row in Hl. rewrite Hl.
  apply leads_lift. split; [|done]. rewrite (listed_records scope s t Hrep), map_map. symmetry. apply all_records_of.
  apply Forall_forall. intros [k r] Hin. rewrite merge_sort_Permutation in Hin. by apply (scope_entry scope s t) in Hin as (_ & _ & ? & ?).
Qed.

(** ** Registering *)

Section Registering.
Context (s : fake_registry) (t : table) (r : InstanceRecord) (receipt : OwnershipReceipt).
Hypothesis rep : represents s t.
Hypothesis sound : sound_record r.
Hypothesis has_receipt : rec_receipt r = Some receipt.
Let operation := operation_id (or_operation receipt).
Let k := pointer_parameters (rec_pointer r).
Abbreviation matching_leads := (leads postgres (matching_registered_row r receipt) (settled t)).

Lemma registered_here : registered r operation.
Proof using has_receipt. by exists receipt. Qed.

Lemma matching_found : fk_records s !! k = Some r -> matching_leads (Ok (Some r)) (settled t).
Proof using rep sound has_receipt.
  intros Hk. unfold matching_registered_row. apply leads_bind_call. cbn. fold operation k.
  assert (Hin : (k, columns_of r) ∈ looked_up operation k t).
  { apply (looked_up_rows s t); [done|]. exists k, r. split; [done|]. split; [done|]. left. apply registered_here. }
  assert (Hall : Forall readable (looked_up operation k t)).
  { apply Forall_forall. intros row (k' & r' & Hk' & -> & Hor)%(looked_up_rows s t operation k row rep).
    destruct (rep_keys s t rep k' r' Hk') as [<- Hs']. exists r'. split; [done|].
    destruct Hor as [(rc & Hrc & _)|Heq]; [eauto|]. rewrite Heq, Hk in Hk'. injection Hk' as <-. by rewrite has_receipt. }
  rewrite (first_equal_readable r) by (rewrite ?has_receipt; eauto). rewrite bool_decide_true by done. cbn. by apply leads_Ret.
Qed.

Lemma matching_none :
  fk_by_operation s !! operation = None -> fk_records s !! k = None -> matching_leads (Ok None) (settled t).
Proof using rep.
  intros Ho Hk. unfold matching_registered_row. apply leads_bind_call. cbn. fold operation k.
  destruct (looked_up operation k t) as [|row rows] eqn:E; [by apply leads_Ret|].
  assert (Hin : row ∈ looked_up operation k t) by (rewrite E; by left).
  apply (looked_up_rows s t) in Hin as (k' & r' & Hk' & _ & [Hr'| ->]); [|by rewrite Hk in Hk'|done].
  assert (fk_by_operation s !! operation = Some r') as He by (apply (rep_index s t rep); eauto). by rewrite Ho in He.
Qed.

Lemma matching_refused k' r' :
  fk_records s !! k' = Some r' -> registered r' operation \/ k' = k -> fk_records s !! k <> Some r ->
  matching_leads (Err (if over_legacy (QRegister r) s then legacy_error else InstanceRegistrationConflictError)) (settled t).
Proof using rep sound has_receipt.
  intros Hk' Hor Hne. unfold matching_registered_row. apply leads_bind_call. cbn. fold operation k.
  assert (Hin : (k', columns_of r') ∈ looked_up operation k t) by (apply (looked_up_rows s t); [done|]; eauto).
  assert (Hnot : (k, columns_of r) ∉ looked_up operation k t).
  { intros (k2 & r2 & Hk2 & Heq & _)%(looked_up_rows s t operation k _ rep). pose proof (f_equal fst Heq) as H1. pose proof (f_equal snd Heq) as H2. cbn in H1, H2. subst k2.
    destruct (rep_keys s t rep k r2 Hk2) as [Hp Hs2]. assert (Hr2 : is_Some (rec_receipt r2)).
    { destruct (rec_receipt r2) as [rc|] eqn:Er; [eauto|]. apply (f_equal c_operation_id) in H2. unfold columns_of in H2. by rewrite has_receipt, Er in H2. }
    destruct Hr2 as [rc2 Hrc2]. pose proof (record_from_receipt_row_of r receipt sound has_receipt) as D1.
    pose proof (record_from_receipt_row_of r2 rc2 Hs2 Hrc2) as D2. fold k in D1. rewrite Hp, <- H2, D1 in D2. injection D2 as ->. by apply Hne. }
  rewrite bool_decide_true by (rewrite has_receipt; eauto). cbn [andb]. fold k.
  destruct (match fk_records s !! k with Some r0 => bool_decide (rec_receipt r0 = None) | None => false end) eqn:El.
  - destruct (fk_records s !! k) as [r0|] eqn:Hk; [|done]. apply bool_decide_eq_true in El. rewrite first_equal_legacy; [by apply leads_Raise|by apply (looked_up_all s t)| |done].
    apply Exists_exists. exists (k, columns_of r0). destruct (rep_keys s t rep k r0 Hk) as [Hp0 Hs0]. split.
    + apply (looked_up_rows s t); [done|]. exists k, r0. auto.
    + exists r0. split; [|done]. split; [by rewrite Hp0|done].
  - assert (Hall : Forall readable (looked_up operation k t)).
    { apply Forall_forall. intros row (k2 & r2 & Hk2 & -> & Hor2)%(looked_up_rows s t operation k row rep).
      destruct (rep_keys s t rep k2 r2 Hk2) as [<- Hs2]. exists r2. split; [done|].
      destruct Hor2 as [(rc & Hrc & _)|Heq]; [eauto|]. rewrite Heq in Hk2. rewrite Hk2 in El. destruct (rec_receipt r2); [eauto|done]. }
    rewrite (first_equal_readable r) by (rewrite ?has_receipt; eauto). fold k. rewrite bool_decide_false by done. cbn.
    destruct (looked_up operation k t); [by apply elem_of_nil in Hin|]. by apply leads_Raise.
Qed.

Lemma no_conflict :
  fk_by_operation s !! operation = None -> fk_records s !! k = None -> conflicting k (columns_of r) t = false.
Proof using rep has_receipt.
  intros Ho Hk. unfold conflicting. rewrite (represents_lookup s t k rep), Hk. cbn.
  assert (Hop : c_operation_id (columns_of r) = Some operation) by (apply columns_of_operation, registered_here). rewrite Hop.
  rewrite bool_decide_true; [done|]. destruct (filter (has_operation operation) (map_to_list t)) as [|[k' c] l] eqn:E; [done|]. exfalso.
  assert (Hin : (k', c) ∈ filter (has_operation operation) (map_to_list t)) by (rewrite E; by left).
  apply list_elem_of_filter in Hin as [Hc Hin]. assert (Hl : t !! k' = Some c) by (by apply elem_of_map_to_list). rewrite (represents_lookup s t k' rep) in Hl.
  apply fmap_Some in Hl as (r' & Hk' & ->). apply columns_of_operation in Hc.
  assert (fk_by_operation s !! operation = Some r') as He by (apply (rep_index s t rep); eauto). by rewrite Ho in He.
Qed.
End Registering.

Lemma pg_register_agrees r s t :
  represents s t -> sound_record r ->
  exists t', leads postgres (pg_register r) (settled t)
      (if over_legacy (QRegister r) s then Err legacy_error else (fake_register r s).1) (settled t') /\
    represents (fake_register r s).2 t'.
Proof.
  intros Hrep Hs. unfold pg_register, fake_register. destruct (rec_receipt r) as [receipt|] eqn:Hr; cycle 1.
  { exists t. split; [|done]. unfold over_legacy. rewrite Hr, bool_decide_false by (by intros [? [=]]). by apply leads_Raise. }
  set (operation := operation_id (or_operation receipt)). set (k := pointer_parameters (rec_pointer r)).
  assert (Hrefused : forall k' r', fk_records s !! k' = Some r' -> registered r' operation \/ k' = k -> fk_records s !! k <> Some r ->
    exists t', leads postgres (transaction (let* existing := matching_registered_row r receipt in
        match existing with
        | Some r => Ret r
        | None =>
          let* inserted := call (RegisterInsert (receipt_record_parameters r receipt)) in
          match inserted with
          | Some row => lift (record_from_receipt_row row)
          | None => let* now := matching_registered_row r receipt in match now with Some r => Ret r | None => Raise InstanceRegistrationConflictError end
          end
        end)) (settled t) (if over_legacy (QRegister r) s then Err legacy_error else Err InstanceRegistrationConflictError) (settled t') /\ represents s t').
  { intros k' r' H1 H2 H3. exists t. split; [|done]. pose proof (matching_refused s t r receipt Hrep Hs Hr k' r' H1 H2 H3) as Hm.
    assert (He : forall e, (if over_legacy (QRegister r) s then legacy_error else InstanceRegistrationConflictError) = e ->
      (if over_legacy (QRegister r) s then Err legacy_error else Err InstanceRegistrationConflictError : result exn InstanceRecord) = Err e) by (intros e <-; by case_match).
    rewrite (He _ eq_refl). eapply transaction_Err. apply leads_bind. right. eauto. }
  destruct (fk_by_operation s !! operation) as [r1|] eqn:Ho.
  - apply (rep_index s t Hrep) in Ho as (k1 & Hk1 & Hr1). destruct (bool_decide_reflect (r1 = r)) as [He|He].
    + subst r1. destruct (rep_keys s t Hrep k1 r Hk1) as [Hp _]. exists t. split; [|done]. unfold over_legacy.
      fold k in Hp. rewrite <- Hp in Hk1. fold k. rewrite Hk1, Hr, (bool_decide_false (_ = None)), andb_false_r by done.
      apply transaction_Ok. apply leads_bind. left. exists (Some r), (settled t). split; [by apply (matching_found s)|by apply leads_Ret].
    + apply (Hrefused k1 r1 Hk1); [by left|]. intros Hk. apply He.
      assert (H1 : fk_by_operation s !! operation = Some r1) by (apply (rep_index s t Hrep); eauto).
      assert (H2 : fk_by_operation s !! operation = Some r) by (apply (rep_index s t Hrep); exists k; split; [done|by exists receipt]).
      rewrite H1 in H2. by injection H2.
  - destruct (fk_records s !! k) as [r2|] eqn:Hk.
    + assert (He : r2 <> r).
      { intros ->. assert (H2 : fk_by_operation s !! operation = Some r) by (apply (rep_index s t Hrep); exists k; split; [done|by exists receipt]). by rewrite Ho in H2. }
      rewrite bool_decide_false by done. apply (Hrefused k r2 Hk); [by right|by intros [=]].
    + exists (<[k := columns_of r]> t). unfold over_legacy. fold k. rewrite Hk, andb_false_r. split.
      * apply transaction_Ok. apply leads_bind. left. exists None, (settled t). split; [by apply (matching_none s)|]. apply leads_bind_call.
        assert (Hc : receipt_record_parameters r receipt = (k, columns_of r)) by (unfold receipt_record_parameters, columns_of; by rewrite Hr).
        rewrite Hc. unfold postgres, answered. cbn [db_committed db_working settled].
        pose proof (no_conflict s t r receipt Hrep Hr Ho Hk) as Hnc. fold k in Hnc. rewrite Hnc. cbn. apply leads_lift. split; [|done]. symmetry. by apply record_from_receipt_row_of with receipt.
      * apply represents_insert; [done..|]. apply (index_register s t); [done..|]. by exists receipt.
Qed.

(** ** Sessions *)

Fixpoint pg_session (qs : list registry_request) (d : database) : list (result exn (list InstanceRecord)) * database :=
  match qs with
  | [] => ([], d)
  | q :: qs' =>
    let '(r, _, d1) := exec postgres (pg_perform q) d in
    let '(rs, d2) := pg_session qs' d1 in (r :: rs, d2)
  end.
(** The answers of the in-memory registry, as the adapter gives them. *)
Fixpoint fake_session (qs : list registry_request) (s : fake_registry) : list (result exn (list InstanceRecord)) :=
  match qs with
  | [] => []
  | q :: qs' => let '(r, s') := fake_perform q s in as_adapter q s r :: fake_session qs' s'
  end.

Lemma leads_one (p : sql_prog InstanceRecord) d r d' :
  leads postgres p d r d' -> leads postgres (let* x := p in Ret (one x)) d (result_map one r) d'.
Proof. intros H. apply leads_bind. destruct r as [a|e]; [left; exists a, d'; split; [done|by apply leads_Ret]|right; eauto]. Qed.

Lemma perform_agrees q s t :
  represents s t -> admissible q ->
  exists t', leads postgres (pg_perform q) (settled t) (as_adapter q s (fake_perform q s).1) (settled t') /\
    represents (fake_perform q s).2 t'.
Proof.
  intros Hrep Hq. destruct q as [r|p|scope|r]; cbn [pg_perform fake_perform admissible] in *.
  - destruct Hq as [Hs Hr]. destruct (pg_store_agrees r s t Hrep Hs Hr) as (t' & H & Hrep'). exists t'.
    destruct (fake_store r s) as [x s']. split; [by apply leads_one|done].
  - exists t. split; [|done]. pose proof (leads_one _ _ _ _ (pg_get_agrees p s t Hrep)) as H. cbn. by destruct (fake_get p s).
  - exists t. split; [|done]. by apply pg_list_agrees.
  - destruct (pg_register_agrees r s t Hrep Hq) as (t' & H & Hrep'). exists t'. apply leads_one in H. destruct (fake_register r s) as [x s'].
    split; [|done]. unfold as_adapter. by destruct (over_legacy (QRegister r) s).
Qed.

Lemma plain_requests_agree qs :
  Forall admissible qs -> (pg_session qs (settled ∅)).1 = fake_session qs empty_fake.
Proof.
  cut (forall s t, represents s t -> Forall admissible qs -> (pg_session qs (settled t)).1 = fake_session qs s).
  { intros H. apply H, represents_empty. }
  induction qs as [|q qs IH]; intros s t Hrep Hqs; [done|]. apply Forall_cons in Hqs as [Hq Hqs].
  destruct (perform_agrees q s t Hrep Hq) as (t' & [Hl] & Hrep'). cbn [pg_session fake_session].
  destruct (fake_perform q s) as [r s']. destruct (exec postgres (pg_perform q) (settled t)) as [[r' tr] d']. cbn in Hl. injection Hl as -> ->.
  specialize (IH s' t' Hrep' Hqs). destruct (pg_session qs (settled t')) as [rs d2]. cbn in *. by rewrite IH.
Qed.

(** [store] keeps the columns of the record, and none of its receipt. *)
Definition as_stored (q : registry_request) : registry_request :=
  match q with QStore r => QStore (without_receipt r) | _ => q end.
Definition sound_request (q : registry_request) : Prop :=
  match q with QStore r | QRegister r => sound_record r | _ => True end.

Lemma pg_perform_stored q : pg_perform (as_stored q) = pg_perform q.
Proof. by destruct q. Qed.
Lemma pg_session_stored qs : forall d, pg_session (map as_stored qs) d = pg_session qs d.
Proof.
  induction qs as [|q qs IH]; intros d; [done|]. cbn [map pg_session]. rewrite pg_perform_stored.
  destruct (exec postgres (pg_perform q) d) as [[r tr] d1]. by rewrite IH.
Qed.
Lemma sound_stored q : sound_request q -> admissible (as_stored q).
Proof. destruct q; cbn; [|done..]. intros (Ht & Hi & Hk & _). by split. Qed.


Definition acme_pointer : InstancePointer := mkInstancePointer (mkProjectScope (mkTenantId "acme") "shop") (mkInstanceId "dev").
Definition acme_record (receipt : option OwnershipReceipt) : InstanceRecord :=
  mkInstanceRecord acme_pointer (mkResourceRef "odoo-forge-shop-dev" "container" CREATED) receipt.
Definition acme_receipt (token : string) : OwnershipReceipt :=
  mkOwnershipReceipt (mkDurableOperationIdentity ("postgres-docker:" +:+ token) "0123456789abcdef") ["3f2a"] true.
Definition beta_record (receipt : option OwnershipReceipt) : InstanceRecord :=
  mkInstanceRecord (mkInstancePointer (mkProjectScope (mkTenantId "acme") "shop") (mkInstanceId "test"))
    (mkResourceRef "odoo-forge-shop-test" "container" CREATED) receipt.
(** A registration, its retry, another operation on the same pointer, the readings, and two
    stores of a record with a receipt. *)
Definition sample_requests : list registry_request :=
  [QRegister (acme_record (Some (acme_receipt "a"))); QRegister (acme_record (Some (acme_receipt "a")));
   QRegister (acme_record (Some (acme_receipt "b"))); QGet acme_pointer; QStore (acme_record None); QList (ptr_scope acme_pointer);
   QStore (beta_record (Some (acme_receipt "c"))); QStore (beta_record (Some (acme_receipt "c")))].


(** The in-memory registry itself refuses the second of these stores. *)
Example fake_keeps_stored_receipts :
  fake_session [QStore (beta_record (Some (acme_receipt "c"))); QStore (beta_record (Some (acme_receipt "c")))] empty_fake =
  [Ok [beta_record (Some (acme_receipt "c"))]; Err ReceiptOverwriteRejectedError].
Proof. vm_compute. reflexivity. Qed.

(** ** Receipts under failures *)

(** Rows with a receipt are still there, unchanged. *)
Definition receipts_kept (t t' : table) : Prop :=
  forall k c, t !! k = Some c -> is_Some (c_operation_id c) -> t' !! k = Some c.
(** An operation is the receipt of one row at most. *)
Definition operations_unique (t : table) : Prop :=
  forall k k' c c' operation, t !! k = Some c -> t !! k' = Some c' ->
    c_operation_id c = Some operation -> c_operation_id c' = Some operation -> k = k'.

Definition evolves (t t' : table) : Prop := receipts_kept t t' /\ (operations_unique t -> operations_unique t').
#[local] Instance evolves_refl : Reflexive evolves.
Proof. intros t. split; [by intros k c|done]. Qed.
#[local] Instance evolves_trans : Transitive evolves.
Proof.
  intros t1 t2 t3 [H1 H2] [H3 H4]. split; [|auto]. intros k c Hk Hc. apply H3; [by apply H1|done].
Qed.

Lemma evolves_insert k c t : conflicting k c t = false -> evolves t (<[k := c]> t).
Proof.
  unfold conflicting. rewrite orb_false_iff. intros [Hnone%bool_decide_eq_false Hop].
  assert (Hk : t !! k = None) by (destruct (t !! k); [destruct Hnone; eauto|done]).
  assert (Hfresh : forall k' c' operation, t !! k' = Some c' -> c_operation_id c' = Some operation -> c_operation_id c <> Some operation).
  { intros k' c' operation Hk' Hc' Hc. rewrite Hc in Hop. apply negb_false_iff, bool_decide_eq_true in Hop.
    assert (Hin : (k', c') ∈ filter (has_operation operation) (map_to_list t)) by (apply list_elem_of_filter; split; [done|by apply elem_of_map_to_list]).
    rewrite Hop in Hin. by apply elem_of_nil in Hin. }
  split.
  - intros k' c' Hk' _. apply lookup_insert_Some. right. split; [|done]. intros ->. by rewrite Hk in Hk'.
  - intros Hu k1 k2 c1 c2 operation H1 H2 Hc1 Hc2.
    apply lookup_insert_Some in H1 as [[<- <-]|[_ H1]]; apply lookup_insert_Some in H2 as [[<- <-]|[_ H2]]; [done| | |by eapply Hu].
    + by destruct (Hfresh k2 c2 operation H2 Hc2).
    + by destruct (Hfresh k1 c1 operation H1 Hc1).
Qed.

Lemma evolves_store k b t :
  match t !! k with Some c => c_operation_id c = None | None => True end -> evolves t (<[k := stored_columns (t !! k) b]> t).
Proof.
  intros Hk. assert (Hno : c_operation_id (stored_columns (t !! k) b) = None) by (by destruct (t !! k)). split.
  - intros k' c' Hk' [operation Hc']. apply lookup_insert_Some. right. split; [|done]. intros ->. rewrite Hk' in Hk. by rewrite Hk in Hc'.
  - intros Hu k1 k2 c1 c2 operation H1 H2 Hc1 Hc2.
    apply lookup_insert_Some in H1 as [[<- <-]|[_ H1]]; [by rewrite Hno in Hc1|].
    apply lookup_insert_Some in H2 as [[<- <-]|[_ H2]]; [by rewrite Hno in Hc2|]. by eapply Hu.
Qed.

(** A statement inside a transaction leaves what is committed alone. *)
Definition quiet (d d' : database) : Prop := db_committed d' = db_committed d /\ evolves (db_working d) (db_working d').
#[local] Instance quiet_refl : Reflexive quiet.
Proof. intros d. split; [done|reflexivity]. Qed.
#[local] Instance quiet_trans : Transitive quiet.
Proof. intros d1 d2 d3 [H1 H2] [H3 H4]. split; [by rewrite H3|by transitivity (db_working d2)]. Qed.

(** What a statement can lead to: nothing, or its effect. *)
Lemma postgres_effect {R : Type} (e : sql_op R) d :
  let d' := (postgres R e d).2 in
  let after := (answered R e (db_committed d, db_working d)).2 in
  (db_committed d' = db_committed d /\ db_working d' = db_working d) \/ (db_committed d' = after.1 /\ db_working d' = after.2).
Proof.
  cbv zeta. unfold postgres. destruct (answered R e (db_committed d, db_working d)) as [a [c w]].
  destruct (db_failures d) as [|[f|] fs]; cbn; [by right| |by right]. destruct (fl_applied f); cbn; auto.
Qed.

Definition plain_statement (R : Type) (e : sql_op R) : Prop :=
  match e with
  | StoreReceiptCheck _ | GetRow _ | ListRows _ _ | RegisterLookup _ _ | RegisterInsert _ => True
  | _ => False
  end.
Lemma plain_quiet R (e : sql_op R) d : plain_statement R e -> quiet d (postgres R e d).2.
Proof.
  intros He. unfold quiet. destruct (postgres_effect e d) as [[-> ->]|[-> ->]]; [by split|].
  destruct e as [| | | | | | | | |[k c]]; try done; cbn; try by split. destruct (conflicting k c (db_working d)) eqn:E; [by split|]. cbn. split; [done|]. by apply evolves_insert.
Qed.
Lemma plain_leads {A : Type} (p : sql_prog A) d r d' : only plain_statement p -> leads postgres p d r d' -> quiet d d'.
Proof. intros Hp. eapply (only_leads postgres plain_statement quiet); [apply _|apply _|exact plain_quiet|exact Hp]. Qed.

Lemma control_committed R (e : sql_op R) d :
  match e with Acquire | Release | Rollback => True | _ => False end -> db_committed (postgres R e d).2 = db_committed d.
Proof. intros He. destruct (postgres_effect e d) as [[-> _]|[-> _]]; [done|]. by destruct e. Qed.

Lemma postgres_Ok {R : Type} (e : sql_op R) d a d1 :
  postgres R e d = (Ok a, d1) ->
  a = (answered R e (db_committed d, db_working d)).1 /\
  (db_committed d1, db_working d1) = (answered R e (db_committed d, db_working d)).2.
Proof.
  unfold postgres. destruct (answered R e (db_committed d, db_working d)) as [b [c w]].
  destruct (db_failures d) as [|[f|] fs]; [by intros [= <- <-]| |by intros [= <- <-]]. destruct (fl_applied f); intros [=].
Qed.
(** The last call of a program may fail, but the database is where it led. *)
Lemma leads_last {A : Type} (e : sql_op unit) (k : sql_prog A) d r d' :
  leads postgres (call e ;* k) d r d' ->
  let d1 := (postgres unit e d).2 in d' = d1 \/ leads postgres k d1 r d'.
Proof. intros H. apply leads_bind_call in H. destruct (postgres unit e d) as [[[]|x] d1]; [by right|by destruct H as [_ ->]; left]. Qed.

(** A transaction commits a table that evolved from what was committed before. *)
Lemma transaction_evolves {A : Type} (p : sql_prog A) d r d' :
  (forall d r d', leads postgres p d r d' -> quiet d d') ->
  leads postgres (transaction p) d r d' -> evolves (db_committed d) (db_committed d').
Proof.
  intros Hp H. unfold transaction in H. apply leads_bind_call in H. pose proof (control_committed unit Acquire d I) as Ha.
  destruct (postgres unit Acquire d) as [[[]|x] d1] eqn:Ea; cbn in Ha; [|destruct H as [_ ->]; by rewrite Ha].
  apply postgres_Ok in Ea as [_ Ea]. cbn in Ea. injection Ea as _ Hw.
  apply leads_attempt_bind in H as (a & d4 & H & Hrel).
  assert (Hend : db_committed d' = db_committed d4).
  { rewrite <- (control_committed unit Release d4 I). apply leads_last in Hrel as [->|Hrel]; [done|]. by apply leads_lift in Hrel as [_ ->]. }
  rewrite Hend. clear Hend Hrel d' r. apply leads_catch in H as (r0 & d3 & H & Hcatch).
  assert (Hroll : db_committed d4 = db_committed d3).
  { destruct r0 as [a0|x]; [by destruct Hcatch as [_ ->]|]. apply leads_attempt_bind in Hcatch as (b & d5 & Hr & Hx). apply leads_Raise in Hx as [_ ->].
    apply leads_call in Hr. rewrite <- (control_committed unit Rollback d3 I). by rewrite Hr. }
  rewrite Hroll. clear Hroll Hcatch. apply leads_bind in H as [(a0 & d2 & H & Hc)|(x & -> & H)].
  - apply Hp in H as [H1 H2]. rewrite Ha in H1. rewrite Hw in H2. apply leads_last in Hc.
    assert (Hd3 : d3 = (postgres unit Commit d2).2) by (destruct Hc as [->|Hc]; [done|by apply leads_Ret in Hc as [_ ->]]).
    rewrite Hd3. destruct (postgres_effect Commit d2) as [[-> _]|[-> _]]; cbn; [by rewrite H1|done].
  - apply Hp in H as [H1 _]. rewrite Ha in H1. by rewrite H1.
Qed.

Lemma store_quiet r d o d' :
  leads postgres (let* existing := call (StoreReceiptCheck (pointer_parameters (rec_pointer r))) in
    match existing with
    | Some (Some _) => Raise ReceiptOverwriteRejectedError
    | _ =>
      let* row := call (StoreRow (record_parameters r)) in
      match row with
      | None => Raise (RuntimeError "store did not return an authoritative row")
      | Some r => lift (record_from_row r)
      end
    end) d o d' -> quiet d d'.
Proof.
  set (k := pointer_parameters (rec_pointer r)). intros H. apply leads_bind_call in H.
  pose proof (plain_quiet _ (StoreReceiptCheck k) d I) as Hq. destruct (postgres _ (StoreReceiptCheck k) d) as [[existing|x] d1] eqn:E; [|destruct H as [_ ->]; done].
  apply postgres_Ok in E as [-> E]. cbn in H, E, Hq. etransitivity; [exact Hq|]. clear Hq.
  assert (Hstore : match db_working d1 !! k with Some c => c_operation_id c = None | None => True end ->
    leads postgres (let* row := call (StoreRow (record_parameters r)) in
      match row with
      | None => Raise (RuntimeError "store did not return an authoritative row")
      | Some r => lift (record_from_row r)
      end) d1 o d' -> quiet d1 d').
  { intros Hnone Hl. assert (Hd : d' = (postgres _ (StoreRow (record_parameters r)) d1).2).
    { apply leads_bind_call in Hl. destruct (postgres _ (StoreRow (record_parameters r)) d1) as [[[row|]|x] d2];
        [by apply leads_lift in Hl as [_ ->]|by apply leads_Raise in Hl as [_ ->]|by destruct Hl as [_ ->]]. }
    rewrite Hd. unfold quiet. destruct (postgres_effect (StoreRow (record_parameters r)) d1) as [[-> ->]|[-> ->]]; [by split|].
    cbn. split; [done|]. by apply evolves_store. }
  injection E as _ Hw. rewrite Hw in Hstore. destruct (db_working d !! k) as [c|]; cbn in H; [|by apply Hstore].
  destruct (c_operation_id c) as [op|] eqn:Ec; [by apply leads_Raise in H as [_ ->]|by apply Hstore].
Qed.

(** Receipts are permanent.  Whatever statements fail, before or after taking effect, and
    whatever is requested of the registry: a committed row that carries a receipt is still
    there unchanged at the end, and if every operation was the receipt of one row at most it
    still is. *)
Theorem receipts_are_permanent qs d :
  let d' := (pg_session qs d).2 in
  receipts_kept (db_committed d) (db_committed d') /\
  (operations_unique (db_committed d) -> operations_unique (db_committed d')).
Proof.
  cbv zeta. change (evolves (db_committed d) (db_committed (pg_session qs d).2)). revert d. induction qs as [|q qs IH]; intros d; [done|]. cbn [pg_session].
  assert (Hone : evolves (db_committed d) (db_committed (exec postgres (pg_perform q) d).2)).
  { pose proof (leads_exec postgres (pg_perform q) d) as H.
    assert (Hwrap : forall p : sql_prog InstanceRecord, leads postgres (let* x := p in Ret [x]) d (exec postgres (pg_perform q) d).1.1 (exec postgres (pg_perform q) d).2 ->
      (forall r d', leads postgres p d r d' -> evolves (db_committed d) (db_committed d')) -> evolves (db_committed d) (db_committed (exec postgres (pg_perform q) d).2)).
    { intros p Hl Hp. apply leads_bind in Hl as [(a & d1 & Hl & Hr)|(x & _ & Hl)]; [|by eapply Hp]. apply leads_Ret in Hr as [_ ->]. by eapply Hp. }
    destruct q as [r|p|scope|r]; cbn [pg_perform] in *.
    - apply (Hwrap _ H). intros o d'. apply transaction_evolves. intros d0 o0 d0'. apply store_quiet.
    - apply (Hwrap _ H). intros o d'. apply transaction_evolves. intros d0 o0 d0'. apply plain_leads. solve_only.
    - eapply transaction_evolves; [|exact H]. intros d0 o0 d0'. apply plain_leads. solve_only.
    - apply (Hwrap _ H). intros o d'. unfold pg_register. destruct (rec_receipt r) as [receipt|]; [|by intros [_ ->]%leads_Raise].
      apply transaction_evolves. intros d0 o0 d0'. apply plain_leads. unfold matching_registered_row. solve_only. }
  destruct (exec postgres (pg_perform q) d) as [[o tr] d1]. cbn in Hone. specialize (IH d1). destruct (pg_session qs d1) as [rs d2]. cbn in *.
  by transitivity (db_committed d1).
Qed.

(** * The control plane over the PostgreSQL registry

    [odoo_forge_server/composition.py] gives [ControlPlaneAuthority] the PostgreSQL registry.
    Every registry operation of the control plane becomes a transaction of that adapter. *)

Inductive wired_op : Type -> Type :=
| Sql {R : Type} (e : sql_op R) : wired_op R
| Custody (request : CustodyRequest) : wired_op OwnershipReceipt
| Live (ref : InstanceRef) : wired_op InstanceStatus.
Definition wired_prog := prog wired_op exn.

Definition over_sql {A : Type} (p : sql_prog A) : wired_prog A := embed (fun R e => Sql e) p.
Definition serve (R : Type) (e : control_op R) : wired_prog R :=
  match e with
  | GetRecord pointer => over_sql (pg_get pointer)
  | ListRecords scope => over_sql (pg_list scope)
  | RegisterRecord record => over_sql (pg_register record)
  | ConfirmCustody c => call (Custody c)
  | ReadStatus ref => call (Live ref)
  end.

Section Wired.
Variable sha256 : string -> string.

(** [ControlPlaneAuthority(custody, PostgresInstanceRegistry(acquire)).register] *)
Definition wired_register (q : RegistrationRequest) : wired_prog InstanceRecord := interp serve (register sha256 q).
End Wired.

(** What the adapter reads of one row has no receipt. *)
Lemma record_from_row_forgets row r : record_from_row row = Ok r -> rec_receipt r = None.
Proof.
  unfold record_from_row. destruct row as [[[tenant project] instance] b]. intros H.
  apply result_bind_Ok in H as ([] & _ & H). apply result_bind_Ok in H as ([] & _ & H). apply result_bind_Ok in H as (o & _ & H).
  apply result_bind_Ok in H as ([] & _ & H). by injection H as <-.
Qed.
Lemma pg_get_forgets pointer tr r : runs (pg_get pointer) tr (Ok r) -> rec_receipt r = None.
Proof.
  unfold pg_get, transaction. intros H. apply runs_bind_call in H as ([[]|x] & t1 & _ & H); [|by destruct H as [_ [=]]].
  apply runs_bind in H as [(t2 & t3 & res & _ & H1 & H2)|(? & [=] & _)].
  apply runs_bind_call in H2 as ([[]|x] & t4 & _ & H2); [|by destruct H2 as [_ [=]]]. apply runs_lift in H2 as [_ <-].
  apply runs_attempt in H1 as (res' & [= <-] & H1). apply runs_catch in H1 as [(a & [= <-] & H1)|(t5 & t6 & x & _ & _ & H1)].
  - apply runs_bind in H1 as [(t7 & t8 & a & _ & H1 & H2)|(? & [=] & _)].
    apply runs_bind_call in H2 as ([[]|x] & t9 & _ & H2); [|by destruct H2 as [_ [=]]]. apply runs_Ret in H2 as [_ [= ->]].
    apply runs_bind_call in H1 as ([[row|]|x] & t10 & _ & H1); [|by apply runs_Raise in H1 as [_ [=]]|by destruct H1 as [_ [=]]].
    apply runs_lift in H1 as [_ H1]. by eapply record_from_row_forgets.
  - apply runs_bind in H1 as [(t7 & t8 & a & _ & _ & H2)|(? & [=] & _)]. by apply runs_Raise in H2 as [_ [=]].
Qed.

(** A retry is never recognised.  Over the PostgreSQL registry, whatever the database and the
    custody adapter answer, a registration that returns has confirmed custody in that very
    call: what [get] reads back has no receipt, so a pointer that is already registered, even
    by an identical request, is a conflict. *)
Theorem retry_is_never_recognised sha256 q tr r :
  runs (wired_register sha256 q) tr (Ok r) ->
  exists c receipt, custody_request sha256 q = Ok c /\ Event (Custody c) (Ok receipt) ∈ tr.
Proof.
  intros H. apply runs_interp in H as (client & parts & Hc & -> & Hparts). apply registers_of in Hc.
  assert (Hcustody : forall c receipt, Event (ConfirmCustody c) (Ok receipt) ∈ client -> Event (Custody c) (Ok receipt) ∈ concat parts).
  { intros c receipt Hin. destruct (part_of _ _ _ _ _ _ Hparts Hin) as (part & Hp & Hsub). apply runs_call in Hp as ->. apply Hsub. by left. }
  remember (Ok r) as o eqn:Ho. destruct Hc as [e He|c existing Hc|c e Hc He|c e Hc|c receipt r0 Hc Hr|c receipt e r0 Hc He]; try done.
  - destruct (part_of _ _ _ _ (GetRecord (rq_pointer q)) (Ok existing) Hparts) as (part & Hp & _); [by left|].
    apply runs_embed in Hp as (part0 & _ & Hp). apply pg_get_forgets in Hp. unfold matches_request in Ho. rewrite Hp, andb_false_r in Ho. done.
  - exists c, receipt. split; [done|]. apply Hcustody. right. by left.
  - exists c, receipt. split; [done|]. apply Hcustody. right. by left.
Qed.

(** ** An instance registered twice *)

Definition wired_world (R : Type) (e : wired_op R) (d : database) : result exn R * database :=
  match e in wired_op R return result exn R * database with
  | Sql e => postgres _ e d
  | Custody _ => (Ok sample_receipt, d)
  | Live _ => (Err TimeoutExpired, d)
  end.
Definition registered_once := exec wired_world (wired_register sample_sha256 sample_request) (settled ∅).

(** The same request again: its record is there, with its receipt, and it conflicts. *)
Example identical_retry_conflicts :
  registered_once.1.1 = Ok sample_record /\
  db_committed registered_once.2 !! pointer_parameters sample_pointer = Some (columns_of sample_record) /\
  (exec wired_world (wired_register sample_sha256 sample_request) registered_once.2).1.1 = Err InstanceRegistrationConflictError.
Proof. by vm_compute. Qed.

Lemma retry_is_never_recognised_witness :
  registered_once.1.1 = Ok sample_record /\
  exists c receipt, custody_request sample_sha256 sample_request = Ok c /\ Event (Custody c) (Ok receipt) ∈ registered_once.1.2.
Proof.
  assert (Hok : registered_once.1.1 = Ok sample_record) by (vm_compute; reflexivity). split; [exact Hok|].
  pose proof (exec_runs wired_world (wired_register sample_sha256 sample_request) (settled ∅)) as Hr. fold registered_once in Hr. rewrite Hok in Hr.
  exact (retry_is_never_recognised sample_sha256 sample_request registered_once.1.2 sample_record Hr).
Defined.
