(* ===== verification/LifecycleGateway.v ===== *)
(** * The lifecycle gateway and journal ([odoo_forge_postgres_docker/lifecycle.py])

    What the resource-lifecycle service calls in production: observations of the databases the
    ownership authority knows, the mutations handed to a database provider, and the journal, a
    file of JSON lines. *)

From S2P Require Import Prelude Effects Regex Values Json Lifecycle LifecycleFacts Docker.

(** A record of the ownership authority, as the gateway receives it. *)
Definition raw_record : Type := gmap string json.

(** An [AwareDatetime]: the instant, and the text [isoformat()] gives in its own zone. *)
Record aware_time : Type := mkAwareTime { at_instant : datetime; at_isoformat : string }.
Record LifecycleAuthorityRecord : Type := mkLifecycleAuthorityRecord {
  lar_resource : DatabaseRef; lar_scope : ProjectScope; lar_operation : DurableOperationIdentity; lar_docker_id : string;
  lar_resource_class : ResourceClass; lar_last_activity : aware_time; lar_evidence_digest : string }.

Definition IDENTIFIER : regex :=
  rcats [RBol; RSet is_lower; rupto 63 (RSet (fun c => lower_alnum c || one_of "-" c)); REol].
Definition DOCKER_ID : regex :=
  rcats [RBol; RSet is_alnum; rupto 127 (RSet (fun c => is_alnum c || one_of "_.:-" c)); REol].
Definition OPERATION_LABEL : string := "io.odoo-forge.operation".
Definition CLASS_LABEL : string := "io.odoo-forge.resource-class".
Definition ACTIVITY_LABEL : string := "io.odoo-forge.last-activity".
Definition DIGEST_LABEL : string := "io.odoo-forge.evidence-digest".

Inductive gateway_op : Type -> Type :=
| LifecycleRecords : gateway_op (list raw_record)
| GatewayDocker (argv : list string) : gateway_op (Z * option string)
| ProviderQuarantine (ref : DatabaseRef) : gateway_op DatabaseRef
| ProviderAdopt (ref : DatabaseRef) : gateway_op DatabaseRef
| ProviderReconcile (operation : OperationIdentity) : gateway_op DatabaseCreation
| ProviderDelete (creation : DatabaseCreation) : gateway_op unit
| ProviderCleanup (receipt : CreationReceipt) : gateway_op CleanupReport.
Definition gateway_prog := prog gateway_op exn.

Definition class_text (c : ResourceClass) : string := match c with DEV => "dev" | QA => "qa" | PROD => "prod" end.
Definition class_of (s : string) : option ResourceClass :=
  if bool_decide (s = "dev") then Some DEV else if bool_decide (s = "qa") then Some QA
  else if bool_decide (s = "prod") then Some PROD else None.
(** A text of the record, and one that must not be empty. *)
Definition text_of (raw : raw_record) (key : string) : option string :=
  match raw !! key with Some (JStr s) => Some s | _ => None end.
Definition nonempty_text (raw : raw_record) (key : string) : option string :=
  s ← text_of raw key; if bool_decide (s = "") then None else Some s.

(** ** Observing *)

(** Why an observation fails; every reason is caught. *)
Definition unverified : exn := ValueError "live evidence could not be verified".

Definition ps_argv (docker_id : string) : list string :=
  ["docker"; "ps"; "-a"; "--no-trunc"; "--filter"; "id=" +:+ docker_id; "--format"; "{{.ID}}"].
Definition inspect_argv (docker_id : string) : list string := ["docker"; "inspect"; docker_id].
Definition run_docker (argv : list string) : gateway_prog string :=
  let* '(returncode, stdout) := call (GatewayDocker argv) in
  match (if (returncode =? 0)%Z then stdout else None) with
  | Some out => Ret out
  | None => Raise unverified
  end.

(** The labels a live container must carry. *)
Definition expected_labels (r : LifecycleAuthorityRecord) : list (string * string) :=
  [(OPERATION_LABEL, operation_id (lar_operation r)); (CLASS_LABEL, class_text (lar_resource_class r));
   (ACTIVITY_LABEL, at_isoformat (lar_last_activity r)); (DIGEST_LABEL, lar_evidence_digest r)].
(** What [docker inspect] proves: [None] is an exception. *)
Definition inspected_presence (r : LifecycleAuthorityRecord) (stdout : string) : option ProviderPresence :=
  match loads stdout with
  | Some (JArr [JObj entry]) =>
    match dget "Id" entry, dget "Config" entry, dget "State" entry with
    | Some (JStr id), Some (JObj config), Some (JObj state) =>
      match dget "Labels" config with
      | Some (JObj labels) =>
        if bool_decide (id = lar_docker_id r) && forallb (fun kv => bool_decide (dget kv.1 labels = Some (JStr kv.2))) (expected_labels r)
        then match dget "Dead" state with Some (JBool dead) => Some (if dead then INVALID else PRESENT) | _ => None end
        else None
      | _ => None
      end
    | _, _, _ => None
    end
  | _ => None
  end.

Definition observation (r : LifecycleAuthorityRecord) (presence : ProviderPresence) : DatabaseObservation :=
  mkDatabaseObservation (lar_resource r) (lar_scope r) (lar_evidence_digest r)
    (negb (bool_decide (db_ownership (lar_resource r) = EXTERNAL))) (lar_resource_class r)
    (Some (at_instant (lar_last_activity r)))
    (Some (mkOwnershipReceipt (lar_operation r) [db_identifier (lar_resource r)] true)) presence.

Definition observe_record (r : LifecycleAuthorityRecord) : gateway_prog DatabaseObservation :=
  catch (if negb (fullmatch IDENTIFIER (db_identifier (lar_resource r))) then Raise unverified else
         if negb (fullmatch DOCKER_ID (lar_docker_id r)) then Raise unverified else
         let* listed := run_docker (ps_argv (lar_docker_id r)) in
         match List.filter (fun line => negb (bool_decide (line = ""))) (splitlines listed) with
         | [] => Ret (observation r ABSENT)
         | lines =>
           if negb (bool_decide (lines = [lar_docker_id r])) then Raise unverified else
           let* inspected := run_docker (inspect_argv (lar_docker_id r)) in
           match inspected_presence r inspected with
           | Some presence => Ret (observation r presence)
           | None => Raise unverified
           end
         end)
    (fun _ => Ret (observation r UNVERIFIABLE)).

Section Gateway.
(** pydantic's reading of an [AwareDatetime]. *)
Variable parse_aware : json -> option aware_time.

(** [_coerce_record] of a mapping. *)
Definition coerce_record (raw : raw_record) : option LifecycleAuthorityRecord :=
  if bool_decide (raw !! "state" = Some (JStr "active")) then
    name ← text_of raw "name";
    tenant_id ← nonempty_text raw "tenant_id";
    project ← text_of raw "project_id";
    operation ← nonempty_text raw "operation";
    digest ← nonempty_text raw "request_digest";
    docker_id ← text_of raw "docker_id";
    resource_class ← (text_of raw "resource_class" ≫= class_of);
    last_activity ← (raw !! "last_activity" ≫= parse_aware);
    evidence ← text_of raw "evidence_digest";
    Some (mkLifecycleAuthorityRecord (mkDatabaseRef name CREATED) (mkProjectScope (mkTenantId tenant_id) project)
            (mkDurableOperationIdentity operation digest) docker_id resource_class last_activity evidence)
  else None.

Definition identifier_count (records : list LifecycleAuthorityRecord) (identifier : string) : nat :=
  length (List.filter (fun r => bool_decide (db_identifier (lar_resource r) = identifier)) records).

(** The records of the scope, one observation each. *)
Fixpoint observe_all (all : list LifecycleAuthorityRecord) (scope : ProjectScope) (records : list LifecycleAuthorityRecord)
    : gateway_prog (list DatabaseObservation) :=
  match records with
  | [] => Ret []
  | r :: records' =>
    if negb (bool_decide (lar_scope r = scope)) then observe_all all scope records' else
    let* o := if negb (identifier_count all (db_identifier (lar_resource r)) =? 1)
              then Ret (observation r UNVERIFIABLE) else observe_record r in
    let* os := observe_all all scope records' in
    Ret (o :: os)
  end.
Definition observe (scope : ProjectScope) : gateway_prog (list DatabaseObservation) :=
  let* raws := call LifecycleRecords in
  let records := omap (M:=list) coerce_record raws in
  observe_all records scope records.
End Gateway.

(** ** The mutations: handed to the provider *)

Definition quarantine (ref : DatabaseRef) : gateway_prog DatabaseRef := call (ProviderQuarantine ref).
Definition adopt (ref : DatabaseRef) : gateway_prog DatabaseRef := call (ProviderAdopt ref).
Definition reconcile (operation : OperationIdentity) : gateway_prog DatabaseCreation := call (ProviderReconcile operation).
Definition delete (creation : DatabaseCreation) : gateway_prog unit := call (ProviderDelete creation).
Definition cleanup (receipt : CreationReceipt) : gateway_prog CleanupReport := call (ProviderCleanup receipt).

(** ** The journal *)

Inductive journal_op : Type -> Type :=
| MakeJournalDir : journal_op unit
| OpenAppend : journal_op unit
| OpenRead : journal_op unit
| LockExclusive : journal_op unit
| LockShared : journal_op unit
| Unlock : journal_op unit
| WriteSome (bytes : string) : journal_op Z      (* [os.write]: how much was written *)
| Fsync : journal_op unit
| ReadAll : journal_op string
| CloseJournal : journal_op unit
| FsyncDirectory : journal_op unit.
Definition journal_prog := prog journal_op exn.

(** [try: p finally: cleanup] *)
Definition ending {A : Type} (p : journal_prog A) (cleanup : journal_prog unit) : journal_prog A :=
  let* r := attempt p in cleanup ;* lift r.

Section Journal.
(** [event.model_dump_json()] and [LifecycleJournalEvent.model_validate_json(line)]. *)
Variable dump : LifecycleJournalEvent -> string.
Variable parse : string -> option LifecycleJournalEvent.

(** [while encoded: ...]; every turn writes at least one byte. *)
Fixpoint write_all (fuel : nat) (encoded : list ascii) : journal_prog unit :=
  match encoded, fuel with
  | [], _ => Ret tt
  | _, O => Ret tt
  | _, S fuel' =>
    let* written := call (WriteSome (str encoded)) in
    if (written <=? 0)%Z then Raise (OSError EIO) else write_all fuel' (drop (Z.to_nat written) encoded)
  end.
Definition newline : string := String "010"%char "".
Definition append_event (event : LifecycleJournalEvent) : journal_prog LifecycleJournalEvent :=
  call MakeJournalDir ;*
  call OpenAppend ;*
  ending
    (call LockExclusive ;*
     ending (let encoded := chars (dump event +:+ newline) in write_all (length encoded) encoded ;* call Fsync) (call Unlock))
    (call CloseJournal) ;*
  call FsyncDirectory ;*
  Ret event.

Fixpoint parse_lines (lines : list string) : result exn (list LifecycleJournalEvent) :=
  match lines with
  | [] => Ok []
  | line :: lines' =>
    if bool_decide (line = "") then parse_lines lines' else
    match parse line with
    | None => Err (ValueError "journal line")
    | Some e => let! es := parse_lines lines' in Ok (e :: es)
    end
  end.
Definition journal_events : journal_prog (list LifecycleJournalEvent) :=
  let* opened := attempt (call OpenRead) in
  match opened with
  | Err (OSError ENOENT) => Ret []
  | Err e => Raise e
  | Ok _ =>
    let* payload := ending (call LockShared ;* ending (call ReadAll) (call Unlock)) (call CloseJournal) in
    lift (parse_lines (splitlines payload))
  end.
End Journal.

(** * What the lifecycle gateway reports and does

    Observations and their evidence, the gateway over the ledger the ownership authority keeps,
    and the resource-lifecycle service over the gateway and the production provider. *)

#[local] Arguments run_docker : simpl never.
#[local] Arguments observation : simpl never.

(** ** Observations *)

(** A docker command that answered, and one that did not. *)
Lemma run_docker_runs argv tr o :
  runs (run_docker argv) tr o ->
  exists r, tr = [Event (GatewayDocker argv) r] /\
    match o with Ok out => r = Ok (0%Z, Some out) | Err _ => True end.
Proof.
  unfold run_docker. intros H. apply runs_bind_call in H as (r & tr' & -> & H).
  destruct r as [[code out]|x]; [|destruct H as [-> ->]; by eexists].
  destruct (Z.eqb_spec code 0) as [->|_]; [destruct out as [out|]|];
    first [apply runs_Ret in H as [-> ->]|apply runs_Raise in H as [-> ->]]; by eexists.
Qed.

(** The non-empty lines of an output. *)
Definition listed_lines (listed : string) : list string :=
  List.filter (fun line => negb (bool_decide (line = ""))) (splitlines listed).

(** What one observation rests on: the docker commands that were asked and what they said. *)
Inductive evidenced (r : LifecycleAuthorityRecord) : list (event gateway_op exn) -> ProviderPresence -> Prop :=
| seen_absent listed :
    listed_lines listed = [] ->
    evidenced r [Event (GatewayDocker (ps_argv (lar_docker_id r))) (Ok (0%Z, Some listed))] ABSENT
| seen_live listed inspected presence :
    listed_lines listed = [lar_docker_id r] -> inspected_presence r inspected = Some presence ->
    evidenced r [Event (GatewayDocker (ps_argv (lar_docker_id r))) (Ok (0%Z, Some listed));
                 Event (GatewayDocker (inspect_argv (lar_docker_id r))) (Ok (0%Z, Some inspected))] presence
| unproven tr :
    Forall (fun ev => exists argv a, ev = Event (GatewayDocker argv) a /\
                      argv ∈ [ps_argv (lar_docker_id r); inspect_argv (lar_docker_id r)]) tr ->
    evidenced r tr UNVERIFIABLE.

Lemma observe_record_evidenced r tr o :
  runs (observe_record r) tr o -> exists presence, o = Ok (observation r presence) /\ evidenced r tr presence.
Proof.
  unfold observe_record. intros H. apply runs_catch in H as [(a & -> & H)|(t1 & t2 & x & -> & H & Ht)].
  - destruct (fullmatch IDENTIFIER _); cbn [negb] in H; [|by apply runs_Raise in H as [_ [=]]].
    destruct (fullmatch DOCKER_ID _); cbn [negb] in H; [|by apply runs_Raise in H as [_ [=]]].
    apply runs_bind in H as [(t3 & t4 & listed & -> & H1 & H)|(y & [=] & _)].
    apply run_docker_runs in H1 as (r1 & -> & ->). fold (listed_lines listed) in H.
    destruct (listed_lines listed) as [|l ls] eqn:El.
    + apply runs_Ret in H as [-> [= ->]]. exists ABSENT. split; [done|]. by constructor.
    + destruct (bool_decide_reflect (l :: ls = [lar_docker_id r])) as [Hl|_]; cbn [negb] in H; [|by apply runs_Raise in H as [_ [=]]].
      apply runs_bind in H as [(t5 & t6 & inspected & -> & H1 & H)|(y & [=] & _)].
      apply run_docker_runs in H1 as (r2 & -> & ->).
      destruct (inspected_presence r inspected) as [presence|] eqn:Ei; [|by apply runs_Raise in H as [_ [=]]].
      apply runs_Ret in H as [-> [= ->]]. exists presence. split; [done|]. apply seen_live; [by rewrite El|done].
  - apply runs_Ret in Ht as [-> ->]. exists UNVERIFIABLE. split; [done|]. rewrite app_nil_r. constructor.
    destruct (fullmatch IDENTIFIER _); cbn [negb] in H; [|by apply runs_Raise in H as [-> _]].
    destruct (fullmatch DOCKER_ID _); cbn [negb] in H; [|by apply runs_Raise in H as [-> _]].
    assert (Hdocker : forall argv t (b : result exn string), argv ∈ [ps_argv (lar_docker_id r); inspect_argv (lar_docker_id r)] ->
      runs (run_docker argv) t b -> Forall (fun ev => exists argv a, ev = Event (GatewayDocker argv) a /\
                      argv ∈ [ps_argv (lar_docker_id r); inspect_argv (lar_docker_id r)]) t).
    { intros argv t b Hin Hr. apply run_docker_runs in Hr as (a & -> & _). apply Forall_singleton. eauto. }
    apply runs_bind in H as [(t3 & t4 & listed & -> & H1 & H)|(y & _ & H)]; [|eapply Hdocker; [|exact H]; by left].
    apply Forall_app. split; [eapply Hdocker; [|exact H1]; by left|].
    fold (listed_lines listed) in H. destruct (listed_lines listed) as [|l ls]; [by apply runs_Ret in H as [-> _]|].
    destruct (bool_decide _); cbn [negb] in H; [|by apply runs_Raise in H as [-> _]].
    apply runs_bind in H as [(t5 & t6 & inspected & -> & H1' & H)|(y & _ & H)];
      [|eapply Hdocker; [|exact H]; right; by left].
    apply Forall_app. split; [eapply Hdocker; [|exact H1']; right; by left|].
    destruct (inspected_presence r inspected); [by apply runs_Ret in H as [-> _]|by apply runs_Raise in H as [-> _]].
Qed.

(** A record of the scope, what was asked about it, and the observation reported. *)
Definition observed (all : list LifecycleAuthorityRecord) (r : LifecycleAuthorityRecord)
    (part : list (event gateway_op exn)) (o : DatabaseObservation) : Prop :=
  exists presence, o = observation r presence /\ evidenced r part presence /\
    (presence ≠ UNVERIFIABLE -> identifier_count all (db_identifier (lar_resource r)) = 1).
Definition of_scope (scope : ProjectScope) (records : list LifecycleAuthorityRecord) : list LifecycleAuthorityRecord :=
  List.filter (fun r => bool_decide (lar_scope r = scope)) records.

Lemma observe_all_observed all scope records tr o :
  runs (observe_all all scope records) tr o ->
  exists parts os, o = Ok os /\ tr = concat parts /\ Forall3 (observed all) (of_scope scope records) parts os.
Proof.
  revert tr o. induction records as [|r records IH]; intros tr o H.
  - apply runs_Ret in H as [-> ->]. exists [], []. split_and!; [done..|constructor].
  - cbn [observe_all of_scope List.filter] in *. destruct (bool_decide (lar_scope r = scope)); cbn [negb] in H; [|by apply IH].
    assert (Hone : exists part p, (exists tr2, tr = part ++ tr2 /\
       runs (let* os := observe_all all scope records in Ret (observation r p :: os)) tr2 o) /\ observed all r part (observation r p)).
    { apply runs_bind in H as [(t1 & t2 & a & -> & H1 & H)|(x & -> & H)].
      - destruct (Nat.eqb_spec (identifier_count all (db_identifier (lar_resource r))) 1) as [Hc|_]; cbn [negb] in H1.
        + apply observe_record_evidenced in H1 as (p & [= ->] & He). exists t1, p. split; [eauto|]. by exists p.
        + apply runs_Ret in H1 as [-> [= ->]]. exists [], UNVERIFIABLE. split; [eauto|]. exists UNVERIFIABLE. split_and!; [done| |done].
          by constructor.
      - destruct (negb _); [by apply runs_Ret in H as [_ [=]]|]. by apply observe_record_evidenced in H as (p & [=] & _). }
    destruct Hone as (part & p & (tr2 & -> & H2) & Hobs).
    apply runs_bind in H2 as [(t1 & t2 & os & -> & H1 & H2)|(x & -> & H2)].
    + apply runs_Ret in H2 as [-> ->]. apply IH in H1 as (parts & os' & [= <-] & -> & Hall).
      exists (part :: parts), (observation r p :: os). split_and!; [done| |by constructor]. cbn. by rewrite app_nil_r.
    + by apply IH in H2 as (parts & os' & [=] & _).
Qed.

(** Presence is evidenced.  Whatever the authority and Docker answer, an observation of a
    scope fails only when the authority's records cannot be read; otherwise there is exactly
    one observation for every record of the scope, in order, and Docker is asked nothing but
    [docker ps] and [docker inspect] for that record's container.  A container is reported
    absent only if the listing was empty, present or invalid only if the listing was exactly
    its id and [inspect] showed that id, all four labels and the [Dead] flag; a name two
    records claim, and everything else, is reported as unverifiable. *)
Theorem presence_is_evidenced parse_aware scope tr o :
  runs (observe parse_aware scope) tr o ->
  (exists x, tr = [Event LifecycleRecords (Err x)] /\ o = Err x) \/
  exists raws parts os, tr = Event LifecycleRecords (Ok raws) :: concat parts /\ o = Ok os /\
    let records := omap (M:=list) (coerce_record parse_aware) raws in
    Forall3 (observed records) (of_scope scope records) parts os.
Proof.
  unfold observe. intros H. apply runs_bind_call in H as ([raws|x] & tr' & -> & H).
  - right. apply observe_all_observed in H as (parts & os & -> & -> & Hall). by exists raws, parts, os.
  - left. destruct H as [-> ->]. by exists x.
Qed.
