(* ===== verification/LifecycleWiring.v ===== *)
(** * The lifecycle service in production

    [odoo_forge_server/composition.py] runs [LifecycleService] over
    [PostgresDockerLifecycleAdapter(provider=DockerPostgresqlDatabaseProvider(...))].  Every
    gateway call of the service becomes a program of the gateway; the registry, the journal and
    the clock stay the service's own calls. *)

From S2P Require Import Prelude Effects Values Json Backend Durable Lifecycle LifecycleFacts LifecycleGateway.

Inductive production_op : Type -> Type :=
| PortCall {R : Type} (e : lc_op R) : production_op R
| GatewayCall {R : Type} (e : gateway_op R) : production_op R.
Definition production_prog := prog production_op exn.

(** The methods of [DockerPostgresqlDatabaseProvider] the gateway looks up. *)
Definition PROVIDER_METHODS : list string := ["adopt"; "reconcile"; "delete"; "cleanup"].
Definition gateway_method {R : Type} (e : gateway_op R) : option string :=
  match e with
  | ProviderQuarantine _ => Some "quarantine"
  | ProviderAdopt _ => Some "adopt"
  | ProviderReconcile _ => Some "reconcile"
  | ProviderDelete _ => Some "delete"
  | ProviderCleanup _ => Some "cleanup"
  | LifecycleRecords | GatewayDocker _ => None
  end.
(** A method the class does not have cannot be called. *)
Definition serve_gateway (R : Type) (e : gateway_op R) : production_prog R :=
  match gateway_method e with
  | Some method => if bool_decide (method ∈ PROVIDER_METHODS) then call (GatewayCall e)
    else Raise (AttributeError method)
  | None => call (GatewayCall e)
  end.

Section Production.
Variable parse_aware : json -> option aware_time.

Definition serve_lifecycle (R : Type) (e : lc_op R) : production_prog R :=
  match e with
  | Observe scope => interp serve_gateway (observe parse_aware scope)
  | Quarantine ref => interp serve_gateway (quarantine ref)
  | Adopt ref => interp serve_gateway (adopt ref)
  | Reconcile operation => interp serve_gateway (reconcile operation)
  | Delete creation => interp serve_gateway (delete creation)
  | Cleanup receipt => interp serve_gateway (LifecycleGateway.cleanup receipt)
  | RegistryList scope => call (PortCall (RegistryList scope))
  | RegistryGet pointer => call (PortCall (RegistryGet pointer))
  | JournalEvents => call (PortCall JournalEvents)
  | JournalAppend event => call (PortCall (JournalAppend event))
  | ClockNow => call (PortCall ClockNow)
  end.
Definition production_run (max_cleanup_retries : nat) (scope : ProjectScope) (p : LifecyclePolicy) (a : LifecycleAuthorization)
    (delete : bool) (wait : Z) (now : option datetime) : production_prog (list RecoveryResult) :=
  interp serve_lifecycle (run max_cleanup_retries scope p a delete wait now).
End Production.

(** ** Adopting, deleting and cleaning up follow a quarantine *)

Abbreviation history := (list (event lc_op exn)).
Definition quarantined (past : history) : Prop := exists ev, ev ∈ past /\ is_Some (quarantined_of ev).
Definition after_quarantine (past : history) (R : Type) (e : lc_op R) : Prop :=
  match e with Adopt _ | Delete _ | Cleanup _ => quarantined past | _ => True end.
Abbreviation disciplined := (guarded after_quarantine).
Definition anything {A : Type} : history -> result exn A -> Prop := fun _ _ => True.

Lemma quarantined_app past new : quarantined past -> quarantined (past ++ new).
Proof. intros (ev & Hin & Hev). exists ev. split; [|done]. apply elem_of_app. by left. Qed.

(** A program that only reads and journals may do so at any time. *)
Lemma reads_disciplined {A : Type} past (p : lc_prog A) Q :
  only reads p -> (forall new r, runs p new r -> Q (past ++ new) r) -> disciplined past p Q.
Proof. apply guarded_only. intros h R e He. by destruct e. Qed.
Lemma reads_only_disciplined {A : Type} past (p : lc_prog A) : only reads p -> disciplined past p anything.
Proof. intros H. by apply reads_disciplined. Qed.

(** First read, then go on. *)
Lemma disciplined_bind {A B : Type} past (p : lc_prog A) (k : A -> lc_prog B) :
  only reads p -> (forall new a, disciplined (past ++ new) (k a) anything) -> disciplined past (let* a := p in k a) anything.
Proof.
  intros Hp Hk. apply guarded_bind. apply reads_disciplined; [done|]. intros new [a|x] _; [apply Hk|done].
Qed.
(** After a quarantine everything is allowed. *)
Lemma quarantined_disciplined {A : Type} past (p : lc_prog A) : quarantined past -> disciplined past p anything.
Proof.
  revert past. induction p as [a|x|R e k IH]; intros past Hq; [done..|].
  split; [by destruct e|]. intros r. by apply IH, quarantined_app.
Qed.
Lemma quarantine_disciplined {A : Type} past ref (k : DatabaseRef -> lc_prog A) :
  disciplined past (let* q := call (Quarantine ref) in k q) anything.
Proof.
  apply guarded_bind_call; [done| |done]. intros q. apply quarantined_disciplined.
  exists (Event (Quarantine ref) (Ok q)). split; [|by eexists]. apply elem_of_app. right. by left.
Qed.

Lemma recover_disciplined n s p a r o d w now h past : disciplined past (recover n s p a r o d w now h) anything.
Proof.
  assert (Hmain : forall past,
    disciplined past (let* refused :=
      match o with
      | Some o =>
        if negb (bool_decide (obs_scope o = s)) then Ret (Some ("scope-mismatch", "registry")) else
        let* ok := eligible o p now in
        Ret (if negb ok then Some ("ineligible", obs_evidence_digest o) else None)
      | None => Ret None
      end in
    match refused with
    | Some (code, digest) => human p a code digest
    | None =>
      match r, o with
      | None, _ => recover_unregistered s p a o now
      | Some r, None =>
        let* registered := registry_matches r in
        if negb registered then human p a "registry-drift" "registry" else
        let* _ := call (Reconcile (operation_of r)) in
        let* _ := journal_action p a RECONCILED "registry" None in
        finish p a "registry-only" RECONCILED "registry" []
      | Some r, Some o => recover_registered n s p a r o d w now
      end
    end) anything).
  { clear past. intros past. apply disciplined_bind; [solve_only|]. intros new [[code digest]|]; [apply reads_only_disciplined; solve_only|].
    destruct r as [r|], o as [o|].
    - unfold recover_registered. destruct (negb _); [apply reads_only_disciplined; solve_only|].
      destruct (negb _); [apply reads_only_disciplined; solve_only|]. apply disciplined_bind; [solve_only|].
      intros new2 [[code d2]|]; [apply reads_only_disciplined; solve_only|apply quarantine_disciplined].
    - apply disciplined_bind; [solve_only|]. intros new2 [|]; cbn [negb]; [|apply reads_only_disciplined; solve_only].
      apply guarded_bind_call; [done| |done]. intros c. apply reads_only_disciplined. solve_only.
    - unfold recover_unregistered. destruct (negb _); [apply reads_only_disciplined; solve_only|].
      apply disciplined_bind; [solve_only|].
      intros new2 [[code d2]|]; [apply reads_only_disciplined; solve_only|apply quarantine_disciplined].
    - apply reads_only_disciplined. solve_only. }
  unfold recover. destruct (negb _); [apply reads_only_disciplined; solve_only|].
  destruct h as [h|], r as [r|]; [apply Hmain| |apply Hmain|apply Hmain].
  unfold recover_zombie. destruct (negb _); [apply reads_only_disciplined; solve_only|].
  apply disciplined_bind; [solve_only|]. intros new [|]; cbn [negb]; [|apply reads_only_disciplined; solve_only].
  destruct (_ && _); [apply reads_only_disciplined; solve_only|apply quarantine_disciplined].
Qed.

Lemma run_disciplined n s p a d w now past : disciplined past (run n s p a d w now) anything.
Proof.
  unfold run. destruct (_ <? _)%Z; [done|].
  do 4 (apply disciplined_bind; [solve_only|intros ? ?]).
  match goal with |- disciplined ?past0 (map_each _ ?l) _ => generalize past0; induction l as [|key keys IH]; intros past'; [done|] end.
  apply guarded_bind. eapply guarded_mono with (Q := anything).
  - intros new' [x|x] _; [|done]. apply guarded_bind. eapply guarded_mono; [|apply IH]. by intros ? [xs|xs].
  - unfold run_key. destruct (_ || _); [apply reads_only_disciplined; solve_only|].
    destruct (with_key history_key key _) as [|h [|h' l']]; [apply recover_disciplined| |apply reads_only_disciplined; solve_only].
    apply disciplined_bind; [solve_only|]. intros new' [r|]; [apply recover_disciplined|apply reads_only_disciplined; solve_only].
Qed.

(** ** What reaches the provider *)

(** Serving one gateway call. *)
Lemma serve_gateway_runs R (e : gateway_op R) tr o :
  runs (serve_gateway R e) tr o ->
  match gateway_method e with
  | Some method => if bool_decide (method ∈ PROVIDER_METHODS) then tr = [Event (GatewayCall e) o] else tr = [] /\ o = Err (AttributeError method)
  | None => tr = [Event (GatewayCall e) o]
  end.
Proof.
  unfold serve_gateway. intros H. destruct (gateway_method e); [|by apply runs_call].
  destruct (bool_decide _); [by apply runs_call|by apply runs_Raise in H].
Qed.

Lemma interp_gateway_call R (e : gateway_op R) tr o :
  runs (interp serve_gateway (call e)) tr o -> runs (serve_gateway R e) tr o.
Proof.
  intros (client & parts & Hc & -> & Hall)%runs_interp. apply runs_call in Hc as ->.
  inversion Hall as [|ev part evs parts' Hev Hnil]; subst. inversion Hnil; subst. cbn. by rewrite app_nil_r.
Qed.

(** Which gateway calls an event of a composed run may be. *)
Definition reaches (allowed : list (option string)) (ev : event production_op exn) : Prop :=
  match ev with Event e _ => match e with GatewayCall e => gateway_method e ∈ allowed | PortCall _ => True end end.

Lemma gateway_reaches {A : Type} allowed (p : gateway_prog A) tr o :
  only (fun R e => gateway_method e ∈ allowed) p -> runs (interp serve_gateway p) tr o -> Forall (reaches allowed) tr.
Proof.
  intros Hp (client & parts & Hc & -> & Hall)%runs_interp. pose proof (only_runs _ _ _ _ Hp Hc) as Hon.
  apply Forall_forall. intros ev Hin. destruct (question_of _ _ _ _ Hall Hin) as ([R e r] & part & Hq & Ha & Hev).
  rewrite Forall_forall in Hon. specialize (Hon _ Hq). cbn in Hon, Ha. apply serve_gateway_runs in Ha.
  assert (Hpart : part = [Event (GatewayCall e) r] \/ part = []).
  { destruct (gateway_method e); [|by left]. destruct (bool_decide _); [by left|]. right. by destruct Ha. }
  destruct Hpart as [->| ->]; [|by apply elem_of_nil in Hev]. by apply list_elem_of_singleton in Hev as ->.
Qed.

Lemma observe_asks parse_aware scope : only (fun R e => gateway_method e ∈ [@None string]) (observe parse_aware scope).
Proof.
  assert (Hdocker : forall argv, only (fun R (e : gateway_op R) => gateway_method e ∈ [@None string]) (run_docker argv)).
  { intros argv. unfold run_docker. solve_only. by left. }
  unfold observe. apply only_bind; [apply only_call; by left|]. intros raws.
  generalize (omap (M:=list) (coerce_record parse_aware) raws) at 1 2. intros all. revert all.
  assert (Hall : forall all records, only (fun R (e : gateway_op R) => gateway_method e ∈ [@None string]) (observe_all all scope records)).
  { intros all records. induction records as [|r records IH]; [done|]. cbn [observe_all].
    destruct (negb _); [apply IH|]. apply only_bind; [|intros o; apply only_bind; [apply IH|done]].
    destruct (negb _); [done|]. unfold observe_record. apply only_catch; [|done].
    repeat first [apply Hdocker|only_step]. }
  intros all. apply Hall.
Qed.

Section Reach.
Variable parse_aware : json -> option aware_time.
Abbreviation answers := (answered_by (serve_lifecycle parse_aware)).

(** No quarantine succeeds. *)
Lemma production_quarantine_fails ref part r : answers (Event (Quarantine ref) r) part -> part = [] /\ r = Err (AttributeError "quarantine").
Proof. intros H. by apply interp_gateway_call, serve_gateway_runs in H. Qed.

Lemma never_quarantined client parts : Forall2 answers client parts -> ~ quarantined client.
Proof.
  intros Hall ([R e r] & Hin & Hq). destruct (part_of _ _ _ _ _ _ Hall Hin) as (part & Hp & _).
  destruct e; cbn in Hq; try (by destruct Hq). apply production_quarantine_fails in Hp as [_ ->]. by destruct Hq.
Qed.

(** C36. In production the lifecycle service deletes nothing.  Whatever the policy, the
    authorization, the journal, the registry, Docker and the provider say, no run of
    [LifecycleService] over the production gateway calls the provider's [adopt], [delete] or
    [cleanup]: each of them follows a quarantine in the service, and the gateway's
    [provider.quarantine] names a method [DockerPostgresqlDatabaseProvider] does not have.  The
    only provider method a run reaches is [reconcile]. *)
Theorem production_lifecycle_never_deletes n scope p a delete wait now tr o :
  runs (production_run parse_aware n scope p a delete wait now) tr o ->
  Forall (reaches [None; Some "reconcile"]) tr.
Proof.
  intros (client & parts & Hc & -> & Hall)%runs_interp. apply Forall_forall. intros ev Hin.
  destruct (question_of _ _ _ _ Hall Hin) as ([R e r] & part & Hq & Ha & Hev).
  assert (Hafter : after_quarantine client R e).
  { apply list_elem_of_split in Hq as (before & later & ->).
    destruct (guarded_runs _ _ _ _ _ _ (run_disciplined n scope p a delete wait now []) Hc) as [_ Hbefore].
    specialize (Hbefore before R e r later eq_refl). destruct e; try done; by apply quarantined_app. }
  pose proof (never_quarantined _ _ Hall) as Hnever.
  assert (Hsub : Forall (reaches [None; Some "reconcile"]) part).
  { destruct e; cbn in Ha, Hafter; try (by destruct (Hnever Hafter)); try (apply runs_call in Ha as ->; by apply Forall_singleton).
    - eapply Forall_impl; [eapply gateway_reaches; [apply observe_asks|exact Ha]|].
      intros [R e0 r0]. cbn. destruct e0 as [R0 e0|R0 e0]; [done|]. intros ->%list_elem_of_singleton. by left.
    - by apply production_quarantine_fails in Ha as [-> _].
    - apply interp_gateway_call, runs_call in Ha as ->. apply Forall_singleton. right. by left. }
  rewrite Forall_forall in Hsub. by apply Hsub.
Qed.
End Reach.
