(* ===== verification/Journal.v ===== *)
(** * The journal as a durable log

    What an append leaves in the file, the round trip between appending and reading, and
    when a line cannot be read back. *)

From S2P Require Import Prelude Effects Values Docker Lifecycle LifecycleGateway.

Abbreviation journal_event := (event journal_op exn).

(** The bytes an [os.write] put into the file. *)
Definition written_by (ev : journal_event) : list ascii :=
  match ev with
  | Event e r =>
    match e in journal_op R return result exn R -> list ascii with
    | WriteSome bytes => fun r => match r with Ok n => take (Z.to_nat n) (chars bytes) | Err _ => [] end
    | _ => fun _ => []
    end r
  end.
Definition written (tr : list journal_event) : list ascii := mjoin (map written_by tr).

Lemma written_app tr1 tr2 : written (tr1 ++ tr2) = written tr1 ++ written tr2.
Proof. unfold written. rewrite map_app. apply join_app. Qed.
Lemma written_cons ev tr : written (ev :: tr) = written_by ev ++ written tr.
Proof. done. Qed.

Section Append.
Variable dump : LifecycleJournalEvent -> string.

(** Writing stops with everything written or with an exception, after a prefix. *)
Lemma write_all_runs fuel : forall encoded tr o,
  length encoded <= fuel -> runs (write_all fuel encoded) tr o ->
  match o with Ok _ => written tr = encoded | Err _ => written tr `prefix_of` encoded end.
Proof.
  induction fuel as [|fuel IH]; intros encoded tr o Hle H.
  - destruct encoded; [|cbn in Hle; lia]. by apply runs_Ret in H as [-> ->].
  - destruct encoded as [|c encoded]; [by apply runs_Ret in H as [-> ->]|].
    change (write_all (S fuel) (c :: encoded)) with
      (let* written := call (WriteSome (str (c :: encoded))) in
       if (written <=? 0)%Z then Raise (OSError EIO) else write_all fuel (drop (Z.to_nat written) (c :: encoded))) in H.
    apply runs_bind_call in H as ([n|x] & tr' & -> & H).
    + change (written (Event (WriteSome (str (c :: encoded))) (Ok n) :: tr')) with (take (Z.to_nat n) (chars (str (c :: encoded))) ++ written tr').
      rewrite chars_str. destruct (Z.leb_spec n 0) as [Hn|Hn].
      * apply runs_Raise in H as [-> ->]. replace (Z.to_nat n) with 0 by lia. apply prefix_nil.
      * apply IH in H; [|rewrite length_drop; cbn [length] in *; lia]. destruct o as [a|x].
        -- rewrite H. apply take_drop.
        -- rewrite <- (take_drop (Z.to_nat n) (c :: encoded)) at 2. by apply prefix_app.
    + destruct H as [-> ->]. apply prefix_nil.
Qed.

Definition line (e : LifecycleJournalEvent) : list ascii := chars (dump e +:+ newline).
Definition journal_of (es : list LifecycleJournalEvent) : list ascii := mjoin (map line es).
Lemma journal_of_app es1 es2 : journal_of (es1 ++ es2) = journal_of es1 ++ journal_of es2.
Proof. unfold journal_of. rewrite map_app. apply join_app. Qed.

(** An append is all or a prefix, and it is durable.  Whatever the operating system
    answers, an append that returns has written exactly the event's line while it held the
    exclusive lock, then synced the file, released it and synced the directory; an append that
    raises has written a prefix of the line, and the loop always ends. *)
Lemma append_is_durable event tr o :
  runs (append_event dump event) tr o ->
  match o with
  | Ok event' =>
    event' = event /\ exists writes,
      tr = [Event MakeJournalDir (Ok tt); Event OpenAppend (Ok tt); Event LockExclusive (Ok tt)] ++ writes ++
           [Event Fsync (Ok tt); Event Unlock (Ok tt); Event CloseJournal (Ok tt); Event FsyncDirectory (Ok tt)] /\
      written writes = line event
  | Err _ => written tr `prefix_of` line event
  end.
Proof.
  unfold append_event. intros H. apply runs_bind_call in H as ([[]|x] & t1 & -> & H);
    [|destruct H as [-> ->]; apply prefix_nil]. rewrite written_cons. cbn [written_by app].
  apply runs_bind_call in H as ([[]|x] & t2 & -> & H); [|destruct H as [-> ->]; apply prefix_nil]. rewrite written_cons. cbn [written_by app].
  assert (Hbody : forall t r, runs (let encoded := chars (dump event +:+ newline) in write_all (length encoded) encoded ;* call Fsync) t r ->
     match r with Ok _ => exists w, t = w ++ [Event Fsync (Ok tt)] /\ written w = line event | Err _ => written t `prefix_of` line event end).
  { cbv zeta. intros t r Hr. apply runs_bind in Hr as [(w & t' & [] & -> & Hw & Hr)|(x & -> & Hw)].
    - apply write_all_runs in Hw; [|done]. apply runs_call in Hr as ->. destruct r as [[]|x]; [by exists w|].
      rewrite written_app, Hw. cbn. by rewrite app_nil_r.
    - by apply write_all_runs in Hw. }
  assert (Hlocked : forall t r,
     runs (call LockExclusive ;* ending (let encoded := chars (dump event +:+ newline) in write_all (length encoded) encoded ;* call Fsync) (call Unlock)) t r ->
     match r with
     | Ok _ => exists w, t = [Event LockExclusive (Ok tt)] ++ w ++ [Event Fsync (Ok tt); Event Unlock (Ok tt)] /\ written w = line event
     | Err _ => written t `prefix_of` line event
     end).
  { intros t r Hr. apply runs_bind_call in Hr as ([[]|x] & t3 & -> & Hr); [|destruct Hr as [-> ->]; apply prefix_nil].
    rewrite written_cons. cbn [written_by app]. unfold ending in Hr. apply runs_bind in Hr as [(t4 & t5 & r1 & -> & H1 & Hr)|(x & -> & H1)];
      [|by apply runs_attempt in H1 as (? & [=] & _)].
    apply runs_attempt in H1 as (r1' & [= ->] & H1). apply Hbody in H1. rewrite written_app.
    apply runs_bind_call in Hr as ([[]|x] & t6 & -> & Hr).
    - apply runs_lift in Hr as [-> ->]. cbn [written_by app]. destruct r1' as [[]|x].
      + destruct H1 as (w & -> & Hw). exists w. split; [|done]. by rewrite <- !app_assoc.
      + change (written [Event Unlock (Ok tt)]) with (@nil ascii). by rewrite app_nil_r.
    - destruct Hr as [-> ->]. change (written [Event Unlock (Err x)]) with (@nil ascii). rewrite app_nil_r.
      destruct r1' as [[]|y]; [|done]. destruct H1 as (w & -> & Hw). rewrite written_app, Hw. by rewrite app_nil_r. }
  unfold ending at 1 in H. apply runs_bind in H as [(t4 & t5 & [] & -> & H1 & Hr)|(x & -> & H1)].
  - apply runs_bind in H1 as [(t6 & t7 & r1 & -> & H1 & H2)|(x & [=] & _)]. apply runs_attempt in H1 as (r1' & [= ->] & H1).
    apply Hlocked in H1. apply runs_bind_call in H2 as ([[]|x] & t8 & -> & H2); [|by destruct H2 as [_ [=]]].
    apply runs_lift in H2 as [-> H2]. subst r1'. destruct H1 as (w & -> & Hw).
    assert (Hline : written ((([Event LockExclusive (Ok tt)] ++ w ++ [Event Fsync (Ok tt); Event Unlock (Ok tt)]) ++ [Event CloseJournal (Ok tt)])) = line event).
    { rewrite !written_app, Hw. cbn. by rewrite !app_nil_r. }
    apply runs_bind_call in Hr as ([[]|x] & t9 & -> & Hr).
    + apply runs_Ret in Hr as [-> ->]. split; [done|]. exists w. split; [|done]. by rewrite <- !app_assoc.
    + destruct Hr as [-> ->]. rewrite written_app, Hline. cbn. by rewrite app_nil_r.
  - apply runs_bind in H1 as [(t6 & t7 & r1 & -> & H1 & H2)|(y & [=] & H1)]; [|by apply runs_attempt in H1 as (? & [=] & _)].
    apply runs_attempt in H1 as (r1' & [= ->] & H1). apply Hlocked in H1. rewrite written_app.
    assert (Hp : written t6 `prefix_of` line event).
    { destruct r1' as [[]|y]; [|done]. destruct H1 as (w & -> & Hw). rewrite !written_app, Hw. cbn. by rewrite app_nil_r. }
    apply runs_bind_call in H2 as ([[]|y] & t8 & -> & H2); [apply runs_lift in H2 as [-> _]|destruct H2 as [-> _]];
      cbn; by rewrite app_nil_r.
Qed.
End Append.

(** ** Reading back what was appended *)

Section Replay.
Variable dump : LifecycleJournalEvent -> string.
Variable parse : string -> option LifecycleJournalEvent.
Abbreviation line := (line dump).
Abbreviation journal_of := (journal_of dump).

(** An event whose text is one line and can be read back. *)
Definition readable (e : LifecycleJournalEvent) : Prop :=
  parse (dump e) = Some e /\ dump e ≠ "" /\ Forall (fun c => is_linebreak c = false) (chars (dump e)).

Lemma lines_from_line l rest : Forall (fun c => is_linebreak c = false) l ->
  forall current, lines_from current (l ++ "010"%char :: rest) = (reverse current ++ l) :: lines_from [] rest.
Proof.
  induction 1 as [|c l Hc _ IH]; intros current.
  - cbn. rewrite app_nil_r. by destruct rest.
  - cbn [app lines_from]. rewrite Hc, IH, reverse_cons, <- app_assoc. done.
Qed.

Lemma parse_journal es : Forall readable es -> parse_lines parse (splitlines (str (journal_of es))) = Ok es.
Proof.
  unfold splitlines. rewrite chars_str. induction 1 as [|e es (Hp & Hne & Hl) _ IH]; [done|].
  assert (E : journal_of (e :: es) = chars (dump e) ++ "010"%char :: journal_of es).
  { change (journal_of (e :: es)) with (line e ++ journal_of es). unfold Journal.line. rewrite chars_app, <- app_assoc. done. }
  rewrite E, lines_from_line by done. cbn [map parse_lines reverse app]. change (reverse [] ++ chars (dump e)) with (chars (dump e)).
  rewrite str_chars, bool_decide_false by done. rewrite Hp, IH. done.
Qed.

(** *** A file that takes at most [quantum] bytes at a time and has [room] for so many more *)

Record disk : Type := mkDisk { d_file : option (list ascii); d_room : nat }.
Definition content (d : disk) : list ascii := default [] (d_file d).
Definition journal_disk (quantum : nat) (R : Type) (e : journal_op R) (d : disk) : result exn R * disk :=
  match e in journal_op R return result exn R * disk with
  | OpenAppend => (Ok tt, mkDisk (Some (content d)) (d_room d))
  | OpenRead => (match d_file d with Some _ => Ok tt | None => Err (OSError ENOENT) end, d)
  | WriteSome bytes =>
    let n := Nat.min (S quantum) (Nat.min (d_room d) (length (chars bytes))) in
    if n =? 0 then (Err (OSError EIO), d)
    else (Ok (Z.of_nat n), mkDisk (Some (content d ++ take n (chars bytes))) (d_room d - n))
  | ReadAll => (Ok (str (content d)), d)
  | MakeJournalDir | LockExclusive | LockShared | Unlock | Fsync | CloseJournal | FsyncDirectory => (Ok tt, d)
  end.

Lemma disk_call quantum R (e : journal_op R) d r d' :
  journal_disk quantum R e d = (r, d') -> content d' = content d ++ written_by (Event e r).
Proof.
  destruct e; cbn -[Nat.min]; intros H; try (injection H as <- <-; cbn; by rewrite app_nil_r).
  case_match; injection H as <- <-; cbn -[Nat.min]; [by rewrite app_nil_r|]. by rewrite Nat2Z.id.
Qed.
Lemma disk_trace {A : Type} quantum (p : journal_prog A) d r d' :
  leads (journal_disk quantum) p d r d' -> exists tr, runs p tr r /\ content d' = content d ++ written tr.
Proof.
  revert d. induction p as [a|x|R e k IH]; intros d H.
  - apply leads_Ret in H as [-> ->]. exists []. split; [by apply runs_Ret|]. by rewrite app_nil_r.
  - apply leads_Raise in H as [-> ->]. exists []. split; [by apply runs_Raise|]. by rewrite app_nil_r.
  - apply leads_Call in H. destruct (journal_disk quantum R e d) as [a d1] eqn:E. cbn in H.
    apply IH in H as (tr & Hr & Hc). exists (Event e a :: tr). split; [apply runs_Call; eauto|].
    rewrite Hc, (disk_call _ _ _ _ _ _ E), written_cons. by rewrite app_assoc.
Qed.

Lemma appends_write es tr es' :
  runs (map_each (append_event dump) es) tr (Ok es') -> es' = es /\ written tr = journal_of es.
Proof.
  revert tr es'. induction es as [|e es IH]; intros tr es' H; [by apply runs_Ret in H as [-> [= ->]]|]. cbn [map_each] in H.
  apply runs_bind in H as [(t1 & t2 & a & -> & H1 & H)|(x & [=] & _)].
  apply append_is_durable in H1 as (-> & writes & -> & Hw).
  apply runs_bind in H as [(t3 & t4 & as' & -> & H2 & H)|(x & [=] & _)]. apply IH in H2 as [-> Hes].
  apply runs_Ret in H as [-> [= ->]]. split; [done|]. rewrite !written_app, Hes, Hw. cbn. by rewrite !app_nil_r.
Qed.

(** [d_file] is there once something was appended. *)
Lemma reads_back quantum d es :
  (d_file d = None -> es = []) -> content d = journal_of es -> Forall readable es ->
  leads (journal_disk quantum) (journal_events parse) d (Ok es) d.
Proof.
  intros Hnone Hc Hr. unfold journal_events. apply leads_attempt_bind. destruct (d_file d) as [file|] eqn:Ef.
  - exists (Ok tt), d. split; [apply leads_call; cbn; by rewrite Ef|]. apply leads_bind. left. exists (str (content d)), d.
    split; [done|]. apply leads_lift. split; [|done]. rewrite Hc. symmetry. by apply parse_journal.
  - exists (Err (OSError ENOENT)), d. split; [apply leads_call; cbn; by rewrite Ef|]. rewrite Hnone by done. by apply leads_Ret.
Qed.

(** With room for them, the bytes are all written. *)
Lemma write_all_fits quantum fuel : forall encoded file room,
  length encoded <= fuel -> length encoded <= room ->
  leads (journal_disk quantum) (write_all fuel encoded) (mkDisk (Some file) room) (Ok tt)
    (mkDisk (Some (file ++ encoded)) (room - length encoded)).
Proof.
  induction fuel as [|fuel IH]; intros encoded file room Hf Hroom.
  - destruct encoded; [|cbn in Hf; lia]. apply leads_Ret. by rewrite app_nil_r, Nat.sub_0_r.
  - destruct encoded as [|c encoded]; [apply leads_Ret; by rewrite app_nil_r, Nat.sub_0_r|].
    change (write_all (S fuel) (c :: encoded)) with
      (let* written := call (WriteSome (str (c :: encoded))) in
       if (written <=? 0)%Z then Raise (OSError EIO) else write_all fuel (drop (Z.to_nat written) (c :: encoded))).
    set (l := c :: encoded) in *. assert (Hl : 0 < length l) by (unfold l; cbn; lia). clearbody l.
    apply leads_bind_call. cbn -[Nat.min Z.leb Z.to_nat Z.of_nat drop take]. rewrite chars_str.
    set (n := Nat.min (S quantum) (Nat.min room (length l))). assert (Hn : 0 < n <= length l /\ n <= room) by lia.
    destruct (Nat.eqb_spec n 0) as [?|_]; [lia|]. rewrite (proj2 (Z.leb_gt _ _)) by lia. rewrite Nat2Z.id.
    specialize (IH (drop n l) (file ++ take n l) (room - n)). rewrite length_drop, <- app_assoc, take_drop in IH.
    replace (room - n - (length l - n)) with (room - length l) in IH by lia. apply IH; lia.
Qed.
Lemma append_fits quantum event file room :
  length (line event) <= room ->
  leads (journal_disk quantum) (append_event dump event) (mkDisk (Some file) room) (Ok event)
    (mkDisk (Some (file ++ line event)) (room - length (line event))).
Proof.
  intros Hroom. unfold append_event. do 2 (apply leads_bind_call; cbn).
  apply leads_bind. left. exists tt, (mkDisk (Some (file ++ line event)) (room - length (line event))). split; [|by constructor].
  unfold ending. apply leads_attempt_bind. exists (Ok tt), (mkDisk (Some (file ++ line event)) (room - length (line event))).
  split; [|by constructor]. apply leads_bind_call. cbn. apply leads_attempt_bind.
  exists (Ok tt), (mkDisk (Some (file ++ line event)) (room - length (line event))). split; [|by constructor].
  cbv zeta. apply leads_bind. left. eexists tt, _. split; [by apply write_all_fits|by constructor].
Qed.
Lemma appends_fit quantum es : forall file room,
  length (journal_of es) <= room ->
  exists d, leads (journal_disk quantum) (map_each (append_event dump) es) (mkDisk (Some file) room) (Ok es) d.
Proof.
  induction es as [|e es IH]; intros file room Hroom; [exists (mkDisk (Some file) room); by apply leads_Ret|].
  change (journal_of (e :: es)) with (line e ++ journal_of es) in Hroom. rewrite length_app in Hroom.
  destruct (IH (file ++ line e) (room - length (line e))) as (d & Hd); [lia|]. exists d. cbn [map_each].
  apply leads_bind. left. eexists e, _. split; [apply append_fits; lia|].
  apply leads_bind. left. exists es, d. split; [exact Hd|by apply leads_Ret].
Qed.

(** C37. The journal replays what was appended.  On a disk that takes as little as one byte per
    [write], appending events one after another returns when they fit, and when it returns
    [events()] reads exactly the events the journal already held followed by the new ones, in
    order.  The condition on all these events: the JSON text is not empty, has none of the
    line breaks of [str.splitlines] and parses back to the event.  [model_dump_json] does not
    promise the second: [a_next_line_ruins_the_journal] below. *)
Theorem journal_replays quantum room before es :
  Forall readable (before ++ es) ->
  (length (journal_of es) <= room ->
   exists d, leads (journal_disk quantum) (map_each (append_event dump) es) (mkDisk (Some (journal_of before)) room) (Ok es) d) /\
  forall es' d,
    leads (journal_disk quantum) (map_each (append_event dump) es) (mkDisk (Some (journal_of before)) room) (Ok es') d ->
    es' = es /\ leads (journal_disk quantum) (journal_events parse) d (Ok (before ++ es)) d.
Proof.
  intros Hr. split; [apply appends_fit|]. intros es' d H. destruct es as [|e es].
  { apply leads_Ret in H as [[= ->] ->]. split; [done|]. rewrite app_nil_r in *. by apply reads_back. }
  apply disk_trace in H as (tr & Hrun & Hc). apply appends_write in Hrun as [-> Hw]. split; [done|].
  assert (E : content d = journal_of (before ++ e :: es)) by (rewrite Hc, Hw, journal_of_app; done).
  apply reads_back; [|done|done]. intros Hd. unfold content in E. rewrite Hd, journal_of_app in E.
  symmetry in E. apply app_eq_nil in E as [_ E].
  change (journal_of (e :: es)) with (line e ++ journal_of es) in E. apply app_eq_nil in E as [E _].
  unfold Journal.line in E. rewrite chars_app in E. by apply app_eq_nil in E as [_ [=]].
Qed.
End Replay.

(** ** Samples *)

Definition sample_event (digest : string) : LifecycleJournalEvent :=
  mkLifecycleJournalEvent (mkLifecyclePolicy 10 5 [DEV; QA] []) digest (mkLifecycleAuthorization "ops" "ttl" true)
    ALERTED [] None "run".
(** Events are told apart by their digests. *)
Definition toy_dump (e : LifecycleJournalEvent) : string := "{" +:+ je_digest e +:+ "}".
Definition toy_parse (s : string) : option LifecycleJournalEvent :=
  match chars s with
  | "{"%char :: l =>
    match reverse l with "}"%char :: digest => Some (sample_event (str (reverse digest))) | _ => None end
  | _ => None
  end.

Lemma journal_replays_witness :
  exists d, leads (journal_disk 2) (map_each (append_event toy_dump) [sample_event "b"; sample_event "c"])
              (mkDisk (Some (journal_of toy_dump [sample_event "a"])) 100) (Ok [sample_event "b"; sample_event "c"]) d /\
            leads (journal_disk 2) (journal_events toy_parse) d (Ok [sample_event "a"; sample_event "b"; sample_event "c"]) d.
Proof.
  destruct (journal_replays toy_dump toy_parse 2 100 [sample_event "a"] [sample_event "b"; sample_event "c"]) as [Hfit Hread].
  - repeat apply Forall_cons_2; [..|apply Forall_nil_2]; (split; [reflexivity|split; [done|]]);
      repeat (apply Forall_cons_2; [reflexivity|]); apply Forall_nil_2.
  - destruct Hfit as (d & Hd); [by apply Nat.leb_le; vm_compute|]. exists d. split; [exact Hd|]. exact (proj2 (Hread _ _ Hd)).
Defined.

(** [str.splitlines] also splits at U+0085, which the JSON text of an event keeps as it is: after
    an event with that character, the journal cannot be read any more. *)
Example a_next_line_ruins_the_journal :
  let e := sample_event (String "133"%char "") in
  toy_parse (toy_dump e) = Some e /\
  let '(appended, _, d) := exec (journal_disk 5) (append_event toy_dump e) (mkDisk None 100) in
  appended = Ok e /\ (exec (journal_disk 5) (journal_events toy_parse) d).1.1 = Err (ValueError "journal line").
Proof. by vm_compute. Qed.

(** An append the disk cuts short leaves half a line, which spoils the next line too. *)
Example half_a_line_ruins_the_next :
  let d1 := (exec (journal_disk 5) (append_event toy_dump (sample_event "long")) (mkDisk None 3)).2 in
  let d2 := (exec (journal_disk 5) (append_event toy_dump (sample_event "a")) (mkDisk (d_file d1) 100)).2 in
  (exec (journal_disk 5) (append_event toy_dump (sample_event "a")) (mkDisk (d_file d1) 100)).1.1 = Ok (sample_event "a") /\
  d_file d2 = Some (chars ("{lo{a}" +:+ newline)) /\
  (exec (journal_disk 5) (journal_events (fun s => if bool_decide (s = "{a}") then Some (sample_event "a") else None)) d2).1.1
    = Err (ValueError "journal line").
Proof. by vm_compute. Qed.
