(* ===== verification/LifecycleLedger.v ===== *)
(** * The gateway over the ownership authority's own ledger

    What [observe] finds in a ledger that only the authority's operations have written, and a
    zombie the service tries to quarantine in production. *)

From S2P Require Import Prelude Effects Values Json Filesystem Custody Authority AuthorityFacts AuthorityLedger.
From S2P Require Import Backend Durable Lifecycle LifecycleFacts LifecycleGateway LifecycleWiring.

(** A record the gateway cannot take for one of its own. *)
Definition untenanted (r : record) : Prop := r !! "tenant_id" = None.

Lemma untenanted_unknown parse_aware r : untenanted r -> coerce_record parse_aware r = None.
Proof.
  unfold untenanted, coerce_record, nonempty_text, text_of, raw_record. intros ->. destruct (bool_decide _); [|done].
  by destruct (r !! "name") as [[]|].
Qed.

Section Ledger.
Variable root : fpath.
Context {uid : nat}.
Variable ed25519_sign : string -> string -> option string.
Variable ed25519_verify : string -> string -> string -> bool.
Hypothesis sign_verify : forall key message signature,
  ed25519_sign key message = Some signature -> ed25519_verify key signature message = true.
Variable parse_aware : json -> option aware_time.

Abbreviation custody_step := (custody_step ed25519_sign (fun _ => untenanted)).
Definition all_untenanted (st : AuthorityState) : Prop := Forall untenanted (records st).

Lemma appended_untenanted st r st' :
  appended ed25519_sign st r = Ok st' -> untenanted r -> all_untenanted st -> all_untenanted st'.
Proof.
  intros ([] & _ & (r' & Hr' & [= <-])%result_bind_Ok)%result_bind_Ok Hr Hst. apply Forall_app. split; [done|]. apply Forall_singleton.
  unfold stored_record in Hr'. apply result_bind_Ok in Hr' as (s & _ & [= <-]). unfold untenanted. by rewrite !lookup_insert_ne by done.
Qed.
Lemma step_untenanted st st' : custody_step st st' -> all_untenanted st -> all_untenanted st'.
Proof.
  intros Hstep Hst. destruct Hstep as [o n d r rs st' Hc Ha|o n d e t st' _ _ Ha|o n r st' _ Ha|r st' Hr Ha|id key _|nonce];
    [|by eapply appended_untenanted..|done|done].
  apply converge_steps_head in Hc as (_ & d' & t & -> & _). by eapply appended_untenanted.
Qed.
Lemma steps_untenanted st st' : rtc custody_step st st' -> all_untenanted st -> all_untenanted st'.
Proof. induction 1; [done|]. eauto using step_untenanted. Qed.

(** What [lifecycle_records] returns are records of the ledger. *)
Lemma lifecycle_records_of quantum token w raws w' :
  leads (posix uid quantum token) (lifecycle_records root uid ed25519_verify) w (Ok raws) w' ->
  exists st, ledger_of (uid := uid) root ed25519_verify w = Ok st /\ forall r, r ∈ raws -> r ∈ records st.
Proof.
  unfold lifecycle_records. intros H. apply leads_bind in H as [(st & w1 & H1 & H)|(x & [=] & _)].
  apply read_ledger in H1 as [_ Hst]. specialize (Hst _ eq_refl). apply leads_Ret in H as [[= ->] _]. exists st. split; [done|].
  intros r Hin. apply list_elem_of_fmap in Hin as ([k r0] & -> & Hin). cbn.
  apply dget_elem_NoDup, dget_dict_of_elem in Hin; [|apply dict_of_NoDup].
  by apply list_elem_of_fmap in Hin as (r1 & [= -> ->] & Hin).
Qed.

Lemma unknown_records raws : (forall r, r ∈ raws -> untenanted r) -> omap (M:=list) (coerce_record parse_aware) raws = [].
Proof.
  induction raws as [|r raws IH]; intros H; [done|]. cbn. rewrite untenanted_unknown by (apply H; by left).
  apply IH. intros r' Hin. apply H. by right.
Qed.

(** The lifecycle sees nothing the authority records.  Start from a ledger without tenants
    (an empty one, say) and let the authority's own operations run under any I/O failures, [write]
    only with records that have no tenant either: the
    records [lifecycle_records] returns lack the tenant, project, class, activity and evidence
    the gateway requires, so [observe] asks Docker nothing and reports no database, for every
    scope. *)
Theorem custody_is_unobserved quantum token w w' st raws w1 scope tr o :
  ledger_of (uid := uid) root ed25519_verify w = Ok st -> wf_state ed25519_verify st -> all_untenanted st ->
  rtc (op_step (uid := uid) root ed25519_sign ed25519_verify (fun _ => untenanted)) w w' ->
  leads (posix uid quantum token) (lifecycle_records root uid ed25519_verify) w' (Ok raws) w1 ->
  runs (observe parse_aware scope) (Event LifecycleRecords (Ok raws) :: tr) o ->
  tr = [] /\ o = Ok [].
Proof using sign_verify.
  intros Hl Hwf Hst Hsteps Hrec Hobs.
  destruct (run_steps root ed25519_sign ed25519_verify sign_verify _ _ _ Hsteps st Hl Hwf) as (st' & Hl' & Hs & _).
  apply lifecycle_records_of in Hrec as (st2 & Hl2 & Hin). rewrite Hl' in Hl2. injection Hl2 as <-.
  pose proof (steps_untenanted _ _ Hs Hst) as Hun. unfold all_untenanted in Hun. rewrite Forall_forall in Hun.
  unfold observe in Hobs. apply runs_bind_call in Hobs as (r & tr' & Heq & Hobs).
  assert (Ev : Event LifecycleRecords (Ok raws) = Event LifecycleRecords r /\ tr = tr').
  { split; [exact (f_equal (hd (Event LifecycleRecords r)) Heq)|exact (f_equal tl Heq)]. }
  destruct Ev as [Ev ->].
  set (answer (ev : event gateway_op exn) := match ev with @Event _ _ R e r0 =>
    match e in gateway_op R return result exn R -> option (result exn (list raw_record)) with LifecycleRecords => Some | _ => fun _ => None end r0 end).
  apply (f_equal answer) in Ev. injection Ev as <-. cbn in Hobs.
  rewrite unknown_records in Hobs by (intros r Hr; apply Hun, Hin, Hr). by apply runs_Ret in Hobs.
Qed.
End Ledger.

(** ** Samples *)

(** A database the authority has active custody of. *)
Definition sample_raws : list record :=
  match (exec (posix 7 1000 "t2") (lifecycle_records sample_root 7 toy_verify) sample_owned).1.1 with Ok raws => raws | Err _ => [] end.
Definition sample_docker (raws : list record) (R : Type) (e : gateway_op R) (asked : nat) : result exn R * nat :=
  match e in gateway_op R return result exn R * nat with
  | LifecycleRecords => (Ok raws, asked)
  | GatewayDocker _ => (Ok (0%Z, Some ""), S asked)
  | _ => (Err TimeoutExpired, asked)
  end.
Definition sample_aware (j : json) : option aware_time :=
  match j with JStr s => Some (mkAwareTime (DateTime 0 true) s) | _ => None end.

Lemma sample_raws_read :
  leads (posix 7 1000 "t2") (lifecycle_records sample_root 7 toy_verify) sample_owned (Ok sample_raws)
    (exec (posix 7 1000 "t2") (lifecycle_records sample_root 7 toy_verify) sample_owned).2.
Proof. constructor. vm_compute. reflexivity. Qed.

Lemma custody_is_unobserved_witness :
  map (fun r => (text_field r "name", text_field r "state")) sample_raws = [("db", "active")] /\
  forall tr o, runs (observe sample_aware sample_scope) (Event LifecycleRecords (Ok sample_raws) :: tr) o -> tr = [] /\ o = Ok [].
Proof.
  split; [vm_compute; reflexivity|]. intros tr o.
  exact (custody_is_unobserved sample_root toy_sign toy_verify toy_sign_verify sample_aware 1000 "t2" _ _ sample_ledger _ _ sample_scope tr o
    sample_read sample_wf (Forall_nil_2 _) (sample_owned_run _) sample_raws_read).
Defined.

(** A record of another writer, with everything the gateway wants. *)
Definition sample_raw : raw_record :=
  list_to_map [("state", JStr "active"); ("name", JStr "db"); ("tenant_id", JStr "t"); ("project_id", JStr "p");
               ("operation", JStr "op-1"); ("request_digest", JStr "digest"); ("docker_id", JStr "c0ffee");
               ("resource_class", JStr "dev"); ("last_activity", JStr "2026-01-01T00:00:00+00:00"); ("evidence_digest", JStr "e")].
Definition sample_seen := exec (sample_docker [sample_raw]) (observe sample_aware sample_scope) 0.
Lemma sample_seen_runs : runs (observe sample_aware sample_scope) sample_seen.1.2 sample_seen.1.1.
Proof. apply exec_runs. Qed.

Lemma presence_is_evidenced_witness :
  (match sample_seen.1.1 with Ok os => map obs_presence os | Err _ => [] end) = [ABSENT] /\
  exists raws parts os, sample_seen.1.2 = Event LifecycleRecords (Ok raws) :: concat parts /\ sample_seen.1.1 = Ok os /\
    Forall3 (observed (omap (M:=list) (coerce_record sample_aware) raws))
      (of_scope sample_scope (omap (M:=list) (coerce_record sample_aware) raws)) parts os.
Proof.
  split; [vm_compute; reflexivity|].
  destruct (presence_is_evidenced sample_aware sample_scope _ _ sample_seen_runs) as [(x & _ & Hx)|H]; [|exact H].
  exfalso. vm_compute in Hx. discriminate Hx.
Defined.

(** A quarantined database nobody registers any more: the run stops at [provider.quarantine]. *)
Definition zombie_history : QuarantineHistory :=
  mkQuarantineHistory (rec_pointer sample_record) sample_scope (mkDatabaseRef "db-1" CREATED) sample_op "e" DEV (DateTime 0 true) None.
Definition production_ports (R : Type) (e : production_op R) (n : nat) : result exn R * nat :=
  match e in production_op R return result exn R * nat with
  | GatewayCall e => sample_docker [] _ e n
  | PortCall e =>
    match e in lc_op R return result exn R * nat with
    | RegistryList _ => (Ok [], n)
    | JournalEvents => (Ok [mkLifecycleJournalEvent sample_policy "registry" (sample_authorization true) QUARANTINED [] (Some zombie_history) "action"], n)
    | JournalAppend event => (Ok event, n)
    | ClockNow => (Ok (DateTime 100 true), n)
    | _ => (Err InstanceRecordNotFoundError, n)
    end
  end.
Definition sample_production :=
  exec production_ports (production_run sample_aware 2 sample_scope sample_policy (sample_authorization true) true 0 None) 0.
Lemma sample_production_runs :
  runs (production_run sample_aware 2 sample_scope sample_policy (sample_authorization true) true 0 None)
    sample_production.1.2 sample_production.1.1.
Proof. apply exec_runs. Qed.

Lemma production_lifecycle_never_deletes_witness :
  sample_production.1.1 = Err (AttributeError "quarantine") /\
  Forall (reaches [None; Some "reconcile"]) sample_production.1.2.
Proof.
  split; [vm_compute; reflexivity|].
  exact (production_lifecycle_never_deletes sample_aware 2 sample_scope sample_policy (sample_authorization true) true 0 None _ _
    sample_production_runs).
Defined.
