(* ===== verification/RemoteDeployment.v ===== *)
(** * Remote deployment ([odoo_forge/remote_deployment.py])

    The coordinator runs the runtime provider, then the exposure reconciler when the deployment
    declares one, and hands a receipt to the recorder only for outcomes the durable operation
    store proves.  The values come from [deployment_spec/types.py] and [exposure/types.py]. *)

From S2P Require Import Prelude Effects Values Backend Durable.

(** ** The desired deployment *)

Inductive RequirementPolicy : Type := POLICY_DISABLED | POLICY_REQUIRED.
Inductive RouteProtocol : Type := HTTP | HTTPS.
Record ExposureIntent : Type := mkExposureIntent {
  xi_hostname : string; xi_protocol : RouteProtocol; xi_dns : RequirementPolicy; xi_tls : RequirementPolicy }.
Record DeploymentSpec : Type := mkDeploymentSpec {
  ds_pointer : InstancePointer; ds_resource : ResourceRef; ds_odoo_version : string; ds_exposure : option ExposureIntent }.

(** [ExposureIntent.validate_policy], after the field constraints. *)
Definition validate_policy (x : ExposureIntent) : result exn ExposureIntent :=
  ensure (negb (bool_decide (xi_hostname x = ""))) (ValueError "hostname") ;!
  match xi_protocol x, xi_tls x with
  | HTTPS, POLICY_DISABLED => Err (ValueError "HTTPS exposure requires TLS")
  | HTTP, POLICY_REQUIRED => Err (ValueError "HTTP exposure cannot require TLS")
  | _, _ => Ok x
  end.

(** ** Exposure *)

Inductive ExposureOutcome : Type := EXPOSURE_ACCEPTED | EXPOSURE_IN_PROGRESS | READY | EXPOSURE_FAILED | EXPOSURE_RECONCILIATION_REQUIRED.
Inductive ExposureCheckStatus : Type := PENDING | VERIFIED | CHECK_FAILED | CHECK_RECONCILIATION_REQUIRED.
#[export] Instance ExposureOutcome_eq_dec : EqDecision ExposureOutcome.
Proof. solve_decision. Defined.
#[export] Instance ExposureCheckStatus_eq_dec : EqDecision ExposureCheckStatus.
Proof. solve_decision. Defined.

Record ExposureRequest : Type := mkExposureRequest {
  xq_instance : InstanceRef; xq_deployment : DeploymentSpec; xq_scope : ProjectScope; xq_operation : DurableOperationIdentity;
  xq_ownership : list OwnershipRecord; xq_credential_handles : list string }.
(** [tls_status] has one value only. *)
Record ExposureResult : Type := mkExposureResult {
  xr_operation : DurableOperationIdentity; xr_outcome : ExposureOutcome; xr_routing_status : ExposureCheckStatus;
  xr_dns_status : ExposureCheckStatus; xr_ready : bool; xr_tls_ready : bool; xr_ownership : list OwnershipRecord;
  xr_evidence : list RedactedEvidence }.

(** Every receipt of the records is one of [operation]. *)
Definition owned_by (operation : DurableOperationIdentity) (records : list OwnershipRecord) : bool :=
  forallb (fun r => match own_receipt r with None => true | Some rc => bool_decide (or_operation rc = operation) end) records.

(** [ExposureRequest.validate_scope_and_ownership] *)
Definition exposure_request (q : ExposureRequest) : result exn ExposureRequest :=
  ensure (bool_decide (ir_project (xq_instance q) = project_id (xq_scope q))) (ValueError "instance scope does not match request scope") ;!
  ensure (bool_decide (ptr_scope (ds_pointer (xq_deployment q)) = xq_scope q)) (ValueError "deployment scope does not match request scope") ;!
  ensure (owned_by (xq_operation q) (xq_ownership q)) (ValueError "ownership operation does not match request operation") ;!
  Ok q.
(** [ExposureResult.validate_readiness_scope] *)
Definition exposure_result (r : ExposureResult) : result exn ExposureResult :=
  ensure (owned_by (xr_operation r) (xr_ownership r)) (ValueError "ownership operation does not match result operation") ;!
  ensure (negb (xr_tls_ready r)) (ValueError "TLS is deferred and cannot make exposure ready") ;!
  ensure (negb (xr_ready r && (negb (bool_decide (xr_outcome r = READY)) || negb (bool_decide (xr_routing_status r = VERIFIED)) ||
                               negb (bool_decide (xr_dns_status r = VERIFIED)))))
    (ValueError "implemented exposure readiness requires verified HTTP routing and DNS") ;!
  Ok r.

(** ** The coordinator *)

Record RemoteTargetFingerprint : Type := mkRemoteTargetFingerprint {
  target_host : string; target_user : string; target_port : Z; target_host_key : string }.
Record RemoteDeploymentRequest : Type := mkRemoteDeploymentRequest {
  dq_deployment : DeploymentSpec; dq_plan : BackendPlan; dq_target : RemoteTargetFingerprint;
  dq_runtime_operation : DurableOperationIdentity; dq_exposure_operation : option DurableOperationIdentity;
  dq_runtime_ownership : list OwnershipRecord; dq_exposure_credential_handles : list string }.
Record RemoteDeploymentReceipt : Type := mkRemoteDeploymentReceipt {
  dr_deployment : DeploymentSpec; dr_provider : string; dr_target : RemoteTargetFingerprint; dr_runtime_ref : option InstanceRef;
  dr_runtime_operation : DurableOperationIdentity; dr_runtime_ownership : list OwnershipRecord;
  dr_runtime_terminal_record : DurableOperationRecord; dr_exposure_operation : option DurableOperationIdentity;
  dr_exposure_result : option ExposureResult; dr_exposure_ownership : list OwnershipRecord;
  dr_exposure_terminal_record : option DurableOperationRecord; dr_outcome : LifecycleState }.

Definition valid_terminal (record : DurableOperationRecord) (operation : DurableOperationIdentity) : bool :=
  match do_terminal_commit record with
  | None => false
  | Some commit =>
    bool_decide (do_identity record = operation) && bool_decide (do_lifecycle record ∈ [SUCCEEDED; FAILED]) &&
    bool_decide (tc_outcome commit = do_lifecycle record) &&
    match tc_residual_cleanup commit with [] => true | _ => false end &&
    match tc_evidence commit with [] => false | _ => true end
  end.

Inductive remote_op : Type -> Type :=
| RunRuntime (plan : BackendPlan) : remote_op InstanceRef
| CreateOrLoad (operation : DurableOperationIdentity) : remote_op DurableOperationRecord
| ReconcileExposure (request : ExposureRequest) : remote_op ExposureResult
| RecordReceipt (receipt : RemoteDeploymentReceipt) : remote_op unit.
Definition remote_prog := prog remote_op exn.

Definition incomplete (why : string) : exn := RemoteDeploymentIncompleteError why.

Definition receipt_of (q : RemoteDeploymentRequest) (runtime_ref : option InstanceRef) (runtime_record : DurableOperationRecord)
    (exposure_operation : option DurableOperationIdentity) (result : option ExposureResult) (ownership : list OwnershipRecord)
    (exposure_record : option DurableOperationRecord) (outcome : LifecycleState) : RemoteDeploymentReceipt :=
  mkRemoteDeploymentReceipt (dq_deployment q) "vps" (dq_target q) runtime_ref (dq_runtime_operation q) (dq_runtime_ownership q)
    runtime_record exposure_operation result ownership exposure_record outcome.

(** [_record_validated_failure]: whatever goes wrong in it is swallowed. *)
Definition record_validated_failure (q : RemoteDeploymentRequest) (exposure_operation : option DurableOperationIdentity)
    (runtime_ref : option InstanceRef) : remote_prog unit :=
  catch
    (let* runtime_record := call (CreateOrLoad (dq_runtime_operation q)) in
     if negb (valid_terminal runtime_record (dq_runtime_operation q)) then Ret tt else
     match exposure_operation with
     | None =>
       if negb (bool_decide (do_lifecycle runtime_record = FAILED)) then Ret tt else
       call (RecordReceipt (receipt_of q runtime_ref runtime_record None None [] None FAILED))
     | Some operation =>
       if negb (bool_decide (do_lifecycle runtime_record = SUCCEEDED)) then Ret tt else
       let* record := call (CreateOrLoad operation) in
       if negb (valid_terminal record operation) then Ret tt else
       if negb (bool_decide (do_lifecycle record = FAILED)) then Ret tt else
       call (RecordReceipt (receipt_of q runtime_ref runtime_record (Some operation) None [] (Some record) FAILED))
     end)
    (fun _ => Ret tt).

(** [try: p except Exception: record the failure; raise] *)
Definition recording_failure {A : Type} (q : RemoteDeploymentRequest) (exposure_operation : option DurableOperationIdentity)
    (runtime_ref : option InstanceRef) (p : remote_prog A) : remote_prog A :=
  catch p (fun e => record_validated_failure q exposure_operation runtime_ref ;* Raise e).

(** What the coordinator demands of the request. *)
Definition check_request (q : RemoteDeploymentRequest) : result exn unit :=
  ensure (owned_by (dq_runtime_operation q) (dq_runtime_ownership q)) (incomplete "runtime ownership is inconsistent") ;!
  match ds_exposure (dq_deployment q) with
  | None =>
    ensure (match dq_exposure_operation q with None => true | Some _ => false end) (incomplete "exposure operation has no exposure intent")
  | Some _ =>
    ensure (negb (bool_decide (dq_exposure_operation q = Some (dq_runtime_operation q))))
      (incomplete "runtime and exposure operations must differ")
  end.
Definition identity_matches (d : DeploymentSpec) (ref : InstanceRef) : bool :=
  bool_decide (ir_project ref = project_id (ptr_scope (ds_pointer d))) &&
  bool_decide (ir_instance ref = instance_value (ptr_instance_id (ds_pointer d))) &&
  bool_decide (ir_network ref = rr_identifier (ds_resource d)).
Definition exposure_proven (record : DurableOperationRecord) (operation : DurableOperationIdentity) (r : ExposureResult) : bool :=
  valid_terminal record operation && bool_decide (do_lifecycle record = SUCCEEDED) && bool_decide (xr_operation r = operation) &&
  bool_decide (xr_outcome r = READY) && xr_ready r.

Section Coordinator.
(** [exposure_provider is not None] *)
Variable has_exposure_provider : bool.

(** The exposure part: the result and its record, when the deployment wants one. *)
Definition expose (q : RemoteDeploymentRequest) (runtime_ref : InstanceRef) : remote_prog (option (ExposureResult * DurableOperationRecord)) :=
  match ds_exposure (dq_deployment q) with
  | None => Ret None
  | Some _ =>
    match (if has_exposure_provider then dq_exposure_operation q else None) with
    | None => Raise (incomplete "exposure reconciliation is not composed")
    | Some operation =>
      let* xq := lift (exposure_request (mkExposureRequest runtime_ref (dq_deployment q) (ptr_scope (ds_pointer (dq_deployment q)))
                         operation [] (dq_exposure_credential_handles q))) in
      let* r := recording_failure q (Some operation) (Some runtime_ref) (call (ReconcileExposure xq)) in
      let* record := call (CreateOrLoad operation) in
      if negb (exposure_proven record operation r) then Raise (incomplete "exposure evidence is incomplete") else
      Ret (Some (r, record))
    end
  end.

Definition deploy (q : RemoteDeploymentRequest) : remote_prog RemoteDeploymentReceipt :=
  lift (check_request q) ;*
  let* runtime_ref := recording_failure q None None (call (RunRuntime (dq_plan q))) in
  if negb (identity_matches (dq_deployment q) runtime_ref) then Raise (incomplete "runtime identity is inconsistent") else
  let* runtime_record := call (CreateOrLoad (dq_runtime_operation q)) in
  if negb (valid_terminal runtime_record (dq_runtime_operation q)) then Raise (incomplete "runtime evidence is incomplete") else
  if negb (bool_decide (do_lifecycle runtime_record = SUCCEEDED)) then Raise (incomplete "runtime operation did not succeed") else
  let* exposed := expose q runtime_ref in
  let receipt := receipt_of q (Some runtime_ref) runtime_record (dq_exposure_operation q) (fst <$> exposed)
                   (default [] (xr_ownership ∘ fst <$> exposed)) (snd <$> exposed) SUCCEEDED in
  call (RecordReceipt receipt) ;*
  Ret receipt.
End Coordinator.

(** * What a remote deployment records *)

Abbreviation history := (list (event remote_op exn)).

Definition recorded (ev : event remote_op exn) : option RemoteDeploymentReceipt :=
  match ev with Event e _ => match e with RecordReceipt receipt => Some receipt | _ => None end end.
Definition unrecorded (past : history) : Prop := Forall (fun ev => recorded ev = None) past.

(** The store answered [record] for [operation], and the record proves the outcome. *)
Definition proven (past : history) (operation : DurableOperationIdentity) (record : DurableOperationRecord) (outcome : LifecycleState) : Prop :=
  Event (CreateOrLoad operation) (Ok record) ∈ past /\ valid_terminal record operation = true /\ do_lifecycle record = outcome.

(** What a receipt of success claims. *)
Record succeeded (q : RemoteDeploymentRequest) (past : history) (receipt : RemoteDeploymentReceipt) : Prop := {
  suc_runtime : exists ref, dr_runtime_ref receipt = Some ref /\ Event (RunRuntime (dq_plan q)) (Ok ref) ∈ past /\
                            identity_matches (dq_deployment q) ref = true;
  suc_proof : proven past (dq_runtime_operation q) (dr_runtime_terminal_record receipt) SUCCEEDED;
  suc_exposure :
    match ds_exposure (dq_deployment q) with
    | None => dr_exposure_operation receipt = None /\ dr_exposure_result receipt = None /\ dr_exposure_terminal_record receipt = None
    | Some _ => exists operation xq r record,
        dr_exposure_operation receipt = Some operation /\ operation ≠ dq_runtime_operation q /\
        dr_exposure_result receipt = Some r /\ dr_exposure_terminal_record receipt = Some record /\
        Event (ReconcileExposure xq) (Ok r) ∈ past /\ xr_operation r = operation /\ xr_outcome r = READY /\ xr_ready r = true /\
        (exposure_result r = Ok r -> xr_routing_status r = VERIFIED /\ xr_dns_status r = VERIFIED) /\
        proven past operation record SUCCEEDED
    end }.
(** What a receipt of failure claims: the provider raised [e] and the store knows the operation failed. *)
Inductive failed (q : RemoteDeploymentRequest) (past : history) (receipt : RemoteDeploymentReceipt) (e : exn) : Prop :=
| failed_runtime :
    Event (RunRuntime (dq_plan q)) (Err e) ∈ past -> dr_runtime_ref receipt = None -> dr_exposure_operation receipt = None ->
    proven past (dq_runtime_operation q) (dr_runtime_terminal_record receipt) FAILED -> failed q past receipt e
| failed_exposure operation xq record :
    Event (ReconcileExposure xq) (Err e) ∈ past -> dr_exposure_operation receipt = Some operation ->
    dr_exposure_terminal_record receipt = Some record -> dr_exposure_result receipt = None ->
    proven past (dq_runtime_operation q) (dr_runtime_terminal_record receipt) SUCCEEDED -> proven past operation record FAILED ->
    failed q past receipt e.

(** The receipt is the request's, and says what happened. *)
Definition truthful (q : RemoteDeploymentRequest) (past : history) (receipt : RemoteDeploymentReceipt) : Prop :=
  dr_deployment receipt = dq_deployment q /\ dr_target receipt = dq_target q /\
  dr_runtime_operation receipt = dq_runtime_operation q /\ dr_runtime_ownership receipt = dq_runtime_ownership q /\
  ((dr_outcome receipt = SUCCEEDED /\ succeeded q past receipt) \/
   (dr_outcome receipt = FAILED /\ exists e, failed q past receipt e)).

(** One receipt at most, and a truthful one. *)
Definition allowed (q : RemoteDeploymentRequest) (past : history) (R : Type) (e : remote_op R) : Prop :=
  match e with RecordReceipt receipt => unrecorded past /\ truthful q past receipt | _ => True end.
(** How a deployment ends. *)
Definition ended (q : RemoteDeploymentRequest) (past : history) (o : result exn RemoteDeploymentReceipt) : Prop :=
  match o with
  | Ok receipt => dr_outcome receipt = SUCCEEDED /\ Event (RecordReceipt receipt) (Ok tt) ∈ past
  | Err e => forall ev receipt, ev ∈ past -> recorded ev = Some receipt -> dr_outcome receipt = FAILED -> failed q past receipt e
  end.

(** A well-formed result that is ready has a verified route and a verified name. *)
Lemma ready_verified r : xr_ready r = true -> exposure_result r = Ok r -> xr_routing_status r = VERIFIED /\ xr_dns_status r = VERIFIED.
Proof.
  intros Hr H. unfold exposure_result in H. rewrite Hr in H. do 2 apply result_bind_Ok in H as ([] & _ & H).
  apply result_bind_Ok in H as ([] & H & _). apply ensure_Ok in H. destruct (xr_routing_status r), (xr_dns_status r); try done;
    by rewrite ?orb_true_r in H.
Qed.

Section Facts.
Variable q : RemoteDeploymentRequest.
Abbreviation honest := (guarded (allowed q)).

Lemma unrecorded_snoc past R (e : remote_op R) r : unrecorded past -> recorded (Event e r) = None -> unrecorded (past ++ [Event e r]).
Proof. intros Hp He. apply Forall_app. split; [done|]. by apply Forall_singleton. Qed.
Lemma unrecorded_ended past e : unrecorded past -> ended q past (Err e).
Proof.
  intros Hp ev receipt Hin Hr _. unfold unrecorded in Hp. rewrite Forall_forall in Hp. specialize (Hp ev Hin). congruence.
Qed.

Lemma valid_terminal_proven past operation record outcome :
  Event (CreateOrLoad operation) (Ok record) ∈ past -> valid_terminal record operation = true ->
  bool_decide (do_lifecycle record = outcome) = true -> proven past operation record outcome.
Proof. intros ? ? ?%bool_decide_eq_true. by split_and!. Qed.

Lemma failed_mono past new receipt e : failed q past receipt e -> failed q (past ++ new) receipt e.
Proof.
  assert (Hmono : forall op rec oc, proven past op rec oc -> proven (past ++ new) op rec oc).
  { intros op rec oc (H1 & H2 & H3). split_and!; [|done..]. apply elem_of_app. by left. }
  intros []; [eapply failed_runtime|eapply failed_exposure]; eauto; apply elem_of_app; by left.
Qed.

(** Recording a failure: the receipt it may hand over is justified by the provider's exception. *)
Lemma failure_recorded past xop runtime_ref e (Q : history -> result exn unit -> Prop) :
  unrecorded past ->
  match xop with
  | None => Event (RunRuntime (dq_plan q)) (Err e) ∈ past /\ runtime_ref = None
  | Some op => exists xq, Event (ReconcileExposure xq) (Err e) ∈ past
  end ->
  (forall new, (forall ev receipt, ev ∈ past ++ new -> recorded ev = Some receipt -> failed q (past ++ new) receipt e) -> Q (past ++ new) (Ok tt)) ->
  honest past (record_validated_failure q xop runtime_ref) Q.
Proof.
  intros Hp He HQ.
  assert (Hquiet : forall new, unrecorded (past ++ new) -> Q (past ++ new) (Ok tt)).
  { intros new Hn. apply HQ. intros ev receipt Hin Hr. unfold unrecorded in Hn. rewrite Forall_forall in Hn. specialize (Hn ev Hin). congruence. }
  assert (Hhand : forall new receipt r, unrecorded (past ++ new) -> failed q (past ++ new) receipt e ->
                    Q ((past ++ new) ++ [Event (RecordReceipt receipt) r]) (Ok tt)).
  { intros new receipt r Hn Hf. rewrite <- app_assoc. apply HQ. intros ev receipt' Hin Hr. rewrite app_assoc in *.
    apply elem_of_app in Hin as [Hin|Hin]; [|apply list_elem_of_singleton in Hin as ->].
    - unfold unrecorded in Hn. rewrite Forall_forall in Hn. specialize (Hn ev Hin). congruence.
    - injection Hr as <-. by apply failed_mono. }
  apply guarded_catch. apply guarded_bind_call; [done| |].
  2:{ intros x. apply guarded_Ret, Hquiet. by apply unrecorded_snoc. }
  intros record. set (load := Event (CreateOrLoad (dq_runtime_operation q)) (Ok record)).
  assert (Hload : load ∈ past ++ [load]) by (apply elem_of_app; right; by left).
  assert (H1 : unrecorded (past ++ [load])) by (by apply unrecorded_snoc).
  destruct (valid_terminal record (dq_runtime_operation q)) eqn:Ev; cbn [negb]; [|by apply guarded_Ret, Hquiet].
  destruct xop as [op|].
  - destruct He as (xq & He). destruct (bool_decide (do_lifecycle record = SUCCEEDED)) eqn:Es; cbn [negb]; [|by apply guarded_Ret, Hquiet].
    apply guarded_bind_call; [done| |].
    2:{ intros x. rewrite <- app_assoc. apply guarded_Ret, Hquiet. rewrite app_assoc. by apply unrecorded_snoc. }
    intros xrecord. set (xload := Event (CreateOrLoad op) (Ok xrecord)). rewrite <- app_assoc.
    assert (H2 : unrecorded (past ++ [load] ++ [xload])) by (rewrite app_assoc; by apply unrecorded_snoc).
    destruct (valid_terminal xrecord op) eqn:Exv; cbn [negb]; [|by apply guarded_Ret, Hquiet].
    destruct (bool_decide (do_lifecycle xrecord = FAILED)) eqn:Ex; cbn [negb]; [|by apply guarded_Ret, Hquiet].
    assert (Hf : failed q (past ++ [load] ++ [xload]) (receipt_of q runtime_ref record (Some op) None [] (Some xrecord) FAILED) e).
    { eapply failed_exposure; [|done..| |].
      - apply elem_of_app. left. exact He.
      - apply valid_terminal_proven; [|done..]. apply elem_of_app. right. by left.
      - apply valid_terminal_proven; [|done..]. apply elem_of_app. right. right. by left. }
    apply guarded_call; [split; [done|split_and!; [done..|right; split; [done|by exists e]]]|].
    intros [[]|x]; [|apply guarded_Ret]; by apply Hhand.
  - destruct He as [He Href]. destruct (bool_decide (do_lifecycle record = FAILED)) eqn:Es; cbn [negb]; [|by apply guarded_Ret, Hquiet].
    assert (Hf : failed q (past ++ [load]) (receipt_of q runtime_ref record None None [] None FAILED) e).
    { eapply failed_runtime; [|done|done|by apply valid_terminal_proven]. apply elem_of_app. by left. }
    apply guarded_call; [split; [done|split_and!; [done..|right; split; [done|by exists e]]]|].
    intros [[]|x]; [|apply guarded_Ret]; by apply Hhand.
Qed.

(** Asking a provider: its exception ends the deployment, and may have been recorded. *)
Lemma provider_asked {R : Type} past (e : remote_op R) xop runtime_ref (Q : history -> result exn R -> Prop) :
  unrecorded past -> (forall r : result exn R, recorded (Event e r) = None) -> allowed q past R e ->
  (forall x : exn, match xop with
             | None => (Event e (Err x) : event remote_op exn) = Event (RunRuntime (dq_plan q)) (Err x) /\ runtime_ref = None
             | Some op => exists xq, (Event e (Err x) : event remote_op exn) = Event (ReconcileExposure xq) (Err x)
             end) ->
  (forall a, Q (past ++ [Event e (Ok a)]) (Ok a)) ->
  (forall past' x, ended q past' (Err x) -> Q past' (Err x)) ->
  honest past (recording_failure q xop runtime_ref (call e)) Q.
Proof.
  intros Hp Hr He Hx HQ Herr. unfold recording_failure. apply guarded_catch, guarded_call; [done|]. intros [a|x]; [apply HQ|].
  apply guarded_bind. assert (Hp' : unrecorded (past ++ [Event e (Err x)])) by (by apply unrecorded_snoc).
  apply failure_recorded with (e := x); [done| |].
  - specialize (Hx x). destruct xop as [op|].
    + destruct Hx as (xq & ->). exists xq. apply elem_of_app. right. by left.
    + destruct Hx as [-> ->]. split; [|done]. apply elem_of_app. right. by left.
  - intros new Hf. apply guarded_Raise, Herr. intros ev receipt Hin Hrec _. by eapply Hf.
Qed.

(** What the exposure part gives. *)
Definition exposed (past : history) (o : option (ExposureResult * DurableOperationRecord)) : Prop :=
  match ds_exposure (dq_deployment q) with
  | None => o = None
  | Some _ => exists operation xq r record,
      o = Some (r, record) /\ dq_exposure_operation q = Some operation /\ Event (ReconcileExposure xq) (Ok r) ∈ past /\
      xr_operation r = operation /\ xr_outcome r = READY /\ xr_ready r = true /\ proven past operation record SUCCEEDED
  end.

Lemma expose_honest has past runtime_ref :
  unrecorded past ->
  honest past (expose has q runtime_ref) (fun past' o =>
    match o with Ok x => unrecorded past' /\ past ⊆ past' /\ exposed past' x | Err e => ended q past' (Err e) end).
Proof.
  intros Hp. unfold expose, exposed. destruct (ds_exposure (dq_deployment q)) eqn:Ed; [|by apply guarded_Ret].
  destruct (if has then dq_exposure_operation q else None) as [op|] eqn:Eop; [|by apply guarded_Raise, unrecorded_ended].
  assert (Ho : dq_exposure_operation q = Some op) by (by destruct has).
  apply guarded_bind, guarded_lift. destruct (exposure_request _) as [xq|why]; [|by apply unrecorded_ended].
  apply guarded_bind. apply provider_asked; [done..|intros x; by exists xq| |done].
  intros r. assert (H1 : unrecorded (past ++ [Event (ReconcileExposure xq) (Ok r)])) by (by apply unrecorded_snoc).
  apply guarded_bind_call; [done| |]; [intros record|intros x; apply unrecorded_ended; by apply unrecorded_snoc].
  set (past' := (past ++ _) ++ _). assert (H2 : unrecorded past') by (by apply unrecorded_snoc).
  destruct (exposure_proven record op r) eqn:Ep; cbn [negb]; [|by apply guarded_Raise, unrecorded_ended].
  apply guarded_Ret. split; [done|]. split; [intros ev Hin; unfold past'; rewrite !elem_of_app; by do 2 left|].
  unfold exposure_proven in Ep. apply andb_true_iff in Ep as [Ep Er]. apply andb_true_iff in Ep as [Ep Eo].
  apply andb_true_iff in Ep as [Ep Ei]. apply andb_true_iff in Ep as [Ev Es].
  exists op, xq, r, record. split_and!; [done|done| |by apply bool_decide_eq_true in Ei|by apply bool_decide_eq_true in Eo|done|].
  - unfold past'. rewrite !elem_of_app. left. right. by left.
  - apply valid_terminal_proven; [|done..]. unfold past'. rewrite !elem_of_app. right. by left.
Qed.

Lemma deploy_honest has : honest [] (deploy has q) (ended q).
Proof.
  unfold deploy. apply guarded_bind, guarded_lift. destruct (check_request q) as [[]|e] eqn:Ec; [|by apply unrecorded_ended, Forall_nil_2].
  apply guarded_bind. apply provider_asked; [apply Forall_nil_2|done|done|done| |done]. cbn [app].
  intros ref. set (ran := Event (RunRuntime (dq_plan q)) (Ok ref)). assert (H1 : unrecorded [ran]) by (by apply Forall_singleton).
  destruct (identity_matches (dq_deployment q) ref) eqn:Ei; cbn [negb]; [|by apply guarded_Raise, unrecorded_ended].
  apply guarded_bind_call; [done| |]; [intros record|intros x; apply unrecorded_ended; by apply unrecorded_snoc].
  set (past := [ran] ++ _). assert (H2 : unrecorded past) by (by apply unrecorded_snoc).
  destruct (valid_terminal record (dq_runtime_operation q)) eqn:Ev; cbn [negb]; [|by apply guarded_Raise, unrecorded_ended].
  destruct (bool_decide (do_lifecycle record = SUCCEEDED)) eqn:Es; cbn [negb]; [|by apply guarded_Raise, unrecorded_ended].
  assert (Hrt : proven past (dq_runtime_operation q) record SUCCEEDED) by (apply valid_terminal_proven; [right; by left|done..]).
  apply guarded_bind. eapply guarded_mono; [|by apply expose_honest]. intros new [x|e] H; [|done].
  destruct H as (H3 & Hsub & Hx). set (receipt := receipt_of q _ _ _ _ _ _ _).
  apply guarded_bind_call.
  - split; [done|]. split_and!; [done..|]. left. split; [done|]. constructor.
    + exists ref. split_and!; [done| |done]. apply Hsub. by left.
    + destruct Hrt as (Hin & Hv & Ho). split_and!; [by apply Hsub|done|done].
    + unfold exposed in Hx. unfold check_request in Ec. apply result_bind_Ok in Ec as ([] & _ & Ec).
      destruct (ds_exposure (dq_deployment q)).
      * destruct Hx as (op & xq & r & xrecord & -> & Ho & Hin & Hop & Hout & Hr & Hproof). exists op, xq, r, xrecord.
        split_and!; [done| |done..|by apply ready_verified|done]. intros ->. apply ensure_Ok in Ec. rewrite Ho in Ec. by rewrite bool_decide_true in Ec.
      * subst x. destruct (dq_exposure_operation q) eqn:Eo; [done|]. by rewrite <- Eo.
  - intros []. apply guarded_Ret. split; [done|]. apply elem_of_app. right. by left.
  - intros why ev receipt' Hin Hr Hfail. exfalso. apply elem_of_app in Hin as [Hin|Hin].
    + unfold unrecorded in H3. rewrite Forall_forall in H3. specialize (H3 ev Hin). congruence.
    + apply list_elem_of_singleton in Hin as ->. injection Hr as <-. done.
Qed.

(** C22. Deployment receipts are truthful.  Whatever the runtime provider, the exposure
    reconciler, the operation store and the recorder answer, a deployment hands at most one
    receipt to the recorder.  A receipt of success names the instance the runtime returned, whose
    identity is the deployment's, and carries terminal records that the store returned in this
    run, without residual cleanup and with evidence, for the runtime and, when the deployment
    declares an exposure, for a different operation whose result was ready (so a
    well-formed result has its route and name verified).  A receipt of failure
    is recorded only when a provider raised and the store proves that very operation failed, and
    the deployment then ends in the provider's own exception.  A deployment that returns has
    recorded the receipt it returns, and it is one of success. *)
Theorem deployment_receipts_are_truthful has tr o :
  runs (deploy has q) tr o ->
  ended q tr o /\
  forall before ev later receipt, tr = before ++ ev :: later -> recorded ev = Some receipt ->
    truthful q before receipt /\ unrecorded before.
Proof.
  intros H. destruct (guarded_runs _ _ _ _ _ _ (deploy_honest has) H) as [Hend Hall]. split; [exact Hend|].
  intros before ev later receipt -> Hr. destruct ev as [R e r]. specialize (Hall before R e r later eq_refl).
  destruct e; try done. injection Hr as ->. destruct Hall as [Hn Ht]. done.
Qed.
End Facts.

(** ** Samples *)

Definition sample_deployment : DeploymentSpec :=
  mkDeploymentSpec (mkInstancePointer (mkProjectScope (mkTenantId "t") "p") (mkInstanceId "i")) (mkResourceRef "p-i" "instance" CREATED) "18.0"
    (Some (mkExposureIntent "odoo.example" HTTPS POLICY_REQUIRED POLICY_REQUIRED)).
Definition bare_container : ContainerSpec := mkContainerSpec "c" "image" "odoo" "p-i" [] [] [] [] [] "" [].
Definition sample_remote : RemoteDeploymentRequest :=
  mkRemoteDeploymentRequest sample_deployment (mkBackendPlan (mkNetworkSpec "p-i" []) [] bare_container bare_container None)
    (mkRemoteTargetFingerprint "host" "ops" 22 "key") (mkDurableOperationIdentity "run" "d1")
    (Some (mkDurableOperationIdentity "expose" "d2")) [] [].
Definition terminal (operation : DurableOperationIdentity) (outcome : LifecycleState) : DurableOperationRecord :=
  mkDurableOperationRecord operation (mkOperationRevision 3) outcome None
    (Some (mkTerminalCommitBundle (mkOperationRevision 2) outcome [mkRedactedEvidence "done" "it is" []] [])) [].
(** A world where the reconciler succeeds or raises; the store agrees with it. *)
Definition remote_world (reconciles : bool) (R : Type) (e : remote_op R) (receipts : list RemoteDeploymentReceipt)
    : result exn R * list RemoteDeploymentReceipt :=
  match e in remote_op R return result exn R * list RemoteDeploymentReceipt with
  | RunRuntime _ => (Ok (mkInstanceRef "p" "i" "p-i" "p-i-db" "p-i-odoo"), receipts)
  | CreateOrLoad operation =>
    (Ok (terminal operation (if reconciles || bool_decide (operation = dq_runtime_operation sample_remote) then SUCCEEDED else FAILED)), receipts)
  | ReconcileExposure xq =>
    (if reconciles then Ok (mkExposureResult (xq_operation xq) READY VERIFIED VERIFIED true false [] []) else Err TimeoutExpired, receipts)
  | RecordReceipt receipt => (Ok tt, receipts ++ [receipt])
  end.
Definition remote_run (reconciles : bool) := exec (remote_world reconciles) (deploy true sample_remote) [].
Lemma remote_run_runs b : runs (deploy true sample_remote) (remote_run b).1.2 (remote_run b).1.1.
Proof. apply exec_runs. Qed.

Lemma deployment_receipts_are_truthful_witness :
  map dr_outcome (remote_run true).2 = [SUCCEEDED] /\ map dr_outcome (remote_run false).2 = [FAILED] /\
  (remote_run false).1.1 = Err TimeoutExpired /\
  ended sample_remote (remote_run true).1.2 (remote_run true).1.1 /\
  ended sample_remote (remote_run false).1.2 (remote_run false).1.1.
Proof.
  split; [vm_compute; reflexivity|]. split; [vm_compute; reflexivity|]. split; [vm_compute; reflexivity|].
  exact (conj (proj1 (deployment_receipts_are_truthful sample_remote true _ _ (remote_run_runs true)))
              (proj1 (deployment_receipts_are_truthful sample_remote true _ _ (remote_run_runs false)))).
Defined.
