(* ===== verification/VpsTransport.v ===== *)
(** * The SSH transport of the VPS backend ([odoo_forge_docker/vps/transport.py])

    Commands and secrets reach one pinned host through [ssh] and [scp] child processes.  A
    command is validated token by token, quoted for the remote shell, and its failure is
    classified by whether the remote side may have changed. *)

From stdpp Require Import pretty.
From S2P Require Import Prelude Effects Regex Values Projection.

(** ** Tokens *)

Definition host_char (c : ascii) : bool := is_alnum c || one_of ".-" c.
Definition HOST_RE : regex := rcats [RBol; RSet is_alnum; RStar (RSet host_char); REol].
Definition token_char (c : ascii) : bool := is_alnum c || one_of "._/@:+%=-^$," c.
Definition TOKEN_RE : regex := rcats [RBol; rplus (RSet token_char); REol].
Definition SAFE_ASSIGNMENT_KEYS : list string := ["com.odoo-forge.creator-token"].
Definition PRE_MUTATION_MARKERS : list string :=
  ["host key verification failed"; "remote host identification has changed"; "permission denied"; "could not resolve hostname";
   "connection timed out"; "connection refused"; "no route to host"; "batchmode"].

Definition upper (s : string) : string := str (map upper_char (chars s)).
Definition ends_with (suffix s : string) : bool := is_prefix (rev (chars suffix)) (rev (chars s)).

(** [key, separator, value = token.partition('=')] of a token that may be an assignment. *)
Definition secret_assignment (token : string) : bool :=
  let body := if starts_with "--env=" token then drop 6 (chars token)
              else if starts_with "-e" token then drop 2 (chars token) else chars token in
  match cut_first "="%char body with
  | None => false
  | Some (key, value) =>
    if bool_decide (str key ∈ SAFE_ASSIGNMENT_KEYS) || negb (fullmatch SECRET_OR_CONNECTION_TEXT (str key)) then false
    else negb (ends_with "_FILE" (upper (str key)) && starts_with "/" (str value))
  end.
Definition valid_token (token : string) : bool := fullmatch TOKEN_RE token && negb (secret_assignment token).
Definition unsafe_token : exn := InvalidRemoteInputError "unsafe remote command token".
Definition validated_tokens (tokens : list string) : result exn (list string) :=
  ensure (match tokens with [] => false | _ => true end && forallb valid_token tokens) unsafe_token ;!
  Ok tokens.

(** ** Quoting ([shlex.join]) *)

Definition shell_safe (c : ascii) : bool := is_word c || one_of "@%+=:,./-" c.
Definition squote : ascii := "'"%char.
(** A single quote inside single quotes: close, a double-quoted quote, open. *)
Definition escaped_squote : list ascii := [squote; ascii_of_nat 34; squote; ascii_of_nat 34; squote].
Definition shlex_quote (s : string) : string :=
  match chars s with
  | [] => "''"
  | l => if forallb shell_safe l then s
         else str (squote :: concat (map (fun c => if Ascii.eqb c squote then escaped_squote else [c]) l) ++ [squote])
  end.
Definition shlex_join (tokens : list string) : string := join " " (map shlex_quote tokens).

(** ** The target *)

Record OpenSshTarget : Type := mkOpenSshTarget {
  ssh_host : string; ssh_user : string; ssh_port : Z; ssh_host_key : string; ssh_private_key : string }.
(** [OpenSshTarget.__post_init__] *)
Definition open_ssh_target (t : OpenSshTarget) : result exn OpenSshTarget :=
  ensure (fullmatch HOST_RE (ssh_host t) && fullmatch HOST_RE (ssh_user t)) (InvalidRemoteInputError "invalid SSH target") ;!
  ensure ((1 <=? ssh_port t)%Z && (ssh_port t <=? 65535)%Z && negb (existsb (Ascii.eqb newline) (chars (ssh_host_key t))) &&
          negb (bool_decide (strip (ssh_host_key t) = ""))) (InvalidRemoteInputError "invalid SSH target") ;!
  ensure (negb (bool_decide (strip (ssh_private_key t) = ""))) (InvalidRemoteInputError "missing SSH identity") ;!
  Ok t.

Record CommandResult : Type := mkCommandResult { cmd_returncode : Z; cmd_stdout : string; cmd_stderr : string }.

(** ** Redaction *)

(** [value.replace(secret, '[REDACTED]')] *)
Fixpoint replace_from (fuel : nat) (old new l : list ascii) : list ascii :=
  match fuel with
  | O => l
  | S fuel' =>
    match l with
    | [] => []
    | c :: l' => if is_prefix old l then new ++ replace_from fuel' old new (drop (length old) l)
                 else c :: replace_from fuel' old new l'
    end
  end.
Definition replace_all (old new s : string) : string :=
  str (replace_from (String.length s) (chars old) (chars new) (chars s)).
Definition longer (a b : string) : Prop := String.length b <= String.length a.
#[export] Instance longer_dec : RelDecision longer.
Proof. intros a b. unfold longer. apply _. Defined.
(** Longest first; the order of equally long texts is that of a set, taken as given here. *)
Definition redact (value : string) (secrets : list string) : string :=
  foldl (fun v secret => replace_all secret "[REDACTED]" v) value
    (merge_sort longer (remove_dups (List.filter (fun s => negb (bool_decide (s = ""))) secrets))).

Definition is_pre_mutation (stderr : string) : bool :=
  existsb (fun marker => Values.contains (chars marker) (chars (lower stderr))) PRE_MUTATION_MARKERS.

(** ** Running *)

(** What the transport does to the local machine. *)
Inductive ssh_op : Type -> Type :=
| MakeTempDir : ssh_op string
| WritePrivate (path value : string) : ssh_op unit
| Spawn (argv : list string) : ssh_op (Z * string * string)
| RemoveTempDir (path : string) : ssh_op unit.
Definition ssh_prog := prog ssh_op exn.

(** [with tempfile.TemporaryDirectory() as directory: body] *)
Definition with_temp {A : Type} (body : string -> ssh_prog A) : ssh_prog A :=
  let* directory := call MakeTempDir in
  let* r := attempt (body directory) in
  call (RemoveTempDir directory) ;*
  lift r.

(** The exceptions of [subprocess.run] that [_invoke] catches; the last ones are any other
    [SubprocessError]. *)
Definition is_spawn_failure (e : exn) : bool := match e with OSError _ => true | _ => false end.

Section Transport.
Variable target : OpenSshTarget.
(** [math.ceil(timeout)] *)
Variable ceil_timeout : Z.

Definition connect_timeout : Z := Z.max 1 (ceil_timeout - 1).
Definition address : string := ssh_user target +:+ "@" +:+ ssh_host target.
Definition secure_options (identity known_hosts : string) : list string :=
  ["-o"; "BatchMode=yes"; "-o"; "StrictHostKeyChecking=yes"; "-o"; "UserKnownHostsFile=" +:+ known_hosts; "-F"; "/dev/null";
   "-o"; "GlobalKnownHostsFile=/dev/null"; "-o"; "IdentitiesOnly=yes"; "-o"; "ConnectTimeout=" +:+ pretty connect_timeout;
   "-i"; identity].
Definition ssh_argv (identity known_hosts : string) : list string :=
  ["ssh"; "-p"; pretty (ssh_port target)] ++ secure_options identity known_hosts ++ [address].
Definition scp_argv (identity known_hosts : string) : list string :=
  ["scp"; "-P"; pretty (ssh_port target); "-p"] ++ secure_options identity known_hosts.

(** [_invoke]; [TransportFailure true] is [UnknownMutationOutcomeError]. *)
Definition invoke (argv : list string) (mutating : bool) (secrets : list string) : ssh_prog CommandResult :=
  let* r := attempt (call (Spawn argv)) in
  match r with
  | Err TimeoutExpired => Raise (TransportFailure mutating)
  | Err e => Raise (if is_spawn_failure e then TransportFailure false else e)
  | Ok (returncode, out, err) =>
    let stdout := redact out (secrets ++ [ssh_private_key target]) in
    let stderr := redact err (secrets ++ [ssh_private_key target]) in
    if negb (returncode =? 255)%Z then Ret (mkCommandResult returncode stdout stderr) else
    if negb mutating || is_pre_mutation stderr then Raise (TransportFailure false) else Raise (TransportFailure true)
  end.

Definition materialized_files {A : Type} (body : string -> string -> ssh_prog A) : ssh_prog A :=
  with_temp (fun root =>
    let identity := root +:+ "/identity" in
    let known_hosts := root +:+ "/known_hosts" in
    call (WritePrivate identity (ssh_private_key target)) ;*
    call (WritePrivate known_hosts (ssh_host_key target +:+ String newline "")) ;*
    body identity known_hosts).

Definition run (command : list string) (mutating : bool) : ssh_prog CommandResult :=
  let* tokens := lift (validated_tokens command) in
  materialized_files (fun identity known_hosts =>
    invoke (ssh_argv identity known_hosts ++ [shlex_join tokens]) mutating []).

Definition upload_secret (secret remote_path : string) (mutating : bool) : ssh_prog CommandResult :=
  let* _ := lift (validated_tokens [remote_path]) in
  materialized_files (fun identity known_hosts =>
    with_temp (fun directory =>
      let source := directory +:+ "/secret" in
      call (WritePrivate source secret) ;*
      invoke (scp_argv identity known_hosts ++ [source; address +:+ ":" +:+ remote_path]) mutating [secret])).
End Transport.

#[global] Arguments is_pre_mutation : simpl never.
#[global] Arguments redact : simpl never.
#[global] Arguments valid_token : simpl never.
#[global] Arguments shlex_join : simpl never.

(** * Properties of the SSH transport *)

(** ** The remote shell reads the tokens *)

(** How a POSIX shell splits a line without expansions into words: blanks separate, single quotes
    protect; [None] for an open quote or a character with a meaning of its own. *)
Fixpoint sh_words (quoted : bool) (word : option (list ascii)) (l : list ascii) : option (list (list ascii)) :=
  let flush ws := match word with Some w => reverse w :: ws | None => ws end in
  match l with
  | [] => if quoted then None else Some (flush [])
  | c :: l' =>
    if quoted then
      if Ascii.eqb c squote then sh_words false word l' else sh_words true (Some (c :: default [] word)) l'
    else if Ascii.eqb c " "%char then flush <$> sh_words false None l'
    else if Ascii.eqb c squote then sh_words true (Some (default [] word)) l'
    else if shell_safe c then sh_words false (Some (c :: default [] word)) l' else None
  end.

Lemma sh_words_quoted w l rest :
  Forall (fun c => Ascii.eqb c squote = false) l ->
  sh_words true (Some w) (l ++ squote :: rest) = sh_words false (Some (reverse l ++ w)) rest.
Proof.
  intros H. revert w. induction H as [|c l Hc _ IH]; intros w; [done|].
  cbn [app sh_words]. rewrite Hc. cbn [default]. rewrite IH, reverse_cons, <- app_assoc. done.
Qed.
Lemma shell_safe_plain c : shell_safe c = true -> Ascii.eqb c " "%char = false /\ Ascii.eqb c squote = false.
Proof. intros H. split; [by destruct (Ascii.eqb_spec c " "%char) as [->|]|by destruct (Ascii.eqb_spec c squote) as [->|]]. Qed.
Lemma sh_words_plain w l rest :
  Forall (fun c => shell_safe c = true) l -> l ≠ [] ->
  sh_words false (Some w) (l ++ rest) = sh_words false (Some (reverse l ++ w)) rest.
Proof.
  intros H _. revert w. induction H as [|c l Hc _ IH]; intros w; [done|].
  cbn [app sh_words]. destruct (shell_safe_plain _ Hc) as [-> ->]. rewrite Hc. cbn [default]. rewrite IH, reverse_cons, <- app_assoc. done.
Qed.

(** A token: not empty, without single quotes. *)
Definition quotable (token : string) : Prop := token ≠ "" /\ Forall (fun c => Ascii.eqb c squote = false) (chars token).

Lemma concat_unquoted l : Forall (fun c => Ascii.eqb c squote = false) l ->
  concat (map (fun c => if Ascii.eqb c squote then escaped_squote else [c]) l) = l.
Proof. induction 1 as [|c l Hc _ IH]; [done|]. cbn. by rewrite Hc, IH. Qed.
Lemma sh_words_quote token rest :
  quotable token -> sh_words false None (chars (shlex_quote token) ++ rest) = sh_words false (Some (reverse (chars token))) rest.
Proof.
  intros [Hne Hq]. unfold shlex_quote. destruct (chars token) as [|c l] eqn:E.
  { destruct Hne. apply chars_inj. by rewrite E. }
  destruct (forallb shell_safe (c :: l)) eqn:Hs.
  - rewrite E. rewrite forallb_elem in Hs. assert (Hc : shell_safe c = true) by (apply Hs; by left).
    cbn [app sh_words]. destruct (shell_safe_plain _ Hc) as [-> ->]. rewrite Hc. cbn [default].
    destruct l as [|c2 l]; [done|]. rewrite sh_words_plain; [by rewrite (reverse_cons _ c)|apply Forall_forall; intros x Hx; apply Hs; by right|done].
  - rewrite chars_str, concat_unquoted by done.
    change ((squote :: (c :: l) ++ [squote]) ++ rest) with (squote :: ((c :: l) ++ [squote]) ++ rest). rewrite <- app_assoc.
    change (sh_words false None (squote :: (c :: l) ++ [squote] ++ rest)) with (sh_words true (Some []) ((c :: l) ++ squote :: rest)).
    rewrite sh_words_quoted by done. by rewrite app_nil_r.
Qed.

Lemma sh_words_join tokens : Forall quotable tokens -> sh_words false None (chars (shlex_join tokens)) = Some (map chars tokens).
Proof.
  induction 1 as [|token tokens Ht Htokens IH]; [done|]. unfold shlex_join in *. destruct tokens as [|t2 tokens].
  - cbn [map join]. change (join " " [shlex_quote token]) with (shlex_quote token).
    pose proof (sh_words_quote token [] Ht) as H. rewrite app_nil_r in H. rewrite H. cbn. by rewrite reverse_involutive.
  - change (join " " (map shlex_quote (token :: t2 :: tokens))) with
      (shlex_quote token +:+ " " +:+ join " " (map shlex_quote (t2 :: tokens))).
    set (rest := join " " (map shlex_quote (t2 :: tokens))) in *. rewrite !chars_app, sh_words_quote by done.
    change (chars " " ++ chars rest) with (" "%char :: chars rest). cbn [sh_words].
    change (Ascii.eqb " "%char " "%char) with true. cbv iota. rewrite IH. cbn. by rewrite reverse_involutive.
Qed.

Lemma valid_token_quotable token : valid_token token = true -> quotable token.
Proof.
  unfold valid_token. intros [[Hne H]%fullmatch_class_plus _]%andb_true_iff. split; [done|].
  rewrite forallb_elem in H. apply Forall_forall. intros c Hc. specialize (H c Hc). by destruct (Ascii.eqb_spec c squote) as [->|].
Qed.

(** ** What one command does *)

Section Runs.
Variable target : OpenSshTarget.
Variable ceil_timeout : Z.

(** The outcome of the child process, as [_invoke] reads it. *)
Definition classified (mutating : bool) (secrets : list string) (r : result exn (Z * string * string)) : result exn CommandResult :=
  match r with
  | Err TimeoutExpired => Err (TransportFailure mutating)
  | Err e => Err (if is_spawn_failure e then TransportFailure false else e)
  | Ok (returncode, out, err) =>
    let clean text := redact text (secrets ++ [ssh_private_key target]) in
    if negb (returncode =? 255)%Z then Ok (mkCommandResult returncode (clean out) (clean err))
    else Err (TransportFailure (mutating && negb (is_pre_mutation (clean err))))
  end.
Lemma invoke_runs argv mutating secrets tr o :
  runs (invoke target argv mutating secrets) tr o -> exists r, tr = [Event (Spawn argv) r] /\ o = classified mutating secrets r.
Proof.
  unfold invoke. intros H. apply runs_bind in H as [(t1 & t2 & r & -> & H1 & H)|(x & -> & H)]; [|by apply runs_attempt in H as (? & [=] & _)].
  apply runs_attempt in H1 as (r' & [= ->] & H1). apply runs_call in H1 as ->. exists r'.
  destruct r' as [[[code out] err]|e].
  - cbn in H |- *. destruct (negb (code =? 255)%Z); [by apply runs_Ret in H as [-> ->]|].
    destruct mutating; cbn [negb orb andb] in *; [|by apply runs_Raise in H as [-> ->]].
    destruct (is_pre_mutation _); by apply runs_Raise in H as [-> ->].
  - destruct e; by apply runs_Raise in H as [-> ->].
Qed.

(** A temporary directory around a body. *)
Definition in_temp {A : Type} (inside : string -> list (event ssh_op exn) -> result exn A -> Prop) (tr : list (event ssh_op exn)) (o : result exn A) : Prop :=
  (exists x, tr = [Event MakeTempDir (Err x)] /\ o = Err x) \/
  exists directory body outcome removed,
    tr = Event MakeTempDir (Ok directory) :: body ++ [Event (RemoveTempDir directory) removed] /\
    inside directory body outcome /\ o = match removed with Ok _ => outcome | Err x => Err x end.
Lemma with_temp_runs {A : Type} (body : string -> ssh_prog A) tr o :
  runs (with_temp body) tr o -> in_temp (fun directory => runs (body directory)) tr o.
Proof.
  unfold with_temp. intros H. apply runs_bind_call in H as ([directory|x] & t1 & -> & H).
  - right. apply runs_bind in H as [(t2 & t3 & r & -> & H1 & H)|(x & -> & H)]; [|by apply runs_attempt in H as (? & [=] & _)].
    apply runs_attempt in H1 as (r' & [= ->] & H1). apply runs_bind_call in H as (removed & t4 & -> & H).
    exists directory, t2, r', removed. destruct removed as [[]|x]; [apply runs_lift in H as [-> ->]|destruct H as [-> ->]]; by split_and!.
  - left. destruct H as [-> ->]. by exists x.
Qed.
Lemma in_temp_mono {A : Type} (P Q : string -> list (event ssh_op exn) -> result exn A -> Prop) tr o :
  (forall d body out, P d body out -> Q d body out) -> in_temp P tr o -> in_temp Q tr o.
Proof. intros H [?|(d & body & out & removed & ? & ? & ?)]; [by left|]. right. exists d, body, out, removed. auto. Qed.

(** A file that could not be written ends the body. *)
Definition wrote {A : Type} (path value : string) (rest : list (event ssh_op exn) -> result exn A -> Prop)
    (tr : list (event ssh_op exn)) (o : result exn A) : Prop :=
  exists r tr', tr = Event (WritePrivate path value) r :: tr' /\
    match r with Ok _ => rest tr' o | Err x => tr' = [] /\ o = Err x end.
(** The identity and the known hosts, then one child process. *)
Definition connected {A : Type} (rest : string -> string -> list (event ssh_op exn) -> result exn A -> Prop)
    : list (event ssh_op exn) -> result exn A -> Prop :=
  in_temp (fun root =>
    wrote (root +:+ "/identity") (ssh_private_key target)
      (wrote (root +:+ "/known_hosts") (ssh_host_key target +:+ String newline "")
        (rest (root +:+ "/identity") (root +:+ "/known_hosts")))).
Lemma materialized_runs {A : Type} (body : string -> string -> ssh_prog A) tr o :
  runs (materialized_files target body) tr o -> connected (fun i k => runs (body i k)) tr o.
Proof.
  intros H. apply with_temp_runs in H. eapply in_temp_mono; [|exact H]. intros root t out Ht.
  apply runs_bind_call in Ht as ([[]|x] & t1 & -> & Ht); [|eexists _, _; split; [done|exact Ht]].
  eexists _, _. split; [done|]. cbn. apply runs_bind_call in Ht as ([[]|x] & t2 & -> & Ht); eexists _, _; (split; [done|exact Ht]).
Qed.
Lemma connected_mono {A : Type} (P Q : string -> string -> list (event ssh_op exn) -> result exn A -> Prop) tr o :
  (forall i k t out, P i k t out -> Q i k t out) -> connected P tr o -> connected Q tr o.
Proof.
  intros H. apply in_temp_mono. intros d body out (r & t & -> & Hr). eexists r, t. split; [done|]. destruct r; [|done].
  destruct Hr as (r & t2 & -> & Hr). eexists r, t2. split; [done|]. destruct r; [|done]. by apply H.
Qed.

(** One remote command.  A command with an unsafe token, or one that assigns a secret, is
    refused before anything happens.  Otherwise the private key and the host key are written to
    a fresh private directory that is removed at the end whatever happens, and at most one child
    process is started: [ssh] with host-key checking, and one last argument that the remote
    shell splits into exactly the given tokens.  Its outcome is [classified]: a mutation counts
    as possibly done only after a timeout, or after status 255 without one of the known markers
    of an early failure. *)
Theorem remote_command command mutating tr o :
  runs (run target ceil_timeout command mutating) tr o ->
  match validated_tokens command with
  | Err e => tr = [] /\ o = Err e
  | Ok tokens =>
    tokens = command /\ sh_words false None (chars (shlex_join command)) = Some (map chars command) /\
    connected (fun identity known_hosts body outcome => exists r,
      body = [Event (Spawn (ssh_argv target ceil_timeout identity known_hosts ++ [shlex_join command])) r] /\
      outcome = classified mutating [] r) tr o
  end.
Proof.
  unfold run. intros H. unfold validated_tokens in *.
  destruct (ensure _ unsafe_token) as [[]|e] eqn:E; cbn [result_bind] in *.
  - apply ensure_Ok, andb_true_iff in E as [_ E]. split; [done|]. split.
    + apply sh_words_join. rewrite forallb_elem in E. apply Forall_forall. intros t Ht. by apply valid_token_quotable, E.
    + apply materialized_runs in H. eapply connected_mono; [|exact H]. intros i k t out. apply invoke_runs.
  - by apply runs_Raise in H.
Qed.

(** The same for a secret: it is written to a private file inside a second directory, and no
    argument of the child process depends on it. *)
Lemma secret_upload secret remote_path mutating tr o :
  runs (upload_secret target ceil_timeout secret remote_path mutating) tr o ->
  match validated_tokens [remote_path] with
  | Err e => tr = [] /\ o = Err e
  | Ok _ =>
    connected (fun identity known_hosts => in_temp (fun directory => wrote (directory +:+ "/secret") secret (fun body outcome => exists r,
      body = [Event (Spawn (scp_argv target ceil_timeout identity known_hosts ++ [directory +:+ "/secret"; address target +:+ ":" +:+ remote_path])) r] /\
      outcome = classified mutating [secret] r))) tr o
  end.
Proof.
  unfold upload_secret. intros H. destruct (validated_tokens [remote_path]) as [tokens|e]; [|by apply runs_Raise in H].
  apply materialized_runs in H. eapply connected_mono; [|exact H]. intros i k t out Ht. apply with_temp_runs in Ht.
  eapply in_temp_mono; [|exact Ht]. intros d body out' Hb. apply runs_bind_call in Hb as ([[]|x] & t1 & -> & Hb); eexists _, _; (split; [done|]); [|exact Hb].
  by apply invoke_runs in Hb.
Qed.
End Runs.

(** ** Samples *)

Definition sample_target : OpenSshTarget := mkOpenSshTarget "vps.example" "deploy" 22 "vps.example ssh-ed25519 AAAA" "KEY".
(** A child process that ends with this status and output; the machine obliges. *)
Definition ssh_world (answer : result exn (Z * string * string)) (R : Type) (e : ssh_op R) (n : nat) : result exn R * nat :=
  match e in ssh_op R return result exn R * nat with
  | MakeTempDir => (Ok ("/tmp/odoo-forge-vps-" +:+ "x"), n)
  | WritePrivate _ _ => (Ok tt, n)
  | Spawn _ => (answer, S n)
  | RemoveTempDir _ => (Ok tt, n)
  end.
Definition sample_command : list string := ["docker"; "network"; "ls"; "-q"; "--filter"; "name=^odoo$"].
Definition sample_ssh (mutating : bool) (answer : result exn (Z * string * string)) :=
  exec (ssh_world answer) (run sample_target 30 sample_command mutating) 0.
Lemma sample_ssh_runs mutating answer :
  runs (run sample_target 30 sample_command mutating) (sample_ssh mutating answer).1.2 (sample_ssh mutating answer).1.1.
Proof. unfold sample_ssh. exact (exec_runs (ssh_world answer) (run sample_target 30 sample_command mutating) 0). Qed.

Lemma remote_command_witness :
  shlex_join sample_command = "docker network ls -q --filter 'name=^odoo$'" /\
  (sample_ssh true (Err TimeoutExpired)).1.1 = Err (TransportFailure true) /\
  (sample_ssh true (Ok (255%Z, "", "Permission denied (publickey)"))).1.1 = Err (TransportFailure false) /\
  (sample_ssh false (Ok (1%Z, "no KEY", ""))).1.1 = Ok (mkCommandResult 1 "no [REDACTED]" "") /\
  connected sample_target (fun identity known_hosts body outcome => exists r,
      body = [Event (Spawn (ssh_argv sample_target 30 identity known_hosts ++ [shlex_join sample_command])) r] /\
      outcome = classified sample_target true [] r) (sample_ssh true (Err TimeoutExpired)).1.2 (sample_ssh true (Err TimeoutExpired)).1.1.
Proof.
  split; [vm_compute; reflexivity|]. split; [vm_compute; reflexivity|]. split; [vm_compute; reflexivity|]. split; [vm_compute; reflexivity|].
  pose proof (remote_command sample_target 30 sample_command true _ _ (sample_ssh_runs true (Err TimeoutExpired))) as H.
  assert (E : validated_tokens sample_command = Ok sample_command) by (vm_compute; reflexivity).
  rewrite E in H. exact (proj2 (proj2 H)).
Defined.

(** An assignment of a password never leaves the machine. *)
Example secret_assignment_is_refused :
  map valid_token ["POSTGRES_PASSWORD=x"; "POSTGRES_PASSWORD_FILE=/run/secrets/p"; "POSTGRES_USER=odoo"; "a b"; "$(reboot)"] =
  [false; true; true; false; false].
Proof. by vm_compute. Qed.
