(* ===== verification/VpsMechanics.v ===== *)
(** * Docker on the VPS ([odoo_forge_docker/vps/provider.py], [RemoteDockerMechanics])

    Every Docker command goes through the SSH transport.  The object keeps the bound scope, the
    pointer and the secret files it has uploaded; methods are programs over that state, which
    exceptions do not undo. *)

From stdpp Require Import pretty.
From S2P Require Import Prelude Effects Values Json Backend Projection DockerBackend VpsTransport.

(** ** Effects and state *)

Inductive mech_op : Type -> Type :=
| Ssh (command : list string) (mutating : bool) : mech_op CommandResult
| Upload (secret path : string) : mech_op CommandResult
| ResolveHandle (handle : string) : mech_op string
| MonotonicNow : mech_op Z
| SleepSecond : mech_op unit
| UrlStatus (url : string) : mech_op Z
| AddrInfo (hostname : string) : mech_op (list string).

(** [mk_local] holds the variable [secret_paths] of the [_container_command] in progress. *)
Record mech_state : Type := mkMechState {
  mk_scope : option ProjectScope; mk_pointer : option string; mk_secrets : list string; mk_local : list string }.
Definition with_secrets (secrets : list string) (s : mech_state) : mech_state :=
  mkMechState (mk_scope s) (mk_pointer s) secrets (mk_local s).
Definition with_local (paths : list string) (s : mech_state) : mech_state :=
  mkMechState (mk_scope s) (mk_pointer s) (mk_secrets s) paths.

Definition mech (A : Type) : Type := mech_state -> prog mech_op exn (result exn A * mech_state).
Definition mret {A : Type} (a : A) : mech A := fun s => Ret (Ok a, s).
Definition mraise {A : Type} (x : exn) : mech A := fun s => Ret (Err x, s).
Definition mlift {A : Type} (r : result exn A) : mech A := fun s => Ret (r, s).
Definition mbind {A B : Type} (m : mech A) (k : A -> mech B) : mech B := fun s =>
  let* '(r, s') := m s in match r with Ok a => k a s' | Err x => Ret (Err x, s') end.
(** [try: m except Exception as x: h x] *)
Definition mcatch {A : Type} (m : mech A) (h : exn -> mech A) : mech A := fun s =>
  let* '(r, s') := m s in match r with Ok a => Ret (Ok a, s') | Err x => h x s' end.
(** [try: m finally: cleanup] *)
Definition mfinally {A : Type} (m : mech A) (cleanup : mech unit) : mech A := fun s =>
  let* '(r, s') := m s in
  let* '(c, s'') := cleanup s' in
  match c with Ok _ => Ret (r, s'') | Err x => Ret (Err x, s'') end.
Definition mget : mech mech_state := fun s => Ret (Ok s, s).
Definition mmodify (f : mech_state -> mech_state) : mech unit := fun s => Ret (Ok tt, f s).
Definition say {R : Type} (e : mech_op R) : mech R := fun s => let* r := attempt (call e) in Ret (r, s).

Declare Scope mech_scope.
Delimit Scope mech_scope with mech.
Notation "'let+' x := p 'in' k" := (mbind p (fun x => k))
  (at level 10, x name, p at level 100, k at level 200) : mech_scope.
Notation "p ;+ k" := (mbind p (fun _ => k)) (at level 199, k at level 200, right associativity) : mech_scope.
#[local] Open Scope mech_scope.

Fixpoint meach {A : Type} (f : A -> mech unit) (l : list A) : mech unit :=
  match l with [] => mret tt | x :: l' => f x ;+ meach f l' end.
Fixpoint mmap {A B : Type} (f : A -> mech B) (l : list A) : mech (list B) :=
  match l with [] => mret [] | x :: l' => let+ y := f x in let+ ys := mmap f l' in mret (y :: ys) end.

(** ** Resources *)

Definition CREATOR_TOKEN_LABEL : string := "com.odoo-forge.creator-token".
Definition OPERATION_LABEL : string := "com.odoo-forge.operation".
(** [_DELETE_COMMANDS.get(kind)] *)
Definition delete_command (kind : string) : option (list string) :=
  dget kind [("container", ["docker"; "rm"; "-f"]); ("network", ["docker"; "network"; "rm"]); ("volume", ["docker"; "volume"; "rm"])].
Definition MANAGED_ODOO_IMAGE_PREFIXES : list string :=
  ["odoo-forge-odoo:"; "ghcr.io/aparragithub/odoo-ce:"; "ghcr.io/aparragithub/odoo-ce@"].
Definition managed_image (image : string) : bool := existsb (fun p => starts_with p image) MANAGED_ODOO_IMAGE_PREFIXES.
Definition ODOO_READINESS_TIMEOUT_SECONDS : Z := 90.
(** [a or b] of texts *)
Definition text_or (a b : string) : string := if bool_decide (a = "") then b else a.

(** [_owned] *)
Definition owned (operation : DurableOperationIdentity) (kind identifier live_id : string) : OwnershipRecord :=
  mkOwnershipRecord (mkResourceRef identifier kind CREATED) None (Some (mkOwnershipReceipt operation [text_or live_id identifier] true)).
(** [_resource_record(..., created=False)] *)
Definition adopted (kind identifier : string) : OwnershipRecord :=
  mkOwnershipRecord (mkResourceRef identifier kind ADOPTED) None None.
Definition is_created (r : OwnershipRecord) : bool := bool_decide (rr_ownership (own_ref r) = CREATED).

(** The exception of a transport that may have changed the remote side. *)
Definition unknown_outcome (e : exn) : bool := bool_decide (e = TransportFailure true).

(** The resources of a plan in the order of the code. *)
Definition plan_resources (plan : BackendPlan) : list (string * string * list (string * string)) :=
  [("network", ns_name (bp_network plan), ns_labels (bp_network plan))] ++
  map (fun v => ("volume", vs_name v, vs_labels v)) (bp_volumes plan) ++
  [("container", ctr_name (bp_postgres plan), ctr_labels (bp_postgres plan)); ("container", ctr_name (bp_odoo plan), ctr_labels (bp_odoo plan))].

Section Mechanics.
(** [hashlib.sha256(text).hexdigest()], and whether the object has a credential resolver. *)
Variable sha256 : string -> string.
Variable has_resolver : bool.

Definition creator_token (operation : DurableOperationIdentity) (kind identifier : string) : string :=
  sha256 (operation_id operation +:+ ":" +:+ kind +:+ ":" +:+ identifier).
Definition secret_path (name : string) : string := "/tmp/odoo-forge-secret-" +:+ str (take 16 (chars (sha256 name))).

(** [_run]: the standard output, whatever the exit code. *)
Definition docker (command : list string) (mutating : bool) : mech string :=
  let+ r := say (Ssh command mutating) in mret (cmd_stdout r).

Definition bind_scope (scope : ProjectScope) (instance : string) : mech unit :=
  mmodify (fun s => mkMechState (Some scope) (Some (tenant_value (tenant scope) +:+ "/" +:+ project_id scope +:+ "/" +:+ instance))
                      (mk_secrets s) (mk_local s)).

(** ** Inspection *)

Definition exists_argv (kind identifier : string) : result exn (list string) :=
  let filter := "name=^" +:+ identifier +:+ "$" in
  if bool_decide (kind = "network") then Ok ["docker"; "network"; "ls"; "-q"; "--filter"; filter]
  else if bool_decide (kind = "volume") then Ok ["docker"; "volume"; "ls"; "-q"; "--filter"; filter]
  else if bool_decide (kind = "container") then Ok ["docker"; "container"; "ls"; "-aq"; "--filter"; filter]
  else Err (KeyError kind).
Definition exists_ (kind identifier : string) : mech bool :=
  let+ argv := mlift (exists_argv kind identifier) in
  let+ out := docker argv false in
  mret (negb (bool_decide (strip out = ""))).

(** A decoded inspect output: its first entry. *)
Definition first_entry (output : string) : result exn (list (string * json)) :=
  match loads output with
  | None => Err (ValueError "json")
  | Some (JArr (JObj entry :: _)) => Ok entry
  | Some _ => Err (ValueError "remote inspect returned invalid resource data")
  end.
Definition inspect (identifier kind : string) : mech (option (list (string * json))) :=
  let+ there := exists_ kind identifier in
  if negb there then mret None else
  let+ output := docker ["docker"; "inspect"; identifier] false in
  if bool_decide (strip output = "") then mret None else
  let+ entry := mlift (first_entry output) in mret (Some entry).

(** [j.get(key)] *)
Definition json_get (j : json) (key : string) : result exn (option json) :=
  match j with JObj d => Ok (dget key d) | _ => Err (AttributeError "get") end.
(** [_labels]: any value at all, [{}] for a false one. *)
Definition labels_of (entry : list (string * json)) : result exn json :=
  let! found := match dget "Config" entry with
                | Some config => json_get config "Labels"
                | None => Ok (dget "Labels" entry)
                end in
  Ok (match found with Some j => if truthy j then j else JObj [] | None => JObj [] end).
Definition label_is (labels : json) (key value : string) : result exn bool :=
  let! found := json_get labels key in Ok (bool_decide (found = Some (JStr value))).

(** [_expected_labels] *)
Definition expected_labels (s : mech_state) (plan_labels : list (string * string)) : list (string * string) :=
  match mk_scope s with
  | None => plan_labels
  | Some scope =>
    foldl (fun d kv => dset kv.1 kv.2 d) plan_labels
      [("com.odoo-forge.managed", "true"); ("com.odoo-forge.tenant", tenant_value (tenant scope));
       ("com.odoo-forge.project", project_id scope); ("com.odoo-forge.pointer", default "" (mk_pointer s))]
  end.
(** [{**expected, **labels, operation, token}] *)
Definition resource_labels (s : mech_state) (labels : list (string * string)) (operation : DurableOperationIdentity) (kind name : string)
    : list (string * string) :=
  foldl (fun d kv => dset kv.1 kv.2 d) (expected_labels s labels)
    (labels ++ [(OPERATION_LABEL, operation_id operation); (CREATOR_TOKEN_LABEL, creator_token operation kind name)]).

(** [any(labels.get(key) != value for key, value in expected.items())] *)
Fixpoint mismatch (labels : json) (expected : list (string * string)) : result exn bool :=
  match expected with
  | [] => Ok false
  | (key, value) :: expected' =>
    let! same := label_is labels key value in
    if same then mismatch labels expected' else Ok true
  end.
Definition validate_live (identifier : string) (entry : option (list (string * json))) (expected : list (string * string)) : result exn unit :=
  match entry with
  | None => Ok tt
  | Some entry =>
    let! labels := labels_of entry in
    let! differs := mismatch labels expected in
    if differs then Err (ValueError ("live resource scope mismatch for " +:+ identifier)) else Ok tt
  end.
Definition inspect_and_validate (kind identifier : string) (expected : list (string * string)) : mech unit :=
  let+ entry := inspect identifier kind in mlift (validate_live identifier entry expected).

Definition validate_scope (plan : BackendPlan) (scope : ProjectScope) : mech unit :=
  let labels := ns_labels (bp_network plan) in
  if negb (bool_decide (dget "com.odoo-forge.project" labels = Some (project_id scope)))
  then mraise (ValueError "plan project is outside the bound scope") else
  bind_scope scope (default "default" (dget "com.odoo-forge.instance" labels)) ;+
  meach (fun '(kind, identifier, labels) =>
    let+ s := mget in inspect_and_validate kind identifier (expected_labels s labels)) (plan_resources plan).

Definition validate_exposure (ref : InstanceRef) (scope : ProjectScope) (pointer : string) : mech unit :=
  let+ s := mget in
  if negb (bool_decide (ir_project ref = project_id scope)) || negb (bool_decide (Some pointer = mk_pointer s))
  then mraise (ValueError "deployment pointer is outside the bound scope") else
  bind_scope scope (ir_instance ref) ;+
  let+ s := mget in
  let expected := expected_labels s [("com.odoo-forge.project", ir_project ref); ("com.odoo-forge.instance", ir_instance ref)] in
  inspect_and_validate "network" (ir_network ref) expected ;+
  inspect_and_validate "container" (ir_postgres_container ref) (dset "com.odoo-forge.role" "postgres" expected) ;+
  inspect_and_validate "container" (ir_odoo_container ref) (dset "com.odoo-forge.role" "odoo" expected).

(** [_preflight]: the entries by identifier. *)
Definition preflight (plan : BackendPlan) : mech (list (string * option (list (string * json)))) :=
  let+ found := mmap (fun '(kind, identifier, _) => let+ entry := inspect identifier kind in mret (identifier, entry)) (plan_resources plan) in
  let inspected := dict_of found in
  meach (fun '(_, identifier, labels) =>
    let+ s := mget in
    mlift (validate_live identifier (default None (dget identifier inspected)) (expected_labels s labels))) (plan_resources plan) ;+
  mret inspected.

(** ** Creating *)

Definition label_args (labels : list (string * string)) : list string :=
  concat (map (fun kv => ["--label"; kv.1 +:+ "=" +:+ kv.2]) labels).
Definition create (argv : list string) (labels : list (string * string)) (operation : DurableOperationIdentity) (kind name : string)
    : mech OwnershipRecord :=
  let+ s := mget in
  let+ output := docker (argv ++ label_args (resource_labels s labels operation kind name) ++ [name]) true in
  mret (owned operation kind name (strip output)).
(** [_create_volume], and the same steps for the network in [ensure_runtime]. *)
Definition create_volume (volume : VolumeSpec) (operation : DurableOperationIdentity) : mech OwnershipRecord :=
  create ["docker"; "volume"; "create"] (vs_labels volume) operation "volume" (vs_name volume).
Definition create_network (network : NetworkSpec) (operation : DurableOperationIdentity) : mech OwnershipRecord :=
  create ["docker"; "network"; "create"] (ns_labels network) operation "network" (ns_name network).

(** Upload one secret file and remember its path. *)
Definition stage_secret (content path : string) : mech unit :=
  say (Upload content path) ;+
  mmodify (fun s => mkMechState (mk_scope s) (mk_pointer s) (if bool_decide (path ∈ mk_secrets s) then mk_secrets s else mk_secrets s ++ [path])
                      (mk_local s ++ [path])).
Definition discard_secret (path : string) : mech unit :=
  mcatch (say (Ssh ["rm"; "-f"; path] true) ;+ mret tt) (fun _ => mret tt) ;+
  mmodify (fun s => with_secrets (List.filter (fun p => negb (bool_decide (p = path))) (mk_secrets s)) s).
(** [_cleanup_secret_paths] *)
Definition cleanup_secret_paths : mech unit := let+ s := mget in meach discard_secret (mk_secrets s).

Definition secrets_of (spec : ContainerSpec) (postgres_credentials : option string) : list (string * string) :=
  match postgres_credentials with
  | Some handle => if bool_decide (ctr_role spec = "postgres") && has_resolver then dset "POSTGRES_PASSWORD" handle (ctr_secret_env spec)
                   else ctr_secret_env spec
  | None => ctr_secret_env spec
  end.
(** The arguments that hand the secrets over. *)
Definition secret_args (spec : ContainerSpec) (secrets : list (string * string)) : mech (list string) :=
  match secrets with
  | [] => mret []
  | _ =>
    if negb has_resolver then mraise (ValueError "opaque credential resolver is required") else
    if bool_decide (ctr_role spec = "odoo") then
      let path := secret_path (ctr_name spec) in
      let+ lines := mmap (fun '(key, handle) => let+ value := say (ResolveHandle handle) in mret (key +:+ "=" +:+ value +:+ String newline "")) secrets in
      stage_secret (join "" lines) path ;+
      mret ["--env-file"; path]
    else
      let+ args := mmap (fun '(key, handle) =>
        let path := secret_path handle in
        let+ value := say (ResolveHandle handle) in
        stage_secret value path ;+
        mret ["--volume"; path +:+ ":/run/secrets/" +:+ key +:+ ":ro"; "--env"; key +:+ "_FILE=/run/secrets/" +:+ key]) secrets in
      mret (concat args)
  end.
Definition volume_args (spec : ContainerSpec) : list string :=
  let target := if bool_decide (ctr_role spec = "postgres") then "/var/lib/postgresql/data" else "/var/lib/odoo" in
  concat (map (fun v => ["--volume"; vs_name v +:+ ":" +:+ target]) (ctr_volumes spec)) ++
  concat (map (fun m => ["--volume"; mt_host_path m +:+ ":" +:+ mt_container_path m +:+ ":" +:+ (if mt_read_only m then "ro" else "rw")]) (ctr_mounts spec)).
Definition port_args (spec : ContainerSpec) : list string :=
  concat (map (fun kv => ["--publish"; ctr_bind_host spec +:+ ":" +:+ pretty (default 0%Z kv.2) +:+ ":" +:+ kv.1]) (ctr_ports spec)).

(** [_container_command] *)
Definition container_command (spec : ContainerSpec) (operation : DurableOperationIdentity) (postgres_credentials : option string)
    (command : list string) : mech OwnershipRecord :=
  mmodify (with_local []) ;+
  let+ s := mget in
  let labels := resource_labels s (ctr_labels spec) operation "container" (ctr_name spec) in
  let base := ["docker"; "run"; "-d"; "--name"; ctr_name spec; "--network"; ctr_network spec] ++ label_args labels ++
              concat (map (fun kv => ["--env"; kv.1 +:+ "=" +:+ kv.2]) (ctr_env spec)) in
  let+ output := mcatch
    (let+ secrets := secret_args spec (secrets_of spec postgres_credentials) in
     docker (base ++ secrets ++ volume_args spec ++ port_args spec ++ [ctr_image spec] ++ command) true)
    (fun e => let+ s := mget in meach discard_secret (mk_local s) ;+ mraise e) in
  mret (owned operation "container" (ctr_name spec) (strip output)).

(** ** Destroying *)

(** [_live_identity] *)
Definition live_identity (entry : list (string * json)) (kind : string) : result exn string :=
  match dget (if bool_decide (kind = "volume") then "Name" else "Id") entry with
  | Some (JStr value) => ensure (negb (bool_decide (value = ""))) (ValueError "live resource identity is missing") ;! Ok value
  | _ => Err (ValueError "live resource identity is missing")
  end.
(** What the live resource must show for the receipt of a creation. *)
Definition proof_of (receipt : OwnershipReceipt) (live kind identifier : string) (entry : list (string * json)) : result exn (option string) :=
  let! identity := live_identity entry kind in
  let! labels := labels_of entry in
  if negb (bool_decide (identity = live)) then Ok None else
  let! operation := label_is labels OPERATION_LABEL (operation_id (or_operation receipt)) in
  if negb operation then Ok None else
  let! token := label_is labels CREATOR_TOKEN_LABEL (creator_token (or_operation receipt) kind identifier) in
  Ok (if token then Some identity else None).
(** [_proves_created]: the live identity of a resource this operation created. *)
Definition proves_created (record : OwnershipRecord) : mech (option string) :=
  if negb (is_created record) then mret None else
  match own_receipt record with
  | None => mret None
  | Some receipt =>
    match or_owned_resource_ids receipt with
    | [live] =>
      let kind := rr_kind (own_ref record) in
      let identifier := rr_identifier (own_ref record) in
      mcatch
        (let+ entry := inspect identifier kind in
         match entry with None => mret None | Some entry => mlift (proof_of receipt live kind identifier entry) end)
        (fun _ => mret None)
    | _ => mret None
    end
  end.
(** [_destroy_owned] *)
Definition destroy_one (record : OwnershipRecord) : mech unit :=
  match delete_command (rr_kind (own_ref record)) with
  | None => mret tt
  | Some command =>
    let+ proof := proves_created record in
    match proof with
    | None => mret tt
    | Some identity => docker (command ++ [identity]) true ;+ mret tt
    end
  end.
Definition destroy_owned (ownership : list OwnershipRecord) : mech unit := meach destroy_one (rev ownership).

(** ** The runtime *)

Definition odoo_bootstrap (database : string) : list string := ["odoo"; "-d"; database; "-i"; "base"; "--stop-after-init"; "--no-http"].
Definition bootstrap_spec (spec : ContainerSpec) : ContainerSpec :=
  mkContainerSpec (ctr_name spec +:+ "-bootstrap") (ctr_image spec) (ctr_role spec) (ctr_network spec) (ctr_env spec) (ctr_secret_env spec)
    (ctr_mounts spec) (ctr_labels spec) (ctr_volumes spec) (ctr_bind_host spec) [].
(** Whether the data volume of PostgreSQL was created in this call. *)
Definition pgdata_created (plan : BackendPlan) (records : list OwnershipRecord) : bool :=
  match ctr_volumes (bp_postgres plan) with
  | [] => false
  | v :: _ => existsb (fun r => bool_decide (rr_kind (own_ref r) = "volume") && bool_decide (rr_identifier (own_ref r) = vs_name v) && is_created r) records
  end.

(** The records so far, also when the step fails: what the [except] clause sees. *)
Definition step : Type := list OwnershipRecord -> mech (list OwnershipRecord * result exn unit).
Definition adding (m : mech OwnershipRecord) : step := fun records s =>
  let* '(r, s') := m s in
  Ret (Ok (match r with Ok record => (records ++ [record], Ok tt) | Err x => (records, Err x) end), s').
Definition checking (m : mech unit) : step := fun records s =>
  let* '(r, s') := m s in Ret (Ok (records, r), s').
Definition then_ (a b : step) : step := fun records =>
  let+ ra := a records in
  match ra.2 with Ok _ => b ra.1 | Err x => mret (ra.1, Err x) end.
Definition steps (l : list step) : step := fold_right then_ (fun records => mret (records, Ok tt)) l.
(** [records.remove(record)] *)
Fixpoint remove_record (record : OwnershipRecord) (records : list OwnershipRecord) : list OwnershipRecord :=
  match records with
  | [] => []
  | r :: records' => if bool_decide (r = record) then records' else r :: remove_record record records'
  end.

(** The managed bootstrap of an empty database. *)
Definition bootstrap (plan : BackendPlan) (operation : DurableOperationIdentity) (spec : ContainerSpec) : step := fun records =>
  if negb (managed_image (ctr_image spec) && bool_decide (ctr_role spec = "odoo") && pgdata_created plan records) then mret (records, Ok tt) else
  match dget "POSTGRES_DB" (ctr_env spec) with
  | None => mret (records, Err (ValueError "managed Odoo bootstrap requires POSTGRES_DB"))
  | Some database =>
    let+ ran := adding (container_command (bootstrap_spec spec) operation (bp_postgres_credentials plan) (odoo_bootstrap database)) records in
    match ran.2 with
    | Err x => mret (ran.1, Err x)
    | Ok _ =>
      let+ waited := checking (
        let+ code := docker ["docker"; "wait"; ctr_name (bootstrap_spec spec)] true in
        if negb (bool_decide (strip code = "0")) then mraise (RuntimeError "managed Odoo database bootstrap failed") else
        docker ["docker"; "rm"; "-f"; ctr_name (bootstrap_spec spec)] true ;+ mret tt) ran.1 in
      match waited.2, drop (length records) ran.1 with
      | Ok _, [record] => mret (remove_record record waited.1, Ok tt)
      | _, _ => mret waited
      end
    end
  end.
Definition is_absent (inspected : list (string * option (list (string * json)))) (identifier : string) : bool :=
  match dget identifier inspected with Some (Some _) => false | _ => true end.
Definition ensure_container (plan : BackendPlan) (operation : DurableOperationIdentity)
    (inspected : list (string * option (list (string * json)))) (spec : ContainerSpec) : step :=
  if is_absent inspected (ctr_name spec)
  then then_ (bootstrap plan operation spec) (adding (container_command spec operation (bp_postgres_credentials plan) []))
  else adding (mret (adopted "container" (ctr_name spec))).
Definition runtime_steps (plan : BackendPlan) (operation : DurableOperationIdentity)
    (inspected : list (string * option (list (string * json)))) : step :=
  steps ([if is_absent inspected (ns_name (bp_network plan)) then adding (create_network (bp_network plan) operation)
          else adding (mret (adopted "network" (ns_name (bp_network plan))))] ++
         map (fun v => if is_absent inspected (vs_name v) then adding (create_volume v operation) else adding (mret (adopted "volume" (vs_name v))))
           (bp_volumes plan) ++
         map (ensure_container plan operation inspected) [bp_postgres plan; bp_odoo plan]).
Definition ensure_runtime (plan : BackendPlan) (operation : DurableOperationIdentity) : mech (list OwnershipRecord) :=
  let+ inspected := preflight plan in
  let+ built := runtime_steps plan operation inspected [] in
  match built.2 with
  | Ok _ => mret built.1
  | Err e =>
    if unknown_outcome e then mraise e else
    destroy_owned (List.filter is_created built.1) ;+ cleanup_secret_paths ;+ mraise e
  end.

(** [discover_runtime]: the identity it builds for an adopted record has an empty digest. *)
Definition adopted_identity : result exn DurableOperationIdentity :=
  ensure false (ValueError "request_digest") ;! Ok (mkDurableOperationIdentity "adopted" "").
Fixpoint discover (expected : list (string * string)) (names : list (string * string)) : mech (list OwnershipRecord) :=
  match names with
  | [] => mret []
  | (kind, name) :: names' =>
    let+ entry := inspect name kind in
    mlift (validate_live name entry expected) ;+
    match entry with
    | None => discover expected names'
    | Some _ =>
      mlift adopted_identity ;+
      let+ records := discover expected names' in mret (adopted kind name :: records)
    end
  end.
Definition discover_runtime (ref : InstanceRef) : mech (list OwnershipRecord) :=
  let+ s := mget in
  discover (expected_labels s [("com.odoo-forge.project", ir_project ref); ("com.odoo-forge.instance", ir_instance ref)])
    [("network", ir_network ref); ("container", ir_postgres_container ref); ("container", ir_odoo_container ref)].

(** ** Readiness and the rest *)

(** [entries]: what a loop over the decoded value visits. *)
Definition entries_of (output : string) : result exn (list json) :=
  match loads output with
  | None => Err (ValueError "json")
  | Some (JArr l) => Ok l
  | Some (JObj d) => Ok (map (fun kv => JStr kv.1) d)
  | Some (JStr s) => Ok (map (fun c => JStr (String c "")) (chars s))
  | Some _ => Err (TypeError "not iterable")
  end.
(** [j.get(key, {})] *)
Definition json_get_dict (j : json) (key : string) : result exn json :=
  let! found := json_get j key in Ok (default (JObj []) found).
Fixpoint each {A B : Type} (f : A -> result exn B) (l : list A) : result exn (list B) :=
  match l with [] => Ok [] | x :: l' => let! y := f x in let! ys := each f l' in Ok (y :: ys) end.
Definition health_status (entry : json) : result exn (option json) :=
  let! state := json_get_dict entry "State" in
  let! health := json_get_dict state "Health" in
  json_get health "Status".
Fixpoint all_running (entries : list json) : result exn bool :=
  match entries with
  | [] => Ok true
  | entry :: entries' =>
    let! state := json_get_dict entry "State" in
    let! running := json_get state "Running" in
    if match running with Some j => truthy j | None => false end then all_running entries' else Ok false
  end.
Definition lstrip_slash (s : string) : string := str (drop_while (Ascii.eqb "/"%char) (chars s)).
(** [next((entry for entry in entries if ...), None)] *)
Fixpoint find_entry (name : string) (entries : list json) : result exn (option json) :=
  match entries with
  | [] => Ok None
  | entry :: entries' =>
    let! found := json_get entry "Name" in
    match default (JStr "") found with
    | JStr s => if bool_decide (lstrip_slash s = name) then Ok (Some entry) else find_entry name entries'
    | _ => Err (AttributeError "lstrip")
    end
  end.
Definition image_of (entry : option json) : result exn json :=
  match entry with
  | Some j => if truthy j then let! config := json_get_dict j "Config" in
                let! image := json_get config "Image" in Ok (default (JStr "") image)
              else Ok (JStr "")
  | None => Ok (JStr "")
  end.
(** What one look at the containers says: not ready, still starting, or ready with this image. *)
Inductive look : Type := NotReady | StillStarting | Serving (image : json).
Definition look_at (ref : InstanceRef) (output : string) : result exn look :=
  let! entries := entries_of output in
  let! statuses := each health_status entries in
  let! running := all_running entries in
  if negb running || bool_decide (Some (JStr "unhealthy") ∈ statuses) then Ok NotReady else
  if bool_decide (Some (JStr "starting") ∈ statuses) then Ok StillStarting else
  let! entry := find_entry (ir_odoo_container ref) entries in
  let! image := image_of entry in
  Ok (Serving image).

Definition inspect_both (ref : InstanceRef) : list string := ["docker"; "inspect"; ir_postgres_container ref; ir_odoo_container ref].
Definition health_argv (ref : InstanceRef) : list string :=
  ["docker"; "exec"; ir_odoo_container ref; "curl"; "--fail"; "--silent"; "--show-error"; "--max-time"; "5"; "http://127.0.0.1:8069/web/health"].
(** The loop; out of fuel it is still starting. *)
Fixpoint await_ready (fuel : nat) (deadline : Z) (ref : InstanceRef) : mech bool :=
  match fuel with
  | O => mret false
  | S fuel' =>
    let+ output := docker (inspect_both ref) false in
    let+ seen := mlift (look_at ref output) in
    match seen with
    | NotReady => mret false
    | StillStarting =>
      let+ now := say MonotonicNow in
      if (deadline <=? now)%Z then mret false else say SleepSecond ;+ await_ready fuel' deadline ref
    | Serving (JStr image) =>
      if negb (managed_image image) then mret true else
      mcatch (let+ answer := docker (health_argv ref) false in mret (negb (bool_decide (strip answer = "")))) (fun _ => mret false)
    | Serving _ => mret true
    end
  end.
Definition runtime_ready (fuel : nat) (ref : InstanceRef) : mech bool :=
  mfinally
    (let+ now := say MonotonicNow in await_ready fuel (now + ODOO_READINESS_TIMEOUT_SECONDS) ref)
    cleanup_secret_paths.

Definition runtime_status (ref : InstanceRef) : mech InstanceStatus :=
  let+ output := docker (inspect_both ref) false in
  match loads output with
  | None => mraise (ValueError "json")
  | Some j => mlift (parse_status j)
  end.
Definition ensure_http (ref : InstanceRef) (hostname : string) (operation : DurableOperationIdentity) : mech OwnershipRecord :=
  mret (owned operation "http" (ir_network ref +:+ "-http") (ir_network ref +:+ "-http")).
Definition verify_http (hostname : string) : mech bool :=
  mcatch (let+ status := say (UrlStatus ("http://" +:+ hostname +:+ "/")) in mret (status =? 200)%Z)
    (fun e => match e with OSError _ => mret false | _ => mraise e end).
Definition verify_dns (hostname target : string) : mech bool :=
  let+ addresses := say (AddrInfo hostname) in mret (bool_decide (target ∈ addresses)).
Definition stop (ref : InstanceRef) : mech unit :=
  meach (fun name => docker ["docker"; "stop"; name] true ;+ mret tt) [ir_odoo_container ref; ir_postgres_container ref].
Definition destroy (ref : InstanceRef) (ownership : list OwnershipRecord) : mech unit := destroy_owned ownership.
Definition destroy_result (ref : InstanceRef) : list DestroyResourceResult :=
  map (fun name => mkDestroyResourceResult KContainer name ORemoved None) [ir_odoo_container ref; ir_postgres_container ref].
Definition logs (ref : InstanceRef) (role : string) : mech string :=
  docker ["docker"; "logs"; if bool_decide (role = "odoo") then ir_odoo_container ref else ir_postgres_container ref] false.
(** [exit_code=0, stderr=''], always. *)
Definition exec_ (ref : InstanceRef) (argv : list string) : mech (Z * string * string) :=
  let+ out := docker (["docker"; "exec"; ir_odoo_container ref] ++ argv) false in mret (0%Z, out, "").
End Mechanics.
