(* ===== verification/VpsProvider.v ===== *)
(** * The VPS backend ([odoo_forge_docker/vps/provider.py], [VpsBackendProvider])

    One provider is bound to one durable operation: its verb, scope, target, credentials and the
    digest of its request.  Every method first proves the binding, then drives the mechanics and
    records the outcome in the durable operation store. *)

From S2P Require Import Prelude Effects Values Json Backend Durable DockerBackend RemoteDeployment VpsTransport VpsMechanics.

(** ** Values *)

Record VpsOperationBinding : Type := mkVpsOperationBinding {
  vb_scope : ProjectScope; vb_operation : DurableOperationIdentity; vb_verb : string; vb_ownership : list OwnershipRecord;
  vb_target : RemoteTargetFingerprint; vb_credential_handles : list string }.

(** What a request is about. *)
Inductive payload : Type :=
| PlanPayload (plan : BackendPlan)
| RefPayload (ref : InstanceRef)
| RolePayload (ref : InstanceRef) (role : string)
| ExecPayload (ref : InstanceRef) (argv : list string)
| ExposurePayload (request : ExposureRequest).

Inductive vps_op : Type -> Type :=
| CreateOrLoadOp (identity : DurableOperationIdentity) : vps_op DurableOperationRecord
| SaveCheckpointOp (operation_id : string) (expected : OperationRevision) (checkpoint : DurableCheckpoint) : vps_op DurableOperationRecord
| MarkReconciliationOp (operation_id : string) (expected : OperationRevision) : vps_op DurableOperationRecord
| CommitTerminalOp (operation_id : string) (bundle : TerminalCommitBundle) : vps_op DurableOperationRecord
| BindScope (scope : ProjectScope) (instance : string) : vps_op unit
| ValidateScope (plan : BackendPlan) (scope : ProjectScope) : vps_op unit
| ValidateExposure (ref : InstanceRef) (scope : ProjectScope) (pointer : string) : vps_op unit
| EnsureRuntime (plan : BackendPlan) (operation : DurableOperationIdentity) : vps_op (list OwnershipRecord)
| RuntimeReady (ref : InstanceRef) : vps_op bool
| RuntimeStatus (ref : InstanceRef) : vps_op InstanceStatus
| EnsureHttp (ref : InstanceRef) (hostname : string) (operation : DurableOperationIdentity) : vps_op OwnershipRecord
| VerifyHttp (hostname : string) : vps_op bool
| VerifyDns (hostname target : string) : vps_op bool
| StopRuntime (ref : InstanceRef) : vps_op unit
| DestroyRuntime (ref : InstanceRef) (ownership : list OwnershipRecord) : vps_op unit
| DestroyOutcome (ref : InstanceRef) : vps_op (list DestroyResourceResult)
| ReadLogs (ref : InstanceRef) (role : string) : vps_op string
| ExecIn (ref : InstanceRef) (argv : list string) : vps_op (Z * string * string).
Definition vps_prog := prog vps_op exn.

(** [_ownership_evidence] *)
Definition evidence_of (r : OwnershipRecord) : result exn (list RedactedEvidence) :=
  match own_receipt r with
  | Some receipt =>
    match or_owned_resource_ids receipt with
    | [] => Ok []
    | ids => let! e := redacted_evidence "ownership_verified" "verified ownership receipt retained" ids in Ok [e]
    end
  | None => Ok []
  end.
Fixpoint ownership_evidence (ownership : list OwnershipRecord) : result exn (list RedactedEvidence) :=
  match ownership with
  | [] => Ok []
  | r :: rs => let! e := evidence_of r in let! es := ownership_evidence rs in Ok (e ++ es)
  end.

Section Provider.
Variable sha256 : string -> string.
(** pydantic's [model_dump(mode='json')] of a payload and of a scope. *)
Variable dump_payload : payload -> json.
Variable dump_scope : ProjectScope -> json.
(** Which optional methods the mechanics has ([getattr(self._mechanics, name, None)]). *)
Variable offers : string -> bool.
Variable binding : VpsOperationBinding.

(** ** The binding *)

Definition owner_json (r : OwnershipRecord) : json :=
  JArr [JStr (rr_identifier (own_ref r)); JStr (rr_kind (own_ref r));
        JStr match rr_ownership (own_ref r) with CREATED => "created" | ADOPTED => "adopted" | EXTERNAL => "external" end;
        JArr (map JStr match own_receipt r with Some receipt => or_owned_resource_ids receipt | None => [] end)].
(** [value['operation'] = ...] for an exposure request. *)
Definition payload_json (p : payload) : json :=
  match p, dump_payload p with
  | ExposurePayload q, JObj d => JObj (dset "operation" (JObj [("operation_id", JStr (operation_id (xq_operation q)))]) d)
  | _, j => j
  end.
Definition target_json (t : RemoteTargetFingerprint) : json :=
  JObj [("host", JStr (target_host t)); ("user", JStr (target_user t)); ("port", JInt (target_port t)); ("host_key", JStr (target_host_key t))].
(** [request_digest] with the binding's fields *)
Definition request_digest (p : payload) : string :=
  sha256 (dumps_compact (JObj
    [("verb", JStr (vb_verb binding)); ("scope", dump_scope (vb_scope binding)); ("target", target_json (vb_target binding));
     ("handles", JArr (map JStr (vb_credential_handles binding))); ("ownership", JArr (map owner_json (vb_ownership binding)));
     ("payload", payload_json p)])).

(** [VpsBackendProvider.__init__] *)
Definition check_binding : result exn unit :=
  ensure (forallb (fun r => match own_attribution r with
                            | Some tenant_id => bool_decide (tenant_id = Some (tenant_value (tenant (vb_scope binding))))
                            | None => true
                            end) (vb_ownership binding)) (ValueError "ownership is outside the bound tenant").

Definition begin (method : string) (p : payload) (ref : option InstanceRef) (handles : list string) : vps_prog DurableOperationRecord :=
  if negb (bool_decide (vb_verb binding = method)) ||
     match ref with Some r => negb (bool_decide (ir_project r = project_id (vb_scope binding))) | None => false end ||
     match handles with [] => false | _ => negb (bool_decide (handles = vb_credential_handles binding)) end
  then Raise (ValueError "operation binding mismatch") else
  if negb (matches_request_digest (vb_operation binding) (request_digest p))
  then Raise (ValueError "operation request meaning mismatch") else
  call (CreateOrLoadOp (vb_operation binding)).

Definition checkpoint (record : DurableOperationRecord) (phase summary : string) (refs : list string) : vps_prog DurableOperationRecord :=
  let* evidence := lift (redacted_evidence phase summary refs) in
  let* cp := lift (save_checkpoint (do_revision record) phase evidence) in
  call (SaveCheckpointOp (operation_id (do_identity record)) (do_revision record) cp).

Definition terminal (record : DurableOperationRecord) (outcome : LifecycleState) (evidence : list RedactedEvidence)
    (ownership : list OwnershipRecord) : vps_prog unit :=
  let* owners := lift (ownership_evidence ownership) in
  let* bundle := lift (build_terminal_commit (do_revision record) outcome (evidence ++ owners) []) in
  call (CommitTerminalOp (operation_id (do_identity record)) bundle) ;*
  Ret tt.

Definition finished (record : DurableOperationRecord) : bool := bool_decide (do_lifecycle record ∈ [SUCCEEDED; CLOSED]).
Definition reconcile_later (record : DurableOperationRecord) : vps_prog unit :=
  call (MarkReconciliationOp (operation_id (do_identity record)) (do_revision record)) ;* Ret tt.
Definition made (event summary : string) : result exn RedactedEvidence := redacted_evidence event summary [].

(** ** [run] *)

Definition prepare_runtime (plan : BackendPlan) (ref : InstanceRef) : vps_prog unit :=
  (if offers "bind_scope" then call (BindScope (vb_scope binding) (ir_instance ref)) else Ret tt) ;*
  (if offers "validate_scope" then call (ValidateScope plan (vb_scope binding)) else Ret tt).

(** The [except] clause, with the last record and the ownership so far. *)
Definition run_failed (ref : InstanceRef) (record : DurableOperationRecord) (owned : list OwnershipRecord) (e : exn) : vps_prog InstanceRef :=
  (if unknown_outcome e then reconcile_later record else
   let created := List.filter is_created owned in
   (match created with [] => Ret tt | _ => call (DestroyRuntime ref created) end) ;*
   let* evidence := match do_recovery_evidence record with
                    | [] => let* e := lift (made "failed" "runtime operation failed") in Ret [e]
                    | l => Ret l
                    end in
   terminal record FAILED evidence owned) ;*
  Raise e.
Definition run (plan : BackendPlan) : vps_prog InstanceRef :=
  let handles := map snd (ctr_secret_env (bp_odoo plan)) ++
                 match bp_postgres_credentials plan with Some h => if bool_decide (h = "") then [] else [h] | None => [] end in
  let* record := begin "run" (PlanPayload plan) None handles in
  let* ref := lift (instance_ref plan) in
  if finished record then Ret ref else
  let* r := attempt (prepare_runtime plan ref) in
  match r with Err e => run_failed ref record [] e | Ok _ =>
  let* r := attempt (call (EnsureRuntime plan (do_identity record))) in
  match r with Err e => run_failed ref record [] e | Ok owned =>
  let* r := attempt (checkpoint record "runtime" "managed runtime reconciled" (map (fun o => rr_identifier (own_ref o)) owned)) in
  match r with Err e => run_failed ref record owned e | Ok record =>
  let* r := attempt (let* ready := call (RuntimeReady ref) in
                     if ready : bool then checkpoint record "ready" "managed runtime readiness verified" []
                     else Raise (RuntimeError "managed runtime is not ready")) in
  match r with Err e => run_failed ref record owned e | Ok record =>
  let* r := attempt (terminal record SUCCEEDED (do_recovery_evidence record) owned) in
  match r with Err e => run_failed ref record owned e | Ok _ => Ret ref
  end end end end end.

(** ** The other verbs *)

(** [except Exception as exc: mark when unknown; raise] *)
Definition marking {A : Type} (record : DurableOperationRecord) (p : vps_prog A) : vps_prog A :=
  catch p (fun e => (if unknown_outcome e then reconcile_later record else Ret tt) ;* Raise e).

Definition status (ref : InstanceRef) : vps_prog InstanceStatus :=
  let* record := begin "status" (RefPayload ref) (Some ref) [] in
  (if finished record then Ret tt else checkpoint record "observed" "runtime status observed" [] ;* Ret tt) ;*
  call (RuntimeStatus ref).
Definition stop (ref : InstanceRef) : vps_prog unit :=
  let* record := begin "stop" (RefPayload ref) (Some ref) [] in
  if finished record then Ret tt else
  marking record (call (StopRuntime ref)) ;*
  let* e := lift (made "stopped" "runtime stopped") in
  terminal record SUCCEEDED [e] [].
Definition destroy (ref : InstanceRef) : vps_prog (list DestroyResourceResult) :=
  let* record := begin "destroy" (RefPayload ref) (Some ref) [] in
  (if finished record then Ret tt else
   marking record (call (DestroyRuntime ref (List.filter is_created (vb_ownership binding)))) ;*
   let* e := lift (made "destroyed" "owned runtime destroyed") in
   terminal record SUCCEEDED [e] []) ;*
  call (DestroyOutcome ref).
Definition logs (ref : InstanceRef) (role : string) : vps_prog string :=
  if negb (bool_decide (role ∈ ["odoo"; "postgres"])) then Raise (ValueError "invalid container role") else
  let* _ := begin "logs" (RolePayload ref role) (Some ref) [] in
  call (ReadLogs ref role).
Definition exec_in (ref : InstanceRef) (argv : list string) : vps_prog (Z * string * string) :=
  let* _ := begin "exec" (ExecPayload ref argv) (Some ref) [] in
  call (ExecIn ref argv).

(** ** [reconcile] *)

Definition pointer_text (p : InstancePointer) : string :=
  tenant_value (tenant (ptr_scope p)) +:+ "/" +:+ project_id (ptr_scope p) +:+ "/" +:+ instance_value (ptr_instance_id p).
Definition in_bound_scope (q : ExposureRequest) : bool :=
  let d := xq_deployment q in
  bool_decide (xq_scope q = vb_scope binding) && bool_decide (ptr_scope (ds_pointer d) = vb_scope binding) &&
  bool_decide (instance_value (ptr_instance_id (ds_pointer d)) = ir_instance (xq_instance q)) &&
  bool_decide (rr_identifier (ds_resource d) = ir_network (xq_instance q)).
Definition exposure_of (record : DurableOperationRecord) (route : OwnershipRecord) (http dns : bool) : result exn ExposureResult :=
  let! e := made "exposure" "HTTP exposure reconciled" in
  exposure_result (mkExposureResult (do_identity record) (if http && dns then READY else EXPOSURE_IN_PROGRESS)
    (if http then VERIFIED else PENDING) (if dns then VERIFIED else PENDING) (http && dns) false [route] [e]).
Definition reconcile_failed (q : ExposureRequest) (record : DurableOperationRecord) (route : option OwnershipRecord) (e : exn)
    : vps_prog ExposureResult :=
  (if unknown_outcome e then reconcile_later record
   else match route with
        | Some r => if is_created r then call (DestroyRuntime (xq_instance q) [r]) else Ret tt
        | None => Ret tt
        end) ;*
  (if unknown_outcome e then Ret tt else
   let* failed := lift (made "exposure_failed" "exposure reconciliation failed") in
   terminal record FAILED [failed] (match route with Some r => [r] | None => [] end)) ;*
  Raise e.
Definition reconcile (q : ExposureRequest) : vps_prog ExposureResult :=
  let* record := begin "reconcile" (ExposurePayload q) (Some (xq_instance q)) [] in
  match ds_exposure (xq_deployment q) with
  | None => Raise (ValueError "HTTP exposure intent is required")
  | Some exposure =>
    if negb (in_bound_scope q) then Raise (ValueError "deployment pointer is outside the bound scope") else
    (if offers "bind_scope" then call (BindScope (vb_scope binding) (ir_instance (xq_instance q))) else Ret tt) ;*
    (if offers "validate_exposure"
     then call (ValidateExposure (xq_instance q) (vb_scope binding) (pointer_text (ds_pointer (xq_deployment q)))) else Ret tt) ;*
    let host := xi_hostname exposure in
    let* r := attempt (call (EnsureHttp (xq_instance q) host (do_identity record))) in
    match r with Err e => reconcile_failed q record None e | Ok route =>
    let* r := attempt (
      let* http := call (VerifyHttp host) in
      let* dns := call (VerifyDns host (target_host (vb_target binding))) in
      let* result := lift (exposure_of record route http dns) in
      (if xr_ready result then terminal record SUCCEEDED (xr_evidence result) [route] else Ret tt) ;*
      Ret result) in
    match r with Err e => reconcile_failed q record (Some route) e | Ok result => Ret result
    end end
  end.
End Provider.
