(* ===== verification/VpsMechanicsFacts.v ===== *)
(** * Properties of Docker on the VPS *)

From S2P Require Import Prelude Effects Values Json Backend VpsTransport VpsMechanics.

Abbreviation mech_history := (list (event mech_op exn)).

(** ** Commands that create and commands that remove *)

Definition creates (command : list string) : option string :=
  if bool_decide (take 4 command = ["docker"; "run"; "-d"; "--name"]) then command !! 4
  else if bool_decide (take 3 command = ["docker"; "network"; "create"] \/ take 3 command = ["docker"; "volume"; "create"])
       then last (drop 3 command) else None.
Definition removes (command : list string) : option string :=
  if bool_decide (take 3 command ∈ [["docker"; "rm"; "-f"]; ["docker"; "network"; "rm"]; ["docker"; "volume"; "rm"]])
  then command !! 3 else None.

Section Facts.
Variable sha256 : string -> string.
Variable has_resolver : bool.
(** The records that may justify a removal, what may be removed without, and what may be created. *)
Variable mine : OwnershipRecord -> Prop.
Variable removable creatable : string -> Prop.

(** The live inspection of a resource proved that a record's operation created it: the identity
    is the one of the receipt, and the labels name the operation and carry its token. *)
Definition proven (past : mech_history) (identity : string) : Prop :=
  exists record receipt r entry labels,
    mine record /\ is_created record = true /\ own_receipt record = Some receipt /\ or_owned_resource_ids receipt = [identity] /\
    Event (Ssh ["docker"; "inspect"; rr_identifier (own_ref record)] false) (Ok r) ∈ past /\ first_entry (cmd_stdout r) = Ok entry /\
    dget (if bool_decide (rr_kind (own_ref record) = "volume") then "Name" else "Id") entry = Some (JStr identity) /\
    labels_of entry = Ok labels /\
    json_get labels OPERATION_LABEL = Ok (Some (JStr (operation_id (or_operation receipt)))) /\
    json_get labels CREATOR_TOKEN_LABEL =
      Ok (Some (JStr (creator_token sha256 (or_operation receipt) (rr_kind (own_ref record)) (rr_identifier (own_ref record))))).
Definition permitted (past : mech_history) (R : Type) (e : mech_op R) : Prop :=
  match e with
  | Ssh command _ =>
    (forall x, removes command = Some x -> proven past x \/ removable x) /\ (forall n, creates command = Some n -> creatable n)
  | _ => True
  end.
Abbreviation within := (guarded permitted).

(** ** Rules for the state *)

Lemma within_bind {A B : Type} past (m : mech A) (k : A -> mech B) s Q :
  within past (m s) (fun past' o =>
    match o with
    | Ok (Ok a, s') => within past' (k a s') Q
    | Ok (Err x, s') => Q past' (Ok (Err x, s'))
    | Err y => Q past' (Err y)
    end) -> within past (mbind m k s) Q.
Proof. intros H. apply guarded_bind. eapply guarded_mono; [|exact H]. by intros new [[[a|x] s']|y]. Qed.
Lemma within_catch {A : Type} past (m : mech A) h s Q :
  within past (m s) (fun past' o =>
    match o with
    | Ok (Ok a, s') => Q past' (Ok (Ok a, s'))
    | Ok (Err x, s') => within past' (h x s') Q
    | Err y => Q past' (Err y)
    end) -> within past (mcatch m h s) Q.
Proof. intros H. apply guarded_bind. eapply guarded_mono; [|exact H]. by intros new [[[a|x] s']|y]. Qed.
Lemma within_say {R : Type} past (e : mech_op R) s Q :
  permitted past R e -> (forall r, Q (past ++ [Event e r]) (Ok (r, s))) -> within past (say e s) Q.
Proof. intros He HQ. apply guarded_attempt_call; [done|]. intros r. apply HQ. Qed.

(** A method that only does what is always permitted, and what it answers. *)
Definition returns {A : Type} (m : mech A) (P : A -> Prop) : Prop :=
  forall past s, within past (m s) (fun _ o => match o with Ok (Ok a, _) => P a | _ => True end).
Definition safe {A : Type} (m : mech A) : Prop := returns m (fun _ => True).
Lemma returns_mono {A : Type} (m : mech A) (P P' : A -> Prop) : (forall a, P a -> P' a) -> returns m P -> returns m P'.
Proof. intros HP Hm past s. eapply guarded_mono; [|apply Hm]. intros new [[[a|x] s']|y]; [apply HP|done..]. Qed.
Lemma safe_returns {A : Type} (m : mech A) P : returns m P -> safe m.
Proof. by apply returns_mono. Qed.
Lemma returns_ret {A : Type} (a : A) (P : A -> Prop) : P a -> returns (mret a) P.
Proof. by intros Ha past s. Qed.
Lemma safe_pure {A : Type} (r : result exn A) : safe (mlift r).
Proof. by intros past s; destruct r. Qed.
Lemma safe_raise {A : Type} (x : exn) : safe (A := A) (mraise x).
Proof. by intros past s. Qed.
Lemma safe_state : safe mget.
Proof. by intros past s. Qed.
Lemma safe_modify f : safe (mmodify f).
Proof. by intros past s. Qed.
Lemma returns_bind {A B : Type} (m : mech A) (k : A -> mech B) (P : A -> Prop) (Q : B -> Prop) :
  returns m P -> (forall a, P a -> returns (k a) Q) -> returns (mbind m k) Q.
Proof. intros Hm Hk past s. apply within_bind. eapply guarded_mono; [|apply Hm]. intros new [[[a|x] s']|y] Ha; [by apply Hk|done..]. Qed.
Lemma returns_then {A B : Type} (m : mech A) (k : A -> mech B) (Q : B -> Prop) :
  safe m -> (forall a, returns (k a) Q) -> returns (mbind m k) Q.
Proof. intros Hm Hk. eapply returns_bind; [exact Hm|]. intros a _. apply Hk. Qed.
Lemma safe_bind {A B : Type} (m : mech A) (k : A -> mech B) : safe m -> (forall a, safe (k a)) -> safe (mbind m k).
Proof. apply returns_then. Qed.
Lemma safe_catch {A : Type} (m : mech A) h : safe m -> (forall x, safe (h x)) -> safe (mcatch m h).
Proof. intros Hm Hk past s. apply within_catch. eapply guarded_mono; [|apply Hm]. intros new [[[a|x] s']|y] _; [done|apply Hk|done]. Qed.
Lemma safe_finally {A : Type} (m : mech A) cleanup : safe m -> safe cleanup -> safe (mfinally m cleanup).
Proof.
  intros Hm Hc past s. apply guarded_bind. eapply guarded_mono; [|apply Hm]. intros new [[r s']|y] _; [|done].
  apply guarded_bind. eapply guarded_mono; [|apply Hc]. intros new' [[[u|x] s'']|y] _; [|done..]. by destruct r.
Qed.
Lemma safe_say {R : Type} (e : mech_op R) : (forall past, permitted past R e) -> safe (say e).
Proof. intros He past s. apply within_say; [apply He|]. by intros [r|x]. Qed.
Lemma safe_each {A : Type} (f : A -> mech unit) l : (forall x, safe (f x)) -> safe (meach f l).
Proof. intros Hf. induction l as [|x l IH]; [by apply returns_ret|]. apply safe_bind; [apply Hf|done]. Qed.
Lemma safe_map {A B : Type} (f : A -> mech B) l : (forall x, safe (f x)) -> safe (mmap f l).
Proof.
  intros Hf. induction l as [|x l IH]; [by apply returns_ret|]. apply safe_bind; [apply Hf|]. intros y.
  apply safe_bind; [done|]. intros ys. by apply returns_ret.
Qed.

(** A command that neither creates nor removes, and one that creates what it may. *)
Lemma safe_docker command mutating :
  removes command = None -> (forall n, creates command = Some n -> creatable n) -> safe (docker command mutating).
Proof.
  intros Hr Hc. apply safe_bind; [|intros r; by apply returns_ret]. apply safe_say. intros past. split; [by rewrite Hr|done].
Qed.
Lemma safe_reads command mutating : removes command = None -> creates command = None -> safe (docker command mutating).
Proof. intros Hr Hc. apply safe_docker; [done|by rewrite Hc]. Qed.
Lemma safe_lift {A B : Type} (r : result exn A) (k : A -> mech B) : (forall a, r = Ok a -> safe (k a)) -> safe (mbind (mlift r) k).
Proof. intros H past s. destruct r as [a|x]; [by apply H|done]. Qed.
(** The steps that need no argument. *)
Ltac stay := repeat first
  [ apply safe_pure | apply safe_raise | apply safe_state | apply safe_modify | solve [by apply returns_ret]
  | apply safe_bind; [|intros ?] | apply safe_catch; [|intros ?]
  | apply safe_say; intros ?; solve [done | by split] | apply safe_reads; reflexivity ].

(** ** Inspecting *)

Lemma exists_argv_reads kind identifier argv : exists_argv kind identifier = Ok argv -> removes argv = None /\ creates argv = None.
Proof. unfold exists_argv. repeat case_bool_decide; by intros [= <-]. Qed.
Lemma safe_exists kind identifier : safe (exists_ kind identifier).
Proof. unfold exists_. apply safe_lift. intros argv [Hr Hc]%exists_argv_reads. apply safe_bind; [by apply safe_reads|intros ?; stay]. Qed.
Lemma safe_inspect identifier kind : safe (inspect identifier kind).
Proof.
  unfold inspect. apply safe_bind; [apply safe_exists|]. intros [|]; cbn [negb]; [|stay].
  apply safe_bind; [stay|]. intros out. destruct (bool_decide (strip out = "")); [stay|]. apply safe_lift. intros entry _. stay.
Qed.
Lemma safe_preflight plan : safe (preflight plan).
Proof.
  unfold preflight. apply safe_bind.
  - apply safe_map. intros [[kind identifier] labels]. apply safe_bind; [apply safe_inspect|intros ?; stay].
  - intros found. apply safe_bind; [|intros ?; stay]. apply safe_each. intros [[kind identifier] labels]. stay.
Qed.

(** ** Secrets *)

Lemma safe_discard path : safe (discard_secret path).
Proof. unfold discard_secret. stay. Qed.
Lemma safe_cleanup : safe cleanup_secret_paths.
Proof. unfold cleanup_secret_paths. apply safe_bind; [stay|]. intros s. apply safe_each, safe_discard. Qed.
Lemma safe_stage content path : safe (stage_secret content path).
Proof. unfold stage_secret. stay. Qed.
Lemma safe_secret_args spec secrets : safe (secret_args sha256 has_resolver spec secrets).
Proof.
  unfold secret_args. destruct secrets as [|kv secrets]; [stay|]. generalize (kv :: secrets). clear kv secrets. intros l.
  destruct (negb has_resolver); [stay|]. destruct (bool_decide _).
  - apply safe_bind; [|intros lines; apply safe_bind; [apply safe_stage|intros ?; stay]]. apply safe_map. intros [key handle]. stay.
  - apply safe_bind; [|intros ?; stay]. apply safe_map. intros [key handle]. apply safe_bind; [stay|]. intros value.
    apply safe_bind; [apply safe_stage|intros ?; stay].
Qed.

(** ** Creating *)

(** The record of a creation by an operation. *)
Definition made_by (operation : DurableOperationIdentity) (kind name : string) (r : OwnershipRecord) : Prop :=
  exists live, r = owned operation kind name live.

Lemma create_returns argv labels operation kind name :
  argv ∈ [["docker"; "network"; "create"]; ["docker"; "volume"; "create"]] -> creatable name ->
  returns (create sha256 argv labels operation kind name) (made_by operation kind name).
Proof.
  intros Hargv Hname. unfold create. apply returns_then; [stay|]. intros s.
  apply returns_then; [|intros out; apply returns_ret; by exists (strip out)].
  assert (Hcmd : forall l, removes (argv ++ l ++ [name]) = None /\ creates (argv ++ l ++ [name]) = Some name).
  { intros l. rewrite !elem_of_cons in Hargv. destruct Hargv as [->|[->|H]]; [| |by apply not_elem_of_nil in H]; (split; [done|]);
      unfold creates; rewrite bool_decide_false by (by destruct (l ++ [name])); rewrite bool_decide_true by (by (left + right));
      apply last_snoc. }
  apply safe_docker; [apply Hcmd|]. intros n Hn. rewrite (proj2 (Hcmd _)) in Hn. by injection Hn as <-.
Qed.
Lemma container_returns spec operation creds command :
  creatable (ctr_name spec) ->
  returns (container_command sha256 has_resolver spec operation creds command) (made_by operation "container" (ctr_name spec)).
Proof.
  intros Hname. unfold container_command. apply returns_then; [stay|]. intros []. apply returns_then; [stay|]. intros s.
  apply returns_then; [|intros out; apply returns_ret; by exists (strip out)]. apply safe_catch.
  - apply safe_bind; [apply safe_secret_args|]. intros secrets. apply safe_docker; [done|]. intros n [= <-]. exact Hname.
  - intros e. apply safe_bind; [stay|]. intros s'. apply safe_bind; [|intros ?; stay]. apply safe_each, safe_discard.
Qed.

(** ** Removing *)

Lemma inspect_seen past identifier kind s (Q : mech_history -> result exn (result exn (option (list (string * json))) * mech_state) -> Prop) :
  (forall new o, match o with
                 | Ok (Ok (Some entry), s') => exists r, Event (Ssh ["docker"; "inspect"; identifier] false) (Ok r) ∈ past ++ new /\
                                                         first_entry (cmd_stdout r) = Ok entry
                 | _ => True
                 end -> Q (past ++ new) o) ->
  within past (inspect identifier kind s) Q.
Proof.
  intros HQ. unfold inspect. apply within_bind. eapply guarded_mono; [|apply safe_exists].
  intros new [[[there|x] s1]|y] _; [|by apply HQ..]. destruct there; cbn [negb]; [|by apply HQ].
  apply within_bind, within_bind, within_say; [by split|]. intros [r|x]; [|rewrite <- app_assoc; by apply HQ].
  cbv beta iota. change (mret (cmd_stdout r) s1) with (Ret (E := mech_op) (X := exn) (Ok (cmd_stdout r) : result exn string, s1)).
  apply guarded_Ret. destruct (bool_decide (strip (cmd_stdout r) = "")); [rewrite <- app_assoc; by apply HQ|]. apply within_bind.
  destruct (first_entry (cmd_stdout r)) as [entry|x] eqn:E; (rewrite <- app_assoc; apply HQ); [|done].
  exists r. split; [|done]. rewrite !elem_of_app. right. right. by left.
Qed.

Lemma label_is_true labels key value : label_is labels key value = Ok true -> json_get labels key = Ok (Some (JStr value)).
Proof. unfold label_is. intros (found & -> & H)%result_bind_Ok. injection H as H. by apply bool_decide_eq_true in H as ->. Qed.
Lemma proof_shows receipt live kind identifier entry identity :
  proof_of sha256 receipt live kind identifier entry = Ok (Some identity) ->
  live = identity /\ dget (if bool_decide (kind = "volume") then "Name" else "Id") entry = Some (JStr identity) /\
  exists labels, labels_of entry = Ok labels /\
    json_get labels OPERATION_LABEL = Ok (Some (JStr (operation_id (or_operation receipt)))) /\
    json_get labels CREATOR_TOKEN_LABEL = Ok (Some (JStr (creator_token sha256 (or_operation receipt) kind identifier))).
Proof.
  unfold proof_of. intros (id & Hid & H)%result_bind_Ok. apply result_bind_Ok in H as (labels & Hlabels & H).
  destruct (bool_decide_reflect (id = live)) as [->|_]; [cbn [negb] in H|discriminate H].
  apply result_bind_Ok in H as ([] & Hop & H); [cbn [negb] in H|discriminate H].
  apply result_bind_Ok in H as ([] & Htok & H); [|discriminate H]. injection H as ->.
  split; [done|]. unfold live_identity in Hid. destruct (dget _ entry) as [[| | | |v| | ]|]; try discriminate Hid.
  apply result_bind_Ok in Hid as (_ & _ & [= ->]). split; [done|]. exists labels. split; [done|]. by split; apply label_is_true.
Qed.

Lemma destroy_one_within record past s (Q : mech_history -> result exn (result exn unit * mech_state) -> Prop) :
  mine record -> (forall new o, Q (past ++ new) o) -> within past (destroy_one sha256 record s) Q.
Proof.
  intros Hm HQ. unfold destroy_one. destruct (delete_command (rr_kind (own_ref record))) as [command|] eqn:Ed.
  2:{ specialize (HQ [] (Ok (Ok tt, s))). by rewrite app_nil_r in HQ. }
  assert (Hcmd : forall x, removes (command ++ [x]) = Some x /\ creates (command ++ [x]) = None).
  { unfold delete_command in Ed. cbn in Ed. repeat case_decide; by simplify_eq. }
  apply within_bind. unfold proves_created. destruct (is_created record) eqn:Ec; cbn [negb].
  2:{ specialize (HQ [] (Ok (Ok tt, s))). by rewrite app_nil_r in HQ. }
  destruct (own_receipt record) as [receipt|] eqn:Er.
  2:{ specialize (HQ [] (Ok (Ok tt, s))). by rewrite app_nil_r in HQ. }
  destruct (or_owned_resource_ids receipt) as [|live [|]] eqn:Ei.
  1,3: specialize (HQ [] (Ok (Ok tt, s))); by rewrite app_nil_r in HQ.
  apply within_catch, within_bind, inspect_seen. intros new [[[[entry|]|x] s1]|y]; cbn; [|intros _; apply HQ..].
  intros (r & Hin & He). destruct (proof_of _ _ _ _ _ _) as [[identity|]|x] eqn:Ep; [|apply HQ..].
  apply within_bind, within_bind, within_say.
  - split; [|by rewrite (proj2 (Hcmd _))]. intros y. rewrite (proj1 (Hcmd _)). intros [= <-]. left.
    apply proof_shows in Ep as (-> & Hid & labels & Hl & Ho & Ht). exists record, receipt, r, entry, labels. by split_and!.
  - intros [r2|x]; rewrite <- app_assoc; apply HQ.
Qed.
Lemma destroy_owned_within records past s (Q : mech_history -> result exn (result exn unit * mech_state) -> Prop) :
  Forall mine records -> (forall new o, Q (past ++ new) o) -> within past (destroy_owned sha256 records s) Q.
Proof.
  intros Hm HQ. unfold destroy_owned. apply Forall_rev in Hm. revert past s HQ.
  induction Hm as [|record rest Hrec Hm IH]; intros past s HQ.
  - specialize (HQ [] (Ok (Ok tt, s))). by rewrite app_nil_r in HQ.
  - cbn [meach]. apply within_bind, destroy_one_within; [done|]. intros new [[[a|x] s']|y]; [|apply HQ..].
    apply IH. intros new' o. rewrite <- app_assoc. apply HQ.
Qed.

(** ** The methods that neither create nor remove *)

Lemma safe_bound scope instance : safe (bind_scope scope instance).
Proof. apply safe_modify. Qed.
Lemma safe_validated kind identifier expected : safe (inspect_and_validate kind identifier expected).
Proof. unfold inspect_and_validate. apply safe_bind; [apply safe_inspect|intros ?; stay]. Qed.
Lemma safe_validate_scope plan scope : safe (validate_scope plan scope).
Proof.
  unfold validate_scope. destruct (negb _); [stay|]. apply safe_bind; [apply safe_bound|]. intros [].
  apply safe_each. intros [[kind name] labels]. apply safe_bind; [stay|]. intros s. apply safe_validated.
Qed.
Lemma safe_validate_exposure ref scope pointer : safe (validate_exposure ref scope pointer).
Proof.
  unfold validate_exposure. apply safe_bind; [stay|]. intros s. destruct (_ || _); [stay|].
  apply safe_bind; [apply safe_bound|]. intros []. apply safe_bind; [stay|]. intros s'.
  repeat (apply safe_bind; [apply safe_validated|intros []]). apply safe_validated.
Qed.
Lemma safe_await fuel deadline ref : safe (await_ready fuel deadline ref).
Proof.
  induction fuel as [|fuel IH]; [stay|]. cbn [await_ready]. apply safe_bind; [stay|]. intros output.
  apply safe_bind; [stay|]. intros [| |image]; [stay| |].
  - apply safe_bind; [stay|]. intros now. destruct (deadline <=? now)%Z; [stay|]. apply safe_bind; [stay|done].
  - destruct image; try solve [stay]. destruct (negb _); stay.
Qed.
Lemma safe_ready fuel ref : safe (runtime_ready fuel ref).
Proof. unfold runtime_ready. apply safe_finally; [|apply safe_cleanup]. apply safe_bind; [stay|]. intros now. apply safe_await. Qed.
Lemma safe_status ref : safe (runtime_status ref).
Proof. unfold runtime_status. apply safe_bind; [stay|]. intros output. destruct (loads output); stay. Qed.
Lemma safe_verify_http hostname : safe (verify_http hostname).
Proof. unfold verify_http. apply safe_catch; [stay|]. intros x. destruct x; stay. Qed.
Lemma safe_verify_dns hostname target : safe (verify_dns hostname target).
Proof. unfold verify_dns. stay. Qed.
Lemma safe_stop ref : safe (stop ref).
Proof. unfold stop. apply safe_each. intros name. stay. Qed.
Lemma safe_logs ref role : safe (logs ref role).
Proof. unfold logs. stay. Qed.
Lemma safe_exec ref argv : safe (exec_ ref argv).
Proof. unfold exec_. stay. Qed.

(** ** The steps of [ensure_runtime] *)

(** What a record says: its kind, its name and whether the operation created it. *)
Definition key (r : OwnershipRecord) : string * string * bool := (rr_kind (own_ref r), rr_identifier (own_ref r), is_created r).
Definition honest (r : OwnershipRecord) : Prop := is_created r = true -> mine r.
(** A step leaves honest records behind and, when it succeeds, adds these. *)
Definition adds (st : step) (l : list (string * string * bool)) : Prop :=
  forall records past s, Forall honest records ->
    within past (st records s) (fun _ o =>
      match o with
      | Ok (Ok (records', r), _) => Forall honest records' /\ (r = Ok tt -> map key records' ≡ₚ map key records ++ l)
      | _ => True
      end).

Lemma within_adding past m records s Q :
  within past (m s) (fun past' o =>
    match o with
    | Ok (Ok r, s') => Q past' (Ok (Ok (records ++ [r], Ok tt), s'))
    | Ok (Err x, s') => Q past' (Ok (Ok (records, Err x), s'))
    | Err y => Q past' (Err y)
    end) -> within past (adding m records s) Q.
Proof. intros H. apply guarded_bind. eapply guarded_mono; [|exact H]. by intros new [[[r|x] s']|y]. Qed.
Lemma within_checking past m records s Q :
  within past (m s) (fun past' o =>
    match o with Ok (r, s') => Q past' (Ok (Ok (records, r), s')) | Err y => Q past' (Err y) end) ->
  within past (checking m records s) Q.
Proof. intros H. apply guarded_bind. eapply guarded_mono; [|exact H]. by intros new [[r s']|y]. Qed.

Lemma adds_adding m k : returns m (fun r => honest r /\ key r = k) -> adds (adding m) [k].
Proof.
  intros Hm records past s Hr. apply within_adding. eapply guarded_mono; [|apply Hm].
  intros new [[[r|x] s']|y] H; [|split; [done|by intros [=]]|done]. destruct H as [Hh <-]. split; [apply Forall_app; split; [done|by constructor]|]. intros _. by rewrite map_app.
Qed.
Lemma adds_then a b la lb : adds a la -> adds b lb -> adds (then_ a b) (la ++ lb).
Proof.
  intros Ha Hb records past s Hr. unfold then_. apply within_bind. eapply guarded_mono; [|by apply Ha].
  intros new [[[[records1 [[]|x]] | x] s1]|y]; [|cbn..]; [|by intros [H _]|done..].
  intros [H1 H1']. specialize (H1' eq_refl). eapply guarded_mono; [|by apply Hb].
  intros new' [[[[records2 r2] | x] s2]|y]; [|done..]. intros [H2 H2']. split; [done|]. intros Er. rewrite (H2' Er), H1'.
  by rewrite <- app_assoc.
Qed.
Lemma adds_steps l ks : Forall2 adds l ks -> adds (steps l) (concat ks).
Proof.
  induction 1 as [|st k l ks Hst Hl IH]; [|by apply adds_then]. intros records past s Hr. split; [done|]. intros _. by rewrite app_nil_r.
Qed.

Lemma remove_record_last record records : remove_record record (records ++ [record]) ≡ₚ records.
Proof.
  induction records as [|r records IH]; cbn [app remove_record]; [by rewrite bool_decide_true|].
  destruct (bool_decide_reflect (r = record)) as [->|Hne]; [|by constructor]. by rewrite Permutation_app_comm.
Qed.

Section Steps.
Variables (plan : BackendPlan) (operation : DurableOperationIdentity).
Hypothesis operation_owns : forall kind name live, mine (owned operation kind name live).

Lemma made_by_key kind name r : made_by operation kind name r -> honest r /\ key r = (kind, name, true).
Proof using operation_owns. intros [live ->]. split; [intros _; apply operation_owns|done]. Qed.
Lemma adds_adopted kind name : adds (adding (mret (adopted kind name))) [(kind, name, false)].
Proof using Type. apply adds_adding, returns_ret. by split. Qed.

Lemma adds_bootstrap spec :
  (managed_image (ctr_image spec) = true -> ctr_role spec = "odoo" ->
   creatable (ctr_name (bootstrap_spec spec)) /\ removable (ctr_name (bootstrap_spec spec))) ->
  adds (bootstrap sha256 has_resolver plan operation spec) [].
Proof using operation_owns.
  intros Hname records past s Hr. unfold bootstrap.
  destruct (negb (managed_image (ctr_image spec) && bool_decide (ctr_role spec = "odoo") && pgdata_created plan records)) eqn:Hg.
  { split; [done|]. intros _. by rewrite app_nil_r. }
  apply negb_false_iff in Hg. rewrite !andb_true_iff, bool_decide_eq_true in Hg. destruct Hg as [[Hi Hro] _].
  destruct (Hname Hi Hro) as [Hc Hrm]. clear Hname.
  destruct (dget "POSTGRES_DB" (ctr_env spec)) as [database|]; [|by split].
  apply within_bind, within_adding. eapply guarded_mono; [|by apply container_returns].
  intros new [[[record|x] s1]|y] H; [|by split|done]. apply made_by_key in H as [Hh Hk]. cbn [fst snd].
  apply within_bind, within_checking. eapply guarded_mono.
  2:{ eapply (safe_bind (docker ["docker"; "wait"; ctr_name (bootstrap_spec spec)] true)); [stay|]. intros code.
      destruct (negb (bool_decide (strip code = "0"))); [stay|]. apply safe_bind; [|intros ?; stay].
      unfold docker. apply safe_bind; [|intros ?; stay]. apply safe_say. intros past'. split; [|done]. intros x [= <-]. by right. }
  intros new' [[[u|x] s2]|y] _; [| |done].
  2:{ split; [apply Forall_app; split; [done|by constructor]|by intros [=]]. }
  cbn [fst snd]. rewrite drop_app_length. cbn. split; [|intros _; rewrite app_nil_r; apply Permutation_map, remove_record_last].
  by rewrite remove_record_last.
Qed.

Variable inspected : list (string * option (list (string * json))).
Lemma adds_ensure_container spec :
  (is_absent inspected (ctr_name spec) = true -> creatable (ctr_name spec)) ->
  (is_absent inspected (ctr_name spec) = true -> managed_image (ctr_image spec) = true -> ctr_role spec = "odoo" ->
   creatable (ctr_name (bootstrap_spec spec)) /\ removable (ctr_name (bootstrap_spec spec))) ->
  adds (ensure_container sha256 has_resolver plan operation inspected spec)
    [("container", ctr_name spec, is_absent inspected (ctr_name spec))].
Proof using operation_owns.
  intros Hc Hb. unfold ensure_container. destruct (is_absent inspected (ctr_name spec)) eqn:Ea; [|apply adds_adopted].
  change [("container", ctr_name spec, true)] with ([] ++ [("container", ctr_name spec, true)]).
  apply adds_then; [by apply adds_bootstrap, Hb|]. apply adds_adding.
  eapply returns_mono; [|by apply container_returns, Hc]. intros r Hr. exact (made_by_key _ _ _ Hr).
Qed.
Lemma adds_create_or_adopt (m : mech OwnershipRecord) kind name :
  (is_absent inspected name = true -> returns m (made_by operation kind name)) ->
  adds (if is_absent inspected name then adding m else adding (mret (adopted kind name))) [(kind, name, is_absent inspected name)].
Proof using operation_owns.
  intros Hm. destruct (is_absent inspected name); [|apply adds_adopted]. apply adds_adding.
  eapply returns_mono; [|by apply Hm]. intros r Hr. exact (made_by_key _ _ _ Hr).
Qed.

(** The records [ensure_runtime] owes for a plan. *)
Definition owed : list (string * string * bool) :=
  map (fun '(kind, name, _) => (kind, name, is_absent inspected name)) (plan_resources plan).
Hypothesis absent_creatable : forall name, is_absent inspected name = true -> creatable name.
Hypothesis bootstrap_free : forall spec, spec ∈ [bp_postgres plan; bp_odoo plan] -> is_absent inspected (ctr_name spec) = true ->
  managed_image (ctr_image spec) = true -> ctr_role spec = "odoo" ->
  creatable (ctr_name (bootstrap_spec spec)) /\ removable (ctr_name (bootstrap_spec spec)).
Lemma adds_runtime_steps : adds (runtime_steps sha256 has_resolver plan operation inspected) owed.
Proof using operation_owns absent_creatable bootstrap_free.
  replace owed with (concat (map (fun k => [k]) owed)) by (induction owed; [done|cbn; by f_equal]).
  apply adds_steps. unfold owed, plan_resources. rewrite !map_app. cbn [map]. rewrite !map_map.
  change ([?a] ++ ?b) with (a :: b). constructor.
  { apply adds_create_or_adopt. intros Ha. unfold create_network, create_volume. apply create_returns; [apply elem_of_cons; by left|by apply absent_creatable]. }
  apply Forall2_app.
  - induction (bp_volumes plan) as [|v l IH]; cbn [map]; constructor; [|done].
    apply adds_create_or_adopt. intros Ha. unfold create_network, create_volume. apply create_returns; [apply elem_of_cons; right; apply elem_of_cons; by left|by apply absent_creatable].
  - constructor; [|constructor; [|constructor]]; apply adds_ensure_container; try by apply absent_creatable.
    all: apply bootstrap_free; set_solver.
Qed.
End Steps.
End Facts.

(** ** What only looks *)

Definition looks (R : Type) (e : mech_op R) : Prop := match e with Ssh _ mutating => mutating = false | _ => False end.
(** From this state a method only looks, leaves the state alone, and answers this. *)
Definition peeks {A : Type} (s : mech_state) (m : mech A) (P : A -> Prop) : Prop :=
  forall past, guarded (fun _ => looks) past (m s) (fun _ o => exists r, o = Ok (r, s) /\ forall a, r = Ok a -> P a).
Lemma peeks_mono {A : Type} s (m : mech A) (P P' : A -> Prop) : (forall a, P a -> P' a) -> peeks s m P -> peeks s m P'.
Proof. intros HP Hm past. eapply guarded_mono; [|apply Hm]. intros new o (r & -> & Hr). exists r. split; [done|]. intros a ->. by apply HP, Hr. Qed.
Lemma peeks_ret {A : Type} s (a : A) (P : A -> Prop) : P a -> peeks s (mret a) P.
Proof. intros Ha past. exists (Ok a). split; [done|]. by intros ? [= <-]. Qed.
Lemma peeks_lift {A : Type} s (r : result exn A) (P : A -> Prop) : (forall a, r = Ok a -> P a) -> peeks s (mlift r) P.
Proof. intros Hr past. by exists r. Qed.
Lemma peeks_bind {A B : Type} s (m : mech A) (k : A -> mech B) (P : A -> Prop) (Q : B -> Prop) :
  peeks s m P -> (forall a, P a -> peeks s (k a) Q) -> peeks s (mbind m k) Q.
Proof.
  intros Hm Hk past. apply guarded_bind. eapply guarded_mono; [|apply Hm]. intros new o ([a|x] & -> & Hr); [by apply Hk, Hr|].
  exists (Err x). split; [done|]. by intros a.
Qed.
Lemma peeks_docker s command : peeks s (docker command false) (fun _ => True).
Proof.
  intros past. apply guarded_bind, guarded_bind, guarded_attempt, guarded_call; [done|].
  intros [r|x]; eexists; by split.
Qed.
Lemma peeks_inspect s identifier kind : peeks s (inspect identifier kind) (fun _ => True).
Proof.
  unfold inspect, exists_. eapply peeks_bind.
  { eapply peeks_bind; [by apply (peeks_lift _ _ (fun _ => True))|]. intros argv _. eapply peeks_bind; [apply peeks_docker|].
    intros out _. by apply (peeks_ret _ _ (fun _ => True)). }
  intros [|] _; cbn [negb]; [|by apply peeks_ret]. eapply peeks_bind; [apply peeks_docker|]. intros out _.
  destruct (bool_decide (strip out = "")); [by apply peeks_ret|].
  eapply peeks_bind; [by apply (peeks_lift _ _ (fun _ => True))|]. intros entry _. by apply peeks_ret.
Qed.
Lemma peeks_map {A B : Type} s (f : A -> mech B) l : (forall x, peeks s (f x) (fun _ => True)) -> peeks s (mmap f l) (fun _ => True).
Proof.
  intros Hf. induction l as [|x l IH]; [by apply peeks_ret|]. eapply peeks_bind; [apply Hf|]. intros y _.
  eapply peeks_bind; [apply IH|]. intros ys _. by apply peeks_ret.
Qed.
Lemma peeks_each {A : Type} s (f : A -> mech unit) (P : A -> Prop) l :
  (forall x, peeks s (f x) (fun _ => P x)) -> peeks s (meach f l) (fun _ => Forall P l).
Proof.
  intros Hf. induction l as [|x l IH]; [by apply peeks_ret|]. eapply peeks_bind; [apply Hf|]. intros [] Hx.
  eapply peeks_mono; [|apply IH]. intros [] Hl. by constructor.
Qed.

(** Every resource that was found carries the labels of the plan and of the bound scope. *)
Definition validated (s : mech_state) (plan : BackendPlan) (inspected : list (string * option (list (string * json)))) : Prop :=
  Forall (fun '(_, name, labels) => validate_live name (default None (dget name inspected)) (expected_labels s labels) = Ok tt)
    (plan_resources plan).
Lemma peeks_preflight s plan : peeks s (preflight plan) (validated s plan).
Proof.
  unfold preflight. eapply peeks_bind.
  { apply peeks_map. intros [[kind name] labels]. eapply peeks_bind; [apply peeks_inspect|]. intros entry _. by apply peeks_ret. }
  intros found _. eapply peeks_bind; [apply peeks_each|]; cycle 1.
  { intros [] H. apply peeks_ret. exact H. }
  intros [[kind name] labels] past. exists (validate_live name (default None (dget name (dict_of found))) (expected_labels s labels)).
  split; [done|]. by intros [].
Qed.

(** ** The runtime *)

Section Runtime.
Variable sha256 : string -> string.
Variable has_resolver : bool.

(** The records of creations by an operation. *)
Definition creations (operation : DurableOperationIdentity) (r : OwnershipRecord) : Prop :=
  exists kind name live, r = owned operation kind name live.
(** The one-shot container that initialises the database of a managed Odoo image. *)
Definition bootstraps (plan : BackendPlan) (inspected : list (string * option (list (string * json)))) (name : string) : Prop :=
  exists spec, spec ∈ [bp_postgres plan; bp_odoo plan] /\ is_absent inspected (ctr_name spec) = true /\
    managed_image (ctr_image spec) = true /\ ctr_role spec = "odoo" /\ name = ctr_name spec +:+ "-bootstrap".
(** What [ensure_runtime] may do once these resources have been found. *)
Definition runtime_permits operation plan inspected : mech_history -> forall R, mech_op R -> Prop :=
  permitted sha256 (creations operation) (bootstraps plan inspected)
    (fun name => is_absent inspected name = true \/ bootstraps plan inspected name).
Definition runtime_answers operation plan inspected (o : result exn (result exn (list OwnershipRecord) * mech_state)) : Prop :=
  match o with
  | Ok (Ok records, _) => map key records ≡ₚ owed plan inspected /\ Forall (fun r => is_created r = true -> creations operation r) records
  | _ => True
  end.

Lemma ensure_guarded plan operation inspected past s :
  guarded (runtime_permits operation plan inspected) past
    ((let+ built := runtime_steps sha256 has_resolver plan operation inspected [] in
      match built.2 with
      | Ok _ => mret built.1
      | Err e =>
        if unknown_outcome e then mraise e else
        destroy_owned sha256 (List.filter is_created built.1) ;+ cleanup_secret_paths ;+ mraise e
      end)%mech s) (fun _ => runtime_answers operation plan inspected).
Proof.
  apply within_bind. eapply guarded_mono; [|apply (adds_runtime_steps sha256 has_resolver (creations operation)); [..|constructor]].
  2:{ intros kind name live. by exists kind, name, live. }
  2:{ intros name Ha. by left. }
  2:{ intros spec Hs Ha Hi Hr. split; [right|]; by exists spec. }
  intros new [[[[records r]|x] s1]|y]; [|done..]. intros [Hh Hk]. cbn [fst snd]. destruct r as [[]|e].
  { split; [by rewrite (Hk eq_refl)|exact Hh]. }
  destruct (unknown_outcome e); [done|]. apply within_bind, destroy_owned_within.
  { rewrite Forall_forall in Hh |- *. intros r [Hr Hc]%list_elem_of_In%filter_In. apply Hh; [by apply list_elem_of_In|done]. }
  intros new' [[[u|x] s2]|y]; [|done..]. apply within_bind. eapply guarded_mono; [|apply safe_cleanup].
  by intros new'' [[[v|x] s3]|y] _.
Qed.

(** C23. [ensure_runtime] first looks at every resource of the plan, changing nothing; when one of
    them is not the plan's (its labels differ) or cannot be read, nothing is ever changed.  After
    that it creates only resources that were absent (and the bootstrap container of a managed
    Odoo), and removes only that bootstrap container and what the live inspection proves this
    operation created; the records it answers are exactly the plan's resources, created where
    the resource was absent and adopted where it was found. *)
Theorem remote_runtime_is_its_own plan operation s tr o :
  runs (ensure_runtime sha256 has_resolver plan operation s) tr o ->
  exists pre rest found,
    tr = pre ++ rest /\ runs (preflight plan s) pre (Ok (found, s)) /\ Forall (event_sat looks) pre /\
    match found with
    | Err x => rest = [] /\ o = Ok (Err x, s)
    | Ok inspected =>
      validated s plan inspected /\ runtime_answers operation plan inspected o /\
      forall past R (e : mech_op R) r later, rest = past ++ Event e r :: later -> runtime_permits operation plan inspected past R e
    end.
Proof.
  unfold ensure_runtime, mbind at 1. intros [(pre & rest & [found s1] & -> & Hpre & Hrest)|(x & -> & Hpre)]%runs_bind.
  all: destruct (guarded_runs _ _ _ _ _ _ (peeks_preflight s plan []) Hpre) as [(r & Ho & Hr) Hl].
  2:{ discriminate Ho. }
  injection Ho as -> ->. exists pre, rest, r. split_and!; [done|done| |].
  { apply Forall_forall. intros [R e r'] (l1 & l2 & ->)%list_elem_of_split. by apply (Hl l1 R e r' l2). }
  destruct r as [inspected|x].
  - destruct (guarded_runs _ [] _ _ _ _ (ensure_guarded plan operation inspected [] s) Hrest) as [Ha Hs].
    split_and!; [by apply Hr|exact Ha|exact Hs].
  - by apply runs_Ret in Hrest.
Qed.
End Runtime.

(** ** A small VPS *)

(** Its resources by name, and whether [docker run] fails. *)
Record vps : Type := mkVps { vps_objects : list (string * list (string * json)); vps_broken : bool }.
Fixpoint labels_given (argv : list string) : list (string * json) :=
  match argv with
  | [] => []
  | flag :: rest =>
    match rest with
    | kv :: _ => if bool_decide (flag = "--label")
                 then match cut_first "="%char (chars kv) with Some (k, v) => [(str k, JStr (str v))] | None => [] end
                 else []
    | [] => []
    end ++ labels_given rest
  end.
Definition new_object (command : list string) (name : string) : list (string * json) :=
  let labels := JObj (labels_given command) in
  if bool_decide (take 2 command = ["docker"; "run"])
  then [("Id", JStr ("id-" +:+ name)); ("Name", JStr ("/" +:+ name)); ("State", JObj [("Running", JBool true)]);
        ("Config", JObj [("Image", JStr "image"); ("Labels", labels)])]
  else [("Id", JStr ("id-" +:+ name)); ("Name", JStr name); ("Labels", labels)].
Definition found (name : string) (v : vps) : list json := match dget name (vps_objects v) with Some d => [JObj d] | None => [] end.
Definition vps_answer (command : list string) (v : vps) : CommandResult * vps :=
  match creates command, removes command with
  | Some name, _ =>
    if vps_broken v && bool_decide (take 2 command = ["docker"; "run"]) then (mkCommandResult 125 "" "no such image", v)
    else (mkCommandResult 0 (if bool_decide (take 2 command = ["docker"; "volume"]) then name else "id-" +:+ name) "",
          mkVps (vps_objects v ++ [(name, new_object command name)]) (vps_broken v))
  | None, Some x =>
    (mkCommandResult 0 x "",
     mkVps (List.filter (fun kv => negb (bool_decide (kv.1 = x \/ "id-" +:+ kv.1 = x))) (vps_objects v)) (vps_broken v))
  | None, None =>
    if bool_decide (take 2 command = ["docker"; "inspect"])
    then let entries := concat (map (fun name => found name v) (drop 2 command)) in
         (mkCommandResult (if bool_decide (length entries = length (drop 2 command)) then 0 else 1) (dumps_compact (JArr entries)) "", v)
    else if bool_decide (command !! 2 = Some "ls")
         then (mkCommandResult 0 (join "" (map (fun kv => if bool_decide (last command = Some ("name=^" +:+ kv.1 +:+ "$")) then "id" else "")
                 (vps_objects v))) "", v)
    else (mkCommandResult 0 (if bool_decide (command !! 1 = Some "wait") then "0" else "") "", v)
  end.
Definition vps_handler : handler (E := mech_op) (X := exn) vps :=
  fun R e => match e in mech_op R return vps -> result exn R * vps with
             | Ssh command _ => fun v => let '(r, v') := vps_answer command v in (Ok r, v')
             | Upload _ _ => fun v => (Ok (mkCommandResult 0 "" ""), v)
             | ResolveHandle _ => fun v => (Ok "secret", v)
             | MonotonicNow => fun v => (Ok 0%Z, v)
             | SleepSecond => fun v => (Ok tt, v)
             | UrlStatus _ => fun v => (Ok 200%Z, v)
             | AddrInfo _ => fun v => (Ok ["192.0.2.7"], v)
             end.

Definition shop_labels : list (string * string) := labels "shop" "dev" None.
Definition shop_plan : BackendPlan :=
  mkBackendPlan (mkNetworkSpec "net" shop_labels) [mkVolumeSpec "data" shop_labels]
    (mkContainerSpec "pg" "postgres:16" "postgres" "net" [] [] [] shop_labels [mkVolumeSpec "data" shop_labels] "127.0.0.1" [])
    (mkContainerSpec "odoo" "odoo-forge-odoo:17" "odoo" "net" [("POSTGRES_DB", "shop")] [] [] shop_labels [] "127.0.0.1" [("8069", None)])
    None.
Definition shop_operation : DurableOperationIdentity := mkDurableOperationIdentity "op-1" "digest".
Definition shop_state : mech_state := mkMechState None None [] [].
Definition one_digest (text : string) : string := "digest".
Definition shop_run := exec vps_handler (ensure_runtime one_digest true shop_plan shop_operation shop_state) (mkVps [] false).

Lemma remote_runtime_is_its_own_witness :
  map (fun ev => match ev with Event (Ssh command _) _ => take 3 command | _ => [] end)
    (List.filter (fun ev => match ev with Event (Ssh _ mutating) _ => mutating | _ => false end) shop_run.1.2) =
  [["docker"; "network"; "create"]; ["docker"; "volume"; "create"]; ["docker"; "run"; "-d"]; ["docker"; "run"; "-d"];
   ["docker"; "wait"; "odoo-bootstrap"]; ["docker"; "rm"; "-f"]; ["docker"; "run"; "-d"]] /\
  exists pre rest found, shop_run.1.2 = pre ++ rest /\ runs (preflight shop_plan shop_state) pre (Ok (found, shop_state)).
Proof.
  split; [vm_compute; reflexivity|].
  destruct (remote_runtime_is_its_own one_digest true shop_plan shop_operation shop_state shop_run.1.2 shop_run.1.1
              (exec_runs vps_handler (ensure_runtime one_digest true shop_plan shop_operation shop_state) (mkVps [] false)))
    as (pre & rest & found & Htr & Hpre & _).
  exact (ex_intro _ pre (ex_intro _ rest (ex_intro _ found (conj Htr Hpre)))).
Defined.

Definition shop_records : list OwnershipRecord := match shop_run.1.1 with Ok (Ok records, _) => records | _ => [] end.
Definition shop_ref : InstanceRef := mkInstanceRef "shop" "dev" "net" "pg" "odoo".
Definition shop_destroy := exec vps_handler (destroy one_digest shop_ref shop_records shop_state) shop_run.2.
(** Destroying what was created leaves an empty VPS. *)
Example shop_is_gone : vps_objects shop_destroy.2 = [].
Proof. vm_compute. reflexivity. Qed.
