(* ===== verification/VpsExitCodes.v ===== *)
(** * The exit codes of remote commands

    [RemoteDockerMechanics._run] keeps only the standard output of a command.  [eyeless] says that
    a method behaves the same whatever exit code and error output every command had; the rules
    follow the shape of the methods. *)

From S2P Require Import Prelude Effects Values Json Backend VpsTransport VpsMechanics.

(** The continuation of a command sees its output only. *)
Definition sees_output {A R : Type} (e : mech_op R) : (result exn R -> prog mech_op exn A) -> Prop :=
  match e in mech_op R return (result exn R -> prog mech_op exn A) -> Prop with
  | Ssh _ _ => fun k => forall a b, cmd_stdout a = cmd_stdout b -> k (Ok a) = k (Ok b)
  | _ => fun _ => True
  end.
Fixpoint blind {A : Type} (p : prog mech_op exn A) : Prop :=
  match p with
  | Call e k => sees_output e k /\ forall r, blind (k r)
  | _ => True
  end.
Definition eyeless {A : Type} (m : mech A) : Prop := forall s, blind (m s).

Lemma blind_bind {A B : Type} (p : prog mech_op exn A) (k : A -> prog mech_op exn B) :
  blind p -> (forall a, blind (k a)) -> blind (bind p k).
Proof.
  intros Hp Hk. induction p as [a|x|R e c IH]; [apply Hk|done|]. destruct Hp as [He Hc]. split; [|intros r; by apply IH].
  destruct e; [|done..]. intros a b Hab. cbn. by rewrite (He a b Hab).
Qed.

(** Another exit code and error output for every command that ran. *)
Definition recoded (code : CommandResult -> Z) (stderr : CommandResult -> string) (r : CommandResult) : CommandResult :=
  mkCommandResult (code r) (cmd_stdout r) (stderr r).
Definition recode code stderr (ev : event mech_op exn) : event mech_op exn :=
  match ev with
  | Event e r => Event e (match e in mech_op R return result exn R -> result exn R with
                          | Ssh _ _ => fun r => match r with Ok c => Ok (recoded code stderr c) | Err x => Err x end
                          | _ => fun r => r
                          end r)
  end.
Lemma blind_recode {A : Type} code stderr (p : prog mech_op exn A) tr o : blind p -> runs p tr o -> runs p (map (recode code stderr) tr) o.
Proof.
  intros Hp. revert tr. induction p as [a|x|R e k IH]; intros tr.
  - by intros [-> ->]%runs_Ret.
  - by intros [-> ->]%runs_Raise.
  - intros (r & tr' & -> & Hr)%runs_Call. destruct Hp as [He Hk]. cbn [map recode]. apply runs_Call. eexists _, _. split; [done|].
    apply (IH r) in Hr; [|apply Hk]. destruct e; [|exact Hr..]. destruct r as [c|x]; [|exact Hr].
    by rewrite (He (recoded code stderr c) c eq_refl).
Qed.

(** ** Rules *)

Lemma eyeless_lift {A : Type} (r : result exn A) : eyeless (mlift r).
Proof. done. Qed.
Lemma eyeless_ret {A : Type} (a : A) : eyeless (mret a).
Proof. done. Qed.
Lemma eyeless_raise {A : Type} (x : exn) : eyeless (A := A) (mraise x).
Proof. done. Qed.
Lemma eyeless_get : eyeless mget.
Proof. done. Qed.
Lemma eyeless_modify f : eyeless (mmodify f).
Proof. done. Qed.
Lemma eyeless_bind {A B : Type} (m : mech A) (k : A -> mech B) : eyeless m -> (forall a, eyeless (k a)) -> eyeless (mbind m k).
Proof. intros Hm Hk s. apply blind_bind; [apply Hm|]. intros [[a|x] s']; [apply Hk|done]. Qed.
Lemma eyeless_catch {A : Type} (m : mech A) h : eyeless m -> (forall x, eyeless (h x)) -> eyeless (mcatch m h).
Proof. intros Hm Hk s. apply blind_bind; [apply Hm|]. intros [[a|x] s']; [done|apply Hk]. Qed.
Lemma eyeless_finally {A : Type} (m : mech A) cleanup : eyeless m -> eyeless cleanup -> eyeless (mfinally m cleanup).
Proof.
  intros Hm Hc s. apply blind_bind; [apply Hm|]. intros [r s']. apply blind_bind; [apply Hc|]. by intros [[u|x] s''].
Qed.
Lemma eyeless_docker command mutating : eyeless (docker command mutating).
Proof. intros s. split; [|by intros [r|x]]. intros a b Hab. change (mret (cmd_stdout a) s = mret (cmd_stdout b) s). by rewrite Hab. Qed.
Lemma eyeless_remove command mutating : eyeless (say (Ssh command mutating) ;+ mret tt)%mech.
Proof. intros s. split; [done|]. by intros [r|x]. Qed.
Lemma eyeless_say {R : Type} (e : mech_op R) : (match e with Ssh _ _ => False | _ => True end) -> eyeless (say e).
Proof. intros He s. destruct e; [done|..]; (split; [done|]; by intros [r|x]). Qed.
Lemma eyeless_each {A : Type} (f : A -> mech unit) l : (forall x, eyeless (f x)) -> eyeless (meach f l).
Proof. intros Hf. induction l as [|x l IH]; [done|]. apply eyeless_bind; [apply Hf|done]. Qed.
Lemma eyeless_map {A B : Type} (f : A -> mech B) l : (forall x, eyeless (f x)) -> eyeless (mmap f l).
Proof. intros Hf. induction l as [|x l IH]; [done|]. apply eyeless_bind; [apply Hf|]. intros y. by apply eyeless_bind. Qed.

Create HintDb eyeless.
#[local] Hint Resolve eyeless_lift eyeless_ret eyeless_raise eyeless_get eyeless_modify eyeless_docker eyeless_remove : eyeless.
#[local] Hint Extern 2 (eyeless (say _)) => apply eyeless_say; exact I : eyeless.
(** Follow the shape of a method. *)
Ltac close_eyes := repeat first
  [ solve [auto 2 with eyeless nocore] | apply eyeless_bind; [|intros ?] | apply eyeless_catch; [|intros ?] | apply eyeless_finally
  | apply eyeless_each; intros ? | apply eyeless_map; intros ? ].

Section Methods.
Variable sha256 : string -> string.
Variable has_resolver : bool.

Lemma eyeless_exists kind identifier : eyeless (exists_ kind identifier).
Proof. unfold exists_. close_eyes. Qed.
#[local] Hint Resolve eyeless_exists : eyeless.
Lemma eyeless_inspect identifier kind : eyeless (inspect identifier kind).
Proof. unfold inspect. close_eyes. destruct (negb _); close_eyes. destruct (bool_decide _); close_eyes. Qed.
#[local] Hint Resolve eyeless_inspect : eyeless.
Lemma eyeless_preflight plan : eyeless (preflight plan).
Proof. unfold preflight. close_eyes; destruct x as [[kind name] labels]; close_eyes. Qed.
Lemma eyeless_validate_scope plan scope : eyeless (validate_scope plan scope).
Proof.
  unfold validate_scope, bind_scope, inspect_and_validate. destruct (negb _); close_eyes. destruct x as [[kind name] labels]. close_eyes.
Qed.
Lemma eyeless_create argv labels operation kind name : eyeless (create sha256 argv labels operation kind name).
Proof. unfold create. close_eyes. Qed.
Lemma eyeless_discard path : eyeless (discard_secret path).
Proof. unfold discard_secret. close_eyes. Qed.
#[local] Hint Resolve eyeless_preflight eyeless_create eyeless_discard : eyeless.
Lemma eyeless_cleanup : eyeless cleanup_secret_paths.
Proof. unfold cleanup_secret_paths. close_eyes. Qed.
Lemma eyeless_stage content path : eyeless (stage_secret content path).
Proof. unfold stage_secret. close_eyes. Qed.
#[local] Hint Resolve eyeless_cleanup eyeless_stage : eyeless.
Lemma eyeless_secret_args spec secrets : eyeless (secret_args sha256 has_resolver spec secrets).
Proof.
  unfold secret_args. destruct secrets as [|kv secrets]; [close_eyes|]. generalize (kv :: secrets). intros l.
  destruct (negb has_resolver); [close_eyes|]. destruct (bool_decide _); close_eyes; destruct x as [k handle]; close_eyes.
Qed.
#[local] Hint Resolve eyeless_secret_args : eyeless.
Lemma eyeless_container spec operation creds command : eyeless (container_command sha256 has_resolver spec operation creds command).
Proof. unfold container_command. close_eyes. Qed.
#[local] Hint Resolve eyeless_container : eyeless.
Lemma eyeless_proves record : eyeless (proves_created sha256 record).
Proof.
  unfold proves_created. destruct (negb _); [close_eyes|]. destruct (own_receipt record) as [receipt|]; [|close_eyes].
  destruct (or_owned_resource_ids receipt) as [|live [|]]; close_eyes. by destruct a.
Qed.
#[local] Hint Resolve eyeless_proves : eyeless.
Lemma eyeless_destroy ref records : eyeless (destroy sha256 ref records).
Proof.
  unfold destroy, destroy_owned, destroy_one. close_eyes. destruct (delete_command _); close_eyes. destruct a; close_eyes.
Qed.
#[local] Hint Resolve eyeless_destroy : eyeless.

Definition eyeless_step (st : step) : Prop := forall records, eyeless (st records).
Lemma step_adding m : eyeless m -> eyeless_step (adding m).
Proof. intros Hm records s. apply blind_bind; [apply Hm|]. by intros [[r|x] s']. Qed.
Lemma step_checking m : eyeless m -> eyeless_step (checking m).
Proof. intros Hm records s. apply blind_bind; [apply Hm|]. by intros [r s']. Qed.
Lemma step_then a b : eyeless_step a -> eyeless_step b -> eyeless_step (then_ a b).
Proof. intros Ha Hb records. unfold then_. apply eyeless_bind; [apply Ha|]. intros [records' [u|x]]; [apply Hb|done]. Qed.
Lemma step_all l : Forall eyeless_step l -> eyeless_step (steps l).
Proof. induction 1 as [|st l Hst Hl IH]; [done|]. by apply step_then. Qed.
Lemma step_bootstrap plan operation spec : eyeless_step (bootstrap sha256 has_resolver plan operation spec).
Proof.
  intros records. unfold bootstrap. destruct (negb _); [close_eyes|]. destruct (dget _ _); [|close_eyes].
  apply eyeless_bind; [apply step_adding, eyeless_container|]. intros [ran [u|x]]; [|close_eyes].
  apply eyeless_bind; [|intros [waited [v|x]]; [|close_eyes]].
  - apply step_checking. apply eyeless_bind; [close_eyes|]. intros code. destruct (negb _); close_eyes.
  - cbn [fst snd]. destruct (drop _ _) as [|record [|]]; close_eyes.
Qed.
Lemma step_runtime plan operation inspected : eyeless_step (runtime_steps sha256 has_resolver plan operation inspected).
Proof.
  assert (Hadopt : forall kind name, eyeless_step (adding (mret (adopted kind name)))) by (intros kind name; by apply step_adding).
  assert (Hctr : forall spec, eyeless_step (ensure_container sha256 has_resolver plan operation inspected spec)).
  { intros spec. unfold ensure_container. destruct (is_absent _ _); [|apply Hadopt].
    apply step_then; [apply step_bootstrap|apply step_adding, eyeless_container]. }
  apply step_all, Forall_app; split; [|apply Forall_app; split]; [| |by repeat constructor].
  - unfold create_network. constructor; [|done]. destruct (is_absent _ _); [apply step_adding, eyeless_create|apply Hadopt].
  - apply Forall_map, Forall_forall. intros v _. unfold compose, create_volume.
    destruct (is_absent _ _); [apply step_adding, eyeless_create|apply Hadopt].
Qed.
Lemma eyeless_ensure plan operation : eyeless (ensure_runtime sha256 has_resolver plan operation).
Proof.
  unfold ensure_runtime. apply eyeless_bind; [close_eyes|]. intros inspected. apply eyeless_bind; [apply step_runtime|].
  intros [records [u|e]]; cbn [fst snd]; [close_eyes|]. destruct (unknown_outcome e); [close_eyes|].
  apply eyeless_bind; [|intros ?; close_eyes]. apply (eyeless_destroy (mkInstanceRef "" "" "" "" "")).
Qed.

Lemma eyeless_await fuel deadline ref : eyeless (await_ready fuel deadline ref).
Proof.
  induction fuel as [|fuel IH]; [close_eyes|]. cbn [await_ready]. apply eyeless_bind; [close_eyes|]. intros output.
  apply eyeless_bind; [close_eyes|]. intros [| |[| | | |image| | ]]; try close_eyes.
  - destruct (deadline <=? _)%Z; close_eyes.
  - destruct (negb (managed_image image)); close_eyes.
Qed.
Lemma eyeless_ready fuel ref : eyeless (runtime_ready fuel ref).
Proof. unfold runtime_ready. apply eyeless_finally; [|close_eyes]. apply eyeless_bind; [close_eyes|]. intros now. apply eyeless_await. Qed.
Lemma eyeless_status ref : eyeless (runtime_status ref).
Proof. unfold runtime_status. apply eyeless_bind; [close_eyes|]. intros output. destruct (loads output); close_eyes. Qed.
Lemma eyeless_http hostname : eyeless (verify_http hostname).
Proof. unfold verify_http. close_eyes. destruct x; close_eyes. Qed.
Lemma eyeless_dns hostname target : eyeless (verify_dns hostname target).
Proof. unfold verify_dns. close_eyes. Qed.
Lemma eyeless_stop ref : eyeless (stop ref).
Proof. unfold stop. close_eyes. Qed.
Lemma eyeless_logs ref role : eyeless (logs ref role).
Proof. unfold logs. close_eyes. Qed.
Lemma eyeless_exec ref argv : eyeless (exec_ ref argv).
Proof. unfold exec_. close_eyes. Qed.
Lemma eyeless_validate_exposure ref scope pointer : eyeless (validate_exposure ref scope pointer).
Proof.
  unfold validate_exposure, bind_scope, inspect_and_validate. apply eyeless_bind; [close_eyes|]. intros s. destruct (_ || _); close_eyes.
Qed.
End Methods.
