(* ===== verification/VpsProviderFacts.v ===== *)
(** * Properties of the VPS backend *)

From S2P Require Import Prelude Effects Values Json Backend Durable DockerBackend RemoteDeployment VpsTransport VpsMechanics VpsMechanicsFacts VpsProvider.

Abbreviation vps_history := (list (event vps_op exn)).

(** ** Requests *)

Inductive vps_request : Type :=
| RunVps (plan : BackendPlan)
| StatusVps (ref : InstanceRef)
| StopVps (ref : InstanceRef)
| DestroyVps (ref : InstanceRef)
| LogsVps (ref : InstanceRef) (role : string)
| ExecVps (ref : InstanceRef) (argv : list string)
| ReconcileVps (request : ExposureRequest).
Definition verb_of (q : vps_request) : string :=
  match q with
  | RunVps _ => "run" | StatusVps _ => "status" | StopVps _ => "stop" | DestroyVps _ => "destroy" | LogsVps _ _ => "logs"
  | ExecVps _ _ => "exec" | ReconcileVps _ => "reconcile"
  end.
Definition payload_of (q : vps_request) : payload :=
  match q with
  | RunVps plan => PlanPayload plan | StatusVps ref | StopVps ref | DestroyVps ref => RefPayload ref
  | LogsVps ref role => RolePayload ref role | ExecVps ref argv => ExecPayload ref argv | ReconcileVps xq => ExposurePayload xq
  end.
Definition ref_of (q : vps_request) : option InstanceRef :=
  match q with
  | RunVps _ => None | StatusVps ref | StopVps ref | DestroyVps ref | LogsVps ref _ | ExecVps ref _ => Some ref
  | ReconcileVps xq => Some (xq_instance xq)
  end.
(** The credentials a request would use. *)
Definition handles_of (q : vps_request) : list string :=
  match q with
  | RunVps plan => map snd (ctr_secret_env (bp_odoo plan)) ++
      match bp_postgres_credentials plan with Some h => if bool_decide (h = "") then [] else [h] | None => [] end
  | _ => []
  end.

(** ** What has happened *)

(** No outcome has been recorded, and no command has left the remote side in doubt. *)
Definition steady_event (ev : event vps_op exn) : Prop :=
  match ev with
  | Event e r =>
    match e, r with CommitTerminalOp _ _, Ok _ => False | _, Ok _ => True | _, Err x => unknown_outcome x = false end
  end.
Definition steady (past : vps_history) : Prop := Forall steady_event past.
Definition in_doubt (past : vps_history) : Prop := exists R (e : vps_op R) x, Event e (Err x) ∈ past /\ unknown_outcome x = true.
Definition recorded (past : vps_history) (outcome : LifecycleState) : Prop :=
  exists id bundle record, Event (CommitTerminalOp id bundle) (Ok record) ∈ past /\ tc_outcome bundle = outcome.
Definition attempted (past : vps_history) (outcome : LifecycleState) : Prop :=
  exists id bundle r, Event (CommitTerminalOp id bundle) r ∈ past /\ tc_outcome bundle = outcome.
(** The resources [ensure_runtime] reported, and the route [ensure_http] did. *)
Definition ensured (ev : event vps_op exn) : option (list OwnershipRecord) :=
  match ev with
  | Event e r => match e in vps_op R return result exn R -> option (list OwnershipRecord) with
                 | EnsureRuntime _ _ => fun r => match r with Ok records => Some records | Err _ => None end
                 | _ => fun _ => None
                 end r
  end.
Definition routed (ev : event vps_op exn) : option OwnershipRecord :=
  match ev with
  | Event e r => match e in vps_op R return result exn R -> option OwnershipRecord with
                 | EnsureHttp _ _ _ => fun r => match r with Ok route => Some route | Err _ => None end
                 | _ => fun _ => None
                 end r
  end.
(** The operation as the store has it. *)
Definition stored (ev : event vps_op exn) : option DurableOperationRecord :=
  match ev with
  | Event e r => match e in vps_op R return result exn R -> option DurableOperationRecord with
                 | CreateOrLoadOp _ | SaveCheckpointOp _ _ _ => fun r => match r with Ok record => Some record | Err _ => None end
                 | _ => fun _ => None
                 end r
  end.
Definition answered (past : vps_history) (record : DurableOperationRecord) : Prop := exists ev, ev ∈ past /\ stored ev = Some record.
Definition provisioned (past : vps_history) (records : list OwnershipRecord) : Prop := exists ev, ev ∈ past /\ ensured ev = Some records.
Definition has_route (past : vps_history) (route : OwnershipRecord) : Prop := exists ev, ev ∈ past /\ routed ev = Some route.

Lemma steady_snoc past R (e : vps_op R) r : steady past -> steady_event (Event e r) -> steady (past ++ [Event e r]).
Proof. intros Hp He. apply Forall_app. split; [done|]. by apply Forall_singleton. Qed.
Lemma seen_snoc (past : vps_history) ev : ev ∈ past ++ [ev].
Proof. apply elem_of_app. right. by left. Qed.
Lemma seen_app (past : vps_history) new ev : ev ∈ past -> ev ∈ past ++ new.
Proof. intros H. apply elem_of_app. by left. Qed.
#[local] Hint Resolve seen_snoc seen_app : core.
Lemma answered_app past new record : answered past record -> answered (past ++ new) record.
Proof. intros (ev & He & Hs). exists ev. auto. Qed.
Lemma provisioned_app past new records : provisioned past records -> provisioned (past ++ new) records.
Proof. intros (ev & He & Hs). exists ev. auto. Qed.
Lemma route_app past new route : has_route past route -> has_route (past ++ new) route.
Proof. intros (ev & He & Hs). exists ev. auto. Qed.
#[local] Hint Resolve answered_app provisioned_app route_app : core.
Lemma provisioned_snoc past ev records : provisioned (past ++ [ev]) records <-> provisioned past records \/ ensured ev = Some records.
Proof.
  unfold provisioned. setoid_rewrite elem_of_app. setoid_rewrite list_elem_of_singleton. split.
  - intros (e & [He| ->] & Hr); [left; by exists e|by right].
  - intros [(e & He & Hr)|Hr]; [exists e|exists ev]; auto.
Qed.
Lemma route_snoc past ev route : has_route (past ++ [ev]) route <-> has_route past route \/ routed ev = Some route.
Proof.
  unfold has_route. setoid_rewrite elem_of_app. setoid_rewrite list_elem_of_singleton. split.
  - intros (e & [He| ->] & Hr); [left; by exists e|by right].
  - intros [(e & He & Hr)|Hr]; [exists e|exists ev]; auto.
Qed.
Lemma doubt_or_steady past R (e : vps_op R) x :
  steady past -> (unknown_outcome x = true -> in_doubt (past ++ [Event e (Err x)])) /\
                 (unknown_outcome x = false -> steady (past ++ [Event e (Err x)])).
Proof.
  intros Hp. split; intros Hx; [by exists R, e, x|]. apply steady_snoc; [done|]. by destruct e.
Qed.

(** Something went wrong: a call, the readiness of the runtime, or a value that the durable
    evidence or the result of an exposure refuses. *)
Inductive failure (past : vps_history) : Prop :=
| call_failed R (e : vps_op R) x : Event e (Err x) ∈ past -> failure past
| runtime_not_ready ref : Event (RuntimeReady ref) (Ok false) ∈ past -> failure past
| identifiers_refused owned x : provisioned past owned ->
    redacted_evidence "runtime" "managed runtime reconciled" (map (fun o => rr_identifier (own_ref o)) owned) = Err x -> failure past
| owners_refused owned x : provisioned past owned \/ (exists route, has_route past route /\ owned = [route]) ->
    ownership_evidence owned = Err x -> failure past
| no_evidence record : answered past record -> do_recovery_evidence record = [] -> failure past
| exposure_refused record route http dns x : answered past record -> has_route past route ->
    exposure_of record route http dns = Err x -> failure past.
Lemma failure_app past new : failure past -> failure (past ++ new).
Proof.
  intros [R e x He|ref He|owned x Hp Hx|owned x Hp Hx|record Ha Hr|record route http dns x Ha Hr Hx].
  - eapply call_failed; eauto.
  - eapply runtime_not_ready; eauto.
  - eapply identifiers_refused; eauto.
  - eapply owners_refused; [|exact Hx]. destruct Hp as [Hp|(route & Hr & Ho)]; eauto 6.
  - eapply no_evidence; eauto.
  - eapply exposure_refused; eauto.
Qed.
#[local] Hint Resolve failure_app : core.

Section Facts.
Variable sha256 : string -> string.
Variable dump_payload : payload -> json.
Variable dump_scope : ProjectScope -> json.
Variable offers : string -> bool.
Variable binding : VpsOperationBinding.

Definition serve (q : vps_request) : vps_prog unit :=
  match q with
  | RunVps plan => run sha256 dump_payload dump_scope offers binding plan ;* Ret tt
  | StatusVps ref => status sha256 dump_payload dump_scope binding ref ;* Ret tt
  | StopVps ref => stop sha256 dump_payload dump_scope binding ref
  | DestroyVps ref => destroy sha256 dump_payload dump_scope binding ref ;* Ret tt
  | LogsVps ref role => logs sha256 dump_payload dump_scope binding ref role ;* Ret tt
  | ExecVps ref argv => exec_in sha256 dump_payload dump_scope binding ref argv ;* Ret tt
  | ReconcileVps xq => reconcile sha256 dump_payload dump_scope offers binding xq ;* Ret tt
  end.

(** The request is the one the operation was bound to. *)
Definition bound (q : vps_request) : Prop :=
  vb_verb binding = verb_of q /\
  matches_request_digest (vb_operation binding) (request_digest sha256 dump_payload dump_scope binding (payload_of q)) = true /\
  (forall ref, ref_of q = Some ref -> ir_project ref = project_id (vb_scope binding)) /\
  (handles_of q <> [] -> handles_of q = vb_credential_handles binding).
(** The exposure that is asked for, in the scope the operation was bound to. *)
Definition exposes (xq : ExposureRequest) (host : string) : Prop :=
  exists exposure, ds_exposure (xq_deployment xq) = Some exposure /\ xi_hostname exposure = host.
Definition in_scope (q : vps_request) : Prop :=
  match q with
  | ReconcileVps xq =>
    (exists host, exposes xq host) /\
    xq_scope xq = vb_scope binding /\ ptr_scope (ds_pointer (xq_deployment xq)) = vb_scope binding /\
    instance_value (ptr_instance_id (ds_pointer (xq_deployment xq))) = ir_instance (xq_instance xq) /\
    rr_identifier (ds_resource (xq_deployment xq)) = ir_network (xq_instance xq)
  | _ => True
  end.
Definition approved (q : vps_request) : Prop := bound q /\ in_scope q.
Definition loaded (past : vps_history) (record : DurableOperationRecord) : Prop :=
  Event (CreateOrLoadOp (vb_operation binding)) (Ok record) ∈ past.
(** The store said that the operation is not finished. *)
Definition unfinished (past : vps_history) : Prop := exists record, loaded past record /\ finished record = false.
(** A command on the stored operation, at the revision the store gave. *)
Definition on_stored (past : vps_history) (id : string) (revision : OperationRevision) : Prop :=
  exists record, answered past record /\ id = operation_id (do_identity record) /\ revision = do_revision record.

(** Why an effect of this request is right. *)
Definition justified (q : vps_request) (past : vps_history) (R : Type) (e : vps_op R) : Prop :=
  match e with
  | CreateOrLoadOp op => op = vb_operation binding
  | SaveCheckpointOp id revision _ => on_stored past id revision
  | BindScope scope instance =>
    scope = vb_scope binding /\
    match q with
    | RunVps plan => exists ref, instance_ref plan = Ok ref /\ instance = ir_instance ref
    | ReconcileVps xq => instance = ir_instance (xq_instance xq)
    | _ => False
    end
  | ValidateScope plan scope => q = RunVps plan /\ scope = vb_scope binding
  | ValidateExposure ref scope pointer => exists xq, q = ReconcileVps xq /\ ref = xq_instance xq /\ scope = vb_scope binding /\
      pointer = pointer_text (ds_pointer (xq_deployment xq))
  | EnsureRuntime plan op => q = RunVps plan /\ exists record, loaded past record /\ finished record = false /\ op = do_identity record
  | RuntimeReady ref => exists plan, q = RunVps plan /\ instance_ref plan = Ok ref /\ exists records, provisioned past records
  | RuntimeStatus ref => q = StatusVps ref
  | EnsureHttp ref host op => exists xq, q = ReconcileVps xq /\ ref = xq_instance xq /\ exposes xq host /\
      exists record, loaded past record /\ op = do_identity record
  | VerifyHttp host => exists xq, q = ReconcileVps xq /\ exposes xq host /\ exists route, has_route past route
  | VerifyDns host target => exists xq, q = ReconcileVps xq /\ exposes xq host /\ target = target_host (vb_target binding) /\
      exists route, has_route past route
  | StopRuntime ref => q = StopVps ref /\ unfinished past
  | DestroyRuntime ref ownership =>
    steady past /\
    match q with
    | RunVps plan => unfinished past /\ instance_ref plan = Ok ref /\ failure past /\
        exists records, provisioned past records /\ ownership = List.filter is_created records
    | DestroyVps ref' => unfinished past /\ ref = ref' /\ ownership = List.filter is_created (vb_ownership binding)
    | ReconcileVps xq => ref = xq_instance xq /\ failure past /\ exists route, has_route past route /\ is_created route = true /\ ownership = [route]
    | _ => False
    end
  | DestroyOutcome ref => q = DestroyVps ref
  | MarkReconciliationOp id revision => in_doubt past /\ on_stored past id revision
  | CommitTerminalOp id bundle =>
    steady past /\ on_stored past id (tc_expected_revision bundle) /\
    match q with
    | RunVps plan =>
      exists ref, instance_ref plan = Ok ref /\
        (tc_outcome bundle = SUCCEEDED -> Event (RuntimeReady ref) (Ok true) ∈ past /\ exists records, provisioned past records) /\
        (tc_outcome bundle = FAILED -> failure past /\ forall records, provisioned past records -> List.filter is_created records <> [] ->
           Event (DestroyRuntime ref (List.filter is_created records)) (Ok tt) ∈ past)
    | StopVps ref => tc_outcome bundle = SUCCEEDED /\ Event (StopRuntime ref) (Ok tt) ∈ past
    | DestroyVps ref => tc_outcome bundle = SUCCEEDED /\
        Event (DestroyRuntime ref (List.filter is_created (vb_ownership binding))) (Ok tt) ∈ past
    | ReconcileVps xq =>
      (tc_outcome bundle = SUCCEEDED -> exists host, exposes xq host /\ (exists route, has_route past route) /\
           Event (VerifyHttp host) (Ok true) ∈ past /\ Event (VerifyDns host (target_host (vb_target binding))) (Ok true) ∈ past) /\
      (tc_outcome bundle = FAILED -> failure past /\ forall route, has_route past route -> is_created route = true ->
           Event (DestroyRuntime (xq_instance xq) [route]) (Ok tt) ∈ past)
    | _ => False
    end
  | ExecIn ref argv => q = ExecVps ref argv
  | ReadLogs ref role => q = LogsVps ref role /\ (role = "odoo" \/ role = "postgres")
  end.
(** Loading the operation takes a bound request, everything else an approved one and a loaded
    operation. *)
Definition allowed (q : vps_request) (past : vps_history) (R : Type) (e : vps_op R) : Prop :=
  (match e with CreateOrLoadOp _ => bound q | _ => approved q end) /\
  (match e with CreateOrLoadOp _ => True | _ => exists record, loaded past record end) /\ justified q past R e.

(** ** Values fail with their own errors *)

Lemma evidence_error event summary refs x : redacted_evidence event summary refs = Err x -> unknown_outcome x = false.
Proof. unfold redacted_evidence, ensure. destruct (_ && _); [|by intros [= <-]]. cbn. destruct (forallb _ _); by intros [= <-]. Qed.
Lemma checkpoint_error revision phase evidence x : save_checkpoint revision phase evidence = Err x -> unknown_outcome x = false.
Proof. unfold save_checkpoint, ensure. destruct (negb _); by intros [= <-]. Qed.
Lemma bundle_error revision outcome evidence residual x : build_terminal_commit revision outcome evidence residual = Err x -> unknown_outcome x = false.
Proof. unfold build_terminal_commit, ensure. destruct (in_states _ _); [|by intros [= <-]]. cbn. destruct evidence; by intros [= <-]. Qed.
Lemma bundle_outcome revision outcome evidence residual b :
  build_terminal_commit revision outcome evidence residual = Ok b -> tc_outcome b = outcome /\ tc_expected_revision b = revision.
Proof. unfold build_terminal_commit, ensure. destruct (in_states _ _); [|done]. cbn. destruct evidence; by intros [= <-]. Qed.
Lemma owners_error ownership x : ownership_evidence ownership = Err x -> unknown_outcome x = false.
Proof.
  revert x. induction ownership as [|r l IH]; intros x; [done|]. cbn [ownership_evidence].
  destruct (evidence_of r) as [es|y] eqn:E; cbn.
  - destruct (ownership_evidence l) as [es'|y]; cbn; [done|]. intros [= <-]. by apply IH.
  - intros [= <-]. unfold evidence_of in E. destruct (own_receipt r) as [receipt|]; [|done].
    destruct (or_owned_resource_ids receipt); [done|]. destruct (redacted_evidence _ _ _) eqn:E'; [done|]. injection E as <-.
    by eapply evidence_error.
Qed.

Lemma loaded_answered past record : loaded past record -> answered past record.
Proof. intros H. by exists (Event (CreateOrLoadOp (vb_operation binding)) (Ok record)). Qed.
Lemma saved_answered past id revision cp record : answered (past ++ [Event (SaveCheckpointOp id revision cp) (Ok record)]) record.
Proof. eexists. by split; [apply seen_snoc|]. Qed.
#[local] Hint Resolve loaded_answered saved_answered : core.

(** ** The steps *)

Section Steps.
Variable q : vps_request.
Abbreviation acts := (guarded (allowed q)).

Lemma begin_acts method p ref handles (Q : vps_history -> result exn DurableOperationRecord -> Prop) :
  method = verb_of q -> p = payload_of q -> ref = ref_of q -> handles = handles_of q ->
  (forall record, bound q -> Q [Event (CreateOrLoadOp (vb_operation binding)) (Ok record)] (Ok record)) ->
  (forall x, Q [] (Err x)) -> (forall x, Q [Event (CreateOrLoadOp (vb_operation binding)) (Err x)] (Err x)) ->
  acts [] (begin sha256 dump_payload dump_scope binding method p ref handles) Q.
Proof.
  intros -> -> -> -> Hok Hno Herr. unfold begin.
  destruct (negb (bool_decide (vb_verb binding = verb_of q)) || _ || _) eqn:Eb; [by apply guarded_Raise|].
  destruct (matches_request_digest _ _) eqn:Em; [|by apply guarded_Raise]. cbn [negb].
  rewrite !orb_false_iff in Eb. destruct Eb as [[Ev Er] Eh]. apply negb_false_iff, bool_decide_eq_true in Ev.
  assert (Hb : bound q).
  { split_and!; [done|done| |].
    - intros r Hr. rewrite Hr in Er. by apply negb_false_iff, bool_decide_eq_true in Er.
    - intros Hne. destruct (handles_of q); [done|]. by apply negb_false_iff, bool_decide_eq_true in Eh. }
  apply guarded_call; [by split_and!|]. intros [record|x]; [by apply Hok|apply Herr].
Qed.

Hypothesis Hbound : approved q.

Lemma checkpoint_acts past record phase summary refs loaded_record (Q : vps_history -> result exn DurableOperationRecord -> Prop) :
  loaded past loaded_record -> answered past record -> phase <> "" ->
  (forall id revision cp r, Q (past ++ [Event (SaveCheckpointOp id revision cp) r]) r) ->
  (forall x, redacted_evidence phase summary refs = Err x -> unknown_outcome x = false -> Q past (Err x)) ->
  acts past (checkpoint record phase summary refs) Q.
Proof using Hbound.
  intros Hl Ha Hp HQ Hx. unfold checkpoint. apply guarded_bind, guarded_lift.
  destruct (redacted_evidence _ _ _) as [ev|x] eqn:E; [|apply (Hx x eq_refl); eapply evidence_error, E].
  apply guarded_bind, guarded_lift. destruct (save_checkpoint _ _ _) as [cp|x] eqn:E'.
  2:{ unfold save_checkpoint in E'. by rewrite bool_decide_false in E'. }
  apply guarded_call; [|apply HQ]. split; [done|]. split; [by exists loaded_record|]. by exists record.
Qed.
Lemma terminal_acts past record outcome evidence ownership loaded_record (Q : vps_history -> result exn unit -> Prop) :
  loaded past loaded_record -> answered past record ->
  (forall id bundle, tc_outcome bundle = outcome -> on_stored past id (tc_expected_revision bundle) ->
     justified q past _ (CommitTerminalOp id bundle) /\
     forall r, Q (past ++ [Event (CommitTerminalOp id bundle) r]) (match r with Ok _ => Ok tt | Err x => Err x end)) ->
  (forall x, unknown_outcome x = false ->
     ownership_evidence ownership = Err x \/ evidence = [] \/ ~ outcome ∈ TERMINAL_OUTCOMES -> Q past (Err x)) ->
  acts past (terminal record outcome evidence ownership) Q.
Proof using Hbound.
  intros Hl Ha HQ Hx. unfold terminal. apply guarded_bind, guarded_lift. destruct (ownership_evidence ownership) as [owners|x] eqn:E.
  2:{ apply Hx; [by eapply owners_error|by left]. }
  apply guarded_bind, guarded_lift. destruct (build_terminal_commit _ _ _ _) as [bundle|x] eqn:E'.
  - destruct (bundle_outcome _ _ _ _ _ E') as [Hout Hrev].
    destruct (HQ (operation_id (do_identity record)) bundle Hout) as [Hj HQ']; [by exists record|].
    apply guarded_bind_call; [split_and!; [done|by exists loaded_record|done]|..].
    + intros r. apply guarded_Ret. apply (HQ' (Ok r)).
    + intros x. apply (HQ' (Err x)).
  - apply Hx; [by eapply bundle_error|]. right. unfold build_terminal_commit, ensure in E'.
    destruct (in_states outcome TERMINAL_OUTCOMES) eqn:Ei; [left|right].
    + by destruct evidence.
    + intros Hin. unfold in_states in Ei. by apply bool_decide_eq_false in Ei.
Qed.
End Steps.

(** ** [run] *)

(** What a returned reference, and an error, say. *)
Definition run_ends (plan : BackendPlan) (past : vps_history) (o : result exn InstanceRef) : Prop :=
  match o with
  | Ok ref => instance_ref plan = Ok ref /\ ((exists record, loaded past record /\ finished record = true) \/ recorded past SUCCEEDED)
  | Err x =>
    (exists id revision r, Event (MarkReconciliationOp id revision) r ∈ past) \/ attempted past FAILED \/
    (exists ref ownership y, Event (DestroyRuntime ref ownership) (Err y) ∈ past) \/
    (exists records y, provisioned past records /\ ownership_evidence records = Err y) \/
    (forall ev, ev ∈ past -> exists r, ev = Event (CreateOrLoadOp (vb_operation binding)) r)
  end.

Section Run.
Variable plan : BackendPlan.
Abbreviation acts := (guarded (allowed (RunVps plan))).
Hypothesis Hbound : approved (RunVps plan).
Variable ref : InstanceRef.
Hypothesis Href : instance_ref plan = Ok ref.
Variable first : DurableOperationRecord.
Hypothesis Hfirst : finished first = false.

(** [owned] is what the runtime reported, if it did. *)
Definition reported (past : vps_history) (owned : list OwnershipRecord) : Prop :=
  (forall records, provisioned past records -> records = owned) /\
  (owned = [] /\ (forall records, ~ provisioned past records) \/ provisioned past owned).
Lemma reported_snoc past ev owned : ensured ev = None -> reported past owned -> reported (past ++ [ev]) owned.
Proof.
  intros He [Hr Ho]. split.
  - intros records [H|H]%provisioned_snoc; [by apply Hr|congruence].
  - destruct Ho as [[-> Hn]|Ho]; [left|right; apply provisioned_snoc; by left]. split; [done|].
    intros records [H|H]%provisioned_snoc; [by eapply Hn|congruence].
Qed.

Lemma run_failed_acts past record owned e :
  loaded past first -> answered past record -> reported past owned ->
  (unknown_outcome e = true -> in_doubt past) -> (unknown_outcome e = false -> steady past /\ failure past) ->
  acts past (run_failed ref record owned e) (run_ends plan).
Proof using Hbound Href Hfirst.
  intros Hl Ha Hrep Hd Hs. unfold run_failed. destruct (unknown_outcome e) eqn:Ee.
  { specialize (Hd eq_refl). unfold reconcile_later. apply guarded_bind, guarded_bind_call.
    - split; [done|]. split; [by exists first|]. split; [done|]. by exists record.
    - intros r. apply guarded_Ret. left. eauto.
    - intros x. left. eauto. }
  specialize (Hs eq_refl) as [Hs Hf]. clear Hd. apply guarded_bind, guarded_bind.
  set (created := List.filter is_created owned).
  assert (Hterm : forall new, steady (past ++ new) -> reported (past ++ new) owned ->
            (created <> [] -> Event (DestroyRuntime ref created) (Ok tt) ∈ past ++ new) ->
            forall evidence, evidence <> [] ->
            acts (past ++ new) (terminal record FAILED evidence owned)
              (fun past'' o => match o with
                               | Ok _ => guarded (allowed (RunVps plan)) past'' (Raise e) (run_ends plan)
                               | Err x => run_ends plan past'' (Err x)
                               end)).
  { intros new Hs' [Hu Ho] Hgone evidence Hne. eapply terminal_acts; [done|by apply seen_app|by apply answered_app|..].
    - intros id bundle Hout Hon. split.
      + split; [done|]. split; [done|]. exists ref. split_and!; [done|by rewrite Hout|]. intros _. split; [by apply failure_app|].
        intros records Hp Hc. rewrite (Hu _ Hp) in *. by apply Hgone.
      + intros [r|x]; [apply guarded_Raise|]; right; left; exists id, bundle; eauto.
    - intros x _ [Hy|[Hn|Ht]]; [|done|by exfalso; apply Ht; vm_compute; right; left].
      right. right. right. left. exists owned, x. split; [|done]. destruct Ho as [[-> _]|Ho]; [discriminate Hy|done]. }
  destruct created as [|c cs] eqn:Ec; fold created in Ec.
  - rewrite <- (app_nil_r past) in Hs, Hrep. apply guarded_Ret. apply guarded_bind. rewrite <- (app_nil_r past).
    destruct (do_recovery_evidence record) as [|ev evs]; [|by apply guarded_Ret, Hterm].
    apply guarded_bind, guarded_lift. destruct (made _ _) as [ev|x] eqn:Em; [by apply guarded_Ret, Hterm|vm_compute in Em; discriminate Em].
  - apply guarded_call.
    + split; [done|]. split; [by exists first|]. split; [done|]. split; [by exists first|]. split; [done|]. split; [done|].
      exists owned. split; [|done]. destruct Hrep as [_ [[-> _]|Ho]]; [discriminate Ec|done].
    + intros [[]|x]; [|right; right; left; eauto].
      assert (Hs' : steady (past ++ [Event (DestroyRuntime ref (c :: cs)) (Ok tt)])) by (by apply steady_snoc).
      assert (Hev : forall evidence, evidence <> [] -> acts (past ++ [Event (DestroyRuntime ref (c :: cs)) (Ok tt)])
        (terminal record FAILED evidence owned) (fun past'' o => match o with
                               | Ok _ => guarded (allowed (RunVps plan)) past'' (Raise e) (run_ends plan)
                               | Err x => run_ends plan past'' (Err x)
                               end)).
      { apply Hterm; [done|by apply reported_snoc|by intros _]. }
      apply guarded_bind. destruct (do_recovery_evidence record) as [|ev evs]; [|by apply guarded_Ret, Hev].
      apply guarded_bind, guarded_lift. destruct (made _ _) as [ev|x] eqn:Em; [by apply guarded_Ret, Hev|vm_compute in Em; discriminate Em].
Qed.

(** The state of a run: still in order, or failing with an error. *)
Definition in_order (past : vps_history) (owned : list OwnershipRecord) : Prop := loaded past first /\ reported past owned /\ steady past.
Definition failing (past : vps_history) (owned : list OwnershipRecord) (e : exn) : Prop :=
  loaded past first /\ reported past owned /\ (unknown_outcome e = true -> in_doubt past) /\
  (unknown_outcome e = false -> steady past /\ failure past).
Definition progress {A : Type} (past : vps_history) (owned : list OwnershipRecord) (o : result exn A) : Prop :=
  match o with Ok _ => in_order past owned | Err x => failing past owned x end.

Lemma own_error past owned x : in_order past owned -> unknown_outcome x = false -> failure past -> failing past owned x.
Proof. intros (Hl & Hr & Hs) Hx Hf. split_and!; [done|done|congruence|done]. Qed.
Lemma call_keeps past owned R (e : vps_op R) r :
  in_order past owned -> ensured (Event e r) = None -> (forall a, r = Ok a -> steady_event (Event e r)) ->
  progress (past ++ [Event e r]) owned r.
Proof.
  intros (Hl & Hr & Hs) He Hok. destruct r as [a|x].
  - split_and!; [by apply seen_app|by apply reported_snoc|]. apply steady_snoc; [done|]. by eapply Hok.
  - destruct (doubt_or_steady past R e x Hs) as [Hd Hst].
    split_and!; [by apply seen_app|by apply reported_snoc|done|]. intros Hx. split; [by apply Hst|]. eapply call_failed, seen_snoc.
Qed.
Lemma failing_acts past record owned e :
  answered past record -> failing past owned e -> acts past (run_failed ref record owned e) (run_ends plan).
Proof using Hbound Href Hfirst. intros Ha (Hl & Hr & Hd & Hs). by apply run_failed_acts. Qed.

Definition unreported (past : vps_history) : Prop := forall records, ~ provisioned past records.
Lemma prepare_acts past :
  in_order past [] -> unreported past ->
  acts past (prepare_runtime offers binding plan ref) (fun past' o => progress past' [] o /\ unreported past').
Proof using Hbound Href.
  intros Hp Hn.
  assert (Hone : forall past, in_order past [] -> unreported past -> forall (e : vps_op unit) r, ensured (Event e r) = None ->
            (forall a, r = Ok a -> steady_event (Event e r)) -> progress (past ++ [Event e r]) [] r /\ unreported (past ++ [Event e r])).
  { intros past0 Hp0 Hn0 e r He Hs. split; [by apply call_keeps|]. intros records [H|H]%provisioned_snoc; [by eapply Hn0|congruence]. }
  unfold prepare_runtime. apply guarded_bind. destruct (offers "bind_scope").
  - apply guarded_call; [split; [done|]; split; [exists first; apply Hp|]; split; [done|by exists ref]|]. intros r.
    destruct (Hone past Hp Hn (BindScope (vb_scope binding) (ir_instance ref)) r eq_refl) as [Hr Hn']; [by intros a ->|].
    destruct r as [[]|x]; [|by split]. destruct (offers "validate_scope"); [|by apply guarded_Ret].
    apply guarded_call; [split_and!; [done|exists first; apply Hr|done]|]. intros r. apply Hone; [done..|by intros a ->].
  - apply guarded_Ret. destruct (offers "validate_scope"); [|by apply guarded_Ret].
    apply guarded_call; [split_and!; [done|exists first; apply Hp|done]|]. intros r. apply Hone; [done..|by intros a ->].
Qed.
Lemma checkpoint_keeps past owned record phase summary refs :
  in_order past owned -> answered past record -> phase <> "" ->
  (forall x, redacted_evidence phase summary refs = Err x -> failure past) ->
  acts past (checkpoint record phase summary refs) (fun past' o => (progress past' owned o /\
    match o with Ok record' => answered past' record' | Err _ => answered past' record end) /\ exists new, past' = past ++ new).
Proof using Hbound.
  intros Hp Ha Hne Hf. eapply checkpoint_acts; [done|apply Hp|done|done|..].
  - intros id revision cp r. split; [|by eexists]. split; [by apply call_keeps; [|by destruct r..]|].
    destruct r as [record'|x]; [apply saved_answered|by apply answered_app].
  - intros x He Hx. split; [|exists []; by rewrite app_nil_r]. split; [|done]. apply own_error; [done..|]. by eapply Hf.
Qed.

(** Once the runtime is reported: the checkpoints, the readiness check and the commit. *)
Lemma settle_acts past owned record :
  in_order past owned -> provisioned past owned -> answered past record ->
  acts past
    (let* r := attempt (checkpoint record "runtime" "managed runtime reconciled" (map (fun o => rr_identifier (own_ref o)) owned)) in
     match r with Err e => run_failed ref record owned e | Ok record =>
     let* r := attempt (let* ready := call (RuntimeReady ref) in
                        if ready : bool then checkpoint record "ready" "managed runtime readiness verified" []
                        else Raise (RuntimeError "managed runtime is not ready")) in
     match r with Err e => run_failed ref record owned e | Ok record =>
     let* r := attempt (terminal record SUCCEEDED (do_recovery_evidence record) owned) in
     match r with Err e => run_failed ref record owned e | Ok _ => Ret ref
     end end end) (run_ends plan).
Proof using Hbound Href Hfirst.
  intros Hp Hprov Ha. apply guarded_bind, guarded_attempt.
  eapply guarded_mono; [|apply checkpoint_keeps; [done|done|done|intros x Hx; by eapply identifiers_refused]].
  intros new [record'|x] [[H Ha'] _]; [|by apply failing_acts]. pose proof (provisioned_app _ new _ Hprov) as Hprov'.
  apply guarded_bind, guarded_attempt, guarded_bind_call.
  { split; [done|]. split; [exists first; apply H|]. exists plan. split_and!; [done|done|by exists owned]. }
  2:{ intros x. apply failing_acts; [by apply answered_app|]. by apply (call_keeps _ _ _ (RuntimeReady ref) (Err x) H). }
  intros ready. assert (Hr : in_order ((past ++ new) ++ [Event (RuntimeReady ref) (Ok ready)]) owned).
  { by apply (call_keeps _ _ _ (RuntimeReady ref) (Ok ready) H). }
  destruct ready.
  2:{ apply guarded_Raise, failing_acts; [by apply answered_app|]. apply own_error; [done..|]. eapply runtime_not_ready, seen_snoc. }
  eapply guarded_mono; [|apply checkpoint_keeps; [done|by apply answered_app|done|intros x Hx; by vm_compute in Hx]].
  intros new' [record''|x] [[H' Ha''] _]; [|by apply failing_acts].
  apply guarded_bind, guarded_attempt. eapply terminal_acts; [done|apply H'|done|..].
  - intros id bundle Hout Hon. split.
    + split; [apply H'|]. split; [done|]. exists ref. split_and!; [done| |by rewrite Hout]. intros _. split; [apply seen_app, seen_snoc|].
      exists owned. by do 2 apply provisioned_app.
    + intros [r|x].
      * apply guarded_Ret. split; [done|right]. exists id, bundle, r. by split.
      * apply failing_acts; [by apply answered_app|]. by apply (call_keeps _ _ _ (CommitTerminalOp id bundle) (Err x) H').
  - intros x Hx Hwhy. apply failing_acts; [done|]. apply own_error; [done..|]. destruct Hwhy as [Ho|[Hn|Ht]].
    + eapply owners_refused; [left; by do 2 apply provisioned_app|exact Ho].
    + by eapply no_evidence.
    + exfalso. apply Ht. vm_compute. by left.
Qed.
End Run.

Lemma run_acts plan :
  guarded (allowed (RunVps plan)) [] (run sha256 dump_payload dump_scope offers binding plan) (run_ends plan).
Proof.
  unfold run. apply guarded_bind, begin_acts; [done..| | |].
  2:{ intros x. do 4 right. by intros ev H%elem_of_nil. }
  2:{ intros x. do 4 right. intros ev ->%list_elem_of_singleton. by eexists. }
  intros record Hb0. assert (Hb : approved (RunVps plan)) by by split. clear Hb0. apply guarded_bind, guarded_lift. destruct (instance_ref plan) as [ref|x] eqn:Er.
  2:{ do 4 right. intros ev ->%list_elem_of_singleton. by eexists. }
  destruct (finished record) eqn:Ef.
  { apply guarded_Ret. split; [done|left]. exists record. split; [by left|done]. }
  set (past := [Event (CreateOrLoadOp (vb_operation binding)) (Ok record)]).
  assert (Hp : in_order record past []).
  { assert (Hn : unreported past) by (by intros records (ev & ->%list_elem_of_singleton & [=])).
    split_and!; [by left| |by apply Forall_singleton]. split; [by intros records ?%Hn|by left]. }
  apply guarded_bind, guarded_attempt. eapply guarded_mono; [|apply (prepare_acts plan Hb ref Er record past Hp)].
  2:{ by intros records (ev & ->%list_elem_of_singleton & [=]). }
  intros new [[]|x] [H Hn]; [|by apply (failing_acts plan Hb ref Er record Ef); [apply answered_app, loaded_answered, Hp|]].
  assert (Ha : answered (past ++ new) record) by apply answered_app, loaded_answered, Hp.
  apply guarded_bind, guarded_attempt, guarded_call.
  { split; [done|]. split; [exists record; apply H|]. split; [done|]. exists record. split_and!; [apply H|done|done]. }
  destruct H as (Hl & _ & Hs). set (ev := Event (EnsureRuntime plan (do_identity record))). intros [owned|x].
  - assert (Hprov : provisioned ((past ++ new) ++ [ev (Ok owned)]) owned) by (by exists (ev (Ok owned)); split; [apply seen_snoc|]).
    apply (settle_acts plan Hb ref Er record Ef); [|exact Hprov|by apply answered_app].
    split_and!; [by apply seen_app|split; [|by right]|by apply steady_snoc].
    intros records [H|[= ->]]%provisioned_snoc; [by apply Hn in H|done].
  - apply (failing_acts plan Hb ref Er record Ef); [by apply answered_app|]. destruct (doubt_or_steady _ _ (EnsureRuntime plan (do_identity record)) x Hs) as [Hd Hst].
    split_and!; [by apply seen_app| |done|intros Hx; split; [by apply Hst|]; eapply call_failed, seen_snoc].
    assert (Hn' : unreported ((past ++ new) ++ [ev (Err x)])) by (intros records [H|[=]]%provisioned_snoc; by apply Hn in H).
    split; [by intros records ?%Hn'|by left].
Qed.

(** ** The other requests *)

Abbreviation whatever := (fun _ _ => True).
Lemma first_steady record : steady [Event (CreateOrLoadOp (vb_operation binding)) (Ok record)].
Proof. by apply Forall_singleton. Qed.
#[local] Hint Resolve first_steady : core.

(** A command under [marking], and the commit that follows it. *)
Lemma marking_acts q past record (e : vps_op unit) (k : unit -> vps_prog unit) :
  approved q -> loaded past record -> steady past -> allowed q past _ e ->
  guarded (allowed q) (past ++ [Event e (Ok tt)]) (k tt) whatever ->
  guarded (allowed q) past (bind (marking record (call e)) k) whatever.
Proof.
  intros Hb Hl Hs He Hk. apply guarded_bind, guarded_catch, guarded_call; [done|]. intros [[]|x]; [exact Hk|].
  apply guarded_bind. destruct (unknown_outcome x) eqn:Ex; [|by apply guarded_Ret].
  apply guarded_bind_call; [|by intros r; apply guarded_Ret|done].
  split; [done|]. split; [exists record; by apply seen_app|]. split; [by exists unit, e, x|].
  exists record. split; [by apply answered_app, loaded_answered|done].
Qed.
Lemma succeed_acts q past record event summary :
  approved q -> loaded past record ->
  (forall id bundle, tc_outcome bundle = SUCCEEDED -> on_stored past id (tc_expected_revision bundle) -> justified q past _ (CommitTerminalOp id bundle)) ->
  guarded (allowed q) past (let* e := lift (made event summary) in terminal record SUCCEEDED [e] []) whatever.
Proof.
  intros Hb Hl Hj. apply guarded_bind, guarded_lift. destruct (made event summary) as [e|x]; [|done].
  eapply terminal_acts; [done|done|by apply loaded_answered|..|done]. intros id bundle Ho Hon. split; [by apply Hj|done].
Qed.

Lemma stop_acts ref : guarded (allowed (StopVps ref)) [] (stop sha256 dump_payload dump_scope binding ref) whatever.
Proof.
  unfold stop. apply guarded_bind, begin_acts; [done..| |done|done]. intros record Hb.
  destruct (finished record) eqn:Ef; [done|]. eapply marking_acts; [done|by left|done|..].
  - split; [done|]. split; [exists record; by left|]. split; [done|]. exists record. split; [by left|done].
  - eapply succeed_acts; [done|by apply seen_app; left|]. intros id bundle Ho Hon.
    split; [by apply steady_snoc|]. split; [done|]. split; [done|apply seen_snoc].
Qed.
Lemma destroy_acts ref : guarded (allowed (DestroyVps ref)) [] (destroy sha256 dump_payload dump_scope binding ref) whatever.
Proof.
  unfold destroy. apply guarded_bind, begin_acts; [done..| |done|done]. intros record Hb. apply guarded_bind.
  assert (Hlast : forall past, loaded past record -> guarded (allowed (DestroyVps ref)) past (call (DestroyOutcome ref)) whatever).
  { intros past Hl. apply guarded_call; [|done]. split; [done|]. split; [by exists record|done]. }
  destruct (finished record) eqn:Ef; [apply guarded_Ret, Hlast; by left|].
  set (past := [_]). eapply guarded_mono with (Q := whatever).
  { intros new [[]|x] _; [|done]. apply Hlast, seen_app. by left. }
  eapply marking_acts; [done|by left|apply first_steady|..].
  - split; [done|]. split; [exists record; by left|]. split; [apply first_steady|]. split; [|done]. exists record. split; [by left|done].
  - eapply succeed_acts; [done|by apply seen_app; left|]. intros id bundle Ho Hon.
    split; [apply steady_snoc; [apply first_steady|done]|]. split; [done|]. split; [done|]. apply seen_snoc.
Qed.
Lemma status_acts ref : guarded (allowed (StatusVps ref)) [] (status sha256 dump_payload dump_scope binding ref) whatever.
Proof.
  unfold status. apply guarded_bind, begin_acts; [done..| |done|done]. intros record Hb. apply guarded_bind.
  assert (Hlast : forall past, loaded past record -> guarded (allowed (StatusVps ref)) past (call (RuntimeStatus ref)) whatever).
  { intros past Hl. apply guarded_call; [|done]. split; [done|]. split; [by exists record|done]. }
  destruct (finished record) eqn:Ef; [apply guarded_Ret, Hlast; by left|].
  apply guarded_bind. eapply checkpoint_acts; [done|by left|apply loaded_answered; by left|done|..|done]. intros id revision cp [r|x]; [|done].
  apply guarded_Ret, Hlast, seen_app. by left.
Qed.
Lemma logs_acts ref role : guarded (allowed (LogsVps ref role)) [] (logs sha256 dump_payload dump_scope binding ref role) whatever.
Proof.
  unfold logs. destruct (bool_decide (role ∈ ["odoo"; "postgres"])) eqn:Er; [|done]. cbn [negb]. apply bool_decide_eq_true in Er.
  apply guarded_bind, begin_acts; [done..| |done|done]. intros record Hb. apply guarded_call; [|done].
  split; [done|]. split; [exists record; by left|]. split; [done|]. rewrite !elem_of_cons in Er.
  destruct Er as [->|[->|[]%elem_of_nil]]; auto.
Qed.
Lemma exec_acts ref argv : guarded (allowed (ExecVps ref argv)) [] (exec_in sha256 dump_payload dump_scope binding ref argv) whatever.
Proof.
  unfold exec_in. apply guarded_bind, begin_acts; [done..| |done|done]. intros record Hb. apply guarded_call; [|done].
  split; [done|]. split; [exists record; by left|done].
Qed.

(** ** [reconcile] *)

Section Reconcile.
Variable xq : ExposureRequest.
Abbreviation acts := (guarded (allowed (ReconcileVps xq))).
Hypothesis Hbound : approved (ReconcileVps xq).
Variable first : DurableOperationRecord.

(** The route reported so far. *)
Definition routed_as (past : vps_history) (route : option OwnershipRecord) : Prop :=
  (forall r, has_route past r -> route = Some r) /\ (forall r, route = Some r -> has_route past r).
Lemma routed_snoc past ev route : routed ev = None -> routed_as past route -> routed_as (past ++ [ev]) route.
Proof.
  intros He [Hu Ho]. split; intros r.
  - intros [H|H]%route_snoc; [by apply Hu|congruence].
  - intros H. apply route_snoc. left. by apply Ho.
Qed.
Lemma reconcile_failed_acts past record route e :
  loaded past first -> answered past record -> routed_as past route ->
  (unknown_outcome e = true -> in_doubt past) -> (unknown_outcome e = false -> steady past /\ failure past) ->
  acts past (reconcile_failed xq record route e) whatever.
Proof using Hbound.
  intros Hl Ha Hr Hd Hs. unfold reconcile_failed. apply guarded_bind. destruct (unknown_outcome e) eqn:Ee.
  { apply guarded_bind_call; [|by intros r; apply guarded_Ret, guarded_bind, guarded_Ret|done].
    split; [done|]. split; [by exists first|]. split; [by apply Hd|by exists record]. }
  specialize (Hs eq_refl) as [Hs Hf]. clear Hd.
  assert (Hterm : forall past', loaded past' first -> answered past' record -> steady past' -> failure past' ->
            (forall r, has_route past' r -> is_created r = true -> Event (DestroyRuntime (xq_instance xq) [r]) (Ok tt) ∈ past') ->
            acts past' (bind (let* failed := lift (made "exposure_failed" "exposure reconciliation failed") in
                              terminal record FAILED [failed] (match route with Some r => [r] | None => [] end)) (fun _ => Raise e : vps_prog ExposureResult)) whatever).
  { intros past' Hl' Ha' Hs' Hf' Hgone. apply guarded_bind, guarded_bind, guarded_lift. destruct (made _ _) as [ev|x]; [|done].
    eapply terminal_acts; [done|exact Hl'|exact Ha'|..|done]. intros id bundle Ho Hon. split; [|by intros [r|x]].
    split; [done|]. split; [done|]. split; [by rewrite Ho|]. intros _. split; [exact Hf'|exact Hgone]. }
  destruct route as [r|].
  2:{ apply guarded_Ret, Hterm; [done..|]. intros r Hh. by apply Hr in Hh. }
  destruct (is_created r) eqn:Ec.
  - apply guarded_call.
    + split; [done|]. split; [by exists first|]. split; [done|]. split; [done|]. split; [done|]. exists r. split_and!; [by apply Hr|done|done].
    + intros [[]|x]; [|done]. apply Hterm; [by apply seen_app|by apply answered_app|by apply steady_snoc|by apply failure_app|].
      intros r' [H|[=]]%route_snoc _. apply Hr in H as [= <-]. apply seen_snoc.
  - apply guarded_Ret, Hterm; [done..|]. intros r' Hh Hc. apply Hr in Hh as [= <-]. congruence.
Qed.

Definition tidy (past : vps_history) (route : option OwnershipRecord) : Prop := loaded past first /\ routed_as past route /\ steady past.
Lemma tidy_snoc past route R (e : vps_op R) r :
  tidy past route -> routed (Event e r) = None -> steady_event (Event e r) -> tidy (past ++ [Event e r]) route.
Proof. intros (Hl & Hr & Hs) He Hst. split_and!; [by apply seen_app|by apply routed_snoc|by apply steady_snoc]. Qed.
Lemma untidy_acts past route R (e : vps_op R) x :
  tidy past route -> routed (Event e (Err x)) = None -> acts (past ++ [Event e (Err x)]) (reconcile_failed xq first route x) whatever.
Proof using Hbound.
  intros (Hl & Hr & Hs) He. destruct (doubt_or_steady past R e x Hs) as [Hd Hst].
  apply reconcile_failed_acts; [by apply seen_app|by apply answered_app, loaded_answered|by apply routed_snoc|done|].
  intros Hx. split; [by apply Hst|]. eapply call_failed, seen_snoc.
Qed.
Lemma exposure_error record route http dns x : exposure_of record route http dns = Err x -> unknown_outcome x = false.
Proof.
  unfold exposure_of. destruct (made _ _) as [ev|y] eqn:E; cbn [result_bind].
  - unfold exposure_result, ensure. destruct (owned_by _ _); [|by intros [= <-]]. cbn [result_bind].
    destruct (negb (xr_tls_ready _)); [|by intros [= <-]]. cbn [result_bind]. destruct (negb _); by intros [= <-].
  - intros [= <-]. by eapply evidence_error.
Qed.
Lemma exposure_ready record route http dns result : exposure_of record route http dns = Ok result -> xr_ready result = http && dns.
Proof.
  unfold exposure_of. intros (ev & _ & H)%result_bind_Ok. unfold exposure_result in H.
  do 3 apply result_bind_Ok in H as ([] & _ & H). by injection H as <-.
Qed.

Lemma exposure_evidence record route http dns result : exposure_of record route http dns = Ok result -> xr_evidence result <> [].
Proof.
  unfold exposure_of. intros (ev & _ & H)%result_bind_Ok. unfold exposure_result in H.
  do 3 apply result_bind_Ok in H as ([] & _ & H). by injection H as <-.
Qed.
Lemma exposing_acts past host route :
  exposes xq host -> tidy past (Some route) ->
  acts past
    (let* r := attempt (
      let* http := call (VerifyHttp host) in
      let* dns := call (VerifyDns host (target_host (vb_target binding))) in
      let* result := lift (exposure_of first route http dns) in
      (if xr_ready result then terminal first SUCCEEDED (xr_evidence result) [route] else Ret tt) ;*
      Ret result) in
    match r with Err e => reconcile_failed xq first (Some route) e | Ok result => Ret result end) whatever.
Proof using Hbound.
  intros Hx Ht. assert (Hroute : forall past0, tidy past0 (Some route) -> has_route past0 route) by (intros past0 (_ & [_ Ho] & _); by apply Ho).
  apply guarded_bind, guarded_attempt.
  apply guarded_bind_call; [split; [done|]; split; [exists first; apply Ht|]| |intros x; by apply untidy_acts].
  { exists xq. split_and!; [done|done|]. exists route. by apply Hroute. }
  intros http. set (past1 := past ++ [_]). assert (Ht1 : tidy past1 (Some route)) by by apply tidy_snoc.
  apply guarded_bind_call; [split; [done|]; split; [exists first; apply Ht1|]| |intros x; by apply untidy_acts].
  { exists xq. split_and!; [done|done|done|]. exists route. by apply Hroute. }
  intros dns. set (past2 := past1 ++ [_]). assert (Ht2 : tidy past2 (Some route)) by by apply tidy_snoc.
  assert (Ha2 : answered past2 first) by apply loaded_answered, Ht2.
  apply guarded_bind, guarded_lift. destruct (exposure_of first route http dns) as [result|x] eqn:Ee.
  2:{ pose proof (exposure_error _ _ _ _ _ Ee) as Hu. pose proof Ht2 as (Hl & Hr & Hs). apply reconcile_failed_acts; [done..|congruence|].
      intros _. split; [done|]. eapply exposure_refused; [exact Ha2|by apply Hroute|exact Ee]. }
  apply guarded_bind. rewrite (exposure_ready _ _ _ _ _ Ee). destruct (http && dns) eqn:Eb; [|by apply guarded_Ret].
  apply andb_true_iff in Eb as [-> ->]. eapply terminal_acts; [done|apply Ht2|done|..].
  - intros id bundle Ho Hon. split.
    + split; [apply Ht2|]. split; [done|]. split; [|by rewrite Ho]. intros _. exists host. split; [done|].
      split; [exists route; by apply Hroute|]. split; [apply seen_app|]; apply seen_snoc.
    + intros [r|x]; [by apply guarded_Ret|]. by apply untidy_acts.
  - intros x Hu Hwhy. pose proof Ht2 as (Hl & Hr & Hs). apply reconcile_failed_acts; [done..|congruence|]. intros _. split; [done|].
    destruct Hwhy as [Hy|[Hn|Hn]].
    + eapply owners_refused; [right; exists route; split; [by apply Hroute|done]|exact Hy].
    + exfalso. by eapply exposure_evidence.
    + exfalso. apply Hn. vm_compute. by left.
Qed.

Lemma routing_acts past host :
  exposes xq host -> tidy past None ->
  acts past
    (let* r := attempt (call (EnsureHttp (xq_instance xq) host (do_identity first))) in
     match r with Err e => reconcile_failed xq first None e | Ok route =>
     let* r := attempt (
       let* http := call (VerifyHttp host) in
       let* dns := call (VerifyDns host (target_host (vb_target binding))) in
       let* result := lift (exposure_of first route http dns) in
       (if xr_ready result then terminal first SUCCEEDED (xr_evidence result) [route] else Ret tt) ;*
       Ret result) in
     match r with Err e => reconcile_failed xq first (Some route) e | Ok result => Ret result end end) whatever.
Proof using Hbound.
  intros Hx Ht. apply guarded_bind, guarded_attempt, guarded_call; [split; [done|]; split; [exists first; apply Ht|]|].
  { exists xq. split_and!; [done|done|done|]. exists first. split; [apply Ht|done]. }
  intros [route|x]; [|by apply untidy_acts]. apply exposing_acts; [done|]. destruct Ht as (Hl & [Hu Ho] & Hs).
  split_and!; [by apply seen_app| |by apply steady_snoc]. split.
  - intros r [H|[= ->]]%route_snoc; [by apply Hu in H|done].
  - intros r [= <-]. apply route_snoc. by right.
Qed.
End Reconcile.
Lemma reconcile_acts xq : guarded (allowed (ReconcileVps xq)) [] (reconcile sha256 dump_payload dump_scope offers binding xq) whatever.
Proof.
  unfold reconcile. apply guarded_bind, begin_acts; [done..| |done|done]. intros record Hb.
  destruct (ds_exposure (xq_deployment xq)) as [exposure|] eqn:Ex; [|done]. destruct (in_bound_scope binding xq) eqn:Es; [cbn [negb]|done].
  assert (Hhost : exposes xq (xi_hostname exposure)) by by exists exposure.
  assert (Happ : approved (ReconcileVps xq)).
  { split; [done|]. split; [by eexists|]. unfold in_bound_scope in Es. cbv zeta in Es. rewrite !andb_true_iff, !bool_decide_eq_true in Es. tauto. }
  set (past := [_]). assert (Ht : tidy record past None).
  { split_and!; [by left| |apply first_steady]. by split; [intros r (ev & ->%list_elem_of_singleton & [=])|]. }
  clearbody past. apply guarded_bind.
  assert (Hval : forall past, tidy record past None -> guarded (allowed (ReconcileVps xq)) past
    (bind (if offers "validate_exposure"
           then call (ValidateExposure (xq_instance xq) (vb_scope binding) (pointer_text (ds_pointer (xq_deployment xq)))) else Ret tt : vps_prog unit)
       (fun _ =>
          let* r := attempt (call (EnsureHttp (xq_instance xq) (xi_hostname exposure) (do_identity record))) in
          match r with Err e => reconcile_failed xq record None e | Ok route =>
          let* r := attempt (
            let* http := call (VerifyHttp (xi_hostname exposure)) in
            let* dns := call (VerifyDns (xi_hostname exposure) (target_host (vb_target binding))) in
            let* result := lift (exposure_of record route http dns) in
            (if xr_ready result then terminal record SUCCEEDED (xr_evidence result) [route] else Ret tt) ;*
            Ret result) in
          match r with Err e => reconcile_failed xq record (Some route) e | Ok result => Ret result end end)) whatever).
  { intros past0 Ht0. apply guarded_bind. destruct (offers "validate_exposure"); [|by apply guarded_Ret, routing_acts].
    apply guarded_call; [split; [done|]; split; [exists record; apply Ht0|by exists xq]|]. intros [[]|x]; [|done].
    apply routing_acts; [done|done|]. by apply tidy_snoc. }
  destruct (offers "bind_scope"); [|by apply guarded_Ret, Hval].
  apply guarded_call; [split; [done|]; split; [exists record; apply Ht|done]|]. intros [[]|x]; [|done].
  apply Hval. by apply tidy_snoc.
Qed.

Lemma serve_acts q : guarded (allowed q) [] (serve q) whatever.
Proof.
  assert (Hthen : forall A (p : vps_prog A), guarded (allowed q) [] p whatever -> guarded (allowed q) [] (p ;* Ret tt) whatever).
  { intros A p Hp. apply guarded_bind. eapply guarded_mono; [|exact Hp]. by intros new [a|x]. }
  destruct q; try apply Hthen.
  - eapply guarded_mono; [|apply run_acts]. done.
  - apply status_acts.
  - apply stop_acts.
  - apply destroy_acts.
  - apply logs_acts.
  - apply exec_acts.
  - apply reconcile_acts.
Qed.


(** [run] never ends in silence: it returns the reference of the plan only when the store says
    the operation is finished or has accepted its success, and when it raises after loading the
    operation it has asked for reconciliation, tried to record the failure, could not destroy
    what it created, or holds records whose identifiers the evidence refuses. *)
Theorem vps_run_is_settled plan tr o :
  runs (run sha256 dump_payload dump_scope offers binding plan) tr o -> run_ends plan tr o.
Proof. intros Hruns. exact (proj1 (guarded_runs _ _ _ _ _ _ (run_acts plan) Hruns)). Qed.
End Facts.

(** ** A host that works *)

Definition no_payload (p : payload) : json := JNull.
Definition no_scope (s : ProjectScope) : json := JNull.
Definition has_all (name : string) : bool := true.
Definition shop_binding (verb : string) (ownership : list OwnershipRecord) : VpsOperationBinding :=
  mkVpsOperationBinding (mkProjectScope (mkTenantId "acme") "shop") (mkDurableOperationIdentity "op-1" "digest") verb ownership
    (mkRemoteTargetFingerprint "192.0.2.7" "deploy" 22 "key") [].
Definition shop_spec (name role : string) : ContainerSpec := mkContainerSpec name "odoo:17" role "net" [] [] [] [] [] "127.0.0.1" [].
Definition shop : BackendPlan :=
  mkBackendPlan (mkNetworkSpec "net" (labels "shop" "dev" None)) [] (shop_spec "pg" "postgres") (shop_spec "odoo" "odoo") None.
Definition at_ref : InstanceRef := mkInstanceRef "shop" "dev" "net" "pg" "odoo".
Definition store_record : DurableOperationRecord :=
  mkDurableOperationRecord (mkDurableOperationIdentity "op-1" "digest") (mkOperationRevision 1) IN_PROGRESS None None [].
(** The store adds the evidence of a checkpoint to the operation. *)
Definition host_handler (ready : bool) : handler (E := vps_op) (X := exn) DurableOperationRecord :=
  fun R e => match e in vps_op R return DurableOperationRecord -> result exn R * DurableOperationRecord with
             | CreateOrLoadOp _ => fun w => (Ok w, w)
             | SaveCheckpointOp _ _ cp => fun w =>
               let w' := mkDurableOperationRecord (do_identity w) (mkOperationRevision (S (rev_value (do_revision w)))) (do_lifecycle w) (Some cp) None
                           (do_recovery_evidence w ++ [cp_evidence cp]) in (Ok w', w')
             | MarkReconciliationOp _ _ => fun w => (Ok w, w)
             | CommitTerminalOp _ b => fun w =>
               let w' := mkDurableOperationRecord (do_identity w) (do_revision w) (tc_outcome b) (do_checkpoint w) (Some b) (do_recovery_evidence w) in
               (Ok w', w')
             | BindScope _ _ | ValidateScope _ _ | ValidateExposure _ _ _ | StopRuntime _ | DestroyRuntime _ _ => fun w => (Ok tt, w)
             | EnsureRuntime _ operation => fun w => (Ok [owned operation "network" "net" "n1"; owned operation "container" "odoo" "c1"], w)
             | RuntimeReady _ => fun w => (Ok ready, w)
             | RuntimeStatus _ => fun w => (Err (RuntimeError "down"), w)
             | EnsureHttp ref _ operation => fun w => (Ok (owned operation "http" "net-http" "net-http"), w)
             | VerifyHttp _ | VerifyDns _ _ => fun w => (Ok true, w)
             | DestroyOutcome ref => fun w => (Ok (destroy_result ref), w)
             | ReadLogs _ _ => fun w => (Ok "", w)
             | ExecIn _ _ => fun w => (Ok (0%Z, "", ""), w)
             end.
Definition shop_serve (ready : bool) :=
  exec (host_handler ready) (serve one_digest no_payload no_scope has_all (shop_binding "run" []) (RunVps shop)) store_record.
Definition shop_created : list OwnershipRecord :=
  [owned (mkDurableOperationIdentity "op-1" "digest") "network" "net" "n1"; owned (mkDurableOperationIdentity "op-1" "digest") "container" "odoo" "c1"].

Definition shop_started :=
  exec (host_handler true) (run one_digest no_payload no_scope has_all (shop_binding "run" []) shop) store_record.
Lemma vps_run_is_settled_witness :
  shop_started.1.1 = Ok at_ref /\ do_lifecycle shop_started.2 = SUCCEEDED /\
  run_ends (shop_binding "run" []) shop shop_started.1.2 (Ok at_ref).
Proof.
  split; [vm_compute; reflexivity|]. split; [vm_compute; reflexivity|].
  apply (vps_run_is_settled one_digest no_payload no_scope has_all (shop_binding "run" []) shop).
  assert (H : Ok at_ref = shop_started.1.1) by (vm_compute; reflexivity). rewrite H.
  exact (exec_runs (host_handler true) (run one_digest no_payload no_scope has_all (shop_binding "run" []) shop) store_record).
Defined.
