(* ===== verification/VpsWiring.v ===== *)
(** * The VPS backend on its Docker mechanics ([bind_vps_operation] without [mechanics=])

    [drive] runs a program of the provider with [RemoteDockerMechanics] answering its host
    operations; what remains are the operations of the store and the commands on the VPS. *)

From S2P Require Import Prelude Effects Values Json Backend Durable DockerBackend RemoteDeployment VpsTransport VpsMechanics VpsMechanicsFacts VpsExitCodes VpsProvider VpsProviderFacts.

Inductive wired_op : Type -> Type :=
| StoreOp {R : Type} (e : vps_op R) : wired_op R
| HostOp {R : Type} (e : mech_op R) : wired_op R.
Abbreviation wired_history := (list (event wired_op exn)).

(** [bind_vps_operation] without [mechanics=]: the private key the transport of the new
    [RemoteDockerMechanics] uses.  [credentials] resolves an opaque handle. *)
Definition bind_vps_operation (binding : VpsOperationBinding) (credentials : option (string -> result exn string)) : result exn string :=
  let! key := match credentials, vb_credential_handles binding with
              | Some resolve, handle :: _ => resolve handle
              | _, _ => Err (ValueError "VPS binding requires opaque credential resolution")
              end in
  check_binding binding ;!
  Ok key.

(** The optional methods [RemoteDockerMechanics] has: all of them. *)
Definition all_offered (name : string) : bool := true.

Section Wiring.
Variable sha256 : string -> string.
Variable has_resolver : bool.
(** The looks at the containers before [runtime_ready] gives up. *)
Variable fuel : nat.

Definition mechanics {R : Type} (e : vps_op R) : option (mech R) :=
  match e in vps_op R return option (mech R) with
  | BindScope scope instance => Some (bind_scope scope instance)
  | ValidateScope plan scope => Some (validate_scope plan scope)
  | ValidateExposure ref scope pointer => Some (validate_exposure ref scope pointer)
  | EnsureRuntime plan operation => Some (ensure_runtime sha256 has_resolver plan operation)
  | RuntimeReady ref => Some (runtime_ready fuel ref)
  | RuntimeStatus ref => Some (runtime_status ref)
  | EnsureHttp ref hostname operation => Some (ensure_http ref hostname operation)
  | VerifyHttp hostname => Some (verify_http hostname)
  | VerifyDns hostname target => Some (verify_dns hostname target)
  | StopRuntime ref => Some (VpsMechanics.stop ref)
  | DestroyRuntime ref ownership => Some (VpsMechanics.destroy sha256 ref ownership)
  | DestroyOutcome ref => Some (mret (destroy_result ref))
  | ReadLogs ref role => Some (VpsMechanics.logs ref role)
  | ExecIn ref argv => Some (exec_ ref argv)
  | _ => None
  end.

Definition on_host {A : Type} (p : prog mech_op exn A) : prog wired_op exn A := embed (fun R => @HostOp R) p.
Fixpoint drive {A : Type} (p : vps_prog A) (s : mech_state) : prog wired_op exn A :=
  match p with
  | Ret a => Ret a
  | Raise x => Raise x
  | Call e k =>
    match mechanics e with
    | Some m => let* '(r, s') := on_host (m s) in drive (k r) s'
    | None => Call (StoreOp e) (fun r => drive (k r) s)
    end
  end.

(** ** Exit codes *)

Lemma mechanics_eyeless {R : Type} (e : vps_op R) m : mechanics e = Some m -> eyeless m.
Proof.
  destruct e; intros [= <-].
  - apply eyeless_modify.
  - apply eyeless_validate_scope.
  - apply eyeless_validate_exposure.
  - apply eyeless_ensure.
  - apply eyeless_ready.
  - apply eyeless_status.
  - apply eyeless_ret.
  - apply eyeless_http.
  - apply eyeless_dns.
  - apply eyeless_stop.
  - apply eyeless_destroy.
  - apply eyeless_ret.
  - apply eyeless_logs.
  - apply eyeless_exec.
Qed.

(** Another exit code and error output for every command on the VPS. *)
Definition recode_host (code : CommandResult -> Z) (stderr : CommandResult -> string) (ev : event wired_op exn) : event wired_op exn :=
  match ev with
  | Event e r => match e in wired_op R return result exn R -> event wired_op exn with
                 | StoreOp e => fun r => Event (StoreOp e) r
                 | HostOp e => fun r => embed_event (fun R => @HostOp R) (recode code stderr (Event e r))
                 end r
  end.
Lemma recode_on_host code stderr tr :
  map (recode_host code stderr) (map (embed_event (fun R => @HostOp R)) tr) = map (embed_event (fun R => @HostOp R)) (map (recode code stderr) tr).
Proof. rewrite !map_map. apply map_ext. by intros []. Qed.

(** The exit codes of remote commands are ignored: give every command on the VPS another exit
    code and another error output, and each request of the provider performs the same effects,
    records the same checkpoints and outcomes, and returns the same. *)
Theorem remote_exit_codes_are_ignored code stderr {A : Type} (p : vps_prog A) s tr o :
  runs (drive p s) tr o -> runs (drive p s) (map (recode_host code stderr) tr) o.
Proof.
  revert s tr. induction p as [a|x|R e k IH]; intros s tr; cbn [drive].
  - by intros [-> ->]%runs_Ret.
  - by intros [-> ->]%runs_Raise.
  - destruct (mechanics e) as [m|] eqn:Em.
    + intros [(tr1 & tr2 & [r s'] & -> & H1 & H2)|(x & -> & H1)]%runs_bind; apply runs_embed in H1 as (tr0 & -> & H1);
        apply (blind_recode code stderr _ _ _ (mechanics_eyeless e m Em s)) in H1; rewrite ?map_app, recode_on_host; apply runs_bind.
      * left. eexists _, _, _. split; [done|]. split; [apply runs_embed; by eexists|by apply IH].
      * right. exists x. split; [done|]. apply runs_embed. by eexists.
    + intros (r & tr' & -> & H)%runs_Call. cbn [map recode_host]. apply runs_Call. eexists _, _. split; [done|]. by apply IH.
Qed.

(** ** Removals on the VPS *)

(** The commands of a history of the wired program. *)
Definition host_event (ev : event wired_op exn) : option (event mech_op exn) :=
  match ev with
  | Event e r => match e in wired_op R return result exn R -> option (event mech_op exn) with
                 | StoreOp _ => fun _ => None
                 | HostOp e => fun r => Some (Event e r)
                 end r
  end.
Definition hosts (past : wired_history) : mech_history := omap host_event past.
Lemma hosts_snoc past {R : Type} (e : mech_op R) r : hosts (past ++ [Event (HostOp e) r]) = hosts past ++ [Event e r].
Proof. unfold hosts. by rewrite omap_app. Qed.

Section Within.
Variable W : wired_history -> forall R, wired_op R -> Prop.
Lemma guarded_on_host {A : Type} (S : mech_history -> forall R, mech_op R -> Prop) past (p : prog mech_op exn A) Q Q' :
  (forall new R (e : mech_op R), S (hosts (past ++ new)) R e -> W (past ++ new) R (HostOp e)) ->
  (forall new o, Q (hosts (past ++ new)) o -> Q' (past ++ new) o) ->
  guarded S (hosts past) p Q -> guarded W past (on_host p) Q'.
Proof.
  revert past. induction p as [a|x|R e k IH]; intros past HS HQ.
  - intros H. specialize (HQ [] (Ok a)). rewrite app_nil_r in HQ. by apply HQ.
  - intros H. specialize (HQ [] (Err x)). rewrite app_nil_r in HQ. by apply HQ.
  - intros [He Hk]. split; [specialize (HS [] R e); rewrite app_nil_r in HS; by apply HS|]. intros r. apply IH.
    + intros new R' e'. rewrite <- app_assoc. apply HS.
    + intros new o. rewrite <- app_assoc. apply HQ.
    + rewrite hosts_snoc. apply Hk.
Qed.

(** What the provider may do, [S], and what is true of its history, [I], carry over to the wired program. *)
Variable S : vps_history -> forall R, vps_op R -> Prop.
Variable I : vps_history -> wired_history -> Prop.
Hypothesis store_step : forall past wpast R (e : vps_op R), I past wpast -> S past R e -> mechanics e = None ->
  W wpast _ (StoreOp e) /\ forall r, I (past ++ [Event e r]) (wpast ++ [Event (StoreOp e) r]).
Hypothesis host_step : forall past wpast R (e : vps_op R) m s, I past wpast -> S past R e -> mechanics e = Some m ->
  guarded W wpast (on_host (m s)) (fun wpast' o => match o with Ok (r, _) => I (past ++ [Event e r]) wpast' | Err _ => True end).
Lemma drive_within {A : Type} (p : vps_prog A) past wpast s :
  I past wpast -> guarded S past p (fun _ _ => True) -> guarded W wpast (drive p s) (fun _ _ => True).
Proof using store_step host_step.
  revert past wpast s. induction p as [a|x|R e k IH]; intros past wpast s HI Hp; [done..|]. destruct Hp as [He Hk]. cbn [drive].
  destruct (mechanics e) as [m|] eqn:Em.
  - apply guarded_bind. eapply guarded_mono; [|by eapply host_step]. intros new [[r s']|x] H; [|done]. by eapply IH.
  - destruct (store_step _ _ _ _ HI He Em) as [HW HI']. split; [done|]. intros r. by eapply IH.
Qed.
End Within.

(** The one-shot container that initialises the database of a managed Odoo of a plan. *)
Definition bootstrap_of (plan : BackendPlan) (name : string) : Prop :=
  exists spec, spec ∈ [bp_postgres plan; bp_odoo plan] /\ managed_image (ctr_image spec) = true /\ ctr_role spec = "odoo" /\
    name = ctr_name spec +:+ "-bootstrap".
(** Why a removal on behalf of a request is right. *)
Definition removal_is_owned (binding : VpsOperationBinding) (q : vps_request) (past : wired_history) (identity : string) : Prop :=
  match q with
  | RunVps plan =>
    bootstrap_of plan identity \/
    exists record, Event (StoreOp (CreateOrLoadOp (vb_operation binding))) (Ok record) ∈ past /\
      proven sha256 (creations (do_identity record)) (hosts past) identity
  | DestroyVps _ => proven sha256 (fun r => r ∈ vb_ownership binding) (hosts past) identity
  | _ => False
  end.

Section Removals.
Variable dump_payload : payload -> json.
Variable dump_scope : ProjectScope -> json.
Variable binding : VpsOperationBinding.
Variable q : vps_request.

Definition answered_load (past : wired_history) (record : DurableOperationRecord) : Prop :=
  Event (StoreOp (CreateOrLoadOp (vb_operation binding))) (Ok record) ∈ past.
Definition owned_removals (past : wired_history) (R : Type) (e : wired_op R) : Prop :=
  match e with
  | HostOp e => match e with
                | Ssh command _ => forall identity, removes command = Some identity -> removal_is_owned binding q past identity
                | _ => True
                end
  | StoreOp _ => True
  end.
(** The provider's history in step with the wired one. *)
Definition in_step (past : vps_history) (wpast : wired_history) : Prop :=
  (forall record, loaded binding past record -> answered_load wpast record) /\
  (forall plan records, q = RunVps plan -> provisioned past records ->
     exists record, answered_load wpast record /\ Forall (fun r => is_created r = true -> creations (do_identity record) r) records) /\
  (forall route, has_route past route -> rr_kind (own_ref route) = "http").

Definition loading (ev : event vps_op exn) : option DurableOperationRecord :=
  match ev with
  | Event e r => match e in vps_op R return result exn R -> option DurableOperationRecord with
                 | CreateOrLoadOp _ => fun r => match r with Ok record => Some record | Err _ => None end
                 | _ => fun _ => None
                 end r
  end.
Lemma loaded_snoc past ev record : loaded binding (past ++ [ev]) record -> loaded binding past record \/ loading ev = Some record.
Proof. unfold loaded. rewrite elem_of_app, list_elem_of_singleton. intros [H|<-]; [by left|by right]. Qed.
Lemma in_step_grows past wpast ev new :
  in_step past wpast -> loading ev = None -> (forall route, routed ev = Some route -> rr_kind (own_ref route) = "http") ->
  (forall records, ensured ev = Some records ->
     exists record, answered_load wpast record /\ Forall (fun r => is_created r = true -> creations (do_identity record) r) records) ->
  in_step (past ++ [ev]) (wpast ++ new).
Proof.
  intros (Hl & Hp & Hr) Hnl Hnr Hne.
  assert (Hmore : forall records : list OwnershipRecord,
    (exists record, answered_load wpast record /\ Forall (fun r => is_created r = true -> creations (do_identity record) r) records) ->
    exists record, answered_load (wpast ++ new) record /\ Forall (fun r => is_created r = true -> creations (do_identity record) r) records).
  { intros records (record & Hin & Hf). exists record. split; [apply elem_of_app; by left|done]. }
  split_and!.
  - intros record [H|H]%loaded_snoc; [|congruence]. apply elem_of_app. left. by apply Hl.
  - intros plan records Hq [H|H]%provisioned_snoc; apply Hmore; [by eapply Hp|by apply Hne].
  - intros route [H|H]%route_snoc; [by apply Hr|by apply Hnr].
Qed.
Lemma in_step_snoc past wpast ev new :
  in_step past wpast -> loading ev = None -> ensured ev = None -> (forall route, routed ev = Some route -> rr_kind (own_ref route) = "http") ->
  in_step (past ++ [ev]) (wpast ++ new).
Proof. intros HI Hnl Hne Hnr. apply in_step_grows; [done..|]. intros records. by rewrite Hne. Qed.

Lemma store_step past wpast R (e : vps_op R) :
  in_step past wpast -> mechanics e = None ->
  owned_removals wpast _ (StoreOp e) /\ forall r, in_step (past ++ [Event e r]) (wpast ++ [Event (StoreOp e) r]).
Proof.
  intros HI Hm. split; [done|]. intros r. destruct e; try discriminate Hm; try (by apply in_step_snoc).
  destruct HI as (Hl & Hp & Hr). split_and!.
  - intros record. unfold loaded. rewrite elem_of_app, list_elem_of_singleton. intros [H|H]; (apply elem_of_app); [left; by apply Hl|right].
    apply list_elem_of_singleton. exact (f_equal (fun ev : event vps_op exn => match ev with Event e r => Event (StoreOp e) r end) H).
  - intros plan records Hq [H|H]%provisioned_snoc; [|discriminate H]. destruct (Hp plan records Hq H) as (record & Hin & Hf).
    exists record. split; [apply elem_of_app; by left|done].
  - intros route [H|H]%route_snoc; [by apply Hr|discriminate H].
Qed.

(** A method that only does what is always permitted removes nothing. *)
Lemma safe_step {R : Type} (e : vps_op R) (m : mech R) (P : R -> Prop) past wpast s :
  in_step past wpast -> returns sha256 (fun _ => False) (fun _ => False) (fun _ => True) m P ->
  (forall r, loading (Event e r) = None) -> (forall r, ensured (Event e r) = None) ->
  (forall r route, (forall a, r = Ok a -> P a) -> routed (Event e r) = Some route -> rr_kind (own_ref route) = "http") ->
  guarded owned_removals wpast (on_host (m s)) (fun wpast' o => match o with Ok (r, _) => in_step (past ++ [Event e r]) wpast' | Err _ => True end).
Proof.
  intros HI Hm Hl He Hr. eapply guarded_on_host; [..|apply Hm].
  - intros new R' e' H. destruct e'; try done. intros identity Hrm.
    destruct (proj1 H identity Hrm) as [(record & ? & ? & ? & ? & [] & _)|[]].
  - intros new [[[a|x] s']|y]; [|intros _|done]; [intros Ha|]; apply in_step_snoc; auto.
    + intros route. apply Hr. by intros b [= <-].
    + intros route. apply Hr. by intros b.
Qed.

Lemma ensure_within past operation plan s :
  guarded (permitted sha256 (creations operation) (bootstrap_of plan) (fun _ => True)) past (ensure_runtime sha256 has_resolver plan operation s)
    (fun _ o => match o with Ok (Ok records, _) => Forall (fun r => is_created r = true -> creations operation r) records | _ => True end).
Proof.
  unfold ensure_runtime. apply within_bind. eapply guarded_mono; [|apply safe_preflight].
  intros new [[[inspected|x] s']|y] _; [|done..]. eapply guarded_weaken.
  2:{ eapply guarded_mono; [|apply (ensure_guarded sha256 has_resolver plan operation inspected)].
      intros new' [[[records|x] s'']|y]; [by intros [_ H]|done..]. }
  intros h R e. destruct e; try done. intros [Hrm _]. split; [|done]. intros x Hx. destruct (Hrm x Hx) as [H|(spec & Hin & _ & H)]; [by left|].
  right. exists spec. split; [done|exact H].
Qed.
Lemma proven_weaken (mine mine' : OwnershipRecord -> Prop) past identity :
  (forall r, mine r -> is_created r = true -> mine' r) -> proven sha256 mine past identity -> proven sha256 mine' past identity.
Proof. intros Hm (record & receipt & r & entry & labels & H1 & H2 & H3). exists record, receipt, r, entry, labels. split; [by apply Hm|done]. Qed.
Lemma destroy_step past wpast ref ownership s :
  in_step past wpast ->
  match q with
  | RunVps plan => unfinished binding past /\ instance_ref plan = Ok ref /\
                     exists records, provisioned past records /\ ownership = List.filter is_created records
  | DestroyVps ref' => unfinished binding past /\ ref = ref' /\ ownership = List.filter is_created (vb_ownership binding)
  | ReconcileVps xq => ref = xq_instance xq /\ exists route, has_route past route /\ is_created route = true /\ ownership = [route]
  | _ => False
  end ->
  guarded owned_removals wpast (on_host (VpsMechanics.destroy sha256 ref ownership s))
    (fun wpast' o => match o with Ok (r, _) => in_step (past ++ [Event (DestroyRuntime ref ownership) r]) wpast' | Err _ => True end).
Proof.
  intros HI Hj. destruct (match q with ReconcileVps _ => true | _ => false end) eqn:Eq.
  { destruct q; try discriminate Eq. destruct Hj as (_ & route & Hr & _ & ->). apply HI in Hr.
    unfold VpsMechanics.destroy, destroy_owned. cbn [rev app meach]. unfold destroy_one. rewrite Hr.
    rewrite <- (app_nil_r wpast). by apply in_step_snoc. }
  eapply guarded_on_host with (Q := fun _ _ => True) (S := permitted sha256 (fun r => r ∈ ownership) (fun _ => False) (fun _ => False)).
  - intros new R' e' H. destruct e'; try done. intros identity Hrm. destruct (proj1 H identity Hrm) as [Hp|[]].
    unfold removal_is_owned. destruct q eqn:Hq; try done.
    + destruct Hj as (_ & _ & records & Hprov & ->). right. destruct (proj1 (proj2 HI) _ _ Hq Hprov) as (record & Hin & Hf).
      exists record. split; [apply elem_of_app; by left|]. eapply proven_weaken; [|exact Hp]. intros r' Hr' Hc.
      apply list_elem_of_In, filter_In in Hr' as [Hr' _]. rewrite Forall_forall in Hf. apply Hf; [by apply list_elem_of_In|done].
    + destruct Hj as (_ & _ & ->). eapply proven_weaken; [|exact Hp]. intros r' Hr' _.
      apply list_elem_of_In, filter_In in Hr' as [Hr' _]. by apply list_elem_of_In.
  - intros new [[r s']|y] _; [|done]. by apply in_step_snoc.
  - apply destroy_owned_within; [by apply Forall_forall|done].
Qed.
Lemma host_step past wpast R (e : vps_op R) m s :
  in_step past wpast -> allowed sha256 dump_payload dump_scope binding q past R e -> mechanics e = Some m ->
  guarded owned_removals wpast (on_host (m s)) (fun wpast' o => match o with Ok (r, _) => in_step (past ++ [Event e r]) wpast' | Err _ => True end).
Proof.
  intros HI (_ & _ & Hj) Hm. destruct e; try discriminate Hm; injection Hm as <-.
  4:{ destruct Hj as (Hq & record & Hl & _ & ->). pose proof (proj1 HI _ Hl) as Hw.
      eapply guarded_on_host; [..|apply ensure_within].
      - intros new R' e' H. destruct e'; try done. intros identity Hrm. unfold removal_is_owned. rewrite Hq.
        destruct (proj1 H identity Hrm) as [Hp|Hb]; [|by left]. right. exists record. split; [apply elem_of_app; by left|exact Hp].
      - intros new [[[records|x] s']|y]; [intros Hf|intros _|done]; apply in_step_grows; try done. intros ? [= <-]. by exists record. }
  6:{ eapply (safe_step _ _ (fun route => rr_kind (own_ref route) = "http")); [exact HI|by apply returns_ret|done|done|].
      intros r route Hr Hroute. destruct r as [a|x]; [|discriminate Hroute]. injection Hroute as <-. by apply Hr. }
  9:{ destruct Hj as [_ Hj]. apply destroy_step; [done|]. destruct q; [naive_solver..]. }
  all: eapply (safe_step _ _ (fun _ => True)); [exact HI| |done..].
  all: first [apply safe_bound | apply safe_validate_scope | apply safe_validate_exposure | apply safe_ready | apply safe_status
    | apply safe_verify_http | apply safe_verify_dns | apply safe_stop | apply safe_logs | apply safe_exec | by apply returns_ret].
Qed.
End Removals.

(** C20. Whatever the store and the VPS answer, a request of the provider on its Docker mechanics
    removes (containers, networks, volumes) only what the live inspection just proved to be the
    creation of an operation: for [run] of its own operation (or the bootstrap container of the
    plan, by name), for [destroy] of a record of the binding; no other request removes
    anything, a failed exposure included. *)
Theorem remote_removals_are_owned dump_payload dump_scope binding q s tr o past command mutating r later identity :
  runs (drive (serve sha256 dump_payload dump_scope all_offered binding q) s) tr o ->
  tr = past ++ Event (HostOp (Ssh command mutating)) r :: later -> removes command = Some identity ->
  removal_is_owned binding q past identity.
Proof.
  intros Hruns -> Hrm.
  assert (Hg : guarded (owned_removals binding q) [] (drive (serve sha256 dump_payload dump_scope all_offered binding q) s) (fun _ _ => True)).
  { eapply drive_within; [..|apply serve_acts].
    - intros past' wpast R e HI _ Hm. by apply store_step.
    - intros past' wpast R e m s' HI Ha Hm. by eapply host_step.
    - split_and!; [intros record H%elem_of_nil|intros plan records _ (ev & H%elem_of_nil & _)|intros route (ev & H%elem_of_nil & _)]; done. }
  destruct (guarded_runs _ _ _ _ _ _ Hg Hruns) as [_ H]. exact (H past _ (HostOp (Ssh command mutating)) r later eq_refl identity Hrm).
Qed.
End Wiring.

(** ** On the small VPS *)

Definition wired_handler : handler (E := wired_op) (X := exn) (DurableOperationRecord * vps) :=
  fun R e => match e in wired_op R return DurableOperationRecord * vps -> result exn R * (DurableOperationRecord * vps) with
             | StoreOp e => fun w => let '(r, record) := host_handler true _ e w.1 in (r, (record, w.2))
             | HostOp e => fun w => let '(r, v) := vps_handler _ e w.2 in (r, (w.1, v))
             end.
Definition shop_destroying : prog wired_op exn unit :=
  drive one_digest true 5 (serve one_digest no_payload no_scope all_offered (shop_binding "destroy" shop_records) (DestroyVps at_ref)) shop_state.
Definition shop_destroyed := exec wired_handler shop_destroying (store_record, shop_run.2).
Lemma remote_removals_are_owned_witness :
  vps_objects shop_destroyed.2.2 = [] /\
  proven one_digest (fun record => record ∈ shop_records) (hosts (take 3 shop_destroyed.1.2)) "id-odoo".
Proof.
  split; [vm_compute; reflexivity|].
  apply (remote_removals_are_owned one_digest true 5 no_payload no_scope (shop_binding "destroy" shop_records) (DestroyVps at_ref) shop_state
    shop_destroyed.1.2 shop_destroyed.1.1 (take 3 shop_destroyed.1.2) ["docker"; "rm"; "-f"; "id-odoo"] true
    (Ok (mkCommandResult 0 "id-odoo" "")) (drop 4 shop_destroyed.1.2) "id-odoo").
  - exact (exec_runs wired_handler shop_destroying (store_record, shop_run.2)).
  - vm_compute. reflexivity.
  - reflexivity.
Defined.

(** On a VPS where every [docker run] fails, [run] succeeds, records the success, and leaves no
    container behind. *)
Definition shop_running : prog wired_op exn InstanceRef :=
  drive one_digest true 5 (run one_digest no_payload no_scope all_offered (shop_binding "run" []) shop) shop_state.
Definition shop_broken := exec wired_handler shop_running (store_record, mkVps [] true).
Lemma remote_exit_codes_are_ignored_witness :
  shop_broken.1.1 = Ok at_ref /\ do_lifecycle shop_broken.2.1 = SUCCEEDED /\ map fst (vps_objects shop_broken.2.2) = ["net"] /\
  runs shop_running (map (recode_host (fun _ => 0%Z) (fun _ => "")) shop_broken.1.2) shop_broken.1.1.
Proof.
  do 3 (split; [vm_compute; reflexivity|]).
  exact (remote_exit_codes_are_ignored one_digest true 5 (fun _ => 0%Z) (fun _ => "")
    (run one_digest no_payload no_scope all_offered (shop_binding "run" []) shop) shop_state shop_broken.1.2 shop_broken.1.1
    (exec_runs wired_handler shop_running (store_record, mkVps [] true))).
Defined.
