(* ===== verification/ImageRegistry.v ===== *)
(** * Image references and the GHCR registry ([image_registry/reference.py], [odoo_forge_registry/provider.py])

    References are text; the adapter runs [docker push], [docker pull] and
    [docker buildx imagetools inspect] and reads digests from their output. *)

From S2P Require Import Prelude Effects Regex Values Json.

(** ** Errors ([image_registry/errors.py], and the exceptions of [subprocess.run]) *)

Inductive registry_error : Type :=
| UnsupportedRegistry (registry : string)
| MalformedReference (ref detail : string)
| PublishFailed (ref detail : string)
| PullFailed (ref detail : string)
| AuthenticationFailed (ref : string)
| ImageNotFound (ref : string)
| DigestMismatch (ref : string)
| RegistryUnavailable (ref detail : string)
| DockerMissing | SpawnFailed | SpawnTimeout
| OtherError (e : exn).
(** [isinstance(exc, RegistryError)] *)
Definition is_registry_error (e : registry_error) : bool :=
  match e with DockerMissing | SpawnFailed | SpawnTimeout | OtherError _ => false | _ => true end.
Definition SUPPORTED_REGISTRY : string := "ghcr.io".
(** [str(exc)] of a [RegistryError] *)
Definition error_text (e : registry_error) : string :=
  match e with
  | UnsupportedRegistry registry =>
    "unsupported registry '" +:+ registry +:+ "' — only '" +:+ SUPPORTED_REGISTRY +:+ "' is supported in this slice"
  | MalformedReference ref detail => "malformed image reference '" +:+ ref +:+ "': " +:+ detail
  | PublishFailed ref detail => "cannot publish '" +:+ ref +:+ "': " +:+ detail
  | PullFailed ref detail => "cannot prefetch '" +:+ ref +:+ "': " +:+ detail
  | AuthenticationFailed ref => "GHCR authentication failed for '" +:+ ref +:+ "'"
  | ImageNotFound ref => "image reference not found in registry: '" +:+ ref +:+ "'"
  | DigestMismatch ref => "registry digest mismatch for '" +:+ ref +:+ "'"
  | RegistryUnavailable ref detail => "cannot reach registry for '" +:+ ref +:+ "': " +:+ detail
  | _ => ""
  end.

(** ** References *)

Definition hex_lower (c : ascii) : bool := is_digit c || in_range "a"%char "f"%char c.
Definition tag_char (c : ascii) : bool := is_alnum c || one_of "_.-" c.
Definition TAG_RE : regex := rcats [RBol; RSet (fun c => is_alnum c || one_of "_" c); rupto 127 (RSet tag_char); REol].
Definition DIGEST_RE : regex := rcats [RBol; rword "sha256:"; rrep 64 (RSet hex_lower); REol].
Definition lower_or_digit (c : ascii) : bool := is_lower c || is_digit c.
Definition NAME_PART_RE : regex :=
  rcats [RBol; rplus (RSet lower_or_digit); RStar (RCat (RSet (one_of "._-")) (rplus (RSet lower_or_digit))); REol].

(** [s.split(c, 1)] and [s.rsplit(c, 1)] with [c in s] *)
Definition cut (c : ascii) (s : string) : option (string * string) :=
  match cut_first c (chars s) with Some (a, b) => Some (str a, str b) | None => None end.
Definition rcut (c : ascii) (s : string) : option (string * string) :=
  match cut_last c (chars s) with Some (a, b) => Some (str a, str b) | None => None end.

Definition split_registry (ref : string) : result registry_error (string * string) :=
  if bool_decide (ref = "") || existsb is_space (chars ref)
  then Err (MalformedReference ref "reference must not be empty or contain whitespace") else
  match cut "/" ref with
  | None => Err (MalformedReference ref "reference must include a registry and image path")
  | Some (registry, remainder) =>
    if bool_decide (remainder = "") then Err (MalformedReference ref "image path is missing") else Ok (registry, remainder)
  end.
Definition validate_name (name ref : string) : result registry_error unit :=
  let all := split_on "/" name in
  let parts := List.filter (fun part => negb (bool_decide (part = ""))) all in
  ensure (2 <=? length parts) (MalformedReference ref "image path must include owner and image name") ;!
  ensure (length parts =? length all) (MalformedReference ref "image path contains empty segments") ;!
  ensure (forallb (fullmatch NAME_PART_RE) parts) (MalformedReference ref "image path contains unsupported characters").
Definition normalize_image_reference (ref : string) (require_digest : bool) : result registry_error string :=
  let! '(registry, remainder) := split_registry ref in
  if negb (bool_decide (registry = SUPPORTED_REGISTRY)) then Err (UnsupportedRegistry registry) else
  match cut "@" remainder with
  | Some (name, digest) =>
    validate_name name ref ;!
    if negb (fullmatch DIGEST_RE digest) then Err (MalformedReference ref "digest must be sha256:<64 lowercase hex>") else
    Ok (registry +:+ "/" +:+ name +:+ "@" +:+ digest)
  | None =>
    if require_digest then Err (MalformedReference ref "digest reference required") else
    match rcut ":" remainder with
    | None => Err (MalformedReference ref "tag reference must include :<tag>")
    | Some (name, tag) =>
      validate_name name ref ;!
      if negb (fullmatch TAG_RE tag) then Err (MalformedReference ref "tag contains unsupported characters") else
      Ok (registry +:+ "/" +:+ name +:+ ":" +:+ tag)
    end
  end.
Definition has_at (s : string) : bool := existsb (Ascii.eqb "@"%char) (chars s).
Definition normalize_publishable_image_reference (ref : string) : result registry_error string :=
  let! normalized := normalize_image_reference ref false in
  if has_at normalized then Err (MalformedReference ref "digest references are not publishable") else Ok normalized.
Definition normalize_digest_image_reference (ref : string) : result registry_error string := normalize_image_reference ref true.

(** ** The adapter *)

Definition AUTH_MARKERS : list string := ["authentication required"; "unauthorized"; "insufficient_scope"; "denied"].
Definition NOT_FOUND_MARKERS : list string := ["no such manifest"; "not found"; "does not exist"; "manifest unknown"].
Definition marked (markers : list string) (text : string) : bool := existsb (fun m => contains (chars m) (chars text)) markers.

(** [ref.lower().find('ghcr.io/')] and what follows *)
Fixpoint from_ghcr (l : list ascii) : option (list ascii) :=
  if is_prefix (chars "ghcr.io/") (map lower_char l) then Some l
  else match l with [] => None | _ :: l' => from_ghcr l' end.
Definition before_last (c : ascii) (s : string) : string := match rcut c s with Some (a, _) => a | None => s end.
Definition safe_repository (ref : string) : string :=
  match from_ghcr (chars ref) with
  | None => "ghcr.io"
  | Some l =>
    let parts := split_on "/" (before_last ":" (before_first "@" (str l))) in
    if 3 <=? length parts then join "/" (take 3 parts) else "ghcr.io"
  end.
Definition reject_userinfo (ref : string) : result registry_error unit :=
  ensure (negb (has_at (before_first "/" ref)))
    (MalformedReference (safe_repository ref) "credentials in image references are not supported").
Definition normalize_publishable_ref (ref : string) : result registry_error string :=
  reject_userinfo ref ;! normalize_publishable_image_reference ref.
Definition normalize_digest_ref (ref : string) : result registry_error string :=
  reject_userinfo ref ;! normalize_digest_image_reference ref.
Definition canonical_digest_ref (ref digest : string) : string :=
  (match cut "@" ref with Some (repo, _) => repo | None => before_last ":" ref end) +:+ "@" +:+ digest.

(** The member of a mapping when it is text. *)
Definition text_member (key : string) (d : list (string * json)) : option string :=
  match dget key d with Some (JStr s) => Some s | _ => None end.
Definition extract_digest (payload : json) : option string :=
  match payload with
  | JObj d =>
    match dget "manifest" d with
    | Some (JObj m) => match text_member "digest" m with Some s => Some s | None => text_member "digest" d end
    | _ => text_member "digest" d
    end
  | _ => None
  end.
(** [digest:\s*(sha256:[0-9a-f]{64})] at the start of a text, ignoring case: the group, in lower case. *)
Definition push_digest_here (l : list ascii) : option string :=
  let lowered := map lower_char l in
  if is_prefix (chars "digest:") lowered then
    let rest := drop_while is_space (drop 7 lowered) in
    let found := take 71 rest in
    if is_prefix (chars "sha256:") found && (length found =? 71) && forallb hex_lower (drop 7 found) then Some (str found) else None
  else None.
Fixpoint push_digest_in (l : list ascii) : option string :=
  match push_digest_here l with
  | Some d => Some d
  | None => match l with [] => None | _ :: l' => push_digest_in l' end
  end.
(** The two streams of a command. *)
Definition extract_push_digest (out err : string) : option string :=
  push_digest_in (chars (join (String newline "") (List.filter (fun part => negb (bool_decide (part = ""))) [out; err]))).

Inductive registry_op : Type -> Type :=
| RunDocker (argv : list string) : registry_op (Z * string * string).
Definition registry_prog := prog registry_op registry_error.

Section Provider.
(** [f'{self._timeout}'] *)
Variable timeout_text : string.

Definition run_registry_command (argv : list string) (ref unavailable_detail : string) : registry_prog (string * string) :=
  let* r := attempt (call (RunDocker argv)) in
  match r with
  | Err DockerMissing => Raise (RegistryUnavailable (safe_repository ref) "docker executable not found")
  | Err SpawnFailed => Raise (RegistryUnavailable (safe_repository ref) "docker command failed to execute")
  | Err SpawnTimeout => Raise (RegistryUnavailable (safe_repository ref) ("docker command timed out after " +:+ timeout_text +:+ "s"))
  | Err e => Raise e
  | Ok (returncode, out, err) =>
    if (returncode =? 0)%Z then Ret (out, err) else
    let lowered := lower (strip err) in
    if marked AUTH_MARKERS lowered then Raise (AuthenticationFailed (safe_repository ref)) else
    if marked NOT_FOUND_MARKERS lowered then Raise (ImageNotFound (safe_repository ref)) else
    Raise (RegistryUnavailable (safe_repository ref) unavailable_detail)
  end.
Definition inspect_argv (ref : string) : list string := ["docker"; "buildx"; "imagetools"; "inspect"; ref; "--format"; "{{json .}}"].
Definition inspect_digest (ref : string) : registry_prog string :=
  let* '(out, _) := run_registry_command (inspect_argv ref) ref "docker buildx inspect failed" in
  match loads out with
  | None => Raise (RegistryUnavailable (safe_repository ref) "registry inspect returned malformed JSON")
  | Some payload =>
    match extract_digest payload with
    | Some digest =>
      if fullmatch DIGEST_RE digest then Ret digest
      else Raise (RegistryUnavailable (safe_repository ref) "registry inspect did not return a valid manifest digest")
    | None => Raise (RegistryUnavailable (safe_repository ref) "registry inspect did not return a valid manifest digest")
    end
  end.
Definition push_argv (ref : string) : list string := ["docker"; "push"; ref].
Definition pull_argv (ref : string) : list string := ["docker"; "pull"; ref].
Definition push_image (ref : string) : registry_prog (string * string) := run_registry_command (push_argv ref) ref "docker push failed".
Definition pull_image (ref : string) : registry_prog unit :=
  run_registry_command (pull_argv ref) ref "docker pull failed" ;* Ret tt.

Definition publish (ref : string) : registry_prog string :=
  let* normalized := lift (normalize_publishable_ref ref) in
  catch
    (let* '(out, err) := push_image normalized in
     let* digest := match extract_push_digest out err with Some d => Ret d | None => inspect_digest normalized end in
     lift (normalize_digest_image_reference (canonical_digest_ref normalized digest)))
    (fun e => if is_registry_error e then Raise (PublishFailed (safe_repository normalized) (error_text e)) else Raise e).
Definition pull (digest : string) : registry_prog string :=
  let* normalized := lift (normalize_digest_ref digest) in
  catch (pull_image normalized)
    (fun e => if is_registry_error e then Raise (PullFailed (safe_repository normalized) (error_text e)) else Raise e) ;*
  Ret normalized.
Definition resolve_digest (ref : string) : registry_prog string :=
  let* normalized := lift (normalize_publishable_ref ref) in
  let* digest := inspect_digest normalized in
  lift (normalize_digest_image_reference (canonical_digest_ref normalized digest)).
Definition exists_image (digest : string) : registry_prog bool :=
  let* normalized := lift (normalize_digest_ref digest) in
  let* r := attempt (inspect_digest normalized) in
  match r with
  | Err (ImageNotFound _) => Ret false
  | Err e => Raise e
  | Ok current =>
    if bool_decide (canonical_digest_ref normalized current = normalized) then Ret true
    else Raise (DigestMismatch (safe_repository normalized))
  end.
End Provider.
#[global] Arguments safe_repository : simpl never.
#[global] Arguments normalize_image_reference : simpl never.
#[global] Arguments extract_push_digest : simpl never.

(** * Properties of image references and of the GHCR adapter *)

(** ** What a reference looks like *)

Definition valid_parts (parts : list string) : Prop := 2 <= length parts /\ Forall (fun p => fullmatch NAME_PART_RE p = true) parts.
Definition tagged (tail : string) : Prop := exists tag, tail = ":" +:+ tag /\ fullmatch TAG_RE tag = true.
Definition digested (tail : string) : Prop := exists digest, tail = "@" +:+ digest /\ fullmatch DIGEST_RE digest = true.
(** [ghcr.io/owner/name...] with a tag (unless a digest is required) or a digest. *)
Definition well_formed (require_digest : bool) (ref : string) : Prop :=
  exists parts tail, ref = "ghcr.io/" +:+ join "/" parts +:+ tail /\ valid_parts parts /\
    (digested tail \/ require_digest = false /\ tagged tail).

Definition part_char (c : ascii) : bool := lower_or_digit c || one_of "._-" c.
Definition digest_char (c : ascii) : bool := hex_lower c || one_of "sha256:" c.

Lemma part_chars s : fullmatch NAME_PART_RE s = true -> forallb part_char (chars s) = true.
Proof.
  apply fullmatch_within. unfold NAME_PART_RE, rcats, foldr, rplus. cbn [within].
  assert (H1 : forall c, lower_or_digit c = true -> part_char c = true) by (intros c Hc; unfold part_char; by rewrite Hc).
  assert (H2 : forall c, one_of "._-" c = true -> part_char c = true) by (intros c Hc; unfold part_char; by rewrite Hc, orb_true_r).
  by split_and!.
Qed.
Lemma part_nonempty s : fullmatch NAME_PART_RE s = true -> s <> "".
Proof. intros H ->. by vm_compute in H. Qed.
Lemma tag_chars s : fullmatch TAG_RE s = true -> forallb tag_char (chars s) = true.
Proof.
  apply fullmatch_within. unfold TAG_RE, rcats, foldr. cbn [within]. split_and!; try done.
  - intros c Hc. unfold tag_char. destruct (is_alnum c); [done|]. cbn in Hc |- *. by destruct (Ascii.eqb c "_").
  - generalize 127. intros n. induction n as [|n IH]; [done|]. cbn [rupto ropt within]. by split_and!.
Qed.
Lemma digest_chars s : fullmatch DIGEST_RE s = true -> forallb digest_char (chars s) = true.
Proof.
  apply fullmatch_within. unfold DIGEST_RE, rcats, foldr, rword. cbn [within]. split_and!; try done.
  - by apply within_lit.
  - generalize 64. intros n. induction n as [|n IH]; [done|]. cbn [rrep within]. split; [|done].
    intros c Hc. unfold digest_char. by rewrite Hc.
Qed.

Lemma parts_have c parts : part_char c = false -> valid_parts parts -> Forall (fun p => c ∉ chars p) parts.
Proof. intros Hc [_ H]. eapply Forall_impl; [exact H|]. intros p Hp. by eapply class_excludes, part_chars. Qed.
Lemma join_class (f : ascii -> bool) c parts :
  f c = true -> Forall (fun p => forallb f (chars p) = true) parts -> forallb f (chars (join (String c "") parts)) = true.
Proof.
  intros Hc H. induction H as [|p ps Hp Hps IH]; [done|]. destruct (decide (ps = [])) as [->|Hne]; [done|].
  rewrite join_cons, !chars_app, !forallb_app, Hp, IH by done. cbn. by rewrite Hc.
Qed.
Definition name_char (c : ascii) : bool := part_char c || Ascii.eqb c "/".
Lemma name_chars parts : valid_parts parts -> forallb name_char (chars (join "/" parts)) = true.
Proof.
  intros [_ H]. apply join_class; [done|]. eapply Forall_impl; [exact H|]. intros p Hp%part_chars.
  rewrite forallb_elem in Hp |- *. intros c Hc. unfold name_char. by rewrite (Hp c Hc).
Qed.
Lemma filter_every {A : Type} (f : A -> bool) l : length (List.filter f l) = length l -> Forall (fun x => f x = true) l.
Proof.
  induction l as [|x l IH]; [constructor|]. cbn. destruct (f x) eqn:E; cbn; intros H; [constructor; [done|apply IH; lia]|].
  pose proof (List.filter_length_le f l). lia.
Qed.
Lemma filter_none {A : Type} (f : A -> bool) l : Forall (fun x => f x = true) l -> List.filter f l = l.
Proof. induction 1 as [|x l Hx Hl IH]; [done|]. cbn. by rewrite Hx, IH. Qed.
Lemma parts_nonempty parts : valid_parts parts -> parts <> [].
Proof. intros [H _] ->. cbn in H. lia. Qed.

Lemma validate_name_Ok name ref : validate_name name ref = Ok tt <-> exists parts, name = join "/" parts /\ valid_parts parts.
Proof.
  unfold validate_name. split.
  - intros H. apply result_bind_Ok in H as ([] & H1%ensure_Ok & H). apply result_bind_Ok in H as ([] & H2%ensure_Ok & H3%ensure_Ok).
    apply Nat.leb_le in H1. apply Nat.eqb_eq in H2. exists (split_on "/" name). rewrite join_split_on. split; [done|].
    pose proof (filter_every _ _ H2) as Hall. rewrite (filter_none _ _ Hall) in H1, H3. split; [done|].
    apply Forall_forall. rewrite forallb_elem in H3. exact H3.
  - intros (parts & -> & Hp). rewrite split_on_join by (by apply parts_nonempty || by apply parts_have).
    destruct Hp as [Hn Hp]. rewrite filter_none.
    + rewrite (proj2 (ensure_Ok _ _)); [|by apply Nat.leb_le]. cbn [result_bind]. rewrite Nat.eqb_refl. cbn [ensure result_bind].
      apply ensure_Ok, forallb_elem. by apply Forall_forall.
    + eapply Forall_impl; [exact Hp|]. intros p Hpart%part_nonempty. by rewrite bool_decide_false.
Qed.

Lemma cut_spec c s a b : cut c s = Some (a, b) <-> s = a +:+ String c "" +:+ b /\ c ∉ chars a.
Proof.
  unfold cut. split.
  - destruct (cut_first c (chars s)) as [[x y]|] eqn:E; [|done]. intros [= <- <-]. apply cut_first_spec in E as [E Hx].
    rewrite chars_str. split; [|done]. apply chars_inj. rewrite E, !chars_app, !chars_str. done.
  - intros [-> Ha]. rewrite !chars_app. rewrite (proj2 (cut_first_spec c _ (chars a) (chars b))) by done. by rewrite !str_chars.
Qed.
Lemma rcut_spec c s a b : rcut c s = Some (a, b) <-> s = a +:+ String c "" +:+ b /\ c ∉ chars b.
Proof.
  unfold rcut. split.
  - destruct (cut_last c (chars s)) as [[x y]|] eqn:E; [|done]. intros [= <- <-]. apply cut_last_spec in E as [E Hx].
    rewrite chars_str. split; [|done]. apply chars_inj. rewrite E, !chars_app, !chars_str. done.
  - intros [-> Ha]. rewrite !chars_app. rewrite (proj2 (cut_last_spec c _ (chars a) (chars b))) by done. by rewrite !str_chars.
Qed.
Lemma cut_None c s : cut c s = None <-> c ∉ chars s.
Proof. unfold cut. rewrite <- cut_first_None. destruct (cut_first c (chars s)) as [[a b]|]; by split. Qed.

Definition tail_char (c : ascii) : bool := tag_char c || digest_char c || one_of "@:" c.
Lemma tail_chars require_digest tail :
  digested tail \/ require_digest = false /\ tagged tail -> forallb tail_char (chars tail) = true.
Proof.
  assert (Hc : forall c s (f : ascii -> bool), (forall c, f c = true -> tail_char c = true) -> tail_char c = true ->
            forallb f (chars s) = true -> forallb tail_char (chars (String c "" +:+ s)) = true).
  { intros c s f Hf Hc Hs. rewrite chars_app, forallb_app. cbn. rewrite Hc. cbn. rewrite forallb_elem in Hs |- *. auto. }
  intros [(digest & -> & H%digest_chars)|(_ & tag & -> & H%tag_chars)]; (eapply Hc; [|done|exact H]); intros c Hc'; unfold tail_char; rewrite Hc'; [by rewrite orb_true_r|done].
Qed.
Lemma no_space parts tail require_digest :
  valid_parts parts -> digested tail \/ require_digest = false /\ tagged tail ->
  existsb is_space (chars ("ghcr.io/" +:+ join "/" parts +:+ tail)) = false.
Proof.
  intros Hp Ht. apply not_true_iff_false. rewrite existsb_elem. intros (c & Hin & Hc). rewrite !chars_app, !elem_of_app in Hin.
  apply name_chars in Hp. apply tail_chars in Ht. rewrite forallb_elem in Hp, Ht.
  assert (Hcls : forall f : ascii -> bool, (forall b0 b1 b2 b3 b4 b5 b6 b7, f (Ascii b0 b1 b2 b3 b4 b5 b6 b7) = true ->
            is_space (Ascii b0 b1 b2 b3 b4 b5 b6 b7) = false) -> f c = true -> False).
  { intros f Hf Hfc. destruct c as [b0 b1 b2 b3 b4 b5 b6 b7]. rewrite (Hf _ _ _ _ _ _ _ _ Hfc) in Hc. done. }
  destruct Hin as [Hin|[Hin|Hin]].
  - repeat (apply elem_of_cons in Hin as [->|Hin]; [vm_compute in Hc; discriminate Hc|]). by apply elem_of_nil in Hin.
  - apply (Hcls name_char); [|by apply Hp]. intros [] [] [] [] [] [] [] []; vm_compute; congruence.
  - apply (Hcls tail_char); [|by apply Ht]. intros [] [] [] [] [] [] [] []; vm_compute; congruence.
Qed.

Lemma split_registry_Ok ref registry remainder :
  split_registry ref = Ok (registry, remainder) <->
  ref = (registry +:+ "/" +:+ remainder) /\ ("/"%char ∉ chars registry) /\ remainder <> "" /\ existsb is_space (chars ref) = false.
Proof.
  unfold split_registry. destruct (bool_decide_reflect (ref = "")) as [->|Hne]; cbn [orb].
  { split; [done|]. intros (H & _). by destruct registry. }
  destruct (existsb is_space (chars ref)); [split; [done|]; by intros (_ & _ & _ & [=])|].
  destruct (cut "/" ref) as [[a b]|] eqn:E.
  - apply cut_spec in E as [-> Ha]. destruct (bool_decide_reflect (b = "")) as [->|Hb].
    + split; [done|]. intros (H & Hr & Hrem & _). destruct Hrem.
      assert (H1 : cut "/" (a +:+ "/" +:+ "") = Some (registry, remainder)) by (apply cut_spec; done).
      assert (H2 : cut "/" (a +:+ "/" +:+ "") = Some (a, "")) by (by apply cut_spec). congruence.
    + split; [by intros [= <- <-]|]. intros (H & Hr & _).
      assert (H1 : cut "/" (a +:+ "/" +:+ b) = Some (registry, remainder)) by (apply cut_spec; done).
      assert (H2 : cut "/" (a +:+ "/" +:+ b) = Some (a, b)) by (by apply cut_spec). congruence.
  - split; [done|]. intros (-> & _). apply cut_None in E. destruct E. rewrite !chars_app. apply elem_of_app. right. by left.
Qed.

Lemma accepts_sound require_digest ref r :
  normalize_image_reference ref require_digest = Ok r -> r = ref /\ well_formed require_digest ref.
Proof.
  unfold normalize_image_reference. intros ([registry remainder] & (-> & _ & Hne & _)%split_registry_Ok & H)%result_bind_Ok.
  destruct (bool_decide_reflect (registry = SUPPORTED_REGISTRY)) as [->|_]; [cbn [negb] in H|done].
  destruct (cut "@" remainder) as [[name digest]|] eqn:E.
  - apply cut_spec in E as [-> _]. apply result_bind_Ok in H as ([] & (parts & -> & Hp)%validate_name_Ok & H).
    destruct (fullmatch DIGEST_RE digest) eqn:Ed; [|done]. injection H as <-. split; [done|].
    exists parts, ("@" +:+ digest). split_and!; [done|done|]. left. by exists digest.
  - destruct require_digest; [done|]. destruct (rcut ":" remainder) as [[name tag]|] eqn:E'; [|done].
    apply rcut_spec in E' as [-> _]. apply result_bind_Ok in H as ([] & (parts & -> & Hp)%validate_name_Ok & H).
    destruct (fullmatch TAG_RE tag) eqn:Et; [|done]. injection H as <-. split; [done|].
    exists parts, (":" +:+ tag). split_and!; [done|done|]. right. split; [done|]. by exists tag.
Qed.
Lemma accepts_complete require_digest ref :
  well_formed require_digest ref -> normalize_image_reference ref require_digest = Ok ref.
Proof.
  intros (parts & tail & -> & Hp & Ht). unfold normalize_image_reference.
  assert (Hsplit : split_registry ("ghcr.io/" +:+ join "/" parts +:+ tail) = Ok ("ghcr.io", join "/" parts +:+ tail)).
  { apply split_registry_Ok. split_and!; [done| | |by eapply no_space].
    - intros H. repeat (apply elem_of_cons in H as [[=]|H]). by apply elem_of_nil in H.
    - intros H. apply (f_equal chars) in H. rewrite chars_app in H. apply app_nil in H as [_ H].
      destruct Ht as [(d & -> & _)|(_ & tg & -> & _)]; discriminate H. }
  rewrite Hsplit. cbn [result_bind]. rewrite bool_decide_true by done. cbn [negb].
  assert (Hname : forall c, name_char c = false -> c ∉ chars (join "/" parts)) by (intros c Hc; eapply class_excludes; [exact Hc|by apply name_chars]).
  assert (Hval : forall ref, validate_name (join "/" parts) ref = Ok tt) by (intros ref; apply validate_name_Ok; by exists parts).
  destruct Ht as [(digest & -> & Hd)|(-> & tag & -> & Htag)].
  - assert (Hcut : cut "@" (join "/" parts +:+ "@" +:+ digest) = Some (join "/" parts, digest)) by (apply cut_spec; split; [done|by apply Hname]).
    rewrite Hcut, Hval. cbn [result_bind]. by rewrite Hd.
  - assert (Hcut : cut "@" (join "/" parts +:+ ":" +:+ tag) = None).
    { apply cut_None. rewrite !chars_app, !not_elem_of_app. split_and!; [by apply Hname| |eapply class_excludes; [|by apply tag_chars]; done].
      intros H. apply elem_of_cons in H as [[=]|H]. by apply elem_of_nil in H. }
    assert (Hrcut : rcut ":" (join "/" parts +:+ ":" +:+ tag) = Some (join "/" parts, tag)).
    { apply rcut_spec. split; [done|]. eapply class_excludes; [|by apply tag_chars]. done. }
    rewrite Hcut, Hrcut, Hval. cbn [result_bind]. by rewrite Htag.
Qed.

(** C27. Normalization accepts exactly [ghcr.io] references with at least an owner and a name, made
    of valid segments, that end in a valid tag (unless a digest is required) or a valid digest,
    and returns them unchanged: so it is idempotent, and whatever accepts a canonical reference
    accepts it in the same form. *)
Theorem image_references_are_canonical require_digest ref r :
  normalize_image_reference ref require_digest = Ok r <-> r = ref /\ well_formed require_digest ref.
Proof. split; [apply accepts_sound|]. intros [-> H]. by apply accepts_complete. Qed.

(** ** The adapter *)

Inductive registry_request : Type :=
| Publish (ref : string) | Pull (digest : string) | ResolveDigest (ref : string) | ExistsImage (digest : string).
Inductive registry_answer : Type := Reference (digest_ref : string) | Known (answer : bool).
Definition request_ref (q : registry_request) : string :=
  match q with Publish ref | Pull ref | ResolveDigest ref | ExistsImage ref => ref end.
Definition serve (timeout_text : string) (q : registry_request) : registry_prog registry_answer :=
  match q with
  | Publish ref => let* d := publish timeout_text ref in Ret (Reference d)
  | Pull digest => let* d := pull timeout_text digest in Ret (Reference d)
  | ResolveDigest ref => let* d := resolve_digest timeout_text ref in Ret (Reference d)
  | ExistsImage digest => let* b := exists_image timeout_text digest in Ret (Known b)
  end.
Abbreviation registry_history := (list (event registry_op registry_error)).

(** A command that exited with 0 and printed this. *)
Definition printed (tr : registry_history) (argv : list string) (out err : string) : Prop :=
  Event (RunDocker argv) (Ok (0%Z, out, err)) ∈ tr.
(** The registry showed this digest for a reference. *)
Definition inspected (tr : registry_history) (ref digest : string) : Prop :=
  exists out err payload, printed tr (inspect_argv ref) out err /\ loads out = Some payload /\ extract_digest payload = Some digest.
Definition pushed (tr : registry_history) (ref digest : string) : Prop :=
  exists out err, printed tr (push_argv ref) out err /\ extract_push_digest out err = Some digest.

(** The commands of each request: nothing but its own reference reaches Docker. *)
Definition own_commands (q : registry_request) (tr : registry_history) : Prop :=
  map (fun ev => match ev with Event (RunDocker argv) _ => argv end) tr ∈
  match q with
  | Publish ref => [[]; [push_argv ref]; [push_argv ref; inspect_argv ref]]
  | Pull ref => [[]; [pull_argv ref]]
  | ResolveDigest ref | ExistsImage ref => [[]; [inspect_argv ref]]
  end.
Definition answer_is_evidenced (q : registry_request) (tr : registry_history) (a : registry_answer) : Prop :=
  match q, a with
  | Publish ref, Reference d =>
    exists repo tag digest, ref = repo +:+ ":" +:+ tag /\ d = repo +:+ "@" +:+ digest /\ well_formed true d /\
      (exists out err, printed tr (push_argv ref) out err) /\ (pushed tr ref digest \/ inspected tr ref digest)
  | ResolveDigest ref, Reference d =>
    exists repo tag digest, ref = repo +:+ ":" +:+ tag /\ d = repo +:+ "@" +:+ digest /\ well_formed true d /\ inspected tr ref digest
  | Pull ref, Reference d => d = ref /\ exists out err, printed tr (pull_argv ref) out err
  | ExistsImage ref, Known true => exists repo digest, ref = repo +:+ "@" +:+ digest /\ inspected tr ref digest
  | ExistsImage ref, Known false =>
    exists returncode out err, Event (RunDocker (inspect_argv ref)) (Ok (returncode, out, err)) ∈ tr /\ returncode <> 0%Z /\
      marked NOT_FOUND_MARKERS (lower (strip err)) = true
  | _, _ => False
  end.
(** What an error may say once a command has run: the repository and one of these texts. *)
Definition details (timeout_text : string) : list string :=
  ["docker executable not found"; "docker command failed to execute"; "docker command timed out after " +:+ timeout_text +:+ "s";
   "docker buildx inspect failed"; "docker push failed"; "docker pull failed"; "registry inspect returned malformed JSON";
   "registry inspect did not return a valid manifest digest"].
Definition plain_error (timeout_text ref : string) (e : registry_error) : Prop :=
  e = AuthenticationFailed (safe_repository ref) \/ e = ImageNotFound (safe_repository ref) \/ e = DigestMismatch (safe_repository ref) \/
  exists d, d ∈ details timeout_text /\ e = RegistryUnavailable (safe_repository ref) d.
Definition error_is_public (timeout_text : string) (q : registry_request) (e : registry_error) : Prop :=
  is_registry_error e = false \/ plain_error timeout_text (request_ref q) e \/
  exists e', plain_error timeout_text (request_ref q) e' /\
    (e = PublishFailed (safe_repository (request_ref q)) (error_text e') \/ e = PullFailed (safe_repository (request_ref q)) (error_text e')).

#[local] Arguments marked : simpl never.

Section Adapter.
Variable timeout_text : string.

(** What a command's answer means. *)
Definition classify (ref unavailable : string) (r : result registry_error (Z * string * string)) : result registry_error (string * string) :=
  match r with
  | Err DockerMissing => Err (RegistryUnavailable (safe_repository ref) "docker executable not found")
  | Err SpawnFailed => Err (RegistryUnavailable (safe_repository ref) "docker command failed to execute")
  | Err SpawnTimeout => Err (RegistryUnavailable (safe_repository ref) ("docker command timed out after " +:+ timeout_text +:+ "s"))
  | Err e => Err e
  | Ok (returncode, out, err) =>
    if (returncode =? 0)%Z then Ok (out, err) else
    if marked AUTH_MARKERS (lower (strip err)) then Err (AuthenticationFailed (safe_repository ref)) else
    if marked NOT_FOUND_MARKERS (lower (strip err)) then Err (ImageNotFound (safe_repository ref)) else
    Err (RegistryUnavailable (safe_repository ref) unavailable)
  end.
Lemma run_command_runs argv ref unavailable tr o :
  runs (run_registry_command timeout_text argv ref unavailable) tr o -> exists r, tr = [Event (RunDocker argv) r] /\ o = classify ref unavailable r.
Proof.
  unfold run_registry_command. intros H. apply runs_bind in H as [(tr1 & tr2 & r & -> & H1 & H2)|(x & -> & H1)].
  - apply runs_attempt in H1. destruct r as [[[code out] err]|e].
    + assert (runs (call (RunDocker argv)) tr1 (Ok (code, out, err))) as H by naive_solver. apply runs_call in H as ->.
      exists (Ok (code, out, err)). cbn [classify]. destruct (code =? 0)%Z; [by apply runs_Ret in H2 as [-> ->]|].
      destruct (marked AUTH_MARKERS _); [by apply runs_Raise in H2 as [-> ->]|].
      destruct (marked NOT_FOUND_MARKERS _); by apply runs_Raise in H2 as [-> ->].
    + assert (runs (call (RunDocker argv)) tr1 (Err e)) as H by naive_solver. apply runs_call in H as ->. exists (Err e).
      destruct e; by apply runs_Raise in H2 as [-> ->].
  - apply runs_attempt in H1. naive_solver.
Qed.

Lemma classify_errors ref unavailable r e :
  unavailable ∈ details timeout_text -> classify ref unavailable r = Err e -> is_registry_error e = false \/ plain_error timeout_text ref e \/ r = Err e.
Proof.
  intros Hu. unfold plain_error. destruct r as [[[code out] err]|x]; cbn [classify].
  - destruct (code =? 0)%Z; [done|]. destruct (marked AUTH_MARKERS _); [intros [= <-]; auto|].
    destruct (marked NOT_FOUND_MARKERS _); intros [= <-]; eauto 10.
  - destruct x; intros [= <-]; auto; right; left; do 3 right; eexists; (split; [|done]); unfold details; set_solver.
Qed.
(** A [RegistryError] is never an answer of [subprocess.run]. *)
Definition from_subprocess (tr : registry_history) : Prop :=
  Forall (fun ev => match ev with Event _ (Err e) => is_registry_error e = false | _ => True end) tr.

Definition digest_of (ref out : string) : result registry_error string :=
  match loads out with
  | None => Err (RegistryUnavailable (safe_repository ref) "registry inspect returned malformed JSON")
  | Some payload =>
    match extract_digest payload with
    | Some digest => if fullmatch DIGEST_RE digest then Ok digest
                     else Err (RegistryUnavailable (safe_repository ref) "registry inspect did not return a valid manifest digest")
    | None => Err (RegistryUnavailable (safe_repository ref) "registry inspect did not return a valid manifest digest")
    end
  end.
Lemma inspect_digest_runs ref tr o :
  runs (inspect_digest timeout_text ref) tr o ->
  exists r, tr = [Event (RunDocker (inspect_argv ref)) r] /\ o = result_bind (classify ref "docker buildx inspect failed" r) (fun '(out, _) => digest_of ref out).
Proof.
  unfold inspect_digest. intros H. apply runs_bind in H as [(tr1 & tr2 & [out err] & -> & (r & -> & Hr)%run_command_runs & H2)|(x & -> & (r & -> & Hr)%run_command_runs)].
  - exists r. rewrite <- Hr. cbn. unfold digest_of. destruct (loads out) as [payload|]; [|by apply runs_Raise in H2 as [-> ->]].
    destruct (extract_digest payload) as [d|]; [|by apply runs_Raise in H2 as [-> ->]].
    destruct (fullmatch DIGEST_RE d); [by apply runs_Ret in H2 as [-> ->]|by apply runs_Raise in H2 as [-> ->]].
  - exists r. by rewrite <- Hr.
Qed.
Lemma digest_of_Ok ref out d : digest_of ref out = Ok d -> fullmatch DIGEST_RE d = true /\ exists payload, loads out = Some payload /\ extract_digest payload = Some d.
Proof.
  unfold digest_of. destruct (loads out) as [payload|]; [|done]. destruct (extract_digest payload) as [d'|] eqn:E; [|done].
  destruct (fullmatch DIGEST_RE d') eqn:Ed; [|done]. intros [= <-]. eauto.
Qed.
Lemma digest_of_Err ref out e : digest_of ref out = Err e -> plain_error timeout_text ref e.
Proof.
  unfold digest_of, plain_error. intros H. do 3 right. destruct (loads out) as [payload|]; [destruct (extract_digest payload) as [d|]; [destruct (fullmatch _ _); [done|]|]|];
    injection H as <-; eexists; (split; [|done]); unfold details; set_solver.
Qed.
(** What an inspection answers. *)
Lemma inspection ref tr o :
  runs (inspect_digest timeout_text ref) tr o -> from_subprocess tr ->
  (exists r, tr = [Event (RunDocker (inspect_argv ref)) r]) /\
  match o with
  | Ok d => fullmatch DIGEST_RE d = true /\ inspected tr ref d
  | Err e => (is_registry_error e = false \/ plain_error timeout_text ref e) /\
             (forall x, e = ImageNotFound x -> exists code out err, Event (RunDocker (inspect_argv ref)) (Ok (code, out, err)) ∈ tr /\ code <> 0%Z /\
                          marked NOT_FOUND_MARKERS (lower (strip err)) = true)
  end.
Proof.
  intros (r & -> & ->)%inspect_digest_runs Hsub. split; [by exists r|]. unfold from_subprocess in Hsub. rewrite Forall_singleton in Hsub.
  destruct (classify ref "docker buildx inspect failed" r) as [[out err]|e] eqn:Ec; cbn [result_bind].
  - assert (r = Ok (0%Z, out, err)) as ->.
    { destruct r as [[[code out'] err']|x]; [|by destruct x]. cbn in Ec. destruct (Z.eqb_spec code 0) as [->|_]; [congruence|].
      destruct (marked AUTH_MARKERS _); [done|]. by destruct (marked NOT_FOUND_MARKERS _). }
    destruct (digest_of ref out) as [d|e] eqn:Ed.
    + apply digest_of_Ok in Ed as [Hd (payload & Hl & He)]. split; [done|]. exists out, err, payload. split_and!; [by left|done|done].
    + split; [right; by eapply digest_of_Err|]. intros x ->. unfold digest_of in Ed. destruct (loads out) as [payload|]; [destruct (extract_digest payload); [destruct (fullmatch _ _)|]|]; discriminate Ed.
  - split.
    + destruct (classify_errors ref "docker buildx inspect failed" r e) as [H|[H| ->]]; [unfold details; set_solver|done|by left|by right|left; exact Hsub].
    + intros x ->. destruct r as [[[code out] err]|y]; cbn in Ec.
      * destruct (Z.eqb_spec code 0) as [_|Hc]; [done|]. destruct (marked AUTH_MARKERS _); [done|].
        destruct (marked NOT_FOUND_MARKERS _) eqn:Em; [|done]. exists code, out, err. split_and!; [by left|done|done].
      * destruct y; try discriminate Ec; by injection Ec.
Qed.

Lemma has_at_spec s : has_at s = true <-> "@"%char ∈ chars s.
Proof. unfold has_at. rewrite existsb_elem. split; [intros (c & Hc & <-%Ascii.eqb_eq); done|]. intros H. exists "@"%char. split; [done|]. by apply Ascii.eqb_eq. Qed.
Lemma publishable ref n :
  normalize_publishable_ref ref = Ok n ->
  n = ref /\ exists repo tag, ref = repo +:+ ":" +:+ tag /\ forall digest, canonical_digest_ref ref digest = repo +:+ "@" +:+ digest /\
    (fullmatch DIGEST_RE digest = true -> well_formed true (repo +:+ "@" +:+ digest)).
Proof.
  unfold normalize_publishable_ref, normalize_publishable_image_reference.
  intros ([] & _ & (m & Hm & H)%result_bind_Ok)%result_bind_Ok. apply accepts_sound in Hm as [-> (parts & tail & Href & Hp & Ht)].
  destruct (has_at ref) eqn:Ea; [done|]. injection H as <-. split; [done|].
  assert (Hat : "@"%char ∉ chars ref) by (intros ?%has_at_spec; congruence).
  destruct Ht as [(d & -> & _)|(_ & tag & -> & Htag)].
  { destruct Hat. rewrite Href, !chars_app, !elem_of_app. right. right. left. by left. }
  exists ("ghcr.io/" +:+ join "/" parts), tag. split; [exact Href|]. intros digest. split.
  - unfold canonical_digest_ref. rewrite (proj2 (cut_None _ _) Hat). unfold before_last.
    rewrite (proj2 (rcut_spec ":" ref ("ghcr.io/" +:+ join "/" parts) tag)); [done|].
    split; [exact Href|]. eapply class_excludes; [|by apply tag_chars]. done.
  - intros Hd. exists parts, ("@" +:+ digest). split_and!; [done|done|]. left. by exists digest.
Qed.
Lemma addressable ref n :
  normalize_digest_ref ref = Ok n ->
  n = ref /\ exists repo, forall digest, canonical_digest_ref ref digest = repo +:+ "@" +:+ digest.
Proof.
  unfold normalize_digest_ref, normalize_digest_image_reference. intros ([] & _ & Hm)%result_bind_Ok.
  apply accepts_sound in Hm as [-> (parts & tail & Href & Hp & Ht)]. split; [done|].
  destruct Ht as [(d & -> & _)|([=] & _)]. exists ("ghcr.io/" +:+ join "/" parts). intros digest. unfold canonical_digest_ref.
  rewrite (proj2 (cut_spec "@" ref ("ghcr.io/" +:+ join "/" parts) d)); [done|]. split; [exact Href|]. rewrite chars_app, not_elem_of_app. split.
  - intros H. repeat (apply elem_of_cons in H as [[=]|H]). by apply elem_of_nil in H.
  - eapply class_excludes; [|by apply name_chars]. done.
Qed.

Definition outcome (q : registry_request) (tr : registry_history) (o : result registry_error registry_answer) : Prop :=
  own_commands q tr /\
  match o with
  | Ok a => answer_is_evidenced q tr a
  | Err e => tr = [] \/ error_is_public timeout_text q e
  end.
Lemma classify_Ok ref unavailable r out err : classify ref unavailable r = Ok (out, err) -> r = Ok (0%Z, out, err).
Proof.
  destruct r as [[[code out'] err']|x]; [|by destruct x]. unfold classify. destruct (Z.eqb_spec code 0) as [->|_]; [congruence|].
  destruct (marked AUTH_MARKERS _); [done|]. by destruct (marked NOT_FOUND_MARKERS _).
Qed.
Lemma plain_is_registry ref e : plain_error timeout_text ref e -> is_registry_error e = true.
Proof. by intros [->|[->|[->|(d & _ & ->)]]]. Qed.

(** The digest a push printed is well formed. *)
Lemma digest_text l :
  is_prefix (chars "sha256:") l = true -> length l = 71 -> forallb hex_lower (drop 7 l) = true -> fullmatch DIGEST_RE (str l) = true.
Proof.
  intros H1 H2 H3. assert (Hl : l = chars "sha256:" ++ drop 7 l).
  {
    assert (Hpre : forall a b, is_prefix a b = true -> b = a ++ drop (length a) b).
    { induction a as [|x a IH]; intros [|y b]; try done. cbn [is_prefix]. intros [->%Ascii.eqb_eq H]%andb_true_iff. cbn. by rewrite <- IH. }
    exact (Hpre _ _ H1). }
  assert (Hs : str l = "sha256:" +:+ str (drop 7 l)) by (rewrite Hl at 1; by rewrite str_app).
  rewrite Hs. apply fullmatch_lit_rep; [rewrite length_drop; lia|done].
Qed.
Lemma push_digest_valid out err d : extract_push_digest out err = Some d -> fullmatch DIGEST_RE d = true.
Proof.
  unfold extract_push_digest. generalize (chars (join (String newline "") (List.filter (fun part => negb (bool_decide (part = ""))) [out; err]))).
  intros l. induction l as [|c l IH]; cbn [push_digest_in].
  - change (@None string = Some d -> fullmatch DIGEST_RE d = true). done.
  - destruct (push_digest_here (c :: l)) as [d'|] eqn:E; [|exact IH]. intros [= <-]. unfold push_digest_here in E.
    destruct (is_prefix (chars "digest:") _); [|done]. destruct (is_prefix (chars "sha256:") _ && _ && _) eqn:Eb; [|done]. injection E as <-.
    rewrite !andb_true_iff in Eb. destruct Eb as [[H1 H2] H3]. apply digest_text; [done|by apply Nat.eqb_eq|done].
Qed.

(** A program that starts by normalizing its reference. *)
Lemma normalized_first {A B : Type} (r : result registry_error A) (p : A -> registry_prog B) tr o (Q : Prop) :
  (forall x, r = Err x -> tr = [] -> o = Err x -> Q) -> (forall a, r = Ok a -> runs (p a) tr o -> Q) ->
  runs (let* n := lift r in p n) tr o -> Q.
Proof. intros He Hok H. destruct r as [a|x]; [by eapply Hok|]. apply runs_Raise in H as [-> ->]. by eapply He. Qed.
Lemma sub_app tr1 tr2 : from_subprocess (tr1 ++ tr2) <-> from_subprocess tr1 /\ from_subprocess tr2.
Proof. apply Forall_app. Qed.
Lemma refused q x : outcome q [] (Err x).
Proof. split; [destruct q; by left|by left]. Qed.
(** [let* d := p in Ret (f d)] *)
Lemma runs_then_Ret {A B : Type} (p : registry_prog A) (f : A -> B) tr o :
  runs (let* d := p in Ret (f d)) tr o -> exists r, runs p tr r /\ o = match r with Ok a => Ok (f a) | Err x => Err x end.
Proof.
  intros [(tr1 & tr2 & a & -> & H & [-> ->]%runs_Ret)|(x & -> & H)]%runs_bind; [exists (Ok a)|exists (Err x)]; by rewrite ?app_nil_r.
Qed.

Lemma resolve_outcome ref tr o :
  runs (serve timeout_text (ResolveDigest ref)) tr o -> from_subprocess tr -> outcome (ResolveDigest ref) tr o.
Proof.
  intros (r & H & ->)%runs_then_Ret Hsub. revert H. unfold resolve_digest. apply normalized_first.
  { intros x _ -> ->. apply refused. }
  intros n [-> (repo & tag & Href & Hcanon)]%publishable [(tr1 & tr2 & digest & -> & Hi & [-> ->]%runs_lift)|(x & -> & Hi)]%runs_bind.
  - rewrite app_nil_r in *. apply inspection in Hi as [(e & ->) [Hd Hin]]; [|done]. split; [right; by left|].
    destruct (Hcanon digest) as [-> Hw]. unfold normalize_digest_image_reference. rewrite accepts_complete by by apply Hw.
    exists repo, tag, digest. split_and!; [done|done|by apply Hw|done].
  - apply inspection in Hi as [(e & ->) [Hx _]]; [|done]. split; [right; by left|]. right.
    destruct Hx as [Hx|Hx]; [by left|right; by left].
Qed.
Lemma exists_outcome ref tr o :
  runs (serve timeout_text (ExistsImage ref)) tr o -> from_subprocess tr -> outcome (ExistsImage ref) tr o.
Proof.
  intros (r & H & ->)%runs_then_Ret Hsub. revert H. unfold exists_image. apply normalized_first.
  { intros x _ -> ->. apply refused. }
  intros n [-> (repo & Hcanon)]%addressable [(tr1 & tr2 & a & -> & (i & [= ->] & Hi)%runs_attempt & H2)|(x & -> & (i & [=] & _)%runs_attempt)]%runs_bind.
  apply sub_app in Hsub as [Hsub _]. apply inspection in Hi as [(e & ->) Hi]; [|done]. destruct i as [digest|x].
  - destruct Hi as [Hd Hin]. rewrite Hcanon in H2. destruct (bool_decide_reflect (repo +:+ "@" +:+ digest = ref)) as [<-|_].
    + apply runs_Ret in H2 as [-> ->]. rewrite app_nil_r. split; [right; by left|]. by exists repo, digest.
    + apply runs_Raise in H2 as [-> ->]. rewrite app_nil_r. split; [right; by left|]. right. right. left. right. right. by left.
  - assert (Herr : r = Err x /\ tr2 = [] \/ r = Ok false /\ tr2 = [] /\ exists y, x = ImageNotFound y).
    { destruct x; first [apply runs_Raise in H2 as [-> ->]; by left|apply runs_Ret in H2 as [-> ->]; right; split_and!; by eauto]. }
    destruct Herr as [[-> ->]|(-> & -> & y & ->)]; rewrite app_nil_r; (split; [right; by left|]).
    + right. destruct Hi as [[Hx|Hx] _]; [by left|right; by left].
    + destruct Hi as [_ Hi]. exact (Hi y eq_refl).
Qed.
(** [except RegistryError as exc: raise W(...) from exc] *)
Lemma wrapped {A : Type} (p : registry_prog A) (W : registry_error -> registry_error) tr o :
  runs (catch p (fun e => if is_registry_error e then Raise (W e) else Raise e)) tr o ->
  exists r, runs p tr r /\ o = match r with Ok a => Ok a | Err x => Err (if is_registry_error x then W x else x) end.
Proof.
  intros [(a & -> & H)|(tr1 & tr2 & x & -> & H1 & H2)]%runs_catch; [by exists (Ok a)|]. exists (Err x).
  destruct (is_registry_error x); apply runs_Raise in H2 as [-> ->]; by rewrite app_nil_r.
Qed.
Lemma pull_outcome ref tr o : runs (serve timeout_text (Pull ref)) tr o -> from_subprocess tr -> outcome (Pull ref) tr o.
Proof.
  intros (r & H & ->)%runs_then_Ret Hsub. revert H. unfold pull. apply normalized_first.
  { intros x _ -> ->. apply refused. }
  intros n [-> _]%addressable (r' & (r'' & H & ->)%wrapped & ->)%runs_then_Ret.
  assert (Hcmd : exists e, tr = [Event (RunDocker (pull_argv ref)) e] /\ r'' = match classify ref "docker pull failed" e with Ok _ => Ok tt | Err x => Err x end).
  { apply runs_then_Ret in H as (c & (e & -> & ->)%run_command_runs & ->). by exists e. }
  destruct Hcmd as (e & -> & ->). split; [right; by left|]. unfold from_subprocess in Hsub. rewrite Forall_singleton in Hsub.
  destruct (classify ref "docker pull failed" e) as [[out err]|x] eqn:Ec; cbn.
  - split; [done|]. exists out, err. assert (e = Ok (0%Z, out, err)) as ->; [by eapply classify_Ok|by left].
  - right. destruct (classify_errors ref "docker pull failed" e x) as [H'|[H'| ->]]; [unfold details; set_solver|done|..].
    + left. by rewrite H'.
    + right. right. exists x. split; [done|]. right. by rewrite (plain_is_registry _ _ H').
    + left. by rewrite Hsub.
Qed.
Lemma publish_outcome ref tr o : runs (serve timeout_text (Publish ref)) tr o -> from_subprocess tr -> outcome (Publish ref) tr o.
Proof.
  intros (r & H & ->)%runs_then_Ret Hsub. revert H. unfold publish. apply normalized_first.
  { intros x _ -> ->. apply refused. }
  intros n [-> (repo & tag & Href & Hcanon)]%publishable (r' & H & ->)%wrapped.
  assert (Herr : forall x, is_registry_error x = false \/ plain_error timeout_text ref x ->
            error_is_public timeout_text (Publish ref) (if is_registry_error x then PublishFailed (safe_repository ref) (error_text x) else x)).
  { intros x [Hx|Hx]; [left; by rewrite Hx|]. rewrite (plain_is_registry _ _ Hx). right. right. exists x. split; [done|by left]. }
  apply runs_bind in H as [(tr1 & tr2 & [out err] & -> & (e & -> & He)%run_command_runs & H)|(x & -> & (e & -> & He)%run_command_runs)].
  2:{ split; [right; by left|]. right. unfold from_subprocess in Hsub. rewrite Forall_singleton in Hsub. apply Herr.
      destruct (classify_errors ref "docker push failed" e x) as [H'|[H'| ->]]; [unfold details; set_solver|done|by left|by right|by left]. }
  assert (e = Ok (0%Z, out, err)) as -> by (by eapply classify_Ok). apply sub_app in Hsub as [_ Hsub].
  assert (Hpush : forall tr, exists o1 e1, printed ([Event (RunDocker (push_argv ref)) (Ok (0%Z, out, err))] ++ tr) (push_argv ref) o1 e1).
  { intros t. exists out, err. by left. }
  destruct (extract_push_digest out err) as [d|] eqn:Ed.
  - apply runs_lift in H as [-> ->]. split; [right; by left|]. destruct (Hcanon d) as [-> Hw].
    assert (Hd : fullmatch DIGEST_RE d = true) by (by eapply push_digest_valid). unfold normalize_digest_image_reference.
    rewrite accepts_complete by by apply Hw. exists repo, tag, d. split_and!; [done|done|by apply Hw|apply Hpush|].
    left. exists out, err. split; [by left|done].
  - apply runs_bind in H as [(tra & trb & digest & -> & Hi & [-> ->]%runs_lift)|(x & -> & Hi)].
    + rewrite app_nil_r in *. apply inspection in Hi as [(e & ->) [Hd Hin]]; [|done]. split; [right; right; by left|].
      destruct (Hcanon digest) as [-> Hw]. unfold normalize_digest_image_reference. rewrite accepts_complete by by apply Hw.
      exists repo, tag, digest. split_and!; [done|done|by apply Hw|apply Hpush|]. right.
      destruct Hin as (o1 & e1 & payload & H1 & H2). exists o1, e1, payload. split; [by right|done].
    + apply inspection in Hi as [(e & ->) [Hx _]]; [|done]. split; [right; right; by left|]. right. by apply Herr.
Qed.
End Adapter.

(** The registry adapter does what its request says and shows nothing else: Docker is run only
    on the request's own reference, which is well formed, at most once per command and a push
    before its inspection; a published or resolved digest is the one the push printed or the
    registry showed, for the same repository; an image exists only when the registry showed
    exactly that digest, and is absent only when Docker said so; and after a command has run the
    exception names the repository and one of a few fixed texts, never what the command printed. *)
Theorem registry_requests_are_confined timeout_text q tr o :
  runs (serve timeout_text q) tr o -> from_subprocess tr -> outcome timeout_text q tr o.
Proof. destruct q; [apply publish_outcome|apply pull_outcome|apply resolve_outcome|apply exists_outcome]. Qed.

(** ** A push that prints its digest *)

Definition shop_digest : string := "sha256:" +:+ str (repeat "a"%char 64).
Definition push_output : string := "1: digest: " +:+ shop_digest +:+ " size: 528".
Definition docker_handler : handler (E := registry_op) (X := registry_error) unit :=
  fun R e => match e in registry_op R return unit -> result registry_error R * unit with
             | RunDocker argv => fun w => (if bool_decide (argv = push_argv "ghcr.io/acme/shop:1") then Ok (0%Z, push_output, "") else Err DockerMissing, w)
             end.
Definition shop_publish := exec docker_handler (serve "30.0" (Publish "ghcr.io/acme/shop:1")) tt.
Lemma registry_requests_are_confined_witness :
  shop_publish.1.1 = Ok (Reference ("ghcr.io/acme/shop@" +:+ shop_digest)) /\
  outcome "30.0" (Publish "ghcr.io/acme/shop:1") shop_publish.1.2 shop_publish.1.1.
Proof.
  split; [vm_compute; reflexivity|].
  apply registry_requests_are_confined; [exact (exec_runs docker_handler (serve "30.0" (Publish "ghcr.io/acme/shop:1")) tt)|].
  apply Forall_forall. intros ev Hin. vm_compute in Hin. apply list_elem_of_singleton in Hin. rewrite Hin. exact I.
Defined.

(** Two references, one with a port, which GHCR references do not have. *)
Example digest_reference_is_accepted :
  normalize_image_reference ("ghcr.io/acme/shop@" +:+ shop_digest) true = Ok ("ghcr.io/acme/shop@" +:+ shop_digest).
Proof. vm_compute. reflexivity. Qed.
Example other_registries_are_refused : normalize_image_reference "localhost:5000/acme/shop:1" false = Err (UnsupportedRegistry "localhost:5000").
Proof. vm_compute. reflexivity. Qed.
