(* ===== verification/Catalogs.v ===== *)
(** * The project catalog and the provider catalog

    [project_catalog/] decides which record of a catalog a request names; [odoo_forge_catalog]
    reads the records from a YAML file; [provider_catalog/] selects the adapter of a provider
    kind among the approved ones. *)

From S2P Require Import Prelude Effects Values Json.

(** ** Project catalog: models *)

Record ProjectCatalogRequest : Type := mkProjectCatalogRequest {
  rq_client_key : option string; rq_project_key : option string; rq_project_slug : option string; rq_manifest_name : option string }.
(** The fields in the order of [IDENTIFIER_DIMENSIONS], which is also that of [model_dump]. *)
Definition dimensions (q : ProjectCatalogRequest) : list (string * option string) :=
  [("client_key", rq_client_key q); ("project_key", rq_project_key q); ("project_slug", rq_project_slug q); ("manifest_name", rq_manifest_name q)].
(** [model_dump(exclude_none=True)] *)
Definition supplied (q : ProjectCatalogRequest) : list (string * string) :=
  omap (fun kv => match kv.2 with Some v => Some (kv.1, v) | None => None end) (dimensions q).
Definition supplied_dimensions (q : ProjectCatalogRequest) : list string := map fst (supplied q).

Record CatalogAliases : Type := mkCatalogAliases { ca_project_slugs : list string; ca_manifest_names : list string }.
Record ManifestRef : Type := mkManifestRef { mr_manifest_name : string; mr_manifest_path : string }.
Record CatalogRepoRef : Type := mkCatalogRepoRef { cr_url : string; cr_ref : string; cr_role : string }.
Record CatalogSourceContext : Type := mkCatalogSourceContext { sx_source_set_id : string; sx_repos : list CatalogRepoRef }.
Record CatalogDefaults : Type := mkCatalogDefaults { cd_data_policy : option string; cd_target : option string }.
Record CatalogRecord : Type := mkCatalogRecord {
  cat_record_id : string; cat_client_key : string; cat_project_key : string; cat_aliases : CatalogAliases;
  cat_manifest_ref : option ManifestRef; cat_source_context : option CatalogSourceContext; cat_defaults : CatalogDefaults }.
Record ValidatedCatalogRecord : Type := mkValidatedCatalogRecord {
  vcr_record_id : string; vcr_manifest_ref : ManifestRef; vcr_source_context : CatalogSourceContext; vcr_data_policy : string; vcr_target : string }.
Record InvalidCatalogRecord : Type := mkInvalidCatalogRecord { icr_record_id : string; icr_invalid_fields : list string; icr_reason_code : string }.
Record ResolvedCatalogResult : Type := mkResolvedCatalogResult {
  rc_authority_record_id : string; rc_matched_by : string; rc_manifest_ref : ManifestRef; rc_source_context : CatalogSourceContext;
  rc_data_policy_default : string; rc_target_default : string }.
Inductive failure_details : Type :=
| Identifiers (identifiers : list (string * string))
| Ambiguous (record_ids matched_dimensions : list string)
| Invalid (record : InvalidCatalogRecord).
Inductive resolution : Type :=
| Resolved (result : ResolvedCatalogResult)
| ResolutionFailure (type request_fingerprint : string) (details : failure_details).

(** ** Validation ([project_catalog/validation.py]) *)

Definition is_blank (value : option string) : bool :=
  match value with None => true | Some s => bool_decide (strip s = "") end.
Definition invalid_required_fields (r : CatalogRecord) : list string :=
  (if cat_manifest_ref r is Some _ then [] else ["manifest_ref"]) ++
  (if cat_source_context r is Some _ then [] else ["source_context"]) ++
  (if is_blank (cd_data_policy (cat_defaults r)) then ["data_policy_default"] else []) ++
  (if is_blank (cd_target (cat_defaults r)) then ["target_default"] else []).
Definition invalid_catalog_reason_code (invalid_fields : list string) : string := "missing:" +:+ join "+" invalid_fields.
Definition validate_record (r : CatalogRecord) : InvalidCatalogRecord + ValidatedCatalogRecord :=
  let invalid := inl (mkInvalidCatalogRecord (cat_record_id r) (invalid_required_fields r) (invalid_catalog_reason_code (invalid_required_fields r))) in
  match cat_manifest_ref r, cat_source_context r, cd_data_policy (cat_defaults r), cd_target (cat_defaults r) with
  | Some manifest_ref, Some source_context, Some data_policy, Some target =>
    if is_blank (Some data_policy) || is_blank (Some target) then invalid
    else inr (mkValidatedCatalogRecord (cat_record_id r) manifest_ref source_context data_policy target)
  | _, _, _, _ => invalid
  end.

(** ** Resolution ([project_catalog/resolver.py]) *)

Definition normalize (value : option string) : option string :=
  match value with
  | None => None
  | Some s => if bool_decide (lower (strip s) = "") then None else Some (lower (strip s))
  end.
Definition normalize_request (q : ProjectCatalogRequest) : ProjectCatalogRequest :=
  mkProjectCatalogRequest (normalize (rq_client_key q)) (normalize (rq_project_key q)) (normalize (rq_project_slug q)) (normalize (rq_manifest_name q)).
Definition request_fingerprint (q : ProjectCatalogRequest) : string :=
  dumps_compact (JObj (map (fun kv => (kv.1, JStr kv.2)) (supplied q))).
Definition matched_by (q : ProjectCatalogRequest) : string := join "+" (supplied_dimensions q).
Definition assemble (r : ValidatedCatalogRecord) (matched_by : string) : ResolvedCatalogResult :=
  mkResolvedCatalogResult (vcr_record_id r) matched_by (vcr_manifest_ref r) (vcr_source_context r) (vcr_data_policy r) (vcr_target r).

Section Resolver.
Context {E : Type -> Type} {X : Type}.
(** [self._catalog_index.find_matches] *)
Variable find_matches : ProjectCatalogRequest -> prog E X (list CatalogRecord).

Definition resolve (request : ProjectCatalogRequest) : prog E X resolution :=
  let q := normalize_request request in
  let fingerprint := request_fingerprint q in
  match supplied_dimensions q with
  | [] => Ret (ResolutionFailure "catalog-not-found" fingerprint (Identifiers []))
  | _ =>
    let* matches := find_matches q in
    match matches with
    | [] => Ret (ResolutionFailure "catalog-not-found" fingerprint (Identifiers (supplied q)))
    | [record] =>
      match validate_record record with
      | inl invalid => Ret (ResolutionFailure "invalid-catalog" fingerprint (Invalid invalid))
      | inr valid => Ret (Resolved (assemble valid (matched_by q)))
      end
    | _ => Ret (ResolutionFailure "ambiguous-resolution" fingerprint (Ambiguous (map cat_record_id matches) (supplied_dimensions q)))
    end
  end.
End Resolver.

(** ** The YAML index ([odoo_forge_catalog/provider.py]) *)

(** [CatalogSourceError] with its cause, the [OSError] of [read_text], and any other exception. *)
Inductive catalog_error : Type :=
| CannotRead | MalformedYaml | NotAMapping | RecordsNotAList
| MalformedRecord (record_id : option json) (index : nat)
| ReadError | OtherCatalogError (e : exn).
Inductive catalog_op : Type -> Type := ReadCatalog : catalog_op string.
Definition catalog_prog := prog catalog_op catalog_error.

(** Members of a mapping as pydantic reads them; [None] is a validation error. *)
Definition text_field (key : string) (d : list (string * json)) : option string :=
  match dget key d with Some (JStr s) => Some s | _ => None end.
Definition optional_text (key : string) (d : list (string * json)) : option (option string) :=
  match dget key d with None | Some JNull => Some None | Some (JStr s) => Some (Some s) | _ => None end.
Definition text_list (key : string) (d : list (string * json)) : option (list string) :=
  match dget key d with
  | None => Some []
  | Some (JArr l) => mapM (fun j => match j with JStr s => Some s | _ => None end) l
  | Some _ => None
  end.
Definition read_aliases (d : list (string * json)) : option CatalogAliases :=
  match dget "aliases" d with
  | None => Some (mkCatalogAliases [] [])
  | Some (JObj a) =>
    match text_list "project_slugs" a, text_list "manifest_names" a with
    | Some slugs, Some names => Some (mkCatalogAliases slugs names)
    | _, _ => None
    end
  | Some _ => None
  end.
Definition read_manifest_ref (d : list (string * json)) : option (option ManifestRef) :=
  match dget "manifest_ref" d with
  | None | Some JNull => Some None
  | Some (JObj m) =>
    match text_field "manifest_name" m, text_field "manifest_path" m with
    | Some name, Some path => Some (Some (mkManifestRef name path))
    | _, _ => None
    end
  | Some _ => None
  end.
Definition read_repo (j : json) : option CatalogRepoRef :=
  match j with
  | JObj d =>
    match text_field "url" d, text_field "ref" d, text_field "role" d with
    | Some url, Some ref, Some role => Some (mkCatalogRepoRef url ref role)
    | _, _, _ => None
    end
  | _ => None
  end.
Definition read_source_context (d : list (string * json)) : option (option CatalogSourceContext) :=
  match dget "source_context" d with
  | None | Some JNull => Some None
  | Some (JObj c) =>
    match text_field "source_set_id" c, dget "repos" c with
    | Some id, Some (JArr repos) => match mapM read_repo repos with Some l => Some (Some (mkCatalogSourceContext id l)) | None => None end
    | _, _ => None
    end
  | Some _ => None
  end.
Definition read_defaults (d : list (string * json)) : option CatalogDefaults :=
  match dget "defaults" d with
  | None => Some (mkCatalogDefaults None None)
  | Some (JObj c) =>
    match optional_text "data_policy" c, optional_text "target" c with
    | Some policy, Some target => Some (mkCatalogDefaults policy target)
    | _, _ => None
    end
  | Some _ => None
  end.
(** [CatalogRecord.model_validate] *)
Definition read_record (j : json) : option CatalogRecord :=
  match j with
  | JObj d =>
    match text_field "record_id" d, text_field "client_key" d, text_field "project_key" d, read_aliases d, read_manifest_ref d,
          read_source_context d, read_defaults d with
    | Some id, Some client, Some project, Some aliases, Some manifest, Some source, Some defaults =>
      Some (mkCatalogRecord id client project aliases manifest source defaults)
    | _, _, _, _, _, _, _ => None
    end
  | _ => None
  end.
Fixpoint read_records (index : nat) (l : list json) : result catalog_error (list CatalogRecord) :=
  match l with
  | [] => Ok []
  | j :: l' =>
    match read_record j with
    | None => Err (MalformedRecord (match j with JObj d => match dget "record_id" d with Some JNull => None | r => r end | _ => None end) index)
    | Some r => let! rs := read_records (S index) l' in Ok (r :: rs)
    end
  end.

(** [_record_matches] *)
Definition dimension_matches (r : CatalogRecord) (kv : string * string) : bool :=
  if bool_decide (kv.1 = "project_slug") then bool_decide (kv.2 ∈ ca_project_slugs (cat_aliases r))
  else if bool_decide (kv.1 = "manifest_name") then bool_decide (kv.2 ∈ ca_manifest_names (cat_aliases r))
  else if bool_decide (kv.1 = "client_key") then bool_decide (cat_client_key r = kv.2)
  else bool_decide (cat_project_key r = kv.2).
Definition record_matches (q : ProjectCatalogRequest) (r : CatalogRecord) : bool := forallb (dimension_matches r) (supplied q).

Section YamlIndex.
(** [yaml.safe_load], [None] for a [YAMLError]; documents whose mappings have text keys. *)
Variable safe_load : string -> option json.

Definition records_of (text : string) : result catalog_error (list CatalogRecord) :=
  match safe_load text with
  | None => Err MalformedYaml
  | Some (JObj data) =>
    match dget "records" data with
    | None => Ok []
    | Some (JArr raw) => read_records 0 raw
    | Some _ => Err RecordsNotAList
    end
  | Some _ => Err NotAMapping
  end.
Definition load_records : catalog_prog (list CatalogRecord) :=
  let* text := catch (call ReadCatalog) (fun e => match e with ReadError => Raise CannotRead | _ => Raise e end) in
  lift (records_of text).
Definition find_matches (q : ProjectCatalogRequest) : catalog_prog (list CatalogRecord) :=
  let* records := load_records in Ret (List.filter (record_matches q) records).
End YamlIndex.

(** ** Provider catalog ([provider_catalog/]) *)

Inductive ProviderKind : Type := KSource | KImageRegistry | KDatabase | KBackend.
#[export] Instance ProviderKind_eq_dec : EqDecision ProviderKind.
Proof. solve_decision. Defined.
(** An element of a tuple that is meant to hold adapters (or bindings): one of them, or any
    other value, of which [_invalid_value_detail] keeps a text. *)
Inductive entry : Type := Entry (kind : ProviderKind) (adapter_id : string) | OtherValue (detail : string).
#[export] Instance entry_eq_dec : EqDecision entry.
Proof. solve_decision. Defined.
(** [ApprovedProviderAdapter(...)], [GlobalProviderBinding(...)], [ResolvedProviderAdapter(...)] *)
Definition checked_adapter (kind : ProviderKind) (adapter_id : string) : result exn (ProviderKind * string) :=
  ensure (negb (bool_decide (strip adapter_id = ""))) (ValueError "adapter_id must be a non-blank string") ;!
  Ok (kind, adapter_id).
Record ProviderCatalog : Type := mkProviderCatalog { approved_adapters : list entry; global_bindings : list entry }.
Inductive ProviderCatalogFailureCode : Type := MISSING_SELECTION | INVALID_CATALOG | AMBIGUOUS_SELECTION.
Inductive provider_resolution : Type :=
| ResolvedAdapter (kind : ProviderKind) (adapter_id : string)
| CatalogFailure (code : ProviderCatalogFailureCode) (details : list string).
(** The argument of [resolve], which may be no [ProviderKind]. *)
Inductive kind_argument : Type := Kind (kind : ProviderKind) | NoKind (detail : string).

(** The first loop: the errors and the approved keys. *)
Fixpoint adapter_errors (seen : list (ProviderKind * string)) (l : list entry) : list string * list (ProviderKind * string) :=
  match l with
  | [] => ([], seen)
  | OtherValue detail :: l' => let r := adapter_errors seen l' in (detail :: r.1, r.2)
  | Entry kind id :: l' =>
    let r := adapter_errors ((kind, id) :: seen) l' in
    ((if bool_decide ((kind, id) ∈ seen) then [id] else []) ++ r.1, r.2)
  end.
Fixpoint binding_errors (approved seen : list (ProviderKind * string)) (l : list entry) : list string :=
  match l with
  | [] => []
  | OtherValue detail :: l' => detail :: binding_errors approved seen l'
  | Entry kind id :: l' =>
    (if bool_decide ((kind, id) ∈ seen) then [id] else []) ++
    (if bool_decide ((kind, id) ∈ approved) then [] else [id]) ++
    binding_errors approved ((kind, id) :: seen) l'
  end.
Definition catalog_errors (c : ProviderCatalog) : list string :=
  let '(errors, approved) := adapter_errors [] (approved_adapters c) in
  sorted_set (errors ++ binding_errors approved [] (global_bindings c)).
(** The adapters bound to a kind. *)
Definition bound_to (kind : ProviderKind) (l : list entry) : list string :=
  omap (fun e => match e with Entry k id => if bool_decide (k = kind) then Some id else None | OtherValue _ => None end) l.
Definition resolve_provider (c : ProviderCatalog) (kind : kind_argument) : result exn provider_resolution :=
  match kind with
  | NoKind detail => Ok (CatalogFailure INVALID_CATALOG [detail])
  | Kind kind =>
    match catalog_errors c with
    | _ :: _ => Ok (CatalogFailure INVALID_CATALOG (catalog_errors c))
    | [] =>
      match sorted_str (bound_to kind (global_bindings c)) with
      | [] => Ok (CatalogFailure MISSING_SELECTION [])
      | [id] => let! _ := checked_adapter kind id in Ok (ResolvedAdapter kind id)
      | ids => Ok (CatalogFailure AMBIGUOUS_SELECTION ids)
      end
    end
  end.

(** * What the catalogs resolve

    The project catalog resolves a request exactly when one record carries every supplied
    identifier and every required output; a record whose identifiers are not normalized is out
    of reach; the provider catalog selects the single approved binding of a kind. *)

#[local] Arguments record_matches : simpl never.
#[local] Arguments supplied : simpl never.

(** ** Normalized texts *)

Lemma is_space_lower c : is_space (lower_char c) = is_space c.
Proof. destruct c as [[] [] [] [] [] [] [] []]; vm_compute; reflexivity. Qed.
Lemma lower_char_idem c : lower_char (lower_char c) = lower_char c.
Proof. destruct c as [[] [] [] [] [] [] [] []]; vm_compute; reflexivity. Qed.

Lemma drop_while_map f g l : (forall c, f (g c) = f c) -> drop_while f (map g l) = map g (drop_while f l).
Proof. intros H. induction l as [|c l IH]; cbn; [done|]. rewrite H. by destruct (f c). Qed.
Lemma drop_while_idem f l : drop_while f (drop_while f l) = drop_while f l.
Proof. induction l as [|c l IH]; cbn; [done|]. destruct (f c) eqn:E; [done|]. cbn. by rewrite E. Qed.
Lemma drop_while_suffix f l : exists l1, l = l1 ++ drop_while f l.
Proof. induction l as [|c l [l1 IH]]; cbn; [by exists []|]. destruct (f c); [exists (c :: l1); cbn; by f_equal|by exists []]. Qed.
Lemma rdrop_while_prefix f l : exists l2, l = rdrop_while f l ++ l2.
Proof.
  destruct (drop_while_suffix f (reverse l)) as [l1 H]. exists (reverse l1). unfold rdrop_while.
  rewrite <- reverse_app, <- H. by rewrite reverse_involutive.
Qed.
Lemma rdrop_while_map f g l : (forall c, f (g c) = f c) -> rdrop_while f (map g l) = map g (rdrop_while f l).
Proof.
  intros H. unfold rdrop_while. change (@map ascii ascii) with (@fmap list _ ascii ascii).
  rewrite <- fmap_reverse. change (@fmap list _ ascii ascii) with (@map ascii ascii). rewrite drop_while_map by done.
  symmetry. apply (fmap_reverse g).
Qed.
Lemma rdrop_while_idem f l : rdrop_while f (rdrop_while f l) = rdrop_while f l.
Proof. unfold rdrop_while. by rewrite reverse_involutive, drop_while_idem. Qed.
Lemma trimmed f l : drop_while f (rdrop_while f (drop_while f l)) = rdrop_while f (drop_while f l).
Proof.
  destruct (rdrop_while_prefix f (drop_while f l)) as [l2 H]. pose proof (drop_while_idem f l) as Hi.
  destruct (rdrop_while f (drop_while f l)) as [|c k]; [done|]. rewrite H in Hi. cbn in Hi |- *.
  destruct (f c); [|done]. exfalso. destruct (drop_while_suffix f (k ++ l2)) as [l1 Hs].
  apply (f_equal length) in Hs. apply (f_equal length) in Hi. rewrite (length_app l1) in Hs. cbn in Hi. lia.
Qed.

Lemma normalized_idem s : lower (strip (lower (strip s))) = lower (strip s).
Proof.
  unfold lower, strip. rewrite !chars_str, drop_while_map, rdrop_while_map by apply is_space_lower.
  rewrite trimmed, rdrop_while_idem, map_map. f_equal. apply map_ext. apply lower_char_idem.
Qed.
Lemma normalize_Some v s : normalize v = Some s -> exists t, v = Some t /\ s = lower (strip t) /\ s <> "".
Proof. destruct v as [t|]; cbn; [|done]. destruct (bool_decide_reflect (lower (strip t) = "")); [done|]. intros [= <-]. eauto. Qed.

(** ** Records and requests *)

(** A record carries every identifier of a request. *)
Definition carries (q : ProjectCatalogRequest) (r : CatalogRecord) : Prop :=
  (forall v, rq_client_key q = Some v -> cat_client_key r = v) /\
  (forall v, rq_project_key q = Some v -> cat_project_key r = v) /\
  (forall v, rq_project_slug q = Some v -> v ∈ ca_project_slugs (cat_aliases r)) /\
  (forall v, rq_manifest_name q = Some v -> v ∈ ca_manifest_names (cat_aliases r)).
Lemma record_matches_spec q r : record_matches q r = true <-> carries q r.
Proof.
  assert (Hc : forall v, dimension_matches r ("client_key", v) = bool_decide (cat_client_key r = v)) by reflexivity.
  assert (Hp : forall v, dimension_matches r ("project_key", v) = bool_decide (cat_project_key r = v)) by reflexivity.
  assert (Hs : forall v, dimension_matches r ("project_slug", v) = bool_decide (v ∈ ca_project_slugs (cat_aliases r))) by reflexivity.
  assert (Hm : forall v, dimension_matches r ("manifest_name", v) = bool_decide (v ∈ ca_manifest_names (cat_aliases r))) by reflexivity.
  unfold record_matches, supplied, dimensions, carries. destruct q as [[c|] [p|] [s|] [m|]]; cbn -[dimension_matches];
    rewrite ?Hc, ?Hp, ?Hs, ?Hm, ?andb_true_iff, ?bool_decide_eq_true; naive_solver.
Qed.

(** A record that has every required output. *)
Definition complete (r : CatalogRecord) (v : ValidatedCatalogRecord) : Prop :=
  cat_manifest_ref r = Some (vcr_manifest_ref v) /\ cat_source_context r = Some (vcr_source_context v) /\
  cd_data_policy (cat_defaults r) = Some (vcr_data_policy v) /\ cd_target (cat_defaults r) = Some (vcr_target v) /\
  strip (vcr_data_policy v) <> "" /\ strip (vcr_target v) <> "" /\ vcr_record_id v = cat_record_id r.
(** The outputs a record lacks. *)
Definition lacks (r : CatalogRecord) (field : string) : Prop :=
  (field = "manifest_ref" /\ cat_manifest_ref r = None) \/ (field = "source_context" /\ cat_source_context r = None) \/
  (field = "data_policy_default" /\ from_option strip "" (cd_data_policy (cat_defaults r)) = "") \/
  (field = "target_default" /\ from_option strip "" (cd_target (cat_defaults r)) = "").

Lemma is_blank_spec v : is_blank v = true <-> from_option strip "" v = "".
Proof. destruct v; cbn; [apply bool_decide_eq_true|done]. Qed.
Lemma invalid_required_fields_spec r field : field ∈ invalid_required_fields r <-> lacks r field.
Proof.
  unfold invalid_required_fields, lacks. rewrite <- !is_blank_spec.
  destruct (cat_manifest_ref r), (cat_source_context r), (is_blank (cd_data_policy _)), (is_blank (cd_target _)); cbn; set_solver.
Qed.
Lemma validate_record_spec r :
  match validate_record r with
  | inr v => complete r v
  | inl i => icr_record_id i = cat_record_id r /\ (exists field, lacks r field) /\ (forall field, field ∈ icr_invalid_fields i <-> lacks r field)
  end.
Proof.
  assert (Hinv : (exists field, lacks r field) -> icr_record_id (mkInvalidCatalogRecord (cat_record_id r) (invalid_required_fields r) (invalid_catalog_reason_code (invalid_required_fields r))) = cat_record_id r /\ (exists field, lacks r field) /\ (forall field, field ∈ invalid_required_fields r <-> lacks r field)).
  { intros H. split_and!; [done|done|]. apply invalid_required_fields_spec. }
  unfold validate_record, lacks, complete in *.
  destruct (cat_manifest_ref r) as [m|], (cat_source_context r) as [s|], (cd_data_policy (cat_defaults r)) as [p|] eqn:Ep,
    (cd_target (cat_defaults r)) as [t|] eqn:Et; try (apply Hinv; naive_solver).
  destruct (is_blank (Some p)) eqn:Ebp; cbn -[is_blank]; [apply Hinv; apply is_blank_spec in Ebp; naive_solver|].
  destruct (is_blank (Some t)) eqn:Ebt; [apply Hinv; apply is_blank_spec in Ebt; naive_solver|]. cbn in *.
  apply bool_decide_eq_false in Ebp, Ebt. done.
Qed.

(** ** Resolution over the YAML index *)

(** What resolving the normalized request [q] over [records] must answer. *)
Definition answers (q : ProjectCatalogRequest) (records : list CatalogRecord) (answer : resolution) : Prop :=
  match answer with
  | Resolved res => exists l1 r l2 v, records = l1 ++ r :: l2 /\ carries q r /\ Forall (fun r => ~ carries q r) (l1 ++ l2) /\
      complete r v /\ res = assemble v (matched_by q)
  | ResolutionFailure type fingerprint details =>
    fingerprint = request_fingerprint q /\
    match details with
    | Identifiers ids => type = "catalog-not-found" /\ ids = supplied q /\ Forall (fun r => ~ carries q r) records
    | Ambiguous ids dims => type = "ambiguous-resolution" /\ dims = supplied_dimensions q /\ 2 <= length ids /\
        exists named, ids = map cat_record_id named /\ named `sublist_of` records /\ (forall r, r ∈ named <-> r ∈ records /\ carries q r)
    | Invalid i => type = "invalid-catalog" /\ exists l1 r l2, records = l1 ++ r :: l2 /\ carries q r /\ Forall (fun r => ~ carries q r) (l1 ++ l2) /\
        icr_record_id i = cat_record_id r /\ (exists field, lacks r field) /\ (forall field, field ∈ icr_invalid_fields i <-> lacks r field)
    end
  end.

Lemma unmatched q l : List.filter (record_matches q) l = [] <-> Forall (fun r => ~ carries q r) l.
Proof.
  induction l as [|r l IH]; cbn; [done|]. rewrite Forall_cons, <- IH, <- (record_matches_spec q r). destruct (record_matches q r).
  - split; [done|]. intros [H _]. by destruct H.
  - split; [done|]. by intros [_ H].
Qed.
Lemma only_match q l r : List.filter (record_matches q) l = [r] ->
  exists l1 l2, l = l1 ++ r :: l2 /\ carries q r /\ Forall (fun r => ~ carries q r) (l1 ++ l2).
Proof.
  induction l as [|x l IH]; cbn; [done|]. destruct (record_matches q x) eqn:E; [intros [= -> H]|intros H].
  - exists [], l. split_and!; [done|by apply record_matches_spec|by apply unmatched].
  - destruct (IH H) as (l1 & l2 & -> & Hr & Hall). exists (x :: l1), l2. split_and!; [done..|]. cbn. constructor; [|done].
    rewrite <- record_matches_spec. congruence.
Qed.
Lemma filter_sublist {A} (f : A -> bool) l : List.filter f l `sublist_of` l.
Proof. induction l as [|x l IH]; cbn; [done|]. destruct (f x); by constructor. Qed.

Section Resolving.
Variable safe_load : string -> option json.

Lemma find_matches_runs q tr o :
  runs (find_matches safe_load q) tr o ->
  exists answer, tr = [Event ReadCatalog answer] /\
    o = match answer with
        | Ok text => match records_of safe_load text with Ok records => Ok (List.filter (record_matches q) records) | Err e => Err e end
        | Err ReadError => Err CannotRead
        | Err e => Err e
        end.
Proof.
  intros [(tr1 & tr2 & records & -> & H & [-> ->]%runs_Ret)|(x & -> & H)]%runs_bind.
  - apply runs_bind in H as [(t1 & t2 & text & -> & H & [-> Ho]%runs_lift)|(x & [=] & _)]. rewrite !app_nil_r.
    apply runs_catch in H as [(a & [= ->] & H%runs_call)|(t3 & t4 & x & -> & _ & H)]; [|destruct x; apply runs_Raise in H as [_ [=]]].
    exists (Ok a). split; [done|]. by rewrite <- Ho.
  - apply runs_bind in H as [(t1 & t2 & text & -> & H & [-> Ho]%runs_lift)|(y & [= ->] & H)].
    + apply runs_catch in H as [(a & [= ->] & H%runs_call)|(t3 & t4 & y & -> & _ & H)]; [|destruct y; apply runs_Raise in H as [_ [=]]].
      exists (Ok a). rewrite app_nil_r. split; [done|]. by rewrite <- Ho.
    + apply runs_catch in H as [(a & [=] & _)|(t3 & t4 & z & -> & H%runs_call & Hz)]. exists (Err z). subst t3.
      destruct z; apply runs_Raise in Hz as [-> [= ->]]; done.
Qed.

Lemma resolved_by q records :
  match List.filter (record_matches q) records with
  | [] => answers q records (ResolutionFailure "catalog-not-found" (request_fingerprint q) (Identifiers (supplied q)))
  | [record] =>
    answers q records
      (match validate_record record with
       | inl invalid => ResolutionFailure "invalid-catalog" (request_fingerprint q) (Invalid invalid)
       | inr valid => Resolved (assemble valid (matched_by q))
       end)
  | matches => answers q records (ResolutionFailure "ambiguous-resolution" (request_fingerprint q) (Ambiguous (map cat_record_id matches) (supplied_dimensions q)))
  end.
Proof.
  destruct (List.filter (record_matches q) records) as [|r [|r' l]] eqn:E.
  - split_and!; [done..|]. by apply unmatched.
  - destruct (only_match _ _ _ E) as (l1 & l2 & -> & Hr & Hall). pose proof (validate_record_spec r) as Hv.
    destruct (validate_record r) as [i|v]; cbn; [|by exists l1, r, l2, v]. split; [done|]. split; [done|]. by exists l1, r, l2.
  - split; [done|]. split; [done|]. split; [done|]. split; [cbn; lia|]. exists (r :: r' :: l). split_and!; [done|rewrite <- E; apply filter_sublist|].
    intros x. rewrite <- E, !list_elem_of_In, filter_In, record_matches_spec. done.
Qed.

(** C31. A project resolves, for the request with its identifiers stripped and lower-cased,
    exactly when one record of the catalog carries every identifier this normalized request
    supplies, as the record writes it, and has every required output: none is
    catalog-not-found, several are ambiguous and listed in the order of the file, and a single
    record that lacks outputs is invalid with exactly those outputs named.  (So a record
    written with capitals is not found, even by a request that quotes it.)  A request without
    a usable identifier is answered without reading the catalog; a file that cannot be read is
    the error of its source, as is a text that is not a catalog, and any other exception of
    the read propagates. *)
Theorem catalog_resolution request tr o :
  runs (resolve (find_matches safe_load) request) tr o ->
  let q := normalize_request request in
  if bool_decide (supplied q = []) then tr = [] /\ o = Ok (ResolutionFailure "catalog-not-found" "{}" (Identifiers []))
  else exists read, tr = [Event ReadCatalog read] /\
    match read with
    | Err ReadError => o = Err CannotRead
    | Err e => o = Err e
    | Ok text => match records_of safe_load text with Err e => o = Err e | Ok records => exists answer, o = Ok answer /\ answers q records answer end
    end.
Proof.
  intros H. set (q := normalize_request request). unfold resolve in H. cbv zeta in H. fold q in H. clearbody q.
  cbv zeta. unfold supplied_dimensions in H at 1. case_bool_decide as He.
  - rewrite He in H. cbn [map] in H. apply runs_Ret in H as [-> ->]. split; [done|]. do 2 f_equal. unfold request_fingerprint. rewrite He. vm_compute. reflexivity.
  - destruct (supplied q) as [|d ds] eqn:Es; [done|]. cbn [map] in H. rewrite <- Es in H.
    apply runs_bind in H as [(tr1 & tr2 & matches & -> & (read & -> & Ho)%find_matches_runs & H)|(x & -> & (read & -> & Ho)%find_matches_runs)].
    + exists read. destruct read as [text|[]]; [|by simplify_eq..]. destruct (records_of safe_load text) as [records|e]; simplify_eq.
      pose proof (resolved_by q records) as Hr. destruct (List.filter _ records) as [|r [|r' l]]; [| |apply runs_Ret in H as [-> ->]; rewrite app_nil_r; split; [done|]; by eexists].
      * apply runs_Ret in H as [-> ->]. rewrite app_nil_r. split; [done|]. by eexists.
      * destruct (validate_record r); apply runs_Ret in H as [-> ->]; rewrite app_nil_r; (split; [done|]); by eexists.
    + exists read. destruct read as [text|[]]; [|by simplify_eq..]. destruct (records_of safe_load text); simplify_eq. done.
Qed.
End Resolving.

(** Whatever a request can name is normalized: a record written otherwise is out of its reach. *)
Lemma carried_identifiers_are_normalized request r :
  let q := normalize_request request in
  carries q r -> is_Some (rq_client_key q) -> lower (strip (cat_client_key r)) = cat_client_key r.
Proof.
  intros q (Hc & _) [v Hv]. rewrite (Hc v Hv). apply normalize_Some in Hv as (t & _ & -> & _). apply normalized_idem.
Qed.

(** Two records; the request is normalized before the lookup. *)
Definition shop_record (client : string) : json :=
  JObj [("record_id", JStr "r1"); ("client_key", JStr client); ("project_key", JStr "shop");
        ("manifest_ref", JObj [("manifest_name", JStr "shop"); ("manifest_path", JStr "shop/project.yaml")]);
        ("source_context", JObj [("source_set_id", JStr "s1"); ("repos", JArr [])]);
        ("defaults", JObj [("data_policy", JStr "copy"); ("target", JStr "local")])].
Definition shop_catalog (text : string) : option json :=
  Some (JObj [("records", JArr [shop_record text])]).
Definition client_request (client : string) : ProjectCatalogRequest := mkProjectCatalogRequest (Some client) None None None.
Definition catalog_handler (text : string) : handler (E := catalog_op) (X := catalog_error) unit :=
  fun R e => match e in catalog_op R return unit -> result catalog_error R * unit with ReadCatalog => fun w => (Ok text, w) end.
Definition shop_resolution (written asked : string) :=
  exec (catalog_handler written) (resolve (find_matches shop_catalog) (client_request asked)) tt.
Definition reading (tr : list (event catalog_op catalog_error)) : option (result catalog_error string) :=
  match tr with
  | [Event e r] => match e in catalog_op R return result catalog_error R -> _ with ReadCatalog => Some end r
  | _ => None
  end.
Lemma catalog_resolution_witness :
  exists res, (shop_resolution "acme" " ACME").1.1 = Ok (Resolved res) /\ rc_matched_by res = "client_key" /\
  exists answer, Ok (Resolved res) = Ok (E := catalog_error) answer /\
    answers (normalize_request (client_request " ACME")) (match records_of shop_catalog "acme" with Ok l => l | Err _ => [] end) answer.
Proof.
  eexists. split; [vm_compute; reflexivity|]. split; [reflexivity|].
  pose proof (catalog_resolution shop_catalog (client_request " ACME") _ _
    (exec_runs (catalog_handler "acme") (resolve (find_matches shop_catalog) (client_request " ACME")) tt)) as (read & Htr & H).
  apply (f_equal reading) in Htr. vm_compute in Htr. injection Htr as <-. exact H.
Defined.
(** The same catalog written with the client's capitals answers no request at all. *)
Example unnormalized_record_is_not_found :
  (shop_resolution "ACME" "ACME").1.1 = Ok (ResolutionFailure "catalog-not-found" (request_fingerprint (client_request "acme")) (Identifiers [("client_key", "acme")])).
Proof. vm_compute. reflexivity. Qed.

(** ** Selecting a provider's adapter *)

(** An entry appears again after itself. *)
Definition repeated (e : entry) (l : list entry) : Prop := exists l1 l2, l = l1 ++ e :: l2 /\ e ∈ l2.
Lemma repeated_cons e x l : repeated e (x :: l) <-> (x = e /\ e ∈ l) \/ repeated e l.
Proof.
  split.
  - intros ([|y l1] & l2 & H & Hin); injection H as -> ->; [by left|]. right. by exists l1, l2.
  - intros [[-> Hin]|(l1 & l2 & -> & Hin)]; [by exists [], l|by exists (x :: l1), l2].
Qed.

Lemma repeated_elem e l : repeated e l -> e ∈ l.
Proof. intros (l1 & l2 & -> & _). set_solver. Qed.
Lemma elem_of_if (x y : string) (P : Prop) `{!Decision P} : x ∈ (if bool_decide P then [y] else []) <-> x = y /\ P.
Proof. case_bool_decide; set_solver. Qed.
Lemma elem_of_unless (x y : string) (P : Prop) `{!Decision P} : x ∈ (if bool_decide P then [] else [y]) <-> x = y /\ ~ P.
Proof. case_bool_decide; set_solver. Qed.

Lemma approved_keys seen l kind id : (kind, id) ∈ (adapter_errors seen l).2 <-> (kind, id) ∈ seen \/ Entry kind id ∈ l.
Proof.
  revert seen. induction l as [|[k i|d] l IH]; intros seen; cbn; [set_solver|..]; rewrite IH, !elem_of_cons; naive_solver.
Qed.
Lemma adapter_errors_spec seen l x :
  x ∈ (adapter_errors seen l).1 <-> OtherValue x ∈ l \/ exists kind, Entry kind x ∈ l /\ ((kind, x) ∈ seen \/ repeated (Entry kind x) l).
Proof.
  revert seen. induction l as [|[k i|d] l IH]; intros seen; cbn; [set_solver|..].
  - rewrite elem_of_app, IH, elem_of_if. setoid_rewrite repeated_cons. setoid_rewrite elem_of_cons.
    pose proof (repeated_elem (Entry k i) l). split; naive_solver.
  - rewrite elem_of_cons, IH. setoid_rewrite repeated_cons. setoid_rewrite elem_of_cons. naive_solver.
Qed.
Lemma binding_errors_spec approved seen l x :
  x ∈ binding_errors approved seen l <->
  OtherValue x ∈ l \/ exists kind, Entry kind x ∈ l /\ ((kind, x) ∈ seen \/ repeated (Entry kind x) l \/ (kind, x) ∉ approved).
Proof.
  revert seen. induction l as [|[k i|d] l IH]; intros seen; cbn; [set_solver|..].
  - rewrite !elem_of_app, IH, elem_of_if, elem_of_unless. setoid_rewrite repeated_cons. setoid_rewrite elem_of_cons.
    pose proof (repeated_elem (Entry k i) l). split; naive_solver.
  - rewrite elem_of_cons, IH. setoid_rewrite repeated_cons. setoid_rewrite elem_of_cons. naive_solver.
Qed.

(** What is wrong with a catalog: the texts of the values that are no adapters or bindings, the
    adapters approved or bound twice, and the bindings that are not approved. *)
Definition fault (c : ProviderCatalog) (x : string) : Prop :=
  OtherValue x ∈ approved_adapters c \/ OtherValue x ∈ global_bindings c \/
  exists kind, repeated (Entry kind x) (approved_adapters c) \/ repeated (Entry kind x) (global_bindings c) \/
    (Entry kind x ∈ global_bindings c /\ Entry kind x ∉ approved_adapters c).
Lemma catalog_errors_spec c x : x ∈ catalog_errors c <-> fault c x.
Proof.
  unfold catalog_errors. destruct (adapter_errors [] (approved_adapters c)) as [errors approved] eqn:E.
  assert (Ha : forall kind, (kind, x) ∈ approved <-> Entry kind x ∈ approved_adapters c).
  { intros kind. replace approved with (adapter_errors [] (approved_adapters c)).2 by by rewrite E. rewrite approved_keys. set_solver. }
  rewrite elem_of_sorted_set, elem_of_app, binding_errors_spec. replace errors with (adapter_errors [] (approved_adapters c)).1 by by rewrite E.
  rewrite adapter_errors_spec. setoid_rewrite Ha. unfold fault. setoid_rewrite elem_of_nil.
  pose proof (fun k => repeated_elem (Entry k x) (approved_adapters c)). pose proof (fun k => repeated_elem (Entry k x) (global_bindings c)). naive_solver.
Qed.

Lemma elem_of_bound kind l id : id ∈ bound_to kind l <-> Entry kind id ∈ l.
Proof.
  unfold bound_to. rewrite list_elem_of_omap. split.
  - intros ([k i|d] & Hin & H); [|done]. case_bool_decide; simplify_eq. done.
  - intros Hin. exists (Entry kind id). split; [done|]. by rewrite bool_decide_true.
Qed.

(** A provider kind resolves to an adapter exactly when the catalog has no fault and binds the
    kind once, to an approved adapter; a faulty catalog is invalid for every kind, with exactly
    its faults named once each and sorted; no binding is a missing selection; several are
    ambiguous and listed sorted. *)
Theorem provider_selection c argument :
  match resolve_provider c argument with
  | Ok (ResolvedAdapter kind id) => argument = Kind kind /\ (forall x, ~ fault c x) /\ bound_to kind (global_bindings c) = [id] /\
      Entry kind id ∈ approved_adapters c
  | Ok (CatalogFailure INVALID_CATALOG details) =>
      match argument with
      | NoKind detail => details = [detail]
      | Kind _ => details <> [] /\ NoDup details /\ StronglySorted str_le details /\ forall x, x ∈ details <-> fault c x
      end
  | Ok (CatalogFailure MISSING_SELECTION details) =>
      exists kind, argument = Kind kind /\ details = [] /\ (forall x, ~ fault c x) /\ forall id, Entry kind id ∉ global_bindings c
  | Ok (CatalogFailure AMBIGUOUS_SELECTION details) =>
      exists kind, argument = Kind kind /\ (forall x, ~ fault c x) /\ 2 <= length details /\ StronglySorted str_le details /\
        details ≡ₚ bound_to kind (global_bindings c)
  | Err _ => exists kind id, argument = Kind kind /\ Entry kind id ∈ global_bindings c /\ strip id = ""
  end.
Proof.
  destruct argument as [kind|detail]; cbn; [|done].
  destruct (catalog_errors c) as [|x xs] eqn:E.
  2:{ rewrite <- E. split; [congruence|]. pose proof (catalog_errors_spec c) as Hs. revert Hs. unfold catalog_errors.
      destruct (adapter_errors _ _). intros Hs. split; [apply sorted_set_NoDup|]. split; [apply sorted_str_sorted|done]. }
  assert (Hf : forall x, ~ fault c x) by (intros x; rewrite <- catalog_errors_spec, E; set_solver).
  pose proof (sorted_str_perm (bound_to kind (global_bindings c))) as Hp. pose proof (sorted_str_sorted (bound_to kind (global_bindings c))) as Ho.
  destruct (sorted_str (bound_to kind (global_bindings c))) as [|id [|id' ids]].
  - exists kind. split_and!; [done..|]. intros id. rewrite <- elem_of_bound, <- Hp. set_solver.
  - assert (Hb : bound_to kind (global_bindings c) = [id]) by (symmetry; by apply Permutation_singleton_l).
    assert (Hin : Entry kind id ∈ global_bindings c) by (apply elem_of_bound; rewrite Hb; set_solver).
    unfold checked_adapter. case_bool_decide as He; cbn; [by exists kind, id|]. split_and!; [done..|].
    destruct (decide (Entry kind id ∈ approved_adapters c)) as [|Hn]; [done|]. destruct (Hf id). right. right. exists kind. by right; right.
  - exists kind. split_and!; [done..|cbn; lia|done|done].
Qed.
