(* ===== verification/Cli.v ===== *)
(** * What the manifest commands ask of the world

    Child processes, files, the remembered credential, the registry and the ports of the
    adapters the commands construct, as one signature of effects.  A program of these calls is
    judged by its traces, so nothing is assumed about the answers. *)

From S2P Require Import Prelude Effects Values Paths Lock Docker Backend DockerBackend Workspace.

Inductive cli_op : Type -> Type :=
(* [subprocess.run(argv, env=, timeout=, capture_output, text)]: exit status, stdout and stderr *)
| Process (argv : list string) (env : option (gmap string string)) (timeout : option string) : cli_op (Z * string * string)
| ReadText (p : path) : cli_op string
| FileExists (p : path) : cli_op bool
| Resolve (p : path) : cli_op path                          (* [Path.resolve] *)
| MakeTempFile (dir : option path) (prefix suffix : string) : cli_op path   (* [tempfile.mkstemp], opened *)
| Fchmod (p : path) (mode : Z) : cli_op unit
| WriteText (p : path) (text : string) : cli_op unit        (* [write] to the opened file, and its close *)
| ReplaceFile (src dst : path) : cli_op unit                (* [os.replace] *)
| UnlinkFile (p : path) : cli_op unit                       (* [unlink(missing_ok=True)] *)
(* the cached value of the memoizing resolver *)
| Remembered : cli_op (option string)
| Remember (value : string) : cli_op unit
(* the published artifact resolver *)
| PublishedArtifact (source version : string) : cli_op PublishedArtifactResolution
(* the operations of the workspace adapter and of the local backend *)
| OnWorkspace {R : Type} (e : Workspace.workspace_op R) : cli_op R
| OnBackend {R : Type} (e : backend_op R) : cli_op R
| IsDir (p : path) : cli_op bool
| IsFile (p : path) : cli_op bool
| ListDir (p : path) : cli_op (list string)                 (* [iterdir], as names *)
| Echo (err : bool) (line : string) : cli_op unit.
Definition cli_prog := prog cli_op exn.

(** The families of exceptions the commands catch. *)
Definition is_manifest_error (e : exn) : bool :=
  match e with
  | ManifestError _ | ManifestInputError _ | CompositionError _ | LockfileError _ | ModuleDependencyError _ | ProjectionError _ | MountPlanningError _
  | CheckoutError _ | ScanError _ | PromotionError _ | AlreadyUnlockedError _ => true
  | _ => false
  end.
Definition is_resolution_error (e : exn) : bool := match e with ResolutionError _ => true | _ => false end.
Definition is_os_error (e : exn) : bool := match e with OSError _ => true | _ => false end.
Definition is_credential_error (e : exn) : bool :=
  match e with CredentialError | CredentialTargetRejectedError => true | _ => false end.

(** [ResolutionError] and its subclasses, by their texts ([manifest/errors.py]). *)
Definition RefNotFoundError (url ref : string) : exn := ResolutionError ("ref '" +:+ ref +:+ "' not found on remote '" +:+ url +:+ "'").
Definition AuthenticationError (url : string) : exn := ResolutionError ("authentication failed for remote '" +:+ url +:+ "'").
Definition NetworkError (url detail : string) : exn := ResolutionError ("cannot reach remote '" +:+ url +:+ "': " +:+ detail).
