(* ===== verification/GitSource.v ===== *)
(** * Resolving a git reference ([odoo_forge_git/git_provider.py])

    [git ls-remote] is run once, its failures are classified without the remote's user
    information, and one commit is selected from what it printed. *)

From stdpp Require Import pretty.
From S2P Require Import Prelude Effects Regex Values Urls Paths Docker Workspace Cli.

Definition BARE_SHA : regex := ignore_case (rrep 40 (RSet (fun c => is_digit c || in_range "a"%char "f"%char c))).
Definition AUTH_MARKERS : list string :=
  ["authentication failed"; "could not read username"; "permission denied"; "publickey"].
Definition MISSING_REMOTE_REF : string := "fatal: couldn't find remote ref".
(** [_MISSING_REMOTE_REF.search]: a line that is this text, or continues it after a space. *)
Definition missing_remote_ref (stderr : string) : bool :=
  existsb (fun line => bool_decide (line = MISSING_REMOTE_REF) || is_prefix (chars (MISSING_REMOTE_REF +:+ " ")) (chars line))
    (split_on newline stderr).

(** ** [_safe_url] *)

(** [_SCP_REMOTE.fullmatch]: [user@host:path] *)
Definition scp_remote (url : list ascii) : option (list ascii * list ascii) :=
  match cut_first "@"%char url with
  | Some (user, rest) =>
    match cut_first ":"%char rest with
    | Some (host, p) =>
      if negb (bool_decide (user = [])) && negb (has "/"%char user) && negb (has ":"%char user) &&
         negb (bool_decide (host = [])) && negb (has "/"%char host) && negb (bool_decide (p = [])) && negb (has newline p)
      then Some (host, p) else None
    | None => None
    end
  | None => None
  end.
(** The scheme [urlsplit] reads, and what it removes from the front and from the inside. *)
Definition cleaned_url (url : list ascii) : list ascii := List.filter (fun c => negb (unsafe_byte c)) (drop_while c0_or_space url).
Definition url_scheme (url : list ascii) : list ascii :=
  match cut_first ":"%char (cleaned_url url) with
  | Some (c :: s, _) => if (is_lower c || is_upper c) && forallb is_scheme_char (c :: s) then map lower_char (c :: s) else []
  | _ => []
  end.
Definition after_user (netloc : list ascii) : list ascii := after_last_chars "@"%char netloc.
(** [SplitResult._hostinfo]: the text after the host's colon. *)
Definition port_text (netloc : list ascii) : list ascii :=
  let tail :=
    match cut_first "["%char (after_user netloc) with
    | Some (_, b) => match cut_first "]"%char b with Some (_, p) => p | None => [] end
    | None => after_user netloc
    end in
  match cut_first ":"%char tail with Some (_, p) => p | None => [] end.
Definition decimal (l : list ascii) : Z := foldl (fun n c => (10 * n + Z.of_nat (code c - 48))%Z) 0%Z l.
(** [SplitResult.port]: [None] is [ValueError]. *)
Definition port_of (netloc : list ascii) : option (option Z) :=
  match port_text netloc with
  | [] => Some None
  | p => if forallb is_digit p && (decimal p <=? 65535)%Z then Some (Some (decimal p)) else None
  end.
(** [urlunsplit] of path, query and fragment: an empty query or fragment loses its mark. *)
Definition normal_rest (rest : list ascii) : list ascii :=
  let '(rest, fragment) := match cut_first "#"%char rest with Some (a, b) => (a, b) | None => (rest, []) end in
  let '(p, query) := match cut_first "?"%char rest with Some (a, b) => (a, b) | None => (rest, []) end in
  p ++ (match query with [] => [] | _ => "?"%char :: query end) ++ (match fragment with [] => [] | _ => "#"%char :: fragment end).
Definition redacted : string := "<redacted-remote>".
Definition safe_url (url : string) : string :=
  let l := chars url in
  let hidden := if has "@"%char l then redacted else url in
  if negb (contains (chars "://") l) then
    match scp_remote l with Some (host, p) => str host +:+ ":" +:+ str p | None => hidden end
  else
    match urlsplit l with
    | None => redacted
    | Some (netloc, rest) =>
      match port_of netloc with
      | None => redacted
      | Some port =>
        if bool_decide (hostname netloc = []) then hidden
        else
          let host := if has ":"%char (hostname netloc) then "[" +:+ str (hostname netloc) +:+ "]" else str (hostname netloc) in
          let host := match port with Some n => host +:+ ":" +:+ pretty n | None => host end in
          if negb (has "@"%char netloc) then url
          else (match url_scheme l with [] => "" | s => str s +:+ ":" end) +:+ "//" +:+ host +:+ str (normal_rest rest)
      end
    end.

(** ** [_select_sha] *)

Record candidates : Type := mkCandidates { cs_branch : option string; cs_peeled : option string; cs_tag : option string; cs_first : option string }.
Definition read_line (ref : string) (c : candidates) (line : string) : candidates :=
  if bool_decide (strip line = "") then c else
  let '(sha, refname) := match cut_first "009"%char (chars line) with Some (a, b) => (str a, str b) | None => (line, "") end in
  let first := match cs_first c with None => Some sha | f => f end in
  if bool_decide (refname = "refs/heads/" +:+ ref) then mkCandidates (Some sha) (cs_peeled c) (cs_tag c) first
  else if bool_decide (refname = "refs/tags/" +:+ ref +:+ "^{}") then mkCandidates (cs_branch c) (Some sha) (cs_tag c) first
  else if bool_decide (refname = "refs/tags/" +:+ ref) then mkCandidates (cs_branch c) (cs_peeled c) (Some sha) first
  else mkCandidates (cs_branch c) (cs_peeled c) (cs_tag c) first.
Definition select_sha (stdout ref : string) : result exn string :=
  let c := foldl (read_line ref) (mkCandidates None None None None) (splitlines stdout) in
  match cs_branch c, cs_peeled c, cs_tag c, cs_first c with
  | Some sha, _, _, _ | None, Some sha, _, _ | None, None, Some sha, _ | None, None, None, Some sha => Ok sha
  | None, None, None, None => Err (RuntimeError "no SHA candidate found")
  end.

(** ** [resolve_ref] *)

Definition ls_remote_argv (url ref : string) : list string := ["git"; "ls-remote"; "--"; url; ref].

Section Git.
(** [os.environ], and the printed form of the timeout in seconds. *)
Variable environ : gmap string string.
Variable timeout : string.

Definition resolve_ref (url ref : string) (env_overlay : option (gmap string string)) : cli_prog string :=
  if fullmatch BARE_SHA ref then Ret ref else
  let public_url := safe_url url in
  let* '(returncode, stdout, stderr) :=
    catch (call (Process (ls_remote_argv url ref) (Some (run_env environ env_overlay)) (Some timeout)))
      (fun e => match e with
                | OSError ENOENT => Raise (ResolutionError "git executable not found")
                | OSError _ => Raise (ResolutionError "git ls-remote failed to execute")
                | TimeoutExpired => Raise (NetworkError public_url ("ref '" +:+ ref +:+ "': timed out after " +:+ timeout +:+ "s"))
                | _ => Raise e
                end) in
  if negb (returncode =? 0)%Z then
    let stderr := strip stderr in
    if existsb (fun marker => contains (chars marker) (chars (lower stderr))) AUTH_MARKERS then Raise (AuthenticationError public_url)
    else if missing_remote_ref stderr then Raise (RefNotFoundError public_url ref)
    else Raise (NetworkError public_url ("git ls-remote failed with exit code " +:+ pretty returncode))
  else
    let stdout := strip stdout in
    if bool_decide (stdout = "") then Raise (RefNotFoundError public_url ref) else lift (select_sha stdout ref).
End Git.
