(* ===== verification/Identity.v ===== *)
(** * Signed identities ([odoo_forge/identity/types.py], [odoo_forge_identity_github])

    The GitHub identity provider: a stateless challenge that carries the audience, and
    [verify], which turns a signed token into a principal after asking the issuer for its
    metadata and keys.  The transport that fetches the two documents over HTTPS is a component
    of its own, and [production] runs the provider over it.  RSA is a parameter. *)

From Stdlib Require Import QArith.
From S2P Require Import Prelude Effects Regex Values Urls Json Docker GitSource Encodings.

(** ** [odoo_forge/identity/types.py] *)

Record AuthenticationRequest : Type := mkAuthenticationRequest { ar_audience : string; ar_context : list (string * string) }.
Record AuthenticationChallenge : Type := mkAuthenticationChallenge { ch_challenge_id : string; ch_payload : string }.
Record IdentityAssertion : Type := mkIdentityAssertion { ia_challenge_id : string; ia_value : string }.
Record SessionRef : Type := mkSessionRef { sr_reference : string }.
Record AuthenticatedPrincipal : Type := mkAuthenticatedPrincipal {
  ap_subject : string;
  ap_claims : list (string * string);
  ap_session : SessionRef
}.

(** ** What the provider asks for *)

Definition json_object : Type := list (string * json).
Inductive oidc_op : Type -> Type :=
| GetMetadata (issuer : string) : oidc_op json_object
| GetJwks (jwks_uri : string) : oidc_op json_object
| Clock : oidc_op Q.                     (* [time.time()] *)
Definition oidc_prog := prog oidc_op exn.

Record GitHubIdentityProvider : Type := mkGitHubIdentityProvider { gp_issuer : string; gp_required_claims : list string }.
(** [GitHubIdentityProvider.__init__] *)
Definition identity_provider (issuer : string) (required_claims : list string) : result exn GitHubIdentityProvider :=
  ensure (negb (blank issuer)) (ValueError "issuer must not be empty") ;!
  ensure (negb (bool_decide (required_claims = [])) && forallb (fun claim => negb (blank claim)) required_claims)
    (ValueError "required claims must be non-empty names") ;!
  Ok (mkGitHubIdentityProvider issuer required_claims).

(** ** The challenge *)

(** [_encode_audience] *)
Definition encode_audience (audience : string) : string := str (unpadded (b64encode (chars audience))).

Definition begin (request : AuthenticationRequest) : result exn AuthenticationChallenge :=
  ensure (negb (blank (ar_audience request))) (ValueError "audience must not be empty") ;!
  let challenge := encode_audience (ar_audience request) in
  Ok (mkAuthenticationChallenge challenge challenge).

(** [_CHALLENGE_CHARS.fullmatch] *)
Definition challenge_chars (s : string) : bool := negb (bool_decide (s = "")) && forallb identifier_char (chars s).

Definition malformed_challenge : exn := ValueError "malformed authentication challenge".
Definition recover_audience (challenge_id : string) : result exn string :=
  ensure (challenge_chars challenge_id) malformed_challenge ;!
  match b64decode (chars challenge_id ++ padding (chars challenge_id)) with
  | None => Err malformed_challenge
  | Some bytes =>
    ensure (utf8 bytes) malformed_challenge ;!
    let audience := str bytes in
    ensure (negb (blank audience) && bool_decide (encode_audience audience = challenge_id)) malformed_challenge ;!
    Ok audience
  end.

(** ** The token *)

Definition malformed_jwt : exn := ValueError "malformed compact JWT".
Definition decode_segment (segment : list ascii) : result exn (list ascii) :=
  ensure (negb (length segment mod 4 =? 1)) malformed_jwt ;!
  match b64decode (segment ++ padding segment) with Some bytes => Ok bytes | None => Err malformed_jwt end.
Definition decode_object (payload : list ascii) : result exn json_object :=
  ensure (utf8 payload) malformed_jwt ;!
  match loads (str payload) with Some (JObj d) => Ok d | _ => Err malformed_jwt end.

Record token : Type := mkToken {
  t_header : json_object;
  t_claims : json_object;
  t_signing_input : list ascii;
  t_signature : list ascii
}.
(** [_parse_token] *)
Definition parse_token (text : string) : result exn token :=
  let segments := split_on "."%char text in
  ensure (forallb challenge_chars segments) malformed_jwt ;!
  match segments with
  | [s0; s1; s2] =>
    let! b0 := decode_segment (chars s0) in
    let! header := decode_object b0 in
    let! b1 := decode_segment (chars s1) in
    let! claims := decode_object b1 in
    let! signature := decode_segment (chars s2) in
    Ok (mkToken header claims (chars s0 ++ "."%char :: chars s1) signature)
  | _ => Err malformed_jwt
  end.

(** ** Keys and signatures *)

Section Verify.
Context {PK : Type}.
(** [rsa.RSAPublicNumbers(exponent, modulus).public_key()], [None] being its [ValueError]. *)
Variable rsa_public_key : N -> N -> option PK.
(** [key.verify(signature, signing_input, PKCS1v15(), SHA256())] returns. *)
Variable rsa_verify : PK -> list ascii -> list ascii -> bool.

Definition bad_key_material : exn := ValueError "invalid RSA JWKS key material".
(** [_decode_integer] *)
Definition decode_integer (value : option json) : result exn N :=
  match value with
  | Some (JStr s) =>
    ensure (negb (bool_decide (s = ""))) bad_key_material ;!
    let! bytes := decode_segment (chars s) in
    let number := from_bytes_big bytes in
    ensure (negb (number =? 0)%N) bad_key_material ;!
    Ok number
  | _ => Err bad_key_material
  end.

(** A key that [_select_key] settles on: what it is made of. *)
Definition suitable (key : json_object) : bool :=
  bool_decide (dget "kty" key = Some (JStr "RSA")) && bool_decide (dget "use" key = Some (JStr "sig")) &&
  (bool_decide (dget "alg" key = None) || bool_decide (dget "alg" key = Some JNull) || bool_decide (dget "alg" key = Some (JStr "RS256"))).
Definition public_key (key : json_object) : result exn PK :=
  ensure (suitable key) (ValueError "unsuitable JWKS key") ;!
  let! modulus := decode_integer (dget "n" key) in
  let! exponent := decode_integer (dget "e" key) in
  match rsa_public_key exponent modulus with Some pk => Ok pk | None => Err (ValueError "invalid RSA JWKS key") end.
(** The loop of [_select_key]. *)
Fixpoint key_named (kid : string) (keys : list json) : result exn json_object :=
  match keys with
  | [] => Err (ValueError "unknown JWT key identifier")
  | JObj key :: keys' => if bool_decide (dget "kid" key = Some (JStr kid)) then Ok key else key_named kid keys'
  | _ :: keys' => key_named kid keys'
  end.
Definition select_key (keys : list json) (kid : option json) : result exn PK :=
  match kid with
  | Some (JStr kid) =>
    ensure (negb (bool_decide (kid = ""))) (ValueError "missing JWT key identifier") ;!
    let! key := key_named kid keys in
    public_key key
  | _ => Err (ValueError "missing JWT key identifier")
  end.

(** ** Claims *)

(** A claim that is a text with something in it. *)
Definition text_claim (claims : json_object) (name : string) : option string :=
  match dget name claims with Some (JStr s) => if blank s then None else Some s | _ => None end.
Definition validate_claims (claims : json_object) (issuer audience : string) (required_claims : list string) : oidc_prog unit :=
  lift (ensure (bool_decide (dget "iss" claims = Some (JStr issuer)) && bool_decide (dget "aud" claims = Some (JStr audience)))
    (ValueError "issuer or audience mismatch")) ;*
  lift (ensure (bool_decide (is_Some (text_claim claims "sub"))) (ValueError "subject must be a non-empty string")) ;*
  match dget "exp" claims with
  | Some (JInt expiry) =>
    let* now := call Clock in
    lift (ensure (negb (Qle_bool (inject_Z expiry) now)) (ValueError "expiration is invalid or expired"))
  | _ => Raise (ValueError "expiration is invalid or expired")
  end ;*
  lift (result_iter (fun claim => ensure (bool_decide (is_Some (text_claim claims claim))) (ValueError "required claim is invalid"))
    required_claims).

(** The [for claim in self._required_claims] loop of [verify]; [None] is [return None]. *)
Fixpoint translated_claims (claims : json_object) (required : list string) (acc : list (string * string))
    : result exn (option (list (string * string))) :=
  match required with
  | [] => Ok (Some acc)
  | claim :: required' =>
    match dget claim claims with
    | Some (JStr value) => translated_claims claims required' (dset claim value acc)
    | Some _ => Ok None
    | None => Err (KeyError claim)
    end
  end.
Definition translate_principal (subject : string) (claims : list (string * string)) : result exn AuthenticatedPrincipal :=
  ensure (negb (blank subject)) (ValueError "principal values must be non-empty strings") ;!
  Ok (mkAuthenticatedPrincipal subject claims (mkSessionRef "")).

(** ** [verify] *)

(** The last part: a checked token becomes a principal. *)
Definition principal_of (p : GitHubIdentityProvider) (claims : json_object) : result exn (option AuthenticatedPrincipal) :=
  match dget "sub" claims with
  | None => Err (KeyError "sub")
  | Some subject =>
    let! translated := translated_claims claims (gp_required_claims p) [] in
    match translated, subject with
    | Some claims', JStr s => let! principal := translate_principal s claims' in Ok (Some principal)
    | _, _ => Ok None
    end
  end.
Definition check_token (p : GitHubIdentityProvider) (audience : string) (keys : list json) (text : string)
    : oidc_prog (option AuthenticatedPrincipal) :=
  let* t := lift (parse_token text) in
  if negb (bool_decide (dget "alg" (t_header t) = Some (JStr "RS256"))) || bool_decide (is_Some (dget "crit" (t_header t)))
  then Ret None
  else
    let* key := lift (select_key keys (dget "kid" (t_header t))) in
    lift (ensure (rsa_verify key (t_signature t) (t_signing_input t)) (PortError "InvalidSignature")) ;*
    validate_claims (t_claims t) (gp_issuer p) audience (gp_required_claims p) ;*
    lift (principal_of p (t_claims t)).
Definition verify_body (p : GitHubIdentityProvider) (assertion : IdentityAssertion) : oidc_prog (option AuthenticatedPrincipal) :=
  let* audience := lift (recover_audience (ia_challenge_id assertion)) in
  let* metadata := call (GetMetadata (gp_issuer p)) in
  if negb (bool_decide (dget "issuer" metadata = Some (JStr (gp_issuer p)))) then Ret None
  else match dget "jwks_uri" metadata with
  | Some (JStr jwks_uri) =>
    if bool_decide (jwks_uri = "") then Ret None
    else
      let* jwks := call (GetJwks jwks_uri) in
      match dget "keys" jwks with
      | Some (JArr keys) => check_token p audience keys (ia_value assertion)
      | _ => Ret None
      end
  | _ => Ret None
  end.
(** [try: ... except Exception: return None] *)
Definition verify (p : GitHubIdentityProvider) (assertion : IdentityAssertion) : oidc_prog (option AuthenticatedPrincipal) :=
  catch (verify_body p assertion) (fun _ => Ret None).
End Verify.

(** [resolve] fails closed. *)
Definition resolve (session : SessionRef) : result exn AuthenticatedPrincipal := Err (PortError "NotImplementedError").

(** ** The HTTPS transport ([odoo_forge_identity_github/transport.py]) *)

Inductive http_op : Type -> Type :=
| Open (url : string) (timeout : Q) : http_op nat                       (* [opener.open], redirects included *)
| GetUrl (response : nat) : http_op string
| ReadUpTo (response : nat) (amount : N) : http_op (option (list ascii))   (* [None]: not [bytes] *)
| CloseResponse (response : nat) : http_op unit
| HttpClock : http_op Q.
Definition http_prog := prog http_op exn.

Record GitHubOidcHttpsTransport : Type := mkTransport { tr_timeout : Q; tr_max_response_bytes : N }.
(** [__init__] on numbers of the declared types; [None] is a float that is not finite. *)
Definition https_transport (timeout : option Q) (max_response_bytes : Z) : result exn GitHubOidcHttpsTransport :=
  match timeout with
  | Some t =>
    ensure (negb (Qle_bool t 0)) (ValueError "timeout must be greater than zero") ;!
    ensure (0 <? max_response_bytes)%Z (ValueError "response size limit must be greater than zero") ;!
    Ok (mkTransport t (Z.to_N max_response_bytes))
  | None => Err (ValueError "timeout must be greater than zero")
  end.

Definition not_https : exn := ValueError "GitHub OIDC transport requires an HTTPS URL".
(** [_validate_https_url] *)
Definition https_ok (allow_query : bool) (url : string) : bool :=
  match urlsplit (chars url) with
  | None => false
  | Some (netloc, _) =>
    bool_decide (url_scheme (chars url) = chars "https") && negb (bool_decide (hostname netloc = [])) &&
    negb (has "@"%char netloc) && negb (has "#"%char (chars url)) && (allow_query || negb (has "?"%char (chars url)))
  end.
Definition validate_https_url (allow_query : bool) (url : string) : result exn string :=
  ensure (https_ok allow_query url) not_https ;! Ok url.
(** [_HttpsRedirectHandler.redirect_request]: what a redirect must pass before it is followed. *)
Definition redirect_request (newurl : string) : result exn string := validate_https_url true newurl.

Definition with_response {A : Type} (url : string) (timeout : Q) (body : nat -> http_prog A) : http_prog A :=
  let* response := call (Open url timeout) in finally (body response) (call (CloseResponse response)).
(** [_read_response] *)
Definition read_response (t : GitHubOidcHttpsTransport) (url : string) : http_prog (list ascii) :=
  let* body :=
    catch
      (with_response url (tr_timeout t) (fun response =>
        let* final := call (GetUrl response) in
        lift (validate_https_url true final) ;*
        call (ReadUpTo response (tr_max_response_bytes t + 1)%N)))
      (fun _ => Raise (RuntimeError "GitHub OIDC transport request failed")) in
  match body with
  | None => Raise (RuntimeError "GitHub OIDC transport returned an invalid response")
  | Some bytes =>
    if (tr_max_response_bytes t <? N.of_nat (length bytes))%N
    then Raise (RuntimeError "GitHub OIDC transport response exceeds size limit") else Ret bytes
  end.

(** [json.detect_encoding]: is a body in UTF-8 (with or without its mark), or a wider form? *)
Definition starts_with (mark : list nat) (l : list ascii) : bool := is_prefix (map ascii_of_nat mark) l.
Definition is_nul (c : ascii) : bool := code c =? 0.
Definition wide (l : list ascii) : bool :=
  existsb (fun mark => starts_with mark l) [[0; 0; 254; 255]; [255; 254; 0; 0]; [254; 255]; [255; 254]] ||
  negb (starts_with [239; 187; 191] l) &&
  match l with
  | [a; b] => is_nul a || is_nul b
  | a :: b :: _ :: _ :: _ => is_nul a || is_nul b
  | _ => false
  end.
Definition without_mark (l : list ascii) : list ascii := if starts_with [239; 187; 191] l then drop 3 l else l.

Section Production.
Context {PK : Type}.
Variable rsa_public_key : N -> N -> option PK.
Variable rsa_verify : PK -> list ascii -> list ascii -> bool.
(** Bodies in UTF-16 or UTF-32, as UTF-8. *)
Variable wide_text : list ascii -> option (list ascii).

Definition malformed_json : exn := RuntimeError "GitHub OIDC transport returned malformed JSON".
(** [_decode_json] *)
Definition decode_json (body : list ascii) : result exn json_object :=
  let text := if wide body then wide_text body
              else match code_points true (without_mark body) with Some _ => Some (without_mark body) | None => None end in
  match text with
  | Some l => match loads (str l) with Some (JObj d) => Ok d | _ => Err malformed_json end
  | None => Err malformed_json
  end.
Definition get_json (t : GitHubOidcHttpsTransport) (url : string) : http_prog json_object :=
  let* body := read_response t url in lift (decode_json body).

Definition OPENID_CONFIGURATION_PATH : string := "/.well-known/openid-configuration".
Definition metadata_url (issuer : string) : string := str (rdrop_while is_slash (chars issuer)) +:+ OPENID_CONFIGURATION_PATH.
Definition get_metadata (t : GitHubOidcHttpsTransport) (issuer : string) : http_prog json_object :=
  lift (validate_https_url false issuer) ;* get_json t (metadata_url issuer).
Definition get_jwks (t : GitHubOidcHttpsTransport) (jwks_uri : string) : http_prog json_object :=
  let* url := lift (validate_https_url true jwks_uri) in get_json t url.

(** The provider over this transport. *)
Definition serve_oidc (t : GitHubOidcHttpsTransport) (R : Type) (e : oidc_op R) : http_prog R :=
  match e with
  | GetMetadata issuer => get_metadata t issuer
  | GetJwks jwks_uri => get_jwks t jwks_uri
  | Clock => call HttpClock
  end.
Definition production (t : GitHubOidcHttpsTransport) (p : GitHubIdentityProvider) (assertion : IdentityAssertion)
    : http_prog (option AuthenticatedPrincipal) :=
  interp (serve_oidc t) (verify rsa_public_key rsa_verify p assertion).
End Production.

(** ** What an accepted assertion proves *)

Definition claim_text (claims : json_object) (name : string) : string := default "" (text_claim claims name).
Definition required_texts (claims : json_object) (required : list string) : list (string * string) :=
  dict_of (map (fun name => (name, claim_text claims name)) required).
(** The first key of the document under that name. *)
Definition first_named (kid : string) (keys : list json) (key : json_object) : Prop :=
  exists before after, keys = before ++ JObj key :: after /\ dget "kid" key = Some (JStr kid) /\
    Forall (fun j => match j with JObj k => dget "kid" k ≠ Some (JStr kid) | _ => True end) before.

Section Authentic.
Context {PK : Type}.
Variable rsa_public_key : N -> N -> option PK.
Variable rsa_verify : PK -> list ascii -> list ascii -> bool.

(** The claims speak of this issuer and audience, of a subject, and of a time still to come. *)
Record claims_hold (p : GitHubIdentityProvider) (audience : string) (now : Q) (claims : json_object) : Prop := {
  ch_iss : dget "iss" claims = Some (JStr (gp_issuer p));
  ch_aud : dget "aud" claims = Some (JStr audience);
  ch_sub : is_Some (text_claim claims "sub");
  ch_exp : exists expiry, dget "exp" claims = Some (JInt expiry) /\ (now < inject_Z expiry)%Q;
  ch_required : Forall (fun name => is_Some (text_claim claims name)) (gp_required_claims p)
}.
(** The token is signed by the key that its header names among [keys]. *)
Definition signed_by (keys : list json) (t : token) : Prop :=
  dget "alg" (t_header t) = Some (JStr "RS256") /\ dget "crit" (t_header t) = None /\
  exists kid key pk, dget "kid" (t_header t) = Some (JStr kid) /\ kid ≠ "" /\ first_named kid keys key /\
    public_key rsa_public_key key = Ok pk /\ rsa_verify pk (t_signature t) (t_signing_input t) = true.
Record authentic (p : GitHubIdentityProvider) (a : IdentityAssertion) (metadata jwks : json_object) (uri : string) (now : Q)
    (principal : AuthenticatedPrincipal) : Prop := {
  au_issuer : dget "issuer" metadata = Some (JStr (gp_issuer p));
  au_uri : dget "jwks_uri" metadata = Some (JStr uri) /\ uri ≠ "";
  au_token : exists audience keys t, recover_audience (ia_challenge_id a) = Ok audience /\
    dget "keys" jwks = Some (JArr keys) /\ parse_token (ia_value a) = Ok t /\ signed_by keys t /\
    claims_hold p audience now (t_claims t) /\
    principal = mkAuthenticatedPrincipal (claim_text (t_claims t) "sub")
      (required_texts (t_claims t) (gp_required_claims p)) (mkSessionRef "")
}.
End Authentic.

(** ** Lemmas *)

Lemma recover_audience_spec c a : recover_audience c = Ok a <-> utf8 (chars a) = true /\ blank a = false /\ c = encode_audience a.
Proof.
  unfold recover_audience. split.
  - intros H. inv_ok. destruct (b64decode _) as [bytes|]; [|done]. inv_ok. rewrite chars_str.
    repeat match goal with H : _ && _ = true |- _ => apply andb_true_iff in H as [? ?] end.
    split_and!; [done|by apply negb_true_iff|by apply bool_decide_eq_true in H0].
  - intros (Hu & Hb & ->). unfold encode_audience. destruct (unpadded_encode (chars a)) as (Hp & Hi & Hn).
    unfold challenge_chars. rewrite chars_str, Hi, bool_decide_eq_false_2.
    + cbn [negb andb ensure result_bind]. rewrite Hp, b64decode_encode, Hu, str_chars, Hb. cbn [negb andb ensure result_bind]. unfold encode_audience. by rewrite bool_decide_eq_true_2.
    + intros E. apply (f_equal chars) in E. rewrite chars_str in E. apply Hn in E. destruct a; [by vm_compute in Hb|done].
Qed.

Lemma key_named_spec kid keys key : key_named kid keys = Ok key <-> first_named kid keys key.
Proof.
  revert key. induction keys as [|j keys IH]; intros key; cbn [key_named].
  - split; [done|]. by intros ([] & after & [=] & _).
  - split.
    + intros H. assert (Hskip : (match j with JObj k => dget "kid" k ≠ Some (JStr kid) | _ => True end) -> key_named kid keys = Ok key -> first_named kid (j :: keys) key).
      { intros Hj (before & after & -> & Hk & Hb)%IH. exists (j :: before), after. by repeat constructor. }
      destruct j as [| | | | | |d]; auto. case_bool_decide as Ed; [|by auto]. injection H as ->. by exists [], keys.
    + intros (before & after & E & Hk & Hb). destruct before as [|j' before]; injection E as -> ->.
      * by rewrite bool_decide_eq_true_2.
      * apply Forall_cons in Hb as [Hj Hb]. assert (key_named kid (before ++ JObj key :: after) = Ok key) as Hrest by (apply IH; by exists before, after).
        destruct j'; auto. by rewrite bool_decide_eq_false_2.
Qed.

Lemma translated_claims_texts claims required acc : Forall (fun name => is_Some (text_claim claims name)) required ->
  translated_claims claims required acc = Ok (Some (foldl (fun d kv => dset kv.1 kv.2 d) acc (map (fun name => (name, claim_text claims name)) required))).
Proof.
  intros H. revert acc. induction H as [|name required [v Hv] _ IH]; intros acc; [done|]. cbn.
  unfold claim_text at 1. rewrite Hv. cbn. unfold text_claim in Hv. destruct (dget name claims) as [[]|]; try done.
  destruct (blank s); [done|]. injection Hv as ->. apply IH.
Qed.

(** A step that only computes. *)
Lemma runs_bind_lift {E : Type -> Type} {X A B : Type} (r : result X A) (k : A -> prog E X B) tr o :
  runs (bind (lift r) k) tr o <-> match r with Ok a => runs (k a) tr o | Err x => tr = [] /\ o = Err x end.
Proof. destruct r as [a|x]; [done|apply runs_Raise]. Qed.
(** ... and one that only checks. *)
Lemma runs_check {E : Type -> Type} {B : Type} (c : bool) (x : exn) (k : unit -> prog E exn B) tr b :
  runs (bind (lift (ensure c x)) k) tr (Ok b) <-> c = true /\ runs (k tt) tr (Ok b).
Proof. rewrite runs_bind_lift. destruct c; cbn; [tauto|]. split; [by intros []|by intros []]. Qed.

Lemma result_iter_ensure {A : Type} (f : A -> bool) (x : exn) l : result_iter (fun a => ensure (f a) x) l = Ok tt <-> Forall (fun a => f a = true) l.
Proof.
  induction l as [|a l IH]; cbn; [by split|]. rewrite Forall_cons, <- IH. destruct (f a); cbn; [tauto|]. split; [done|by intros []].
Qed.

Lemma validate_claims_spec p audience claims tr :
  runs (validate_claims claims (gp_issuer p) audience (gp_required_claims p)) tr (Ok tt) <->
  exists now, tr = [Event Clock (Ok now)] /\ claims_hold p audience now claims.
Proof.
  unfold validate_claims. rewrite !runs_check, andb_true_iff, !bool_decide_eq_true. split.
  - intros ([Hiss Haud] & Hsub & H).
    apply runs_bind in H as [(tr1 & tr2 & [] & -> & H1 & H2)|(x & [=] & _)].
    apply runs_lift in H2 as [-> H2]. symmetry in H2. apply result_iter_ensure in H2.
    destruct (dget "exp" claims) as [[]|] eqn:Hexp; try by apply runs_Raise in H1 as [_ [=]].
    apply runs_bind_call in H1 as ([now|x] & tr' & -> & H1); [|by destruct H1].
    apply runs_lift in H1 as [-> H1]. symmetry in H1. apply ensure_Ok, negb_true_iff in H1.
    exists now. split; [done|]. constructor; [done|done|done| |].
    + exists z. split; [done|]. apply Qnot_le_lt. intros Hle%Qle_bool_iff. congruence.
    + eapply Forall_impl; [exact H2|]. intros name Hn. by apply bool_decide_eq_true in Hn.
  - intros (now & -> & [Hiss Haud Hsub (z & Hexp & Hz) Hreq]). split_and!; [done..|]. rewrite Hexp.
    apply runs_bind. left. exists [Event Clock (Ok now)], [], tt. split_and!; [done| |].
    + apply runs_bind_call. exists (Ok now), []. split; [done|]. apply runs_lift. split; [done|]. symmetry. apply ensure_Ok, negb_true_iff.
      destruct (Qle_bool (inject_Z z) now) eqn:E; [|done]. apply Qle_bool_iff in E. by apply Qle_not_lt in E.
    + apply runs_lift. split; [done|]. symmetry. apply result_iter_ensure. eapply Forall_impl; [exact Hreq|].
      intros name Hn. by apply bool_decide_eq_true.
Qed.

Lemma principal_of_spec p audience now claims : claims_hold p audience now claims ->
  principal_of p claims = Ok (Some (mkAuthenticatedPrincipal (claim_text claims "sub")
    (required_texts claims (gp_required_claims p)) (mkSessionRef ""))).
Proof.
  intros [_ _ [s Hs] _ Hreq]. unfold principal_of, claim_text. rewrite Hs. unfold text_claim in Hs.
  destruct (dget "sub" claims) as [[]|]; try done. destruct (blank s0) eqn:Hb; [done|]. injection Hs as ->.
  rewrite (translated_claims_texts _ _ _ Hreq). unfold translate_principal. cbn. by rewrite Hb.
Qed.

Section VerifyFacts.
Context {PK : Type}.
Variable rsa_public_key : N -> N -> option PK.
Variable rsa_verify : PK -> list ascii -> list ascii -> bool.

Lemma select_key_spec keys kid pk : select_key rsa_public_key keys kid = Ok pk <->
  exists name key, kid = Some (JStr name) /\ name ≠ "" /\ first_named name keys key /\ public_key rsa_public_key key = Ok pk.
Proof.
  unfold select_key. split.
  - intros H. destruct kid as [[| | | |name| |]|]; try done. inv_ok. apply negb_true_iff, bool_decide_eq_false in E.
    apply key_named_spec in H0. eauto 6.
  - intros (name & key & -> & Hn & Hk & Hpk). rewrite bool_decide_eq_false_2 by done. apply key_named_spec in Hk. cbn. by rewrite Hk.
Qed.

Lemma check_token_spec p audience keys text tr pr :
  runs (check_token rsa_public_key rsa_verify p audience keys text) tr (Ok (Some pr)) <->
  exists t now, tr = [Event Clock (Ok now)] /\ parse_token text = Ok t /\ signed_by rsa_public_key rsa_verify keys t /\
    claims_hold p audience now (t_claims t) /\
    pr = mkAuthenticatedPrincipal (claim_text (t_claims t) "sub") (required_texts (t_claims t) (gp_required_claims p)) (mkSessionRef "").
Proof.
  unfold check_token, signed_by. rewrite runs_bind_lift. split.
  - intros H. destruct (parse_token text) as [t|]; [|by destruct H].
    destruct (negb _ || _) eqn:Eg; [by apply runs_Ret in H as [_ [=]]|]. apply orb_false_iff in Eg as [Ha Hc].
    apply negb_false_iff, bool_decide_eq_true in Ha. apply bool_decide_eq_false in Hc.
    rewrite runs_bind_lift in H. destruct (select_key _ _ _) as [pk|] eqn:Es; [|by destruct H].
    apply select_key_spec in Es as (kid & key & Hk & Hne & Hf & Hp). rewrite runs_check in H. destruct H as [Hv H].
    apply runs_bind in H as [(tr1 & tr2 & [] & -> & H1 & H2)|(x & [=] & _)].
    apply validate_claims_spec in H1 as (now & -> & Hc'). apply runs_lift in H2 as [-> H2].
    rewrite (principal_of_spec _ _ _ _ Hc') in H2. injection H2 as ->. exists t, now. split_and!; try done.
    + by apply eq_None_not_Some.
    + exists kid, key, pk. done.
  - intros (t & now & -> & -> & (Ha & Hc & kid & key & pk & Hk & Hne & Hf & Hp & Hv) & Hcl & ->).
    rewrite bool_decide_eq_true_2, bool_decide_eq_false_2 by (rewrite ?Hc; [done || by intros []]). cbn [negb orb].
    assert (select_key rsa_public_key keys (dget "kid" (t_header t)) = Ok pk) as -> by (apply select_key_spec; eauto 6).
    rewrite runs_bind_lift, runs_check. split; [done|]. apply runs_bind. left. exists [Event Clock (Ok now)], [], tt.
    split_and!; [done|apply validate_claims_spec; eauto|]. apply runs_lift. by rewrite (principal_of_spec _ _ _ _ Hcl).
Qed.

(** C6. the provider turns an assertion into a principal exactly when the assertion is authentic:
    it asks the issuer for its metadata, the announced address for the keys, and the clock, and the
    token is signed by the key its header names, issued by this issuer for the audience of the
    challenge, not expired, with every required claim; the principal is read from those claims. *)
Theorem verify_accepts p a tr pr :
  runs (verify rsa_public_key rsa_verify p a) tr (Ok (Some pr)) <->
  exists metadata uri jwks now,
    tr = [Event (GetMetadata (gp_issuer p)) (Ok metadata); Event (GetJwks uri) (Ok jwks); Event Clock (Ok now)] /\
    authentic rsa_public_key rsa_verify p a metadata jwks uri now pr.
Proof.
  unfold verify. rewrite runs_catch. split.
  - intros [(r & [= <-] & H)|(tr1 & tr2 & x & -> & _ & H)]; [|by apply runs_Ret in H as [_ [=]]].
    unfold verify_body in H. rewrite runs_bind_lift in H. destruct (recover_audience _) as [audience|] eqn:Ea; [|by destruct H].
    apply runs_bind_call in H as ([md|x] & tr' & -> & H); [|by destruct H].
    destruct (negb _) eqn:Ei; [by apply runs_Ret in H as [_ [=]]|]. apply negb_false_iff, bool_decide_eq_true in Ei.
    destruct (dget "jwks_uri" md) as [[| | | |uri| |]|] eqn:Eu; try by apply runs_Ret in H as [_ [=]].
    case_bool_decide as Hne; [by apply runs_Ret in H as [_ [=]]|].
    apply runs_bind_call in H as ([jwks|x] & tr'' & -> & H); [|by destruct H].
    destruct (dget "keys" jwks) as [[| | | | |keys|]|] eqn:Ek; try by apply runs_Ret in H as [_ [=]].
    apply check_token_spec in H as (t & now & -> & Ht & Hs & Hc & ->). exists md, uri, jwks, now.
    split; [done|]. constructor; [done..|]. by exists audience, keys, t.
  - intros (md & uri & jwks & now & -> & [Hi [Hu Hne] (audience & keys & t & Ha & Hk & Ht & Hs & Hc & ->)]).
    left. exists (Some (mkAuthenticatedPrincipal (claim_text (t_claims t) "sub") (required_texts (t_claims t) (gp_required_claims p)) (mkSessionRef ""))).
    split; [done|]. unfold verify_body. rewrite runs_bind_lift, Ha. apply runs_bind_call. exists (Ok md). eexists. split; [done|].
    rewrite Hi, bool_decide_eq_true_2, Hu, bool_decide_eq_false_2 by done. apply runs_bind_call. exists (Ok jwks). eexists. split; [done|].
    rewrite Hk. apply check_token_spec. exists t, now. done.
Qed.

(** whatever the transport answers or raises, [verify] returns: an assertion that cannot be
    checked is refused, never an error for the caller. *)
Theorem verify_fails_closed p a tr o : runs (verify rsa_public_key rsa_verify p a) tr o -> exists r, o = Ok r.
Proof.
  unfold verify. intros [(r & -> & _)|(tr1 & tr2 & x & _ & _ & H)]%runs_catch; [eauto|]. apply runs_Ret in H as [_ ->]. eauto.
Qed.
End VerifyFacts.

Lemma join_split_chars c l : join_chars c (split_chars c l) = l.
Proof.
  induction l as [|x l IH]; [done|]. cbn. destruct (Ascii.eqb_spec x c) as [->|].
  - destruct (split_chars c l) eqn:E; [by destruct l; cbn in E; repeat case_match|]. cbn in *. by rewrite IH.
  - destruct (split_chars c l) as [|w ws] eqn:E; cbn in *; [by rewrite <- IH|]. destruct ws; cbn in *; by rewrite IH.
Qed.
(** The signature is over everything before the last dot, header and claims included. *)
Lemma parse_token_layout text t : parse_token text = Ok t ->
  exists s0 s1 s2, chars text = s0 ++ "."%char :: s1 ++ "."%char :: s2 /\ t_signing_input t = s0 ++ "."%char :: s1 /\
    (let! b := decode_segment s0 in decode_object b) = Ok (t_header t) /\
    (let! b := decode_segment s1 in decode_object b) = Ok (t_claims t) /\ decode_segment s2 = Ok (t_signature t).
Proof.
  unfold parse_token. intros H. inv_ok. rewrite <- (join_split_chars "."%char (chars text)). unfold split_on in *.
  destruct (split_chars _ _) as [|s0 [|s1 [|s2 [|]]]]; try done. cbn in *. rewrite !chars_str in *. inv_ok.
  exists s0, s1, s2. split_and!; [done|done|apply result_bind_Ok; eauto..|done].
Qed.

(** ** The transport *)

Definition netloc_of (url : string) : option (list ascii) := option_map fst (urlsplit (chars url)).

Lemma rdrop_while_split f l : exists t, l = rdrop_while f l ++ t /\ Forall (fun c => f c = true) t.
Proof.
  unfold rdrop_while. enough (exists t, reverse l = t ++ drop_while f (reverse l) /\ Forall (fun c => f c = true) t) as (t & E & Ht).
  { exists (reverse t). split; [|by apply Forall_reverse]. by rewrite <- reverse_app, <- E, reverse_involutive. }
  induction (reverse l) as [|c r (t & E & Ht)]; [by exists []|]. cbn. destruct (f c) eqn:Ef; [|by exists []].
  exists (c :: t). cbn. rewrite <- E. by split; [|constructor].
Qed.

(** What [urlsplit] looks at before the host is unchanged by what follows it. *)
Lemma cleaned_app a t : existsb (fun c => negb (c0_or_space c)) a = true -> forallb (fun c => negb (unsafe_byte c)) t = true ->
  cleaned_url (a ++ t) = cleaned_url a ++ t.
Proof.
  intros Ha Ht. unfold cleaned_url. replace (drop_while c0_or_space (a ++ t)) with (drop_while c0_or_space a ++ t).
  - rewrite List.filter_app. f_equal. induction t as [|c t IH]; [done|]. cbn in *. apply andb_true_iff in Ht as [-> Ht]. by rewrite IH.
  - induction a as [|c a IH]; [done|]. cbn in *. destruct (c0_or_space c); cbn in *; [by apply IH|done].
Qed.
Lemma cleaned_blank a t : existsb (fun c => negb (c0_or_space c)) a = false -> cleaned_url (a ++ t) = cleaned_url t.
Proof.
  intros Ha. unfold cleaned_url. f_equal. induction a as [|c a IH]; [done|]. cbn in *.
  destruct (c0_or_space c); cbn in *; [by apply IH|done].
Qed.
Lemma cut_first_app c a t s r : c ∉ t -> cut_first c (a ++ t) = Some (s, r) -> exists r', cut_first c a = Some (s, r') /\ r = r' ++ t.
Proof.
  intros Ht. revert s. induction a as [|x a IH]; intros s.
  - intros H. cbn in H. by rewrite (proj2 (cut_first_None c t) Ht) in H.
  - cbn. destruct (Ascii.eqb x c); [intros [= <- <-]; eauto|].
    destruct (cut_first c (a ++ t)) as [[s' r']|] eqn:E; [|done]. intros [= <- ->].
    destruct (IH _ eq_refl) as (r'' & -> & ->). eauto.
Qed.
Lemma cut_first_more c a u s r : cut_first c a = Some (s, r) -> cut_first c (a ++ u) = Some (s, r ++ u).
Proof. intros [-> Hs]%cut_first_spec. apply cut_first_spec. split; [|done]. by rewrite <- app_assoc. Qed.
(** Text that does not go on in the host. *)
Definition after_host (u : list ascii) : Prop := match u with [] => True | c :: _ => c = "/"%char end.
Lemma split_netloc_app a u : after_host u -> (split_netloc (a ++ u)).1 = (split_netloc a).1.
Proof.
  intros Hu. induction a as [|c a IH]; cbn.
  - destruct u as [|c u]; [done|]. by cbn in Hu; subst.
  - destruct (_ || _); [done|]. destruct (split_netloc (a ++ u)), (split_netloc a). cbn in *. by rewrite IH.
Qed.

Lemma slashes_no_colon t : Forall (fun c => is_slash c = true) t -> ":"%char ∉ t.
Proof. intros Ht Hin. rewrite Forall_forall in Ht. by apply Ht in Hin. Qed.

(** [https_ok] once [urlsplit] is unfolded: an https scheme, then a host. *)
Definition located (l netloc : list ascii) : Prop :=
  exists c s body, cut_first ":"%char (cleaned_url l) = Some (c :: s, "/"%char :: "/"%char :: body) /\
    (is_lower c || is_upper c) && forallb is_scheme_char (c :: s) = true /\
    map lower_char (c :: s) = chars "https" /\ (split_netloc body).1 = netloc.
Definition brackets_ok (netloc : list ascii) : bool :=
  negb (xorb (has "["%char netloc) (has "]"%char netloc)) &&
  (negb (has "["%char netloc) ||
   match cut_first "["%char netloc with
   | Some (_, b) => bracketed_host_ok (match cut_first "]"%char b with Some (h, _) => h | None => b end)
   | None => false
   end).
Definition good_host (netloc : list ascii) : bool :=
  brackets_ok netloc && negb (bool_decide (hostname netloc = [])) && negb (has "@"%char netloc).
Definition clear_marks (allow_query : bool) (url : string) : bool :=
  negb (has "#"%char (chars url)) && (allow_query || negb (has "?"%char (chars url))).

Lemma located_urlsplit l netloc : located l netloc ->
  url_scheme l = chars "https" /\ (brackets_ok netloc = true -> option_map fst (urlsplit l) = Some netloc) /\
  (brackets_ok netloc = false -> urlsplit l = None).
Proof.
  intros (c & s & body & Hcut & Hs & Hlow & Hn). unfold url_scheme, urlsplit, drop_scheme. fold (cleaned_url l). rewrite Hcut, Hs.
  split; [done|]. destruct (split_netloc body) as [n rest]. cbn in Hn. subst n. unfold brackets_ok.
  destruct (xorb _ _); cbn [negb andb]; [done|]. destruct (has "["%char netloc); cbn [negb orb]; [|done].
  destruct (cut_first "["%char netloc) as [[x b]|]; [|done]. by destruct (bracketed_host_ok _).
Qed.
Lemma https_ok_located q url : https_ok q url = true <->
  exists netloc, located (chars url) netloc /\ good_host netloc = true /\ clear_marks q url = true.
Proof.
  unfold https_ok. split.
  - intros H. destruct (urlsplit (chars url)) as [[netloc rest]|] eqn:E; [|done].
    rewrite !andb_true_iff in H. destruct H as [[[[Hscheme Hhost] Hat] Hhash] Hquery]. apply bool_decide_eq_true in Hscheme.
    assert (located (chars url) netloc) as Hl.
    { unfold url_scheme in Hscheme. unfold urlsplit, drop_scheme in E. fold (cleaned_url (chars url)) in E. unfold located.
      destruct (cut_first _ _) as [[[|c s] r]|]; try done. destruct (_ && _) eqn:Hs; [|done].
      assert (netloc ≠ []) as Hne by (by intros ->).
      assert (exists body, r = "/"%char :: "/"%char :: body) as [body ->] by (repeat case_match; simplify_eq/=; eauto).
      exists c, s, body. split_and!; try done. destruct (split_netloc body) as [n r]. repeat case_match; simplify_eq/=; done. }
    destruct (located_urlsplit _ _ Hl) as (_ & _ & Hnone). exists netloc. split; [done|]. unfold good_host, clear_marks.
    destruct (brackets_ok netloc); [|by rewrite Hnone in E]. by rewrite Hhost, Hat, Hhash, Hquery.
  - intros (netloc & Hl & Hg & Hm). destruct (located_urlsplit _ _ Hl) as (Hs & Hu & _). unfold good_host, clear_marks in *.
    rewrite !andb_true_iff in Hg. rewrite andb_true_iff in Hm. destruct Hg as [[Hb Hh] Hat], Hm as [Hhash Hq]. specialize (Hu Hb).
    destruct (urlsplit (chars url)) as [[n rest]|]; [|done]. injection Hu as ->.
    by rewrite bool_decide_eq_true_2, Hh, Hat, Hhash, Hq.
Qed.

Lemma located_has_text l netloc t : located (l ++ t) netloc -> Forall (fun c => is_slash c = true) t -> existsb (fun c => negb (c0_or_space c)) l = true.
Proof.
  intros (c & s & body & Hcut & _) Ht. destruct (existsb _ l) eqn:E; [done|]. rewrite (cleaned_blank _ _ E) in Hcut.
  assert (":"%char ∈ cleaned_url t) as Hin by (apply cut_first_spec in Hcut as [-> _]; set_solver).
  unfold cleaned_url in Hin. apply list_elem_of_In, List.filter_In in Hin as [Hin _].
  destruct (slashes_no_colon t Ht). apply list_elem_of_In. revert Hin. clear. induction t as [|x t IH]; [done|]. cbn. destruct (c0_or_space x); auto.
Qed.
(** The slashes at the end of a URL, and a path in their place, leave its host alone. *)
Lemma located_replace l t u netloc : located (l ++ t) netloc -> netloc ≠ [] -> Forall (fun c => is_slash c = true) t ->
  after_host u -> ":"%char ∉ u -> forallb (fun c => negb (unsafe_byte c)) u = true -> located (l ++ u) netloc.
Proof.
  intros Hl Hne Ht Hu Hc Hsafe. pose proof (located_has_text _ _ _ Hl Ht) as Hb. destruct Hl as (c & s & body & Hcut & Hs & Hlow & Hn).
  assert (forallb (fun c => negb (unsafe_byte c)) t = true) as Hts.
  { apply forallb_forall. intros x Hx. rewrite Forall_forall in Ht. apply list_elem_of_In, Ht, Ascii.eqb_eq in Hx as ->. done. }
  rewrite cleaned_app in Hcut by done. apply cut_first_app in Hcut as (r' & Hcut & E); [|by apply slashes_no_colon].
  assert (exists body', r' = "/"%char :: "/"%char :: body' /\ body = body' ++ t) as (body' & -> & ->).
  { assert (forall x, Forall (fun c => is_slash c = true) x -> (split_netloc x).1 = []) as Hnil.
    { intros [|y x]; [done|]. by intros [->%Ascii.eqb_eq _]%Forall_cons. }
    destruct r' as [|c1 [|c2 body']]; cbn in E; simplify_eq/=; [..|by eauto].
    - destruct Hne. apply Hnil. by apply Forall_cons in Ht as [_ [_ Ht]%Forall_cons].
    - destruct Hne. apply Hnil. by apply Forall_cons in Ht as [_ Ht]. }
  exists c, s, (body' ++ u). rewrite cleaned_app by done. rewrite (cut_first_more _ _ _ _ _ Hcut). split_and!; try done.
  rewrite split_netloc_app by done. rewrite <- Hn. symmetry. apply split_netloc_app. destruct t as [|y t]; [done|].
  by apply Forall_cons in Ht as [?%Ascii.eqb_eq _].
Qed.

Lemma metadata_url_located issuer netloc : located (chars issuer) netloc -> good_host netloc = true -> clear_marks false issuer = true ->
  located (chars (metadata_url issuer)) netloc /\ https_ok true (metadata_url issuer) = true.
Proof.
  intros Hl Hg Hm. destruct (rdrop_while_split is_slash (chars issuer)) as (t & E & Ht).
  assert (Hurl : chars (metadata_url issuer) = rdrop_while is_slash (chars issuer) ++ chars OPENID_CONFIGURATION_PATH).
  { unfold metadata_url. by rewrite chars_app, chars_str. }
  assert (located (chars (metadata_url issuer)) netloc) as Hl'.
  { rewrite Hurl. rewrite E in Hl. eapply located_replace; [exact Hl| |done|done| |by vm_compute].
    - intros ->. by vm_compute in Hg.
    - by apply cut_first_None. }
  split; [done|]. apply https_ok_located. exists netloc. split_and!; [done..|]. unfold clear_marks in *.
  apply andb_true_iff in Hm as [Hh _]. rewrite orb_true_l, andb_true_r. apply negb_true_iff in Hh. apply negb_true_iff.
  unfold has in *. rewrite Hurl, existsb_app. rewrite E, existsb_app in Hh. by apply orb_false_iff in Hh as [-> _].
Qed.

(** ** Which requests are made, and what is read from the answers *)

Section Requests.
Context {PK : Type}.
Variable rsa_public_key : N -> N -> option PK.
Variable rsa_verify : PK -> list ascii -> list ascii -> bool.
Variable wide_text : list ascii -> option (list ascii).
Implicit Types (t : GitHubOidcHttpsTransport) (p : GitHubIdentityProvider).

(** The address an event opens, with the response it got. *)
Definition opened (ev : event http_op exn) : option (string * result exn nat) :=
  match ev with
  | Event e r =>
    match e in http_op R return result exn R -> option (string * result exn nat) with
    | Open url _ => fun r => Some (url, r)
    | _ => fun _ => None
    end r
  end.

(** A request of the transport: over HTTPS, and never for more than the limit. *)
Definition bounded_https t (R : Type) (e : http_op R) : Prop :=
  match e with
  | Open url _ => https_ok true url = true
  | ReadUpTo _ n => n = (tr_max_response_bytes t + 1)%N
  | _ => True
  end.
Lemma get_json_bounded t url : https_ok true url = true -> only (bounded_https t) (get_json wide_text t url).
Proof.
  intros H. unfold get_json, read_response, with_response. solve_only.
  apply only_finally; solve_only.
Qed.
Lemma serve_bounded t R (e : oidc_op R) : only (bounded_https t) (serve_oidc wide_text t R e).
Proof.
  destruct e as [issuer|uri|]; unfold serve_oidc, get_metadata, get_jwks, validate_https_url.
  - destruct (https_ok false issuer) eqn:E; [|exact I]. apply https_ok_located in E as (n & Hl & Hg & Hm).
    apply get_json_bounded. by eapply metadata_url_located.
  - destruct (https_ok true uri) eqn:E; [|exact I]. by apply get_json_bounded.
  - by apply only_call.
Qed.

(** A document [get_json] returns was read, whole and within the limit, from the one address it opened. *)
Definition read_from t (url : string) (d : json_object) (tr : list (event http_op exn)) : Prop :=
  exists response body, Event (Open url (tr_timeout t)) (Ok response) ∈ tr /\
    Event (ReadUpTo response (tr_max_response_bytes t + 1)%N) (Ok (Some body)) ∈ tr /\
    (N.of_nat (length body) <= tr_max_response_bytes t)%N /\ decode_json wide_text body = Ok d.
(** What the transport does with a response: only this opens anything. *)
Definition exchange t (url : string) : http_prog (option (list ascii)) :=
  with_response url (tr_timeout t) (fun response =>
    let* final := call (GetUrl response) in
    lift (validate_https_url true final) ;*
    call (ReadUpTo response (tr_max_response_bytes t + 1)%N)).
Lemma get_json_exchange t url tr o : runs (get_json wide_text t url) tr o -> exists o', runs (exchange t url) tr o' /\
  forall d, o = Ok d -> exists body, o' = Ok (Some body) /\ (N.of_nat (length body) <= tr_max_response_bytes t)%N /\ decode_json wide_text body = Ok d.
Proof.
  unfold get_json, read_response. intros [(tr1 & tr2 & body & -> & H & [-> Hd]%runs_lift)|(x & -> & H)]%runs_bind.
  - apply runs_bind in H as [(tr3 & tr4 & answer & -> & H & H')|(x & [=] & _)].
    apply runs_catch in H as [(a & [= <-] & H)|(t1 & t2 & x & _ & _ & H)]; [|by apply runs_Raise in H as [_ [=]]].
    destruct answer as [b|]; [|by apply runs_Raise in H' as [_ [=]]]. destruct (_ <? _)%N eqn:E; [by apply runs_Raise in H' as [_ [=]]|].
    apply runs_Ret in H' as [-> [= ->]]. rewrite !app_nil_r. exists (Ok (Some b)). split; [done|]. intros d ->. exists b.
    split_and!; [done|by apply N.ltb_ge|done].
  - apply runs_bind in H as [(tr3 & tr4 & answer & -> & H & H')|(y & [= ->] & H)].
    + assert (tr4 = []) as -> by (destruct answer as [b|]; [destruct (_ <? _)%N|]; by first [apply runs_Raise in H' as []|apply runs_Ret in H' as []]).
      apply runs_catch in H as [(a & [= <-] & H)|(t1 & t2 & z & _ & _ & H)]; [|by apply runs_Raise in H as [_ [=]]].
      rewrite app_nil_r. exists (Ok answer). by split.
    + apply runs_catch in H as [(a & [=] & _)|(t1 & t2 & z & -> & H & [-> _]%runs_Raise)]. rewrite app_nil_r. exists (Err z). by split.
Qed.
Lemma get_json_reads t url tr d : runs (get_json wide_text t url) tr (Ok d) -> read_from t url d tr.
Proof.
  intros (o' & H & Hd)%get_json_exchange. destruct (Hd _ eq_refl) as (body & -> & Hlen & Hdec).
  unfold exchange, with_response in H. apply runs_bind_call in H as ([response|x] & tr' & -> & H); [|by destruct H].
  apply finally_Ok in H as (t1 & t2 & -> & H & _). apply runs_bind_call in H as ([final|x] & t3 & -> & H); [|by destruct H].
  rewrite runs_bind_lift in H. destruct (validate_https_url true final); [|by destruct H].
  apply runs_call in H as ->. exists response, body. split_and!; [set_solver|set_solver|done|done].
Qed.
(** Every response that was opened is closed. *)
Definition closes (tr : list (event http_op exn)) : Prop :=
  forall url timeout response, Event (Open url timeout) (Ok response) ∈ tr -> exists o, Event (CloseResponse response) o ∈ tr.
Definition opens_nothing (R : Type) (e : http_op R) : Prop := match e with Open _ _ => False | _ => True end.
Lemma exchange_closes t url tr o : runs (exchange t url) tr o -> closes tr.
Proof.
  unfold exchange, with_response. intros ([response|x] & tr' & -> & H)%runs_bind_call;
    [|by destruct H as [-> _]; intros u s r [[= ]|?%not_elem_of_nil]%elem_of_cons].
  apply runs_finally in H as (t1 & t2 & r & rc & -> & H1 & ->%runs_call & _).
  assert (Forall (event_sat opens_nothing) t1) as Hno by (eapply only_runs; [|exact H1]; solve_only).
  intros u s r' [E|[Hin|Hin]%elem_of_app]%elem_of_cons.
  - apply (f_equal opened) in E. injection E as -> ->. exists rc. set_solver.
  - rewrite Forall_forall in Hno. by apply Hno in Hin.
  - by apply list_elem_of_singleton in Hin.
Qed.
Lemma exchange_opens t u tr o url timeout r : runs (exchange t u) tr o -> Event (Open url timeout) r ∈ tr -> url = u.
Proof.
  unfold exchange, with_response. intros (r' & tr' & -> & H)%runs_bind_call [E|Hin]%elem_of_cons.
  - apply (f_equal opened) in E. by injection E.
  - exfalso. assert (Forall (event_sat opens_nothing) tr') as Hno.
    { destruct r'; [|by destruct H as [-> _]]. eapply only_runs; [|exact H]. apply only_finally; solve_only. }
    rewrite Forall_forall in Hno. by apply Hno in Hin.
Qed.
Lemma serve_closes t R (e : oidc_op R) tr o : runs (serve_oidc wide_text t R e) tr o -> closes tr.
Proof.
  assert (Hnil : closes []) by (intros u s r ?%not_elem_of_nil; done).
  destruct e; unfold serve_oidc, get_metadata, get_jwks.
  - rewrite runs_bind_lift. destruct (validate_https_url _ _); [|by intros [-> _]]. intros (o' & H & _)%get_json_exchange. by eapply exchange_closes.
  - rewrite runs_bind_lift. destruct (validate_https_url _ _); [|by intros [-> _]]. intros (o' & H & _)%get_json_exchange. by eapply exchange_closes.
  - intros ->%runs_call u s r Hin. by apply list_elem_of_singleton in Hin.
Qed.

(** The questions of [verify]: the configured issuer, then the address its metadata announces. *)
Definition announced p (metadata : json_object) (uri : string) : Prop :=
  dget "issuer" metadata = Some (JStr (gp_issuer p)) /\ dget "jwks_uri" metadata = Some (JStr uri) /\ uri ≠ "".
Definition asked p (client : list (event oidc_op exn)) (R : Type) (e : oidc_op R) : Prop :=
  match e with
  | GetMetadata issuer => issuer = gp_issuer p
  | GetJwks uri => exists metadata, Event (GetMetadata (gp_issuer p)) (Ok metadata) ∈ client /\ announced p metadata uri
  | Clock => True
  end.
Lemma verify_asks p a client o : runs (verify rsa_public_key rsa_verify p a) client o -> Forall (event_sat (asked p client)) client.
Proof.
  unfold verify. intros H. assert (exists o', runs (verify_body rsa_public_key rsa_verify p a) client o') as [o' H'].
  { apply runs_catch in H as [(r & -> & H)|(tr1 & tr2 & x & -> & H & [-> _]%runs_Ret)]; [eauto|rewrite app_nil_r; eauto]. }
  clear H. revert H'. unfold verify_body. rewrite runs_bind_lift. destruct (recover_audience _) as [audience|]; [|by intros [-> _]].
  intros (r & tr1 & -> & H)%runs_bind_call. constructor; [done|]. destruct r as [md|]; [|by destruct H as [-> _]].
  destruct (negb _) eqn:Ei; [by apply runs_Ret in H as [-> _]|]. apply negb_false_iff, bool_decide_eq_true in Ei.
  destruct (dget "jwks_uri" md) as [[| | | |uri| |]|] eqn:Eu; try by apply runs_Ret in H as [-> _].
  case_bool_decide as Hne; [by apply runs_Ret in H as [-> _]|].
  apply runs_bind_call in H as (r & tr2 & -> & H). constructor.
  - exists md. split; [by left|]. by split_and!.
  - destruct r as [jwks|]; [|by destruct H as [-> _]]. destruct (dget "keys" jwks) as [[]|]; try by apply runs_Ret in H as [-> _].
    eapply only_runs; [|exact H]. unfold check_token, validate_claims. solve_only.
Qed.

(** C7. over the network the provider opens two kinds of address only: the metadata document under
    the configured issuer, on the issuer's own host, and the address which that document, read whole
    from there within the size limit and naming the issuer, announces for the keys.  Both are HTTPS
    without user information, no read asks for more than the limit allows, and every response that
    was opened is closed. *)
Theorem production_requests t p a tr o : runs (production rsa_public_key rsa_verify wide_text t p a) tr o ->
  Forall (event_sat (bounded_https t)) tr /\ closes tr /\
  forall url timeout r, Event (Open url timeout) r ∈ tr ->
    url = metadata_url (gp_issuer p) /\ (exists host, located (chars (gp_issuer p)) host /\ located (chars url) host) \/
    exists metadata, announced p metadata url /\ read_from t (metadata_url (gp_issuer p)) metadata tr.
Proof.
  unfold production. intros (client & parts & Hc & -> & Hparts)%runs_interp. apply verify_asks in Hc. split_and!.
  - apply Forall_forall. intros ev Hev. destruct (question_of _ _ _ _ Hparts Hev) as ([R e r] & part & _ & Ha & Hin).
    pose proof (only_runs _ _ _ _ (serve_bounded t R e) Ha) as Hall. rewrite Forall_forall in Hall. by apply Hall.
  - clear Hc. induction Hparts as [|[R e r] part client parts Ha _ IH]; [by intros u s r ?%not_elem_of_nil|].
    apply serve_closes in Ha. cbn. intros u s r' [H|H]%elem_of_app; [apply Ha in H as [x H]|apply IH in H as [x H]]; exists x; set_solver.
  - intros url timeout r Hev. destruct (question_of _ _ _ _ Hparts Hev) as ([R e r'] & part & Hq & Ha & Hin).
    pose proof Hc as Hc'. rewrite Forall_forall in Hc'. apply Hc' in Hq.
    assert (forall u s, runs (get_json wide_text t u) part s -> url = u) as Hopen.
    { intros u s (o' & H & _)%get_json_exchange. by eapply exchange_opens. }
    destruct e as [issuer|uri|]; cbn [answered_by serve_oidc] in Ha; unfold get_metadata, get_jwks in Ha; rewrite ?runs_bind_lift in Ha.
    + cbn in Hq. subst issuer. left. unfold validate_https_url in Ha. destruct (https_ok false (gp_issuer p)) eqn:E; [|by destruct Ha as [-> _]; apply not_elem_of_nil in Hin].
      rewrite (Hopen _ _ Ha). split; [done|]. apply https_ok_located in E as (host & Hl & Hg & Hm). exists host. split; [done|]. by eapply metadata_url_located.
    + destruct Hq as (metadata & Hmd & Hann). right. exists metadata.
      assert (url = uri) as -> by (destruct (validate_https_url true uri) eqn:E; [|by destruct Ha as [-> _]; apply not_elem_of_nil in Hin];
        unfold validate_https_url in E; inv_ok; by eapply Hopen).
      split; [done|]. destruct (part_of _ _ _ _ _ _ Hparts Hmd) as (part' & Hrun & Hsub).
      unfold serve_oidc, get_metadata in Hrun. rewrite runs_bind_lift in Hrun. destruct (validate_https_url false _); [|by destruct Hrun as [_ [=]]].
      apply get_json_reads in Hrun as (response & body & H1 & H2 & H3 & H4). exists response, body. split_and!; auto.
    + apply runs_call in Ha as ->. by apply list_elem_of_singleton in Hin.
Qed.
End Requests.

(** a challenge is accepted exactly when [begin] issues it, and then for the audience it was
    issued for: nothing else decodes to an audience, and no audience has two challenges. *)
Theorem challenge_roundtrip c a context : recover_audience c = Ok a <->
  utf8 (chars a) = true /\ begin (mkAuthenticationRequest a context) = Ok (mkAuthenticationChallenge c c).
Proof.
  rewrite recover_audience_spec. unfold begin. cbn. destruct (blank a); cbn; split.
  - by intros (_ & [=] & _).
  - by intros (_ & [=]).
  - by intros (H & _ & ->).
  - by intros (H & [= <-]).
Qed.

(** ** A run *)

Module Sample.
Definition issuer : string := "https://issuer.example/".
Definition provider : GitHubIdentityProvider := mkGitHubIdentityProvider issuer ["repository"].
Definition segment (j : json) : list ascii := unpadded (b64encode (chars (dumps_compact j))).
Definition header : json := JObj [("alg", JStr "RS256"); ("kid", JStr "k1")].
Definition claims : json := JObj [("iss", JStr issuer); ("aud", JStr "forge"); ("sub", JStr "repo:a/b"); ("exp", JInt 2000); ("repository", JStr "a/b")].
Definition signing_input : list ascii := segment header ++ "."%char :: segment claims.
(** A toy scheme: the key is its modulus, the signature repeats the modulus and the input's length. *)
Definition toy_key (e n : N) : option N := if (e =? 65537)%N then Some n else None.
Definition toy_signature (n : N) (input : list ascii) : list ascii := [byte_of n; ascii_of_nat (length input)].
Definition toy_verify (n : N) (signature input : list ascii) : bool := bool_decide (signature = toy_signature n input).
Definition assertion_text : string := str (signing_input ++ "."%char :: unpadded (b64encode (toy_signature 77 signing_input))).
Definition assertion : IdentityAssertion := mkIdentityAssertion (encode_audience "forge") assertion_text.
Definition metadata : json := JObj [("issuer", JStr issuer); ("jwks_uri", JStr "https://issuer.example/keys?v=1")].
Definition key : json := JObj [("kid", JStr "k1"); ("kty", JStr "RSA"); ("use", JStr "sig"); ("n", JStr "TQ"); ("e", JStr "AQAB")].
Definition jwks : json := JObj [("keys", JArr [JObj [("kid", JStr "k0")]; key])].
Definition transport : GitHubOidcHttpsTransport := mkTransport 10 1048576.
Definition network : handler (E:=http_op) (X:=exn) unit := fun R e w =>
  match e with
  | Open url _ => (if bool_decide (url = "https://issuer.example/.well-known/openid-configuration") then Ok 0
                   else if bool_decide (url = "https://issuer.example/keys?v=1") then Ok 1 else Err (OSError EIO), w)
  | GetUrl 0 => (Ok "https://issuer.example/.well-known/openid-configuration", w)
  | GetUrl _ => (Ok "https://issuer.example/keys?v=1", w)
  | ReadUpTo response _ => (Ok (Some (chars (dumps_compact (if response =? 0 then metadata else jwks)))), w)
  | CloseResponse _ => (Ok tt, w)
  | HttpClock => (Ok 1999.5%Q, w)
  end.
Definition run : result exn (option AuthenticatedPrincipal) * list (event http_op exn) * unit :=
  exec network (production toy_key toy_verify (fun _ => None) transport provider assertion) tt.
End Sample.

Lemma sample_accepts : Sample.run.1.1 = Ok (Some (mkAuthenticatedPrincipal "repo:a/b" [("repository", "a/b")] (mkSessionRef ""))).
Proof. by vm_compute. Qed.

Lemma production_requests_witness : Sample.run.1.1 = Ok (Some (mkAuthenticatedPrincipal "repo:a/b" [("repository", "a/b")] (mkSessionRef ""))) /\
  Forall (event_sat (bounded_https Sample.transport)) Sample.run.1.2.
Proof.
  split; [vm_compute; reflexivity|]. unfold Sample.run.
  exact (proj1 (production_requests Sample.toy_key Sample.toy_verify (fun _ => None) Sample.transport Sample.provider Sample.assertion _ _
    (exec_runs Sample.network _ tt))).
Defined.
