(* ===== verification/Credentials.v ===== *)
(** * Credentials and the Enterprise source

    [credentials/]: the reference handed to a target and the doctor's checks; the SOPS resolver
    of [odoo_forge_docker/credential_injection.py]; the askpass script of
    [odoo_forge_git/git_credential_injector.py]; and [odoo_forge_cli/enterprise_credential.py],
    which lets the script reach git only for the Enterprise source of an allowed host. *)

From stdpp Require Import pretty.
From S2P Require Import Prelude Effects Values Json Paths Schema Urls Docker Workspace Projection Cli GitSource.

(** ** Opaque references ([credentials/materialization.py], [conventions.py]) *)

Record CredentialInjectionDescriptor : Type := mkDescriptor {
  cid_handle : string; cid_target_kind : string; cid_store_ref : string; cid_redaction_label : string }.
Definition SOPS_REF_CAPABLE_TARGET_KINDS : list string := ["database"; "source"].
Definition sops_store_ref (handle : string) : string := "sops://" +:+ handle.
Definition materialize_for_target (handle : string) (target : TargetContext) : result exn CredentialInjectionDescriptor :=
  if negb (bool_decide (tc_kind target ∈ SOPS_REF_CAPABLE_TARGET_KINDS)) then Err CredentialTargetRejectedError
  else Ok (mkDescriptor handle (tc_kind target) (sops_store_ref handle) "SOPS credential").

Definition ENTERPRISE_SOURCE_CREDENTIAL_HANDLE : string := "enterprise/source-git".
Definition ENTERPRISE_SOURCE_TARGET : TargetContext := mkTargetContext "source" "enterprise".

(** ** The SOPS resolver and its memory *)

Definition sops_argv (credentials_file : path) (handle : string) : list string :=
  ["sops"; "--decrypt"; "--extract"; str (["["%char; dquote] ++ chars handle ++ [dquote; "]"%char]); path_str credentials_file].
Definition is_crlf (c : ascii) : bool := Ascii.eqb c newline || (code c =? 13).
Definition is_subprocess_error (e : exn) : bool := match e with OSError _ | TimeoutExpired => true | _ => false end.
(** [SopsCommandResolver.__call__] *)
Definition sops_resolve (credentials_file : path) (handle : string) : cli_prog string :=
  let* '(returncode, stdout, _) :=
    catch (call (Process (sops_argv credentials_file handle) None None))
      (fun e => Raise (if is_subprocess_error e then CredentialError else e)) in
  if negb (returncode =? 0)%Z then Raise CredentialError else
  let value := str (rdrop_while is_crlf (chars stdout)) in
  if bool_decide (value = "") then Raise CredentialError else Ret value.
(** [_MemoizingCredentialResolver.__call__] *)
Definition memoizing (resolver : string -> cli_prog string) (handle : string) : cli_prog string :=
  let* cached := call Remembered in
  match cached with
  | Some value => Ret value
  | None => let* value := resolver handle in call (Remember value) ;* Ret value
  end.
Definition enterprise_resolver (credentials_file : path) : string -> cli_prog string := memoizing (sops_resolve credentials_file).

(** ** The askpass script *)

Definition hex_pair (n : nat) : list ascii := [hex_digit (n / 16); hex_digit (n mod 16)].
(** One character inside a Python literal with the quote [q], for ASCII texts. *)
Definition literal_char (q c : ascii) : list ascii :=
  if Ascii.eqb c q || Ascii.eqb c backslash then [backslash; c]
  else if code c =? 9 then [backslash; "t"%char]
  else if code c =? 10 then [backslash; "n"%char]
  else if code c =? 13 then [backslash; "r"%char]
  else if (code c <? 32) || (code c =? 127) then [backslash; "x"%char] ++ hex_pair (code c)
  else [c].
Definition single_quote : ascii := ascii_of_nat 39.
(** [repr(s)]: single quotes, unless the text has those and no double ones. *)
Definition literal_quote (l : list ascii) : ascii := if has single_quote l && negb (has dquote l) then dquote else single_quote.
Definition python_literal (s : string) : list ascii :=
  let q := literal_quote (chars s) in [q] ++ concat (map (literal_char q) (chars s)) ++ [q].
(** [_ASKPASS_SCRIPT_TEMPLATE.format(secret=value)] *)
Definition askpass_lines (secret : string) : list string :=
  ["#!/usr/bin/env python3"; "import sys"; ""; "sys.stdout.write(" +:+ str (python_literal secret) +:+ ")";
   "sys.stdout.write(" +:+ str [dquote; backslash; "n"%char; dquote] +:+ ")"; ""].
Definition askpass_script (secret : string) : string := join (str [newline]) (askpass_lines secret).

(** [GitCredentialInjector._resolve] *)
Definition injected (resolver : string -> cli_prog string) (handle : string) : cli_prog string :=
  catch (resolver handle) (fun e => Raise (if is_credential_error e then e else CredentialError)).
Definition askpass_overlay (script : path) : gmap string string :=
  <["GIT_ASKPASS" := path_str script]> (<["GIT_TERMINAL_PROMPT" := "0"]> ∅).
(** [with GitCredentialInjector().askpass_env(descriptor, resolver) as env: body(env)] *)
Definition askpass_env {A : Type} (descriptor : CredentialInjectionDescriptor) (resolver : string -> cli_prog string)
    (body : gmap string string -> cli_prog A) : cli_prog A :=
  let* value := injected resolver (cid_handle descriptor) in
  let* script := call (MakeTempFile None "odoo-forge-askpass-" ".py") in
  finally (call (Fchmod script 448%Z) ;* call (WriteText script (askpass_script value)) ;* body (askpass_overlay script))
    (call (UnlinkFile script)).

(** ** The Enterprise source ([odoo_forge_cli/enterprise_credential.py]) *)

(** [_extract_host]; [urlsplit] raises [ValueError] on a malformed bracketed host. *)
Definition host_candidate (url : list ascii) : list ascii :=
  if negb (contains (chars "://") url) && has "@"%char url && has ":"%char url then
    match cut_first ":"%char url with Some (a, b) => chars "ssh://" ++ a ++ "/"%char :: b | None => url end
  else url.
Definition extract_host (url : string) : result exn (option string) :=
  match urlsplit (host_candidate (chars url)) with
  | None => Err (ValueError "Invalid IPv6 URL")
  | Some (netloc, _) => Ok (match hostname netloc with [] => None | h => Some (str h) end)
  end.
Definition ALLOWED_ENTERPRISE_CREDENTIAL_HOSTS : list string :=
  match urlsplit (chars ENTERPRISE_SOURCE_URL) with
  | Some (netloc, _) => match hostname netloc with [] => [] | h => [str h] end
  | None => []
  end.
Definition assert_allowed_enterprise_host (url : string) : result exn unit :=
  let! host := extract_host url in
  let refused (host : string) :=
    Err (ManifestInputError ("Enterprise credential injection refused: host '" +:+ host +:+ "' is not an allowed enterprise credential host")) in
  match host with
  | None => refused "None"
  | Some h => if bool_decide (h ∈ ALLOWED_ENTERPRISE_CREDENTIAL_HOSTS) then Ok tt else refused h
  end.

Definition enterprise_descriptor : result exn CredentialInjectionDescriptor :=
  materialize_for_target ENTERPRISE_SOURCE_CREDENTIAL_HANDLE ENTERPRISE_SOURCE_TARGET.
Definition is_enterprise (m : Manifest) : bool := match m_edition m with Enterprise => true | Community => false end.
Definition preflight_enterprise_source_credential (m : Manifest) (resolver : string -> cli_prog string) : cli_prog unit :=
  if negb (is_enterprise m) then Ret tt else
  let* descriptor := lift enterprise_descriptor in
  askpass_env descriptor resolver (fun _ => Ret tt).

(** The URL a provider is bound to: [None] is the provider itself, unwrapped. *)
Definition bind_enterprise_provider (m : Manifest) : result exn (option string) :=
  if negb (is_enterprise m) then Ok None else
  match m_enterprise m with
  | None => Err AssertionError
  | Some e => assert_allowed_enterprise_host (ent_url e) ;! Ok (Some (ent_url e))
  end.

Section Bound.
Variable environ : gmap string string.
(** The printed timeouts of the source adapter and of the workspace adapter. *)
Variables source_timeout workspace_timeout : string.
Variable resolver : string -> cli_prog string.

(** A request of a bound provider: with the credential's overlay for the Enterprise URL, and only for it. *)
Definition bound_request {A : Type} (bound : option string) (url : string) (request : option (gmap string string) -> cli_prog A) : cli_prog A :=
  match bound with
  | Some enterprise_url =>
    if bool_decide (url = enterprise_url) then
      let* descriptor := lift enterprise_descriptor in
      askpass_env descriptor resolver (fun overlay => request (Some overlay))
    else request None
  | None => request None
  end.
(** [_EnterpriseCredentialSourceProvider.resolve_ref] *)
Definition bound_resolve_ref (bound : option string) (url ref : string) : cli_prog string :=
  bound_request bound url (resolve_ref environ source_timeout url ref).
(** [_EnterpriseCredentialWorkspaceProvider.checkout] *)
Definition bound_checkout (bound : option string) (url commit : string) (dest : path) : cli_prog unit :=
  bound_request bound url (fun overlay => embed (@OnWorkspace) (checkout environ workspace_timeout url commit dest overlay)).
End Bound.

(** ** The doctor ([credentials/doctor.py]) and the rotation helper *)

Record DoctorCheckResult : Type := mkDoctorCheckResult { dr_name : string; dr_ok : bool; dr_message : string }.
Record DoctorReport : Type := mkDoctorReport { dr_age_key : DoctorCheckResult; dr_enterprise_credential : DoctorCheckResult }.
Definition report_ok (r : DoctorReport) : bool := dr_ok (dr_age_key r) && dr_ok (dr_enterprise_credential r).
Definition AGE_KEY_MARKER : string := "AGE-SECRET-KEY-".
(** [\u2014] in UTF-8 *)
Definition em_dash : string := str (map ascii_of_nat [226; 128; 148]).
Definition check_age_key_present (age_key_file : path) : cli_prog DoctorCheckResult :=
  let p := path_str age_key_file in
  let* text := attempt (call (ReadText age_key_file)) in
  match text with
  | Err (OSError _) =>
    Ret (mkDoctorCheckResult "age-key" false ("age private key not found or unreadable at '" +:+ p +:+ "' " +:+ em_dash +:+
           " populate the keyfile or set SOPS_AGE_KEY_FILE"))
  | Err e => Raise e
  | Ok text =>
    if negb (existsb (fun line => is_prefix (chars AGE_KEY_MARKER) (chars (strip line))) (splitlines text))
    then Ret (mkDoctorCheckResult "age-key" false ("'" +:+ p +:+ "' does not contain a usable age private key"))
    else Ret (mkDoctorCheckResult "age-key" true ("age private key usable at '" +:+ p +:+ "'"))
  end.
Definition credential_text (e : exn) : string :=
  match e with
  | CredentialTargetRejectedError => "credential target does not accept an opaque reference"
  | _ => "credential material is unavailable"
  end.
Definition check_enterprise_credential_resolves (resolver : string -> cli_prog string) : cli_prog DoctorCheckResult :=
  catch (resolver ENTERPRISE_SOURCE_CREDENTIAL_HANDLE ;* Ret (mkDoctorCheckResult "enterprise-credential" true "Enterprise source credential resolves"))
    (fun e => if is_credential_error e
              then Ret (mkDoctorCheckResult "enterprise-credential" false ("Enterprise source credential unavailable: " +:+ credential_text e))
              else Raise e).
Definition run_doctor (resolver : string -> cli_prog string) (age_key_file : path) : cli_prog DoctorReport :=
  let* age_key := check_age_key_present age_key_file in
  let* credential := check_enterprise_credential_resolves resolver in
  Ret (mkDoctorReport age_key credential).

Section Rotation.
(** [str(exc)] of an exception of [subprocess.run]. *)
Variable error_text : exn -> string.
Definition rotate_enterprise_credential (credentials_file : path) : cli_prog (bool * string) :=
  let p := path_str credentials_file in
  let* ran := attempt (call (Process ["sops"; "updatekeys"; "--yes"; p] None None)) in
  match ran with
  | Err e => if is_subprocess_error e then Ret (false, "failed to invoke sops updatekeys: " +:+ error_text e) else Raise e
  | Ok (returncode, _, _) =>
    if negb (returncode =? 0)%Z then Ret (false, "sops updatekeys failed for '" +:+ p +:+ "' (exit code " +:+ pretty returncode +:+ ")")
    else Ret (true, "rotated keys for '" +:+ p +:+ "'")
  end.
End Rotation.
