(* ===== verification/ModuleDeps.v ===== *)
(** * Module dependencies ([manifest/module_deps.py])

    The add-on roots are indexed one level deep, the first root wins, and every dependency that
    no installable module of the index provides is reported. *)

From S2P Require Import Prelude Effects Values Json Paths Workspace Cli.

Record OdooModule : Type := mkOdooModule { om_name : string; om_depends : list string; om_installable : bool }.
Definition ModuleIndex : Type := list (string * OdooModule).

Section Index.
(** [ast.literal_eval]: [None] for the exceptions it raises; dictionaries with text keys. *)
Variable literal_eval : string -> option json.
(** [str(exc)] of the exception of [literal_eval] on this text, and of an [OSError]. *)
Variables (malformed_text : string -> string) (other_text : exn -> string).

Definition text_items (j : json) : option (list string) :=
  match j with JArr l => mapM (fun j => match j with JStr s => Some s | _ => None end) l | _ => None end.
Definition parse_manifest_source (text : string) (manifest_path : path) : result exn OdooModule :=
  let p := path_str manifest_path in
  match literal_eval text with
  | None => Err (ValueError ("malformed manifest at " +:+ p +:+ ": " +:+ malformed_text text))
  | Some (JObj d) =>
    match text_items (default (JArr []) (dget "depends" d)), default (JBool true) (dget "installable" d) with
    | None, _ => Err (ValueError ("manifest at " +:+ p +:+ " has invalid 'depends': must be a list of str"))
    | Some depends, JBool installable => Ok (mkOdooModule (path_name (Workspace.parent manifest_path)) depends installable)
    | Some _, _ => Err (ValueError ("manifest at " +:+ p +:+ " has invalid 'installable': must be a bool"))
    end
  | Some _ => Err (ValueError ("manifest at " +:+ p +:+ " must be a dict literal"))
  end.

(** A call whose [OSError] becomes a [ValueError] that names the path. *)
Definition naming {A : Type} (what : string) (p : path) (e : cli_op A) : cli_prog A :=
  catch (call e)
    (fun x => if is_os_error x then Raise (ValueError ("cannot " +:+ what +:+ " " +:+ path_str p +:+ ": " +:+ other_text x)) else Raise x).
Definition index_entry (root : path) (name : string) (index : ModuleIndex) : cli_prog ModuleIndex :=
  let entry := div root name in
  let manifest_path := div entry "__manifest__.py" in
  let* directory := naming "inspect module directory" entry (IsDir entry) in
  if negb directory then Ret index else
  let* file := naming "inspect manifest file" manifest_path (IsFile manifest_path) in
  if negb file then Ret index else
  if bool_decide (name ∈ index.*1) then Ret index else
  let* text := naming "read manifest file" manifest_path (ReadText manifest_path) in
  let* m := lift (parse_manifest_source text manifest_path) in
  Ret (dset name m index).
Fixpoint index_entries (root : path) (names : list string) (index : ModuleIndex) : cli_prog ModuleIndex :=
  match names with
  | [] => Ret index
  | name :: names' => let* index := index_entry root name index in index_entries root names' index
  end.
Fixpoint index_roots (roots : list path) (index : ModuleIndex) : cli_prog ModuleIndex :=
  match roots with
  | [] => Ret index
  | root :: roots' =>
    let* there := naming "inspect addons root" root (IsDir root) in
    if negb there then index_roots roots' index else
    let* names := naming "list addons root" root (ListDir root) in
    let* index := index_entries root (sorted_str names) index in
    index_roots roots' index
  end.
Definition build_module_index (roots : list path) : cli_prog ModuleIndex := index_roots roots [].
End Index.

Definition installable_names (index : ModuleIndex) : list string :=
  map fst (List.filter (fun kv => om_installable kv.2) index).
Definition unsatisfied (index : ModuleIndex) (m : OdooModule) : list string :=
  List.filter (fun dep => negb (bool_decide (dep ∈ installable_names index))) (om_depends m).
(** The frozen sets of missing names, kept as the lists they are built from. *)
Definition find_missing_dependencies (index : ModuleIndex) : list (string * list string) :=
  omap (M:=list) (fun kv : string * OdooModule =>
    if om_installable kv.2 then match unsatisfied index kv.2 with [] => None | l => Some (kv.1, l) end else None) index.
(** [_format_missing_dependencies] *)
Definition format_missing_dependencies (missing : list (string * list string)) : string :=
  let names := sorted_str (map fst missing) in
  "missing module dependencies:" +:+ str [newline] +:+
  join (str [newline]) (map (fun name => "  " +:+ name +:+ " -> " +:+ join ", " (sorted_set (default [] (dget name missing)))) names).
