(* ===== verification/ManifestCommands.v ===== *)
(** * The manifest commands ([odoo_forge_cli/commands/manifest.py], [_support.py])

    [lock], [project], [unlock], [validate] and [onboard] over the adapters the composition root
    gives them.  A command ends in its exit status, or in an exception it does not catch. *)

From stdpp Require Import pretty.
From S2P Require Import Prelude Effects Values Json Paths Schema Urls Composition Lock Docker Backend DockerBackend Workspace Projection Catalogs Cli GitSource Credentials ModuleDeps.

(** [_format_drift] *)
Definition quoted (s : string) : string := "'" +:+ s +:+ "'".
Definition text_or_none (o : option string) : string := default "None" o.
Definition format_drift (entry : DriftEntry) : string :=
  match de_kind entry with
  | missing_lock => "no lockfile present " +:+ em_dash +:+ " manifest has never been locked"
  | manifest_lock_hash =>
    "manifest hash " +:+ quoted (text_or_none (de_expected entry)) +:+ " does not match lock's " +:+ quoted (text_or_none (de_actual entry))
  | not_materialized =>
    "layer " +:+ quoted (text_or_none (de_layer entry)) +:+
    (match de_repo entry with Some r => if bool_decide (r = "") then "" else " repo " +:+ quoted r | None => "" end) +:+ " is not materialized"
  | commit_mismatch =>
    "layer " +:+ quoted (text_or_none (de_layer entry)) +:+ " repo " +:+ quoted (text_or_none (de_repo entry)) +:+ " lock declares " +:+
    quoted (text_or_none (de_expected entry)) +:+ " but materialized at " +:+ quoted (text_or_none (de_actual entry))
  end.
Definition is_not_materialized (entry : DriftEntry) : bool := match de_kind entry with not_materialized => true | _ => false end.
Definition all_drift (r : DriftReport) : list DriftEntry := manifest_lock_drift r ++ lock_state_drift r.

(** The environment the commands read. *)
Record surroundings : Type := mkSurroundings {
  su_environ : gmap string string; su_home : path; su_expanduser : string -> path;
  su_source_timeout : string; su_workspace_timeout : Manifest -> string }.

(** [_resolve_mount_base] *)
Definition is_absolute (p : path) : bool := negb (bool_decide (p_root p = "")).
Definition resolve_mount_base (s : surroundings) : result exn path :=
  let configured := default "" (su_environ s !! "FORGE_MOUNT_BASE") in
  if negb (bool_decide (configured = "")) then
    let resolved := su_expanduser s configured in
    ensure (is_absolute resolved) (ManifestInputError ("FORGE_MOUNT_BASE must be an absolute path, got " +:+ str (python_literal configured))) ;! Ok resolved
  else
    let state := default "" (su_environ s !! "XDG_STATE_HOME") in
    let state_home := if negb (bool_decide (state = "")) && is_absolute (path_of state) then path_of state
                      else div (div (su_home s) ".local") "state" in
    Ok (div state_home "odoo-forge").

Section Commands.
Variable s : surroundings.
(** SHA-256; [yaml.safe_load] and the text of its error; pydantic's decoding of the fields, and
    the text of a validation error of the model's own validators. *)
Variable sha256 : string -> string.
Variables (safe_load : string -> option json) (yaml_error : string -> string).
Variables (decode : json -> result (list string) Manifest) (validator_text : exn -> string).
(** [ast.literal_eval]; [str(exc)] of the exceptions of the standard library. *)
Variables (literal_eval : string -> option json) (malformed_text : string -> string) (other_text : exn -> string).

Definition message (e : exn) : string :=
  match e with
  | ManifestError w | ManifestInputError w | CompositionError w | LockfileError w | ModuleDependencyError w | ProjectionError w
  | MountPlanningError w | CheckoutError w | ScanError w | PromotionError w | AlreadyUnlockedError w | ResolutionError w | ValueError w => w
  | BackendError _ detail => detail
  | CredentialError | CredentialTargetRejectedError => credential_text e
  | _ => other_text e
  end.

Definition host_roots (m : Manifest) : result exn (list (string * path)) :=
  let! base := resolve_mount_base s in Ok (build_mount_roots base (Some m)).
Definition undecodable (e : exn) : bool := match e with OSError _ | ValueError _ => true | _ => false end.
(** [_read_manifest_data] *)
Definition read_manifest_data (p : path) : cli_prog json :=
  let* text := catch (call (ReadText p))
    (fun e => Raise (if undecodable e then ManifestInputError ("cannot read manifest " +:+ quoted (path_str p) +:+ ": " +:+ other_text e) else e)) in
  match safe_load text with
  | Some data => Ret data
  | None => Raise (ManifestInputError ("malformed YAML in manifest " +:+ quoted (path_str p) +:+ ": " +:+ yaml_error text))
  end.
(** [Manifest.model_validate], with the lines of its [ValidationError]. *)
Definition model_validate (data : json) : result (list string) Manifest :=
  match decode data with
  | Err lines => Err lines
  | Ok m => match validate_manifest m with Ok m => Ok m | Err e => Err [validator_text e] end
  end.
(** [_load_lock] *)
Definition lock_error (p : path) (e : exn) : exn :=
  match e with
  | ValueError w =>
    if bool_decide (w = "malformed JSON") then LockfileError ("invalid JSON in lockfile " +:+ quoted (path_str p) +:+ ": " +:+ other_text e)
    else LockfileError ("invalid lockfile " +:+ quoted (path_str p) +:+ ": " +:+ message e)
  | _ => e
  end.
Definition load_lock (p : path) : cli_prog (option Lockfile) :=
  let* there := call (FileExists p) in
  if negb there then Ret None else
  let* raw := catch (call (ReadText p))
    (fun e => Raise (if undecodable e then LockfileError ("cannot read lockfile " +:+ quoted (path_str p) +:+ ": " +:+ other_text e) else e)) in
  match from_json raw with Ok lk => Ret (Some lk) | Err e => Raise (lock_error p e) end.
(** [_write_lock_atomic] *)
Definition write_lock_atomic (lock_path : path) (content : string) : cli_prog unit :=
  let* tmp := call (MakeTempFile (Some (Workspace.parent lock_path)) ("." +:+ path_name lock_path +:+ ".") ".tmp") in
  catch (call (WriteText tmp content) ;* call (ReplaceFile tmp lock_path))
    (fun e => if is_os_error e then call (UnlinkFile tmp) ;* Raise e else Raise e).
(** [_check_module_dependencies] *)
Definition check_module_dependencies (m : Manifest) (base : path) : cli_prog unit :=
  let* roots := lift (ordered_addons_roots m base) in
  let* index := catch (build_module_index literal_eval malformed_text other_text roots)
    (fun e => Raise (match e with ValueError w => ModuleDependencyError w | _ => e end)) in
  match find_missing_dependencies index with
  | [] => Ret tt
  | missing => Raise (ModuleDependencyError (format_missing_dependencies missing))
  end.

(** ** The frame of a command *)

Definition fail (line : string) : cli_prog Z := call (Echo true ("error: " +:+ line)) ;* Ret 1%Z.
Definition say (lines : list string) : cli_prog unit := for_each (fun line => call (Echo false line)) lines.
(** Reading and validating the manifest, before the command's own part. *)
Definition with_manifest (manifest : path) (k : Manifest -> cli_prog Z) : cli_prog Z :=
  let* read := attempt (read_manifest_data manifest) in
  match read with
  | Err e => if is_manifest_error e then fail (message e) else Raise e
  | Ok data =>
    match model_validate data with
    | Err lines => for_each (fun line => call (Echo true ("error: " +:+ line))) lines ;* Ret 1%Z
    | Ok parsed => k parsed
    end
  end.
(** [try: main except ...: echo and exit 1], then the lines of a success. *)
Definition guarded_main (main : cli_prog (list string)) (handled : exn -> option string) : cli_prog Z :=
  let* r := attempt main in
  match r with
  | Ok lines => say lines ;* Ret 0%Z
  | Err e => match handled e with Some line => fail line | None => Raise e end
  end.
Definition on_manifest_error (e : exn) : option string := if is_manifest_error e then Some (message e) else None.
Definition or_credential (handled : exn -> option string) (e : exn) : option string :=
  match handled e with
  | Some line => Some line
  | None => if is_credential_error e then Some ("Enterprise credential required but unavailable: " +:+ message e) else None
  end.
Definition require_lock (lock_path : path) : cli_prog Lockfile :=
  let* loaded := load_lock lock_path in
  match loaded with
  | Some lk => Ret lk
  | None => Raise (LockfileError ("no lockfile found at " +:+ quoted (path_str lock_path) +:+ " " +:+ em_dash +:+ " run `forge lock` first"))
  end.
Definition lock_beside (manifest : path) : path := div (Workspace.parent manifest) "project.lock".
(** [_make_enterprise_credential_resolver(credentials_file=manifest.resolve().parent / ...)] *)
Definition credentials_beside (resolved : path) : path := div (Workspace.parent resolved) "credentials.sops.yaml".

(** ** The providers a command works with *)

Definition serve_lock (resolver : string -> cli_prog string) (bound : option string) : forall R, lock_op R -> cli_prog R :=
  fun R e => match e in lock_op R return cli_prog R with
             | ResolveRef url ref => bound_resolve_ref (su_environ s) (su_source_timeout s) resolver bound url ref
             | ResolveArtifact source version => call (PublishedArtifact source version)
             end.
Definition serve_projection (m : Manifest) (resolver : string -> cli_prog string) (bound : option string)
    : forall R, Projection.workspace_op R -> cli_prog R :=
  fun R e => match e in Projection.workspace_op R return cli_prog R with
             | Checkout url commit dest => bound_checkout (su_environ s) (su_workspace_timeout s m) resolver bound url commit dest
             end.
Definition scan_mounts (m : Manifest) (roots : list (string * path)) : cli_prog (list ScannedRepo) :=
  embed (@OnWorkspace) (scan (su_environ s) (su_workspace_timeout s m) (map snd roots)).
(** The provider itself, which never asks for the credential. *)
Definition unbound_resolver (handle : string) : cli_prog string := Raise CredentialError.

(** ** [lock], [project] and [unlock] *)

Definition lock_main (manifest : path) (m : Manifest) : cli_prog (list string) :=
  let lock_path := lock_beside manifest in
  let* resolved := call (Resolve manifest) in
  let resolver := enterprise_resolver (credentials_beside resolved) in
  preflight_enterprise_source_credential m resolver ;*
  let* bound := lift (bind_enterprise_provider m) in
  let* lockfile := interp (serve_lock resolver bound) (build_lock sha256 m) in
  let* text := lift (to_canonical_json lockfile) in
  write_lock_atomic lock_path text ;*
  Ret ["wrote " +:+ path_str lock_path].
Definition on_lock_error (e : exn) : option string :=
  if is_manifest_error e || is_resolution_error e || is_os_error e then Some (message e) else None.
Definition lock (manifest : path) : cli_prog Z :=
  with_manifest manifest (fun m => guarded_main (lock_main manifest m) (or_credential on_lock_error)).

Definition project_main (lock_path : path) (m : Manifest) : cli_prog (list string) :=
  let* lk := require_lock lock_path in
  let* roots := lift (host_roots m) in
  let* plan := lift (plan_projection m lk (Some roots)) in
  interp (serve_projection m unbound_resolver None) (project_workspace plan) ;*
  Ret ["projected " +:+ pretty (length plan) +:+ " repo(s) from " +:+ path_str lock_path].
Definition project (manifest : path) (lock_option : option path) : cli_prog Z :=
  with_manifest manifest (fun m => guarded_main (project_main (default (lock_beside manifest) lock_option) m) on_manifest_error).

Definition unlock_main (m : Manifest) (layer repo : string) : cli_prog (list string) :=
  let* roots := lift (host_roots m) in
  let* plan := lift (plan_unlock m layer repo (Some roots)) in
  embed (@OnWorkspace) (promote (su_environ s) (su_workspace_timeout s m) (up_source plan) (up_dest plan) (up_branch plan)) ;*
  Ret ["unlocked " +:+ quoted layer +:+ " at " +:+ quoted (path_str (up_dest plan)) +:+ " on branch " +:+ quoted (up_branch plan)].
Definition unlock (manifest : path) (layer repo : string) : cli_prog Z :=
  with_manifest manifest (fun m => guarded_main (unlock_main m layer repo) on_manifest_error).

(** ** [validate] *)

Definition not_fully_materialized : exn :=
  ManifestError ("workspace not fully materialized " +:+ em_dash +:+
    " run `forge onboard` (or `forge project`) before module-dependency validation can run").
Definition validate_main (manifest : path) (m : Manifest) : cli_prog (list string) :=
  let* _ := lift (compose m) in
  let* lk := load_lock (lock_beside manifest) in
  let* roots := lift (host_roots m) in
  let* scanned := scan_mounts m roots in
  let* state := lift (materialize_state scanned roots) in
  let report := detect_drift sha256 m lk (Some state) in
  (match lk with
   | None => Ret tt
   | Some _ =>
     if existsb is_not_materialized (all_drift report) then Raise not_fully_materialized
     else let* base := lift (resolve_mount_base s) in check_module_dependencies m base
   end) ;*
  Ret ((path_str manifest +:+ " is valid") ::
       match lk with
       | None => []
       | Some _ => if is_clean report then ["no manifest/lock drift detected"]
                   else map (fun entry => "drift: " +:+ format_drift entry) (all_drift report)
       end).
Definition validate (manifest : path) : cli_prog Z :=
  with_manifest manifest (fun m => guarded_main (validate_main manifest m) on_manifest_error).

(** ** [onboard] *)

Definition drift_error (entry : DriftEntry) : exn := ManifestError ("drift: " +:+ format_drift entry).
(** The part both modes share: from the credential to a workspace that is clean and whose
    modules have their dependencies. *)
Definition onboard_workspace (manifest : path) (m : Manifest)
    : cli_prog (Lockfile * list (string * path) * list WorkspacePlanEntry * list ScannedRepo * MaterializedState) :=
  let* resolved := call (Resolve manifest) in
  let resolver := enterprise_resolver (credentials_beside resolved) in
  preflight_enterprise_source_credential m resolver ;*
  let* _ := lift (compose m) in
  let* lk := require_lock (lock_beside manifest) in
  let* roots := lift (host_roots m) in
  let* plan := lift (plan_projection m lk (Some roots)) in
  let* bound := lift (bind_enterprise_provider m) in
  let* scanned := scan_mounts m roots in
  let* state := lift (materialize_state scanned roots) in
  match List.filter (fun entry => negb (is_not_materialized entry)) (all_drift (detect_drift sha256 m (Some lk) (Some state))) with
  | entry :: _ => Raise (drift_error entry)
  | [] =>
    interp (serve_projection m resolver bound) (project_workspace plan) ;*
    let* scanned := scan_mounts m roots in
    let* state := lift (materialize_state scanned roots) in
    match all_drift (detect_drift sha256 m (Some lk) (Some state)) with
    | entry :: _ => Raise (drift_error entry)
    | [] =>
      let* base := lift (resolve_mount_base s) in
      check_module_dependencies m base ;*
      Ret (lk, roots, plan, scanned, state)
    end
  end.
(** [_onboard_manifest_mode] *)
Definition onboard_manifest_main (manifest : path) (m : Manifest) : cli_prog (list string) :=
  let* '(_, _, plan, _, _) := onboard_workspace manifest m in
  Ret ["onboarded workspace with " +:+ pretty (length plan) +:+ " repo(s) from " +:+ path_str (lock_beside manifest);
       "next: run `forge validate --manifest " +:+ path_str manifest +:+ "`"].
Definition onboard_manifest_mode (manifest : path) : cli_prog Z :=
  with_manifest manifest (fun m => guarded_main (onboard_manifest_main manifest m) (or_credential on_manifest_error)).

Section Catalog.
(** The printed details of a failed resolution and of a source error, and the local backend. *)
Variables (details_text : failure_details -> string) (catalog_text : catalog_error -> string).
Variable run_backend : BackendPlan -> backend_prog InstanceRef.

(** The index reads [catalog.yaml]. *)
Definition serve_catalog : forall R, catalog_op R -> cli_prog (result catalog_error R) :=
  fun R e => match e in catalog_op R return cli_prog (result catalog_error R) with
             | ReadCatalog =>
               let* text := attempt (call (ReadText (path_of "catalog.yaml"))) in
               Ret (match text with Ok text => Ok text | Err (OSError _) => Err ReadError | Err e => Err (OtherCatalogError e) end)
             end.
Fixpoint over_catalog {A : Type} (p : catalog_prog A) : cli_prog (result catalog_error A) :=
  match p with
  | Ret a => Ret (Ok a)
  | Raise x => Ret (Err x)
  | Call e k => bind (serve_catalog _ e) (fun r => over_catalog (k r))
  end.
Definition is_registry_failure (e : exn) : bool :=
  match e with UnsupportedRegistryError _ | MalformedImageReferenceError _ => true | _ => false end.
Definition on_onboard_error (e : exn) : option string :=
  match e with
  | BackendError _ _ => Some (message e)
  | _ => if is_manifest_error e || is_registry_failure e then Some (message e) else None
  end.
Definition onboard_catalog_main (manifest : path) (m : Manifest) : cli_prog (list string) :=
  let* '(lk, roots, _, scanned, state) := onboard_workspace manifest m in
  let* mounts := lift (build_mount_planning_view sha256 m (Some lk) scanned state roots None) in
  let* plan := lift (plan_backend sha256 m mounts "default" None (Some "local-backend/odoo-db-password") (Some "local-backend/postgres-password")) in
  let* ref := embed (@OnBackend) (run_backend plan) in
  Ret ["running: project " +:+ quoted (ir_project ref) +:+ " instance " +:+ quoted (ir_instance ref) +:+ " (odoo " +:+
       quoted (ir_odoo_container ref) +:+ ", postgres " +:+ quoted (ir_postgres_container ref) +:+ ")"].
(** [_onboard_catalog_mode] *)
Definition onboard_catalog_mode (client : string) : cli_prog Z :=
  let* resolution := over_catalog (resolve (find_matches safe_load) (mkProjectCatalogRequest (Some client) None None None)) in
  match resolution with
  | Err (OtherCatalogError e) => Raise e
  | Err e => fail (catalog_text e)
  | Ok (ResolutionFailure type _ details) => fail (type +:+ ": " +:+ details_text details)
  | Ok (Resolved result) =>
    let manifest := path_of (mr_manifest_path (rc_manifest_ref result)) in
    with_manifest manifest (fun m => guarded_main (onboard_catalog_main manifest m) (or_credential on_onboard_error))
  end.
Definition onboard (client : option string) (manifest : option path) : cli_prog Z :=
  match client, manifest with
  | Some _, Some _ => fail "onboard accepts either a client name or --manifest, not both"
  | None, None => fail "onboard requires either a client name or --manifest <path>"
  | _, Some manifest => onboard_manifest_mode manifest
  | Some client, None => onboard_catalog_mode client
  end.
End Catalog.
End Commands.
