(* ===== verification/CredentialFacts.v ===== *)
(** * The Enterprise credential stays where it belongs

    Rules for programs of the command line: every askpass script is removed again, and nothing
    but git for the Enterprise source of the allowed host is ever pointed at one. *)

From stdpp Require Import pretty.
From S2P Require Import Prelude Effects Values Json Paths Schema Urls Lock Docker Backend DockerBackend Workspace Projection Cli GitSource Credentials.

Abbreviation history := (list (event cli_op exn)).

(** ** Scripts are removed *)

Definition askpass_prefix : string := "odoo-forge-askpass-".
(** The script a call has made, and whether a call removes it. *)
Definition script_of (ev : event cli_op exn) : option path :=
  match ev with
  | Event e r => match e in cli_op R return result exn R -> option path with
                 | MakeTempFile None prefix _ => fun r => if bool_decide (prefix = askpass_prefix) then match r with Ok p => Some p | Err _ => None end else None
                 | _ => fun _ => None
                 end r
  end.
Definition unlinks (p : path) (ev : event cli_op exn) : bool :=
  match ev with Event e _ => match e with UnlinkFile q => bool_decide (q = p) | _ => false end end.
Fixpoint tidy (tr : history) : Prop :=
  match tr with
  | [] => True
  | ev :: tr' => (forall p, script_of ev = Some p -> existsb (unlinks p) tr' = true) /\ tidy tr'
  end.

Lemma tidy_app tr1 tr2 : tidy tr1 -> tidy tr2 -> tidy (tr1 ++ tr2).
Proof.
  intros H1 H2. induction tr1 as [|ev tr1 IH]; [done|]. destruct H1 as [Hev H1]. split; [|by apply IH].
  intros p Hp. rewrite existsb_app, (Hev p Hp). done.
Qed.
Definition makes_no_script (R : Type) (e : cli_op R) : Prop := match e with MakeTempFile None _ _ => False | _ => True end.
Lemma tidy_quiet tr : Forall (event_sat makes_no_script) tr -> tidy tr.
Proof.
  induction 1 as [|[R e r] tr He _ IH]; [done|]. split; [|done]. intros p Hp. destruct e; try done. by destruct dir.
Qed.

Definition tidies {A : Type} (p : cli_prog A) : Prop := forall tr o, runs p tr o -> tidy tr.

Lemma tidies_only {A : Type} (p : cli_prog A) : only makes_no_script p -> tidies p.
Proof. intros Hp tr o H. apply tidy_quiet. by eapply only_runs. Qed.
Lemma tidies_bind {A B : Type} (p : cli_prog A) (k : A -> cli_prog B) : tidies p -> (forall a, tidies (k a)) -> tidies (bind p k).
Proof.
  intros Hp Hk tr o [(tr1 & tr2 & a & -> & H1 & H2)|(x & -> & H)]%runs_bind; [|by apply Hp in H].
  apply tidy_app; [by apply Hp in H1|by apply Hk in H2].
Qed.
Lemma tidies_attempt {A : Type} (p : cli_prog A) : tidies p -> tidies (attempt p).
Proof. intros Hp tr o (r & -> & H)%runs_attempt. by apply Hp in H. Qed.
Lemma tidies_catch {A : Type} (p : cli_prog A) h : tidies p -> (forall x, tidies (h x)) -> tidies (catch p h).
Proof. intros Hp Hh. apply tidies_bind; [by apply tidies_attempt|]. intros [a|x]; [apply tidies_only; exact I|apply Hh]. Qed.
Lemma tidies_interp {E : Type -> Type} (serve : forall R, E R -> cli_prog R) {A : Type} (p : prog E exn A) :
  (forall R e, tidies (serve R e)) -> tidies (interp serve p).
Proof.
  intros Hs. induction p as [a|x|R e k IH]; [apply tidies_only; exact I..|].
  apply (tidies_bind (attempt (serve R e))); [by apply tidies_attempt|apply IH].
Qed.
Lemma tidies_for_each {A : Type} (f : A -> cli_prog unit) l : (forall x, tidies (f x)) -> tidies (for_each f l).
Proof. intros Hf. induction l as [|x l IH]; [apply tidies_only; exact I|]. by apply tidies_bind. Qed.

(** Whatever the body does, the script is removed after it. *)
Lemma tidies_askpass {A : Type} d resolver (body : gmap string string -> cli_prog A) :
  tidies (resolver (cid_handle d)) -> (forall overlay, tidies (body overlay)) -> tidies (askpass_env d resolver body).
Proof.
  intros Hr Hb. apply tidies_bind.
  { unfold injected. apply tidies_catch; [done|]. intros x. apply tidies_only; exact I. }
  intros value tr o (r & tr' & -> & H)%runs_bind_call. destruct r as [script|x]; [|destruct H as [-> _]; split; [by intros|done]].
  apply runs_finally in H as (tr1 & tr2 & r & rc & -> & H & ->%runs_call & _).
  assert (Ht : tidy tr1).
  { revert tr1 r H. apply tidies_bind; [by apply tidies_only, only_call|]. intros _. apply tidies_bind; [by apply tidies_only, only_call|]. intros _. apply Hb. }
  split; [|apply tidy_app; [done|]; split; [by intros|done]].
  intros p [= ->]. rewrite existsb_app. cbn. rewrite bool_decide_true by done. by rewrite orb_true_r.
Qed.

Create HintDb tidies discriminated.
Ltac tidies_step :=
  match goal with
  | |- tidies (Ret _) => apply tidies_only; exact I
  | |- tidies (Raise _) => apply tidies_only; exact I
  | |- tidies (lift _) => apply tidies_only, only_lift
  | |- tidies (call _) => apply tidies_only, only_call; exact I
  | |- tidies (askpass_env _ _ _) => apply tidies_askpass; [|intros ?]
  | |- tidies (bind _ _) => apply tidies_bind; [|intros ?]
  | |- tidies (attempt _) => apply tidies_attempt
  | |- tidies (catch _ _) => apply tidies_catch; [|intros ?]
  | |- tidies (for_each _ _) => apply tidies_for_each; intros ?
  | |- tidies (interp _ _) => apply tidies_interp; intros ? ?
  | |- tidies (embed (@OnWorkspace) _) => apply tidies_only, only_embed
  | |- tidies (embed (@OnBackend) _) => apply tidies_only, only_embed
  | |- tidies (match ?x with _ => _ end) => destruct x eqn:?
  | |- tidies (let _ := _ in _) => cbv zeta
  | |- tidies _ => solve [eauto with tidies]
  end.
Ltac solve_tidies := repeat tidies_step; try done.
Lemma only_all {E : Type -> Type} {X A : Type} (p : prog E X A) : only (fun _ _ => True) p.
Proof. induction p as [a|x|R e k IH]; [done..|]. split; [done|]. intros r. apply IH. Qed.

Lemma tidies_resolver file handle : tidies (enterprise_resolver file handle).
Proof. unfold enterprise_resolver, memoizing, sops_resolve. solve_tidies. Qed.
#[export] Hint Resolve tidies_resolver : tidies.
Lemma tidies_resolve_ref environ timeout url ref overlay : tidies (resolve_ref environ timeout url ref overlay).
Proof. unfold resolve_ref. solve_tidies. Qed.
#[export] Hint Resolve tidies_resolve_ref : tidies.

(** ** Who may be pointed at a script *)

Section Permitted.
Variable m : Manifest.

(** A private script with the secret has been written at [p]. *)
Definition script_at (past : history) (p : path) : Prop :=
  (exists secret, Event (WriteText p (askpass_script secret)) (Ok tt) ∈ past) /\ Event (Fchmod p 448%Z) (Ok tt) ∈ past.
(** An Enterprise project has its credential resolved. *)
Definition ready (past : history) : Prop := is_enterprise m = true -> exists p, script_at past p.
Definition anonymous (env : gmap string string) : Prop := env !! "GIT_ASKPASS" = Some "".
(** [env] points git to a script, and [url] is the Enterprise source of the allowed host. *)
Definition credentialed (past : history) (env : gmap string string) (url : string) : Prop :=
  (exists p, env !! "GIT_ASKPASS" = Some (path_str p) /\ script_at past p) /\ is_enterprise m = true /\
  (exists e, m_enterprise m = Some e /\ ent_url e = url) /\ extract_host url = Ok (Some "github.com").
Definition clones (url : string) (argv : list string) : Prop :=
  exists p commit, argv = filtered_clone_argv url p \/ argv = full_clone_argv url p \/ argv = detach_argv p commit.

Definition permitted (past : history) (R : Type) (e : cli_op R) : Prop :=
  match e with
  | Process argv env _ =>
    (is_enterprise m = true /\ exists file, argv = sops_argv file ENTERPRISE_SOURCE_CREDENTIAL_HANDLE) \/
    (ready past /\ exists url ref overlaid, argv = ls_remote_argv url ref /\ env = Some overlaid /\
       (anonymous overlaid \/ credentialed past overlaid url))
  | OnWorkspace (Git argv env) => ready past /\ (anonymous env \/ exists url, credentialed past env url /\ clones url argv)
  | WriteText p text =>
    (Event (Fchmod p 448%Z) (Ok tt) ∈ past /\ exists secret, text = askpass_script secret) \/
    (exists dir prefix suffix, Event (MakeTempFile (Some dir) prefix suffix) (Ok p) ∈ past)
  | _ => True
  end.

Lemma script_at_app past new p : script_at past p -> script_at (past ++ new) p.
Proof. unfold script_at. set_solver. Qed.
Lemma ready_app past new : ready past -> ready (past ++ new).
Proof. intros H He. destruct (H He) as [p Hp]. exists p. by apply script_at_app. Qed.

Definition monotone (I : history -> Prop) : Prop := forall past new, I past -> I (past ++ new).
Lemma monotone_ready : monotone ready.
Proof. intros past new. apply ready_app. Qed.
Lemma monotone_script p : monotone (fun past => ready past /\ script_at past p).
Proof. intros past new []. split; [by apply ready_app|by apply script_at_app]. Qed.

(** [safe I p]: started under [I], whatever is answered, [p] performs permitted calls only. *)
Definition safe (I : history -> Prop) {A : Type} (p : cli_prog A) : Prop :=
  forall past, I past -> guarded permitted past p (fun _ _ => True).

Lemma safe_only I {A : Type} (p : cli_prog A) : monotone I -> only (fun R e => forall past, I past -> permitted past R e) p -> safe I p.
Proof.
  intros HI. induction p as [a|x|R e k IH]; intros Hp past Hpast; [done..|]. destruct Hp as [He Hk].
  split; [by apply He|]. intros r. apply IH; [apply Hk|by apply HI].
Qed.
Lemma keeping_bind I {A B : Type} (p : cli_prog A) (k : A -> cli_prog B) : monotone I -> safe I p -> (forall a, safe I (k a)) -> safe I (bind p k).
Proof.
  intros HI Hp Hk past Hpast. apply guarded_bind. eapply guarded_mono; [|by apply Hp].
  intros new [a|x] _; [|done]. by apply Hk, HI.
Qed.
Lemma safe_attempt I {A : Type} (p : cli_prog A) : safe I p -> safe I (attempt p).
Proof. intros Hp past Hpast. by apply guarded_attempt, Hp. Qed.
Lemma keeping_catch I {A : Type} (p : cli_prog A) h : monotone I -> safe I p -> (forall x, safe I (h x)) -> safe I (catch p h).
Proof. intros HI Hp Hh. apply keeping_bind; [done|by apply safe_attempt|]. intros [a|x]; [by intros ??|apply Hh]. Qed.
Lemma keeping_lift I {A : Type} (r : result exn A) : safe I (lift r).
Proof. by intros past _; apply guarded_lift. Qed.
Lemma safe_interp I {E : Type -> Type} (serve : forall R, E R -> cli_prog R) {A : Type} (p : prog E exn A) :
  monotone I -> (forall R e, safe I (serve R e)) -> safe I (interp serve p).
Proof.
  intros HI Hs. induction p as [a|x|R e k IH]; [by intros ??..|].
  apply (keeping_bind I (attempt (serve R e))); [done|by apply safe_attempt|apply IH].
Qed.

(** ** Resolving the credential *)

Lemma only_resolver I file : is_enterprise m = true ->
  only (fun R e => forall past, I past -> permitted past R e) (injected (enterprise_resolver file) ENTERPRISE_SOURCE_CREDENTIAL_HANDLE).
Proof. intros He. unfold injected, enterprise_resolver, memoizing, sops_resolve. solve_only. intros past _. left. eauto. Qed.

(** The body of [askpass_env] is entered with a private script in place, and only then. *)
Lemma guarded_askpass {A : Type} past file (body : gmap string string -> cli_prog A) (Q : result exn A -> history -> Prop) d :
  is_enterprise m = true -> cid_handle d = ENTERPRISE_SOURCE_CREDENTIAL_HANDLE ->
  (forall new p, script_at (past ++ new) p -> guarded permitted (past ++ new) (body (askpass_overlay p)) (fun past' r => forall last, Q r (past' ++ last))) ->
  (forall x past', Q (Err x) past') ->
  guarded permitted past (askpass_env d (enterprise_resolver file) body) (fun past' r => Q r past').
Proof.
  intros He Hd Hbody HQ. unfold askpass_env. rewrite Hd. apply guarded_bind.
  eapply guarded_mono; [|apply (safe_only (fun _ => True)); [done|by apply only_resolver|done]].
  intros n1 [v|x] _; [|apply HQ]. apply guarded_bind_call; [done| |intros x; apply HQ]. intros p.
  unfold finally. apply guarded_bind, guarded_attempt. apply guarded_bind_call; [done| |].
  2:{ intros x. apply guarded_bind_call; [done| |intros y; apply HQ]. intros []. apply guarded_Raise, HQ. }
  intros []. apply guarded_bind_call; [left; split; [set_solver|eauto]| |].
  2:{ intros x. apply guarded_bind_call; [done| |intros y; apply HQ]. intros []. apply guarded_Raise, HQ. }
  intros []. rewrite <- !app_assoc. eapply guarded_mono; [|apply Hbody].
  2:{ split; [exists v|]; set_solver. }
  intros n2 r Hr. apply guarded_bind_call; [done| |intros y; apply HQ]. intros [].
  destruct r as [a|x]; [apply guarded_Ret|apply guarded_Raise]; apply Hr.
Qed.

(** ** The bound providers *)

Lemma allowed_hosts : ALLOWED_ENTERPRISE_CREDENTIAL_HOSTS = ["github.com"].
Proof. vm_compute. reflexivity. Qed.
Lemma bind_spec u : bind_enterprise_provider m = Ok (Some u) ->
  is_enterprise m = true /\ (exists e, m_enterprise m = Some e /\ ent_url e = u) /\ extract_host u = Ok (Some "github.com").
Proof.
  unfold bind_enterprise_provider. destruct (is_enterprise m); [|done]. cbn [negb]. destruct (m_enterprise m) as [e|]; [|done].
  intros ([] & Ha & [= <-])%result_bind_Ok. split; [done|]. split; [eauto|]. revert Ha. unfold assert_allowed_enterprise_host.
  rewrite allowed_hosts. destruct (extract_host (ent_url e)) as [[h|]|]; [|done..]. cbn [result_bind].
  case_bool_decide as Hh; [|done]. apply list_elem_of_singleton in Hh as ->. done.
Qed.

Lemma anonymous_env environ : anonymous (run_env environ None).
Proof.
  unfold anonymous, run_env, git_environment. cbn [default]. rewrite (left_id_L ∅ (∪)).
  by rewrite lookup_insert_ne, lookup_insert_ne, lookup_insert_eq by done.
Qed.
Lemma overlaid_env environ p : run_env environ (Some (askpass_overlay p)) !! "GIT_ASKPASS" = Some (path_str p).
Proof. unfold run_env, askpass_overlay. cbn [default]. apply lookup_union_Some_l. by simplify_map_eq. Qed.

(** What a request with and without the overlay must keep to. *)
Definition keeps {A : Type} (url : string) (request : option (gmap string string) -> cli_prog A) : Prop :=
  safe ready (request None) /\
  forall p, is_enterprise m = true -> (exists e, m_enterprise m = Some e /\ ent_url e = url) -> extract_host url = Ok (Some "github.com") ->
    safe (fun past => ready past /\ script_at past p) (request (Some (askpass_overlay p))).

Lemma safe_bound_request {A : Type} file bound url (request : option (gmap string string) -> cli_prog A) :
  bind_enterprise_provider m = Ok bound -> keeps url request -> safe ready (bound_request (enterprise_resolver file) bound url request).
Proof.
  intros Hb [Hn Hs]. destruct bound as [u|]; [|done]. unfold bound_request. case_bool_decide as Hu; [|done]. subst u.
  apply bind_spec in Hb as (He & Hent & Hhost). intros past Hpast.
  apply guarded_bind, guarded_lift. cbn. apply (guarded_askpass past file (fun overlay => request (Some overlay)) (fun _ _ => True)); [done|done| |done].
  intros new p Hp. eapply guarded_mono; [|apply (Hs p He Hent Hhost)]; [done|]. split; [by apply ready_app|done].
Qed.

Lemma keeps_resolve_ref environ timeout url ref : keeps url (resolve_ref environ timeout url ref).
Proof.
  split.
  - apply safe_only; [apply monotone_ready|]. unfold resolve_ref. solve_only. intros past Hr. right. split; [done|].
    exists url, ref, (run_env environ None). split; [done|]. split; [done|]. left. apply anonymous_env.
  - intros p He Hent Hhost. apply safe_only; [apply monotone_script|]. unfold resolve_ref. solve_only. intros past [Hr Hp]. right. split; [done|].
    exists url, ref, (run_env environ (Some (askpass_overlay p))). split; [done|]. split; [done|]. right.
    split; [exists p; split; [apply overlaid_env|done]|done].
Qed.

Lemma only_git_env (f : forall R, Workspace.workspace_op R -> Prop) environ timeout argv err overlay :
  f _ (Git argv (run_env environ overlay)) -> only f (run_git environ timeout argv err overlay).
Proof. intros H. unfold run_git. solve_only. Qed.
Lemma only_checkout (f : forall R, Workspace.workspace_op R -> Prop) environ timeout url commit dest overlay :
  (forall R (e : Workspace.workspace_op R), match e with Git _ _ => True | _ => f R e end) ->
  (forall argv, f _ (Git argv (run_env environ None))) ->
  (forall argv, clones url argv -> f _ (Git argv (run_env environ overlay))) ->
  only f (checkout environ timeout url commit dest overlay).
Proof.
  intros Ho Hn Hc. pose proof (fun p => Ho _ (Workspace.PathExists p)) as H1. pose proof (fun p => Ho _ (IsRegular p)) as H2.
  pose proof (fun p => Ho _ (MakeDirs p)) as H3. pose proof (fun p => Ho _ (MakeTemp p)) as H4.
  pose proof (fun a b => Ho _ (Workspace.Replace a b)) as H5. pose proof (fun p => Ho _ (RemoveTree p)) as H6. cbn in *.
  assert (Hclone : forall p, only f (clone environ timeout url p overlay)).
  { intros p. unfold clone. solve_only; try apply only_git_env; try apply Hc; try apply H6; exists p, ""; auto. }
  assert (Hdetach : forall p, only f (run_git environ timeout (detach_argv p commit) CheckoutError overlay)).
  { intros p. apply only_git_env, Hc. exists p, commit. auto. }
  unfold checkout, current_head, is_dirty, is_linked_worktree, clone_and_replace, atomic_swap, set_aside, put_back.
  solve_only; auto; apply only_git_env, Hn.
Qed.

Lemma keeps_checkout environ timeout url commit dest :
  keeps url (fun overlay => embed (@OnWorkspace) (checkout environ timeout url commit dest overlay)).
Proof.
  split.
  - apply safe_only; [apply monotone_ready|]. apply only_embed, only_checkout; [by intros R []| |]; intros argv; [|intros _]; intros past Hr;
      (split; [done|left; apply anonymous_env]).
  - intros p He Hent Hhost. apply safe_only; [apply monotone_script|]. apply only_embed, only_checkout; [by intros R []| |].
    + intros argv past [Hr _]. split; [done|left; apply anonymous_env].
    + intros argv Hc past [Hr Hp]. split; [done|]. right. exists url. split; [|done]. split; [exists p; split; [apply overlaid_env|done]|done].
Qed.

(** The credential is resolved before anything else is asked for. *)
Lemma guarded_preflight past file :
  guarded permitted past (preflight_enterprise_source_credential m (enterprise_resolver file))
    (fun past' r => match r with Ok _ => ready past' | Err _ => True end).
Proof.
  unfold preflight_enterprise_source_credential. destruct (is_enterprise m) eqn:He; cbn [negb].
  2:{ apply guarded_Ret. intros He'. congruence. }
  apply guarded_bind, guarded_lift. cbn.
  apply (guarded_askpass past file _ (fun r past' => match r with Ok _ => ready past' | Err _ => True end)); [done|done| |done].
  intros new p Hp. apply guarded_Ret. intros l _. exists p. by apply script_at_app.
Qed.
End Permitted.
