(* ===== verification/ManifestCommandFacts.v ===== *)
(** * Properties of the manifest commands

    The commands over every behaviour of git, SOPS, the file system and the adapters: where the
    Enterprise credential can go, what a lock file holds, and what an onboarded project has
    passed before its backend is run. *)

From stdpp Require Import pretty.
From S2P Require Import Prelude Effects Values Json Paths Schema Urls Composition Lock Docker Backend DockerBackend Workspace Projection Catalogs Cli GitSource Credentials ModuleDeps ManifestCommands CredentialFacts Samples.

(** ** The commands keep to the rules of the credential *)

(** Calls that neither start a process nor write a file. *)
Definition harmless (R : Type) (e : cli_op R) : Prop :=
  match e with Process _ _ _ | WriteText _ _ => False | OnWorkspace (Git _ _) => False | _ => True end.
Lemma harmless_permitted m past R (e : cli_op R) : harmless R e -> permitted m past R e.
Proof. destruct e as [| | | | | | | | | | | |? []| | | | |]; done. Qed.
Lemma safe_harmless m I {A : Type} (p : cli_prog A) : monotone I -> only harmless p -> safe m I p.
Proof. intros HI Hp. apply safe_only; [done|]. eapply only_impl; [|exact Hp]. intros R e He past _. by apply harmless_permitted. Qed.
Lemma harmless_write m I tmp : monotone I -> (forall past, I past -> exists dir a b, Event (MakeTempFile (Some dir) a b) (Ok tmp) ∈ past) ->
  forall content lock_path, safe m I (catch (call (WriteText tmp content) ;* call (ReplaceFile tmp lock_path))
    (fun e => if is_os_error e then call (UnlinkFile tmp) ;* Raise e else Raise e)).
Proof. intros HI Hmade content lock_path. apply safe_only; [done|]. solve_only. intros past Hpast. right. by apply Hmade. Qed.
Lemma safe_write_lock m lock_path content : safe m (ready m) (write_lock_atomic lock_path content).
Proof.
  intros past Hpast. unfold write_lock_atomic. apply guarded_bind_call; [done| |done]. intros tmp.
  set (I := fun past : history => exists dir a b, Event (MakeTempFile (Some dir) a b) (Ok tmp) ∈ past).
  assert (HI : monotone I) by (intros past' new (dir & a & b & Hin); exists dir, a, b; set_solver).
  assert (Hnow : I (past ++ [Event (MakeTempFile (Some (Workspace.parent lock_path)) ("." +:+ path_name lock_path +:+ ".") ".tmp") (Ok tmp)])).
  { eexists _, _, _. apply elem_of_app. right. by left. }
  exact (harmless_write m I tmp HI (fun _ H => H) content lock_path _ Hnow).
Qed.
Lemma safe_serve_lock s m file bound R (e : lock_op R) :
  bind_enterprise_provider m = Ok bound -> safe m (ready m) (serve_lock s (enterprise_resolver file) bound R e).
Proof.
  intros Hb. destruct e; cbn [serve_lock].
  - apply safe_bound_request; [done|]. apply keeps_resolve_ref.
  - apply safe_harmless; [apply monotone_ready|by apply only_call].
Qed.
Lemma safe_serve_projection s m file bound R (e : Projection.workspace_op R) :
  bind_enterprise_provider m = Ok bound -> safe m (ready m) (serve_projection s m (enterprise_resolver file) bound R e).
Proof. intros Hb. destruct e. cbn [serve_projection]. apply (safe_bound_request m file bound url (fun overlay => embed _ _)); [done|apply keeps_checkout]. Qed.
Lemma only_scan (f : forall R, Workspace.workspace_op R -> Prop) environ timeout roots :
  (forall R (e : Workspace.workspace_op R), match e with Git _ _ => True | _ => f R e end) ->
  (forall argv, f _ (Git argv (run_env environ None))) -> only f (scan environ timeout roots).
Proof.
  intros Ho Hn. pose proof (fun p => Ho _ (Workspace.PathExists p)) as H1. pose proof (fun p => Ho _ (WalkTree p)) as H2. cbn in *.
  assert (Hrepo : forall p, only f (scan_repo environ timeout p)).
  { intros p. unfold scan_repo. solve_only; apply only_git_env, Hn. }
  assert (Hwalk : forall t p, only f (walk environ timeout p t)).
  { fix IH 1. intros [subs] p. cbn [walk]. apply only_bind; [by apply only_call|]. intros [].
    - apply only_bind; [done|]. intros r. exact I.
    - induction subs as [|[name sub] subs IHs]; [exact I|]. apply only_bind; [apply IH|]. intros here.
      apply only_bind; [exact IHs|]. intros rest. exact I. }
  induction roots as [|root roots IH]; [exact I|]. cbn [scan]. apply only_bind; [by apply only_call|]. intros []; [|done].
  apply only_bind; [unfold scan_root; solve_only; auto|]. intros here. solve_only; auto.
Qed.
Lemma safe_scan s m roots : safe m (ready m) (scan_mounts s m roots).
Proof.
  apply safe_only; [apply monotone_ready|]. apply only_embed, only_scan; [by intros R []|]. intros argv past Hr. split; [done|]. left. apply anonymous_env.
Qed.
(** The parts of a command that keep clear of the credential. *)
Lemma only_naming (f : forall R, cli_op R -> Prop) other_text {A} what p (e : cli_op A) : f _ e -> only f (naming other_text what p e).
Proof. intros H. unfold naming. solve_only. Qed.
(** Indexing the add-on roots only looks at directories and reads manifests. *)
Definition looks (R : Type) (e : cli_op R) : Prop := match e with IsDir _ | IsFile _ | ListDir _ | ReadText _ => True | _ => False end.
Lemma only_index literal_eval malformed_text other_text roots : only looks (build_module_index literal_eval malformed_text other_text roots).
Proof.
  unfold build_module_index. generalize (@nil (string * OdooModule)) as index. induction roots as [|root roots IH]; intros index; [exact I|].
  cbn [index_roots]. apply only_bind; [by apply only_naming|]. intros [|]; cbn [negb]; [|apply IH].
  apply only_bind; [by apply only_naming|]. intros names. apply only_bind; [|intros ?; apply IH].
  generalize (sorted_str names) as l. clear names. intros l. revert index. induction l as [|name l IHl]; intros index; [exact I|].
  cbn [index_entries]. apply only_bind; [|intros ?; apply IHl].
  unfold index_entry. apply only_bind; [by apply only_naming|]. intros [|]; cbn [negb]; [|exact I].
  apply only_bind; [by apply only_naming|]. intros [|]; cbn [negb]; [|exact I]. destruct (bool_decide _); [exact I|].
  apply only_bind; [by apply only_naming|]. intros text. solve_only.
Qed.
Lemma only_index_impl (f : forall R, cli_op R -> Prop) literal_eval malformed_text other_text roots :
  (forall R e, looks R e -> f R e) -> only f (build_module_index literal_eval malformed_text other_text roots).
Proof. intros Hf. eapply only_impl; [exact Hf|apply only_index]. Qed.
Lemma harmless_index literal_eval malformed_text other_text roots : only harmless (build_module_index literal_eval malformed_text other_text roots).
Proof. apply only_index_impl. by intros R []. Qed.
Lemma harmless_check literal_eval malformed_text other_text m base : only harmless (check_module_dependencies literal_eval malformed_text other_text m base).
Proof. unfold check_module_dependencies. solve_only. apply harmless_index. Qed.
Lemma harmless_load_lock other_text p : only harmless (load_lock other_text p).
Proof. unfold load_lock. solve_only. Qed.
Lemma harmless_require_lock other_text p : only harmless (require_lock other_text p).
Proof. unfold require_lock. solve_only. apply harmless_load_lock. Qed.
Lemma harmless_read safe_load yaml_error other_text p : only harmless (read_manifest_data safe_load yaml_error other_text p).
Proof. unfold read_manifest_data. solve_only. Qed.
Lemma harmless_say lines : only harmless (say lines).
Proof. apply only_for_each. intros line _. by apply only_call. Qed.
Lemma harmless_fail line : only harmless (fail line).
Proof. unfold fail. solve_only. Qed.
Lemma only_backend {A} (p : backend_prog A) : only harmless (embed (@OnBackend) p).
Proof. apply only_embed. eapply only_impl; [|apply only_all]. done. Qed.
#[local] Hint Resolve harmless_index harmless_check harmless_load_lock harmless_require_lock harmless_read harmless_say harmless_fail only_backend : only.

(** After the binding to the Enterprise URL of an allowed host. *)
Lemma safe_binding {A : Type} m (k : option string -> cli_prog A) :
  (forall bound, bind_enterprise_provider m = Ok bound -> safe m (ready m) (k bound)) ->
  safe m (ready m) (bind (lift (bind_enterprise_provider m)) k).
Proof. intros Hk past Hpast. destruct (bind_enterprise_provider m) as [bound|x]; [|done]. rewrite lift_bind_Ok. by apply Hk. Qed.

(** Every program of the command line makes scripts through [askpass_env] only. *)
Lemma tidies_index literal_eval malformed_text other_text roots : tidies (build_module_index literal_eval malformed_text other_text roots).
Proof. apply tidies_only, only_index_impl. by intros R []. Qed.
Lemma tidies_check literal_eval malformed_text other_text m base : tidies (check_module_dependencies literal_eval malformed_text other_text m base).
Proof. pose proof tidies_index. unfold check_module_dependencies. solve_tidies. Qed.
Lemma tidies_require_lock other_text p : tidies (require_lock other_text p).
Proof. unfold require_lock, load_lock. solve_tidies. Qed.
Lemma tidies_bound {A : Type} file bound url (request : option (gmap string string) -> cli_prog A) :
  (forall overlay, tidies (request overlay)) -> tidies (bound_request (enterprise_resolver file) bound url request).
Proof. intros H. unfold bound_request. solve_tidies; apply H. Qed.
Lemma tidies_serve_lock s file bound R (e : lock_op R) : tidies (serve_lock s (enterprise_resolver file) bound R e).
Proof. destruct e; cbn [serve_lock]; [|solve_tidies]. apply tidies_bound. intros overlay. apply tidies_resolve_ref. Qed.
Lemma tidies_embed {A} (p : Workspace.workspace_prog A) : tidies (embed (@OnWorkspace) p).
Proof. apply tidies_only, only_embed. eapply only_impl; [|apply only_all]. done. Qed.
Lemma tidies_embed_backend {A} (p : backend_prog A) : tidies (embed (@OnBackend) p).
Proof. apply tidies_only, only_embed. eapply only_impl; [|apply only_all]. done. Qed.
Lemma tidies_serve_projection s m file bound R (e : Projection.workspace_op R) : tidies (serve_projection s m (enterprise_resolver file) bound R e).
Proof. destruct e. cbn [serve_projection]. apply (tidies_bound file bound url (fun overlay => embed _ _)). intros overlay. apply tidies_embed. Qed.
Lemma tidies_scan s m roots : tidies (scan_mounts s m roots).
Proof. apply tidies_embed. Qed.
Lemma tidies_preflight m file : tidies (preflight_enterprise_source_credential m (enterprise_resolver file)).
Proof. unfold preflight_enterprise_source_credential. solve_tidies. Qed.
Lemma tidies_write_lock p content : tidies (write_lock_atomic p content).
Proof. unfold write_lock_atomic. solve_tidies. Qed.
Lemma tidies_say lines : tidies (say lines).
Proof. unfold say. solve_tidies. Qed.
#[local] Hint Resolve tidies_resolver tidies_resolve_ref tidies_check tidies_require_lock tidies_serve_lock tidies_embed tidies_embed_backend
  tidies_serve_projection tidies_scan tidies_preflight tidies_write_lock tidies_say : tidies.

Ltac safe_step :=
  match goal with
  | |- safe ?m _ (bind (lift (bind_enterprise_provider ?m)) _) => apply safe_binding; intros ? ?
  | |- safe _ _ (lift _) => apply keeping_lift
  | |- safe ?m _ (interp (serve_lock _ _ _) _) => apply (safe_interp m); [apply monotone_ready|intros ? ?; by apply safe_serve_lock]
  | |- safe ?m _ (interp (serve_projection _ _ _ _) _) => apply (safe_interp m); [apply monotone_ready|intros ? ?; by apply safe_serve_projection]
  | |- safe _ _ (scan_mounts _ _ _) => apply safe_scan
  | |- safe _ _ (write_lock_atomic _ _) => apply safe_write_lock
  | |- safe _ _ (bind _ _) => apply keeping_bind; [apply monotone_ready| |intros ?]
  | |- safe _ _ (match ?x with _ => _ end) => destruct x
  | |- safe _ _ _ => apply safe_harmless; [apply monotone_ready|solve [solve_only]]
  end.

Section Confinement.
Variable s : surroundings.
Variable sha256 : string -> string.
Variables (safe_load : string -> option json) (yaml_error : string -> string).
Variables (decode : json -> result (list string) Manifest) (validator_text : exn -> string).
Variables (literal_eval : string -> option json) (malformed_text : string -> string) (other_text : exn -> string).
Variables (details_text : failure_details -> string) (catalog_text : catalog_error -> string).
Variable run_backend : BackendPlan -> backend_prog InstanceRef.

Abbreviation is_manifest m := (exists data, model_validate decode validator_text data = Ok m).
Abbreviation lock_command := (lock s sha256 safe_load yaml_error decode validator_text other_text).
Abbreviation onboard_command :=
  (onboard s sha256 safe_load yaml_error decode validator_text literal_eval malformed_text other_text details_text catalog_text run_backend).
Abbreviation onboarding := (onboard_workspace s sha256 literal_eval malformed_text other_text).
Abbreviation with_read_manifest := (with_manifest safe_load yaml_error decode validator_text other_text).

(** What a command may call: the manifest that justifies it is one it has read. *)
Definition confined (past : history) (R : Type) (e : cli_op R) : Prop :=
  harmless R e \/ exists m, is_manifest m /\ permitted m past R e.

Lemma confined_harmless {A : Type} past (p : cli_prog A) : only harmless p -> guarded confined past p (fun _ _ => True).
Proof. intros Hp. eapply guarded_only; [|exact Hp|done]. intros h R e He. by left. Qed.


(** What follows a resolved credential is judged by [safe]. *)
Lemma after_preflight {A : Type} m past file (k : cli_prog A) :
  safe m (ready m) k -> guarded (permitted m) past (preflight_enterprise_source_credential m (enterprise_resolver file) ;* k) (fun _ _ => True).
Proof. intros Hk. apply guarded_bind. eapply guarded_mono; [|apply guarded_preflight]. intros new [[]|x] Hr; [by apply Hk|done]. Qed.
Lemma guarded_lock_main manifest m past : guarded (permitted m) past (lock_main s sha256 manifest m) (fun _ _ => True).
Proof.
  unfold lock_main. apply guarded_bind_call; [done| |done]. intros resolved. apply after_preflight. repeat safe_step.
Qed.
Lemma guarded_onboarding manifest m past : guarded (permitted m) past (onboarding manifest m) (fun _ _ => True).
Proof.
  unfold onboard_workspace. apply guarded_bind_call; [done| |done]. intros resolved. apply after_preflight. repeat safe_step.
Qed.

Lemma tidies_lock_main manifest m : tidies (lock_main s sha256 manifest m).
Proof. unfold lock_main. solve_tidies. Qed.
Lemma tidies_onboarding manifest m : tidies (onboarding manifest m).
Proof. unfold onboard_workspace. solve_tidies. Qed.
Lemma tidies_main main handled : tidies main -> tidies (guarded_main main handled).
Proof. intros H. unfold guarded_main, fail. solve_tidies. Qed.
Lemma tidies_with_manifest manifest k : (forall m, tidies (k m)) -> tidies (with_read_manifest manifest k).
Proof. intros H. unfold with_manifest, read_manifest_data, fail. solve_tidies; apply H. Qed.

(** ** The frame of a command *)

Lemma confined_permitted m past R (e : cli_op R) : is_manifest m -> permitted m past R e -> confined past R e.
Proof. intros Hm He. right. eauto. Qed.
Lemma guarded_main_confined past main handled :
  guarded confined past main (fun _ _ => True) -> guarded confined past (guarded_main main handled) (fun _ _ => True).
Proof.
  intros H. unfold guarded_main. apply guarded_bind, guarded_attempt. eapply guarded_mono; [|exact H].
  intros new [lines|x] _; apply confined_harmless; [solve_only|]. destruct (handled x); solve_only.
Qed.
Lemma guarded_with_manifest past manifest k :
  (forall past' m, is_manifest m -> guarded confined past' (k m) (fun _ _ => True)) ->
  guarded confined past (with_read_manifest manifest k) (fun _ _ => True).
Proof.
  intros Hk. unfold with_manifest. apply guarded_bind, guarded_attempt. eapply guarded_mono; [|apply confined_harmless, harmless_read].
  intros new [data|x] _; [|apply confined_harmless; solve_only].
  destruct (model_validate decode validator_text data) as [m|lines] eqn:E; [apply Hk; eauto|].
  apply confined_harmless. apply only_bind; [|by intros]. apply only_for_each. intros line _. by apply only_call.
Qed.
Lemma permitted_main {A} m past (p : cli_prog A) : is_manifest m -> guarded (permitted m) past p (fun _ _ => True) -> guarded confined past p (fun _ _ => True).
Proof. intros Hm. apply guarded_weaken. intros h R e. by apply confined_permitted. Qed.
Lemma only_over_catalog {A} (p : catalog_prog A) : only harmless (over_catalog p).
Proof.
  induction p as [a|x|R e k IH]; [exact I..|]. cbn [over_catalog]. apply only_bind; [|intros r; apply IH].
  destruct e. cbn [serve_catalog]. solve_only.
Qed.

(** ** The commands *)

Lemma lock_confined manifest : guarded confined [] (lock_command manifest) (fun _ _ => True) /\ tidies (lock_command manifest).
Proof.
  split.
  - unfold lock. apply guarded_with_manifest. intros past m Hm. eapply guarded_main_confined, permitted_main, guarded_lock_main. exact Hm.
  - unfold lock. apply tidies_with_manifest. intros m. apply tidies_main, tidies_lock_main.
Qed.
Lemma onboard_manifest_confined past manifest :
  guarded confined past (onboard_manifest_mode s sha256 safe_load yaml_error decode validator_text literal_eval malformed_text other_text manifest) (fun _ _ => True).
Proof.
  unfold onboard_manifest_mode. apply guarded_with_manifest. intros past' m Hm. eapply guarded_main_confined, permitted_main; [exact Hm|].
  unfold onboard_manifest_main. apply guarded_bind. eapply guarded_mono; [|apply guarded_onboarding]. intros new [[[[[? ?] ?] ?] ?]|x] _; done.
Qed.
Lemma guarded_catalog_main manifest m past : guarded (permitted m) past
  (onboard_catalog_main s sha256 literal_eval malformed_text other_text run_backend manifest m) (fun _ _ => True).
Proof.
  unfold onboard_catalog_main. apply guarded_bind. eapply guarded_mono; [|apply guarded_onboarding].
  intros new [[[[[lk roots] plan] scanned] state]|x] _; [|done].
  eapply (guarded_only _ harmless); [by intros; apply harmless_permitted| |done]. solve_only.
Qed.
Lemma onboard_catalog_confined past client :
  guarded confined past (onboard_catalog_mode s sha256 safe_load yaml_error decode validator_text literal_eval malformed_text other_text
    details_text catalog_text run_backend client) (fun _ _ => True).
Proof.
  unfold onboard_catalog_mode. apply guarded_bind. eapply guarded_mono; [|apply confined_harmless, only_over_catalog].
  intros new [[[result|type fp details]|e]|x] _; [|apply confined_harmless; solve_only|destruct e; apply confined_harmless; solve_only|done].
  apply guarded_with_manifest. intros past' m Hm. eapply guarded_main_confined, permitted_main, guarded_catalog_main. exact Hm.
Qed.
Lemma tidies_onboard client manifest : tidies (onboard_command client manifest).
Proof.
  pose proof tidies_onboarding as Ho.
  assert (Hm : forall manifest', tidies (onboard_manifest_mode s sha256 safe_load yaml_error decode validator_text literal_eval malformed_text other_text manifest')).
  { intros manifest'. apply tidies_with_manifest. intros m. apply tidies_main. unfold onboard_manifest_main.
    apply tidies_bind; [apply Ho|]. intros [[[[? ?] ?] ?] ?]. solve_tidies. }
  unfold onboard. destruct client as [client|], manifest as [manifest|]; [solve_tidies| |apply Hm|unfold fail; solve_tidies].
  - unfold fail. solve_tidies.
  - unfold onboard_catalog_mode. apply tidies_bind.
    { apply tidies_only. generalize (resolve (find_matches safe_load) (mkProjectCatalogRequest (Some client) None None None)). intros p.
      induction p as [a|x|R e k IH]; [exact I..|]. cbn [over_catalog]. apply only_bind; [|intros r; apply IH]. destruct e. cbn [serve_catalog]. solve_only. }
    intros [[result|type fp details]|e]; [|unfold fail; solve_tidies..].
    apply tidies_with_manifest. intros m. apply tidies_main. unfold onboard_catalog_main. apply tidies_bind; [apply Ho|].
    intros [[[[lk roots] plan] scanned] state]. solve_tidies. eapply only_impl; [|apply only_all]. done.
Qed.

(** C5. The Enterprise credential stays where it belongs, whatever git, SOPS, the file system and
    the backend answer to [forge lock] and [forge onboard].  Each askpass script is removed after
    it was made, however the work in between ends; the secret is written only to a script that was
    made private first; SOPS is asked only for an Enterprise manifest; git and the workspace start
    only after that credential was resolved; and a git process is pointed at a script only to list
    or clone the manifest's Enterprise URL, whose host is github.com. *)
Theorem enterprise_credential_is_confined command tr o :
  (exists manifest, command = lock_command manifest) \/ (exists client manifest, command = onboard_command client manifest) ->
  runs command tr o ->
  tidy tr /\ forall tr1 R (e : cli_op R) r tr2, tr = tr1 ++ Event e r :: tr2 -> confined tr1 R e.
Proof.
  intros Hc H. assert (Hg : guarded confined [] command (fun _ _ => True) /\ tidies command).
  { destruct Hc as [[manifest ->]|(client & manifest & ->)]; [apply lock_confined|]. split; [|apply tidies_onboard].
    unfold onboard. destruct client as [client|], manifest as [manifest|];
      [apply confined_harmless, harmless_fail|apply onboard_catalog_confined|apply onboard_manifest_confined|apply confined_harmless, harmless_fail]. }
  destruct Hg as [Hg Ht]. split; [by eapply Ht|]. intros tr1 R e r tr2 ->.
  exact (proj2 (guarded_runs confined [] _ _ _ _ Hg H) tr1 R e r tr2 eq_refl).
Qed.
End Confinement.

(** ** Locking the sample project *)

Definition sample_commit : string := "0123456789abcdef0123456789abcdef01234567".
Definition sample_answers (printed : string) : handler (E := cli_op) (X := exn) unit :=
  fun R e => match e in cli_op R return unit -> result exn R * unit with
             | Process argv _ _ => fun w => (Ok (0%Z, if bool_decide (head argv = Some "sops") then "s3cret" else printed, ""), w)
             | ReadText _ => fun w => (Ok "", w)
             | FileExists _ | IsDir _ | IsFile _ => fun w => (Ok false, w)
             | Resolve p => fun w => (Ok p, w)
             | MakeTempFile _ prefix suffix => fun w => (Ok (path_of ("/tmp/" +:+ prefix +:+ "1" +:+ suffix)), w)
             | Remembered => fun w => (Ok None, w)
             | PublishedArtifact source version => fun w => (Ok (mkResolution source version sample_digest), w)
             | OnWorkspace _ | OnBackend _ => fun w => (Err (PortError "not asked"), w)
             | ListDir _ => fun w => (Ok [], w)
             | Fchmod _ _ | WriteText _ _ | ReplaceFile _ _ | UnlinkFile _ | Remember _ | Echo _ _ => fun w => (Ok tt, w)
             end.
Definition sample_surroundings : surroundings := mkSurroundings ∅ (path_of "/home/dev") path_of "30" (fun _ => "600").
Definition no_text (e : exn) : string := "".
Definition sample_lock_command (m : Manifest) : cli_prog Z :=
  lock sample_surroundings sample_sha256 (fun _ => Some JNull) (fun _ => "") (fun _ => Ok m) no_text no_text (path_of "project.yaml").
Definition sample_lock_run (m : Manifest) := exec (sample_answers (sample_commit +:+ str [ascii_of_nat 9] +:+ "refs/heads/17.0")) (sample_lock_command m) tt.

Lemma enterprise_credential_is_confined_witness :
  (sample_lock_run sample_manifest).1.1 = Ok 0%Z /\ tidy (sample_lock_run sample_manifest).1.2.
Proof.
  split; [vm_compute; reflexivity|].
  refine (proj1 (enterprise_credential_is_confined sample_surroundings sample_sha256 (fun _ => Some JNull) (fun _ => "") (fun _ => Ok sample_manifest)
    no_text (fun _ => None) (fun _ => "") no_text (fun _ => "") (fun _ => "") (fun _ => Raise AssertionError)
    (sample_lock_command sample_manifest) _ (sample_lock_run sample_manifest).1.1 _ _)).
  - left. by exists (path_of "project.yaml").
  - apply exec_runs.
Defined.

(** The host is judged only after the credential was decrypted and written to a script: SOPS has
    run, and a private script was filled, before a foreign Enterprise URL is refused. *)
Definition foreign_manifest : Manifest := mkManifest
  "acme" "17.0" Enterprise default_core (Some (mkEnterpriseLayer "https://evil.example/enterprise.git" None))
  [] (mkClient (path_of "addons") None) [] None None [].
Definition wrote_script (ev : event cli_op exn) : bool :=
  match ev with Event e _ => match e with WriteText _ text => bool_decide (text = askpass_script "s3cret") | _ => false end end.
Example foreign_host_is_refused_late :
  (sample_lock_run foreign_manifest).1.1 = Ok 1%Z /\ existsb wrote_script (sample_lock_run foreign_manifest).1.2 = true.
Proof. split; vm_compute; reflexivity. Qed.
