(* ===== verification/LockCommandFacts.v ===== *)
(** * What [forge lock] writes

    From the manifest on disk to the lock file, over git, SOPS and the registry: every commit of
    a written lock was printed by git for its repository, and the file is replaced whole or not
    at all. *)

From stdpp Require Import pretty.
From S2P Require Import Prelude Effects Regex Values Json Paths Schema Urls Composition Lock Docker Backend DockerBackend Workspace Projection LockFacts Cli GitSource Credentials ModuleDeps ManifestCommands CredentialFacts Samples ManifestCommandFacts.

(** ** What the source adapter answers *)

(** The commit of [ref] at [url]: the reference itself when it is a full hash, else the one git
    printed for it. *)
Definition commit_evidence (past : history) (url ref commit : string) : Prop :=
  (fullmatch BARE_SHA ref = true /\ commit = ref) \/
  exists env timeout out err, Event (Process (ls_remote_argv url ref) env timeout) (Ok (0%Z, out, err)) ∈ past /\
    strip out <> "" /\ select_sha (strip out) ref = Ok commit.
Lemma commit_evidence_mono past past' url ref commit :
  (forall ev, ev ∈ past -> ev ∈ past') -> commit_evidence past url ref commit -> commit_evidence past' url ref commit.
Proof. intros H [Hb|(env & t & out & err & Hin & Hs)]; [by left|]. right. exists env, t, out, err. auto. Qed.

Lemma resolve_ref_Ok environ timeout url ref overlay tr commit :
  runs (resolve_ref environ timeout url ref overlay) tr (Ok commit) -> commit_evidence tr url ref commit.
Proof.
  unfold resolve_ref. destruct (fullmatch BARE_SHA ref) eqn:Eb; [intros [-> [= ->]]%runs_Ret; by left|].
  intros [(tr1 & tr2 & [[code out] err] & -> & H & H2)|(x & [=] & _)]%runs_bind.
  apply runs_catch in H as [(a & [= <-] & H%runs_call)|(t1 & t2 & x & -> & _ & H)].
  2:{ destruct x; repeat case_match; by apply runs_Raise in H as [_ [=]]. }
  right. exists (Some (run_env environ overlay)), (Some timeout), out, err. subst tr1.
  destruct (Z.eqb_spec code 0) as [->|Hc]; cbn [negb] in H2.
  - case_bool_decide as He; [by apply runs_Raise in H2 as [_ [=]]|]. apply runs_lift in H2 as [-> H2]. split; [by left|]. done.
  - destruct (existsb _ _); [by apply runs_Raise in H2 as [_ [=]]|]. destruct (missing_remote_ref _); by apply runs_Raise in H2 as [_ [=]].
Qed.
Lemma askpass_Ok {A : Type} d resolver (body : gmap string string -> cli_prog A) tr a :
  runs (askpass_env d resolver body) tr (Ok a) -> exists overlay tr', runs (body overlay) tr' (Ok a) /\ forall ev, ev ∈ tr' -> ev ∈ tr.
Proof.
  unfold askpass_env. intros [(t1 & t2 & value & -> & _ & H)|(x & [=] & _)]%runs_bind.
  apply runs_bind_call in H as ([script|x] & t3 & -> & Hb); [|by destruct Hb].
  apply finally_Ok in Hb as (t4 & t5 & -> & Hf & _).
  apply runs_bind_call in Hf as ([[]|x] & t6 & -> & Hw); [|by destruct Hw]. apply runs_bind_call in Hw as ([[]|x] & t7 & -> & Ha); [|by destruct Ha].
  exists (askpass_overlay script), t7. split; [done|]. intros ev Hin. apply elem_of_app. right. set_solver.
Qed.
Lemma bound_resolve_Ok environ timeout resolver bound url ref tr commit :
  runs (bound_resolve_ref environ timeout resolver bound url ref) tr (Ok commit) -> commit_evidence tr url ref commit.
Proof.
  unfold bound_resolve_ref, bound_request. destruct bound as [u|]; [|apply resolve_ref_Ok]. case_bool_decide; [|apply resolve_ref_Ok].
  intros [(t1 & t2 & d & -> & [-> Hd]%runs_lift & Ha)|(x & [=] & _)]%runs_bind.
  apply askpass_Ok in Ha as (overlay & tr' & Hev%resolve_ref_Ok & Hin). by eapply commit_evidence_mono.
Qed.

(** ** What a lock pins *)

Definition pins (client : list (event lock_op exn)) (git : list ResolvedGitLayer) (pub : list ResolvedPublishedLayer) : Prop :=
  (forall l r, l ∈ git -> r ∈ rl_repos l -> Event (ResolveRef (rr_url r) (rr_ref r)) (Ok (rr_commit r)) ∈ client) /\
  (forall p, p ∈ pub -> sha256_digest (rp_digest p) = true /\
     exists source version, Event (ResolveArtifact source version) (Ok (mkResolution (rp_source p) (rp_version p) (rp_digest p))) ∈ client).
Lemma pins_weaken client client' git pub : (forall ev, ev ∈ client -> ev ∈ client') -> pins client git pub -> pins client' git pub.
Proof. intros H [Hg Hp]. split; [eauto|]. intros p (Hd & source & version & Hin)%Hp. eauto. Qed.
Lemma pins_git client git pub l : pins client git pub ->
  (forall r, r ∈ rl_repos l -> Event (ResolveRef (rr_url r) (rr_ref r)) (Ok (rr_commit r)) ∈ client) -> pins client (git ++ [l]) pub.
Proof. intros [Hg Hp] Hl. split; [|done]. intros l' r [Hin|Hin%list_elem_of_singleton]%elem_of_app; [eauto|]. subst. apply Hl. Qed.

Lemma resolve_repos_pins ov layer rs tr l : runs (map_each (resolve_repo ov layer) rs) tr (Ok l) ->
  forall r, r ∈ l -> Event (ResolveRef (rr_url r) (rr_ref r)) (Ok (rr_commit r)) ∈ tr.
Proof.
  revert tr l. induction rs as [|g rs IH]; intros tr l; cbn [map_each].
  - intros [-> [= ->]]%runs_Ret. set_solver.
  - intros [(t1 & t2 & r & -> & Hr & [(t3 & t4 & rest & -> & H & [-> [= ->]]%runs_Ret)|(x & [=] & _)]%runs_bind)|(x & [=] & _)]%runs_bind.
    unfold resolve_repo in Hr. destruct (effective_repo ov layer g) as [url ref].
    apply runs_bind_call in Hr as ([commit|x] & t5 & -> & Hr); [apply runs_Ret in Hr as [-> [= ->]]|by destruct Hr].
    intros r' [->|Hin]%elem_of_cons; [by left|]. apply elem_of_app. right. apply elem_of_app. left. by eapply IH.
Qed.
Lemma resolve_layers_pins ov ls git pub tr git' pub' client :
  runs (resolve_layers ov ls git pub) tr (Ok (git', pub')) -> pins client git pub -> pins (client ++ tr) git' pub'.
Proof.
  revert git pub tr client. induction ls as [|[p|g] ls IH]; intros git pub tr client; cbn [resolve_layers].
  - intros [-> [= -> ->]]%runs_Ret. by rewrite app_nil_r.
  - intros H Hp. apply runs_bind_call in H as ([res|x] & t1 & -> & H); [|by destruct H].
    apply runs_bind in H as [(t2 & t3 & l & -> & [-> Hl]%runs_lift & H)|(x & [=] & _)]. cbn [app] in *.
    change (client ++ Event (ResolveArtifact (pub_source p) (pub_version p)) (Ok res) :: t3)
      with (client ++ [Event (ResolveArtifact (pub_source p) (pub_version p)) (Ok res)] ++ t3).
    rewrite app_assoc. eapply IH; [exact H|]. symmetry in Hl. unfold resolved_published_layer in Hl.
    apply result_bind_Ok in Hl as ([] & Hd%ensure_Ok & [= <-]). destruct Hp as [Hg Hpub]. split.
    + intros l r Hl Hr. apply elem_of_app. left. by eapply Hg.
    + intros q [Hin|Hin%list_elem_of_singleton]%elem_of_app.
      * destruct (Hpub q Hin) as (Hq & source & version & Hev). split; [done|]. exists source, version. apply elem_of_app. by left.
      * subst q. cbn. split; [done|]. exists (pub_source p), (pub_version p). destruct res. apply elem_of_app. right. by left.
  - intros H Hp. apply runs_bind in H as [(t1 & t2 & l & -> & Hl & H)|(x & [=] & _)]. rewrite app_assoc. eapply IH; [exact H|].
    unfold resolve_git_layer in Hl. apply runs_bind in Hl as [(t3 & t4 & repos & -> & Hr & [-> [= ->]]%runs_Ret)|(x & [=] & _)].
    rewrite app_nil_r. apply pins_git; [eapply pins_weaken; [|exact Hp]; set_solver|]. cbn. intros r Hin. apply elem_of_app. right. by eapply resolve_repos_pins.
Qed.
Lemma build_lock_pins sha256 m client lk : runs (build_lock sha256 m) client (Ok lk) ->
  lk_schema_version lk = 2%Z /\ lk_generated_from lk = compute_manifest_hash sha256 m /\ pins client (lk_git_layers lk) (lk_published_layers lk).
Proof.
  unfold build_lock. intros [(t1 & t2 & c & -> & [-> _]%runs_lift & H)|(x & [=] & _)]%runs_bind.
  apply runs_bind in H as [(t3 & t4 & core & -> & Hc & H)|(x & [=] & _)]. apply runs_bind in H as [(t5 & t6 & ent & -> & He & H)|(x & [=] & _)].
  apply runs_bind in H as [(t7 & t8 & [git pub] & -> & Hl & [-> [= ->]]%runs_Ret)|(x & [=] & _)]. cbn. split; [done|]. split; [done|].
  rewrite app_nil_r. cbn [app]. rewrite app_assoc. eapply resolve_layers_pins; [exact Hl|].
  split; [|set_solver]. intros l r [->|Hl']%elem_of_cons Hr; apply elem_of_app.
  - left. unfold resolve_core in Hc. apply runs_bind_call in Hc as ([commit|x] & t9 & -> & Hc); [|by destruct Hc].
    apply runs_Ret in Hc as [-> [= ->]]. apply list_elem_of_singleton in Hr as ->. by left.
  - right. destruct (m_enterprise m) as [e|]; [|apply runs_Ret in He as [-> [= ->]]; set_solver].
    apply runs_bind in He as [(ta & tb & l1 & -> & He & [-> [= ->]]%runs_Ret)|(x & [=] & _)]. apply list_elem_of_singleton in Hl' as ->.
    unfold resolve_enterprise in He. apply runs_bind_call in He as ([commit|x] & t9 & -> & He); [|by destruct He].
    apply runs_Ret in He as [-> [= ->]]. apply list_elem_of_singleton in Hr as ->. by left.
Qed.

(** ** Calls that replace no file and start no container *)

Definition ordinary (R : Type) (e : cli_op R) : Prop := match e with ReplaceFile _ _ | OnBackend _ => False | _ => True end.
Lemma only_askpass {A : Type} file (body : gmap string string -> cli_prog A) d :
  (forall overlay, only ordinary (body overlay)) -> only ordinary (askpass_env d (enterprise_resolver file) body).
Proof.
  intros Hb. unfold askpass_env, injected, enterprise_resolver, memoizing, sops_resolve. apply only_bind; [solve_only|]. intros v.
  apply only_bind; [by apply only_call|]. intros p. apply only_finally; [|by apply only_call]. solve_only.
Qed.
Lemma only_resolve_ref environ timeout url ref overlay : only ordinary (resolve_ref environ timeout url ref overlay).
Proof. unfold resolve_ref. solve_only. Qed.
Lemma only_serve_lock s file bound R (e : lock_op R) : only ordinary (serve_lock s (enterprise_resolver file) bound R e).
Proof.
  destruct e; cbn [serve_lock]; [|by apply only_call]. unfold bound_resolve_ref, bound_request.
  destruct bound as [u|]; [|apply only_resolve_ref]. destruct (bool_decide _); [|apply only_resolve_ref].
  apply only_bind; [apply only_lift|]. intros d. apply only_askpass. intros overlay. apply only_resolve_ref.
Qed.
Lemma only_interp {E : Type -> Type} (f : forall R, cli_op R -> Prop) (serve : forall R, E R -> cli_prog R) {A : Type} (p : prog E exn A) :
  (forall R e, only f (serve R e)) -> only f (interp serve p).
Proof.
  intros Hs. induction p as [a|x|R e k IH]; [exact I..|].
  change (only f (bind (attempt (serve R e)) (fun r => interp serve (k r)))). apply only_bind; [by apply only_attempt|apply IH].
Qed.


Lemma only_preflight m file :
  only ordinary (preflight_enterprise_source_credential m (enterprise_resolver file)).
Proof.
  unfold preflight_enterprise_source_credential. destruct (negb _); [exact I|]. apply only_bind; [apply only_lift|]. intros d. apply only_askpass. by intros.
Qed.
(** The manifest at [manifest] that a command validated: what it read there, decoded. *)
Definition manifest_read (safe_load : string -> option json) (decode : json -> result (list string) Manifest)
    (validator_text : exn -> string) (manifest : path) (m : Manifest) (past : history) : Prop :=
  exists raw data, Event (ReadText manifest) (Ok raw) ∈ past /\ safe_load raw = Some data /\
    model_validate decode validator_text data = Ok m.
Lemma manifest_read_mono safe_load decode validator_text manifest m past new :
  manifest_read safe_load decode validator_text manifest m past -> manifest_read safe_load decode validator_text manifest m (past ++ new).
Proof. intros (raw & data & Hin & H). exists raw, data. split; [set_solver|done]. Qed.
Lemma read_manifest_reads safe_load yaml_error other_text manifest tr data :
  runs (read_manifest_data safe_load yaml_error other_text manifest) tr (Ok data) ->
  exists raw, Event (ReadText manifest) (Ok raw) ∈ tr /\ safe_load raw = Some data.
Proof.
  unfold read_manifest_data. intros [(t1 & t2 & text & -> & H & H2)|(x & [=] & _)]%runs_bind.
  apply runs_catch in H as [(a & [= <-] & ->%runs_call)|(t3 & t4 & x & -> & _ & Hr%runs_Raise)]; [|by destruct Hr as [_ [=]]].
  exists text. destruct (safe_load text) as [d|]; [|by apply runs_Raise in H2 as [_ [=]]]. apply runs_Ret in H2 as [-> [= ->]]. set_solver.
Qed.

(** ** How many files are replaced *)

Definition is_replacement (R : Type) (e : cli_op R) : bool := match e with ReplaceFile _ _ => true | _ => false end.
Lemma bounded_attempt {E : Type -> Type} {X A : Type} (f : forall R, E R -> bool) n (p : prog E X A) :
  bounded f n p -> bounded f n (attempt p).
Proof.
  revert n. induction p as [a|x|R e k IH]; intros n; [done..|].
  change (attempt (Call e k)) with (Call e (fun r => attempt (k r))). unfold bounded; fold (@bounded E X A); fold (@bounded E X (result X A)).
  destruct (f R e); [destruct n; [done|]|]; intros H r; by apply IH.
Qed.
Lemma bounded_zero {A : Type} (p : cli_prog A) : only ordinary p -> bounded is_replacement 0 p.
Proof. intros H. apply bounded_only. eapply only_impl; [|exact H]. by intros R []. Qed.
Lemma bounded_first {A B : Type} n (p : cli_prog A) (k : A -> cli_prog B) :
  only ordinary p -> (forall a, bounded is_replacement n (k a)) -> bounded is_replacement n (bind p k).
Proof. intros Hp Hk. by apply (bounded_bind _ 0 n); [apply bounded_zero|]. Qed.
Lemma bounded_last {A B : Type} n (p : cli_prog A) (k : A -> cli_prog B) :
  bounded is_replacement n p -> (forall a, only ordinary (k a)) -> bounded is_replacement n (bind p k).
Proof. intros Hp Hk. rewrite <- (Nat.add_0_r n). apply bounded_bind; [done|]. intros a. by apply bounded_zero. Qed.

(** ** The lock file on disk *)

Section Written.
Variable s : surroundings.
Variable sha256 : string -> string.
Variables (safe_load : string -> option json) (yaml_error : string -> string).
Variables (decode : json -> result (list string) Manifest) (validator_text : exn -> string).
Variable other_text : exn -> string.
Variable manifest : path.

Abbreviation target := (lock_beside manifest).
(** Everything the lock [lk] of [m] pins was answered by git or by the registry. *)
Definition pinned (m : Manifest) (lk : Lockfile) (past : history) : Prop :=
  lk_generated_from lk = compute_manifest_hash sha256 m /\
  (forall l r, l ∈ lk_git_layers lk -> r ∈ rl_repos l -> commit_evidence past (rr_url r) (rr_ref r) (rr_commit r)) /\
  (forall p, p ∈ lk_published_layers lk -> exists source version,
     Event (PublishedArtifact source version) (Ok (mkResolution (rp_source p) (rp_version p) (rp_digest p))) ∈ past).
(** An answer the building of the lock received, as the adapters got it. *)
Definition evidenced (past : history) (ev : event lock_op exn) : Prop :=
  match ev with
  | Event e r =>
    match e in lock_op R return result exn R -> Prop with
    | ResolveRef url ref => fun r => match r with Ok commit => commit_evidence past url ref commit | Err _ => True end
    | ResolveArtifact source version => fun r => Event (PublishedArtifact source version) r ∈ past
    end r
  end.
(** [lk] is the lock that [build_lock] makes of [m] from answers in [past]. *)
Definition built (m : Manifest) (lk : Lockfile) (past : history) : Prop :=
  exists client, runs (build_lock sha256 m) client (Ok lk) /\ Forall (evidenced past) client.
Abbreviation read_here := (manifest_read safe_load decode validator_text manifest).
(** A file is replaced only by a text that was just written whole, the text of such a lock. *)
Definition replaces (past : history) (R : Type) (e : cli_op R) : Prop :=
  match e with
  | ReplaceFile src dst => dst = target /\ exists m lk text,
      read_here m past /\ built m lk past /\ pinned m lk past /\
      to_canonical_json lk = Ok text /\ from_json text = Ok lk /\ exists before, past = before ++ [Event (WriteText src text) (Ok tt)]
  | _ => True
  end.
Lemma pinned_mono m lk past past' : (forall ev, ev ∈ past -> ev ∈ past') -> pinned m lk past -> pinned m lk past'.
Proof.
  intros H (Hh & Hg & Hp). split; [done|]. split; [intros l r Hl Hr; eapply commit_evidence_mono; eauto|].
  intros p (source & version & Hin)%Hp. eauto.
Qed.
Lemma built_mono m lk past past' : (forall ev, ev ∈ past -> ev ∈ past') -> built m lk past -> built m lk past'.
Proof.
  intros H (client & Hc & He). exists client. split; [done|]. eapply Forall_impl; [exact He|]. intros [R e r].
  destruct e; cbn; [|auto]. destruct r; [|done]. by apply commit_evidence_mono.
Qed.
Lemma ordinary_replaces past R (e : cli_op R) : ordinary R e -> replaces past R e.
Proof. by destruct e. Qed.
Lemma guarded_ordinary {A : Type} past (p : cli_prog A) Q :
  only ordinary p -> (forall new r, runs p new r -> Q (past ++ new) r) -> guarded replaces past p Q.
Proof. intros Hp. apply (guarded_only replaces ordinary); [|done]. intros h R e. apply ordinary_replaces. Qed.

(** What the composed locking program has seen when it ends in a lock. *)
Lemma locked m file bound tr lk :
  runs (interp (serve_lock s (enterprise_resolver file) bound) (build_lock sha256 m)) tr (Ok lk) -> built m lk tr /\ pinned m lk tr /\ wf_lockfile lk.
Proof.
  intros (client & parts & Hc & -> & Hparts)%runs_interp. split.
  { exists client. split; [done|]. apply Forall_forall. intros [R e r] Hin. destruct (part_of _ _ _ _ _ _ Hparts Hin) as (part & Hrun & Hsub).
    destruct e; cbn [evidenced].
    - destruct r as [commit|x]; [|done]. eapply commit_evidence_mono; [exact Hsub|]. by eapply bound_resolve_Ok.
    - apply runs_call in Hrun. apply Hsub. rewrite Hrun. by left. }
  apply build_lock_pins in Hc as (Hv & Hh & Hg & Hp). split; [split; [done|split]|].
  - intros l r Hl Hr. destruct (part_of _ _ _ _ _ _ Hparts (Hg l r Hl Hr)) as (part & Hrun & Hsub).
    eapply commit_evidence_mono; [exact Hsub|]. by eapply bound_resolve_Ok.
  - intros p Hin. destruct (Hp p Hin) as (_ & source & version & Hev). destruct (part_of _ _ _ _ _ _ Hparts Hev) as (part & Hrun%runs_call & Hsub).
    exists source, version. apply Hsub. rewrite Hrun. by left.
  - split; [by right|congruence|]. intros p Hin. by apply Hp.
Qed.

Definition written (past : history) (r : result exn (list string)) : Prop :=
  match r with Ok _ => exists src, Event (ReplaceFile src target) (Ok tt) ∈ past | Err _ => True end.
Lemma guarded_write past m lk text :
  read_here m past -> built m lk past -> pinned m lk past -> to_canonical_json lk = Ok text -> from_json text = Ok lk ->
  guarded replaces past (write_lock_atomic target text)
    (fun past' r => match r with Ok _ => exists src, Event (ReplaceFile src target) (Ok tt) ∈ past' | Err _ => True end).
Proof using All.
  clear yaml_error other_text s. intros Hm Hb Hp Ht Hf. unfold write_lock_atomic. apply guarded_bind_call; [done| |done]. intros tmp.
  apply guarded_catch, guarded_bind_call; [done| |].
  - intros []. apply guarded_call.
    + split; [done|]. exists m, lk, text. split; [|split; [|split; [|split; [done|split; [done|by eexists]]]]].
      * rewrite <- app_assoc. by apply manifest_read_mono.
      * eapply built_mono; [|exact Hb]. set_solver.
      * eapply pinned_mono; [|exact Hp]. set_solver.
    + intros [[]|x]; [exists tmp; set_solver|]. apply guarded_ordinary; [destruct (is_os_error x); solve_only|]. intros new r Hr.
      destruct r; [|done]. destruct (is_os_error x); [|by apply runs_Raise in Hr as [_ [=]]].
      by apply runs_bind_call in Hr as ([[]|y] & t & -> & Hr); [apply runs_Raise in Hr as [_ [=]]|destruct Hr].
  - intros x. apply guarded_ordinary; [destruct (is_os_error x); solve_only|]. intros new r Hr.
    destruct r; [|done]. destruct (is_os_error x); [|by apply runs_Raise in Hr as [_ [=]]].
    by apply runs_bind_call in Hr as ([[]|y] & t & -> & Hr); [apply runs_Raise in Hr as [_ [=]]|destruct Hr].
Qed.

Lemma replaces_lock_main past m :
  read_here m past ->
  guarded replaces past (lock_main s sha256 manifest m) written.
Proof using All.
  intros Hm. unfold lock_main. apply guarded_bind_call; [done| |done]. intros resolved. apply guarded_bind.
  apply guarded_ordinary; [apply only_preflight|].
  intros n1 [[]|x] _; [|done]. apply guarded_bind, guarded_lift. destruct (bind_enterprise_provider m) as [bound|x]; [|done].
  apply guarded_bind, guarded_ordinary; [apply only_interp; intros R e; apply only_serve_lock|].
  intros n2 [lk|x] Hr; [|done]. apply locked in Hr as (Hb & Hp & Hw). destruct (lockfile_roundtrip lk Hw) as (text & Ht & Hf).
  apply guarded_bind, guarded_lift. rewrite Ht. apply guarded_bind. eapply guarded_mono; [|eapply (guarded_write _ m lk text); [| | |done..]].
  - intros n3 [[]|x] H; [by apply guarded_Ret|done].
  - rewrite <- !app_assoc. by apply manifest_read_mono.
  - eapply built_mono; [|exact Hb]. set_solver.
  - eapply pinned_mono; [|exact Hp]. set_solver.
Qed.

Lemma bounded_write text : bounded is_replacement 1 (write_lock_atomic target text).
Proof using manifest.
  clear safe_load yaml_error decode validator_text other_text s sha256.
  unfold write_lock_atomic. apply bounded_first; [by apply only_call|]. intros tmp. unfold catch. apply bounded_last.
  - apply bounded_attempt, bounded_first; [by apply only_call|]. intros _. apply bounded_call.
  - intros [a|x]; [exact I|]. destruct (is_os_error x); solve_only.
Qed.
Lemma bounded_lock : bounded is_replacement 1 (lock s sha256 safe_load yaml_error decode validator_text other_text manifest).
Proof using All.
  assert (Hfail : forall line, only ordinary (fail line)) by (intros line; unfold fail; solve_only).
  unfold lock, with_manifest. apply bounded_first; [unfold read_manifest_data; solve_only|].
  intros [data|x]; [|eapply (bounded_mono _ 0); [lia|apply bounded_zero; destruct (is_manifest_error x); [apply Hfail|done]]].
  destruct (model_validate decode validator_text data) as [m|lines].
  2:{ eapply (bounded_mono _ 0); [lia|]. apply bounded_zero, only_bind; [|by intros]. apply only_for_each. intros line _. by apply only_call. }
  unfold guarded_main. apply bounded_last.
  - apply bounded_attempt. unfold lock_main. apply bounded_first; [by apply only_call|]. intros resolved. apply bounded_first; [apply only_preflight|]. intros _.
    apply bounded_first; [apply only_lift|]. intros bound. apply bounded_first; [apply only_interp; intros R e; apply only_serve_lock|]. intros lk.
    apply bounded_first; [apply only_lift|]. intros text. apply bounded_last; [apply bounded_write|]. done.
  - intros [lines|x]; [|destruct (or_credential _ _ x); [apply Hfail|done]].
    unfold say. apply only_bind; [|by intros]. apply only_for_each. intros line _. by apply only_call.
Qed.

(** C8. [forge lock] writes a lock or leaves the file alone, whatever git, the registry and the file
    system answer.  It replaces a file at most once: [project.lock] beside the manifest, by a
    text it has just written whole, the canonical JSON of the lock that [build_lock] makes of the
    manifest it has read, which reads back as that lock.  Each answer this lock was made from was
    given to this run: every commit in it was printed by git for its repository (or is the full
    hash the manifest names), and every published layer was answered by the registry.  The
    command ends in status 0 only if that replacement succeeded. *)
Theorem lock_file_pins_what_was_answered tr o :
  runs (lock s sha256 safe_load yaml_error decode validator_text other_text manifest) tr o ->
  count is_replacement tr <= 1 /\
  (forall tr1 R (e : cli_op R) r tr2, tr = tr1 ++ Event e r :: tr2 -> replaces tr1 R e) /\
  (o = Ok 0%Z -> exists src, Event (ReplaceFile src target) (Ok tt) ∈ tr).
Proof using All.
  intros H. split; [exact (bounded_runs _ _ _ _ _ bounded_lock H)|].
  assert (Hg : guarded replaces [] (lock s sha256 safe_load yaml_error decode validator_text other_text manifest)
    (fun past r => r = Ok 0%Z -> exists src, Event (ReplaceFile src target) (Ok tt) ∈ past)).
  { assert (Hfail : forall line past, guarded replaces past (fail line) (fun past' r => r = Ok 0%Z -> exists src, Event (ReplaceFile src target) (Ok tt) ∈ past')).
    { intros line past. unfold fail. apply guarded_bind_call; [done| |done]. by intros []. }
    unfold lock, with_manifest. apply guarded_bind, guarded_attempt, guarded_ordinary; [unfold read_manifest_data; solve_only|].
    intros n1 [data|x] Hread; [apply read_manifest_reads in Hread|destruct (is_manifest_error x); [apply Hfail|done]].
    destruct (model_validate decode validator_text data) as [m|lines] eqn:Em.
    2:{ apply guarded_ordinary; [apply only_bind; [|by intros]; apply only_for_each; intros line _; by apply only_call|].
        intros n2 r Hr. apply runs_bind in Hr as [(t1 & t2 & [] & -> & _ & [_ ->]%runs_Ret)|(x & -> & _)]; done. }
    unfold guarded_main. apply guarded_bind, guarded_attempt. eapply guarded_mono; [|apply (replaces_lock_main _ m)].
    2:{ destruct Hread as (raw & Hin & Hl). by exists raw, data. }
    intros n2 [lines|x] Hw; [|destruct (or_credential _ _ x); [apply Hfail|done]].
    apply guarded_ordinary; [unfold say; apply only_bind; [|by intros]; apply only_for_each; intros line _; by apply only_call|].
    intros n3 r _ _. destruct Hw as [src Hin]. exists src. set_solver. }
  destruct (guarded_runs replaces [] _ _ tr o Hg H) as [HQ HS]. split; [exact HS|exact HQ].
Qed.
End Written.

Lemma lock_file_pins_what_was_answered_witness :
  (sample_lock_run sample_manifest).1.1 = Ok 0%Z /\
  exists src, Event (ReplaceFile src (lock_beside (path_of "project.yaml"))) (Ok tt) ∈ (sample_lock_run sample_manifest).1.2.
Proof.
  assert (Hok : (sample_lock_run sample_manifest).1.1 = Ok 0%Z) by (vm_compute; reflexivity). split; [exact Hok|].
  refine (proj2 (proj2 (lock_file_pins_what_was_answered sample_surroundings sample_sha256 (fun _ => Some JNull) (fun _ => "") (fun _ => Ok sample_manifest)
    no_text no_text (path_of "project.yaml") (sample_lock_run sample_manifest).1.2 (sample_lock_run sample_manifest).1.1 _)) Hok).
  apply exec_runs.
Defined.

(** * What [forge onboard] has checked before a backend runs

    The lock is the one on disk and belongs to the manifest, a scan of the mount roots found every
    locked commit checked out, and every module has its dependencies. *)

(** ** Dependencies *)

Lemma elem_of_installable index name : name ∈ installable_names index <-> exists m, (name, m) ∈ index /\ om_installable m = true.
Proof.
  unfold installable_names. rewrite list_elem_of_In, in_map_iff. setoid_rewrite filter_In. setoid_rewrite <- list_elem_of_In. split.
  - intros ([n m] & <- & Hin & Hi). eauto.
  - intros (m & Hin & Hi). by exists (name, m).
Qed.
(** The report is empty exactly when every installable module finds all its dependencies. *)
Definition dependencies_met (index : ModuleIndex) : Prop :=
  forall name m dep, (name, m) ∈ index -> om_installable m = true -> dep ∈ om_depends m ->
    exists m', (dep, m') ∈ index /\ om_installable m' = true.
Lemma find_missing_nil index : find_missing_dependencies index = [] <-> dependencies_met index.
Proof.
  assert (Hone : forall m, unsatisfied index m = [] <-> forall dep, dep ∈ om_depends m -> dep ∈ installable_names index).
  { intros m. unfold unsatisfied. split.
    - intros H dep Hin. destruct (decide (dep ∈ installable_names index)) as [|Hn]; [done|]. exfalso.
      assert (Hin' : dep ∈ List.filter (fun dep => negb (bool_decide (dep ∈ installable_names index))) (om_depends m)).
      { apply list_elem_of_In, filter_In. split; [by apply list_elem_of_In|]. by rewrite bool_decide_false. }
      rewrite H in Hin'. set_solver.
    - intros H. destruct (List.filter _ _) as [|dep l] eqn:E; [done|]. exfalso.
      assert (Hin : In dep (List.filter (fun dep => negb (bool_decide (dep ∈ installable_names index))) (om_depends m))) by (rewrite E; by left).
      apply filter_In in Hin as [Hin Hn]. apply list_elem_of_In in Hin. rewrite bool_decide_true in Hn by auto. done. }
  unfold dependencies_met. setoid_rewrite <- elem_of_installable. split.
  - intros H name m dep Hin Hi Hdep. apply (Hone m); [|done]. destruct (unsatisfied index m) as [|d l] eqn:E; [done|]. exfalso.
    assert (Hmiss : (name, d :: l) ∈ find_missing_dependencies index).
    { apply list_elem_of_omap. exists (name, m). cbn. by rewrite Hi, E. }
    rewrite H in Hmiss. set_solver.
  - intros H. destruct (find_missing_dependencies index) as [|[name l] rest] eqn:E; [done|]. exfalso.
    assert (Hin : (name, l) ∈ find_missing_dependencies index) by (rewrite E; by left).
    apply list_elem_of_omap in Hin as ([name' m] & Hin & Hm). cbn in Hm. destruct (om_installable m) eqn:Hi; [|done].
    rewrite (proj2 (Hone m)) in Hm; [done|]. intros dep. by eapply H.
Qed.

(** ** Drift *)

(** A repository of the lock is checked out at its commit. *)
Definition checked_out (st : MaterializedState) (layer : string) (r : ResolvedRepo) : Prop :=
  exists ml mr, ml ∈ ms_layers st /\ ml_name ml = layer /\ mr ∈ ml_repos ml /\ mr_url mr = rr_url r /\ mr_commit mr = rr_commit r.
Lemma concat_nil {A} (ls : list (list A)) : concat ls = [] -> forall l, l ∈ ls -> l = [].
Proof. induction ls as [|k ls IH]; [set_solver|]. cbn. intros [-> H]%app_nil l [->|Hin]%elem_of_cons; auto. Qed.
Lemma dget_dict_keyed {A} (f : A -> string) (l : list A) k x : dget k (dict_of (map (fun a => (f a, a)) l)) = Some x -> x ∈ l /\ f x = k.
Proof. intros H%dget_dict_of_elem. apply list_elem_of_In, in_map_iff in H as (a & He & Hin%list_elem_of_In). injection He as <- ->. done. Qed.
Lemma no_drift sha256 m lk st : all_drift (detect_drift sha256 m (Some lk) (Some st)) = [] ->
  lk_generated_from lk = compute_manifest_hash sha256 m /\
  forall l r, l ∈ lk_git_layers lk -> r ∈ rl_repos l -> checked_out st (rl_name l) r.
Proof.
  unfold all_drift, detect_drift. cbn. intros [Hh Hs]%app_nil. split.
  { by case_bool_decide. }
  intros l r Hl Hr. assert (Hd : layer_drift (dict_of (map (fun l => (ml_name l, l)) (ms_layers st))) l = []).
  { apply (concat_nil _ Hs), list_elem_of_In, in_map_iff. exists l. split; [done|]. by apply list_elem_of_In. }
  unfold layer_drift in Hd. destruct (dget (rl_name l) _) as [ml|] eqn:Em; [|done]. apply dget_dict_keyed in Em as [Hml Hname].
  assert (Hrd : repo_drift (rl_name l) (dict_of (map (fun r => (mr_url r, r)) (ml_repos ml))) r = []).
  { apply (concat_nil _ Hd), list_elem_of_In, in_map_iff. exists r. split; [done|]. by apply list_elem_of_In. }
  unfold repo_drift in Hrd. destruct (dget (rr_url r) _) as [mr|] eqn:Er; [|done]. apply dget_dict_keyed in Er as [Hmr Hurl].
  case_bool_decide; [|done]. exists ml, mr. split_and!; done.
Qed.

(** ** What onboarding has seen *)

Section Onboarding.
Variable s : surroundings.
Variable sha256 : string -> string.
Variables (literal_eval : string -> option json) (malformed_text : string -> string) (other_text : exn -> string).
Variable manifest : path.
Variable m : Manifest.

Abbreviation onboarding := (onboard_workspace s sha256 literal_eval malformed_text other_text manifest m).

(** The plan was projected: each of its repositories was checked out at its locked commit, with
    the credentials beside the manifest, one after the other. *)
Definition checkouts (bound : option string) (plan : list WorkspacePlanEntry) (part : history) : Prop :=
  exists resolved parts, part = concat parts /\
    Forall2 (fun entry part => runs (bound_checkout (su_environ s) (su_workspace_timeout s m) (enterprise_resolver (credentials_beside resolved))
      bound (we_url entry) (we_commit entry) (we_target_path entry)) part (Ok tt)) plan parts.
(** A part of a history: consecutive events. *)
Definition part_of_history (part past : history) : Prop := exists before after, past = before ++ part ++ after.
Record checked (past : history) (lk : Lockfile) (roots : list (string * path)) (scanned : list ScannedRepo) (st : MaterializedState) : Prop := {
  ck_lock : exists raw, Event (ReadText (lock_beside manifest)) (Ok raw) ∈ past /\ from_json raw = Ok lk;
  ck_roots : host_roots s m = Ok roots;
  ck_scan : exists bound plan projecting scanning,
    bind_enterprise_provider m = Ok bound /\ plan_projection m lk (Some roots) = Ok plan /\ checkouts bound plan projecting /\
    runs (scan_mounts s m roots) scanning (Ok scanned) /\ part_of_history (projecting ++ scanning) past;
  ck_state : materialize_state scanned roots = Ok st;
  ck_hash : lk_generated_from lk = compute_manifest_hash sha256 m;
  ck_commits : forall l r, l ∈ lk_git_layers lk -> r ∈ rl_repos l -> checked_out st (rl_name l) r;
  ck_modules : exists base addons index part, resolve_mount_base s = Ok base /\ ordered_addons_roots m base = Ok addons /\
    runs (build_module_index literal_eval malformed_text other_text addons) part (Ok index) /\ part_of_history part past /\ dependencies_met index }.

Lemma part_app_l part past more : part_of_history part past -> part_of_history part (more ++ past).
Proof. intros (b & a & ->). exists (more ++ b), a. by rewrite <- app_assoc. Qed.
Lemma part_app_r part past more : part_of_history part past -> part_of_history part (past ++ more).
Proof. intros (b & a & ->). exists b, (a ++ more). by rewrite <- !app_assoc. Qed.
Lemma part_self part : part_of_history part part.
Proof. exists [], []. by rewrite app_nil_r. Qed.

Lemma part_cons part past ev : part_of_history part past -> part_of_history part (ev :: past).
Proof using All. apply (part_app_l _ _ [ev]). Qed.
Ltac find_part := cbn [app]; repeat first [assumption|apply part_self|apply part_app_r; first [assumption|apply part_self]|apply part_app_l|apply part_cons].

Lemma require_lock_Ok tr lk p : runs (require_lock other_text p) tr (Ok lk) -> exists raw, Event (ReadText p) (Ok raw) ∈ tr /\ from_json raw = Ok lk.
Proof using All.
  unfold require_lock, load_lock. intros [(t1 & t2 & [lk'|] & -> & Hl & H)|(x & [=] & _)]%runs_bind; [|by apply runs_Raise in H as [_ [=]]].
  apply runs_Ret in H as [-> [= ->]]. apply runs_bind_call in Hl as ([[]|x] & t3 & -> & Hl); [|by apply runs_Ret in Hl as [_ [=]]|by destruct Hl].
  cbn [negb] in Hl. apply runs_bind in Hl as [(t4 & t5 & raw & -> & Hr & Hl)|(x & [=] & _)].
  apply runs_catch in Hr as [(a & [= ->] & ->%runs_call)|(t6 & t7 & x & -> & _ & Hr%runs_Raise)]; [|by destruct Hr as [_ [=]]].
  exists a. destruct (from_json a) as [lk''|x]; [|by apply runs_Raise in Hl as [_ [=]]]. apply runs_Ret in Hl as [-> [= ->]]. split; [set_solver|done].
Qed.
Lemma check_modules_Ok tr base : runs (check_module_dependencies literal_eval malformed_text other_text m base) tr (Ok tt) ->
  exists addons index, ordered_addons_roots m base = Ok addons /\
    (exists part, runs (build_module_index literal_eval malformed_text other_text addons) part (Ok index) /\ part_of_history part tr) /\ dependencies_met index.
Proof using All.
  unfold check_module_dependencies. intros [(t1 & t2 & addons & -> & [-> Ha]%runs_lift & H)|(x & [=] & _)]%runs_bind.
  apply runs_bind in H as [(t3 & t4 & index & -> & Hi & H)|(x & [=] & _)].
  apply runs_catch in Hi as [(a & [= ->] & Hi)|(t6 & t7 & x & -> & _ & Hr%runs_Raise)]; [|by destruct Hr as [_ [=]]].
  exists addons, a. split; [done|]. split; [exists t3; split; [done|]; find_part|].
  apply find_missing_nil. destruct (find_missing_dependencies a); [done|by apply runs_Raise in H as [_ [=]]].
Qed.

Lemma projected_checkouts resolved bound plan tr :
  runs (interp (serve_projection s m (enterprise_resolver (credentials_beside resolved)) bound) (project_workspace plan)) tr (Ok tt) ->
  checkouts bound plan tr.
Proof using All.
  intros H. exists resolved. revert tr H. unfold project_workspace. induction plan as [|entry plan IH]; intros tr H.
  - apply runs_Ret in H as [-> _]. by exists [].
  - apply runs_interp_call in H as (t1 & t2 & [[]|x] & -> & H1 & H2); [|by destruct H2 as [_ [=]]].
    destruct (IH _ H2) as (parts & -> & Hp). exists (t1 :: parts). split; [done|]. by constructor.
Qed.
Lemma onboarding_checked tr lk roots plan scanned st : runs onboarding tr (Ok (lk, roots, plan, scanned, st)) -> checked tr lk roots scanned st.
Proof using All.
  unfold onboard_workspace. intros H. apply runs_bind_call in H as ([resolved|x] & t1 & -> & H); [|by destruct H].
  apply runs_bind in H as [(t2 & t3 & [] & -> & _ & H)|(x & [=] & _)].
  apply runs_bind in H as [(t4 & t5 & c & -> & [-> _]%runs_lift & H)|(x & [=] & _)].
  apply runs_bind in H as [(t6 & t7 & lk' & -> & Hlk%require_lock_Ok & H)|(x & [=] & _)].
  apply runs_bind in H as [(t8 & t9 & roots' & -> & [-> Hroots]%runs_lift & H)|(x & [=] & _)].
  apply runs_bind in H as [(t10 & t11 & plan' & -> & [-> Hplan]%runs_lift & H)|(x & [=] & _)].
  apply runs_bind in H as [(t12 & t13 & bound & -> & [-> Hbound]%runs_lift & H)|(x & [=] & _)].
  apply runs_bind in H as [(t14 & t15 & scanned0 & -> & _ & H)|(x & [=] & _)].
  apply runs_bind in H as [(t16 & t17 & st0 & -> & [-> _]%runs_lift & H)|(x & [=] & _)].
  destruct (List.filter _ _); [|by apply runs_Raise in H as [_ [=]]].
  apply runs_bind in H as [(t18 & t19 & [] & -> & Hproj%projected_checkouts & H)|(x & [=] & _)].
  apply runs_bind in H as [(t20 & t21 & scanned1 & -> & Hscan & H)|(x & [=] & _)].
  apply runs_bind in H as [(t22 & t23 & st1 & -> & [-> Hst]%runs_lift & H)|(x & [=] & _)].
  destruct (all_drift _) eqn:Ed; [|by apply runs_Raise in H as [_ [=]]].
  apply runs_bind in H as [(t24 & t25 & base & -> & [-> Hbase]%runs_lift & H)|(x & [=] & _)].
  apply runs_bind in H as [(t26 & t27 & [] & -> & Hmod%check_modules_Ok & H)|(x & [=] & _)].
  apply runs_Ret in H as [-> [= -> -> -> -> ->]]. apply no_drift in Ed as [Hh Hc].
  destruct Hlk as (raw & Hraw & Hf). destruct Hmod as (addons & index & Hadd & (part & Hpart & Hpo) & Hdep).
  constructor; [|done| |done|done|done|].
  - exists raw. split; [set_solver|done].
  - exists bound, plan', t18, t20. split_and!; [done..|]. cbn [app].
    apply part_cons, part_app_l, part_app_l, part_app_l. rewrite (app_assoc t18). apply part_app_r, part_self.
  - exists base, addons, index, part. split_and!; [done|done|done| |done]. find_part.
Qed.

Lemma checked_within past before after lk roots scanned st :
  checked past lk roots scanned st -> checked (before ++ past ++ after) lk roots scanned st.
Proof using All.
  intros [(raw & Hraw & Hf) Hr (bound & plan & projecting & scanning & Hb' & Hpl & Hp & Hs & Hin) Hst Hh Hc (base & addons & index & part' & Hb & Ha & Hi & Hin' & Hd)].
  constructor; [|done| |done|done|done|].
  - exists raw. split; [set_solver|done].
  - exists bound, plan, projecting, scanning. split_and!; [done..|]. by apply part_app_l, part_app_r.
  - exists base, addons, index, part'. split_and!; [done..| |done]. by apply part_app_l, part_app_r.
Qed.
End Onboarding.

(** ** The command *)

Lemma ordinary_workspace {A : Type} (p : Workspace.workspace_prog A) : only ordinary (embed (@OnWorkspace) p).
Proof. apply only_embed. eapply only_impl; [|apply only_all]. done. Qed.
Lemma ordinary_serve_projection s m file bound R (e : Projection.workspace_op R) :
  only ordinary (serve_projection s m (enterprise_resolver file) bound R e).
Proof.
  destruct e. cbn [serve_projection]. unfold bound_checkout, bound_request. destruct bound as [u|]; [|apply ordinary_workspace].
  destruct (bool_decide _); [|apply ordinary_workspace]. apply only_bind; [apply only_lift|]. intros d. apply only_askpass. intros overlay. apply ordinary_workspace.
Qed.
Lemma ordinary_onboarding s sha256 literal_eval malformed_text other_text manifest m :
  only ordinary (onboard_workspace s sha256 literal_eval malformed_text other_text manifest m).
Proof.
  unfold onboard_workspace, preflight_enterprise_source_credential, require_lock, load_lock, scan_mounts, check_module_dependencies.
  pose proof (fun roots => only_index_impl ordinary literal_eval malformed_text other_text roots) as Hi.
  assert (Hp : forall file bound plan, only ordinary (interp (serve_projection s m (enterprise_resolver file) bound) (project_workspace plan))).
  { intros file bound plan. apply only_interp. intros R e. apply ordinary_serve_projection. }
  assert (Ha : forall file d, only ordinary (askpass_env d (enterprise_resolver file) (fun _ => Ret tt))).
  { intros file d. apply only_askpass. by intros. }
  pose proof (@ordinary_workspace (list ScannedRepo)) as Hw.
  solve_only; try apply Ha; try apply Hw; try apply Hp; apply Hi; by intros R [].
Qed.

Section Command.
Variable s : surroundings.
Variable sha256 : string -> string.
Variables (safe_load : string -> option json) (yaml_error : string -> string).
Variables (decode : json -> result (list string) Manifest) (validator_text : exn -> string).
Variables (literal_eval : string -> option json) (malformed_text : string -> string) (other_text : exn -> string).
Variables (details_text : Catalogs.failure_details -> string) (catalog_text : Catalogs.catalog_error -> string).
Variable run_backend : BackendPlan -> backend_prog InstanceRef.

(** The client and the manifest the command was given. *)
Variables (client : option string) (given : option path).

(** The manifest is the given one, or the one the catalog resolved the client to. *)
Definition chosen (manifest : path) (past : history) : Prop :=
  match client, given with
  | None, Some p => manifest = p
  | Some name, None => exists part result, part_of_history part past /\
      runs (over_catalog (Catalogs.resolve (Catalogs.find_matches safe_load) (Catalogs.mkProjectCatalogRequest (Some name) None None None)))
        part (Ok (Ok (Catalogs.Resolved result))) /\
      manifest = path_of (Catalogs.mr_manifest_path (Catalogs.rc_manifest_ref result))
  | _, _ => False
  end.
(** A project has passed every check: its manifest was read, and the rest is [checked]. *)
Definition passed (past : history) : Prop :=
  exists manifest m lk roots scanned st, chosen manifest past /\
    manifest_read safe_load decode validator_text manifest m past /\
    checked s sha256 literal_eval malformed_text other_text manifest m past lk roots scanned st.
Definition starts (past : history) (R : Type) (e : cli_op R) : Prop := match e with OnBackend _ => passed past | _ => True end.
Definition ends (past : history) (r : result exn Z) : Prop := r = Ok 0%Z -> passed past.

Lemma chosen_app manifest past new : chosen manifest past -> chosen manifest (past ++ new).
Proof using All.
  unfold chosen. destruct client, given; try done. intros (part & result & Hp & H). exists part, result. split; [by apply part_app_r|done].
Qed.
Lemma passed_app past new : passed past -> passed (past ++ new).
Proof using All.
  intros (manifest & m & lk & roots & scanned & st & Hch & Hm & Hc). exists manifest, m, lk, roots, scanned, st.
  split; [by apply chosen_app|]. split; [by apply manifest_read_mono|].
  exact (checked_within s sha256 literal_eval malformed_text other_text manifest m past [] new lk roots scanned st Hc).
Qed.
Lemma guarded_ordinary_start {A : Type} past (p : cli_prog A) Q :
  only ordinary p -> (forall new r, runs p new r -> Q (past ++ new) r) -> guarded starts past p Q.
Proof. intros Hp. apply (guarded_only starts ordinary); [|done]. by intros h R []. Qed.
Lemma starts_fail past line : guarded starts past (fail line) ends.
Proof using All. unfold fail. apply guarded_bind_call; [done| |done]. by intros []. Qed.
Lemma starts_main past main handled :
  guarded starts past main (fun past' r => match r with Ok _ => passed past' | Err _ => True end) ->
  guarded starts past (guarded_main main handled) ends.
Proof using All.
  intros H. unfold guarded_main. apply guarded_bind, guarded_attempt. eapply guarded_mono; [|exact H].
  intros new [lines|x] Hp; [|destruct (handled x); [apply starts_fail|done]]. cbn in Hp.
  apply guarded_ordinary_start; [unfold say; apply only_bind; [|by intros]; apply only_for_each; intros line _; by apply only_call|].
  intros n2 r _ _. by apply passed_app.
Qed.
Lemma starts_with_manifest past manifest k :
  (forall past' m, chosen manifest past' -> manifest_read safe_load decode validator_text manifest m past' -> guarded starts past' (k m) ends) ->
  chosen manifest past ->
  guarded starts past (with_manifest safe_load yaml_error decode validator_text other_text manifest k) ends.
Proof using All.
  intros Hk Hch. unfold with_manifest. apply guarded_bind, guarded_attempt, guarded_ordinary_start; [unfold read_manifest_data; solve_only|].
  intros n1 [data|x] Hread; [apply read_manifest_reads in Hread as (raw & Hin & Hl)|destruct (is_manifest_error x); [apply starts_fail|done]].
  destruct (model_validate decode validator_text data) as [m|lines] eqn:Em.
  { apply Hk; [by apply chosen_app|]. exists raw, data. split_and!; [set_solver|done..]. }
  apply guarded_ordinary_start; [apply only_bind; [|by intros]; apply only_for_each; intros line _; by apply only_call|].
  intros n2 r Hr. apply runs_bind in Hr as [(t1 & t2 & [] & -> & _ & [_ ->]%runs_Ret)|(x & -> & _)]; done.
Qed.
Lemma starts_onboarding past manifest m :
  chosen manifest past -> manifest_read safe_load decode validator_text manifest m past ->
  guarded starts past (onboard_workspace s sha256 literal_eval malformed_text other_text manifest m)
    (fun past' r => match r with Ok _ => passed past' | Err _ => True end).
Proof using All.
  intros Hch Hm. apply guarded_ordinary_start; [apply ordinary_onboarding|]. intros new [[[[[lk roots] plan] scanned] st]|x] Hr; [|done].
  apply onboarding_checked in Hr. exists manifest, m, lk, roots, scanned, st.
  split; [by apply chosen_app|]. split; [by apply manifest_read_mono|].
  rewrite <- (app_nil_r new). by apply checked_within.
Qed.

(** C9. [forge onboard] starts a backend only for a project that has passed every check, and ends in
    status 0 only for one, whatever the workspace, git, SOPS and Docker answer.  The manifest is
    the given one, or the one the catalog resolved the client to, as read and validated in this
    run; the lock read from beside it carries its hash.  Every repository the lock plans was
    checked out at its target with success; the scan of the project's mount roots right after
    that found every repository of the lock checked out at its locked commit; and the index of
    the add-on roots gives every installable module installable modules for all its
    dependencies. *)
Theorem onboarding_is_checked tr o :
  runs (onboard s sha256 safe_load yaml_error decode validator_text literal_eval malformed_text other_text details_text catalog_text run_backend client given) tr o ->
  (forall tr1 R (e : backend_op R) r tr2, tr = tr1 ++ Event (OnBackend e) r :: tr2 -> passed tr1) /\ (o = Ok 0%Z -> passed tr).
Proof using All.
  intros H. assert (Hg : guarded starts []
    (onboard s sha256 safe_load yaml_error decode validator_text literal_eval malformed_text other_text details_text catalog_text run_backend client given) ends).
  { unfold onboard. destruct client as [name|] eqn:Ec, given as [manifest|] eqn:Eg; [apply starts_fail| | |apply starts_fail].
    - unfold onboard_catalog_mode. apply guarded_bind, guarded_ordinary_start.
      { generalize (Catalogs.resolve (Catalogs.find_matches safe_load) (Catalogs.mkProjectCatalogRequest (Some name) None None None)). intros p.
        induction p as [a|x|R e k IH]; [exact I..|]. cbn [over_catalog]. apply only_bind; [|intros r; apply IH]. destruct e. cbn [serve_catalog]. solve_only. }
      intros n1 [[[result|type fp details]|e]|x] Hres; [|apply starts_fail|destruct e; try apply starts_fail; done|done].
      apply starts_with_manifest.
      2:{ unfold chosen. rewrite Ec, Eg. exists n1, result. split; [apply part_app_l, part_self|done]. }
      intros past m Hch Hm. apply starts_main. unfold onboard_catalog_main. apply guarded_bind.
      eapply guarded_mono; [|by apply starts_onboarding]. intros n2 [[[[[lk roots] plan] scanned] st]|x] Hp; [|done].
      apply guarded_bind, guarded_lift. destruct (build_mount_planning_view _ _ _ _ _ _ _) as [mounts|x]; [|done].
      apply guarded_bind, guarded_lift. destruct (plan_backend _ _ _ _ _ _ _) as [bp|x]; [|done].
      assert (Hrun : guarded starts ((past ++ n2)) (embed (@OnBackend) (run_backend bp)) (fun past' _ => passed past')).
      { revert Hp. generalize (past ++ n2) as h. induction (run_backend bp) as [a|x|R e k IH]; intros h Hp; [done..|].
        split; [done|]. intros r. apply IH. by apply passed_app. }
      apply guarded_bind. eapply guarded_mono; [|exact Hrun]. intros n3 [ref|x] Hp'; [by apply guarded_Ret|done].
    - unfold onboard_manifest_mode. apply starts_with_manifest; [|unfold chosen; by rewrite Ec, Eg].
      intros past m Hch Hm. apply starts_main. unfold onboard_manifest_main. apply guarded_bind.
      eapply guarded_mono; [|by apply starts_onboarding]. intros n2 [[[[[lk roots] plan] scanned] st]|x] Hp; [by apply guarded_Ret|done]. }
  destruct (guarded_runs starts [] _ _ tr o Hg H) as [HQ HS]. split; [|exact HQ].
  intros tr1 R e r tr2 ->. exact (HS tr1 R (OnBackend e) r tr2 eq_refl).
Qed.
End Command.

(** ** A project whose workspace is already in place *)

Definition plain_manifest : Manifest := mkManifest "acme" "17.0" Community default_core None [] (mkClient (path_of "addons") None) [] None None [].
Definition plain_lock : Lockfile := mkLockfile 2 (compute_manifest_hash Samples.sample_sha256 plain_manifest)
  [mkResolvedGitLayer "core" [mkResolvedRepo (core_url default_core) "17.0" sample_commit]] [].
Definition plain_lock_text : string := match to_canonical_json plain_lock with Ok text => text | Err _ => "" end.
Definition plain_environment : surroundings := mkSurroundings {["FORGE_MOUNT_BASE" := "/w"]} (path_of "/home/dev") path_of "30" (fun _ => "600").
Definition plain_workspace (R : Type) (e : Workspace.workspace_op R) : result exn R :=
  match e in Workspace.workspace_op R return result exn R with
  | Git argv _ => Ok (0%Z, if bool_decide (last argv = Some "HEAD") then sample_commit else core_url default_core)
  | Workspace.PathExists p => Ok (bool_decide (path_str p ∈ ["/w/community"; "/w/community/core/odoo"; "/w/community/core/odoo/.git"]))
  | IsRegular _ => Ok false
  | WalkTree _ => Ok (Dir [("core", Dir [("odoo", Dir [])])])
  | MakeTemp p => Ok p
  | MakeDirs _ | Workspace.Replace _ _ | RemoveTree _ => Ok tt
  end.
Definition plain_answers : handler (E := cli_op) (X := exn) unit :=
  fun R e => match e in cli_op R return unit -> result exn R * unit with
             | ReadText _ => fun w => (Ok plain_lock_text, w)
             | FileExists _ => fun w => (Ok true, w)
             | OnWorkspace e => fun w => (plain_workspace _ e, w)
             | e => fun w => sample_answers "" _ e w
             end.
Definition plain_onboard : cli_prog Z :=
  onboard plain_environment Samples.sample_sha256 (fun _ => Some JNull) (fun _ => "") (fun _ => Ok plain_manifest) no_text (fun _ => None) (fun _ => "") no_text
    (fun _ => "") (fun _ => "") (fun _ => Raise AssertionError) None (Some (path_of "project.yaml")).
Lemma onboarding_is_checked_witness :
  (exec plain_answers plain_onboard tt).1.1 = Ok 0%Z /\
  passed plain_environment Samples.sample_sha256 (fun _ => Some JNull) (fun _ => Ok plain_manifest) no_text (fun _ => None) (fun _ => "") no_text
    None (Some (path_of "project.yaml")) (exec plain_answers plain_onboard tt).1.2.
Proof.
  assert (Hok : (exec plain_answers plain_onboard tt).1.1 = Ok 0%Z) by (vm_compute; reflexivity). split; [exact Hok|].
  refine (proj2 (onboarding_is_checked plain_environment Samples.sample_sha256 (fun _ => Some JNull) (fun _ => "") (fun _ => Ok plain_manifest) no_text
    (fun _ => None) (fun _ => "") no_text (fun _ => "") (fun _ => "") (fun _ => Raise AssertionError) None (Some (path_of "project.yaml"))
    (exec plain_answers plain_onboard tt).1.2 (exec plain_answers plain_onboard tt).1.1 _) Hok).
  apply exec_runs.
Defined.
