(* ===== verification/BackendCommands.v ===== *)
(** * The backend commands ([odoo_forge_cli/commands/backend.py])

    [run], [status], [stop], [destroy], [logs] and [exec] over the programs of the local Docker
    backend: each reads and validates the manifest, derives the instance's names from it and hands
    them to the provider; [destroy] asks for confirmation first. *)

From stdpp Require Import pretty.
From S2P Require Import Prelude Effects Values Json Paths Schema Lock Docker Backend DockerBackend DockerBackendFacts Workspace Projection ImageRegistry Cli Credentials ManifestCommands.
From S2P Require Samples.

(** The terminal a command may ask, beside what every command asks. *)
Inductive terminal_op : Type -> Type :=
| IsATty : terminal_op bool                        (* [sys.stdin.isatty] *)
| Confirm (question : string) : terminal_op bool   (* [typer.confirm] *)
| OnCli {R : Type} (e : cli_op R) : terminal_op R.
Definition terminal_prog := prog terminal_op exn.

Section Commands.
Variable s : surroundings.
(** The parameters of the manifest commands. *)
Variable sha256 : string -> string.
Variables (safe_load : string -> option json) (yaml_error : string -> string).
Variables (decode : json -> result (list string) Manifest) (validator_text : exn -> string) (other_text : exn -> string).
(** Those of the local backend, which [_make_backend_provider] gives a database provider and a custody. *)
Variables (docker_timeout health_wait_timeout health_poll_interval : Z) (fuel : nat).

Abbreviation message := (message other_text).
Abbreviation with_manifest := (with_manifest safe_load yaml_error decode validator_text other_text).
Definition on_backend_error (e : exn) : option string :=
  match e with BackendError _ _ => Some (message e) | _ => if is_manifest_error e then Some (message e) else None end.
(** [_derive_ref] and one operation of the provider, inside one [try]. *)
Definition on_instance {A : Type} (manifest : path) (instance : string) (operation : InstanceRef -> backend_prog A)
    (report : InstanceRef -> A -> cli_prog Z) : cli_prog Z :=
  with_manifest manifest (fun m =>
    let ref := derive_instance_ref sha256 m instance in
    let* r := attempt (embed (@OnBackend) (operation ref)) in
    match r with
    | Ok a => report ref a
    | Err e => match on_backend_error e with Some line => fail line | None => Raise e end
    end).

(** ** [run] *)

Definition run_main (manifest : path) (m : Manifest) (instance : string) (odoo_image : option string) : cli_prog (list string) :=
  let* roots := lift (host_roots s m) in
  let* scanned := scan_mounts s m roots in
  let* state := lift (materialize_state scanned roots) in
  let* lk := load_lock other_text (lock_beside manifest) in
  let* mounts := lift (build_mount_planning_view sha256 m lk scanned state roots None) in
  let* plan := lift (plan_backend sha256 m mounts instance odoo_image (Some "local-backend/odoo-db-password") (Some "local-backend/postgres-password")) in
  let* _ := call (Resolve manifest) in
  let* ref := embed (@OnBackend) (run_instance docker_timeout health_wait_timeout health_poll_interval true true other_text fuel plan) in
  Ret ["running: project " +:+ quoted (ir_project ref) +:+ " instance " +:+ quoted (ir_instance ref) +:+ " (odoo " +:+
       quoted (ir_odoo_container ref) +:+ ", postgres " +:+ quoted (ir_postgres_container ref) +:+ ")"].
Definition run (manifest : path) (instance : string) (odoo_image_ref : option string) : cli_prog Z :=
  with_manifest manifest (fun m =>
    match odoo_image_ref with
    | None => guarded_main (run_main manifest m instance None) (on_onboard_error other_text)
    | Some image_ref =>
      match normalize_image_reference image_ref true with
      | Err e => fail (error_text e)
      | Ok image => guarded_main (run_main manifest m instance (Some image)) (on_onboard_error other_text)
      end
    end).

(** ** [status], [stop], [logs] and [exec] *)

Definition python_bool (b : bool) : string := if b then "True" else "False".
Definition state_text (state : RoleState) : string :=
  match state with
  | Exited => "exited" | Starting => "starting" | Unhealthy => "unhealthy" | Healthy => "healthy"
  | NoHealthcheck => "no_healthcheck" | UnknownState => "unknown"
  end.
Definition role_line (role : string) (r : RoleStatus) : string :=
  role +:+ ": running=" +:+ python_bool (rs_running r) +:+ " state=" +:+ state_text (rs_state r) +:+ " ready=" +:+ python_bool (rs_ready r).
Definition status (manifest : path) (instance : string) : cli_prog Z :=
  on_instance manifest instance (DockerBackend.status docker_timeout other_text)
    (fun _ report => say [role_line "postgres" (is_postgres report); role_line "odoo" (is_odoo report)] ;* Ret 0%Z).
Definition stop (manifest : path) (instance : string) : cli_prog Z :=
  on_instance manifest instance (DockerBackend.stop docker_timeout other_text)
    (fun ref _ => say ["stopped: project " +:+ quoted (ir_project ref) +:+ " instance " +:+ quoted (ir_instance ref)] ;* Ret 0%Z).
Definition logs (manifest : path) (instance role : string) : cli_prog Z :=
  on_instance manifest instance (fun ref => DockerBackend.logs docker_timeout other_text ref role)
    (fun _ text => say [text] ;* Ret 0%Z).
(** The exit status is the one of the command in the container. *)
Definition exec_ (manifest : path) (instance : string) (argv : list string) : cli_prog Z :=
  on_instance manifest instance (fun ref => exec_in docker_timeout other_text ref argv)
    (fun _ '(exit_code, stdout, stderr) =>
      (if bool_decide (stdout = "") then Ret tt else call (Echo false stdout)) ;*
      (if bool_decide (stderr = "") then Ret tt else call (Echo true stderr)) ;*
      Ret exit_code).

(** ** [destroy] *)

Definition kind_text (k : DestroyKind) : string := match k with KContainer => "container" | KNetwork => "network" | KVolume => "volume" end.
Definition outcome_text (o : DestroyOutcome) : string :=
  match o with ORemoved => "removed" | OAbsent => "absent" | OProtected => "protected" | OFailed => "failed" end.
Definition is_retained (r : DestroyResourceResult) : bool := bool_decide (drr_outcome r ∈ [OProtected; OFailed]).
Definition resource_line (r : DestroyResourceResult) : string :=
  kind_text (drr_kind r) +:+ " " +:+ drr_identifier r +:+ ": " +:+ outcome_text (drr_outcome r).
Definition report_destruction (results : list DestroyResourceResult) : cli_prog Z :=
  say (map resource_line results) ;*
  match map drr_identifier (List.filter is_retained results) with
  | [] => Ret 0%Z
  | retained => call (Echo true ("retained: " +:+ join ", " retained)) ;* Ret 1%Z
  end.
Definition destroy_confirmed (manifest : path) (instance : string) : cli_prog Z :=
  on_instance manifest instance (DockerBackend.destroy docker_timeout true true other_text) (fun _ => report_destruction).
Definition say_error (line : string) : terminal_prog Z := call (OnCli (Echo true line)) ;* Ret 1%Z.
Definition question (instance : string) : string := "Destroy local instance " +:+ quoted instance +:+ " and its owned data?".
Definition destroy (instance : string) (manifest : path) (yes : bool) : terminal_prog Z :=
  if yes then embed (@OnCli) (destroy_confirmed manifest instance) else
  let* tty := call IsATty in
  if negb tty then say_error "error: non-interactive destroy requires --yes" else
  let* confirmed := call (Confirm (question instance)) in
  if negb confirmed then say_error "error: destroy declined" else
  embed (@OnCli) (destroy_confirmed manifest instance).
End Commands.

(** * The backend commands: facts

    [forge destroy] removes nothing before it was confirmed and its manifest was read, and what it
    removes is justified by the provider's own rules for the names derived from that manifest. *)

(** Everything but the backend. *)
Definition off_backend (R : Type) (e : cli_op R) : Prop := match e with OnBackend _ => False | _ => True end.
Definition on_cli : event backend_op exn -> event cli_op exn := embed_event (@OnBackend).
Definition lifted : event backend_op exn -> event terminal_op exn := fun ev => embed_event (@OnCli) (on_cli ev).

Section Facts.
Variable sha256 : string -> string.
Variables (safe_load : string -> option json) (yaml_error : string -> string).
Variables (decode : json -> result (list string) Manifest) (validator_text : exn -> string) (other_text : exn -> string).
Variables (docker_timeout : Z).

Abbreviation with_manifest := (with_manifest safe_load yaml_error decode validator_text other_text).
Abbreviation on_instance := (on_instance sha256 safe_load yaml_error decode validator_text other_text).
Abbreviation destroy_command := (destroy sha256 safe_load yaml_error decode validator_text other_text docker_timeout).

(** The manifest [m] was read from its file. *)
Definition has_read {T : Type -> Type} (inj : forall R, cli_op R -> T R) (manifest : path) (m : Manifest) (past : list (event T exn)) : Prop :=
  exists text data, Event (inj _ (ReadText manifest)) (Ok text) ∈ past /\ safe_load text = Some data /\ model_validate decode validator_text data = Ok m.

Lemma off_fail line tr o : runs (fail line) tr o -> Forall (event_sat off_backend) tr /\ o <> Ok 0%Z.
Proof.
  intros H. split; [eapply only_runs; [|exact H]; unfold fail; solve_only|].
  unfold fail in H. apply runs_bind_call in H as ([] & t & -> & H); [by apply runs_Ret in H as [_ ->]|by destruct H as [_ ->]].
Qed.
Lemma read_manifest_Ok manifest tr data : runs (read_manifest_data safe_load yaml_error other_text manifest) tr (Ok data) ->
  Forall (event_sat off_backend) tr /\ exists text, Event (ReadText manifest) (Ok text) ∈ tr /\ safe_load text = Some data.
Proof.
  intros H. split; [eapply only_runs; [|exact H]; unfold read_manifest_data; solve_only|].
  unfold read_manifest_data in H. apply runs_bind in H as [(t1 & t2 & text & -> & H & Hs)|(? & [=] & _)].
  apply runs_catch in H as [(a & [= <-] & ->%runs_call)|(? & ? & ? & _ & _ & [_ [=]]%runs_Raise)].
  exists text. split; [by left|]. destruct (safe_load text); [by apply runs_Ret in Hs as [_ [= ->]]|by apply runs_Raise in Hs as [_ [=]]].
Qed.
Lemma with_manifest_cases manifest k tr o : runs (with_manifest manifest k) tr o ->
  (Forall (event_sat off_backend) tr /\ o <> Ok 0%Z) \/
  exists before after m, tr = before ++ after /\ Forall (event_sat off_backend) before /\ has_read (fun _ e => e) manifest m before /\ runs (k m) after o.
Proof.
  unfold with_manifest. intros [(t1 & t2 & r & -> & (r' & [= ->] & H1)%runs_attempt & H2)|(? & _ & (? & [=] & _)%runs_attempt)]%runs_bind.
  assert (Hoff : Forall (event_sat off_backend) t1).
  { eapply only_runs; [|exact H1]. unfold read_manifest_data. solve_only. }
  destruct r' as [data|x].
  - apply read_manifest_Ok in H1 as [_ (text & Hin & Hs)]. destruct (model_validate decode validator_text data) as [m|lines] eqn:Em.
    + right. exists t1, t2, m. split_and!; [done..| |done]. by exists text, data.
    + left. split; [apply Forall_app; split; [done|]; eapply only_runs; [|exact H2]|].
      * apply only_bind; [|by intros]. apply only_for_each. intros line _. by apply only_call.
      * apply runs_bind in H2 as [(? & ? & [] & _ & _ & [_ ->]%runs_Ret)|(x & -> & _)]; done.
  - left. destruct (is_manifest_error x).
    + apply off_fail in H2 as [H2 ?]. split; [|done]. by apply Forall_app.
    + apply runs_Raise in H2 as [-> ->]. split; [|done]. by rewrite app_nil_r.
Qed.

(** One command on an instance: the manifest, the provider's program, the report. *)
Lemma on_instance_cases {A : Type} manifest instance (operation : InstanceRef -> backend_prog A) report tr o :
  runs (on_instance manifest instance operation report) tr o ->
  (Forall (event_sat off_backend) tr /\ o <> Ok 0%Z) \/
  exists before mine after m r, tr = before ++ map on_cli mine ++ after /\ Forall (event_sat off_backend) before /\
    has_read (fun _ e => e) manifest m before /\ runs (operation (derive_instance_ref sha256 m instance)) mine r /\
    match r with
    | Ok a => runs (report (derive_instance_ref sha256 m instance) a) after o
    | Err _ => Forall (event_sat off_backend) after /\ o <> Ok 0%Z
    end.
Proof.
  intros [H|(before & after & m & -> & Hoff & Hread & H)]%with_manifest_cases; [by left|right].
  apply runs_bind in H as [(t1 & t2 & r & -> & (r' & [= ->] & (mine & -> & H1)%runs_embed)%runs_attempt & H2)|(? & _ & (? & [=] & _)%runs_attempt)].
  exists before, mine, t2, m, r'. split_and!; [done..|]. destruct r' as [a|x]; [done|].
  destruct (on_backend_error other_text x); [by apply off_fail in H2|]. apply runs_Raise in H2 as [-> ->]. by split.
Qed.
Lemma off_report results tr o : runs (report_destruction results) tr o -> Forall (event_sat off_backend) tr.
Proof.
  intros H. eapply only_runs; [|exact H]. unfold report_destruction, say. apply only_bind; [apply only_for_each; intros line _; by apply only_call|].
  intros _. destruct (map _ _); [done|]. apply only_bind; [by apply only_call|by intros].
Qed.
Lemma report_Ok results tr : runs (report_destruction results) tr (Ok 0%Z) -> Forall (fun r => drr_outcome r ∈ [ORemoved; OAbsent]) results.
Proof.
  unfold report_destruction. intros [(t1 & t2 & [] & -> & _ & H)|(? & [=] & _)]%runs_bind.
  destruct (map drr_identifier (List.filter is_retained results)) as [|x l] eqn:E.
  - apply Forall_forall. intros r Hr. assert (Hn : r ∉ List.filter is_retained results).
    { intros Hin. apply (list_elem_of_fmap_2 drr_identifier) in Hin. change (drr_identifier r ∈ map drr_identifier (List.filter is_retained results)) in Hin.
      rewrite E in Hin. by apply elem_of_nil in Hin. }
    destruct (drr_outcome r) eqn:Eo; [set_solver|set_solver|exfalso..]; apply Hn, list_elem_of_In, filter_In;
      (split; [by apply list_elem_of_In|]); unfold is_retained; rewrite Eo; by apply bool_decide_eq_true_2; set_solver.
  - apply runs_bind_call in H as ([] & t3 & -> & H); [by apply runs_Ret in H as [_ [=]]|by destruct H as [_ [=]]].
Qed.

(** ** [destroy] *)

Definition confirmed (instance : string) (yes : bool) (past : list (event terminal_op exn)) : Prop :=
  yes = true \/ (Event IsATty (Ok true) ∈ past /\ Event (Confirm (question instance)) (Ok true) ∈ past).
Definition no_backend (ev : event terminal_op exn) : Prop := match ev with Event (OnCli (OnBackend _)) _ => False | _ => True end.
Lemma say_error_refuses line tr o : runs (say_error line) tr o -> o <> Ok 0%Z /\ Forall no_backend tr.
Proof.
  intros (r & t & -> & H)%runs_bind_call.
  assert (t = [] /\ o <> Ok 0%Z) as [-> ?] by (destruct r; [by apply runs_Ret in H as [-> ->]|by destruct H as [-> ->]]).
  split; [done|]. by repeat constructor.
Qed.
Lemma destroy_cases instance manifest yes tr o : runs (destroy_command instance manifest yes) tr o ->
  (o <> Ok 0%Z /\ Forall no_backend tr) \/
  exists before rest, tr = before ++ map (embed_event (@OnCli)) rest /\ confirmed instance yes before /\ Forall no_backend before /\
    runs (destroy_confirmed sha256 safe_load yaml_error decode validator_text other_text docker_timeout manifest instance) rest o.
Proof.
  unfold destroy. destruct yes.
  - intros (rest & -> & H)%runs_embed. right. exists [], rest. split_and!; [done|by left|constructor|done].
  - intros ([[|]|x] & t1 & -> & H)%runs_bind_call; cbn [negb] in H.
    + apply runs_bind_call in H as ([[|]|x] & t2 & -> & H); cbn [negb] in H.
      * apply runs_embed in H as (rest & -> & H). right. exists [Event IsATty (Ok true); Event (Confirm (question instance)) (Ok true)], rest.
        split_and!; [done| |by repeat constructor|done]. right. split; [by left|right; by left].
      * apply say_error_refuses in H as [Ho H]. left. split; [done|]. by repeat constructor.
      * destruct H as [-> ->]. left. split; [done|]. by repeat constructor.
    + apply say_error_refuses in H as [Ho H]. left. split; [done|]. by repeat constructor.
    + destruct H as [-> ->]. left. split; [done|]. by repeat constructor.
Qed.

(** The events of the frame around the provider's own. *)
Lemma off_backend_lift tr : Forall (event_sat off_backend) tr -> Forall no_backend (map (embed_event (@OnCli)) tr).
Proof. intros H. apply Forall_map. eapply Forall_impl; [exact H|]. by intros [R []]. Qed.
Lemma has_read_lift manifest m tr before : has_read (fun _ e => e) manifest m tr -> has_read (@OnCli) manifest m (before ++ map (embed_event (@OnCli)) tr).
Proof.
  intros (text & data & Hin & H). exists text, data. split; [|done]. apply elem_of_app. right.
  by apply (list_elem_of_fmap_2 (embed_event (@OnCli))) in Hin.
Qed.
Lemma confirmed_grows instance yes past new : confirmed instance yes past -> confirmed instance yes (past ++ new).
Proof. intros [?|[? ?]]; [by left|right]. by rewrite !elem_of_app; auto. Qed.
(** Where an event of the provider lies in the whole run. *)
Lemma provider_event (tr1 tr2 front back : list (event terminal_op exn)) mine R (e : backend_op R) r :
  Forall no_backend front -> Forall no_backend back -> tr1 ++ Event (OnCli (OnBackend e)) r :: tr2 = front ++ map lifted mine ++ back ->
  exists past ev post, mine = past ++ ev :: post /\ tr1 = front ++ map lifted past /\ lifted ev = Event (OnCli (OnBackend e)) r.
Proof.
  intros Hf Hb E. destruct (segment_skip no_backend _ _ _ _ _ E Hf) as (b1 & -> & E1); [by intros []|].
  symmetry in E1. destruct (segment_keep no_backend _ _ _ _ _ E1 Hb) as (b2 & E2); [by intros []|].
  apply map_eq_app in E2 as (past & rest & -> & <- & E3). apply map_eq_cons in E3 as (ev & post & -> & E4 & <-).
  by exists past, ev, post.
Qed.

(** C10. [forge destroy] destroys only what it was told to.  Whatever the terminal, the file system
    and Docker answer: every destructive Docker command is preceded by the confirmation, either
    [--yes] or a yes to the question on a terminal; by the reading of the manifest, which is valid;
    and by a justification for exactly the names derived from that manifest and the instance: the
    inspected labels of its containers and network, or the token of its filestore from the custody.
    It ends in status 0 only if the provider reported every resource removed or absent. *)
Theorem destruction_is_confirmed instance manifest yes tr o :
  runs (destroy_command instance manifest yes) tr o ->
  (forall tr1 argv t r tr2, tr = tr1 ++ Event (OnCli (OnBackend (DockerCli argv t))) r :: tr2 -> destroys argv = true ->
     confirmed instance yes tr1 /\
     exists before past m, tr1 = before ++ map lifted past /\ has_read (@OnCli) manifest m before /\
       justified_destroy (derive_instance_ref sha256 m instance) past argv) /\
  (o = Ok 0%Z -> exists m mine results, has_read (@OnCli) manifest m tr /\
     runs (DockerBackend.destroy docker_timeout true true other_text (derive_instance_ref sha256 m instance)) mine (Ok results) /\
     (forall ev, ev ∈ mine -> lifted ev ∈ tr) /\ Forall (fun d => drr_outcome d ∈ [ORemoved; OAbsent]) results).
Proof.
  assert (Hno : forall t, Forall no_backend t -> forall tr1 R (e : backend_op R) r tr2, t = tr1 ++ Event (OnCli (OnBackend e)) r :: tr2 -> False).
  { intros t Ht tr1 R e r tr2 ->. apply Forall_app in Ht as [_ Ht]. by apply Forall_cons in Ht as [[] _]. }
  intros [[Ho Hn]|(before & rest & -> & Hc & Hn & H)]%destroy_cases.
  { split; [|done]. intros tr1 argv t r tr2 E _. destruct (Hno _ Hn _ _ _ _ _ E). }
  apply on_instance_cases in H as [[Hoff Ho]|(before2 & mine & after & m & r0 & -> & Hoff & Hread & Hrun & Hend)].
  { split; [|done]. intros tr1 argv t r tr2 E _. refine (False_ind _ (Hno _ _ _ _ _ _ _ E)). apply Forall_app. split; [done|by apply off_backend_lift]. }
  rewrite !map_app, map_map, app_assoc. set (front := before ++ map (embed_event (@OnCli)) before2).
  assert (Hfront : Forall no_backend front) by (apply Forall_app; split; [done|by apply off_backend_lift]).
  assert (Hback : Forall no_backend (map (embed_event (@OnCli)) after)).
  { apply off_backend_lift. destruct r0; [by eapply off_report|by destruct Hend]. }
  pose proof (has_read_lift manifest m before2 before Hread) as Hread'. fold front in Hread'. split.
  - intros tr1 argv t r tr2 E Hd. symmetry in E. destruct (provider_event _ _ _ _ _ _ _ _ Hfront Hback E) as (past & [R e r'] & post & -> & -> & Eev).
    split; [by do 2 apply confirmed_grows|]. exists front, past, m. split_and!; [done..|].
    destruct (guarded_runs _ _ _ _ _ _ (guarded_destroy docker_timeout true true other_text [] (derive_instance_ref sha256 m instance)) Hrun) as [_ Hg].
    specialize (Hg past R e r' post eq_refl).
    apply (f_equal (fun ev => match ev with Event (OnCli (OnBackend (DockerCli a _))) _ => Some a | _ => None end)) in Eev. cbn in Eev.
    destruct e; try done. injection Eev as ->. by apply Hg.
  - intros ->. destruct r0 as [results|x]; [|by destruct Hend]. exists m, mine, results. split_and!.
    + destruct Hread' as (text & data & Hin & Hx). exists text, data. split; [|done]. apply elem_of_app. by left.
    + done.
    + intros ev Hev. rewrite !elem_of_app. right. left. by apply (list_elem_of_fmap_2 lifted) in Hev.
    + by eapply report_Ok.
Qed.
End Facts.

(** ** A terminal before a daemon that has only the instance's network left *)

Definition shop_manifest : Manifest := mkManifest "shop" "17.0" Community default_core None [] (mkClient (path_of "addons") None) [] None None [].
(** Every Docker command with the word [stuck] fails. *)
Definition sample_terminal (stuck : string) : handler (E := terminal_op) (X := exn) unit :=
  fun R e => match e in terminal_op R return unit -> result exn R * unit with
             | IsATty | Confirm _ => fun w => (Ok true, w)
             | OnCli e =>
               match e in cli_op R return unit -> result exn R * unit with
               | OnBackend e => fun w => sample_daemon stuck _ e w
               | ReadText _ => fun w => (Ok "", w)
               | Echo _ _ => fun w => (Ok tt, w)
               | _ => fun w => (Err (PortError "not asked"), w)
               end
             end.
Definition project_file : path := path_of "project.yaml".
Definition sample_destroy : terminal_prog Z :=
  destroy Samples.sample_sha256 (fun _ => Some JNull) (fun _ => "") (fun _ => Ok shop_manifest) no_text no_text 30 "dev" project_file false.
Definition destroy_trace : list (event terminal_op exn) := (exec (sample_terminal "") sample_destroy tt).1.2.
Definition rm_event : event terminal_op exn :=
  Event (OnCli (OnBackend (DockerCli (network_rm "odoo-forge-shop-dev") 30))) (Ok (0%Z, "", "")).
Lemma destruction_is_confirmed_witness :
  exists n, destroy_trace !! n = Some rm_event /\ confirmed "dev" false (take n destroy_trace).
Proof.
  assert (Hn : destroy_trace !! 10 = Some rm_event) by (vm_compute; reflexivity).
  exists 10. split; [exact Hn|].
  refine (proj1 (proj1 (destruction_is_confirmed Samples.sample_sha256 (fun _ => Some JNull) (fun _ => "") (fun _ => Ok shop_manifest) no_text no_text 30
    "dev" project_file false destroy_trace (exec (sample_terminal "") sample_destroy tt).1.1 _)
    (take 10 destroy_trace) (network_rm "odoo-forge-shop-dev") 30%Z (Ok (0%Z, "", "")) (drop 11 destroy_trace) _ eq_refl)).
  - apply exec_runs.
  - symmetry. apply take_drop_middle. exact Hn.
Defined.

(** [stop] does not look at what the provider's removal reported: where every removal fails, the
    command still says that the instance was stopped, in status 0. *)
Definition sample_stop : cli_prog Z :=
  stop Samples.sample_sha256 (fun _ => Some JNull) (fun _ => "") (fun _ => Ok shop_manifest) no_text no_text 30 project_file "dev".
Example failed_stop_is_reported_as_stopped :
  let run := exec (sample_terminal "rm") (embed (@OnCli) sample_stop) tt in
  run.1.1 = Ok 0%Z /\
  run.1.2 !! 5 = Some (Event (OnCli (OnBackend (DockerCli (network_rm "odoo-forge-shop-dev") 30))) (Ok (1%Z, "", "no such object"))) /\
  run.1.2 !! 6 = Some (Event (OnCli (Echo false "stopped: project 'shop' instance 'dev'")) (Ok tt)).
Proof. vm_compute. done. Qed.
