(* ===== verification/GitSourceFacts.v ===== *)
(** * What the git adapter tells and what it is told

    The errors of [resolve_ref] do not depend on the user information of the remote, and an
    askpass script prints exactly its secret. *)

From stdpp Require Import pretty.
From S2P Require Import Prelude Effects Regex Values Json JsonFacts Urls Paths Docker Workspace Cli GitSource Credentials.

#[local] Arguments one_of : simpl never.
#[local] Arguments unsafe_byte : simpl never.
#[local] Arguments is_scheme_char : simpl never.

(** ** User information *)

Lemma has_elem c l : has c l = true <-> c ∈ l.
Proof. unfold has. rewrite existsb_elem. setoid_rewrite Ascii.eqb_eq. split; [by intros (x & Hx & <-)|eauto]. Qed.
Lemma has_false c l : has c l = false <-> c ∉ l.
Proof. rewrite <- has_elem. destruct (has c l); split; congruence. Qed.
Lemma has_app c a b : has c (a ++ b) = has c a || has c b.
Proof. apply existsb_app. Qed.
Lemma cut_first_skip c a b : c ∉ a -> cut_first c (a ++ b) = match cut_first c b with Some (x, y) => Some (a ++ x, y) | None => None end.
Proof.
  intros Ha. destruct (cut_first c b) as [[x y]|] eqn:E.
  - apply cut_first_spec in E as [-> Hx]. apply cut_first_spec. split; [by rewrite <- app_assoc|]. set_solver.
  - apply cut_first_None in E. apply cut_first_None. set_solver.
Qed.
Lemma after_last_skip c a b : after_last_chars c (a ++ c :: b) = after_last_chars c b.
Proof.
  unfold after_last_chars. destruct (cut_last c b) as [[x y]|] eqn:E.
  - apply cut_last_spec in E as [-> Hy]. assert (H : cut_last c (a ++ c :: x ++ c :: y) = Some (a ++ c :: x, y)) by (apply cut_last_spec; split; [by rewrite <- app_assoc|done]).
    by rewrite H.
  - apply cut_last_None in E. assert (H : cut_last c (a ++ c :: b) = Some (a, b)) by by apply cut_last_spec. by rewrite H.
Qed.

(** A text that can stand before the "@" of a network location. *)
Definition user_char (c : ascii) : bool := negb (one_of "/?#[]" c) && negb (unsafe_byte c).
Lemma user_excludes c user : user_char c = false -> forallb user_char user = true -> c ∉ user.
Proof. apply class_excludes. Qed.
Lemma split_netloc_user user rest : forallb user_char user = true ->
  split_netloc (user ++ rest) = (user ++ (split_netloc rest).1, (split_netloc rest).2).
Proof.
  induction user as [|c user IH]; cbn; [by destruct (split_netloc rest)|]. intros [Hc Hu]%andb_true_iff. rewrite (IH Hu).
  assert (Hn : one_of "/?#" c = false).
  { destruct (one_of "/?#" c) eqn:E; [|done]. unfold user_char, one_of in *. cbn in E, Hc. revert E Hc.
    destruct (Ascii.eqb c "/"), (Ascii.eqb c "?"), (Ascii.eqb c "#"); done. }
  by rewrite Hn.
Qed.
Lemma filter_user user : forallb user_char user = true -> List.filter (fun c => negb (unsafe_byte c)) user = user.
Proof.
  induction user as [|c user IH]; cbn; [done|]. intros [Hc Hu]%andb_true_iff. unfold user_char in Hc. apply andb_true_iff in Hc as [_ ->]. by rewrite IH.
Qed.

(** The network location of a URL with user information. *)
Definition located (scheme user rest : list ascii) : list ascii := scheme ++ chars "://" ++ user ++ "@"%char :: rest.
Definition good_scheme (scheme : list ascii) : Prop :=
  match scheme with c :: s => (is_lower c || is_upper c) = true /\ forallb is_scheme_char scheme = true | [] => False end.

Lemma scheme_char_facts c : is_scheme_char c = true -> unsafe_byte c = false /\ c0_or_space c = false /\ Ascii.eqb c ":" = false.
Proof. destruct c as [[] [] [] [] [] [] [] []]; vm_compute; intros H; try done; by split_and!. Qed.
Lemma cleaned_located scheme user rest : good_scheme scheme -> forallb user_char user = true ->
  cleaned_url (located scheme user rest) = located scheme user (List.filter (fun c => negb (unsafe_byte c)) rest).
Proof.
  intros Hs Hu. destruct scheme as [|c s]; [done|]. destruct Hs as [Hl Hs]. unfold cleaned_url, located.
  assert (Hd : drop_while c0_or_space ((c :: s) ++ chars "://" ++ user ++ "@"%char :: rest) = (c :: s) ++ chars "://" ++ user ++ "@"%char :: rest).
  { cbn. cbn in Hs. apply andb_true_iff in Hs as [Hc _]. apply scheme_char_facts in Hc as (_ & -> & _). done. }
  rewrite Hd, !List.filter_app. rewrite <- (filter_user user Hu) at 2. f_equal. clear Hl Hd. induction (c :: s) as [|d k IH]; [done|].
  cbn in Hs |- *. apply andb_true_iff in Hs as [Hd Hk]. apply scheme_char_facts in Hd as (-> & _ & _). cbn. f_equal. by apply IH.
Qed.
Lemma cut_scheme scheme user rest : good_scheme scheme ->
  cut_first ":"%char (located scheme user rest) = Some (scheme, "/"%char :: "/"%char :: user ++ "@"%char :: rest).
Proof.
  intros Hs. apply cut_first_spec. split; [done|]. destruct scheme as [|c s]; [done|]. destruct Hs as [_ Hs].
  eapply class_excludes; [|exact Hs]. reflexivity.
Qed.
Lemma urlsplit_located scheme user rest : good_scheme scheme -> forallb user_char user = true ->
  urlsplit (located scheme user rest) = (fun nr => (user ++ "@"%char :: nr.1, nr.2)) <$> urlsplit ("/"%char :: "/"%char :: rest).
Proof.
  intros Hs Hu. unfold urlsplit. fold (cleaned_url (located scheme user rest)). fold (cleaned_url ("/"%char :: "/"%char :: rest)).
  rewrite cleaned_located by done. set (rest' := List.filter (fun c => negb (unsafe_byte c)) rest).
  assert (H2 : cleaned_url ("/"%char :: "/"%char :: rest) = "/"%char :: "/"%char :: rest') by reflexivity. rewrite H2.
  assert (Hd : drop_scheme (located scheme user rest') = "/"%char :: "/"%char :: user ++ "@"%char :: rest').
  { unfold drop_scheme. rewrite cut_scheme by done. destruct scheme as [|c s]; [done|]. destruct Hs as [-> ->]. done. }
  assert (Hd2 : drop_scheme ("/"%char :: "/"%char :: rest') = "/"%char :: "/"%char :: rest').
  { unfold drop_scheme. destruct (cut_first _ _) as [[[|c s] b]|] eqn:E; [done| |done].
    apply cut_first_spec in E as [[= <- _] _]. reflexivity. }
  rewrite Hd, Hd2. rewrite split_netloc_user by done.
  assert (Hat : split_netloc ("@"%char :: rest') = ("@"%char :: (split_netloc rest').1, (split_netloc rest').2)).
  { cbn. change (one_of "/?#" "@") with false. by destruct (split_netloc rest'). }
  rewrite Hat. cbn [fst snd]. destruct (split_netloc rest') as [n r]. cbn [fst snd].
  assert (Ho : "["%char ∉ user) by (eapply user_excludes; [|exact Hu]; reflexivity).
  assert (Hc : "]"%char ∉ user) by (eapply user_excludes; [|exact Hu]; reflexivity).
  rewrite !has_app, (proj2 (has_false "["%char user) Ho), (proj2 (has_false "]"%char user) Hc). cbn [orb].
  change (has "["%char ("@"%char :: n)) with (has "["%char n). change (has "]"%char ("@"%char :: n)) with (has "]"%char n).
  destruct (xorb (has "["%char n) (has "]"%char n)); [done|]. destruct (has "["%char n); [|done].
  rewrite cut_first_skip by done. cbn [cut_first]. change (Ascii.eqb "@" "[") with false. cbv iota.
  destruct (cut_first "["%char n) as [[a b]|]; [|done]. by destruct (bracketed_host_ok _).
Qed.
Lemma contains_middle w a b : contains w (a ++ w ++ b) = true.
Proof.
  induction a as [|c a IH]; cbn.
  - assert (H : is_prefix w (w ++ b) = true) by (induction w as [|c w IH]; [done|]; cbn; rewrite Ascii.eqb_refl; exact IH).
    destruct (w ++ b); cbn; by rewrite H.
  - rewrite IH. by rewrite orb_true_r.
Qed.

(** The public form is made of what stands after the user information. *)
Definition public_form (scheme rest : list ascii) : string :=
  match urlsplit ("/"%char :: "/"%char :: rest) with
  | None => redacted
  | Some (netloc, rest) =>
    match port_of netloc with
    | None => redacted
    | Some port =>
      if bool_decide (hostname netloc = []) then redacted
      else
        let host := if has ":"%char (hostname netloc) then "[" +:+ str (hostname netloc) +:+ "]" else str (hostname netloc) in
        let host := match port with Some n => host +:+ ":" +:+ pretty n | None => host end in
        (str (map lower_char scheme) +:+ ":") +:+ "//" +:+ host +:+ str (normal_rest rest)
    end
  end.
Lemma safe_url_located scheme user rest : good_scheme scheme -> forallb user_char user = true ->
  safe_url (str (located scheme user rest)) = public_form scheme rest.
Proof.
  intros Hs Hu. unfold safe_url. rewrite chars_str.
  assert (Hc : contains (chars "://") (located scheme user rest) = true) by apply contains_middle.
  rewrite Hc. cbn [negb]. rewrite urlsplit_located by done. unfold public_form.
  assert (Hat : has "@"%char (located scheme user rest) = true).
  { apply has_elem. unfold located. set_solver. }
  rewrite Hat. destruct (urlsplit ("/"%char :: "/"%char :: rest)) as [[n r]|]; [|done]. cbn [fmap option_fmap option_map fst snd].
  assert (Ha : forall c l, after_last_chars c (user ++ c :: l) = after_last_chars c l) by (intros; apply after_last_skip).
  assert (Hport : port_of (user ++ "@"%char :: n) = port_of n) by (unfold port_of, port_text, after_user; by rewrite Ha).
  assert (Hhost : hostname (user ++ "@"%char :: n) = hostname n).
  { specialize (Ha "@"%char n). unfold after_last_chars in Ha. unfold hostname. by rewrite Ha. }
  rewrite Hport, Hhost. destruct (port_of n) as [port|]; [|done]. case_bool_decide; [done|].
  assert (Hn : has "@"%char (user ++ "@"%char :: n) = true) by (apply has_elem; set_solver).
  rewrite Hn. cbn [negb]. f_equal.
  assert (Hsch : url_scheme (located scheme user rest) = map lower_char scheme).
  { unfold url_scheme. rewrite cleaned_located, cut_scheme by done. destruct scheme as [|c s]; [done|]. by destruct Hs as [-> ->]. }
  rewrite Hsch. destruct scheme as [|c s]; [done|]. cbn [map]. done.
Qed.

(** The same command line for another remote. *)
Definition redirected (url : string) (ev : event cli_op exn) : event cli_op exn :=
  match ev with
  | Event e r => match e in cli_op R return result exn R -> event cli_op exn with
                 | Process argv env timeout => fun r => Event (Process (<[3 := url]> argv) env timeout) r
                 | e => fun r => Event e r
                 end r
  end.

(** What [resolve_ref] returns or raises does not depend on the user information of the remote: with
    another user, password or token before the "@" of the same URL, and the same answer of git,
    it ends in the same commit or the same error, so no error text can tell them. *)
Theorem git_failures_are_anonymous environ timeout scheme user user' rest ref overlay tr o :
  good_scheme scheme -> forallb user_char user = true -> forallb user_char user' = true ->
  runs (resolve_ref environ timeout (str (located scheme user rest)) ref overlay) tr o ->
  runs (resolve_ref environ timeout (str (located scheme user' rest)) ref overlay) (map (redirected (str (located scheme user' rest))) tr) o.
Proof.
  intros Hs Hu Hu'. unfold resolve_ref. destruct (fullmatch BARE_SHA ref); [by intros [-> ->]%runs_Ret; apply runs_Ret|].
  rewrite !safe_url_located by done. set (public := public_form scheme rest). clearbody public. intros H. apply runs_bind.
  apply runs_bind in H as [(t1 & t2 & [[c out] err] & -> & H & H2)|(x & -> & H)].
  - left. exists (map (redirected (str (located scheme user' rest))) t1), (map (redirected (str (located scheme user' rest))) t2), (c, out, err).
    rewrite map_app. split; [done|]. apply runs_catch in H as [(a & [= <-] & ->%runs_call)|(t3 & t4 & x & -> & _ & H)].
    2:{ destruct x; repeat case_match; by apply runs_Raise in H as [_ [=]]. }
    split; [apply runs_catch; left; exists (c, out, err); split; [done|by apply runs_call]|].
    assert (Ht2 : t2 = []).
    { destruct (negb _) in H2; repeat case_match; first [by apply runs_Raise in H2 as [-> _]|by apply runs_lift in H2 as [-> _]]. }
    by rewrite Ht2 in *.
  - right. exists x. split; [done|]. apply runs_catch in H as [(a & [=] & _)|(t3 & t4 & y & -> & ->%runs_call & H)].
    apply runs_catch. right. assert (Ht4 : t4 = []) by (destruct y; repeat case_match; by apply runs_Raise in H as [-> _]). rewrite Ht4 in *.
    eexists _, [], y. split; [by rewrite map_app|]. split; [by apply runs_call|done].
Qed.

Definition refused_run (url : string) :=
  exec (fun R e => match e in cli_op R return unit -> result exn R * unit with
                   | Process _ _ _ => fun w => (Ok (128%Z, "", "fatal: Authentication failed for '" +:+ url +:+ "'"), w)
                   | _ => fun w => (Err (PortError "not asked"), w)
                   end) (resolve_ref ∅ "30" url "17.0" None) tt.
Definition with_user (user : string) : string := str (located (chars "https") (chars user) (chars "git.example:8443/acme/shop.git?depth=1")).
Lemma git_failures_are_anonymous_witness :
  (refused_run (with_user "bob:s3cret")).1.1 = Err (AuthenticationError "https://git.example:8443/acme/shop.git?depth=1") /\
  runs (resolve_ref ∅ "30" (with_user "") "17.0" None) (map (redirected (with_user "")) (refused_run (with_user "bob:s3cret")).1.2) (refused_run (with_user "bob:s3cret")).1.1.
Proof.
  split; [vm_compute; reflexivity|].
  apply (git_failures_are_anonymous ∅ "30" (chars "https") (chars "bob:s3cret") (chars "") (chars "git.example:8443/acme/shop.git?depth=1") "17.0" None);
    [split; reflexivity|reflexivity|reflexivity|apply exec_runs].
Defined.

(** ** The selected commit *)

(** The lines that are not blank, as hash and reference name. *)
Definition listed_line (line : string) : option (string * string) :=
  if bool_decide (strip line = "") then None
  else Some (match cut_first "009"%char (chars line) with Some (a, b) => (str a, str b) | None => (line, "") end).
Definition listed (stdout : string) : list (string * string) := omap listed_line (splitlines stdout).
(** The hash printed last for a reference name. *)
Definition hash_of (name : string) (l : list (string * string)) : option string :=
  last (omap (fun kv => if bool_decide (kv.2 = name) then Some kv.1 else None) l).
Definition preferred (ref : string) (l : list (string * string)) : option string :=
  match hash_of ("refs/heads/" +:+ ref) l with
  | Some sha => Some sha
  | None =>
    match hash_of ("refs/tags/" +:+ ref +:+ "^{}") l with
    | Some sha => Some sha
    | None => match hash_of ("refs/tags/" +:+ ref) l with Some sha => Some sha | None => fst <$> head l end
    end
  end.

Lemma tag_name_ne ref : "refs/tags/" +:+ ref <> "refs/tags/" +:+ ref +:+ "^{}".
Proof.
  intros H. apply (f_equal (fun s => length (chars s))) in H. rewrite !chars_app, !length_app in H. cbn in H. lia.
Qed.
Lemma hash_of_snoc name l kv : hash_of name (l ++ [kv]) = if bool_decide (kv.2 = name) then Some kv.1 else hash_of name l.
Proof.
  unfold hash_of. rewrite omap_app. cbn. case_bool_decide; [by rewrite last_snoc|by rewrite app_nil_r].
Qed.
Lemma read_lines ref lines : foldl (read_line ref) (mkCandidates None None None None) lines =
  let l := omap listed_line lines in
  mkCandidates (hash_of ("refs/heads/" +:+ ref) l) (hash_of ("refs/tags/" +:+ ref +:+ "^{}") l) (hash_of ("refs/tags/" +:+ ref) l) (fst <$> head l).
Proof.
  cbv zeta. induction lines as [|line lines IH] using rev_ind; [done|]. rewrite foldl_app. cbn [foldl]. rewrite IH. clear IH.
  rewrite omap_app. set (l := omap listed_line lines). unfold read_line, listed_line. cbn [omap list_omap].
  destruct (bool_decide (strip line = "")); [by rewrite app_nil_r|].
  destruct (match cut_first _ _ with Some (a, b) => (str a, str b) | None => (line, "") end) as [sha name].
  cbn [cs_branch cs_peeled cs_tag cs_first]. rewrite !hash_of_snoc. cbn [fst snd].
  assert (Hh : fst <$> head (l ++ [(sha, name)]) = match fst <$> head l with None => Some sha | f => f end) by by destruct l.
  rewrite Hh. repeat case_bool_decide; try done.
  all: exfalso; try (apply (tag_name_ne ref); congruence).
  all: match goal with H : ?n = "refs/heads/" +:+ _, H1 : ?n = "refs/tags/" +:+ _ |- _ => rewrite H in H1; discriminate H1 end.
Qed.

(** C34. The loop over git's listing selects the commit of the branch of that name, else of the peeled
    tag, else of the tag, the last line of each kind counting, and else the first line of the
    listing, whatever reference that line is for; a listing with no line is an error. *)
Theorem selected_commit stdout ref :
  select_sha stdout ref = match preferred ref (listed stdout) with Some sha => Ok sha | None => Err (RuntimeError "no SHA candidate found") end.
Proof.
  unfold select_sha, preferred. rewrite read_lines. cbv zeta. cbn [cs_branch cs_peeled cs_tag cs_first]. fold (listed stdout).
  destruct (hash_of _ _); [done|]. destruct (hash_of _ _); [done|]. destruct (hash_of _ _); [done|]. by destruct (fst <$> head _).
Qed.
(** [git ls-remote] prints every reference whose name ends in the pattern: a missing branch
    resolves to a longer one. *)
Definition other_branch : string := "0123456789abcdef0123456789abcdef01234567" +:+ str [ascii_of_nat 9] +:+ "refs/heads/feature/main".
Example another_branch_is_selected : select_sha other_branch "main" = Ok "0123456789abcdef0123456789abcdef01234567".
Proof. vm_compute. reflexivity. Qed.

(** ** The askpass script *)

(** The value of a one-line Python text literal, read up to its closing quote. *)
Fixpoint literal_body (q : ascii) (l : list ascii) : option (list ascii) :=
  match l with
  | [] => None
  | c :: l' =>
    if Ascii.eqb c q then match l' with [] => Some [] | _ => None end
    else if Ascii.eqb c newline then None
    else if Ascii.eqb c backslash then
      match l' with
      | e :: l1 =>
        if Ascii.eqb e single_quote || Ascii.eqb e dquote || Ascii.eqb e backslash then cons e <$> literal_body q l1
        else if Ascii.eqb e "t" then cons (ascii_of_nat 9) <$> literal_body q l1
        else if Ascii.eqb e "n" then cons newline <$> literal_body q l1
        else if Ascii.eqb e "r" then cons (ascii_of_nat 13) <$> literal_body q l1
        else if Ascii.eqb e "x" then
          match l1 with
          | a :: b :: l2 => match unicode "0" "0" a b with Some c => cons c <$> literal_body q l2 | None => None end
          | _ => None
          end
        else None
      | [] => None
      end
    else cons c <$> literal_body q l'
  end.
Definition literal_value (l : list ascii) : option (list ascii) :=
  match l with
  | q :: l' => if Ascii.eqb q single_quote || Ascii.eqb q dquote then literal_body q l' else None
  | [] => None
  end.

Lemma literal_body_char q c l : q = single_quote \/ q = dquote -> literal_body q (literal_char q c ++ l) = cons c <$> literal_body q l.
Proof.
  intros [->| ->]; destruct c as [[] [] [] [] [] [] [] []]; reflexivity.
Qed.
Lemma literal_char_line q c : q = single_quote \/ q = dquote -> newline ∉ literal_char q c.
Proof.
  intros Hq. assert (H : existsb (Ascii.eqb newline) (literal_char q c) = false).
  { destruct Hq as [->| ->]; destruct c as [[] [] [] [] [] [] [] []]; reflexivity. }
  intros Hin. apply (proj2 (has_elem newline _)) in Hin. unfold has in Hin. congruence.
Qed.
Lemma literal_quote_cases l : literal_quote l = single_quote \/ literal_quote l = dquote.
Proof. unfold literal_quote. destruct (_ && _); auto. Qed.
Lemma literal_one_line s : newline ∉ python_literal s.
Proof.
  unfold python_literal. set (q := literal_quote (chars s)). pose proof (literal_quote_cases (chars s)) as Hq. fold q in Hq.
  assert (Hn : newline <> q) by (destruct Hq as [->| ->]; done). rewrite !elem_of_app, !list_elem_of_singleton.
  intros [?|[Hin|?]]; [done| |done]. apply list_elem_of_In, in_concat in Hin as (w & Hw & Hin). apply in_map_iff in Hw as (c & <- & _).
  apply (literal_char_line q c Hq). by apply list_elem_of_In.
Qed.

(** The askpass script prints its secret and nothing else is in it: whatever the secret holds,
    quotes, backslashes or line ends included, the literal in the script's fourth line has exactly
    the secret as its value, and the script has exactly the lines it is written from. *)
Theorem askpass_script_prints_its_secret secret :
  literal_value (python_literal secret) = Some (chars secret) /\
  split_on newline (askpass_script secret) = askpass_lines secret.
Proof.
  split.
  - unfold python_literal. set (q := literal_quote (chars secret)). pose proof (literal_quote_cases (chars secret)) as Hq. fold q in Hq. clearbody q.
    cbn [app literal_value]. assert (Hb : literal_body q (concat (map (literal_char q) (chars secret)) ++ [q]) = Some (chars secret)).
    { induction (chars secret) as [|c l IH]; cbn [map concat app].
      - cbn. by rewrite Ascii.eqb_refl.
      - rewrite <- app_assoc, literal_body_char, IH by done. done. }
    rewrite Hb. by destruct Hq as [->| ->].
  - unfold askpass_script. change (str [newline]) with (String newline ""). apply split_on_join; [done|].
    pose proof (literal_one_line secret) as Hl. unfold askpass_lines.
    repeat (apply List.Forall_cons; [|]); [..|apply List.Forall_nil]; try (apply (proj1 (has_false newline _)); reflexivity).
    rewrite !chars_app, chars_str, !elem_of_app. intros [Hin|[Hin|Hin]]; [|done|]; by apply (proj2 (has_elem newline _)) in Hin.
Qed.
