(* ===== verification/SecretFiles.v ===== *)
(** * Secrets in files

    [odoo_forge_postgres_docker/secret_injection.py] and the injector of
    [odoo_forge_docker/credential_injection.py]: a secret is written to a private file, handed to
    a block, and the file is removed when the block ends, however it ends.  The programs run on a
    file system in which any call may fail, a write after part of its text. *)

From S2P Require Import Prelude Effects Values Filesystem Docker Cli Credentials.

Inductive secret_op : Type -> Type :=
| MkdTemp (prefix : string) : secret_op fpath
| MksTemp (prefix suffix : string) : secret_op fpath
| SetMode (p : fpath) (mode : Z) : secret_op unit
| CreateFile (p : fpath) (mode : Z) : secret_op unit   (* O_WRONLY | O_CREAT | O_EXCL | O_NOFOLLOW *)
| WriteFile (p : fpath) (text : string) : secret_op unit
| SyncFile (p : fpath) : secret_op unit
| OpenEdit (p : fpath) : secret_op unit                (* O_RDWR | O_NOFOLLOW *)
| Truncate (p : fpath) : secret_op unit
| Rewind (p : fpath) : secret_op unit
| ReadByte (p : fpath) : secret_op string
| CloseFile (p : fpath) : secret_op unit
| Remove (p : fpath) : secret_op unit                  (* [unlink(missing_ok=True)] *)
| RemoveDir (p : fpath) : secret_op unit
| RemoveAll (p : fpath) : secret_op unit               (* [rmtree(ignore_errors=True)] *)
(* the resolvers: a context manager that is entered and left, and a function *)
| EnterResolver (store_ref : string) : secret_op string
| LeaveResolver : secret_op unit
| ResolveHandle (handle : string) : secret_op string
| Remembers (value : string) : secret_op unit          (* [self._resolved_values.add] *)
(* what the block that gets the secret does outside these files *)
| Block (p : fpath) : secret_op unit.
Definition secret_prog := prog secret_op exn.

Definition suppress_os (p : secret_prog unit) : secret_prog unit := catch p (fun e => if is_os_error e then Ret tt else Raise e).
Definition or_injection_error {A : Type} (p : secret_prog A) : secret_prog A :=
  catch p (fun e => Raise (if is_os_error e then SecretInjectionError else e)).

(** ** [PostgreSQLSecretInjector] *)

Definition validate_descriptor (d : CredentialInjectionDescriptor) : result exn unit :=
  ensure (bool_decide (cid_target_kind d = "database") && is_prefix (chars "sops://") (chars (cid_store_ref d))) SecretInjectionError.
Definition write_secret (p : fpath) (plaintext : string) : secret_prog unit :=
  if bool_decide (plaintext = "") || existsb (fun c => code c =? 0) (chars plaintext) then Raise SecretInjectionError
  else or_injection_error (call (CreateFile p 384%Z) ;* finally (call (WriteFile p plaintext) ;* call (SyncFile p)) (call (CloseFile p))).
Definition zero_secret (p : fpath) : secret_prog unit :=
  let* opened := attempt (call (OpenEdit p)) in
  match opened with
  | Err (OSError ENOENT) => Ret tt
  | Err (OSError _) => Raise SecretInjectionError
  | Err e => Raise e
  | Ok _ =>
    finally (or_injection_error (call (Truncate p) ;* call (SyncFile p) ;* call (Rewind p) ;*
               let* left := call (ReadByte p) in
               if bool_decide (left = "") then Ret tt else Raise SecretInjectionError))
      (call (CloseFile p))
  end.
(** [_erase]: the zeroing must succeed, the rest is best effort. *)
Definition erase_dir (dir : fpath) : secret_prog unit := suppress_os (call (RemoveDir dir)).
Definition erase (p dir : fpath) : secret_prog unit := zero_secret p ;* suppress_os (call (Remove p)) ;* erase_dir dir.
Definition secret_path (dir : fpath) : fpath := dir ++ ["postgres-password"].
(** [with self._resolve(descriptor) as plaintext: k(plaintext)] *)
Definition with_resolver {A : Type} (store_ref : string) (k : string -> secret_prog A) : secret_prog A :=
  let* plaintext := call (EnterResolver store_ref) in finally (k plaintext) (call LeaveResolver).
Definition wrapped {A : Type} (p : secret_prog A) : secret_prog A := catch p (fun _ => Raise SecretInjectionError).
(** [with injector.inject(descriptor) as injection: body(injection)] *)
Definition inject {A : Type} (d : CredentialInjectionDescriptor) (body : fpath -> secret_prog A) : secret_prog A :=
  lift (validate_descriptor d) ;*
  let* dir := wrapped (call (MkdTemp "odoo-forge-postgres-")) in
  let* private := attempt (call (SetMode dir 448%Z)) in
  match private with
  | Err _ => erase_dir dir ;* Raise SecretInjectionError
  | Ok _ =>
    finally (wrapped (with_resolver (cid_store_ref d) (write_secret (secret_path dir))) ;* body (secret_path dir)) (erase (secret_path dir) dir)
  end.

(** ** [SopsEnvFileInjector] *)

(** [_resolve]; the value is kept, to redact texts. *)
Definition resolve_secret (handle : string) : secret_prog string :=
  let* value := catch (call (ResolveHandle handle)) (fun e => Raise (if is_credential_error e then e else CredentialError)) in
  if existsb is_crlf (chars value) then Raise CredentialError else
  call (Remembers value) ;* Ret value.
(** [with injector.env_file(spec) as path: body(path)] *)
Definition env_file {A : Type} (secret_env : list (string * string)) (body : fpath -> secret_prog A) : secret_prog A :=
  let* p := call (MksTemp "odoo-forge-credentials-" ".env") in
  finally (
    call (SetMode p 384%Z) ;*
    finally (for_each (fun kh => let* value := resolve_secret kh.2 in call (WriteFile p (kh.1 +:+ "=" +:+ value +:+ str [newline]))) secret_env)
      (call (CloseFile p)) ;*
    body p) (call (Remove p)).
(** [directory / key] *)
Definition slash (dir : fpath) (key : string) : fpath :=
  let segments := List.filter (fun s => negb (bool_decide (s ∈ [""; "."]))) (split_on "/" key) in
  if is_prefix ["/"%char] (chars key) then segments else dir ++ segments.
Definition write_one (dir : fpath) (kh : string * string) : secret_prog unit :=
  let p := slash dir kh.1 in
  let* value := resolve_secret kh.2 in
  call (CreateFile p 384%Z) ;* finally (call (WriteFile p value)) (call (CloseFile p)) ;* call (SetMode p 384%Z).
(** [with injector.secret_files(spec) as files: body(files)] *)
Definition secret_files {A : Type} (secret_env : list (string * string)) (body : list (string * fpath) -> secret_prog A) : secret_prog A :=
  let* dir := call (MkdTemp "odoo-forge-credentials-") in
  finally (for_each (write_one dir) secret_env ;* body (map (fun kh => (kh.1, slash dir kh.1)) secret_env)) (call (RemoveAll dir)).
(** [validate] *)
Definition validate_secrets (secret_env : list (string * string)) : secret_prog unit :=
  for_each (fun kh => let* _ := resolve_secret kh.2 in Ret tt) secret_env.

(** [str.replace] *)
Fixpoint replace_from (old new : list ascii) (skip : nat) (t : list ascii) : list ascii :=
  match t with
  | [] => []
  | c :: t' =>
    match skip with
    | S k => replace_from old new k t'
    | O => if is_prefix old t then new ++ replace_from old new (length old - 1) t' else c :: replace_from old new 0 t'
    end
  end.
Definition replace_text (old new : string) (t : string) : string :=
  match chars old with
  | [] => new +:+ str (concat (map (fun c => c :: chars new) (chars t)))
  | old => str (replace_from old (chars new) 0 (chars t))
  end.
Definition REDACTED : string := "[REDACTED]".
Definition longer (a b : string) : Prop := String.length b <= String.length a.
#[export] Instance longer_dec : RelDecision longer.
Proof. intros a b. unfold longer. apply _. Defined.
(** [redact], for the resolved values in some order of the set and the additional ones. *)
Definition redact (resolved additional : list string) (value : string) : string :=
  foldl (fun value secret => replace_text secret REDACTED value) value
    (merge_sort longer (remove_dups (resolved ++ List.filter (fun s => negb (bool_decide (s = ""))) additional))).

(** * Secrets in files: facts

    The injectors of [SecretFiles] on a POSIX file system whose calls may fail at any point: what
    is left of a secret when its block has ended, and what [redact] lets through. *)

(** ** A file system that may fail at every call *)

(** [Cut n]: the call fails; a write leaves the first [n] characters of its text. *)
Inductive fault : Type := Fine | Cut (n : nat).
#[export] Instance fault_eq_dec : EqDecision fault.
Proof. solve_decision. Defined.
Record vault : Type := mkVault { v_fs : fs; v_faults : list fault; v_known : list string }.

Section Vault.
Variable uid : nat.
(** The path a fresh temporary name gets. *)
Variable tmp : string -> string -> fpath.
(** What a handle or a reference resolves to, and what the block does to the file system. *)
Variable answer : string -> result exn string.
Variable block : fpath -> fs -> result exn unit * fs.

Definition fresh (p : fpath) (i : inode) (s : fs) : result exn fpath * fs :=
  match s !! p with
  | Some _ => (Err (OSError EEXIST), s)
  | None => if is_dir s (parent p) then (Ok p, <[p := i]> s) else (Err (OSError ENOENT), s)
  end.
(** The file under [p], if that is a file, after a change of its text. *)
Definition edit (p : fpath) (f : string -> string) (s : fs) : fs :=
  match s !! p with Some (mkInode (NFile c) u m) => <[p := mkInode (NFile (f c)) u m]> s | _ => s end.
Definition text_at (s : fs) (p : fpath) : option string :=
  match s !! p with Some (mkInode (NFile c) _ _) => Some c | _ => None end.
Definition on_file (s : fs) (p : fpath) (f : string -> string) : result exn unit * fs :=
  match text_at s p with Some _ => (Ok tt, edit p f s) | None => (Err (OSError EIO), s) end.
Definition remove (s : fs) (p : fpath) : result exn unit * fs :=
  match s !! p with
  | None => (Ok tt, s)
  | Some i => if bool_decide (i_node i = NDir) then (Err (OSError EIO), s) else (Ok tt, delete p s)
  end.
Definition inside (dir p : fpath) : Prop := dir `prefix_of` p.
Definition remove_dir (s : fs) (dir : fpath) : result exn unit * fs :=
  match s !! dir with
  | None => (Err (OSError ENOENT), s)
  | Some i =>
    if bool_decide (i_node i = NDir) && bool_decide (filter (fun kv => inside dir kv.1) s = {[dir := i]})
    then (Ok tt, delete dir s) else (Err (OSError EIO), s)
  end.
Definition open_edit (s : fs) (p : fpath) : result exn unit :=
  match s !! p with Some (mkInode (NFile _) _ _) => Ok tt | Some _ => Err (OSError EIO) | None => Err (OSError ENOENT) end.

Definition secret_call (R : Type) (e : secret_op R) (s : fs) : result exn R * fs :=
  match e in secret_op R return result exn R * fs with
  | MkdTemp a => fresh (tmp a "") (mkInode NDir uid 448%Z) s
  | MksTemp a b => fresh (tmp a b) (mkInode (NFile "") uid 384%Z) s
  | SetMode p mode => fs_call uid 0 "" unit (Chmod p mode) s
  | CreateFile p mode => fs_call uid 0 "" unit (OpenCreate p mode) s
  | WriteFile p t => on_file s p (fun c => c +:+ t)
  | SyncFile _ | CloseFile _ | Rewind _ | LeaveResolver | Remembers _ => (Ok tt, s)
  | OpenEdit p => (open_edit s p, s)
  | Truncate p => on_file s p (fun _ => "")
  | ReadByte p => (match text_at s p with Some c => Ok (str (take 1 (chars c))) | None => Err (OSError EIO) end, s)
  | Remove p => remove s p
  | RemoveDir p => remove_dir s p
  | RemoveAll p => (Ok tt, filter (fun kv => ~ inside p kv.1) s)
  | EnterResolver r | ResolveHandle r => (answer r, s)
  | Block p => block p s
  end.
(** A call that fails: only a write has an effect, and [rmtree] hides its failure. *)
Definition cut_call (R : Type) (e : secret_op R) (n : nat) (s : fs) : result exn R * fs :=
  match e in secret_op R return result exn R * fs with
  | WriteFile p t => (Err (OSError EIO), edit p (fun c => c +:+ str (take n (chars t))) s)
  | RemoveAll _ | Remembers _ => (Ok tt, s)
  | _ => (Err (OSError EIO), s)
  end.
Definition keeps (R : Type) (e : secret_op R) (known : list string) : list string :=
  match e with Remembers value => value :: known | _ => known end.
Definition machine : handler (E := secret_op) (X := exn) vault :=
  fun R e v =>
    let '(r, s) := match v_faults v with Cut n :: _ => cut_call R e n (v_fs v) | _ => secret_call R e (v_fs v) end in
    (r, mkVault s (tail (v_faults v)) (keeps R e (v_known v))).

(** No plaintext is at [p]. *)
Definition emptied (p : fpath) (s : fs) : Prop := text_at s p = None \/ text_at s p = Some "".
(** A call still to come fails. *)
Definition faulty (v : vault) : Prop := Exists (fun f => f <> Fine) (v_faults v).
(** Something that is not a file is at [p]. *)
Definition occupied (p : fpath) (s : fs) : Prop := is_Some (s !! p) /\ text_at s p = None.

(** ** The file of a block *)

(** What one call does, unless the schedule makes it fail. *)
Lemma machine_cases R (e : secret_op R) v r v' :
  machine R e v = (r, v') ->
  (r, v_fs v') = secret_call R e (v_fs v) \/ exists n, (r, v_fs v') = cut_call R e n (v_fs v).
Proof.
  unfold machine. intros E. destruct (v_faults v) as [|[|n] l]; [left|left|right; exists n];
    [destruct (secret_call R e (v_fs v))..|destruct (cut_call R e n (v_fs v))]; by injection E as <- <-.
Qed.
Lemma text_at_delete p q s : text_at (delete q s) p = if bool_decide (p = q) then None else text_at s p.
Proof.
  unfold text_at. case_bool_decide as H; [by rewrite H, lookup_delete_eq|]. by rewrite lookup_delete_ne by done.
Qed.
Definition removes (R : Type) (e : secret_op R) : Prop := match e with Remove _ | RemoveDir _ => True | _ => False end.
Lemma removal_keeps_empty p R (e : secret_op R) v : removes R e -> emptied p (v_fs v) -> emptied p (v_fs (machine R e v).2).
Proof.
  intros He Hv. destruct (machine R e v) as [r v'] eqn:E. apply machine_cases in E. cbn [snd].
  assert (H : v_fs v' = v_fs v \/ exists q, v_fs v' = delete q (v_fs v)).
  { destruct e; try done; cbn [secret_call cut_call] in E; destruct E as [E|[n E]]; try (injection E as _ E'; by left).
    - unfold remove in E. repeat case_match; injection E as _ E'; eauto.
    - unfold remove_dir in E. repeat case_match; injection E as _ E'; eauto. }
  destruct H as [->|[q ->]]; [done|]. unfold emptied. rewrite text_at_delete. case_bool_decide; [by left|done].
Qed.
Lemma suppress_os_only p : only removes p -> only removes (suppress_os p).
Proof. intros Hp. unfold suppress_os. apply only_catch; [done|]. intros e. by destruct (is_os_error e). Qed.

Lemma zero_secret_empties p v v' : leads machine (zero_secret p) v (Ok tt) v' -> emptied p (v_fs v').
Proof.
  intros (o & v1 & Ho%leads_call%machine_cases & H)%leads_attempt_bind. cbn [secret_call cut_call] in Ho. destruct o as [[]|e].
  - apply leads_finally in H as (r0 & v2 & [[]|] & H & Hc%leads_call%machine_cases & E); [|done]. subst r0.
    assert (v_fs v' = v_fs v2) as ->. { destruct Hc as [[= ?]|[n [= ?]]]; done. }
    apply leads_catch in H as (r0 & v3 & H & Hr). destruct r0 as [[]|e].
    + destruct Hr as [_ ->]. do 3 (apply leads_bind in H as [([] & ? & _ & H)|(? & [=] & _)]).
      apply leads_bind_call in H. destruct (machine _ _ _) as [[c|e] v4] eqn:E in H; [|by destruct H as [[=] _]].
      apply machine_cases in E. case_bool_decide as Hc'; [|by apply leads_Raise in H as [[=] _]].
      apply leads_Ret in H as [_ ->]. subst c. cbn [secret_call cut_call] in E. destruct E as [E|[n [=]]].
      destruct (text_at _ _) as [c|] eqn:Et in E; [|done]. injection E as E1 E2. right. rewrite <- E2 in Et. rewrite Et.
      f_equal. by destruct c.
    + by apply leads_Raise in Hr as [[=] _].
  - destruct Ho as [Ho|[n [= -> ?]]]; [|by apply leads_Raise in H as [[=] _]].
    unfold open_edit in Ho. destruct (v_fs v !! p) as [[[] ]|] eqn:Ev; injection Ho as Ho E; simplify_eq;
      try by apply leads_Raise in H as [[=] _].
    apply leads_Ret in H as [_ ->]. left. unfold text_at. by rewrite E, Ev.
Qed.
Lemma erase_empties p dir v v' : leads machine (erase p dir) v (Ok tt) v' -> emptied p (v_fs v').
Proof.
  unfold erase. intros [([] & v1 & Hz%zero_secret_empties & H)|(? & [=] & _)]%leads_bind.
  refine (only_leads machine removes (fun v1 v2 => emptied p (v_fs v1) -> emptied p (v_fs v2)) _ v1 _ v' _ _ _ _ H Hz).
  - by intros ?.
  - intros ??? H1 H2 ?. auto.
  - intros R e w He. by apply removal_keeps_empty.
  - apply only_bind; [|intros _]; apply suppress_os_only; apply only_call; exact I.
Qed.

(** ** When nothing fails *)

Lemma machine_quiet R (e : secret_op R) s k :
  machine R e (mkVault s [] k) = ((secret_call R e s).1, mkVault (secret_call R e s).2 [] (keeps R e k)).
Proof. unfold machine. cbn [v_faults v_fs v_known tail]. by destruct (secret_call R e s). Qed.
Lemma leads_then {A B : Type} (p : secret_prog A) (k : A -> secret_prog B) v a v1 r v2 :
  leads machine p v (Ok a) v1 -> leads machine (k a) v1 r v2 -> leads machine (bind p k) v r v2.
Proof. intros. apply leads_bind. left. eauto. Qed.
Lemma leads_quiet {R : Type} (e : secret_op R) s k a s' :
  secret_call R e s = (Ok a, s') -> leads machine (call e) (mkVault s [] k) (Ok a) (mkVault s' [] (keeps R e k)).
Proof. intros E. apply leads_call. by rewrite machine_quiet, E. Qed.
Lemma leads_unless {A : Type} (p : secret_prog A) f v a v' : leads machine p v (Ok a) v' -> leads machine (catch p f) v (Ok a) v'.
Proof. intros H. apply leads_catch. by exists (Ok a), v'. Qed.
Lemma leads_closing {A : Type} (p : secret_prog A) c v (r : result exn A) v1 v' :
  leads machine p v r v1 -> leads machine c v1 (Ok tt) v' -> leads machine (finally p c) v r v'.
Proof. intros. apply leads_finally. by exists r, v1, (Ok tt). Qed.

Lemma parent_secret dir : parent (secret_path dir) = dir.
Proof. unfold parent, secret_path. apply removelast_last. Qed.
Lemma secret_path_ne dir : secret_path dir <> dir.
Proof. intros H%(f_equal length). unfold secret_path in H. rewrite length_app in H. cbn in H. lia. Qed.

Lemma write_secret_quiet p plaintext s k :
  plaintext <> "" -> ascii_of_nat 0 ∉ chars plaintext -> s !! p = None -> is_dir s (parent p) = true ->
  leads machine (write_secret p plaintext) (mkVault s [] k) (Ok tt) (mkVault (<[p := mkInode (NFile plaintext) uid 384%Z]> s) [] k).
Proof.
  intros Hne Hnul Hs Hdir. unfold write_secret. rewrite bool_decide_eq_false_2 by done.
  replace (existsb _ _) with false.
  2: { symmetry. apply not_true_is_false. intros (c & Hc & H0%Nat.eqb_eq)%existsb_exists. apply Hnul.
       rewrite <- H0, ascii_nat_embedding. by apply list_elem_of_In. }
  apply leads_unless. eapply leads_then.
  { apply leads_quiet. cbn [secret_call fs_call]. rewrite Hs, Hdir. reflexivity. }
  eapply leads_closing; [eapply leads_then|].
  - apply leads_quiet. cbn [secret_call]. unfold on_file, text_at, edit. rewrite lookup_insert_eq. reflexivity.
  - by apply leads_quiet.
  - cbn [keeps]. rewrite insert_insert_eq. by apply leads_quiet.
Qed.
(** The private directory holds the secret's file and nothing else. *)
Definition only_secret_in (s : fs) (dir : fpath) : Prop :=
  exists u m f, is_Some (text_at s (secret_path dir)) /\ s !! secret_path dir = Some f /\ s !! dir = Some (mkInode NDir u m) /\
    filter (fun kv => inside dir kv.1) s = <[secret_path dir := f]> {[dir := mkInode NDir u m]}.
Lemma erase_quiet dir s k : only_secret_in s dir ->
  leads machine (erase (secret_path dir) dir) (mkVault s [] k) (Ok tt) (mkVault (delete dir (delete (secret_path dir) s)) [] k).
Proof.
  intros (u & m & f & [c Hc] & Hf & Hd & Hin). unfold text_at in Hc. rewrite Hf in Hc. destruct f as [[|c0|] fu fm]; try done. simplify_eq.
  set (p := secret_path dir) in *. pose proof (secret_path_ne dir) as Hp. fold p in Hp.
  set (s1 := <[p := mkInode (NFile "") fu fm]> s). unfold erase. eapply leads_then; [|eapply leads_then].
  - unfold zero_secret. apply leads_attempt_bind. exists (Ok tt), (mkVault s [] k). split.
    { apply leads_quiet. cbn [secret_call]. unfold open_edit. by rewrite Hf. }
    eapply leads_closing; [|by apply leads_quiet]. apply leads_unless. eapply leads_then.
    { apply leads_quiet. cbn [secret_call]. unfold on_file, text_at, edit. rewrite Hf. reflexivity. }
    do 2 (eapply leads_then; [by apply leads_quiet|]). eapply leads_then.
    { apply leads_quiet. cbn [secret_call]. unfold text_at. rewrite lookup_insert_eq. reflexivity. }
    by apply leads_Ret.
  - apply leads_unless, leads_quiet. cbn [secret_call]. unfold remove. rewrite lookup_insert_eq. reflexivity.
  - apply leads_unless, leads_quiet. cbn [secret_call]. rewrite delete_insert_eq. unfold remove_dir.
    rewrite lookup_delete_ne, Hd by done. rewrite bool_decide_eq_true_2 by done. rewrite bool_decide_eq_true_2; [done|].
    rewrite map_filter_delete, Hin, delete_insert_eq. apply delete_id. by rewrite lookup_singleton_ne by done.
Qed.

(** ** However the block ends *)

Lemma fresh_answer q i s p s' : fresh q i s = (Ok p, s') -> p = q.
Proof. unfold fresh. repeat case_match; by intros [= <- _]. Qed.
Lemma remove_answer p v v' : leads machine (call (Remove p)) v (Ok tt) v' -> v_fs v' !! p = None.
Proof.
  intros E%leads_call%machine_cases. cbn [secret_call cut_call] in E. destruct E as [E|[n [=]]]. unfold remove in E.
  destruct (v_fs v !! p) as [i|] eqn:Ep; [|injection E as ->; done]. case_bool_decide; [done|]. injection E as ->. apply lookup_delete_eq.
Qed.
Lemma wrapped_answer {A : Type} (p : secret_prog A) v a v' : leads machine (wrapped p) v (Ok a) v' -> leads machine p v (Ok a) v'.
Proof. intros (r0 & v1 & H & Hr)%leads_catch. destruct r0; [by destruct Hr as [[= ->] ->]|]. by apply leads_Raise in Hr as [[=] _]. Qed.
(** *** The calls of a cleanup, when none of them is made to fail *)

Definition calm (v : vault) : Prop := Forall (eq Fine) (v_faults v).
Definition after {R : Type} (v : vault) (e : secret_op R) (s : fs) : vault := mkVault s (tail (v_faults v)) (keeps R e (v_known v)).
Lemma calm_or_faulty v : calm v \/ faulty v.
Proof.
  unfold calm, faulty. induction (v_faults v) as [|f l [IH|IH]]; [by left| |right; by right].
  destruct (decide (f = Fine)) as [->|Hf]; [left; by constructor|right; by left].
Qed.
Lemma calm_after {R : Type} v (e : secret_op R) s : calm v -> calm (after v e s).
Proof. unfold calm, after. cbn [v_faults]. destruct (v_faults v); cbn [tail]; [done|]. by intros [_ H]%Forall_cons. Qed.
Lemma leads_calm {R : Type} (e : secret_op R) v r s' :
  calm v -> secret_call R e (v_fs v) = (r, s') -> leads machine (call e) v r (after v e s').
Proof.
  unfold calm. intros Hc E. apply leads_call. unfold machine, after. destruct (v_faults v) as [|f l]; [by rewrite E|].
  apply Forall_cons in Hc as [<- _]. by rewrite E.
Qed.
Lemma leads_suppressed (c : secret_prog unit) v r v' : leads machine c v r v' ->
  (forall e, r = Err e -> is_os_error e = true) -> leads machine (suppress_os c) v (Ok tt) v'.
Proof.
  intros H He. apply leads_catch. exists r, v'. split; [done|]. destruct r as [[]|e]; [done|]. rewrite (He e eq_refl). by apply leads_Ret.
Qed.
Lemma removal_error R (e : secret_op R) v x v' : removes R e -> machine R e v = (Err x, v') -> is_os_error x = true.
Proof.
  intros He Hc%machine_cases. destruct e; try done; cbn [secret_call cut_call] in Hc; unfold remove, remove_dir in Hc;
    destruct Hc as [Hc|[n Hc]]; repeat case_match; by simplify_eq.
Qed.
Lemma removal_suppressed (e : secret_op unit) v r v' : removes unit e -> leads machine (suppress_os (call e)) v r v' -> r = Ok tt.
Proof.
  intros He (r0 & v1 & Hc%leads_call & H)%leads_catch. destruct r0 as [[]|x]; [by destruct H as [-> _]|].
  rewrite (removal_error _ _ _ _ _ He Hc) in H. by apply leads_Ret in H as [-> _].
Qed.
Lemma zero_secret_calm p v : calm v -> ~ occupied p (v_fs v) -> exists v', leads machine (zero_secret p) v (Ok tt) v'.
Proof.
  intros Hc Ho. unfold zero_secret. destruct (v_fs v !! p) as [i|] eqn:Ei.
  2:{ exists (after v (OpenEdit p) (v_fs v)). apply leads_attempt_bind. exists (Err (OSError ENOENT)). eexists. split.
      - apply leads_calm; [done|]. cbn [secret_call]. unfold open_edit. by rewrite Ei.
      - by apply leads_Ret. }
  destruct i as [[|c|l] u m]; [destruct Ho; split; [by eexists|unfold text_at; by rewrite Ei]| |destruct Ho; split; [by eexists|unfold text_at; by rewrite Ei]].
  set (s1 := <[p := mkInode (NFile "") u m]> (v_fs v)).
  assert (Ht : text_at s1 p = Some "") by (unfold text_at, s1; by rewrite lookup_insert_eq).
  eexists. apply leads_attempt_bind. exists (Ok tt). eexists. split.
  { apply leads_calm; [done|]. cbn [secret_call]. unfold open_edit. by rewrite Ei. }
  eapply leads_closing.
  - apply leads_unless. eapply leads_then.
    { apply leads_calm; [by apply calm_after|]. cbn [secret_call after v_fs]. unfold on_file, text_at, edit. rewrite Ei. fold s1. reflexivity. }
    do 2 (eapply leads_then; [apply leads_calm; [by repeat apply calm_after|reflexivity]|]). eapply leads_then.
    { apply leads_calm; [by repeat apply calm_after|]. cbn [secret_call after v_fs]. rewrite Ht. reflexivity. }
    by apply leads_Ret.
  - apply leads_calm; [by repeat apply calm_after|reflexivity].
Qed.

(** What makes an erasure fail, and a removal. *)
Lemma erase_fails p dir v e v' : leads machine (erase p dir) v (Err e) v' -> faulty v \/ occupied p (v_fs v).
Proof.
  intros [([] & v1 & _ & H)|(x & [= ->] & H)]%leads_bind.
  - apply leads_bind in H as [([] & v2 & _ & H)|(x & [= <-] & H)]; by apply removal_suppressed in H.
  - destruct (calm_or_faulty v) as [Hc|Hc]; [|by left]. right. destruct (decide (is_Some (v_fs v !! p) /\ text_at (v_fs v) p = None)) as [Ho|Ho]; [done|].
    destruct (zero_secret_calm p v Hc Ho) as [v2 H2]. by destruct (leads_fun _ _ _ _ _ _ _ H H2).
Qed.
Lemma remove_fails p v e v' : leads machine (call (Remove p)) v (Err e) v' -> faulty v \/ occupied p (v_fs v).
Proof.
  intros H. destruct (calm_or_faulty v) as [Hc|Hc]; [|by left]. right.
  destruct (secret_call unit (Remove p) (v_fs v)) as [r s1] eqn:E. pose proof (leads_calm _ _ _ _ Hc E) as H2.
  destruct (leads_fun _ _ _ _ _ _ _ H H2) as [<- _]. cbn [secret_call] in E. unfold remove in E.
  destruct (v_fs v !! p) as [i|] eqn:Ei; [|done]. case_bool_decide as Hd; [|done]. split; [by eexists|]. unfold text_at. rewrite Ei.
  destruct i as [n u m]. cbn in Hd. by rewrite Hd.
Qed.

(** The part of [inject] that the erasure follows: from obtaining the plaintext to the end of
    the block. *)
Definition in_block {A : Type} (d : CredentialInjectionDescriptor) (body : fpath -> secret_prog A) (dir : fpath) : secret_prog A :=
  wrapped (with_resolver (cid_store_ref d) (write_secret (secret_path dir))) ;* body (secret_path dir).
(** The same of [env_file]. *)
Definition in_env_block {A : Type} (secret_env : list (string * string)) (body : fpath -> secret_prog A) (p : fpath) : secret_prog A :=
  call (SetMode p 384%Z) ;*
  finally (for_each (fun kh => let* value := resolve_secret kh.2 in call (WriteFile p (kh.1 +:+ "=" +:+ value +:+ str [newline]))) secret_env)
    (call (CloseFile p)) ;*
  body p.
(** Removing what [main] left, after it ended in [v1], failed; the failure replaces the outcome,
    and has its reason: a call that was made to fail, or something at [p] that is no file. *)
Definition cleanup_failed {A : Type} (main : secret_prog A) (cleanup : secret_prog unit) (p : fpath) (r : result exn A) (v' : vault) : Prop :=
  exists v0 ended v1 e, leads machine main v0 ended v1 /\ leads machine cleanup v1 (Err e) v' /\ r = Err e /\
    (faulty v1 \/ occupied p (v_fs v1)).

Lemma inject_empties {A : Type} d (body : fpath -> secret_prog A) v r v' :
  let dir := tmp "odoo-forge-postgres-" "" in let p := secret_path dir in
  emptied p (v_fs v) -> leads machine (inject d body) v r v' ->
  emptied p (v_fs v') \/ cleanup_failed (in_block d body dir) (erase p dir) p r v'.
Proof.
  intros dir p Hv H. apply leads_bind in H as [(u0 & v0 & [_ ->]%leads_lift & H)|(e & -> & [_ ->]%leads_lift)]; [|by left].
  assert (Hmk : forall r0 v1, leads machine (call (MkdTemp "odoo-forge-postgres-")) v r0 v1 -> emptied p (v_fs v1)).
  { intros r0 v1 E%leads_call%machine_cases. cbn [secret_call cut_call] in E. unfold fresh in E. fold dir in E.
    assert (Hs : v_fs v1 = v_fs v \/ v_fs v1 = <[dir := mkInode NDir uid 448%Z]> (v_fs v)).
    { destruct E as [E|[n E]]; repeat case_match; injection E as _ E; auto. }
    unfold emptied, text_at in *. destruct Hs as [->| ->]; [done|]. rewrite lookup_insert_ne; [done|]. intros E1. by apply (secret_path_ne dir). }
  apply leads_bind in H as [(dir1 & v1 & Hdir%wrapped_answer & H)|(e & -> & He)].
  2:{ left. unfold wrapped in He. apply leads_catch in He as (r0 & v1 & Hc%Hmk & H). destruct r0; [by destruct H as [_ ->]|]. by apply leads_Raise in H as [_ ->]. }
  pose proof (Hmk _ _ Hdir) as Hv1. assert (dir1 = dir) as ->.
  { apply leads_call, machine_cases in Hdir as [Hdir|[n [=]]]. symmetry in Hdir. by apply fresh_answer in Hdir. }
  apply leads_attempt_bind in H as (o & v2 & Hmode & H). destruct o as [[]|e].
  - apply leads_finally in H as (r0 & v3 & rc & Hb & Hc & E). destruct rc as [[]|e]; [left; by eapply erase_empties|].
    right. exists v2, r0, v3, e. split_and!; [exact Hb|exact Hc|exact E|by eapply erase_fails].
  - left. assert (Hv2 : emptied p (v_fs v2)).
    { apply leads_call, machine_cases in Hmode. destruct Hmode as [E|[n E]]; cbn [secret_call cut_call fs_call] in E; [|by injection E as _ ->].
      destruct (v_fs v1 !! dir) as [[[|c|l] u m]|]; cbn in E; try discriminate E; injection E as _ ->; exact Hv1. }
    assert (Hend : forall x, leads machine (erase_dir dir) v2 x v' -> emptied p (v_fs v')).
    { intros x Hx. refine (only_leads machine removes (fun v1 v2 => emptied p (v_fs v1) -> emptied p (v_fs v2)) _ _ _ _ _ _ _ _ Hx Hv2).
      - by intros ?.
      - intros ??? H1 H2 ?. auto.
      - intros R e0 w He. by apply removal_keeps_empty.
      - unfold erase_dir. apply suppress_os_only. apply only_call. exact I. }
    apply leads_bind in H as [(? & ? & Hx & [_ ->]%leads_Raise)|(e' & -> & Hx)]; by eapply Hend.
Qed.

Lemma env_file_removes {A : Type} env (body : fpath -> secret_prog A) v r v' :
  let p := tmp "odoo-forge-credentials-" ".env" in
  v_fs v !! p = None -> leads machine (env_file env body) v r v' ->
  v_fs v' !! p = None \/ cleanup_failed (in_env_block env body p) (call (Remove p)) p r v'.
Proof.
  intros p Hv H. apply leads_bind in H as [(p1 & v1 & Hp & H)|(e & -> & He)].
  - assert (p1 = p) as ->.
    { apply leads_call, machine_cases in Hp as [Hp|[n [=]]]. symmetry in Hp. by apply fresh_answer in Hp. }
    apply leads_finally in H as (r0 & v2 & [[]|e] & Hb & Hc & E); [left; by apply remove_answer in Hc|].
    right. exists v1, r0, v2, e. split_and!; [exact Hb|exact Hc|exact E|by eapply remove_fails].
  - left. apply leads_call, machine_cases in He. cbn [secret_call cut_call] in He. unfold fresh in He.
    destruct He as [E|[n E]]; repeat case_match; try discriminate E; injection E as _ E; rewrite E; exact Hv.
Qed.

(** [secret_files] hides the failure of its removal. *)
Lemma secret_files_removed {A : Type} env (body : list (string * fpath) -> secret_prog A) v r v' :
  let dir := tmp "odoo-forge-credentials-" "" in
  leads machine (secret_files env body) v r v' ->
  v_fs v' = v_fs v \/ (forall p, inside dir p -> v_fs v' !! p = None) \/
  exists v1, leads machine (call (RemoveAll dir)) v1 (Ok tt) v' /\ v_fs v' = v_fs v1 /\ faulty v1.
Proof.
  intros dir H. apply leads_bind in H as [(dir1 & v1 & Hdir & H)|(e & -> & He)].
  - assert (dir1 = dir) as ->.
    { apply leads_call, machine_cases in Hdir as [Hdir|[n [=]]]. symmetry in Hdir. by apply fresh_answer in Hdir. }
    right. apply leads_finally in H as (r0 & v2 & rc & _ & Hc & _). destruct (calm_or_faulty v2) as [Hcalm|Hf].
    + left. pose proof (leads_calm (RemoveAll dir) v2 _ _ Hcalm eq_refl) as H2. destruct (leads_fun _ _ _ _ _ _ _ Hc H2) as [_ ->].
      intros p Hp. cbn [v_fs after]. apply map_lookup_filter_None. right. by intros x _ [].
    + pose proof Hc as E%leads_call%machine_cases. cbn [secret_call cut_call] in E. destruct E as [E|[n E]].
      * left. injection E as _ ->. intros p Hp. apply map_lookup_filter_None. right. by intros x _ [].
      * right. exists v2. injection E as -> E. by split_and!.
  - left. apply leads_call, machine_cases in He. cbn [secret_call cut_call] in He. unfold fresh in He.
    destruct He as [E|[n E]]; repeat case_match; try discriminate E; by injection E as _ E.
Qed.

End Vault.

(** A block that runs on a temporary directory, with a write that fails half-way. *)
Definition sample_tmp (a b : string) : fpath := ["tmp"; a +:+ "1" +:+ b].
Definition sample_answer (handle : string) : result exn string := Ok "s3cret".
Definition sample_block (p : fpath) (s : fs) : result exn unit * fs := (Ok tt, s).
Definition sample_machine : handler vault := machine 0 sample_tmp sample_answer sample_block.
Definition sample_tree : fs := {[["tmp"] := mkInode NDir 0 511%Z]}.
Definition sample_descriptor : CredentialInjectionDescriptor :=
  mkDescriptor "database/main" "database" "sops://database/main" "SOPS credential".
Definition sample_vault : vault := mkVault sample_tree [] [].

(** A block that raises an [OSError] of its own, on a disk where nothing fails. *)
Definition raising_block (p : fpath) (s : fs) : result exn unit * fs := (Err (OSError EIO), s).
Definition raising_machine : handler vault := machine 0 sample_tmp sample_answer raising_block.

(** The directory of [secret_files] is removed with its errors ignored: when the removal fails, the
    block succeeds and the plaintext stays. *)
Definition stubborn_vault : vault := mkVault sample_tree [Fine; Fine; Fine; Fine; Fine; Fine; Fine; Cut 0] [].
Example plaintext_files_may_stay :
  let left := exec sample_machine (secret_files [("PASSWORD", "database/main")] (fun _ => Ret tt)) stubborn_vault in
  left.1.1 = Ok tt /\ text_at (v_fs left.2) ["tmp"; "odoo-forge-credentials-1"; "PASSWORD"] = Some "s3cret".
Proof. vm_compute. done. Qed.

(** * Redaction: facts

    [SopsEnvFileInjector.redact] of [SecretFiles] replaces every known secret, longest first, by a
    marker: a secret without brackets that is not part of the marker does not occur in the result. *)

(** ** Occurrences *)

Definition infix_of (w t : list ascii) : Prop := exists a b, t = a ++ w ++ b.
Lemma prefix_infix w t : w `prefix_of` t -> infix_of w t.
Proof. intros [b ->]. by exists [], b. Qed.
Lemma infix_cons c w t : infix_of w (c :: t) <-> w `prefix_of` c :: t \/ infix_of w t.
Proof.
  split.
  - intros ([|x a] & b & E); [left; by exists b|]. injection E as -> ->. right. by exists a, b.
  - intros [H|(a & b & ->)]; [by apply prefix_infix|]. by exists (c :: a), b.
Qed.
Lemma infix_nil w : infix_of w [] -> w = [].
Proof. intros (a & b & E). destruct a, w; done. Qed.
Lemma infix_drop w k t : infix_of w (drop k t) -> infix_of w t.
Proof. revert t. induction k as [|k IH]; intros [|c t]; cbn; [done..|]. intros H%IH. apply infix_cons. by right. Qed.
Lemma is_prefix_spec a b : is_prefix a b = true <-> a `prefix_of` b.
Proof.
  revert b. induction a as [|x a IH]; intros [|y b]; cbn.
  - split; [intros _; apply prefix_nil|done].
  - split; [intros _; apply prefix_nil|done].
  - split; [done|]. intros H. by apply prefix_nil_not in H.
  - rewrite andb_true_iff, IH. split; [intros [->%Ascii.eqb_eq H]; by apply prefix_cons|].
    intros H. split; [apply Ascii.eqb_eq; by eapply prefix_cons_inv_1|by eapply prefix_cons_inv_2].
Qed.

(** ** The marker *)

Definition bracketed (w : list ascii) : Prop := "["%char ∈ w \/ "]"%char ∈ w.
Definition marker : list ascii := chars REDACTED.
Definition marker_body : list ascii := chars "[REDACTED".
Lemma marker_cut : marker = marker_body ++ ["]"%char].
Proof. reflexivity. Qed.

Lemma prefix_of_marked w t : ~ bracketed w -> w `prefix_of` marker ++ t -> w = [].
Proof.
  destruct w as [|c w]; [done|]. intros Hw H. apply prefix_cons_inv_1 in H as ->. destruct Hw. left. by left.
Qed.
(** A text without brackets does not reach over the end of a marker. *)
Lemma infix_over m w t : ~ bracketed w -> infix_of w (m ++ "]"%char :: t) -> infix_of w m \/ infix_of w t.
Proof.
  intros Hw. induction m as [|c m IH]; cbn [app]; rewrite infix_cons.
  - intros [H|H]; [left|by right]. destruct w as [|x w]; [by exists [], []|]. apply prefix_cons_inv_1 in H as ->. destruct Hw. right. by left.
  - intros [[b E]|H]; [|destruct (IH H) as [?|?]; [left; rewrite infix_cons; by right|by right]]. left. apply prefix_infix.
    clear IH. rewrite app_comm_cons in E. revert E. generalize (c :: m). intros l E.
    apply app_eq_inv in E as [(k & -> & _)|(k & -> & E)]; [by exists k|].
    destruct k as [|x k]; [exists []; by rewrite !app_nil_r|]. injection E as <- _. destruct Hw. right. apply elem_of_app. right. by left.
Qed.
Lemma infix_marked w t : ~ bracketed w -> infix_of w (marker ++ t) -> infix_of w marker \/ infix_of w t.
Proof.
  intros Hw. rewrite marker_cut, <- app_assoc. cbn [app]. intros [(a & b & ->)|H]%infix_over; [|by right|done]. left.
  exists a, (b ++ ["]"%char]). by rewrite <- !app_assoc.
Qed.

(** ** One replacement *)

Section Replace.
Variable old : list ascii.
Abbreviation replaced := (replace_from old marker).

Lemma prefix_replaced w k t : ~ bracketed w -> w `prefix_of` replaced k t -> w `prefix_of` drop k t.
Proof.
  revert w k. induction t as [|c t IH]; intros w [|k] Hw; cbn [replace_from drop]; [done..| |by apply IH].
  destruct (is_prefix old _); [intros ->%prefix_of_marked; [apply prefix_nil|done]|].
  destruct w as [|x w]; [intros _; apply prefix_nil|]. intros H. pose proof (prefix_cons_inv_1 _ _ _ _ H) as ->.
  apply prefix_cons_inv_2, IH in H; [by apply prefix_cons|]. intros [?|?]; apply Hw; [left|right]; by right.
Qed.
(** What occurs in the result occurred in the text or is part of the marker, and is not [old]. *)
Lemma infix_replaced w k t : ~ bracketed w -> w <> [] -> infix_of w (replaced k t) -> infix_of w marker \/ (infix_of w t /\ w <> old).
Proof.
  intros Hw Hne. revert k. induction t as [|c t IH]; intros k; cbn [replace_from]; [by intros ->%infix_nil|]. destruct k as [|k].
  2: { intros [?|[? ?]]%IH; [by left|right]. split; [|done]. apply infix_cons. by right. }
  destruct (is_prefix old (c :: t)) eqn:E.
  - intros [?|[?|[? ?]]%IH]%infix_marked; [by left..| |done]. right. split; [|done]. apply infix_cons. by right.
  - rewrite infix_cons. intros [H|[?|[? ?]]%IH]; [right|by left|right; split; [apply infix_cons; by right|done]].
    assert (Hp : w `prefix_of` c :: t).
    { pose proof (prefix_replaced w 0 (c :: t) Hw) as Hp. cbn [replace_from drop] in Hp. rewrite E in Hp. by apply Hp. }
    split; [by apply prefix_infix|]. intros ->. apply is_prefix_spec in Hp. congruence.
Qed.
Lemma replaced_id t : ~ infix_of old t -> replaced 0 t = t.
Proof.
  induction t as [|c t IH]; intros H; cbn [replace_from]; [done|].
  destruct (is_prefix old (c :: t)) eqn:E; [apply is_prefix_spec in E; destruct H; by apply prefix_infix|].
  f_equal. apply IH. intros ?. apply H, infix_cons. by right.
Qed.
End Replace.

(** Replacing the empty text puts a marker around every character. *)
Lemma infix_spread w t : ~ bracketed w -> w <> [] -> infix_of w (concat (map (fun c => c :: marker) t)) -> infix_of w marker \/ infix_of w t.
Proof.
  intros Hw Hne. induction t as [|c t IH]; cbn [map concat]; [by right|]. rewrite <- app_comm_cons, infix_cons. intros [H|H].
  - right. apply infix_cons. left. destruct w as [|x w]; [done|]. pose proof (prefix_cons_inv_1 _ _ _ _ H) as ->.
    apply prefix_cons_inv_2, prefix_of_marked in H as ->; [by exists t|]. intros [?|?]; apply Hw; [left|right]; by right.
  - apply infix_marked in H as [?|H]; [by left| |done]. destruct (IH H); [by left|right]. apply infix_cons. by right.
Qed.
Definition occurs (secret text : string) : Prop := infix_of (chars secret) (chars text).
Lemma occurs_replace secret old t : ~ bracketed (chars secret) -> secret <> "" -> ~ occurs secret REDACTED ->
  occurs secret (replace_text old REDACTED t) -> occurs secret t /\ secret <> old.
Proof.
  unfold occurs, replace_text. intros Hb Hne Hm.
  assert (Hne' : chars secret <> []) by (intros E; apply Hne; by rewrite <- (str_chars secret), E).
  destruct (chars old) as [|c l] eqn:E.
  - rewrite chars_app, chars_str. intros [?|[?|H]%infix_spread]%infix_marked; [done|done| |done..].
    split; [done|]. intros ->. by rewrite E in Hne'.
  - rewrite chars_str. intros [?|[H Hold]]%infix_replaced; [done| |done..]. split; [done|]. intros ->. by rewrite E in Hold.
Qed.

Lemma occurs_fold secret l t : ~ bracketed (chars secret) -> secret <> "" -> ~ occurs secret REDACTED ->
  occurs secret (foldl (fun value secret => replace_text secret REDACTED value) t l) -> occurs secret t /\ secret ∉ l.
Proof.
  intros Hb Hne Hm. revert t. induction l as [|x l IH]; intros t; cbn [foldl]; [intros; by split; [|apply not_elem_of_nil]|].
  intros [[H Hx]%occurs_replace Hl]%IH; try done. split; [done|]. by apply not_elem_of_cons.
Qed.

(** C35. Redaction hides every secret it knows: a resolved value, or an additional one, that has no
    square bracket and is not itself a part of the marker does not occur in the redacted text,
    whatever the other secrets are and in whatever order the set lists them, and a text in which
    none of the secrets occurs is returned as it is. *)
Theorem redaction_hides_secrets resolved additional value :
  (forall secret, secret ∈ resolved ++ additional -> secret <> "" -> ~ bracketed (chars secret) -> ~ occurs secret REDACTED ->
     ~ occurs secret (redact resolved additional value)) /\
  ("" ∉ resolved -> (forall secret, secret ∈ resolved ++ additional -> secret <> "" -> ~ occurs secret value) ->
     redact resolved additional value = value).
Proof.
  assert (Hin : forall s, s ∈ merge_sort longer (remove_dups (resolved ++ List.filter (fun s => negb (bool_decide (s = ""))) additional)) <->
    s ∈ resolved \/ (s ∈ additional /\ s <> "")).
  { intros s. rewrite merge_sort_Permutation, elem_of_remove_dups, elem_of_app. f_equiv. rewrite !list_elem_of_In, filter_In.
    f_equiv. by case_bool_decide. }
  split.
  - intros secret Hs Hne Hb Hm [_ H]%occurs_fold; try done. apply H, Hin. apply elem_of_app in Hs as [?|?]; auto.
  - intros He Hno. unfold redact. assert (Hl : forall s, s ∈ merge_sort longer (remove_dups (resolved ++ List.filter (fun s => negb (bool_decide (s = ""))) additional)) ->
      s <> "" /\ ~ occurs s value).
    { intros s [H|[H ?]]%Hin; (split; [congruence || done|apply Hno]); rewrite ?elem_of_app; auto; congruence. }
    revert Hl. clear Hin. induction (merge_sort _ _) as [|s l IH]; intros Hl; [done|]. cbn [foldl].
    assert (replace_text s REDACTED value = value) as ->; [|apply IH; intros; apply Hl; by right].
    destruct (Hl s (list_elem_of_here _ _)) as [Hne Hs]. unfold replace_text, occurs in *.
    destruct (chars s) eqn:E; [destruct Hne; by rewrite <- (str_chars s), E|]. rewrite replaced_id by done. apply str_chars.
Qed.

Lemma redaction_hides_secrets_witness :
  redact ["s3cret"; "s3"] [""] "PASSWORD=s3cret, s3" = "PASSWORD=[REDACTED], [REDACTED]" /\
  ~ occurs "s3cret" (redact ["s3cret"; "s3"] [""] "PASSWORD=s3cret, s3").
Proof.
  split; [vm_compute; reflexivity|].
  apply (proj1 (redaction_hides_secrets ["s3cret"; "s3"] [""] "PASSWORD=s3cret, s3")); [by left|done| |].
  - intros [H|H]; by repeat (apply elem_of_cons in H as [H|H]; [discriminate H|]); apply elem_of_nil in H.
  - intros (a & b & E). do 10 (destruct a as [|? a]; [discriminate E|injection E as _ E]). by destruct a.
Defined.
