(* ===== verification/Migration.v ===== *)
(** * The registry's migrations and the environment tables

    [odoo_forge_instances_postgres/migrate.py]: the two migrations as programs over a database
    cursor, with the checks of the catalog that decide whether they commit; and the two readers
    [data_environment_registry.py] and [raw_data_grant_authority.py].  The statements are asked
    by name: what PostgreSQL answers is arbitrary. *)

From stdpp Require Import pretty.
From S2P Require Import Prelude Effects Regex Values Json Durable Artifacts Coordinator Environments Credentials.

(** ** [errors.py], and any exception of the driver with its [sqlstate] *)

Inductive migration_error : Type :=
| MigrationAutocommitError (why : string)
| MigrationLockTimeoutError (why : string)
| RegistryTableRejectedError (why : string)
| AuthorityTableRejectedError (why : string)
| CatalogVerificationError (why : string)
| DriverError (sqlstate : option string) (name : string).

(** ** Statements and rows *)

Definition ADVISORY_LOCK_SQL : string := "SELECT pg_advisory_xact_lock(1329876815, 1230128945)".
Definition TABLE_EXISTS_SQL : string := "SELECT to_regclass('public.instance_registry')".
Definition TABLE_LOCK_SQL : string := "LOCK TABLE public.instance_registry IN ACCESS EXCLUSIVE MODE".
Definition LOCK_TIMEOUT : string := "5s".
Definition LOCK_TIMEOUT_SQLSTATE : string := "55P03".

Inductive statement : Type :=
| SetLockTimeout | AdvisoryLock | TableExists | TableLock | Script (sql : string) | CatalogPredicate | AuthorityCatalog.
#[export] Instance statement_eq_dec : EqDecision statement.
Proof. solve_decision. Defined.
(** The texts that reach an error message. *)
Definition guarded_text (s : statement) : string :=
  match s with
  | AdvisoryLock => ADVISORY_LOCK_SQL
  | TableExists => TABLE_EXISTS_SQL
  | TableLock => TABLE_LOCK_SQL
  | Script sql => sql
  | SetLockTimeout => "SET LOCAL lock_timeout = '" +:+ LOCK_TIMEOUT +:+ "'"
  | CatalogPredicate | AuthorityCatalog => ""
  end.

(** A row of [_CATALOG_PREDICATE_SQL]. *)
Record table_catalog : Type := mkTableCatalog {
  tc_relkind : string; tc_relpersistence : string; tc_rls : bool; tc_force_rls : bool; tc_inherited : bool; tc_triggered : bool;
  tc_ruled : bool; tc_generated : bool; tc_identity : bool; tc_operation_id_type_invalid : bool }.
(** A row of [_AUTHORITY_CATALOG_SQL]; the attribute is null for a table without columns. *)
Record authority_row : Type := mkAuthorityRow {
  ar_table : string; ar_relkind : string; ar_column : option string; ar_type : option string; ar_not_null : option bool; ar_key : Z }.

Inductive migration_op : Type -> Type :=
| OpenCursor : migration_op unit
| ReadMigration (name : string) : migration_op string      (* a file of the package [migrations] *)
| Execute (s : statement) : migration_op unit
| FetchRegclass : migration_op (option (option string))
| FetchCatalog : migration_op (option table_catalog)
| FetchAuthority : migration_op (list authority_row)
| CommitAll : migration_op unit
| RollbackAll : migration_op unit.
Definition migration_prog := prog migration_op migration_error.

(** [_execute_guarding_timeout] *)
Definition sqlstate_of (e : migration_error) : option string := match e with DriverError s _ => s | _ => None end.
Definition execute_guarding_timeout (s : statement) : migration_prog unit :=
  catch (call (Execute s)) (fun e =>
    if bool_decide (sqlstate_of e = Some LOCK_TIMEOUT_SQLSTATE)
    then Raise (MigrationLockTimeoutError ("lock acquisition timed out after " +:+ LOCK_TIMEOUT +:+ ": " +:+ guarded_text s))
    else Raise e).

(** ** The catalog checks *)

(** [repr] of a one-character text. *)
Definition quoted_kind (s : string) : string := str (python_literal s).
(** [_verify_catalog_signature] *)
Definition verify_catalog_signature (row : option table_catalog) : result migration_error unit :=
  match row with
  | None => Err (CatalogVerificationError "catalog verification found no matching relation")
  | Some c =>
    let rejected {A : Type} (why : string) : result migration_error A := Err (RegistryTableRejectedError why) in
    if bool_decide (tc_relkind c = "p") then rejected "rejected variant: partitioned table"
    else if negb (bool_decide (tc_relkind c = "r")) then rejected ("rejected variant: relkind=" +:+ quoted_kind (tc_relkind c) +:+ " (not ordinary)")
    else if bool_decide (tc_relpersistence c = "u") then rejected "rejected variant: unlogged table"
    else if bool_decide (tc_relpersistence c = "t") then rejected "rejected variant: temporary table"
    else if negb (bool_decide (tc_relpersistence c = "p")) then
      rejected ("rejected variant: relpersistence=" +:+ quoted_kind (tc_relpersistence c) +:+ " (not ordinary)")
    else if tc_rls c || tc_force_rls c then rejected "rejected variant: row-level security enabled"
    else if tc_inherited c then rejected "rejected variant: table participates in inheritance"
    else if tc_triggered c then rejected "rejected variant: non-constraint trigger present"
    else if tc_ruled c then rejected "rejected variant: non-default rule present"
    else if tc_generated c then rejected "rejected variant: generated column present"
    else if tc_identity c then rejected "rejected variant: identity column present"
    else if tc_operation_id_type_invalid c then rejected "rejected schema: operation_id must have type text"
    else Ok tt
  end.

(** [str] of the values of a row. *)
Definition truth (b : bool) : string := if b then "True" else "False".
Definition or_none (o : option string) : string := default "None" o.
Definition row_fields (r : authority_row) : list string :=
  [ar_relkind r; or_none (ar_column r); or_none (ar_type r); or_none (truth <$> ar_not_null r); pretty (ar_key r)].
Definition signature (r : authority_row) : string := join "|" (row_fields r).
Definition observe (observed : list (string * list string)) (r : authority_row) : list (string * list string) :=
  dset (ar_table r) (default [] (dget (ar_table r) observed) ++ [signature r]) observed.
Definition AUTHORITY_SIGNATURES : list (string * string) :=
  [("data_environment_registry", "r|environment_id|text|True|1;r|owner|text|True|0;r|tenant_id|text|True|0;r|project_id|text|True|0;r|lifecycle|text|True|0;r|policy_ref|text|True|0;r|relationships|jsonb|True|0");
   ("raw_data_grants", "r|operation_id|text|True|1;r|environment_id|text|True|2;r|grantor|text|True|0;r|expires_at|timestamp with time zone|True|0;r|reason|text|True|0;r|audit_reference|text|True|0")].
Fixpoint compatible (signatures : list (string * string)) (observed : list (string * list string)) : result migration_error unit :=
  match signatures with
  | [] => Ok tt
  | (table, expected) :: signatures' =>
    if bool_decide (join ";" (default [] (dget table observed)) = expected) then compatible signatures' observed
    else Err (AuthorityTableRejectedError ("rejected schema: " +:+ table +:+ " is not exactly compatible"))
  end.
(** [_verify_authority_catalog] *)
Definition verify_authority_catalog (rows : list authority_row) : result migration_error unit :=
  compatible AUTHORITY_SIGNATURES (foldl observe [] rows).

(** ** The migrations *)

Definition or_roll_back {A : Type} (p : migration_prog A) : migration_prog A := catch p (fun e => call RollbackAll ;* Raise e).
Definition is_there (relation : option (option string)) : bool := match relation with Some (Some _) => true | _ => false end.
(** The statements inside [try]. *)
Definition apply_registry_schema : migration_prog unit :=
  call (Execute SetLockTimeout) ;*
  execute_guarding_timeout AdvisoryLock ;*
  execute_guarding_timeout TableExists ;*
  let* relation := call FetchRegclass in
  (if is_there relation then execute_guarding_timeout TableLock else Ret tt) ;*
  let* sql := call (ReadMigration "0001_instance_registry.sql") in
  call (Execute (Script sql)) ;*
  (if negb (is_there relation) then execute_guarding_timeout TableLock else Ret tt) ;*
  call (Execute CatalogPredicate) ;*
  let* row := call FetchCatalog in
  lift (verify_catalog_signature row).
Definition run_migration (autocommit : bool) : migration_prog unit :=
  if autocommit then Raise (MigrationAutocommitError "run_migration requires a connection with autocommit disabled") else
  call OpenCursor ;* or_roll_back apply_registry_schema ;* call CommitAll.
Definition apply_environment_schema : migration_prog unit :=
  call (Execute SetLockTimeout) ;*
  execute_guarding_timeout AdvisoryLock ;*
  let* sql := call (ReadMigration "0002_data_environments.sql") in
  execute_guarding_timeout (Script sql) ;*
  call (Execute AuthorityCatalog) ;*
  let* rows := call FetchAuthority in
  lift (verify_authority_catalog rows).
Definition run_environment_migration (autocommit : bool) : migration_prog unit :=
  if autocommit then Raise (MigrationAutocommitError "run_environment_migration requires a connection with autocommit disabled") else
  call OpenCursor ;* or_roll_back apply_environment_schema ;* call CommitAll.

(** ** The environment tables ([data_environment_registry.py], [raw_data_grant_authority.py]) *)

Record environment_row : Type := mkEnvironmentRow {
  ev_environment_id : string; ev_owner : string; ev_tenant_id : string; ev_project_id : string; ev_lifecycle : string;
  ev_policy_ref : string; ev_relationships : option json }.
Record grant_row : Type := mkGrantRow {
  gw_operation_id : string; gw_environment_id : string; gw_grantor : string; gw_expires_at : datetime; gw_reason : string; gw_audit_reference : string }.
Inductive table_op : Type -> Type :=
| AcquireConnection : table_op unit
| SelectEnvironment (environment_id : string) : table_op (option environment_row)
| SelectGrant (operation_id environment_id : string) : table_op (option grant_row)
| CommitRead : table_op unit
| RollbackRead : table_op unit
| ReleaseConnection : table_op unit.
Definition table_prog := prog table_op exn.

(** [with self._acquire() as connection], and the one statement of a read. *)
Definition read_row {A : Type} (statement : table_op A) : table_prog A :=
  call AcquireConnection ;*
  let* r := attempt (catch (let* row := call statement in call CommitRead ;* Ret row)
                       (fun e => let* _ := attempt (call RollbackRead) in Raise e)) in
  call ReleaseConnection ;* lift r.
Definition EnvironmentDefinitionUnavailableError : exn := PortError "EnvironmentDefinitionUnavailableError".

Definition lifecycle_of (text : string) : result exn EnvironmentLifecycle :=
  if bool_decide (text = "active") then Ok ACTIVE
  else if bool_decide (text = "inactive") then Ok INACTIVE
  else Err (ValueError "Input should be 'active' or 'inactive'").
(** A relationship as the column holds it: an object with exactly its two fields. *)
Definition relationship_of (j : json) : result exn EnvironmentRelationship :=
  match j with
  | JObj d =>
    match dget "source_environment_id" d, dget "target_environment_id" d with
    | Some (JStr source), Some (JStr target) =>
      ensure (forallb (fun kv => bool_decide (kv.1 ∈ ["source_environment_id"; "target_environment_id"])) d)
        (ValueError "Extra inputs are not permitted") ;! environment_relationship source target
    | _, _ => Err (ValueError "Field required")
    end
  | _ => Err (ValueError "Input should be a valid dictionary")
  end.
Fixpoint relationships_of (l : list json) : result exn (list EnvironmentRelationship) :=
  match l with
  | [] => Ok []
  | j :: l' => let! r := relationship_of j in let! rs := relationships_of l' in Ok (r :: rs)
  end.
(** [row[6] or ()] *)
Definition falsy (j : json) : bool :=
  match j with
  | JNull | JBool false | JArr [] | JObj [] => true
  | JStr s => bool_decide (s = "")
  | JInt z => bool_decide (z = 0%Z)
  | JFloat r => bool_decide (r ∈ ["0.0"; "-0.0"])
  | _ => false
  end.
Definition column_relationships (c : option json) : result exn (list EnvironmentRelationship) :=
  match c with
  | None => Ok []
  | Some j => if falsy j then Ok [] else match j with JArr l => relationships_of l | _ => Err (ValueError "Input should be a valid tuple") end
  end.
Definition environment_of_row (row : environment_row) : result exn DataEnvironmentDefinition :=
  ensure (negb (bool_decide (ev_tenant_id row = ""))) (ValueError "String should have at least 1 character") ;!
  let! lifecycle := lifecycle_of (ev_lifecycle row) in
  let! relationships := column_relationships (ev_relationships row) in
  data_environment_definition (ev_environment_id row) (ev_owner row)
    (mkProjectScope (mkTenantId (ev_tenant_id row)) (ev_project_id row)) lifecycle (ev_policy_ref row) relationships.
(** [PostgresDataEnvironmentRegistry.resolve] *)
Definition resolve_environment (environment_id : string) : table_prog DataEnvironmentDefinition :=
  let* row := read_row (SelectEnvironment environment_id) in
  match row with
  | None => Raise EnvironmentDefinitionUnavailableError
  | Some row => match environment_of_row row with Ok d => Ret d | Err _ => Raise EnvironmentDefinitionUnavailableError end
  end.
(** [PostgresRawDataGrantAuthority.authorize] *)
Definition grant_of_row (row : grant_row) : result exn RawDataGrant :=
  raw_data_grant (gw_operation_id row) (gw_environment_id row) (gw_grantor row) (gw_expires_at row) (gw_reason row) (gw_audit_reference row).
Definition authorize (operation_id environment_id : string) : table_prog (option RawDataGrant) :=
  let* row := read_row (SelectGrant operation_id environment_id) in
  match row with
  | None => Ret None
  | Some row => match grant_of_row row with Ok g => Ret (Some g) | Err _ => Ret None end
  end.

(** * Migrations: facts

    A migration commits exactly when the catalog it has read under its locks is the one it owns,
    and rolls back otherwise; the textual comparison of the authority tables is exact for names
    without its separators, and only for them. *)

(** ** The traces of a migration *)

Abbreviation done_ s := (Event (Execute s) (Ok tt) : event migration_op migration_error).

Lemma guarding_Ok s tr u : runs (execute_guarding_timeout s) tr (Ok u) -> tr = [done_ s].
Proof.
  intros [([] & _ & ->%runs_call)|(t1 & t2 & x & -> & _ & H)]%runs_catch; [done|].
  case_bool_decide; by apply runs_Raise in H as [_ [=]].
Qed.
Lemma or_roll_back_cases {A : Type} (p : migration_prog A) tr o : runs (or_roll_back p) tr o ->
  (exists a, o = Ok a /\ runs p tr (Ok a)) \/
  exists t e r, tr = t ++ [Event RollbackAll r] /\ runs p t (Err e) /\ o = Err (match r with Ok _ => e | Err x => x end).
Proof.
  intros [H|(t1 & t2 & e & -> & H & Hr)]%runs_catch; [by left|right]. apply runs_bind_call in Hr as (r & t3 & -> & Hr).
  exists t1, e, r. destruct r as [u|x].
  - by apply runs_Raise in Hr as [-> ->].
  - by destruct Hr as [-> ->].
Qed.

Section Frame.
(** What a migration does between its cursor and its commit. *)
Variable body : migration_prog unit.
Definition framed : migration_prog unit := call OpenCursor ;* or_roll_back body ;* call CommitAll.
Lemma framed_cases tr o : runs framed tr o ->
  (exists x, tr = [Event OpenCursor (Err x)] /\ o = Err x) \/
  (exists t, tr = Event OpenCursor (Ok tt) :: t ++ [Event CommitAll o] /\ runs body t (Ok tt)) \/
  exists t e r, tr = Event OpenCursor (Ok tt) :: t ++ [Event RollbackAll r] /\ runs body t (Err e) /\
    o = Err (match r with Ok _ => e | Err x => x end).
Proof.
  unfold framed. intros ([[]|x] & t0 & -> & H)%runs_bind_call; [right|left; destruct H as [-> ->]; eauto].
  apply runs_bind in H as [(t1 & t2 & [] & -> & H & ->%runs_call)|(x & -> & H)].
  - left. apply or_roll_back_cases in H as [([] & _ & H)|(? & ? & ? & _ & _ & [=])]. eauto.
  - right. apply or_roll_back_cases in H as [(? & [=] & _)|(t & e & r & -> & H & [= ->])]. eauto 10.
Qed.
End Frame.

(** ** The registry's table *)

(** A permanent ordinary table without anything the adapter does not own. *)
Definition ordinary_table : table_catalog := mkTableCatalog "r" "p" false false false false false false false false.
Lemma verify_catalog_Ok row : verify_catalog_signature row = Ok tt <-> row = Some ordinary_table.
Proof.
  split; [|by intros ->]. destruct row as [[k p r1 r2 i t ru g id o]|]; [|done]. cbn.
  repeat (case_bool_decide; try done). cbn. destruct r1, r2, i, t, ru, g, id, o; try done. cbn. by subst.
Qed.

(** The statements of a successful migration, in their order. *)
Definition migrated (relation : option (option string)) (sql : string) : list (event migration_op migration_error) :=
  [done_ SetLockTimeout; done_ AdvisoryLock; done_ TableExists; Event FetchRegclass (Ok relation)] ++
  (if is_there relation then [done_ TableLock] else []) ++
  [Event (ReadMigration "0001_instance_registry.sql") (Ok sql); done_ (Script sql)] ++
  (if negb (is_there relation) then [done_ TableLock] else []) ++
  [done_ CatalogPredicate; Event FetchCatalog (Ok (Some ordinary_table))].
Definition environment_migrated (sql : string) (rows : list authority_row) : list (event migration_op migration_error) :=
  [done_ SetLockTimeout; done_ AdvisoryLock; Event (ReadMigration "0002_data_environments.sql") (Ok sql); done_ (Script sql);
   done_ AuthorityCatalog; Event FetchAuthority (Ok rows)].

(** A call, or a guarded statement, before the rest of a successful body. *)
Lemma ok_call {R : Type} (e : migration_op R) (k : R -> migration_prog unit) tr :
  runs (bind (call e) k) tr (Ok tt) -> exists a t, tr = Event e (Ok a) :: t /\ runs (k a) t (Ok tt).
Proof. intros ([a|x] & t & -> & H)%runs_bind_call; [eauto|by destruct H]. Qed.
Lemma ok_guarding s (k : migration_prog unit) tr :
  runs (execute_guarding_timeout s ;* k) tr (Ok tt) -> exists t, tr = done_ s :: t /\ runs k t (Ok tt).
Proof. intros [(t1 & t2 & u & -> & ->%guarding_Ok & H)|(? & [=] & _)]%runs_bind. eauto. Qed.
Lemma ok_optional (b : bool) s (k : migration_prog unit) tr :
  runs ((if b then execute_guarding_timeout s else Ret tt) ;* k) tr (Ok tt) ->
  exists t, tr = (if b then [done_ s] else []) ++ t /\ runs k t (Ok tt).
Proof. destruct b; [by intros (t & -> & H)%ok_guarding; eauto|]. rewrite bind_Ret. eauto. Qed.

Lemma registry_schema_applied tr : runs apply_registry_schema tr (Ok tt) -> exists relation sql, tr = migrated relation sql.
Proof.
  unfold apply_registry_schema. intros ([] & t1 & -> & (t2 & -> & (t3 & -> & (relation & t4 & -> & (t5 & -> & H)%ok_optional)%ok_call)%ok_guarding)%ok_guarding)%ok_call.
  apply ok_call in H as (sql & t6 & -> & ([] & t7 & -> & (t8 & -> & ([] & t9 & -> & (row & t10 & -> & H)%ok_call)%ok_call)%ok_optional)%ok_call).
  apply runs_lift in H as [-> H]. symmetry in H. apply verify_catalog_Ok in H as ->. by exists relation, sql.
Qed.
Lemma environment_schema_applied tr : runs apply_environment_schema tr (Ok tt) ->
  exists sql rows, tr = environment_migrated sql rows /\ verify_authority_catalog rows = Ok tt.
Proof.
  unfold apply_environment_schema. intros ([] & t1 & -> & (t2 & -> & (sql & t3 & -> & (t4 & -> & H)%ok_guarding)%ok_call)%ok_guarding)%ok_call.
  apply ok_call in H as ([] & t5 & -> & (rows & t6 & -> & H)%ok_call). apply runs_lift in H as [-> H]. symmetry in H. by exists sql, rows.
Qed.

(** ** The comparison of signatures *)

Lemma dget_observe table rows acc :
  default [] (dget table (foldl observe acc rows)) =
  default [] (dget table acc) ++ map signature (List.filter (fun r => bool_decide (ar_table r = table)) rows).
Proof.
  revert acc. induction rows as [|r rows IH]; intros acc; cbn [foldl List.filter]; [by rewrite app_nil_r|]. rewrite IH.
  unfold observe at 1. case_bool_decide as E.
  - subst table. rewrite dget_dset_eq. cbn. by rewrite <- app_assoc.
  - by rewrite dget_dset_ne by congruence.
Qed.
Lemma elem_join c d ws : c ∈ chars (join (String d "") ws) -> c = d \/ exists w, w ∈ ws /\ c ∈ chars w.
Proof.
  induction ws as [|w ws IH]; [by intros ?%elem_of_nil|]. destruct ws as [|w' ws]; [intros H; right; exists w; split; [by left|exact H]|].
  rewrite join_cons by done. rewrite !chars_app, !elem_of_app. intros [H|[H|H]].
  - right. exists w. split; [by left|done].
  - apply list_elem_of_singleton in H. by left.
  - destruct (IH H) as [?|(x & Hx & ?)]; [by left|right]. exists x. split; [by right|done].
Qed.
(** Names without the separators of a signature. *)
Definition plain_field (s : string) : Prop := (";"%char ∉ chars s) /\ ("|"%char ∉ chars s).
Definition plain_row (r : authority_row) : Prop := Forall plain_field (row_fields r).
Lemma join_inj c l1 l2 : l1 <> [] -> l2 <> [] -> Forall (fun w => c ∉ chars w) l1 -> Forall (fun w => c ∉ chars w) l2 ->
  join (String c "") l1 = join (String c "") l2 -> l1 = l2.
Proof. intros H1 H2 F1 F2 E. rewrite <- (split_on_join c l1), <- (split_on_join c l2) by done. by rewrite E. Qed.

(** The expected columns: kind of the relation, name, type, nullability and place in the key. *)
Definition column (name type key : string) : list string := ["r"; name; type; "True"; key].
Definition AUTHORITY_COLUMNS : list (string * list (list string)) :=
  [("data_environment_registry",
    [column "environment_id" "text" "1"; column "owner" "text" "0"; column "tenant_id" "text" "0"; column "project_id" "text" "0";
     column "lifecycle" "text" "0"; column "policy_ref" "text" "0"; column "relationships" "jsonb" "0"]);
   ("raw_data_grants",
    [column "operation_id" "text" "1"; column "environment_id" "text" "2"; column "grantor" "text" "0";
     column "expires_at" "timestamp with time zone" "0"; column "reason" "text" "0"; column "audit_reference" "text" "0"])].
Lemma authority_signatures : AUTHORITY_SIGNATURES = map (fun tc => (tc.1, join ";" (map (join "|") tc.2))) AUTHORITY_COLUMNS.
Proof. vm_compute. reflexivity. Qed.

#[local] Instance plain_field_dec s : Decision (plain_field s).
Proof. unfold plain_field. apply _. Defined.
Lemma authority_columns_plain : Forall (fun tc => tc.2 <> [] /\ Forall (fun fs => fs <> [] /\ Forall plain_field fs) tc.2) AUTHORITY_COLUMNS.
Proof. apply (bool_decide_eq_true_1 _). vm_compute. reflexivity. Qed.
Lemma row_fields_ne r : row_fields r <> [].
Proof. done. Qed.

Lemma join_plain fs : Forall plain_field fs -> ";"%char ∉ chars (join "|" fs).
Proof. intros Hf [H|(w & Hw & H)]%elem_join; [done|]. rewrite Forall_forall in Hf. by destruct (Hf w Hw). Qed.
Lemma signatures_inj (l l' : list (list string)) :
  Forall (fun fs => fs <> [] /\ Forall plain_field fs) l -> Forall (fun fs => fs <> [] /\ Forall plain_field fs) l' -> l <> [] -> l' <> [] ->
  join ";" (map (join "|") l) = join ";" (map (join "|") l') -> l = l'.
Proof.
  intros Hl Hl' Hne Hne' E%join_inj.
  2,3: by intros H%map_eq_nil.
  2,3: apply Forall_map; eapply Forall_impl; [eassumption|]; intros fs [_ ?]; by apply join_plain.
  clear Hne Hne'. revert l' Hl' E. induction Hl as [|fs l [Hn Hp] Hl IH]; intros [|fs' l'] Hl' E; try done.
  apply Forall_cons in Hl' as [[Hn' Hp'] Hl']. injection E as E1 E2. f_equal; [|by apply IH].
  refine (join_inj "|" _ _ Hn Hn' _ _ E1); eapply Forall_impl; [exact Hp| |exact Hp'|]; by intros ? [].
Qed.
Lemma compatible_Ok signatures observed :
  compatible signatures observed = Ok tt <-> Forall (fun te => join ";" (default [] (dget te.1 observed)) = te.2) signatures.
Proof.
  induction signatures as [|[t e] l IH]; cbn [compatible]; [by split|]. rewrite Forall_cons. cbn [fst snd].
  case_bool_decide as E; [rewrite IH; naive_solver|]. split; [done|]. by intros [? _].
Qed.

(** Each of the two tables has its expected columns, with type, nullability and place in the
    primary key, in their order and no others. *)
Definition owned_tables (rows : list authority_row) : Prop :=
  forall table columns, (table, columns) ∈ AUTHORITY_COLUMNS ->
    map row_fields (List.filter (fun r => bool_decide (ar_table r = table)) rows) = columns.
Lemma owned_is_accepted rows : owned_tables rows -> verify_authority_catalog rows = Ok tt.
Proof.
  intros H. unfold verify_authority_catalog. rewrite compatible_Ok, authority_signatures, Forall_map, Forall_forall.
  intros [table columns] Hin. cbn [fst snd]. rewrite dget_observe. cbn [dget default app]. unfold signature. rewrite <- map_map.
  by rewrite (H _ _ Hin).
Qed.
Lemma accepted_is_owned rows : Forall plain_row rows -> verify_authority_catalog rows = Ok tt -> owned_tables rows.
Proof.
  intros Hrows. unfold verify_authority_catalog. rewrite compatible_Ok, authority_signatures, Forall_map, Forall_forall.
  intros H table columns Hin. pose proof authority_columns_plain as Hc. rewrite Forall_forall in Hc.
  destruct (Hc _ Hin) as [Hne Hp]. cbn [fst snd] in *.
  specialize (H _ Hin). cbn [fst snd] in H. rewrite dget_observe in H. cbn [dget default app] in H. unfold signature in H.
  rewrite <- map_map in H. apply signatures_inj in H; [done|..|done].
  - apply Forall_map. rewrite Forall_forall in Hrows |- *. intros r [_ Hr]%list_elem_of_In%filter_In%and_comm. split; [apply row_fields_ne|].
    apply Hrows. by apply list_elem_of_In.
  - done.
  - intros Hnil. rewrite Hnil in H. cbn in H. clear -Hin H.
    repeat (apply elem_of_cons in Hin as [[= -> ->]|Hin]; [vm_compute in H; discriminate H|]). by apply elem_of_nil in Hin.
Qed.

(** The textual comparison of the authority tables is exact for plain names: when no field the
    catalog query answers holds one of the two separators, the rows are accepted exactly if each of
    the two tables has its expected columns, whatever other rows are mixed in. *)
Theorem authority_catalog_is_exact rows :
  Forall plain_row rows -> verify_authority_catalog rows = Ok tt <-> owned_tables rows.
Proof. split; [by apply accepted_is_owned|apply owned_is_accepted]. Qed.

(** A quoted column name may hold the separators: a table without the column [owner] passes. *)
Definition sample_rows (first : list authority_row) : list authority_row :=
  first ++
  [mkAuthorityRow "data_environment_registry" "r" (Some "tenant_id") (Some "text") (Some true) 0;
   mkAuthorityRow "data_environment_registry" "r" (Some "project_id") (Some "text") (Some true) 0;
   mkAuthorityRow "data_environment_registry" "r" (Some "lifecycle") (Some "text") (Some true) 0;
   mkAuthorityRow "data_environment_registry" "r" (Some "policy_ref") (Some "text") (Some true) 0;
   mkAuthorityRow "data_environment_registry" "r" (Some "relationships") (Some "jsonb") (Some true) 0;
   mkAuthorityRow "raw_data_grants" "r" (Some "operation_id") (Some "text") (Some true) 1;
   mkAuthorityRow "raw_data_grants" "r" (Some "environment_id") (Some "text") (Some true) 2;
   mkAuthorityRow "raw_data_grants" "r" (Some "grantor") (Some "text") (Some true) 0;
   mkAuthorityRow "raw_data_grants" "r" (Some "expires_at") (Some "timestamp with time zone") (Some true) 0;
   mkAuthorityRow "raw_data_grants" "r" (Some "reason") (Some "text") (Some true) 0;
   mkAuthorityRow "raw_data_grants" "r" (Some "audit_reference") (Some "text") (Some true) 0].
Definition good_rows : list authority_row :=
  sample_rows [mkAuthorityRow "data_environment_registry" "r" (Some "environment_id") (Some "text") (Some true) 1;
               mkAuthorityRow "data_environment_registry" "r" (Some "owner") (Some "text") (Some true) 0].
Definition forged_rows : list authority_row :=
  sample_rows [mkAuthorityRow "data_environment_registry" "r" (Some "environment_id|text|True|1;r|owner") (Some "text") (Some true) 0].
Example forged_table_is_accepted : verify_authority_catalog forged_rows = Ok tt.
Proof. vm_compute. reflexivity. Qed.

Lemma authority_catalog_is_exact_witness : verify_authority_catalog good_rows = Ok tt.
Proof.
  apply (authority_catalog_is_exact good_rows).
  - apply (bool_decide_eq_true_1 (Forall (fun r => Forall plain_field (row_fields r)) good_rows)). vm_compute. reflexivity.
  - intros table columns H. unfold AUTHORITY_COLUMNS in H.
    apply elem_of_cons in H as [H|H]; [injection H as -> ->; vm_compute; reflexivity|].
    apply elem_of_cons in H as [H|H]; [injection H as -> ->; vm_compute; reflexivity|]. by apply elem_of_nil in H.
Defined.

(** ** Why a migration is refused *)

(** A statement failed, or the table that was found is not the one the migration owns. *)
Definition refusal (ev : event migration_op migration_error) : Prop :=
  match ev with
  | Event e r =>
    match e in migration_op R return result migration_error R -> Prop with
    | FetchCatalog => fun r => r <> Ok (Some ordinary_table)
    | FetchAuthority => fun r => match r with Ok rows => ~ owned_tables rows | Err _ => True end
    | _ => fun r => match r with Ok _ => False | Err _ => True end
    end r
  end.
Lemma refusal_Err {R : Type} (e : migration_op R) x : refusal (Event e (Err x)).
Proof. by destruct e. Qed.
Lemma err_call {R : Type} (e : migration_op R) (k : R -> migration_prog unit) tr x :
  runs (bind (call e) k) tr (Err x) -> (forall a t, runs (k a) t (Err x) -> Exists refusal t) -> Exists refusal tr.
Proof. intros ([a|y] & t & -> & H)%runs_bind_call Hk; [right; by eapply Hk|]. left. apply refusal_Err. Qed.
(** The verdict on the answer that ends a body. *)
Lemma err_verdict {R : Type} (e : migration_op R) (v : R -> result migration_error unit) tr x :
  runs (let* a := call e in lift (v a)) tr (Err x) -> (forall a, v a = Err x -> refusal (Event e (Ok a))) -> Exists refusal tr.
Proof. intros ([a|y] & t & -> & H)%runs_bind_call Hv; left; [|apply refusal_Err]. apply runs_lift in H as [_ H]. by apply Hv. Qed.
Lemma err_guarding s (k : migration_prog unit) tr x :
  runs (execute_guarding_timeout s ;* k) tr (Err x) -> (forall t, runs k t (Err x) -> Exists refusal t) -> Exists refusal tr.
Proof.
  intros [(t1 & t2 & u & -> & ->%guarding_Ok & H)|(y & _ & H)]%runs_bind Hk; [right; by apply Hk|].
  apply runs_catch in H as [(a & [=] & _)|(t1 & t2 & z & -> & ->%runs_call & _)]. left. apply refusal_Err.
Qed.
Lemma err_optional (b : bool) s (k : migration_prog unit) tr x :
  runs ((if b then execute_guarding_timeout s else Ret tt) ;* k) tr (Err x) -> (forall t, runs k t (Err x) -> Exists refusal t) -> Exists refusal tr.
Proof. destruct b; [by apply err_guarding|]. rewrite bind_Ret. auto. Qed.

Lemma registry_schema_refused tr x : runs apply_registry_schema tr (Err x) -> Exists refusal tr.
Proof.
  unfold apply_registry_schema. intros H. apply (err_call _ _ _ _ H). clear. intros _ tr H. apply (err_guarding _ _ _ _ H). clear. intros tr H.
  apply (err_guarding _ _ _ _ H). clear. intros tr H. apply (err_call _ _ _ _ H). clear. intros relation tr H.
  apply (err_optional _ _ _ _ _ H). clear. intros tr H. apply (err_call _ _ _ _ H). clear. intros sql tr H.
  apply (err_call _ _ _ _ H). clear. intros _ tr H. apply (err_optional _ _ _ _ _ H). clear. intros tr H.
  apply (err_call _ _ _ _ H). clear. intros _ tr H. apply (err_verdict _ _ _ _ H). clear. intros row Hv [= ->].
  by assert (verify_catalog_signature (Some ordinary_table) = Ok tt) as E by done; rewrite E in Hv.
Qed.
Lemma environment_schema_refused tr x : runs apply_environment_schema tr (Err x) -> Exists refusal tr.
Proof.
  unfold apply_environment_schema. intros H. apply (err_call _ _ _ _ H). clear. intros _ tr H. apply (err_guarding _ _ _ _ H). clear. intros tr H.
  apply (err_call _ _ _ _ H). clear. intros sql tr H. apply (err_guarding _ _ _ _ H). clear. intros tr H.
  apply (err_call _ _ _ _ H). clear. intros _ tr H. apply (err_verdict _ _ _ _ H). clear. intros rows Hv Ho%owned_is_accepted. by rewrite Ho in Hv.
Qed.

(** ** What a run of a migration is *)

(** Without a cursor there is nothing to roll back. *)
Definition not_opened (tr : list (event migration_op migration_error)) (o : result migration_error unit) : Prop :=
  exists x, tr = [Event OpenCursor (Err x)] /\ o = Err x.
(** The rollback is the last step, and something before it was refused. *)
Definition rolled_back (tr : list (event migration_op migration_error)) (o : result migration_error unit) : Prop :=
  exists t r x, tr = Event OpenCursor (Ok tt) :: t ++ [Event RollbackAll r] /\ Exists refusal t /\ o = Err x /\
    (forall y, r = Err y -> x = y).

Lemma framed_rolled_back (body : migration_prog unit) t e r o :
  runs body t (Err e) -> (forall tr x, runs body tr (Err x) -> Exists refusal tr) -> o = Err (match r with Ok _ => e | Err x => x end) ->
  rolled_back (Event OpenCursor (Ok tt) :: t ++ [Event RollbackAll r]) o.
Proof. intros H Hr ->. eexists t, r, _. split_and!; [done|by eapply Hr|done|by intros y ->]. Qed.

(** C33. A migration commits only tables it owns.  Whatever the database answers, a run of the
    registry's migration that gets a cursor is either exactly its locks, its schema script and the
    catalog query, each answered without error, where the table is a permanent ordinary one with
    nothing foreign in it, then the commit, whose answer is the outcome; or it ends in a rollback
    and an error, and before it some statement failed or the catalog showed another table.  The
    environment migration likewise: when it reaches its commit and no field of the catalog's rows
    holds one of the separators [;] and [|], both authority tables have exactly their expected
    columns; and when it rolls back, a statement failed or they have not.  (With a separator in a
    quoted column name a table it does not own can be committed.)  Without a cursor nothing else
    is asked, and on an autocommit connection nothing at all. *)
Theorem migrations_commit_what_they_verified tr o :
  (runs (run_migration false) tr o ->
     (exists relation sql, tr = Event OpenCursor (Ok tt) :: migrated relation sql ++ [Event CommitAll o]) \/
     rolled_back tr o \/ not_opened tr o) /\
  (runs (run_environment_migration false) tr o ->
     (exists sql rows, tr = Event OpenCursor (Ok tt) :: environment_migrated sql rows ++ [Event CommitAll o] /\
        (Forall plain_row rows -> owned_tables rows)) \/
     rolled_back tr o \/ not_opened tr o) /\
  (runs (run_migration true) tr o \/ runs (run_environment_migration true) tr o -> tr = [] /\ exists why, o = Err (MigrationAutocommitError why)).
Proof.
  split; [|split].
  - intros [H|[(t & -> & (relation & sql & ->)%registry_schema_applied)|(t & e & r & -> & H & Ho)]]%framed_cases; [right; by right|left; eauto|right; left].
    eapply framed_rolled_back; [exact H|exact registry_schema_refused|exact Ho].
  - intros [H|[(t & -> & (sql & rows & -> & H)%environment_schema_applied)|(t & e & r & -> & H & Ho)]]%framed_cases; [right; by right|left|right; left].
    + exists sql, rows. split; [done|]. intros Hp. by apply accepted_is_owned.
    + eapply framed_rolled_back; [exact H|exact environment_schema_refused|exact Ho].
  - intros [[-> ->]%runs_Raise|[-> ->]%runs_Raise]; eauto.
Qed.

(** ** A database in which the migration succeeds *)

Definition sample_database (row : option table_catalog) : handler (E := migration_op) (X := migration_error) unit :=
  fun R e w => match e in migration_op R return result migration_error R * unit with
               | FetchRegclass => (Ok (Some None), tt)
               | FetchCatalog => (Ok row, tt)
               | FetchAuthority => (Ok good_rows, tt)
               | ReadMigration name => (Ok name, tt)
               | OpenCursor | Execute _ | CommitAll | RollbackAll => (Ok tt, tt)
               end.
Lemma migrations_commit_what_they_verified_witness :
  (exists relation sql, (exec (sample_database (Some ordinary_table)) (run_migration false) tt).1.2 =
     Event OpenCursor (Ok tt) :: migrated relation sql ++ [Event CommitAll (Ok tt)]) /\
  (exec (sample_database None) (run_migration false) tt).1.1 = Err (CatalogVerificationError "catalog verification found no matching relation").
Proof.
  split; [|reflexivity].
  destruct (proj1 (migrations_commit_what_they_verified _ _) (exec_runs (sample_database (Some ordinary_table)) (run_migration false) tt)) as [H|[H|H]].
  - exact H.
  - destruct H as (t & r & x & _ & _ & E & _). discriminate E.
  - destruct H as (x & E & _). discriminate E.
Defined.
